(* ===== verification/_CoqProject ===== *)
-Q . S2P
Prelude.v
DList.v
PkeUtils.v
Ring.v
RingSys.v
Transport.v
TransportRefine.v
TransportCreate.v
UsdmKernel.v
UsdmKernelInv.v
PageTable.v
Slab.v
UsdmHeap.v
UsdmHeapInv.v
UsdmHeapOps.v
UsdmHeapSpec.v
Cfg.v
Pfvf.v
PfvfMsg.v
PfvfLink.v
DevMgr.v
BufferDesc.v
HeaderFooter.v
LockFreeStack.v
ContigMem.v
MemPool.v
MemPoolUsdm.v
SymCipher.v
SymQueue.v
SymSession.v
SymSystem.v
SymSystemInv.v
UioRings.v
UioOwner.v
UioCleanup.v
UioSystem.v
UserRing.v
UserRingSys.v
UserRingSim.v
UserRingCalls.v
UserRingProps.v
UserRingDp.v
UserRingInit.v
UserRingSetup.v
