(* ===== verification/Prelude.v ===== *)
(** * Verification of the QuickAssist driver stack

    The repository holds the Intel QuickAssist (QAT) driver: a kernel driver
    ([quickassist/qat/drivers]), an access layer that offers cryptography and
    compression on it ([quickassist/lookaside/access_layer]), a memory driver
    ([quickassist/utilities/libusdm_drv]) and what they need around them.  This
    development models the parts that carry logic of their own.

    ** The program and its parts

    A client's request is a message.  The access layer describes the client's
    buffers to the hardware in a descriptor ([BufferDesc]), keeps the request in
    an entry of a pool ([LockFreeStack], [MemPool]), whose memory comes from
    slabs ([Slab]) and is translated by a table ([PageTable]), and puts the
    message on a ring ([Ring], [Transport]); the device answers on a second
    ring, which is polled or served by an interrupt.  Rings are created as the
    configuration table ([Cfg]) says, on a device found through the device table
    ([DevMgr]).  A process can have rings of its own: the kernel lends them and
    cleans up after it ([UioRings]), and the process runs them without a system
    call ([UserRing]).  A virtual function has no registers of its own for
    administration: it talks to the physical function over a 32-bit register
    ([Pfvf], [PfvfMsg], [PfvfLink]).

    ** The files

    - [Prelude] (this file): machine integers ([wrap], [u8] ... [u64], [s32]),
      bit operations with the tactic [zbits], byte strings, arrays and
      association lists, the state-and-fault monad [M], error numbers.
    - [Ring], [Transport], [TransportCreate]: [adf_transport.c],
      [adf_transport_internal.h], [adf_transport_access_macros.h].  The state
      [Transport.device] holds the banks with their rings (one record field per
      field of the C structures), the in-flight counters shared by a ring pair,
      the DMA buffers, the registers as the log of writes, and the calls of the
      clients' callbacks; each function is the one of the same name.
      [RingSys] is the protocol of a ring pair with the concurrent parties:
      any number of senders, one poller, the hardware.  [TransportRefine] shows
      that the driver's functions take the steps of [RingSys].
    - The memory driver.  [DList]: the list macros of [qae_mem_utils.h] on
      elements behind pointers.  [UsdmKernel], [UsdmKernelInv]: the kernel side,
      [qae_mem_drv.c]; [UsdmKernel.state] holds the file's static variables, the
      elements of the lists by their addresses and the open files, and the
      operations are the ioctls, [mem_open], [mem_release] and [mem_mmap].
      [Slab]: the bitmap allocator inside one slab; [PageTable]:
      [qae_page_table.h]; [UsdmHeap]: the rest of the user-space
      [qae_mem_utils.c] with [qae_mem_hugepage_utils.c], on top of those three
      (its state: the static variables, the slabs that are mapped with their
      control blocks, the regions and files the process has); [UsdmHeapInv]: its
      invariant, [UsdmHeapOps]: each call, [UsdmHeapSpec]: a whole process.
    - The memory pools.  [LockFreeStack]: [lac_lock_free_stack.h] with
      [Lac_MemPoolEntryAlloc] and [Lac_MemPoolEntryFree], as threads that make
      one access to shared memory at a time (a thread's program counter and
      registers, the pool's top with its counter, the next pointers);
      [MemPool]: [lac_mem_pools.c] for one thread, with entry headers whose
      fields are unwritten until the code writes them; [ContigMem]: what it asks
      of its allocator, as a class with laws; [MemPoolUsdm]: the heap of
      [UsdmHeap] is an instance.
    - Rings of processes, kernel side.  [UioRings]: [adf_uio.c] and
      [adf_uio_cleanup.c] ([bundle] is the bundle's record with the list of its
      users, the register file, the DMA memory and the clock); [UioOwner]: who
      has which ring; [UioCleanup]: the phases of the cleanup; [UioSystem]: any
      number of processes that reserve, release, map and go.
    - Rings of processes, user side.  [UserRing]: [uio_user_ring.c],
      [adf_user_ETring_mgr_dp.c] and the polling of [adf_user_transport_ctrl.c],
      on the handles, counters, ring memory and registers of a process [proc];
      [UserRingSys]: the functions cut into the steps threads and device take;
      [UserRingSim]: its simulation by [RingSys]; [UserRingCalls] and
      [UserRingProps]: whole calls, the size of a ring, the theorems;
      [UserRingDp]: the queueing functions of [dc_dp.c]; [UserRingInit],
      [UserRingSetup]: setting rings up and handles, over a process [user] that
      has its bundles, the ioctls and the counters besides.
    - [Cfg]: [adf_cfg.c], an abstract map of maps and the refinement of it.
    - [Pfvf]: the register protocol and the CRC of [adf_pf2vf_msg.c]; [PfvfMsg]:
      the messages of [adf_pf2vf_msg.c], [adf_vf2pf_msg.c], [adf_vf_isr.c] and
      [adf_pf2vf_capabilities.c]; [PfvfLink]: a PF and a VF running them.
    - [DevMgr]: [adf_dev_mgr.c].
    - [BufferDesc]: [lac_buffer_desc.c]; [HeaderFooter]: [dc_header_footer.c];
      [PkeUtils]: [lac_pke_utils.c].
    - Symmetric sessions.  [SymCipher]: what depends on the algorithm and the
      packet type alone ([lac_sym_cipher.c], [lac_sym_partial.c],
      [lac_sym_qat.c], [lac_sym_qat_cipher.c]); [SymQueue]: [lac_sym_queue.c]
      and [lac_sym_cb.c], with the changing part of the session descriptor as
      [session], the cookies linked through [pNext] as a map from addresses, the
      messages put on the ring, and what the transport and the cookie pool
      answer as lists; [SymSession]: a request from [LacSym_Perform] to the
      queue.  [SymSystem] is a session with its client and the device,
      [SymSystemInv] its invariant and what follows from it.

    The ring, transport and slab files share the view that a fault -- a NULL
    dereference, an access outside a buffer, a block freed twice, an overrun of
    the fuel below -- is [None]: a theorem that says a call is [Some] also
    says that the code does none of this.

    ** What the theorems show

    - Rings: with any interleaving of senders, poller and hardware no message
      and no response is overwritten ([RingSys.no_overwrite]), each accepted
      message is handed to the callback exactly once ([exactly_once]) and a
      quiet system drains ([drains]); the driver's send and response functions
      refine the protocol; [adf_create_ring] on every branch, and the pair it
      creates satisfies the protocol's start conditions.
    - Memory: first fit of [mem_alloc], the allocation invariant under
      [mem_alloc] and [mem_free]; lookups in the page table after
      [store_mmap_range]; [free_page_table] leaks no table; the list macros
      refine operations of lists.  The kernel driver: limits, ownership and
      release in every state that well-behaved processes reach
      ([usdm_kernel_safe]) and what another process can do
      ([userMemFree_foreign]).  The heap of a process: no call faults, blocks
      are disjoint, aligned and contiguous, freed memory is returned
      ([usdm_heap_correct]); and the misuses it does not stand.
    - Memory pools: whatever the threads do, each entry is free or with one
      client, and the pool is linearizable as a set of entries
      ([pool_safe], [lock_free_stack_refines]), under the condition that no
      compare-and-swap is delayed past the wrap of its counter, and a trace that
      shows the condition is needed ([pop_reuses_entry]); some thread always
      finishes ([lock_free]); creation and destruction of a pool on any
      allocator that keeps the laws, all memory returned ([mem_pool_lifecycle]).
    - Rings of processes: no ring belongs to two processes and the mask of used
      rings is what their lists say ([uio_rings_owned]); closing a mapping ends
      and frees and silences exactly the process's rings
      ([adf_uio_mmap_close_cleans]), except without memory
      ([cleanup_enomem_leaks]).  The user-space rings keep what [RingSys] shows
      of the kernel's, although the poller gives requests back late
      ([user_rings_safe]); what sending and polling do
      ([user_put_correct], [user_poll_correct]); a data-plane batch is the sends
      of its messages ([cpaDcDpEnqueueOpBatch_puts]); the size of a ring
      ([validateRingSize_correct]); a pair of rings that was created is where
      those theorems start ([create_pair_initial]), releasing undoes it
      ([create_release]), and a failed creation ruins the bank
      ([create_failure_poisons]).
    - Configuration: adding, reading and removing keys are the operations of a
      finite map; save and restore of a section round-trips.
    - PF/VF: the contract of [adf_iov_put], the CRC against its polynomial and
      its detection of errors; end to end, what a VF reads with
      [adf_iov_block_get] is what the PF's provider wrote, the capabilities
      arrive, the versions are agreed on.
    - Device table: the ids a user sees.
    - Access layer: descriptors, zeroing, gzip and zlib headers and footers,
      comparison of big integers.
    - Symmetric sessions: whatever the order in which the device works, a client
      gets what processing its requests one after the other gives, although
      streams of partial packets share one IV buffer with the device
      ([sym_session_sequential]); nothing faults ([sym_session_safe]) and every
      request is answered ([sym_session_drains]).  The checks, flags and key
      schedule behind it, the zeroing after a failed verification, and the cases
      outside: an error response blocks the session for good
      ([error_response_blocks]), a request can be sent twice, the sum in a check
      wraps.

    Where the code is not what its comments say, or does not do what it means
    to, the theorem states what it does.

    ** Fuel

    Loops that are not structural take fuel, enough for every input, and the
    theorems prove that they end: [verify_loop] of [Ring] 17 for the 16 sizes;
    [Transport.response_fuel] [2^17 + 1], the slots of the largest ring and one;
    [Slab.alloc_fuel] 2049, one more than the units of a slab, since each round
    moves the window; [Pfvf.ack_fuel] 19, the doublings from 5 us to more than
    2 s; [PkeUtils.compare_loop] the longer operand and one; [DList.walk] the
    number of elements; [UsdmHeap.destroy_loop] and [reset_loop] the number of
    slabs; [MemPool.free_stacked] and [init_stacked] the number of the pool's
    headers and one; [find_slot] and [find_pool] 32000, the pools there can be;
    [SymQueue.put_fuel] the 10000 tries of the code; [dequeue_loop] the number
    of cookies, since the queue has each at most once; [UioRings.wait_fuel] 120
    for the 118 sleeps of the two phases; [find_null_loop] the slots of the
    ring; [UserRing.notify_fuel] [2^18 + 1], more than the slots of a ring;
    [size_loop] 33 for the 32 bits.

    ** Parameters and limits

    What is not in the repository is a parameter: the outcome of memory
    allocation ([kzalloc], [mmap], [dma_alloc_coherent]), address translation by
    a client, the system calls and what the kernel promises of them
    ([UsdmHeap.OS] and [UsdmHeapInv.OSLaws]: regions that do not overlap, memory
    aligned to its size; mapping a page table never fails, and huge pages do not
    come and go), the hardware and, for the register protocol, what the other side
    does while one sleeps (instantiated by the real other side in [PfvfLink]).
    In [UioRings] what the device does while the driver sleeps, the outcome of
    allocations and of [remap_pfn_range], and [phys_to_virt] are parameters; in
    [UserRingInit] what the system answers to a creation is a record; in
    [UserRingSys] the device answers request [m] with [response m], never with
    the empty mark in its first word; one thread sends on a ring at a time, which
    is what its lock sees to.
    The function with which a client initialises the entries of its pool is an
    argument.  For symmetric sessions the device is a function of a request's
    data and IV that gives a result and an IV of the same length, and different
    buffers have different physical addresses; one client submits, and not while
    another of its callbacks runs in the queue (the two reads of the queue's
    state without its lock are taken as one).  Spin locks and mutexes appear as the atomicity of the sections they guard.
    64-bit addresses are not wrapped; log messages are left out.

    ** Not modelled

    The firmware loader and engine control (vendor formats); the services of
    the access layer beyond the parts above, which assemble firmware requests
    field by field (of the symmetric services hashing and chaining, the
    data-plane API and the public-key services); bring-up, reset, error handling
    and heartbeat of a device ([adf_init.c], [adf_aer.c], [adf_heartbeat.c]), which
    are calls of the product's own functions and of the kernel's PCI layer in a
    fixed order; the configuration of bundles for processes, and in user space
    the opening of devices and the tables of a device's banks, which are
    system calls and allocation; the kernel's crypto API glue, sysfs, debugfs and
    control device, the per-product tables, OSAL, samples, generated and
    vendored code. *)

From Stdlib Require Export ZArith Lia.
From stdpp Require Export base numbers option strings gmap list.

#[global] Open Scope Z_scope.

(** ** Constants of the QuickAssist API the components share *)

Definition CPA_STATUS_SUCCESS := 0.
Definition CPA_STATUS_FAIL := -1.
Definition CPA_STATUS_INVALID_PARAM := -4.
Definition LAC_NUM_BITS_IN_BYTE := 8.

(** ** Fixed-width integers *)

Declare Scope qat_scope.
Delimit Scope qat_scope with qat.
Infix ".&" := Z.land (at level 40, left associativity) : qat_scope.
Infix ".|" := Z.lor (at level 50, left associativity) : qat_scope.
#[global] Open Scope qat_scope.

(** The value of an unsigned [w]-bit variable after [z] is assigned to it. *)
Definition wrap (w z : Z) : Z := z mod 2 ^ w.
Abbreviation u8 := (wrap 8).
Abbreviation u16 := (wrap 16).
Abbreviation u32 := (wrap 32).
Abbreviation u64 := (wrap 64).

(** The value of a signed 32-bit variable after [z] is assigned to it. *)
Definition s32 (z : Z) : Z :=
  let r := u32 z in if r <? 2 ^ 31 then r else r - 2 ^ 32.

(** [x & ~m] on an unsigned variable. *)
Definition clear (x m : Z) : Z := Z.ldiff x m.

(** C truth values. *)
Definition Zb (b : bool) : Z := if b then 1 else 0.

Create HintDb qat discriminated.

Lemma pow2_pos w : 0 <= w → 0 < 2 ^ w.
Proof. intros. apply Z.pow_pos_nonneg; lia. Qed.

Lemma wrap_range w z : 0 <= w → 0 <= wrap w z < 2 ^ w.
Proof. intros. apply Z.mod_pos_bound, pow2_pos. done. Qed.

Lemma wrap_small w z : 0 <= z < 2 ^ w → wrap w z = z.
Proof. apply Z.mod_small. Qed.

Lemma wrap_wrap w z : 0 <= w → wrap w (wrap w z) = wrap w z.
Proof. intros. apply wrap_small, wrap_range. done. Qed.

(** Sums and differences are computed modulo the width. *)
Lemma wrap_add w a b c : wrap w a = wrap w b → wrap w (a + c) = wrap w (b + c).
Proof. unfold wrap. intros H. by rewrite Zplus_mod, H, <- Zplus_mod. Qed.

Lemma wrap_sub w a b c : wrap w a = wrap w b → wrap w (a - c) = wrap w (b - c).
Proof. apply wrap_add. Qed.

Lemma s32_small z : - 2 ^ 31 <= z < 2 ^ 31 → s32 z = z.
Proof.
  intros Hz. unfold s32, wrap. cbv zeta.
  destruct (decide (0 <= z)) as [Hp|Hn].
  - rewrite Z.mod_small by lia. destruct (Z.ltb_spec z (2 ^ 31)); lia.
  - rewrite <- (Z.mod_unique z (2 ^ 32) (-1) (z + 2 ^ 32)) by lia.
    destruct (Z.ltb_spec (z + 2 ^ 32) (2 ^ 31)); lia.
Qed.

(** ** Bits *)

Lemma wrap_testbit w z i :
  0 <= w → 0 <= i → Z.testbit (wrap w z) i = (i <? w) && Z.testbit z i.
Proof.
  intros. unfold wrap. destruct (Z.ltb_spec i w); simpl.
  - apply Z.mod_pow2_bits_low; lia.
  - apply Z.mod_pow2_bits_high; lia.
Qed.

Lemma testbit_high z w i : 0 <= z < 2 ^ w → 0 <= w <= i → Z.testbit z i = false.
Proof.
  intros. rewrite <- (Z.mod_small z (2 ^ w)) by done.
  apply Z.mod_pow2_bits_high. lia.
Qed.

Lemma ones_testbit n i :
  0 <= n → Z.testbit (Z.ones n) i = (0 <=? i) && (i <? n).
Proof.
  intros. destruct (Z.leb_spec 0 i); simpl.
  - destruct (Z.ltb_spec i n).
    + apply Z.ones_spec_low; lia.
    + apply Z.ones_spec_high; lia.
  - apply Z.testbit_neg_r; lia.
Qed.

Lemma pow2_testbit n i : 0 <= n → Z.testbit (2 ^ n) i = (i =? n).
Proof.
  intros. destruct (Z.eqb_spec i n) as [->|].
  - apply Z.pow2_bits_true; lia.
  - apply Z.pow2_bits_false; lia.
Qed.

(** [1 << n], the single-bit mask the code tests its masks with. *)
Definition BIT (n : Z) : Z := Z.shiftl 1 n.

Lemma BIT_pow2 n : 0 <= n → BIT n = 2 ^ n.
Proof. intros. unfold BIT. rewrite Z.shiftl_mul_pow2 by done. lia. Qed.

Lemma BIT_testbit n i : 0 <= n → Z.testbit (BIT n) i = (i =? n).
Proof. intros. rewrite BIT_pow2 by done. by apply pow2_testbit. Qed.

(** [m & (1 << n)] is non-zero exactly when bit [n] of [m] is set. *)
Lemma land_BIT_nonzero m n :
  0 <= n → (m .& BIT n =? 0) = negb (Z.testbit m n).
Proof.
  intros. destruct (Z.testbit m n) eqn:E; simpl.
  - apply Z.eqb_neq. intros H0.
    assert (Z.testbit (m .& BIT n) n = true) as Hb.
    { by rewrite Z.land_spec, BIT_testbit, E, Z.eqb_refl. }
    rewrite H0, Z.bits_0 in Hb. done.
  - apply Z.eqb_eq, Z.bits_inj'. intros i Hi.
    rewrite Z.land_spec, BIT_testbit, Z.bits_0 by done.
    destruct (Z.eqb_spec i n) as [->|]; [by rewrite E|by rewrite andb_false_r].
Qed.

Lemma lor_BIT_testbit m n i :
  0 <= n → Z.testbit (m .| BIT n) i = Z.testbit m i || (i =? n).
Proof. intros. by rewrite Z.lor_spec, BIT_testbit. Qed.

Lemma lor_range w a b :
  0 <= w → 0 <= a < 2 ^ w → 0 <= b < 2 ^ w → 0 <= a .| b < 2 ^ w.
Proof.
  intros Hw Ha Hb. split; [apply Z.lor_nonneg; lia|].
  assert (a .| b = wrap w (a .| b)) as ->.
  { apply Z.bits_inj'. intros i Hi. rewrite wrap_testbit by lia.
    rewrite Z.lor_spec. destruct (Z.ltb_spec i w); [done|].
    rewrite (testbit_high a w), (testbit_high b w) by lia. done. }
  by apply wrap_range.
Qed.

Lemma land_range_r w a b : 0 <= w → 0 <= b < 2 ^ w → 0 <= a .& b < 2 ^ w.
Proof.
  intros Hw Hb. split; [apply Z.land_nonneg; lia|].
  assert (a .& b = wrap w (a .& b)) as ->.
  { apply Z.bits_inj'. intros i Hi. rewrite wrap_testbit by lia.
    rewrite Z.land_spec. destruct (Z.ltb_spec i w); [done|].
    rewrite (testbit_high b w) by lia. by rewrite andb_false_r. }
  by apply wrap_range.
Qed.

Lemma clear_range w a b : 0 <= w → 0 <= a < 2 ^ w → 0 <= clear a b < 2 ^ w.
Proof.
  intros Hw Ha. unfold clear. split; [apply Z.ldiff_nonneg; lia|].
  assert (Z.ldiff a b = wrap w (Z.ldiff a b)) as ->.
  { apply Z.bits_inj'. intros i Hi. rewrite wrap_testbit by lia.
    rewrite Z.ldiff_spec. destruct (Z.ltb_spec i w); [done|].
    by rewrite (testbit_high a w) by lia. }
  by apply wrap_range.
Qed.

(** [|] of fields that do not overlap is addition. *)
Lemma lor_add s a b : 0 <= s → 0 <= b < 2 ^ s → Z.shiftl a s .| b = a * 2 ^ s + b.
Proof.
  intros Hs Hb. rewrite <- Z.shiftl_mul_pow2 by done.
  pose proof (Z.add_lor_land (Z.shiftl a s) b).
  assert (Z.shiftl a s .& b = 0) as H0; [|lia].
  apply Z.bits_inj'. intros i Hi. rewrite Z.land_spec, Z.bits_0, Z.shiftl_spec by done.
  destruct (decide (i < s)).
  - by rewrite Z.testbit_neg_r by lia.
  - rewrite (testbit_high b s i) by lia. by rewrite andb_false_r.
Qed.

(** [auto with qat] bounds the machine operations. *)
#[export] Hint Resolve wrap_range pow2_pos lor_range land_range_r clear_range : qat.
#[export] Hint Extern 3 (_ <= _) => lia : qat.

(** Bitwise extensionality: reduce an equation between integers to its bits,
    split on every comparison of bit positions, and close the boolean goals. *)
Create Rewrite HintDb zbits.
#[export] Hint Rewrite
  Z.lor_spec Z.land_spec Z.ldiff_spec Z.lxor_spec Z.bits_0
  : zbits.
#[export] Hint Rewrite wrap_testbit Z.shiftl_spec Z.shiftr_spec ones_testbit
  BIT_testbit pow2_testbit Z.lnot_spec
  using lia : zbits.

Ltac zbits_cases :=
  repeat match goal with
    | |- context [?a <? ?b] => destruct (Z.ltb_spec a b); try lia
    | |- context [?a <=? ?b] => destruct (Z.leb_spec a b); try lia
    | |- context [?a =? ?b] => destruct (Z.eqb_spec a b); try lia
    end.

Ltac zbits :=
  apply Z.bits_inj'; intros ?i ?Hi; unfold clear in *;
  autorewrite with zbits; zbits_cases; subst;
  rewrite ?andb_true_r, ?andb_false_r, ?orb_false_r, ?orb_true_r; simpl; try done.

(** Setting a bit that is clear, and clearing it again. *)
Lemma clear_lor_BIT m i :
  0 <= i → Z.testbit m i = false → clear (m .| BIT i) (BIT i) = m.
Proof. intros Hi Hb. zbits. Qed.

(** ** Byte strings *)

(** A byte as the code's [u8]. *)
Definition byte_ok (b : Z) : Prop := 0 <= b < 256.
Abbreviation bytes_ok := (Forall byte_ok).

#[export] Instance byte_ok_dec b : Decision (byte_ok b).
Proof. unfold byte_ok. apply _. Defined.

(** Big-endian and little-endian values of a byte string. *)
Definition be_val (l : list Z) : Z := foldl (λ a b, a * 256 + b) 0 l.
Fixpoint le_val (l : list Z) : Z :=
  match l with [] => 0 | b :: l' => b + 256 * le_val l' end.

Lemma be_val_acc l a : foldl (λ x b, x * 256 + b) a l = a * 256 ^ Z.of_nat (length l) + be_val l.
Proof.
  unfold be_val. revert a. induction l as [|b l IH]; intros a; simpl.
  - change (256 ^ 0) with 1. lia.
  - rewrite IH, (IH (0 * 256 + b)), Nat2Z.inj_succ, Z.pow_succ_r by lia. lia.
Qed.

Lemma be_val_cons b l : be_val (b :: l) = b * 256 ^ Z.of_nat (length l) + be_val l.
Proof. unfold be_val at 1; simpl. rewrite be_val_acc. lia. Qed.

Lemma be_val_snoc l b : be_val (l ++ [b]) = be_val l * 256 + b.
Proof. unfold be_val. by rewrite foldl_app. Qed.

Lemma be_val_range l : bytes_ok l → 0 <= be_val l < 256 ^ Z.of_nat (length l).
Proof.
  induction 1 as [|b l Hb Hl IH]; [done|].
  rewrite be_val_cons. simpl length.
  rewrite Nat2Z.inj_succ, Z.pow_succ_r by lia. unfold byte_ok in Hb. nia.
Qed.

(** ** Arrays

    A C array is a list read and written by a [Z] index; an access outside the
    list is undefined behaviour, so both operations are partial. *)
Section arrays.
Context {A : Type}.
Implicit Types (l : list A) (i : Z) (x : A).

Definition aget l i : option A := if 0 <=? i then l !! Z.to_nat i else None.

Definition aset l i x : option (list A) :=
  if (0 <=? i) && (i <? Z.of_nat (length l))
  then Some (<[Z.to_nat i := x]> l) else None.

Lemma aget_Some l i x : aget l i = Some x → 0 <= i < Z.of_nat (length l).
Proof.
  unfold aget. destruct (Z.leb_spec 0 i); [|done].
  intros Hx%lookup_lt_Some. lia.
Qed.

Lemma aget_is_Some l i : 0 <= i < Z.of_nat (length l) → is_Some (aget l i).
Proof.
  intros. unfold aget. destruct (Z.leb_spec 0 i); [|lia].
  apply lookup_lt_is_Some. lia.
Qed.

Lemma aget_nat l (n : nat) : aget l (Z.of_nat n) = l !! n.
Proof. unfold aget. destruct (Z.leb_spec 0 (Z.of_nat n)); [by rewrite Nat2Z.id|lia]. Qed.

Lemma aset_in l i x :
  0 <= i < Z.of_nat (length l) → aset l i x = Some (<[Z.to_nat i := x]> l).
Proof.
  intros. unfold aset.
  destruct (Z.leb_spec 0 i), (Z.ltb_spec i (Z.of_nat (length l))); simpl; done || lia.
Qed.

Lemma aset_Some l i x l' :
  aset l i x = Some l' →
  0 <= i < Z.of_nat (length l) ∧ l' = <[Z.to_nat i := x]> l.
Proof.
  unfold aset.
  destruct (Z.leb_spec 0 i), (Z.ltb_spec i (Z.of_nat (length l))); simpl; [|done..].
  intros [= <-]. split; [lia|done].
Qed.

Lemma aget_aset_eq l l' i x : aset l i x = Some l' → aget l' i = Some x.
Proof.
  intros [? ->]%aset_Some. unfold aget. destruct (Z.leb_spec 0 i); [|lia].
  apply list_lookup_insert_eq. lia.
Qed.

Lemma aget_aset_ne l l' i j x : aset l i x = Some l' → i ≠ j → aget l' j = aget l j.
Proof.
  intros [? ->]%aset_Some ?. unfold aget. destruct (Z.leb_spec 0 j); [|done].
  apply list_lookup_insert_ne. lia.
Qed.

Lemma aset_length l l' i x : aset l i x = Some l' → length l' = length l.
Proof. intros [? ->]%aset_Some. apply length_insert. Qed.
End arrays.

(** ** Association lists

    A linked list of records searched by a string key, seen as a finite map:
    the first record with the key wins. *)
Section assoc.
Context {A B : Type} (kf : A → string) (vf : A → B).
Implicit Types (l : list A).

Definition assoc_map l : gmap string B := list_to_map ((λ a, (kf a, vf a)) <$> l).

Definition assoc_find (k : string) l : option (nat * A) := list_find (λ a, kf a = k) l.

Lemma assoc_map_cons a l : assoc_map (a :: l) = <[kf a := vf a]> (assoc_map l).
Proof. done. Qed.

Lemma assoc_lookup l k : assoc_map l !! k = (λ r, vf r.2) <$> assoc_find k l.
Proof.
  unfold assoc_find. induction l as [|a l IH]; [done|].
  rewrite assoc_map_cons. simpl. case_decide as E.
  - subst. by rewrite lookup_insert_eq.
  - rewrite lookup_insert_ne by done. rewrite IH. by destruct (list_find _ l) as [[]|].
Qed.

Lemma assoc_find_Some k l p a :
  assoc_find k l = Some (p, a) → l !! p = Some a ∧ kf a = k.
Proof. intros (? & ? & _)%list_find_Some. done. Qed.

Lemma assoc_find_None k l : assoc_find k l = None ↔ k ∉ kf <$> l.
Proof.
  unfold assoc_find. rewrite list_find_None, list_elem_of_fmap, Forall_forall. split.
  - intros H (a & -> & Ha). by apply (H a Ha).
  - intros H a Ha <-. apply H. eauto.
Qed.

Lemma assoc_lookup_None l k : assoc_map l !! k = None ↔ k ∉ kf <$> l.
Proof.
  rewrite assoc_lookup, <- assoc_find_None. destruct (assoc_find k l); naive_solver.
Qed.

Lemma assoc_map_snoc l a :
  kf a ∉ kf <$> l → assoc_map (l ++ [a]) = <[kf a := vf a]> (assoc_map l).
Proof.
  induction l as [|x l IH]; intros Hn; [done|].
  rewrite <- app_comm_cons, !assoc_map_cons, IH by set_solver.
  apply insert_insert_ne. set_solver.
Qed.

Lemma assoc_map_filter l k :
  assoc_map (filter (λ a, kf a ≠ k) l) = delete k (assoc_map l).
Proof.
  induction l as [|x l IH]; [symmetry; apply delete_empty|].
  rewrite filter_cons, assoc_map_cons. case_decide as E.
  - rewrite assoc_map_cons, IH. symmetry. by apply delete_insert_ne.
  - subst. by rewrite IH, delete_insert_eq.
Qed.

Lemma assoc_map_update l p a a' k :
  assoc_find k l = Some (p, a) → kf a' = k →
  assoc_map (<[p := a']> l) = <[k := vf a']> (assoc_map l).
Proof.
  unfold assoc_find. revert p. induction l as [|x l IH]; intros p; [done|].
  simpl. case_decide as E.
  - intros [= <- <-] <-. simpl. by rewrite !assoc_map_cons, E, insert_insert_eq.
  - destruct (list_find _ l) as [[q y]|] eqn:F; simpl; [|done].
    intros [= <- <-] Hk. simpl. rewrite !assoc_map_cons, (IH q) by done.
    by apply insert_insert_ne.
Qed.

Lemma assoc_map_delete l p a k :
  NoDup (kf <$> l) → assoc_find k l = Some (p, a) →
  assoc_map (delete p l) = delete k (assoc_map l).
Proof.
  unfold assoc_find. revert p. induction l as [|x l IH]; intros p Hnd; [done|].
  apply NoDup_cons in Hnd as [Hx Hnd]. simpl. case_decide as E.
  - intros [= <- <-]. subst. simpl. rewrite assoc_map_cons, delete_insert_eq, delete_id; [done|].
    by apply assoc_lookup_None.
  - destruct (list_find _ l) as [[q y]|] eqn:F; simpl; [|done].
    intros [= <- <-]. change (delete (S q) (x :: l)) with (x :: delete q l).
    rewrite !assoc_map_cons, (IH q) by done.
    symmetry. by apply delete_insert_ne.
Qed.
End assoc.

(** ** Functions, updated at a point *)

Definition fupd {K A} `{EqDecision K} (f : K → A) (p : K) (v : A) : K → A :=
  λ q, if decide (q = p) then v else f q.
Lemma fupd_eq {K A} `{EqDecision K} (f : K → A) p v : fupd f p v p = v.
Proof. unfold fupd. by rewrite decide_True. Qed.
Lemma fupd_ne {K A} `{EqDecision K} (f : K → A) p v q : q ≠ p → fupd f p v q = f q.
Proof. intros. unfold fupd. by rewrite decide_False. Qed.

(** ** Sums over a map *)

Definition map_sum {A} (f : A → Z) (m : gmap Z A) : Z := map_fold (λ _ x acc, f x + acc) 0 m.

Section map_sum.
Context {A : Type} (f : A → Z).
Implicit Type m : gmap Z A.

Lemma map_sum_insert m k x : m !! k = None → map_sum f (<[k := x]> m) = f x + map_sum f m.
Proof. intros. unfold map_sum. rewrite map_fold_insert_L; [done|intros; lia|done]. Qed.

Lemma map_sum_delete m k x : m !! k = Some x → map_sum f m = f x + map_sum f (delete k m).
Proof. intros. unfold map_sum. rewrite (map_fold_delete_L _ _ k x); [done|intros; lia|done]. Qed.

Lemma map_sum_update m k x y :
  m !! k = Some x → map_sum f (<[k := y]> m) = map_sum f m - f x + f y.
Proof.
  intros Hk. rewrite (map_sum_delete m k x) by done. rewrite <- insert_delete_eq.
  rewrite map_sum_insert by apply lookup_delete_eq. lia.
Qed.

Lemma map_sum_mono m1 m2 :
  m1 ⊆ m2 → (∀ k x, m2 !! k = Some x → 0 <= f x) → 0 <= map_sum f m1 <= map_sum f m2.
Proof.
  revert m2. induction m1 as [|k x m1 Hk IH] using map_ind; intros m2 Hsub Hpos.
  - split; [done|]. clear Hsub. revert Hpos. induction m2 as [|k x m Hk IH] using map_ind; [done|].
    intros Hpos. rewrite map_sum_insert by done. change (map_sum f ∅) with 0 in *.
    pose proof (Hpos k x (lookup_insert_eq _ _ _)).
    enough (0 <= map_sum f m) by lia. apply IH. intros j y Hj. apply (Hpos j).
    rewrite lookup_insert_ne; [done|congruence].
  - rewrite map_sum_insert by done.
    assert (m2 !! k = Some x) as Hk2 by (eapply lookup_weaken, Hsub; apply lookup_insert_eq).
    rewrite (map_sum_delete m2 k x) by done. pose proof (Hpos k x Hk2).
    enough (0 <= map_sum f m1 <= map_sum f (delete k m2)) by lia. apply IH.
    + by eapply insert_delete_subseteq.
    + intros j y [_ Hj]%lookup_delete_Some. by eapply Hpos.
Qed.
End map_sum.

(** ** State, and faults

    A call that threads a state [S] and may run into undefined behaviour (a
    double free, a read outside a buffer, a NULL dereference).  [None] is the
    fault; error codes the code itself returns are ordinary results. *)
Definition M (S A : Type) : Type := S → option (A * S).

Section monad.
Context {S : Type}.

Definition ret {A} (a : A) : M S A := λ s, Some (a, s).
Definition bind {A B} (m : M S A) (f : A → M S B) : M S B :=
  λ s, match m s with None => None | Some (a, s') => f a s' end.

Definition fault {A} : M S A := λ _, None.
Definition gets {A} (f : S → A) : M S A := λ s, Some (f s, s).
Definition modify (f : S → S) : M S () := λ s, Some ((), f s).
Definition lift {A} (o : option A) : M S A :=
  λ s, match o with None => None | Some a => Some (a, s) end.
Definition when (b : bool) (m : M S ()) : M S () := if b then m else ret ().

(** A [for] loop over a list of indices. *)
Fixpoint foreach {A} (l : list A) (body : A → M S ()) : M S () :=
  match l with
  | [] => ret ()
  | x :: l' => bind (body x) (λ _, foreach l' body)
  end.

Lemma bind_Some {A B} (m : M S A) (k : A → M S B) s a s' :
  m s = Some (a, s') → bind m k s = k a s'.
Proof. unfold bind. by intros ->. Qed.

Lemma bind_None {A B} (m : M S A) (k : A → M S B) s :
  m s = None → bind m k s = None.
Proof. unfold bind. by intros ->. Qed.

Lemma bind_inv {A B} (m : M S A) (k : A → M S B) s b s' :
  bind m k s = Some (b, s') → ∃ a s1, m s = Some (a, s1) ∧ k a s1 = Some (b, s').
Proof. unfold bind. destruct (m s) as [[a s1]|]; [eauto|done]. Qed.

Lemma bind_ret {A B} (a : A) (k : A → M S B) s : bind (ret a) k s = k a s.
Proof. done. Qed.

Lemma bind_gets {A B} (f : S → A) (k : A → M S B) s : bind (gets f) k s = k (f s) s.
Proof. done. Qed.

Lemma bind_modify {B} (f : S → S) (k : () → M S B) s : bind (modify f) k s = k () (f s).
Proof. done. Qed.

Lemma bind_lift {A B} (a : A) (k : A → M S B) s : bind (lift (Some a)) k s = k a s.
Proof. done. Qed.

Lemma bind_assoc {A B C} (m : M S A) (f : A → M S B) (g : B → M S C) s :
  bind (bind m f) g s = bind m (λ a, bind (f a) g) s.
Proof. unfold bind. by destruct (m s) as [[a s1]|]. Qed.

End monad.

Create Rewrite HintDb monad.
#[export] Hint Rewrite @bind_ret @bind_gets @bind_modify @bind_lift @bind_assoc : monad.

Notation "x <- m ;; k" := (bind m (λ x, k))
  (at level 100, m at next level, right associativity) : qat_scope.
Notation "'let!' p := m 'in' k" := (bind m (λ x, match x with p => k end))
  (at level 100, p pattern, m at level 99, right associativity) : qat_scope.
Notation "m ;; k" := (bind m (λ _, k)) (at level 100, right associativity) : qat_scope.

(** Take the branch of a conditional whose test is a literal. *)
Ltac branch :=
  change (negb true) with false; change (negb false) with true; cbv beta iota.

(** Error numbers the kernel side returns negated. *)
Definition EIO := 5.
Definition EAGAIN := 11.
Definition ENOMEM := 12.
Definition EFAULT := 14.
Definition EEXIST := 17.
Definition ENODEV := 19.
Definition EINVAL := 22.
