(* ===== verification/DList.v ===== *)
(** * Doubly linked lists

    Models the list macros of [qae_mem_utils.h], by which the memory driver, in
    the kernel and in user space, keeps its slabs in lists and hash chains.  A
    pointer is an address, 0 for NULL.  The two link fields a list uses (those
    the macros' [mode] names) are a map from the address of an element to its
    links; an access outside the map is a fault.  The macros are shown to be
    the operations of a list of addresses. *)

From S2P Require Import Prelude.

#[local] Open Scope Z_scope.
#[local] Open Scope qat_scope.

Module DList.

Record link := Link { pPrev : Z; pNext : Z }.

(** The head and the tail pointer of a list. *)
Record dlist := DL { head : Z; tail : Z }.
Definition empty : dlist := DL 0 0.

Abbreviation links := (gmap Z link).

(** [p->pPrev = v] and [p->pNext = v] *)
Definition set_prev (p v : Z) (ls : links) : option links :=
  l ← ls !! p; Some (<[p := Link v (pNext l)]> ls).
Definition set_next (p v : Z) (ls : links) : option links :=
  l ← ls !! p; Some (<[p := Link (pPrev l) v]> ls).

Definition ADD_ELEMENT_TO_HEAD_LIST (e : Z) (ls : links) (d : dlist) : option (links * dlist) :=
  ls ← set_prev e 0 ls;
  if head d =? 0 then
    ls ← set_next e 0 ls; Some (ls, DL e e)
  else
    ls ← set_next e (head d) ls;
    ls ← set_prev (head d) e ls; Some (ls, DL e (tail d)).

Definition ADD_ELEMENT_TO_END_LIST (e : Z) (ls : links) (d : dlist) : option (links * dlist) :=
  ls ← set_next e 0 ls;
  if tail d =? 0 then
    ls ← set_prev e 0 ls; Some (ls, DL e e)
  else
    ls ← set_prev e (tail d) ls;
    ls ← set_next (tail d) e ls; Some (ls, DL (head d) e).

Definition REMOVE_ELEMENT_FROM_LIST (e : Z) (ls : links) (d : dlist) : option (links * dlist) :=
  l ← ls !! e;
  if negb (pPrev l =? 0) then
    ls ← set_next (pPrev l) (pNext l) ls;
    if negb (pNext l =? 0) then
      ls ← set_prev (pNext l) (pPrev l) ls; Some (ls, d)
    else Some (ls, DL (head d) (pPrev l))
  else if negb (pNext l =? 0) then
    ls ← set_prev (pNext l) 0 ls; Some (ls, DL (pNext l) (tail d))
  else Some (ls, DL 0 0).

(** The elements a loop [for (p = head; p != NULL; p = p->pNext)] visits. *)
Fixpoint walk (fuel : nat) (ls : links) (p : Z) : option (list Z) :=
  if p =? 0 then Some [] else
  match fuel with
  | O => None
  | S fuel => l ← ls !! p; rest ← walk fuel ls (pNext l); Some (p :: rest)
  end.
Definition dlist_elements (ls : links) (d : dlist) : option (list Z) := walk (size ls) ls (head d).

(** ** Shape *)

(** From [xs] on, with [p] before and [q] behind it. *)
Fixpoint dseg (ls : links) (p : Z) (xs : list Z) (q : Z) : Prop :=
  match xs with
  | [] => True
  | x :: xs => x ≠ 0 ∧ ls !! x = Some (Link p (List.hd q xs)) ∧ dseg ls x xs q
  end.

(** [d] is a list of the elements [xs]. *)
Definition is_list (ls : links) (d : dlist) (xs : list Z) : Prop :=
  NoDup xs ∧ dseg ls 0 xs 0 ∧ head d = List.hd 0 xs ∧ tail d = List.last xs 0.

Lemma dseg_app ls p xs ys q :
  dseg ls p (xs ++ ys) q ↔ dseg ls p xs (List.hd q ys) ∧ dseg ls (List.last xs p) ys q.
Proof.
  revert p. induction xs as [|x xs IH]; intros p; [naive_solver|].
  cbn [app dseg]. rewrite IH.
  replace (List.last (x :: xs) p) with (List.last xs x)
    by (destruct xs as [|y xs]; [done|]; cbn [List.last]; clear;
        revert y; induction xs as [|z xs IH]; intros y; [done|apply (IH z)]).
  destruct xs; naive_solver.
Qed.

Lemma dseg_frame ls ls' p xs q :
  (∀ x, x ∈ xs → ls' !! x = ls !! x) → dseg ls p xs q → dseg ls' p xs q.
Proof.
  revert p. induction xs as [|x xs IH]; intros p Hf; [done|]. cbn [dseg].
  intros (Hx & Hl & Hs). rewrite Hf by set_solver. split_and!; [done..|].
  apply IH; [|done]. intros y Hy. apply Hf. set_solver.
Qed.

Lemma dseg_elem ls p xs q x : dseg ls p xs q → x ∈ xs → x ≠ 0 ∧ is_Some (ls !! x).
Proof.
  revert p. induction xs as [|y xs IH]; intros p Hs Hx; [set_solver|].
  destruct Hs as (? & ? & ?). apply elem_of_cons in Hx as [->|Hx]; [eauto|by eapply IH].
Qed.

Lemma last_elem (xs : list Z) d : xs ≠ [] → List.last xs d ∈ xs.
Proof.
  induction xs as [|x xs IH]; [done|]. intros _. destruct xs as [|y xs]; [set_solver|].
  apply list_elem_of_further. by apply IH.
Qed.

Lemma last_cons_ne (x : Z) xs d : xs ≠ [] → List.last (x :: xs) d = List.last xs d.
Proof. by destruct xs. Qed.

Lemma last_app_cons (xs ys : list Z) y d : List.last (xs ++ y :: ys) d = List.last (y :: ys) d.
Proof. induction xs as [|x xs IH]; [done|]. rewrite <- IH. cbn. by destruct xs. Qed.

Lemma is_list_empty ls : is_list ls empty [].
Proof. repeat split. apply NoDup_nil_2. Qed.

Lemma is_list_frame ls ls' d xs :
  (∀ x, x ∈ xs → ls' !! x = ls !! x) → is_list ls d xs → is_list ls' d xs.
Proof. intros Hf (? & Hs & ?). split; [done|]. split; [by eapply dseg_frame|done]. Qed.

Lemma is_list_elem ls d xs x : is_list ls d xs → x ∈ xs → x ≠ 0 ∧ is_Some (ls !! x).
Proof. intros (_ & Hs & _). by eapply dseg_elem. Qed.

Lemma is_list_nil ls d xs : is_list ls d xs → (head d = 0 ↔ xs = []) ∧ (tail d = 0 ↔ xs = []).
Proof.
  intros (_ & Hs & Hh & Ht). rewrite Hh, Ht. destruct xs as [|x xs]; [done|].
  pose proof (dseg_elem _ _ _ _ x Hs ltac:(set_solver)) as [? _].
  pose proof (dseg_elem _ _ _ _ _ Hs (last_elem (x :: xs) 0 ltac:(done))) as [? _]. naive_solver.
Qed.

(** The head of the part [ys] of a segment can be given another [pPrev], ... *)
Lemma dseg_set_prev ls p p' y ys q :
  y ∉ ys → dseg ls p (y :: ys) q →
  ∃ ls', set_prev y p' ls = Some ls' ∧ dseg ls' p' (y :: ys) q ∧ ∀ z, z ≠ y → ls' !! z = ls !! z.
Proof.
  intros Hy (Hy0 & Hl & Hs). unfold set_prev. rewrite Hl. eexists. split; [reflexivity|]. split.
  - split; [done|]. rewrite lookup_insert_eq. split; [done|]. eapply dseg_frame, Hs.
    intros z Hz. apply lookup_insert_ne. by intros ->.
  - intros z Hz. by apply lookup_insert_ne.
Qed.

(** ... and its last element another [pNext]. *)
Lemma dseg_set_next ls p xs x q q' :
  x ∉ xs → dseg ls p (xs ++ [x]) q →
  ∃ ls', set_next x q' ls = Some ls' ∧ dseg ls' p (xs ++ [x]) q' ∧ ∀ z, z ≠ x → ls' !! z = ls !! z.
Proof.
  intros Hx (Hs & Hx0 & Hl & _)%dseg_app. unfold set_next. rewrite Hl. eexists. split; [reflexivity|].
  split.
  - apply dseg_app. split.
    + eapply dseg_frame, Hs. intros z Hz. apply lookup_insert_ne. by intros ->.
    + split; [done|]. by rewrite lookup_insert_eq.
  - intros z Hz. by apply lookup_insert_ne.
Qed.

(** ** The macros are the operations of a list *)

Lemma set_prev_Some p v ls l : ls !! p = Some l → set_prev p v ls = Some (<[p := Link v (pNext l)]> ls).
Proof. unfold set_prev. by intros ->. Qed.
Lemma set_next_Some p v ls l : ls !! p = Some l → set_next p v ls = Some (<[p := Link (pPrev l) v]> ls).
Proof. unfold set_next. by intros ->. Qed.

Lemma set_dom p v ls ls' : set_prev p v ls = Some ls' ∨ set_next p v ls = Some ls' → dom ls' = dom ls.
Proof.
  unfold set_prev, set_next. destruct (ls !! p) eqn:E; [|naive_solver]. apply elem_of_dom_2 in E.
  cbn. intros [[= <-]|[= <-]]; set_solver.
Qed.

Lemma add_head_spec e ls d xs :
  is_list ls d xs → e ∉ xs → e ≠ 0 → is_Some (ls !! e) →
  ∃ ls' d', ADD_ELEMENT_TO_HEAD_LIST e ls d = Some (ls', d') ∧ is_list ls' d' (e :: xs) ∧
    (∀ y, y ∉ e :: xs → ls' !! y = ls !! y) ∧ dom ls' = dom ls.
Proof.
  intros Hl He H0 [l Hel]. pose proof (is_list_nil _ _ _ Hl) as [Hnil _].
  destruct Hl as (Hnd & Hs & Hh & Ht). unfold ADD_ELEMENT_TO_HEAD_LIST.
  rewrite (set_prev_Some _ _ _ _ Hel). cbn [mbind option_bind].
  rewrite !(set_next_Some _ _ _ (Link 0 (pNext l))) by apply lookup_insert_eq.
  cbn [mbind option_bind pPrev]. rewrite !insert_insert_eq.
  assert (e ∈ dom ls) as Hdom by by apply elem_of_dom_2 in Hel.
  destruct xs as [|x xs].
  - rewrite (proj2 (Z.eqb_eq _ _)) by by apply Hnil. eexists _, _. split; [reflexivity|]. split; [|split].
    + repeat split; [apply NoDup_singleton|done|apply lookup_insert_eq].
    + intros y Hy. apply lookup_insert_ne. set_solver.
    + set_solver.
  - rewrite (proj2 (Z.eqb_neq _ _)) by (intros Hz; by apply Hnil in Hz).
    rewrite Hh. cbn [List.hd]. apply NoDup_cons in Hnd as [Hx Hnd].
    destruct (dseg_set_prev (<[e := Link 0 x]> ls) 0 e x xs 0 Hx) as (ls' & E & Hs' & Hf).
    { eapply dseg_frame, Hs. intros z Hz. apply lookup_insert_ne. set_solver. }
    rewrite E. cbn [mbind option_bind]. eexists _, _. split; [reflexivity|].
    assert (x ≠ e) by set_solver. split; [|split].
    + split; [by do 2 (apply NoDup_cons_2; [set_solver|])|]. split.
      * split; [done|]. split; [|done]. rewrite Hf by done. apply lookup_insert_eq.
      * split; [done|]. cbn [tail]. by rewrite Ht.
    + intros y Hy. rewrite Hf by set_solver. apply lookup_insert_ne. set_solver.
    + rewrite (set_dom _ _ _ _ (or_introl E)). set_solver.
Qed.

Lemma add_end_spec e ls d xs :
  is_list ls d xs → e ∉ xs → e ≠ 0 → is_Some (ls !! e) →
  ∃ ls' d', ADD_ELEMENT_TO_END_LIST e ls d = Some (ls', d') ∧ is_list ls' d' (xs ++ [e]) ∧
    (∀ y, y ∉ e :: xs → ls' !! y = ls !! y) ∧ dom ls' = dom ls.
Proof.
  intros Hl He H0 [l Hel]. pose proof (is_list_nil _ _ _ Hl) as [_ Hnil].
  destruct Hl as (Hnd & Hs & Hh & Ht). unfold ADD_ELEMENT_TO_END_LIST.
  rewrite (set_next_Some _ _ _ _ Hel). cbn [mbind option_bind].
  rewrite !(set_prev_Some _ _ _ (Link (pPrev l) 0)) by apply lookup_insert_eq.
  cbn [mbind option_bind pNext]. rewrite !insert_insert_eq.
  assert (e ∈ dom ls) as Hdom by by apply elem_of_dom_2 in Hel.
  destruct xs as [|x xs _] using rev_ind.
  - rewrite (proj2 (Z.eqb_eq _ _)) by by apply Hnil. eexists _, _. split; [reflexivity|]. split; [|split].
    + repeat split; [apply NoDup_singleton|done|apply lookup_insert_eq].
    + intros y Hy. apply lookup_insert_ne. set_solver.
    + set_solver.
  - rewrite (proj2 (Z.eqb_neq _ _)) by (intros Hz; apply Hnil in Hz; by destruct xs).
    rewrite Ht, last_last.
    assert (x ∉ xs) as Hxn by (apply NoDup_app in Hnd as (_ & Hx & _); set_solver).
    destruct (dseg_set_next (<[e := Link x 0]> ls) 0 xs x 0 e Hxn) as (ls' & E & Hs' & Hf).
    { eapply dseg_frame, Hs. intros z Hz. apply lookup_insert_ne. set_solver. }
    rewrite E. cbn [mbind option_bind]. eexists _, _. split; [reflexivity|].
    assert (x ≠ e) by set_solver. split; [|split].
    + split.
      { rewrite (Permutation_app_comm (xs ++ [x]) [e]). by apply NoDup_cons_2. }
      split; [|by rewrite last_last; destruct xs; cbn [app List.hd head] in *].
      apply dseg_app. split; [done|]. rewrite last_last. split; [done|].
      rewrite Hf by done. by rewrite lookup_insert_eq.
    + intros y Hy. rewrite Hf by set_solver. apply lookup_insert_ne. set_solver.
    + rewrite (set_dom _ _ _ _ (or_intror E)). set_solver.
Qed.

Lemma remove_spec e ls d xs ys :
  is_list ls d (xs ++ e :: ys) →
  ∃ ls' d', REMOVE_ELEMENT_FROM_LIST e ls d = Some (ls', d') ∧ is_list ls' d' (xs ++ ys) ∧
    (∀ y, y ∉ xs ++ ys → ls' !! y = ls !! y) ∧ dom ls' = dom ls.
Proof.
  intros (Hnd & Hs & Hh & Ht).
  apply dseg_app in Hs as (Hxs & He0 & Hel & Hys). cbn [List.hd] in Hxs.
  pose proof Hnd as (Hn1 & Hdisj & [Hey Hn2]%NoDup_cons)%NoDup_app.
  assert (e ∉ xs) as Hex by (intros H; by apply (Hdisj e H), list_elem_of_here).
  assert (NoDup (xs ++ ys)) as Hnd'
    by (apply NoDup_app; split_and!; [done| |done]; intros z Hz Hz'; apply (Hdisj z Hz); by right).
  unfold REMOVE_ELEMENT_FROM_LIST. rewrite Hel. cbn [mbind option_bind pPrev pNext].
  destruct xs as [|x xs _] using rev_ind; cbn [List.last] in *.
  - change (0 =? 0) with true; branch. destruct ys as [|y ys]; cbn [List.hd] in *.
    + change (0 =? 0) with true; branch. eexists _, _. split; [reflexivity|]. split; [|done]. repeat split. apply NoDup_nil_2.
    + pose proof (proj1 Hys) as Hy0. rewrite (proj2 (Z.eqb_neq _ _)) by done. cbn [negb].
      apply NoDup_cons in Hn2 as [Hy Hn2].
      destruct (dseg_set_prev ls e 0 y ys 0 Hy Hys) as (ls' & E & Hs' & Hf). rewrite E.
      eexists _, _. split; [reflexivity|]. split; [|split].
      * split; [done|]. split; [done|]. split; [done|]. cbn [tail]. by rewrite Ht.
      * intros z Hz. apply Hf. set_solver.
      * apply (set_dom _ _ _ _ (or_introl E)).
  - rewrite last_last in Hel |- *. pose proof Hxs as (_ & Hx0 & _)%dseg_app.
    rewrite (proj2 (Z.eqb_neq _ _)) by done. cbn [negb].
    assert (x ∉ xs) as Hx by (apply NoDup_app in Hn1 as (_ & Hx & _); set_solver).
    destruct (dseg_set_next ls 0 xs x e (List.hd 0 ys) Hx Hxs) as (ls1 & E1 & Hs1 & Hf1).
    rewrite E1. cbn [mbind option_bind].
    assert (x ∉ ys) as Hxy by (intros H; apply (Hdisj x); [set_solver|by right]).
    assert (dseg ls1 e ys 0) as Hys1 by (eapply dseg_frame, Hys; intros z Hz; apply Hf1; by intros ->).
    destruct ys as [|y ys]; cbn [List.hd] in *.
    + change (0 =? 0) with true; branch. eexists _, _. split; [reflexivity|]. rewrite app_nil_r in *. split; [|split].
      * split; [done|]. split; [done|]. cbn [head tail]. rewrite last_last. split; [|done].
        rewrite Hh. by destruct xs.
      * intros z Hz. apply Hf1. set_solver.
      * apply (set_dom _ _ _ _ (or_intror E1)).
    + pose proof (proj1 Hys) as Hy0. rewrite (proj2 (Z.eqb_neq _ _)) by done. cbn [negb].
      apply NoDup_cons in Hn2 as [Hy Hn2].
      destruct (dseg_set_prev ls1 e x y ys 0 Hy Hys1) as (ls2 & E2 & Hs2 & Hf2). rewrite E2.
      eexists _, _. split; [reflexivity|]. split; [|split].
      * split; [done|]. split; [|split].
        -- apply dseg_app. rewrite last_last. split; [|done].
           eapply dseg_frame, Hs1. intros z Hz. apply Hf2. intros ->.
           apply (Hdisj y Hz). right. left.
        -- rewrite Hh. by destruct xs.
        -- rewrite Ht. rewrite !last_app_cons. by rewrite last_cons_ne.
      * intros z Hz. rewrite Hf2 by set_solver. apply Hf1. set_solver.
      * by rewrite (set_dom _ _ _ _ (or_introl E2)), (set_dom _ _ _ _ (or_intror E1)).
Qed.

(** The traversal visits the elements, and ends. *)
Lemma walk_spec ls p xs fuel : dseg ls p xs 0 → (length xs <= fuel)%nat → walk fuel ls (List.hd 0 xs) = Some xs.
Proof.
  revert p fuel. induction xs as [|x xs IH]; intros p fuel Hs Hf; [by destruct fuel|].
  destruct Hs as (Hx & Hl & Hs). destruct fuel as [|fuel]; cbn [length] in Hf; [lia|].
  cbn [walk List.hd]. rewrite (proj2 (Z.eqb_neq _ _)) by done. rewrite Hl.
  cbn [mbind option_bind pNext]. by rewrite (IH x) by (done || lia).
Qed.

Lemma dlist_elements_spec ls d xs : is_list ls d xs → dlist_elements ls d = Some xs.
Proof.
  intros Hl. pose proof Hl as (Hnd & Hs & Hh & _). unfold dlist_elements. rewrite Hh.
  eapply walk_spec; [exact Hs|].
  rewrite <- (size_list_to_set (C := gset Z) xs) by done. rewrite <- size_dom.
  apply subseteq_size. intros x Hx%elem_of_list_to_set. apply elem_of_dom.
  by eapply dseg_elem.
Qed.

(** ** Families of lists

    Several lists through the same links, of which no two share an element: the
    chains of a hash table, or the lists an object moves between. *)

Definition family {K} (ls : links) (d : K → dlist) (xs : K → list Z) : Prop :=
  (∀ k, is_list ls (d k) (xs k)) ∧ ∀ k k' x, x ∈ xs k → x ∈ xs k' → k = k'.

Section family.
Context {K : Type} `{EqDecision K}.
Implicit Types (d : K → dlist) (xs : K → list Z).

Lemma family_frame ls ls' d d' xs :
  (∀ k x, x ∈ xs k → ls' !! x = ls !! x) → (∀ k, d' k = d k) → family ls d xs → family ls' d' xs.
Proof.
  intros Hf Hd [Hl Hn]. split; [|done]. intros k. rewrite Hd. eapply is_list_frame, Hl. intros x. apply Hf.
Qed.

Lemma family_empty ls d : (∀ k, d k = empty) → family ls d (λ _, []).
Proof. intros Hd. split; [|set_solver]. intros k. rewrite Hd. apply is_list_empty. Qed.

Lemma family_elem ls d xs k x : family ls d xs → x ∈ xs k → x ≠ 0 ∧ is_Some (ls !! x).
Proof. intros [Hl _]. by apply (is_list_elem _ _ _ _ (Hl k)). Qed.

Lemma family_add ls d xs k e :
  family ls d xs → (∀ k, e ∉ xs k) → e ≠ 0 → is_Some (ls !! e) →
  ∃ ls' dk, ADD_ELEMENT_TO_HEAD_LIST e ls (d k) = Some (ls', dk) ∧ dom ls' = dom ls ∧
    ∀ d', (∀ j, d' j = fupd d k dk j) → family ls' d' (fupd xs k (e :: xs k)).
Proof.
  intros [Hl Hn] He H0 Hs.
  destruct (add_head_spec e ls (d k) (xs k) (Hl k) (He k) H0 Hs) as (ls' & dk & Ha & Hk & Hf & Hdom).
  exists ls', dk. split; [done|]. split; [done|]. intros d' Hd'. split.
  - intros j. rewrite Hd'. destruct (decide (j = k)) as [->|Hj]; [by rewrite !fupd_eq|].
    rewrite !fupd_ne by done. eapply is_list_frame, Hl. intros x Hx. apply Hf.
    intros [->|Hin]%elem_of_cons; [by apply (He j)|]. apply Hj. by apply (Hn j k x).
  - assert (∀ j x, x ∈ fupd xs k (e :: xs k) j → x ∈ xs j ∨ x = e ∧ j = k) as Hin.
    { intros j x. destruct (decide (j = k)) as [->|Hj]; [rewrite fupd_eq, elem_of_cons; naive_solver|].
      rewrite fupd_ne by done. by left. }
    intros j j' x [H1|[-> ->]]%Hin [H2|[? ->]]%Hin; subst; [by eapply Hn|by destruct (He j)|by destruct (He j')|done].
Qed.

Lemma family_remove ls d xs k as_ e bs :
  family ls d xs → xs k = as_ ++ e :: bs →
  ∃ ls' dk, REMOVE_ELEMENT_FROM_LIST e ls (d k) = Some (ls', dk) ∧ dom ls' = dom ls ∧
    (∀ j x, x ∈ fupd xs k (as_ ++ bs) j ↔ x ∈ xs j ∧ x ≠ e) ∧
    ∀ d', (∀ j, d' j = fupd d k dk j) → family ls' d' (fupd xs k (as_ ++ bs)).
Proof.
  intros [Hl Hn] Hk. pose proof (Hl k) as Hlk. rewrite Hk in Hlk.
  destruct (remove_spec e ls (d k) as_ bs Hlk) as (ls' & dk & Hr & Hk' & Hf & Hdom).
  assert (∀ j x, x ∈ fupd xs k (as_ ++ bs) j ↔ x ∈ xs j ∧ x ≠ e) as Hin.
  { pose proof (proj1 Hlk) as (_ & Hea & [Heb _]%NoDup_cons)%NoDup_app.
    intros j x. destruct (decide (j = k)) as [->|Hj].
    - rewrite fupd_eq, Hk, !elem_of_app, elem_of_cons. split; [|naive_solver].
      intros Hx. split; [naive_solver|]. intros ->.
      destruct Hx as [Hx|Hx]; [by apply (Hea e Hx), list_elem_of_here|done].
    - rewrite fupd_ne by done. split; [|naive_solver]. intros Hx. split; [done|]. intros ->.
      apply Hj. apply (Hn j k e); [done|]. rewrite Hk. set_solver. }
  exists ls', dk. split_and!; [done..|]. intros d' Hd'. split.
  - intros j. rewrite Hd'. destruct (decide (j = k)) as [->|Hj]; [by rewrite !fupd_eq|].
    rewrite !fupd_ne by done. eapply is_list_frame, Hl. intros x Hx. apply Hf. intros Hx'.
    apply Hj. apply (Hn j k x); [done|]. rewrite Hk. clear - Hx'. set_solver.
  - intros j j' x [H1 _]%Hin [H2 _]%Hin. by eapply Hn.
Qed.
End family.

(** The macros are the operations of a list.  On a list of the elements
    [xs ++ ys], adding a new element at the head or at the end and, on one of
    [xs ++ e :: ys], removing [e], never touch a stale or NULL link and leave
    the list with the element added or removed, the other elements in their
    order, and the links of all elements that are not in the list as they were;
    a loop over the list visits its elements in order. *)
Theorem list_macros_refine ls d e xs ys :
  (is_list ls d (xs ++ ys) → e ∉ xs ++ ys → e ≠ 0 → is_Some (ls !! e) →
   (∃ ls' d', ADD_ELEMENT_TO_HEAD_LIST e ls d = Some (ls', d') ∧ is_list ls' d' (e :: xs ++ ys) ∧
      ∀ y, y ∉ e :: xs ++ ys → ls' !! y = ls !! y) ∧
   (∃ ls' d', ADD_ELEMENT_TO_END_LIST e ls d = Some (ls', d') ∧ is_list ls' d' ((xs ++ ys) ++ [e]) ∧
      ∀ y, y ∉ e :: xs ++ ys → ls' !! y = ls !! y)) ∧
  (is_list ls d (xs ++ e :: ys) →
   ∃ ls' d', REMOVE_ELEMENT_FROM_LIST e ls d = Some (ls', d') ∧ is_list ls' d' (xs ++ ys) ∧
     ∀ y, y ∉ xs ++ ys → ls' !! y = ls !! y) ∧
  (is_list ls d xs → dlist_elements ls d = Some xs).
Proof.
  split; [intros Hl He H0 Hs; split|split].
  - destruct (add_head_spec e ls d _ Hl He H0 Hs) as (ls' & d' & ? & ? & ? & _). by exists ls', d'.
  - destruct (add_end_spec e ls d _ Hl He H0 Hs) as (ls' & d' & ? & ? & ? & _). by exists ls', d'.
  - intros Hl. destruct (remove_spec e ls d xs ys Hl) as (ls' & d' & ? & ? & ? & _). by exists ls', d'.
  - apply dlist_elements_spec.
Qed.

(** A list of two elements, and a third one to add. *)
Definition ex_links : links := {[ 1 := Link 0 2; 2 := Link 1 0; 3 := Link 0 0 ]}.
Definition ex_list : dlist := DL 1 2.

Lemma list_macros_refine_witness :
  (∃ ls' d', ADD_ELEMENT_TO_HEAD_LIST 3 ex_links ex_list = Some (ls', d') ∧ is_list ls' d' [3; 1; 2]) ∧
  (∃ ls' d', REMOVE_ELEMENT_FROM_LIST 1 ex_links ex_list = Some (ls', d') ∧ is_list ls' d' [2]).
Proof.
  assert (is_list ex_links ex_list [1; 2]) as Hl
    by (split; [repeat constructor; set_solver|by repeat split]).
  split.
  - destruct (proj1 (list_macros_refine ex_links ex_list 3 [1] [2]) Hl) as [(ls' & d' & H1 & H2 & _) _];
      [set_solver|done|by eexists|by exists ls', d'].
  - destruct (proj1 (proj2 (list_macros_refine ex_links ex_list 1 [] [2])) Hl) as (ls' & d' & H1 & H2 & _).
    by exists ls', d'.
Defined.

End DList.
