(* ===== verification/PkeUtils.v ===== *)
(** * Large-integer helpers of the public-key code

    Models [lac_pke_utils.c]: comparison of two big-endian integers with small
    deltas, comparison with zero, the minimal byte length, the position of the
    most significant bit and the bit length.  A [CpaFlatBuffer] is its bytes,
    most significant first; its [dataLenInBytes] is their number. *)

From S2P Require Import Prelude.

Module PkeUtils.

Definition LAC_4096_BITS := 4096.
Definition LAC_BITS_TO_BYTES (x : Z) : Z := Z.shiftr x 3.

(** Converts negative 32-bit numbers to -1 and the others to 1. *)
Definition LAC_SIGNED_CONVERT32 (num : Z) : Z := Z.shiftl (Z.shiftr num 31) 1 + 1.

(** [memcmp]: the sign of the first difference. *)
Fixpoint memcmp (a b : list Z) : Z :=
  match a, b with
  | x :: a', y :: b' => if x =? y then memcmp a' b' else if x <? y then -1 else 1
  | _, _ => 0
  end.

(** The subtraction loop of [LacPke_Compare]: [lenA] and [lenB] count the bytes
    still to be taken, least significant first. *)
Fixpoint compare_loop (fuel : nat) (dataA dataB : list Z) (lenA lenB : nat)
    (delta notZero : Z) : option (Z * Z) :=
  match fuel with
  | O => None
  | S fuel =>
    if (lenA =? 0)%nat && (lenB =? 0)%nat then Some (delta, notZero)
    else
      let '(lenA, delta) :=
        match lenA with
        | O => (O, delta)
        | S l => (l, s32 (delta + default 0 (dataA !! l)))
        end in
      let '(lenB, delta) :=
        match lenB with
        | O => (O, delta)
        | S l => (l, s32 (delta - default 0 (dataB !! l)))
        end in
      let notZero := notZero .| (delta .& 0xFF) in
      let delta := Z.shiftr delta LAC_NUM_BITS_IN_BYTE in
      compare_loop fuel dataA dataB lenA lenB delta notZero
  end.

Definition LacPke_Compare (bufA : list Z) (deltaA : Z) (bufB : list Z) (deltaB : Z)
    : option Z :=
  let delta := s32 (deltaA - deltaB) in
  let lenA := length bufA in
  let lenB := length bufB in
  if (lenA =? lenB)%nat && (delta =? 0) then Some (memcmp bufA bufB)
  else
    '(delta, notZero) ←
      compare_loop (S (lenA `max` lenB)) bufA bufB lenA lenB delta 0;
    Some (if notZero =? 0 then 0 else LAC_SIGNED_CONVERT32 delta).

(** The loop [while (i--) if (pData[i]) return 1] of [LacPke_CompareZero]. *)
Fixpoint any_nonzero_below (data : list Z) (i : nat) : bool :=
  match i with
  | O => false
  | S i => if negb (default 0 (data !! i) =? 0) then true else any_nonzero_below data i
  end.

(** The buffer must not be empty: the code reads [pData[dataLenInBytes - 1]]. *)
Definition LacPke_CompareZero (buf : list Z) (delta : Z) : option Z :=
  match length buf with
  | O => None
  | S i =>
    if any_nonzero_below buf i then Some 1
    else b ← buf !! i; Some (s32 (b + delta))
  end.

(** Index of the first non-zero byte, or the length. *)
Fixpoint leading_zeros (buf : list Z) : nat :=
  match buf with
  | [] => O
  | b :: buf' => if b =? 0 then S (leading_zeros buf') else O
  end.

Definition LacPke_GetMinBytes (buf : list Z) : Z :=
  Z.of_nat (length buf) - Z.of_nat (leading_zeros buf).

(** [while ((msByte & 0x80) == 0) { msByte <<= 1; pos--; }] *)
Fixpoint msb_loop (fuel : nat) (msByte pos : Z) : option Z :=
  match fuel with
  | O => None
  | S fuel =>
    if msByte .& 0x80 =? 0 then msb_loop fuel (u8 (Z.shiftl msByte 1)) (u32 (pos - 1))
    else Some pos
  end.

Record bitpos_out := BitPosOut {
  pBitPos : option Z;      (** written only on success *)
  pIndexMsb : Z;
  pIsZero : bool
}.

(** The outer [option] is the non-termination of the loop, excluded below. *)
Definition LacPke_GetBitPos (buf : list Z) : option (Z * bitpos_out) :=
  let buffSizeInBytes := Z.of_nat (length buf) in
  let numBytes := LacPke_GetMinBytes buf in
  let indexMsb := u32 (buffSizeInBytes - numBytes) in
  if numBytes =? 0 then
    Some (CPA_STATUS_SUCCESS, BitPosOut (Some 0) (u32 (indexMsb - 1)) true)
  else if LAC_BITS_TO_BYTES LAC_4096_BITS <? numBytes then
    Some (CPA_STATUS_INVALID_PARAM, BitPosOut None indexMsb false)
  else
    let bitPosition := u32 (numBytes * LAC_NUM_BITS_IN_BYTE - 1) in
    msByte ← aget buf indexMsb;
    pos ← msb_loop 8 msByte bitPosition;
    Some (CPA_STATUS_SUCCESS, BitPosOut (Some pos) indexMsb false).

Definition LacPke_GetBitLen (buf : list Z) : option (Z * option Z) :=
  let buffSizeInBytes := Z.of_nat (length buf) in
  let numBytes := LacPke_GetMinBytes buf in
  if numBytes =? 0 then Some (CPA_STATUS_SUCCESS, Some 0)
  else if LAC_BITS_TO_BYTES LAC_4096_BITS <? numBytes then
    Some (CPA_STATUS_INVALID_PARAM, None)
  else
    msByte ← aget buf (buffSizeInBytes - numBytes);
    len ← msb_loop 8 msByte (u32 (numBytes * LAC_NUM_BITS_IN_BYTE));
    Some (CPA_STATUS_SUCCESS, Some len).

(** ** Comparison *)

(** The byte taken from a buffer with [len] bytes left. *)
Definition last_digit (data : list Z) (len : nat) : Z :=
  match len with O => 0 | S l => default 0 (data !! l) end.

Lemma be_val_take data len :
  (len <= length data)%nat →
  be_val (take len data) = 256 * be_val (take (pred len) data) + last_digit data len.
Proof.
  intros Hl. destruct len as [|l]; [done|]. simpl pred. simpl last_digit.
  destruct (lookup_lt_is_Some_2 data l) as [x Hx]; [lia|].
  rewrite (take_S_r _ _ _ Hx), be_val_snoc, Hx. simpl. lia.
Qed.

Lemma last_digit_range data len : bytes_ok data → 0 <= last_digit data len < 256.
Proof.
  intros Hd. destruct len as [|l]; simpl; [lia|].
  destruct (data !! l) eqn:E; simpl; [|lia].
  apply (Forall_lookup_1 _ _ _ _ Hd E).
Qed.

Lemma land_FF z : z .& 0xFF = z mod 256.
Proof. change 0xFF with (Z.ones 8). by rewrite Z.land_ones. Qed.

(** One iteration in closed form. *)
Lemma compare_loop_step fuel dataA dataB lenA lenB delta notZero :
  bytes_ok dataA → bytes_ok dataB →
  - 2 ^ 31 + 255 <= delta < 2 ^ 31 - 255 →
  (0 < lenA ∨ 0 < lenB)%nat →
  let delta1 := delta + last_digit dataA lenA - last_digit dataB lenB in
  compare_loop (S fuel) dataA dataB lenA lenB delta notZero =
  compare_loop fuel dataA dataB (pred lenA) (pred lenB)
    (delta1 / 256) (notZero .| delta1 mod 256).
Proof.
  intros HA HB Hd Hl delta1.
  pose proof (last_digit_range _ lenA HA) as RA.
  pose proof (last_digit_range _ lenB HB) as RB.
  simpl compare_loop. unfold LAC_NUM_BITS_IN_BYTE.
  replace ((lenA =? 0)%nat && (lenB =? 0)%nat) with false
    by (destruct (Nat.eqb_spec lenA 0), (Nat.eqb_spec lenB 0); simpl; lia || done).
  assert (∀ d, Z.shiftr d 8 = d / 256) as Hs by (intros; by rewrite Z.shiftr_div_pow2).
  destruct lenA as [|a], lenB as [|b]; simpl in *; [lia|..].
  all: try rewrite (s32_small (delta + _)) by lia.
  all: rewrite ?s32_small by lia.
  all: rewrite land_FF, Hs; unfold delta1; rewrite ?Z.add_0_r, ?Z.sub_0_r; done.
Qed.

(** With enough fuel the loop subtracts the two integers: it leaves the floor of
    the quotient of the difference by [256 ^ n], and [notZero] records whether
    the remainder is zero. *)
Lemma compare_loop_spec fuel dataA dataB lenA lenB delta notZero :
  bytes_ok dataA → bytes_ok dataB →
  (lenA <= length dataA)%nat → (lenB <= length dataB)%nat →
  (lenA `max` lenB < fuel)%nat →
  - 2 ^ 31 + 255 <= delta < 2 ^ 31 - 255 → 0 <= notZero →
  let D := be_val (take lenA dataA) + delta - be_val (take lenB dataB) in
  let N := 256 ^ Z.of_nat (lenA `max` lenB) in
  ∃ nz, compare_loop fuel dataA dataB lenA lenB delta notZero = Some (D / N, nz)
    ∧ (nz = 0 ↔ notZero = 0 ∧ D mod N = 0).
Proof.
  intros HA HB. revert lenA lenB delta notZero.
  induction fuel as [|fuel IH]; intros lenA lenB delta notZero HlA HlB Hf Hd Hnz D N; [lia|].
  destruct (decide (lenA = O ∧ lenB = O)) as [[-> ->]|Hne].
  { exists notZero. unfold D, N. simpl. rewrite Z.div_1_r, Z.mod_1_r.
    split; [|tauto]. by rewrite Z.sub_0_r. }
  rewrite compare_loop_step by (done || lia).
  set (delta1 := delta + _ - _).
  pose proof (last_digit_range _ lenA HA) as RA.
  pose proof (last_digit_range _ lenB HB) as RB.
  destruct (IH (pred lenA) (pred lenB) (delta1 / 256) (notZero .| delta1 mod 256))
    as (nz & Hr & Hz); [lia..| | |].
  { split; [apply Z.div_le_lower_bound; lia|apply Z.div_lt_upper_bound; lia]. }
  { apply Z.lor_nonneg. split; [done|apply Z.mod_pos_bound; lia]. }
  set (D' := be_val (take (pred lenA) dataA) + delta1 / 256
              - be_val (take (pred lenB) dataB)) in *.
  set (N' := 256 ^ Z.of_nat (pred lenA `max` pred lenB)) in *.
  assert (N = 256 * N') as HN.
  { unfold N, N'. rewrite <- Z.pow_succ_r by lia. f_equal. lia. }
  assert (D = 256 * D' + delta1 mod 256) as HD.
  { unfold D, D'. rewrite (be_val_take dataA), (be_val_take dataB) by done.
    pose proof (Z.div_mod delta1 256). unfold delta1 in *. lia. }
  pose proof (Z.mod_pos_bound delta1 256) as Hm.
  assert (0 < N') by (unfold N'; apply Z.pow_pos_nonneg; lia).
  assert (D / 256 = D') as Hq
    by (symmetry; apply (Z.div_unique D 256 D' (delta1 mod 256)); lia).
  assert (D mod 256 = delta1 mod 256) as Hm'
    by (symmetry; apply (Z.mod_unique D 256 D' (delta1 mod 256)); lia).
  exists nz. split.
  - rewrite Hr. do 2 f_equal. rewrite HN, <- Z.div_div by lia. by rewrite Hq.
  - rewrite Hz, Z.lor_eq_0_iff, HN, Z.rem_mul_r, Hq, Hm' by lia.
    pose proof (Z.mod_pos_bound D' N'). lia.
Qed.

Lemma memcmp_sgn a b :
  length a = length b → bytes_ok a → bytes_ok b →
  memcmp a b = Z.sgn (be_val a - be_val b).
Proof.
  revert b. induction a as [|x a IH]; intros [|y b] Hl Ha Hb; try done.
  simpl in Hl. injection Hl as Hl.
  apply Forall_cons_1 in Ha as [Hx Ha]. apply Forall_cons_1 in Hb as [Hy Hb].
  simpl memcmp. rewrite !be_val_cons, <- Hl.
  pose proof (be_val_range a Ha) as Ra. pose proof (be_val_range b Hb) as Rb.
  rewrite <- Hl in Rb. set (P := 256 ^ _) in *.
  destruct (Z.eqb_spec x y) as [->|].
  - rewrite (IH b) by done. f_equal. lia.
  - destruct (Z.ltb_spec x y); symmetry; [apply Z.sgn_neg|apply Z.sgn_pos]; nia.
Qed.

Lemma signed_convert z :
  - 2 ^ 31 <= z < 2 ^ 31 → LAC_SIGNED_CONVERT32 z = if z <? 0 then -1 else 1.
Proof.
  intros Hz. unfold LAC_SIGNED_CONVERT32.
  rewrite Z.shiftr_div_pow2, Z.shiftl_mul_pow2 by lia.
  destruct (Z.ltb_spec z 0).
  - rewrite <- (Z.div_unique z (2 ^ 31) (-1) (z + 2 ^ 31)) by lia. done.
  - rewrite Z.div_small by lia. done.
Qed.

Lemma div_pow256_range D n :
  - 2 ^ 31 * 256 ^ n <= D < 2 ^ 31 * 256 ^ n → 0 <= n →
  - 2 ^ 31 <= D / 256 ^ n < 2 ^ 31.
Proof.
  intros HD Hn. assert (0 < 256 ^ n) by (apply Z.pow_pos_nonneg; lia).
  split; [apply Z.div_le_lower_bound; lia|apply Z.div_lt_upper_bound; lia].
Qed.

(** The result in closed form: the comparison is the sign of the difference,
    except that a non-zero multiple of [256 ^ n] compares as zero. *)
Definition compare_result (D N : Z) : Z :=
  if D mod N =? 0 then 0 else Z.sgn D.

Lemma compare_general bufA deltaA bufB deltaB :
  bytes_ok bufA → bytes_ok bufB →
  - 2 ^ 30 + 128 <= deltaA <= 2 ^ 30 - 128 → - 2 ^ 30 + 128 < deltaB < 2 ^ 30 - 128 →
  (length bufA ≠ length bufB ∨ deltaA ≠ deltaB) →
  LacPke_Compare bufA deltaA bufB deltaB =
  Some (compare_result (be_val bufA + deltaA - (be_val bufB + deltaB))
          (256 ^ Z.of_nat (length bufA `max` length bufB))).
Proof.
  intros HA HB HdA HdB Hne. unfold LacPke_Compare. rewrite s32_small by lia.
  replace ((length bufA =? length bufB)%nat && (deltaA - deltaB =? 0)) with false.
  2:{ destruct (Nat.eqb_spec (length bufA) (length bufB)), (Z.eqb_spec (deltaA - deltaB) 0);
      simpl; done || lia. }
  destruct (compare_loop_spec (S (length bufA `max` length bufB)) bufA bufB
    (length bufA) (length bufB) (deltaA - deltaB) 0) as (nz & -> & Hz); [done..|lia|lia|lia|].
  simpl. rewrite !firstn_all in *. set (N := 256 ^ _) in *.
  replace (be_val bufA + (deltaA - deltaB) - be_val bufB)
    with (be_val bufA + deltaA - (be_val bufB + deltaB)) in * by lia.
  set (D := be_val bufA + deltaA - (be_val bufB + deltaB)) in *.
  f_equal. unfold compare_result.
  destruct (Z.eqb_spec nz 0) as [E|E].
  { destruct (Z.eqb_spec (D mod N) 0); [done|tauto]. }
  destruct (Z.eqb_spec (D mod N) 0) as [E'|E']; [tauto|].
  assert (0 < N) by (unfold N; apply Z.pow_pos_nonneg; lia).
  pose proof (be_val_range _ HA) as RA. pose proof (be_val_range _ HB) as RB.
  assert (256 ^ Z.of_nat (length bufA) <= N ∧ 256 ^ Z.of_nat (length bufB) <= N)
    as [NA NB] by (split; apply Z.pow_le_mono_r; lia).
  rewrite signed_convert by (apply div_pow256_range; fold N; unfold D; nia).
  destruct (Z.ltb_spec (D / N) 0) as [Hn|Hn].
  - symmetry. apply Z.sgn_neg. apply Znot_ge_lt. intros ?.
    pose proof (Z.div_pos D N). lia.
  - symmetry. apply Z.sgn_pos. destruct (decide (D < 0)).
    + pose proof (Z.div_lt_upper_bound D N 0). lia.
    + assert (D ≠ 0) by (intros ->; by rewrite Z.mod_0_l in E' by lia). lia.
Qed.

(** ** Length and position of the most significant bit *)

Lemma leading_zeros_split buf :
  (leading_zeros buf <= length buf)%nat ∧
  be_val buf = be_val (drop (leading_zeros buf) buf) ∧
  match drop (leading_zeros buf) buf with [] => True | b :: _ => b ≠ 0 end.
Proof.
  induction buf as [|b buf (Hl & Hv & Hd)]; simpl; [done|].
  destruct (Z.eqb_spec b 0) as [->|]; simpl; [|split; [lia|done]].
  rewrite be_val_cons, Hv. split; [lia|]. split; [lia|done].
Qed.

(** The significant bytes of a non-zero number: a non-zero head byte [b] at the
    index the code computes, and a tail. *)
Lemma GetMinBytes_split buf :
  bytes_ok buf →
  let n := LacPke_GetMinBytes buf in
  (n = 0 ∧ be_val buf = 0) ∨
  (∃ b tl, 0 < n ∧ aget buf (Z.of_nat (length buf) - n) = Some b ∧ 0 < b < 256 ∧
     be_val buf = b * 256 ^ (n - 1) + be_val tl ∧ 0 <= be_val tl < 256 ^ (n - 1)).
Proof.
  intros Hb n. destruct (leading_zeros_split buf) as (Hl & Hv & Hd).
  unfold n, LacPke_GetMinBytes. destruct (drop _ buf) as [|b tl] eqn:E.
  - left. apply (f_equal length) in E. rewrite length_drop in E. simpl in E.
    split; [lia|by rewrite Hv].
  - right. exists b, tl.
    assert (Forall byte_ok (b :: tl)) as Hok by (rewrite <- E; by apply Forall_drop).
    apply Forall_cons_1 in Hok as [Hbb Htl].
    pose proof (f_equal length E) as Hlen. rewrite length_drop in Hlen. simpl in Hlen.
    replace (Z.of_nat (length buf) - (Z.of_nat (length buf) - Z.of_nat (leading_zeros buf)))
      with (Z.of_nat (leading_zeros buf)) by lia.
    rewrite aget_nat, <- (Nat.add_0_r (leading_zeros buf)), <- lookup_drop, Nat.add_0_r, E.
    replace (Z.of_nat (length buf) - Z.of_nat (leading_zeros buf) - 1)
      with (Z.of_nat (length tl)) by lia.
    pose proof (be_val_range tl Htl).
    rewrite Hv, be_val_cons. unfold byte_ok in Hbb. repeat split; try done; lia.
Qed.

Lemma GetMinBytes_range buf :
  0 <= LacPke_GetMinBytes buf <= Z.of_nat (length buf).
Proof.
  unfold LacPke_GetMinBytes. destruct (leading_zeros_split buf) as (Hl & _). lia.
Qed.

Lemma top_bit b : 0 < b < 256 → (b .& 0x80 =? 0) = (b <? 128).
Proof.
  intros. change (b .& 0x80) with (b .& BIT 7). rewrite land_BIT_nonzero by lia.
  destruct (Z.ltb_spec b 128).
  - by rewrite (testbit_high b 7) by lia.
  - assert (Z.testbit b 7 = true) as ->; [|done].
    rewrite Z.testbit_true, <- (Z.div_unique b (2 ^ 7) 1 (b - 128)) by lia. done.
Qed.

Lemma msb_loop_spec fuel b pos :
  0 < b < 256 → 7 - Z.log2 b < Z.of_nat fuel → 7 - Z.log2 b <= pos < 2 ^ 32 →
  msb_loop fuel b pos = Some (pos - (7 - Z.log2 b)).
Proof.
  revert b pos. induction fuel as [|fuel IH]; intros b pos Hb Hf Hp.
  { pose proof (Z.log2_lt_pow2 b 8). lia. }
  simpl. rewrite top_bit by done. destruct (Z.ltb_spec b 128).
  - rewrite Z.shiftl_mul_pow2, (wrap_small 8) by lia.
    assert (Z.log2 (b * 2 ^ 1) = Z.log2 b + 1) as Hlog.
    { rewrite Z.log2_mul_pow2 by lia. lia. }
    pose proof (Z.log2_lt_pow2 b 7).
    rewrite (wrap_small 32), IH by lia. f_equal. lia.
  - assert (Z.log2 b = 7) as -> by (apply Z.log2_unique; lia). f_equal. lia.
Qed.

Lemma log2_split b t k :
  0 <= k → 0 < b → 0 <= t < 2 ^ k → Z.log2 (b * 2 ^ k + t) = Z.log2 b + k.
Proof.
  intros Hk Hb Ht. pose proof (Z.log2_spec b Hb) as Hs. pose proof (Z.log2_nonneg b).
  apply Z.log2_unique; [lia|].
  rewrite <- Z.add_succ_l, !Z.pow_add_r by lia. nia.
Qed.

Lemma msb_of_split b t n :
  0 < n → 0 < b < 256 → 0 <= t < 256 ^ (n - 1) →
  Z.log2 (b * 256 ^ (n - 1) + t) = 8 * n - 1 - (7 - Z.log2 b).
Proof.
  intros Hn Hb Ht. change 256 with (2 ^ 8) in *. rewrite <- Z.pow_mul_r in * by lia.
  rewrite log2_split by lia. lia.
Qed.

Lemma aligned_compare bufA deltaA bufB deltaB :
  bytes_ok bufA → bytes_ok bufB → length bufA = length bufB → deltaA = deltaB →
  LacPke_Compare bufA deltaA bufB deltaB =
  Some (compare_result (be_val bufA + deltaA - (be_val bufB + deltaB))
          (256 ^ Z.of_nat (length bufA `max` length bufB))).
Proof.
  intros HA HB Hl ->. unfold LacPke_Compare.
  rewrite Z.sub_diag, Hl, Nat.eqb_refl. simpl.
  rewrite memcmp_sgn by done. f_equal. unfold compare_result.
  pose proof (be_val_range _ HA) as RA. pose proof (be_val_range _ HB) as RB.
  rewrite Hl in RA. rewrite Nat.max_id. set (N := 256 ^ _) in *.
  replace (be_val bufA + deltaB - (be_val bufB + deltaB))
    with (be_val bufA - be_val bufB) by lia.
  destruct (Z.eqb_spec ((be_val bufA - be_val bufB) mod N) 0) as [E|]; [|done].
  apply Z.mod_divide in E as [k Hk]; [|lia].
  assert (k = 0) as -> by nia. by rewrite Hk.
Qed.

Lemma any_nonzero_below_spec data i :
  bytes_ok data → (i <= length data)%nat →
  any_nonzero_below data i = negb (be_val (take i data) =? 0).
Proof.
  intros Hd. induction i as [|i IH]; intros Hi; [done|].
  rewrite be_val_take by done. simpl pred. simpl last_digit. simpl any_nonzero_below.
  rewrite IH by lia. pose proof (last_digit_range data (S i) Hd) as R. simpl in R.
  pose proof (be_val_range (take i data)) as R2.
  specialize (R2 (Forall_take _ _ _ Hd)).
  destruct (Z.eqb_spec (default 0 (data !! i)) 0), (Z.eqb_spec (be_val (take i data)) 0),
    (Z.eqb_spec (256 * be_val (take i data) + default 0 (data !! i)) 0); simpl; done || lia.
Qed.

(** ** Properties *)

(** [LacPke_Compare] returns the sign of [(A + deltaA) - (B + deltaB)],
    for buffers of any lengths, except when the difference is a multiple of
    [256 ^ max(lenA, lenB)], where it returns 0. *)
Theorem LacPke_Compare_correct bufA deltaA bufB deltaB
    (HA : bytes_ok bufA) (HB : bytes_ok bufB)
    (HdA : - 2 ^ 30 + 128 <= deltaA <= 2 ^ 30 - 128)
    (HdB : - 2 ^ 30 + 128 < deltaB < 2 ^ 30 - 128) :
  let D := be_val bufA + deltaA - (be_val bufB + deltaB) in
  let N := 256 ^ Z.of_nat (length bufA `max` length bufB) in
  LacPke_Compare bufA deltaA bufB deltaB =
  Some (if D mod N =? 0 then 0 else Z.sgn D).
Proof.
  intros D N.
  destruct (decide (length bufA = length bufB)), (decide (deltaA = deltaB));
    [by apply aligned_compare|apply compare_general; auto..].
Qed.

(** [P - 1] against [G]: the use the key generation code makes of it. *)
Lemma LacPke_Compare_correct_witness :
  LacPke_Compare [1; 0] (-1) [255] 0 = Some 0 ∧
  LacPke_Compare [1; 0] (-1) [254] 0 = Some 1.
Proof.
  split.
  - refine (LacPke_Compare_correct [1; 0] (-1) [255] 0 _ _ _ _);
      [repeat constructor; done|repeat constructor; done|lia|lia].
  - refine (LacPke_Compare_correct [1; 0] (-1) [254] 0 _ _ _ _);
      [repeat constructor; done|repeat constructor; done|lia|lia].
Defined.

(** The carry out of the most significant byte is not compared: [255 + 1] and
    [0] compare as equal. *)
Example LacPke_Compare_carry_lost : LacPke_Compare [255] 1 [0] 0 = Some 0.
Proof. reflexivity. Qed.

(** [LacPke_GetBitPos] and [LacPke_GetBitLen] compute the position of the
    most significant bit and the bit length of the number in the buffer, index
    its most significant byte, flag zero, and reject more than 4096 bits. *)
Theorem LacPke_GetBit_correct buf
    (Hb : bytes_ok buf) (Hlen : Z.of_nat (length buf) < 2 ^ 32) :
  let x := be_val buf in
  let n := LacPke_GetMinBytes buf in
  (n = 0 ↔ x = 0) ∧
  (0 < n → 256 ^ (n - 1) <= x < 256 ^ n) ∧
  LacPke_GetBitPos buf = Some
    (if x =? 0 then
       (CPA_STATUS_SUCCESS, BitPosOut (Some 0) (u32 (Z.of_nat (length buf) - 1)) true)
     else if 2 ^ 4096 <=? x then
       (CPA_STATUS_INVALID_PARAM, BitPosOut None (Z.of_nat (length buf) - n) false)
     else (CPA_STATUS_SUCCESS,
           BitPosOut (Some (Z.log2 x)) (Z.of_nat (length buf) - n) false)) ∧
  LacPke_GetBitLen buf = Some
    (if x =? 0 then (CPA_STATUS_SUCCESS, Some 0)
     else if 2 ^ 4096 <=? x then (CPA_STATUS_INVALID_PARAM, None)
     else (CPA_STATUS_SUCCESS, Some (Z.log2 x + 1))).
Proof.
  intros x n. pose proof (GetMinBytes_range buf) as Rn. fold n in Rn.
  destruct (GetMinBytes_split buf Hb) as [[Hn Hx]|(b & tl & Hn & Hg & Rb & Hx & Rt)].
  { fold n in Hn. fold x in Hx. unfold LacPke_GetBitPos, LacPke_GetBitLen. fold n.
    rewrite Hn, Hx, Z.sub_0_r, (wrap_small 32 (Z.of_nat _)) by lia.
    split; [lia|]. split; [lia|]. done. }
  fold n in Hn, Hg, Hx, Rt. fold x in Hx.
  assert (0 < 256 ^ (n - 1)) by (apply Z.pow_pos_nonneg; lia).
  assert (256 ^ n = 256 * 256 ^ (n - 1)) as Hp
    by (rewrite <- Z.pow_succ_r by lia; f_equal; lia).
  assert (256 ^ (n - 1) <= x < 256 ^ n) as Rx by nia.
  split; [lia|]. split; [done|].
  pose proof (msb_of_split b (be_val tl) n Hn Rb Rt) as Hlog. rewrite <- Hx in Hlog.
  pose proof (Z.log2_nonneg b). pose proof (Z.log2_lt_pow2 b 8).
  unfold LacPke_GetBitPos, LacPke_GetBitLen. fold n.
  change (LAC_BITS_TO_BYTES LAC_4096_BITS) with 512. unfold LAC_NUM_BITS_IN_BYTE.
  rewrite !(wrap_small 32 (Z.of_nat (length buf) - n)), Hg by lia. cbn [mbind option_bind].
  destruct (Z.eqb_spec n 0); [lia|]. destruct (Z.eqb_spec x 0); [lia|].
  assert ((512 <? n) = (2 ^ 4096 <=? x)) as <-.
  { destruct (Z.ltb_spec 512 n), (Z.leb_spec (2 ^ 4096) x); try done; exfalso.
    - assert (256 ^ 512 <= 256 ^ (n - 1)) by (apply Z.pow_le_mono_r; lia).
      change (256 ^ 512) with (2 ^ 4096) in *. lia.
    - assert (256 ^ n <= 256 ^ 512) by (apply Z.pow_le_mono_r; lia).
      change (256 ^ 512) with (2 ^ 4096) in *. lia. }
  destruct (Z.ltb_spec 512 n); [done|].
  rewrite !(wrap_small 32) by lia. rewrite !msb_loop_spec by lia. cbn [mbind option_bind].
  replace (n * 8 - 1 - (7 - Z.log2 b)) with (Z.log2 x) by lia.
  by replace (n * 8 - (7 - Z.log2 b)) with (Z.log2 x + 1) by lia.
Qed.

Lemma LacPke_GetBit_correct_witness :
  bytes_ok [0; 0x15; 0x80] ∧ LacPke_GetBitLen [0; 0x15; 0x80] = Some (0, Some 13).
Proof.
  assert (H : bytes_ok [0; 0x15; 0x80]) by (repeat constructor; done).
  split; [exact H|].
  exact (proj2 (proj2 (proj2 (LacPke_GetBit_correct [0; 0x15; 0x80] H eq_refl)))).
Defined.

(** [LacPke_CompareZero] has the sign of [A + delta] for a byte-sized delta. *)
Theorem LacPke_CompareZero_correct buf delta
    (Hb : bytes_ok buf) (Hne : buf ≠ []) (Hd : - 128 <= delta <= 127) :
  ∃ r, LacPke_CompareZero buf delta = Some r ∧ Z.sgn r = Z.sgn (be_val buf + delta).
Proof.
  unfold LacPke_CompareZero. destruct (length buf) as [|i] eqn:Hl.
  { by apply nil_length_inv in Hl. }
  rewrite any_nonzero_below_spec by (done || lia).
  pose proof (be_val_take buf (length buf)) as Hv. rewrite firstn_all, Hl in Hv.
  simpl pred in Hv. simpl last_digit in Hv. rewrite Hv by lia.
  pose proof (last_digit_range buf (S i) Hb) as R. simpl in R.
  pose proof (be_val_range (take i buf) (Forall_take _ _ _ Hb)) as R2.
  destruct (Z.eqb_spec (be_val (take i buf)) 0) as [->|]; simpl.
  - destruct (lookup_lt_is_Some_2 buf i) as [y Hy]; [lia|].
    rewrite Hy in *. simpl in *. rewrite s32_small by lia.
    eexists. split; [done|]. f_equal; lia.
  - exists 1. split; [done|]. symmetry. simpl. apply Z.sgn_pos. lia.
Qed.

Lemma LacPke_CompareZero_correct_witness :
  ∃ r, LacPke_CompareZero [0; 1] (-1) = Some r ∧ Z.sgn r = 0.
Proof.
  refine (LacPke_CompareZero_correct [0; 1] (-1) _ _ _);
    [repeat constructor; done|done|lia].
Defined.

End PkeUtils.
