(* ===== verification/Ring.v ===== *)
(** * A transport ring

    The record of one ring of [adf_transport.c] and the pure arithmetic on it:
    the size macros of [adf_transport_access_macros.h], [adf_modulo],
    [adf_verify_ring_size], [adf_check_ring_alignment], and the copy of a
    message into the ring's buffer.  A buffer is the list of its 32-bit words;
    [head] and [tail] are byte offsets, as in the driver. *)

From S2P Require Import Prelude.

Module Ring.

Definition ADF_RING_EMPTY_SIG := 0x7F7F7F7F.
Definition ADF_NO_RESPONSE_QUOTA := 0xFFFFFFFF.
Definition ADF_MIN_RING_SIZE := 0x01.
Definition ADF_MAX_RING_SIZE := 0x10.
Definition ADF_DEFAULT_RING_SIZE := 0x08.
Definition ADF_RING_SIZE_4K := 0x06.
Definition ADF_MAX_MSG_SIZE := 0x04.

Definition ADF_MSG_SIZE_TO_BYTES (size : Z) : Z := Z.shiftl size 5.
Definition ADF_BYTES_TO_MSG_SIZE (size : Z) : Z := Z.shiftr size 5.
Definition ADF_SIZE_TO_RING_SIZE_IN_BYTES (size : Z) : Z :=
  Z.shiftl (Z.shiftl 1 (size - 1)) 7.
Definition ADF_RING_SIZE_BYTES_MIN (size : Z) : Z :=
  if size <? ADF_SIZE_TO_RING_SIZE_IN_BYTES ADF_RING_SIZE_4K
  then ADF_SIZE_TO_RING_SIZE_IN_BYTES ADF_RING_SIZE_4K else size.
Definition ADF_RING_SIZE_MODULO (size : Z) : Z := size + 0x6.
Definition ADF_SIZE_TO_POW (size : Z) : Z :=
  clear (Z.shiftr (size .& 0x4) 1 .| Z.shiftr (size .& 0x4) 2 .| size) 0x4.
Definition ADF_MAX_INFLIGHTS (ring_size msg_size : Z) : Z :=
  Z.shiftr (Z.shiftl (Z.shiftl 1 (ring_size - 1)) 3) (ADF_SIZE_TO_POW msg_size) - 1.

Definition adf_modulo (data shift : Z) : Z :=
  let div := Z.shiftr data shift in
  let mult := u32 (Z.shiftl div shift) in
  u32 (data - mult).

(** 0, or [-EFAULT] *)
Definition adf_check_ring_alignment (addr size : Z) : Z :=
  if negb (u64 (size - 1) .& addr =? 0) then - EFAULT else 0.

(** The [for] loop: [i], [i + 1], ..., [ADF_MAX_RING_SIZE]. *)
Fixpoint verify_loop (fuel : nat) (i msg_size msg_num : Z) : Z :=
  match fuel with
  | O => ADF_DEFAULT_RING_SIZE
  | S fuel =>
    if i <=? ADF_MAX_RING_SIZE then
      if u32 (msg_size * msg_num) =? ADF_SIZE_TO_RING_SIZE_IN_BYTES i then i
      else verify_loop fuel (i + 1) msg_size msg_num
    else ADF_DEFAULT_RING_SIZE
  end.

Definition adf_verify_ring_size (msg_size msg_num : Z) : Z :=
  verify_loop 17 ADF_MIN_RING_SIZE msg_size msg_num.

(** [struct adf_etr_ring_data].  Pointers are integers, 0 for NULL; [bank] is
    the index of the ring's bank in [etr_data->banks]; [ring_debug] says
    whether the debugfs entry exists. *)
Record adf_etr_ring_data := RingData {
  base_addr : Z;
  inflights : Z;
  callback : option Z;
  bank : option Z;
  dma_addr : Z;
  head : Z;
  tail : Z;
  ring_number : Z;
  ring_size : Z;
  msg_size : Z;
  csr_tail_offset : Z;
  max_inflights : Z;
  ring_debug : bool
}.

(** What [kzalloc] leaves. *)
Definition zero_ring : adf_etr_ring_data :=
  RingData 0 0 None None 0 0 0 0 0 0 0 0 false.

Definition set_head (h : Z) (r : adf_etr_ring_data) : adf_etr_ring_data :=
  RingData (base_addr r) (inflights r) (callback r) (bank r) (dma_addr r) h (tail r)
    (ring_number r) (ring_size r) (msg_size r) (csr_tail_offset r) (max_inflights r)
    (ring_debug r).
Definition set_tail (t : Z) (r : adf_etr_ring_data) : adf_etr_ring_data :=
  RingData (base_addr r) (inflights r) (callback r) (bank r) (dma_addr r) (head r) t
    (ring_number r) (ring_size r) (msg_size r) (csr_tail_offset r) (max_inflights r)
    (ring_debug r).
Definition set_csr_tail (t : Z) (r : adf_etr_ring_data) : adf_etr_ring_data :=
  RingData (base_addr r) (inflights r) (callback r) (bank r) (dma_addr r) (head r) (tail r)
    (ring_number r) (ring_size r) (msg_size r) t (max_inflights r) (ring_debug r).
Definition set_inflights (p : Z) (r : adf_etr_ring_data) : adf_etr_ring_data :=
  RingData (base_addr r) p (callback r) (bank r) (dma_addr r) (head r) (tail r)
    (ring_number r) (ring_size r) (msg_size r) (csr_tail_offset r) (max_inflights r)
    (ring_debug r).
Definition set_buffer (p d : Z) (r : adf_etr_ring_data) : adf_etr_ring_data :=
  RingData p (inflights r) (callback r) (bank r) d (head r) (tail r)
    (ring_number r) (ring_size r) (msg_size r) (csr_tail_offset r) (max_inflights r)
    (ring_debug r).
Definition set_debug (b : bool) (r : adf_etr_ring_data) : adf_etr_ring_data :=
  RingData (base_addr r) (inflights r) (callback r) (bank r) (dma_addr r) (head r) (tail r)
    (ring_number r) (ring_size r) (msg_size r) (csr_tail_offset r) (max_inflights r) b.

(** Bytes of one message of the ring, and its 32-bit words. *)
Definition msg_bytes (r : adf_etr_ring_data) : Z := ADF_MSG_SIZE_TO_BYTES (msg_size r).
Definition msg_words (r : adf_etr_ring_data) : nat := Z.to_nat (msg_bytes r / 4).

(** The next value of [head] or [tail]. *)
Definition ring_next (r : adf_etr_ring_data) (off : Z) : Z :=
  adf_modulo (u32 (off + msg_bytes r)) (ADF_RING_SIZE_MODULO (ring_size r)).

(** [memcpy(base_addr + off, msg, n)], in words: reading past the end of [msg]
    or writing past the end of the buffer is undefined. *)
Definition memcpy_words (buf : list Z) (off : Z) (msg : list Z) (n : Z) : option (list Z) :=
  let o := Z.to_nat (off / 4) in
  let k := Z.to_nat (n / 4) in
  if (off mod 4 =? 0) && (k <=? length msg)%nat && (o + k <=? length buf)%nat
  then Some (take o buf ++ take k msg ++ drop (o + k) buf) else None.

(** The 32-bit word at [base_addr + off]. *)
Definition load_word (buf : list Z) (off : Z) : option Z :=
  if off mod 4 =? 0 then aget buf (off / 4) else None.
Definition store_word (buf : list Z) (off v : Z) : option (list Z) :=
  if off mod 4 =? 0 then aset buf (off / 4) v else None.

(** The message at [off], as the callback can read it. *)
Definition load_msg (buf : list Z) (off n : Z) : list Z :=
  take (Z.to_nat (n / 4)) (drop (Z.to_nat (off / 4)) buf).

(** The test of [adf_send_message] on the result of [atomic_add_return]. *)
Definition over_limit (r : adf_etr_ring_data) (v : Z) : bool := max_inflights r <? u32 v.

(** The body of [adf_send_message] under the ring's lock. *)
Definition send_copy (r : adf_etr_ring_data) (buf msg : list Z)
    : option (adf_etr_ring_data * list Z) :=
  buf' ← memcpy_words buf (tail r) msg (msg_bytes r);
  let t := ring_next r (tail r) in
  Some (set_csr_tail t (set_tail t r), buf').

(** The rest of an iteration of [adf_handle_response] after [atomic_dec]. *)
Definition recv_clear (r : adf_etr_ring_data) (buf : list Z)
    : option (adf_etr_ring_data * list Z) :=
  buf' ← store_word buf (head r) ADF_RING_EMPTY_SIG;
  Some (set_head (ring_next r (head r)) r, buf').

(** ** The sizes *)

Definition ring_bytes (rs : Z) : Z := 2 ^ (rs + 6).

Lemma ring_bytes_macro rs :
  1 <= rs → ADF_SIZE_TO_RING_SIZE_IN_BYTES rs = ring_bytes rs.
Proof.
  intros. unfold ADF_SIZE_TO_RING_SIZE_IN_BYTES, ring_bytes.
  rewrite !Z.shiftl_mul_pow2, Z.mul_1_l, <- Z.pow_add_r by lia. f_equal. lia.
Qed.

Lemma adf_modulo_mod data shift :
  0 <= data < 2 ^ 32 → 0 <= shift → adf_modulo data shift = data mod 2 ^ shift.
Proof.
  intros Hd Hs. unfold adf_modulo.
  rewrite Z.shiftr_div_pow2, Z.shiftl_mul_pow2 by lia.
  pose proof (pow2_pos shift Hs).
  pose proof (Z.div_mod data (2 ^ shift) ltac:(lia)).
  pose proof (Z.mod_pos_bound data (2 ^ shift) ltac:(lia)).
  pose proof (Z.div_pos data (2 ^ shift) ltac:(lia) ltac:(lia)).
  rewrite (wrap_small 32 (_ * _)) by nia. rewrite wrap_small by lia. lia.
Qed.

(** A ring whose sizes are the ones the hardware has: 32, 64 or 128 byte
    messages, 128 bytes to 4 megabytes of ring. *)
Definition ring_ok (r : adf_etr_ring_data) : Prop :=
  1 <= ring_size r <= 16 ∧ (msg_size r = 1 ∨ msg_size r = 2 ∨ msg_size r = 4).

#[export] Instance ring_ok_dec r : Decision (ring_ok r).
Proof. unfold ring_ok. apply _. Defined.

(** Number of messages the ring holds. *)
Definition slots (r : adf_etr_ring_data) : nat :=
  Z.to_nat (ring_bytes (ring_size r) / msg_bytes r).

(** Byte offset of the [j]-th message since the ring was created. *)
Definition pos (r : adf_etr_ring_data) (j : nat) : Z :=
  Z.of_nat (j mod slots r) * msg_bytes r.

Lemma msg_bytes_pow r :
  ring_ok r → ∃ e, 5 <= e <= 7 ∧ msg_bytes r = 2 ^ e.
Proof.
  intros [_ [H|[H|H]]]; unfold msg_bytes; rewrite H; [exists 5|exists 6|exists 7]; by split.
Qed.

Lemma slots_bytes r :
  ring_ok r → Z.of_nat (slots r) * msg_bytes r = ring_bytes (ring_size r)
              ∧ (0 < slots r)%nat ∧ 0 < msg_bytes r.
Proof.
  intros Hok. destruct (msg_bytes_pow r Hok) as (e & He & Hb). destruct Hok as [Hrs _].
  unfold slots, ring_bytes. rewrite Hb.
  assert (2 ^ (ring_size r + 6) / 2 ^ e = 2 ^ (ring_size r + 6 - e)) as ->.
  { rewrite Z.pow_sub_r by lia. done. }
  assert (0 < 2 ^ (ring_size r + 6 - e)) by auto with qat.
  assert (0 < 2 ^ e) by auto with qat.
  rewrite Z2Nat.id by lia. split_and!; [|lia|done].
  rewrite <- Z.pow_add_r by lia. f_equal. lia.
Qed.

Lemma slots_bound r : ring_ok r → Z.of_nat (slots r) <= 2 ^ 17.
Proof.
  intros Hok. destruct (slots_bytes r Hok) as (Hs & _ & _).
  destruct (msg_bytes_pow r Hok) as (e & He & Hb). destruct Hok as [Hr _].
  assert (ring_bytes (ring_size r) <= 2 ^ 22) by (apply Z.pow_le_mono_r; lia).
  assert (2 ^ 5 <= msg_bytes r) by (rewrite Hb; apply Z.pow_le_mono_r; lia).
  change (2 ^ 22) with (2 ^ 17 * 2 ^ 5) in *. nia.
Qed.

Lemma msg_words_bytes r :
  ring_ok r → 4 * Z.of_nat (msg_words r) = msg_bytes r ∧ (0 < msg_words r)%nat.
Proof.
  intros [_ [H|[H|H]]]; unfold msg_words, msg_bytes; rewrite H; vm_compute; split; lia || done.
Qed.

(** The limit on requests in flight is the number of slots less one. *)
Lemma max_inflights_slots r :
  ring_ok r → ADF_MAX_INFLIGHTS (ring_size r) (msg_size r) = Z.of_nat (slots r) - 1.
Proof.
  intros Hok. pose proof (slots_bytes r Hok) as (Hs & _ & _).
  destruct Hok as [Hrs Hms]. unfold ADF_MAX_INFLIGHTS.
  assert (0 <= ADF_SIZE_TO_POW (msg_size r)) as Hp
    by (destruct Hms as [-> | [-> | ->]]; vm_compute; done).
  rewrite !Z.shiftl_mul_pow2, Z.mul_1_l, <- Z.pow_add_r, Z.shiftr_div_pow2 by lia.
  f_equal. unfold ring_bytes in Hs.
  replace (ring_size r - 1 + 3) with (ring_size r + 2) by lia.
  rewrite (Z.pow_add_r 2 (ring_size r) 6) in Hs by lia.
  rewrite (Z.pow_add_r 2 (ring_size r) 2) by lia.
  pose proof (pow2_pos (ring_size r)) as Hpow.
  assert (msg_bytes r = 16 * 2 ^ ADF_SIZE_TO_POW (msg_size r)) as Hm
    by (unfold msg_bytes; destruct Hms as [-> | [-> | ->]]; vm_compute; done).
  assert (0 < 2 ^ ADF_SIZE_TO_POW (msg_size r)) by auto with qat.
  rewrite Hm in Hs. symmetry. apply (Z.div_unique_exact _ _ (Z.of_nat (slots r))); [lia|].
  change (2 ^ 6) with 64 in Hs. change (2 ^ 2) with 4. lia.
Qed.

(** The byte offset after the [j]-th message is the offset of the next one:
    the ring wraps exactly at its last slot. *)
Lemma ring_next_pos r j : ring_ok r → ring_next r (pos r j) = pos r (S j).
Proof.
  intros Hok. pose proof (slots_bytes r Hok) as (Hs & Hn & Hm).
  destruct (msg_bytes_pow r Hok) as (e & He & Hb).
  unfold ring_next, pos. set (n := slots r) in *.
  pose proof (Nat.mod_upper_bound j n ltac:(lia)) as Hj.
  assert (ring_bytes (ring_size r) <= 2 ^ 22).
  { unfold ring_bytes. apply Z.pow_le_mono_r; [lia|]. destruct Hok; lia. }
  assert (0 <= Z.of_nat (j mod n) * msg_bytes r + msg_bytes r <= ring_bytes (ring_size r))
    as Hoff by nia.
  rewrite wrap_small, adf_modulo_mod by (unfold ADF_RING_SIZE_MODULO; destruct Hok; lia).
  change (2 ^ ADF_RING_SIZE_MODULO (ring_size r)) with (ring_bytes (ring_size r)).
  rewrite <- Hs.
  replace (Z.of_nat (j mod n) * msg_bytes r + msg_bytes r)
    with (Z.of_nat (S (j mod n)) * msg_bytes r) by lia.
  rewrite Z.mul_mod_distr_r by lia. f_equal.
  rewrite <- Nat2Z.inj_mod. f_equal.
  rewrite <- (Nat.add_1_l (j mod n)), <- (Nat.add_1_l j).
  by rewrite Nat.Div0.add_mod_idemp_r.
Qed.

Lemma pos_0 r : ring_ok r → pos r 0 = 0.
Proof.
  intros Hok. pose proof (slots_bytes r Hok) as (_ & Hn & _).
  unfold pos. rewrite Nat.mod_small by lia. lia.
Qed.

(** ** Slots

    The ring as an array of messages: what [load_msg] reads at the offset of
    one message after a write at the offset of another. *)

Lemma lookup_splice (buf m : list Z) o i :
  (o + length m <= length buf)%nat →
  (take o buf ++ m ++ drop (o + length m) buf) !! i =
  if decide (o <= i < o + length m)%nat then m !! (i - o)%nat else buf !! i.
Proof.
  intros Hl. assert (length (take o buf) = o) as Ho by (rewrite length_take; lia).
  case_decide.
  - rewrite lookup_app_r, Ho by lia. rewrite lookup_app_l by lia. done.
  - destruct (decide (i < o)%nat).
    + rewrite lookup_app_l by lia. by rewrite lookup_take_lt.
    + rewrite !lookup_app_r, Ho, lookup_drop by lia. f_equal. lia.
Qed.

Lemma pos_words r j :
  ring_ok r →
  pos r j mod 4 = 0 ∧ Z.to_nat (pos r j / 4) = ((j mod slots r) * msg_words r)%nat
  ∧ pos r j / 4 = Z.of_nat ((j mod slots r) * msg_words r).
Proof.
  intros Hok. destruct (msg_words_bytes r Hok) as [Hw _]. unfold pos. rewrite <- Hw.
  replace (Z.of_nat (j mod slots r) * (4 * Z.of_nat (msg_words r)))
    with (Z.of_nat ((j mod slots r) * msg_words r) * 4) by lia.
  rewrite Z.mod_mul, Z.div_mul, Nat2Z.id by lia. done.
Qed.

Lemma load_msg_pos r buf j :
  ring_ok r →
  load_msg buf (pos r j) (msg_bytes r) =
  take (msg_words r) (drop ((j mod slots r) * msg_words r)%nat buf).
Proof. intros Hok. unfold load_msg. by destruct (pos_words r j Hok) as (_ & -> & _). Qed.

Lemma load_msg_lookup r buf j i :
  ring_ok r →
  load_msg buf (pos r j) (msg_bytes r) !! i =
  if decide (i < msg_words r)%nat then buf !! ((j mod slots r) * msg_words r + i)%nat else None.
Proof.
  intros Hok. rewrite load_msg_pos by done. case_decide.
  - by rewrite lookup_take_lt, lookup_drop by lia.
  - apply lookup_take_ge. lia.
Qed.

(** Two slots do not share a word. *)
Lemma slots_disjoint r j j' i i' :
  (j mod slots r ≠ j' mod slots r)%nat → (i < msg_words r)%nat → (i' < msg_words r)%nat →
  ((j mod slots r) * msg_words r + i ≠ (j' mod slots r) * msg_words r + i')%nat.
Proof.
  generalize (j mod slots r)%nat (j' mod slots r)%nat (msg_words r). intros a b k Hab Hi Hi' E.
  destruct (decide (a < b)%nat); nia.
Qed.

Lemma slot_in_buffer r j i (buf : list Z) :
  ring_ok r → (slots r * msg_words r <= length buf)%nat → (i < msg_words r)%nat →
  ((j mod slots r) * msg_words r + i < length buf)%nat.
Proof.
  intros Hok Hl Hi. destruct (slots_bytes r Hok) as (_ & Hn & _).
  pose proof (Nat.mod_upper_bound j (slots r) ltac:(lia)). nia.
Qed.

(** Copying a message into a slot stores that message, and no other slot
    changes. *)
Lemma memcpy_pos r buf m j :
  ring_ok r → length m = msg_words r → (slots r * msg_words r <= length buf)%nat →
  ∃ buf', memcpy_words buf (pos r j) m (msg_bytes r) = Some buf' ∧
    length buf' = length buf ∧
    load_msg buf' (pos r j) (msg_bytes r) = m ∧
    ∀ j', (j' mod slots r ≠ j mod slots r)%nat →
      load_msg buf' (pos r j') (msg_bytes r) = load_msg buf (pos r j') (msg_bytes r).
Proof.
  intros Hok Hm Hl. destruct (msg_words_bytes r Hok) as [_ Hk].
  pose proof (slot_in_buffer r j (msg_words r - 1) buf Hok Hl ltac:(lia)) as Hin.
  unfold memcpy_words. destruct (pos_words r j Hok) as (-> & -> & _).
  fold (msg_words r). rewrite Hm, Nat.leb_refl. simpl.
  rewrite (proj2 (Nat.leb_le _ _)) by lia. eexists; split; [done|].
  remember ((j mod slots r) * msg_words r)%nat as o eqn:Ho.
  rewrite <- Hm, firstn_all.
  assert (∀ i, (take o buf ++ m ++ drop (o + length m) buf) !! i =
    if decide (o <= i < o + length m)%nat then m !! (i - o)%nat else buf !! i) as Hsp
    by (intros; apply lookup_splice; lia).
  split_and!.
  - rewrite !length_app, length_take, length_drop. lia.
  - apply list_eq. intros i. rewrite load_msg_lookup, Hsp, <- Ho by done. case_decide.
    + rewrite decide_True by lia. f_equal. lia.
    + symmetry. apply lookup_ge_None. lia.
  - intros j' Hj. apply list_eq. intros i. rewrite !load_msg_lookup by done.
    case_decide; [|done]. rewrite Hsp. case_decide as E; [|done]. exfalso.
    apply (slots_disjoint r j' j i ((j' mod slots r) * msg_words r + i - o) Hj); lia.
Qed.

Lemma load_word_pos r buf j :
  ring_ok r → (slots r * msg_words r <= length buf)%nat →
  load_word buf (pos r j) = list.head (load_msg buf (pos r j) (msg_bytes r)) ∧
  is_Some (load_word buf (pos r j)).
Proof.
  intros Hok Hl. destruct (msg_words_bytes r Hok) as [_ Hk].
  pose proof (slot_in_buffer r j 0 buf Hok Hl Hk) as Hin. rewrite Nat.add_0_r in Hin.
  unfold load_word. rewrite list.head_lookup, load_msg_lookup by done.
  destruct (pos_words r j Hok) as (-> & _ & ->). simpl.
  rewrite decide_True, Nat.add_0_r, aget_nat by done.
  split; [done|]. by apply lookup_lt_is_Some.
Qed.

(** Clearing the first word of a slot leaves the other slots alone. *)
Lemma store_word_pos r buf j v :
  ring_ok r → (slots r * msg_words r <= length buf)%nat →
  ∃ buf', store_word buf (pos r j) v = Some buf' ∧
    length buf' = length buf ∧
    load_word buf' (pos r j) = Some v ∧
    ∀ j', (j' mod slots r ≠ j mod slots r)%nat →
      load_msg buf' (pos r j') (msg_bytes r) = load_msg buf (pos r j') (msg_bytes r).
Proof.
  intros Hok Hl. destruct (msg_words_bytes r Hok) as [_ Hk].
  pose proof (slot_in_buffer r j 0 buf Hok Hl Hk) as Hin. rewrite Nat.add_0_r in Hin.
  unfold store_word, load_word. destruct (pos_words r j Hok) as (-> & _ & ->). simpl.
  rewrite aset_in by lia. rewrite Nat2Z.id. eexists; split_and!; [done|apply length_insert| |].
  - rewrite aget_nat. by apply list_lookup_insert_eq.
  - intros j' Hj. apply list_eq. intros i. rewrite !load_msg_lookup by done.
    case_decide; [|done]. apply list_lookup_insert_ne.
    pose proof (slots_disjoint r j j' 0 i (not_eq_sym Hj)). lia.
Qed.

(** Fewer than [slots] consecutive messages occupy distinct slots. *)
Lemma slots_distinct r j j' :
  ring_ok r → (j < j' < j + slots r)%nat → (j mod slots r ≠ j' mod slots r)%nat.
Proof.
  intros Hok Hj E. destruct (slots_bytes r Hok) as (_ & Hn & _).
  set (n := slots r) in *.
  pose proof (Nat.div_mod j n ltac:(lia)). pose proof (Nat.div_mod j' n ltac:(lia)).
  destruct (decide (j' / n <= j / n)%nat); nia.
Qed.

(** ** The ring-size search *)

Lemma verify_loop_spec fuel i ms mn :
  0 <= i → Z.of_nat fuel = 18 - i →
  (∃ k, i <= k <= ADF_MAX_RING_SIZE ∧ u32 (ms * mn) = ADF_SIZE_TO_RING_SIZE_IN_BYTES k ∧
        verify_loop fuel i ms mn = k) ∨
  ((∀ k, i <= k <= ADF_MAX_RING_SIZE → u32 (ms * mn) ≠ ADF_SIZE_TO_RING_SIZE_IN_BYTES k) ∧
   verify_loop fuel i ms mn = ADF_DEFAULT_RING_SIZE).
Proof.
  unfold ADF_MAX_RING_SIZE. revert i. induction fuel as [|fuel IH]; intros i Hi Hf.
  - right. split; [intros; lia|done].
  - simpl. unfold ADF_MAX_RING_SIZE.
    destruct (Z.leb_spec i 0x10); [|right; split; [intros; lia|done]].
    destruct (Z.eqb_spec (u32 (ms * mn)) (ADF_SIZE_TO_RING_SIZE_IN_BYTES i)) as [E|E].
    + left. exists i. split_and!; [lia..|done|done].
    + destruct (IH (i + 1)) as [(k & ? & ? & ?)|[Hn Hv]]; [lia..| |].
      * left. exists k. split_and!; [lia..|done|done].
      * right. split; [|done]. intros k Hk.
        destruct (decide (k = i)) as [->|]; [done|]. apply Hn. lia.
Qed.

Lemma adf_verify_ring_size_spec ms mn :
  let k := adf_verify_ring_size ms mn in
  1 <= k <= 16 ∧
  (∀ c, 1 <= c <= 16 → u32 (ms * mn) = 2 ^ (c + 6) → k = c) ∧
  ((∀ c, 1 <= c <= 16 → u32 (ms * mn) ≠ 2 ^ (c + 6)) → k = ADF_DEFAULT_RING_SIZE).
Proof.
  cbv zeta. unfold adf_verify_ring_size.
  destruct (verify_loop_spec 17 ADF_MIN_RING_SIZE ms mn) as [(k & Hk & He & ->)|[Hn ->]];
    unfold ADF_MIN_RING_SIZE, ADF_MAX_RING_SIZE, ADF_DEFAULT_RING_SIZE in *; [lia|done| |].
  - rewrite ring_bytes_macro in He by lia. unfold ring_bytes in He. split_and!; [lia..| |].
    + intros c Hc Hc'. rewrite Hc' in He. apply (Z.pow_inj_r 2) in He; lia.
    + intros Hall. by destruct (Hall k).
  - split_and!; [lia..| |done].
    intros c Hc Hc'. destruct (Hn c Hc). rewrite Hc', ring_bytes_macro by lia. done.
Qed.

(** [adf_verify_ring_size] returns the size code [k] whose ring holds
    exactly [msg_num] messages of [msg_size] bytes when there is one (between
    128 bytes and 4 megabytes), and the 16-kilobyte default otherwise; the
    result is always a valid size code. *)
Theorem adf_verify_ring_size_correct ms mn :
  let k := adf_verify_ring_size ms mn in
  1 <= k <= 16 ∧
  (∀ c, 1 <= c <= 16 → u32 (ms * mn) = 2 ^ (c + 6) → k = c) ∧
  ((∀ c, 1 <= c <= 16 → u32 (ms * mn) ≠ 2 ^ (c + 6)) → k = ADF_DEFAULT_RING_SIZE).
Proof. apply adf_verify_ring_size_spec. Qed.

End Ring.
