(* ===== verification/RingSys.v ===== *)
(** * A ring pair, its senders, its poller and the hardware

    The concurrent protocol of a request ring and its response ring: any number
    of threads in [adf_send_message], one poller in [adf_handle_response], and
    the device.  The calls are cut where another party can run in between: the
    sender's [atomic_add_return] and its compensating [atomic_dec] are steps of
    their own, and so are the poller's [atomic_dec] and the clearing of the slot
    that follows it.  The device takes any request it can see and answers the
    requests it holds in any order, without ever checking that the response
    ring has room: the in-flight counter is the only protection. *)

From S2P Require Import Prelude Ring.
Import Ring.

Module RingSys.

Record sys := Sys {
  ctr : Z;                      (** [*ring->inflights], shared by the two rings *)
  tx : adf_etr_ring_data;
  rx : adf_etr_ring_data;
  txbuf : list Z;
  rxbuf : list Z;
  claimed : list (list Z);      (** messages of the senders past the check *)
  failed : nat;                 (** senders refused, their [atomic_dec] due *)
  clearing : bool;              (** the poller is between [atomic_dec] and the store *)
  hw_head : Z;                  (** device: offset of the next request *)
  hw_tail : Z;                  (** device: offset of the next response *)
  busy : list (list Z);         (** device: requests taken, not answered *)
  taken : nat;                  (** history: requests taken *)
  committed : list (list Z);    (** history: requests written *)
  responded : list (list Z);    (** history: responses written *)
  delivered : list (list Z)     (** history: responses given to the callback *)
}.

Inductive label :=
  | Claim (m : list Z)
  | Unclaim
  | Commit (i : nat)
  | HwTake
  | HwRespond (i : nat)
  | Poll
  | Clear.

Section system.
(** [resp m] is the device's response to request [m], [rw] words long; at most
    [nthreads] threads send at a time. *)
Context (resp : list Z → list Z) (rw nthreads : nat).

Definition exec (l : label) (s : sys) : option sys :=
  let '(Sys c tx rx tb rb cl fa cg hh ht bu tk co re de) := s in
  match l with
  | Claim m =>
    if (length cl + fa <? nthreads)%nat && (length m =? msg_words tx)%nat then
      if over_limit tx (c + 1)
      then Some (Sys (c + 1) tx rx tb rb cl (S fa) cg hh ht bu tk co re de)
      else Some (Sys (c + 1) tx rx tb rb (cl ++ [m]) fa cg hh ht bu tk co re de)
    else None
  | Unclaim =>
    match fa with
    | O => None
    | S fa => Some (Sys (c - 1) tx rx tb rb cl fa cg hh ht bu tk co re de)
    end
  | Commit i =>
    m ← cl !! i;
    '(tx, tb) ← send_copy tx tb m;
    Some (Sys c tx rx tb rb (delete i cl) fa cg hh ht bu tk (co ++ [m]) re de)
  | HwTake =>
    if hh =? csr_tail_offset tx then None else
    Some (Sys c tx rx tb rb cl fa cg (ring_next tx hh) ht
            (bu ++ [load_msg tb hh (msg_bytes tx)]) (S tk) co re de)
  | HwRespond i =>
    m ← bu !! i;
    rb ← memcpy_words rb ht (resp m) (msg_bytes rx);
    Some (Sys c tx rx tb rb cl fa cg hh (ring_next rx ht) (delete i bu) tk co
            (re ++ [resp m]) de)
  | Poll =>
    if cg then None else
    w ← load_word rb (head rx);
    if w =? ADF_RING_EMPTY_SIG then None else
    Some (Sys (c - 1) tx rx tb rb cl fa true hh ht bu tk co re
            (de ++ [load_msg rb (head rx) (msg_bytes rx)]))
  | Clear =>
    if cg then
      '(rx, rb) ← recv_clear rx rb;
      Some (Sys c tx rx tb rb cl fa false hh ht bu tk co re de)
    else None
  end.

Definition step (s s' : sys) : Prop := ∃ l, exec l s = Some s'.

Fixpoint run_labels (ls : list label) (s : sys) : option sys :=
  match ls with
  | [] => Some s
  | l :: ls => s' ← exec l s; run_labels ls s'
  end.

(** The state [adf_create_ring] leaves for a pair of rings. *)
Definition initial (s : sys) : Prop :=
  ring_ok (tx s) ∧ ring_ok (rx s) ∧ msg_words (rx s) = rw ∧
  max_inflights (tx s) = ADF_MAX_INFLIGHTS (ring_size (tx s)) (msg_size (tx s)) ∧
  (slots (tx s) <= slots (rx s))%nat ∧
  (slots (tx s) * msg_words (tx s) <= length (txbuf s))%nat ∧
  (slots (rx s) * msg_words (rx s) <= length (rxbuf s))%nat ∧
  Forall (λ w, w = ADF_RING_EMPTY_SIG) (rxbuf s) ∧
  ctr s = 0 ∧ head (rx s) = 0 ∧ tail (tx s) = 0 ∧ csr_tail_offset (tx s) = 0 ∧
  claimed s = [] ∧ failed s = 0%nat ∧ clearing s = false ∧ hw_head s = 0 ∧ hw_tail s = 0 ∧
  busy s = [] ∧ taken s = 0%nat ∧ committed s = [] ∧ responded s = [] ∧ delivered s = [].

Definition reachable (s : sys) : Prop := ∃ s0, initial s0 ∧ rtc step s0 s.

(** The slot the poller's [head] points at has been delivered, if the poller
    is about to clear it. *)
Definition cleared (s : sys) : nat := (length (delivered s) - Nat.b2n (clearing s))%nat.

(** Requests a sender may still write or the client may still get answers to. *)
Definition outstanding (s : sys) : nat :=
  (length (claimed s) + (length (committed s) - taken s) + length (busy s)
   + (length (responded s) - length (delivered s)))%nat.

Record inv_sizes (s : sys) : Prop := {
  i_tx : ring_ok (tx s);
  i_rx : ring_ok (rx s);
  i_rw : msg_words (rx s) = rw;
  i_max : max_inflights (tx s) = Z.of_nat (slots (tx s)) - 1;
  i_slots : (slots (tx s) <= slots (rx s))%nat;
  i_txbuf : (slots (tx s) * msg_words (tx s) <= length (txbuf s))%nat;
  i_rxbuf : (slots (rx s) * msg_words (rx s) <= length (rxbuf s))%nat;
  i_claimed : Forall (λ m, length m = msg_words (tx s)) (claimed s)
}.

Record inv_pos (s : sys) : Prop := {
  i_tail : tail (tx s) = pos (tx s) (length (committed s));
  i_csr : csr_tail_offset (tx s) = tail (tx s);
  i_hwhead : hw_head s = pos (tx s) (taken s);
  i_hwtail : hw_tail s = pos (rx s) (length (responded s));
  i_head : head (rx s) = pos (rx s) (cleared s);
  i_taken : (taken s <= length (committed s))%nat;
  i_clearing : clearing s = true → (0 < length (delivered s))%nat;
  i_delivered : (length (delivered s) <= length (responded s))%nat
}.

Record inv_count (s : sys) : Prop := {
  i_ctr : ctr s = Z.of_nat (failed s + outstanding s);
  i_limit : (outstanding s <= slots (tx s) - 1)%nat;
  i_threads : (length (claimed s) + failed s <= nthreads)%nat
}.

Record inv_data (s : sys) : Prop := {
  i_requests j m :
    (taken s <= j)%nat → committed s !! j = Some m →
    load_msg (txbuf s) (pos (tx s) j) (msg_bytes (tx s)) = m;
  i_responses j w :
    (cleared s <= j)%nat → responded s !! j = Some w →
    load_msg (rxbuf s) (pos (rx s) j) (msg_bytes (rx s)) = w;
  i_empty j :
    (length (responded s) <= j < cleared s + slots (rx s))%nat →
    load_word (rxbuf s) (pos (rx s) j) = Some ADF_RING_EMPTY_SIG;
  i_prefix : delivered s `prefix_of` responded s;
  i_perm : resp <$> committed s ≡ₚ
    responded s ++ (resp <$> busy s ++ drop (taken s) (committed s))
}.

Definition Inv (s : sys) : Prop :=
  inv_sizes s ∧ inv_pos s ∧ inv_count s ∧ inv_data s.

Context (resp_length : ∀ m, length (resp m) = rw)
  (resp_sig : ∀ m, list.head (resp m) ≠ Some ADF_RING_EMPTY_SIG)
  (threads_ok : Z.of_nat nthreads <= 2 ^ 30).

Lemma initial_Inv s : initial s → Inv s.
Proof.
  destruct s. unfold initial. simpl.
  intros (Htx & Hrx & Hrw & Hm & Hs & Htb & Hrb & Hempty & -> & Hh & Ht & Hct & -> & -> & -> &
    -> & -> & -> & -> & -> & -> & ->).
  destruct (slots_bytes _ Htx) as (_ & Hn & _).
  rewrite max_inflights_slots in Hm by done.
  split_and!; split; unfold cleared, outstanding; simpl; rewrite ?pos_0 by done; try done; try lia.
  - intros j _. destruct (load_word_pos _ _ j Hrx Hrb) as [_ [w Hw]]. rewrite Hw. f_equal.
    unfold load_word in Hw. destruct (pos_words _ j Hrx) as (Hmod & _ & Hdiv).
    rewrite Hmod, Hdiv in Hw. simpl in Hw. rewrite aget_nat in Hw.
    by apply (proj1 (Forall_lookup _ _) Hempty) in Hw.
Qed.

(** One lemma per step: the invariant is preserved. *)
Ltac open_inv :=
  match goal with H : Inv _ |- _ =>
    destruct H as ([? ? ? ? ? ? ? ?] & [? ? ? ? ? ? ? ?] & [? ? ?] & [? ? ? ? ?])
  end; unfold cleared, outstanding in *; simpl in *.

Lemma Claim_Inv m s s' : Inv s → exec (Claim m) s = Some s' → Inv s'.
Proof.
  intros HI. pose proof (slots_bound _ (i_tx _ (proj1 HI))).
  destruct s as [c tx rx tb rb cl fa cg hh ht bu tk co re de]. open_inv.
  destruct (Nat.ltb_spec (length cl + fa) nthreads); [|done].
  destruct (Nat.eqb_spec (length m) (msg_words tx)); [|done]. simpl.
  unfold over_limit. rewrite wrap_small by lia.
  destruct (Z.ltb_spec (max_inflights tx) (c + 1)); intros [= <-];
    split_and!; split; unfold cleared, outstanding; simpl; rewrite ?length_app; simpl;
    try done; try lia.
  apply Forall_app. auto.
Qed.

Lemma Unclaim_Inv s s' : Inv s → exec Unclaim s = Some s' → Inv s'.
Proof.
  intros HI. destruct s as [c tx rx tb rb cl fa cg hh ht bu tk co re de]. open_inv.
  destruct fa as [|fa]; [done|]. intros [= <-].
  split_and!; split; unfold cleared, outstanding; simpl; try done; lia.
Qed.

(** The sizes and offsets of a ring do not depend on its head and tail. *)
Ltac ring_shape :=
  repeat match goal with
    | |- context [?f (set_head ?h ?r)] => progress change (f (set_head h r)) with (f r)
    | |- context [?f (set_csr_tail ?t ?r)] => progress change (f (set_csr_tail t r)) with (f r)
    | |- context [?f (set_tail ?t ?r)] => progress change (f (set_tail t r)) with (f r)
    end.

Lemma Commit_ok i s : Inv s → (i < length (claimed s))%nat → is_Some (exec (Commit i) s).
Proof.
  intros HI Hi. destruct s as [c tx rx tb rb cl fa cg hh ht bu tk co re de]. open_inv.
  destruct (lookup_lt_is_Some_2 _ _ Hi) as [m Hm]. rewrite Hm. simpl.
  assert (length m = msg_words tx) as Hlen by by eapply (Forall_lookup_1 _ _ _ _ i_claimed0).
  destruct (memcpy_pos tx tb m (length co)) as (tb' & Htb & _); [done..|].
  unfold send_copy. rewrite i_tail0, Htb. by eexists.
Qed.

Lemma Commit_Inv i s s' : Inv s → exec (Commit i) s = Some s' → Inv s'.
Proof.
  intros HI. destruct s as [c tx rx tb rb cl fa cg hh ht bu tk co re de]. open_inv.
  destruct (cl !! i) as [m|] eqn:Hm; [|done]. simpl.
  assert (length m = msg_words tx) as Hlen by by eapply (Forall_lookup_1 _ _ _ _ i_claimed0).
  destruct (memcpy_pos tx tb m (length co)) as (tb' & Htb & Hl & Hnew & Hold); [done..|].
  unfold send_copy. rewrite i_tail0, Htb. simpl. rewrite ring_next_pos by done. intros [= <-].
  pose proof (lookup_lt_Some _ _ _ Hm).
  split_and!; split; unfold cleared, outstanding; simpl; ring_shape;
    rewrite ?length_app, ?length_delete by done; simpl;
    try done; try (by rewrite ?Nat.add_1_r); try (by rewrite ?Hl); try lia.
  - by apply Forall_delete.
  - intros j m' Hj [Hjm|[? [? <-]%list_lookup_singleton_Some]]%lookup_app_Some.
    + rewrite Hold; [by apply i_requests0|]. apply slots_distinct; [done|].
      apply lookup_lt_Some in Hjm. lia.
    + assert (j = length co) as -> by lia. done.
  - rewrite fmap_app, drop_app_le, !fmap_app, i_perm0 by done. simpl.
    rewrite fmap_app. by rewrite <- !app_assoc.
Qed.

Lemma HwTake_Inv s s' : Inv s → exec HwTake s = Some s' → Inv s'.
Proof.
  intros HI. destruct s as [c tx rx tb rb cl fa cg hh ht bu tk co re de]. open_inv.
  destruct (Z.eqb_spec hh (csr_tail_offset tx)) as [|Hne]; [done|]. intros [= <-].
  rewrite i_csr0, i_tail0, i_hwhead0 in Hne. subst hh.
  assert (tk < length co)%nat as Htk by (destruct (decide (tk = length co)); [by subst|lia]).
  destruct (lookup_lt_is_Some_2 _ _ Htk) as [m Hm].
  split_and!; split; unfold cleared, outstanding; simpl;
    rewrite ?length_app, ?ring_next_pos by done; simpl; try done; try lia.
  - intros j m' Hj. apply i_requests0. lia.
  - rewrite (i_requests0 tk m), i_perm0 by done. rewrite (drop_S co m tk) by done.
    by rewrite !fmap_app, <- !app_assoc.
Qed.

Lemma HwRespond_ok i s : Inv s → (i < length (busy s))%nat → is_Some (exec (HwRespond i) s).
Proof.
  intros HI Hi. destruct s as [c tx rx tb rb cl fa cg hh ht bu tk co re de]. open_inv.
  destruct (lookup_lt_is_Some_2 _ _ Hi) as [m Hm]. rewrite Hm. simpl.
  destruct (memcpy_pos rx rb (resp m) (length re)) as (rb' & Hrb & _);
    [done|by rewrite resp_length|done|].
  rewrite i_hwtail0, Hrb. by eexists.
Qed.

Lemma HwRespond_Inv i s s' : Inv s → exec (HwRespond i) s = Some s' → Inv s'.
Proof.
  intros HI. destruct s as [c tx rx tb rb cl fa cg hh ht bu tk co re de]. open_inv.
  destruct (bu !! i) as [m|] eqn:Hm; [|done]. simpl.
  destruct (memcpy_pos rx rb (resp m) (length re)) as (rb' & Hrb & Hl & Hnew & Hold);
    [done|by rewrite resp_length|done|].
  rewrite i_hwtail0, Hrb. simpl. rewrite ring_next_pos by done. intros [= <-].
  pose proof (lookup_lt_Some _ _ _ Hm).
  pose proof (slots_bytes _ i_rx0) as (_ & Hn & _).
  assert (Nat.b2n cg <= 1)%nat by (destruct cg; simpl; lia).
  split_and!; split; unfold cleared, outstanding; simpl;
    rewrite ?length_app, ?length_delete by done; simpl;
    try done; try (by rewrite ?Nat.add_1_r); try (by rewrite ?Hl); try lia.
  - intros j w Hj [Hjw|[? [? <-]%list_lookup_singleton_Some]]%lookup_app_Some.
    + rewrite Hold; [by apply i_responses0|]. apply slots_distinct; [done|].
      apply lookup_lt_Some in Hjw. lia.
    + assert (j = length re) as -> by lia. done.
  - intros j Hj. destruct (load_word_pos rx rb' j) as [-> _]; [done|by rewrite Hl|].
    rewrite Hold by (symmetry; apply not_eq_sym, not_eq_sym, slots_distinct; [done|lia]).
    destruct (load_word_pos rx rb j) as [<- _]; [done..|]. apply i_empty0. lia.
  - by apply prefix_app_r.
  - rewrite i_perm0. rewrite <- app_assoc. f_equiv.
    rewrite !fmap_app. rewrite (app_assoc _ (resp <$> delete i bu)). f_equiv.
    rewrite <- (take_drop_middle bu i m) at 1 by done.
    rewrite delete_take_drop, !fmap_app, fmap_cons. simpl. by rewrite Permutation_middle.
Qed.

(** The poller sees a response in its slot exactly when one is pending. *)
Lemma poll_word s :
  Inv s → clearing s = false →
  ∃ w, load_word (rxbuf s) (head (rx s)) = Some w ∧
  ((w = ADF_RING_EMPTY_SIG ∧ delivered s = responded s) ∨
   (w ≠ ADF_RING_EMPTY_SIG ∧
    responded s !! length (delivered s) =
      Some (load_msg (rxbuf s) (head (rx s)) (msg_bytes (rx s))))).
Proof.
  intros HI Hc. destruct s as [c tx rx tb rb cl fa cg hh ht bu tk co re de]. open_inv.
  subst cg. simpl in *. rewrite Nat.sub_0_r in *. rewrite i_head0.
  destruct (load_word_pos rx rb (length de)) as [Hlw _]; [done..|].
  pose proof (slots_bytes _ i_rx0) as (_ & Hn & _).
  destruct (decide (length de = length re)) as [E|E].
  - exists ADF_RING_EMPTY_SIG. split; [apply i_empty0; lia|]. left.
    split; [done|]. apply prefix_length_eq; [done|lia].
  - destruct (lookup_lt_is_Some_2 re (length de)) as [m Hm]; [lia|].
    rewrite Hlw, (i_responses0 _ m) by (done || lia).
    assert (length m = rw) as Hmrw.
    { rewrite <- (i_responses0 (length de) m) by (done || lia).
      rewrite load_msg_pos, length_take, length_drop by done.
      destruct (msg_words_bytes rx i_rx0) as [_ Hk].
      pose proof (slot_in_buffer rx (length de) (msg_words rx - 1) rb i_rx0 i_rxbuf0 ltac:(lia)).
      lia. }
    assert (m ∈ resp <$> co) as (q & -> & _)%list_elem_of_fmap.
    { rewrite i_perm0. apply elem_of_app. left. by eapply list_elem_of_lookup_2. }
    pose proof (resp_sig q) as Hs. destruct (resp q) as [|w l]; [|].
    + simpl in Hmrw. destruct (msg_words_bytes rx); [done|]. lia.
    + exists w. split; [done|]. right. simpl in Hs. split; [congruence|done].
Qed.

Lemma Poll_Inv s s' : Inv s → exec Poll s = Some s' → Inv s'.
Proof.
  intros HI. destruct (clearing s) eqn:Hcg.
  { destruct s; simpl in *; subst. done. }
  destruct (poll_word s HI Hcg) as (w & Hw & Hcase).
  destruct s as [c tx rx tb rb cl fa cg hh ht bu tk co re de]. simpl in Hcg. subst cg.
  open_inv. rewrite Nat.sub_0_r in *. rewrite Hw. simpl.
  destruct (Z.eqb_spec w ADF_RING_EMPTY_SIG); [done|]. intros [= <-].
  destruct Hcase as [[]|[_ Hre]]; [done|]. pose proof (lookup_lt_Some _ _ _ Hre).
  split_and!; split; unfold cleared, outstanding; simpl;
    rewrite ?length_app; simpl; rewrite ?Nat.add_sub; try done; try lia.
  destruct i_prefix0 as [k ->]. rewrite lookup_app_r, Nat.sub_diag in Hre by done.
  destruct k as [|x k]; [done|]. injection Hre as ->. exists k. by rewrite <- app_assoc.
Qed.

Lemma Clear_ok s : Inv s → clearing s = true → is_Some (exec Clear s).
Proof.
  intros HI Hc. destruct s as [c tx rx tb rb cl fa cg hh ht bu tk co re de]. open_inv.
  subst cg. simpl in *.
  destruct (store_word_pos rx rb (length de - 1) ADF_RING_EMPTY_SIG) as (rb' & Hrb & _); [done..|].
  unfold recv_clear. rewrite i_head0, Hrb. by eexists.
Qed.

Lemma Clear_Inv s s' : Inv s → exec Clear s = Some s' → Inv s'.
Proof.
  intros HI. destruct s as [c tx rx tb rb cl fa cg hh ht bu tk co re de]. open_inv.
  destruct cg; [|done]. simpl in *. specialize (i_clearing0 eq_refl).
  destruct (store_word_pos rx rb (length de - 1) ADF_RING_EMPTY_SIG)
    as (rb' & Hrb & Hl & Hnew & Hold); [done..|].
  unfold recv_clear. rewrite i_head0, Hrb. simpl. rewrite ring_next_pos by done. intros [= <-].
  pose proof (slots_bytes _ i_rx0) as (_ & Hn & _).
  split_and!; split; unfold cleared, outstanding; simpl; ring_shape;
    rewrite ?Hl, ?Nat.sub_0_r; try done; try lia.
  - f_equal. lia.
  - intros j w Hj Hjw. rewrite Hold; [apply i_responses0; [lia|done]|].
    apply not_eq_sym, slots_distinct; [done|]. apply lookup_lt_Some in Hjw. lia.
  - intros j Hj. destruct (decide (j = length de - 1 + slots rx)%nat) as [->|Hne].
    + rewrite <- Hnew. f_equal. unfold pos. do 2 f_equal.
      rewrite <- (Nat.mul_1_l (slots rx)) at 1. by rewrite Nat.Div0.mod_add.
    + destruct (load_word_pos rx rb' j) as [-> _]; [done|by rewrite Hl|].
      rewrite Hold by (apply not_eq_sym, slots_distinct; [done|lia]).
      destruct (load_word_pos rx rb j) as [<- _]; [done..|]. apply i_empty0. lia.
Qed.

Lemma exec_Inv l s s' : Inv s → exec l s = Some s' → Inv s'.
Proof.
  destruct l; eauto using Claim_Inv, Unclaim_Inv, Commit_Inv, HwTake_Inv, HwRespond_Inv,
    Poll_Inv, Clear_Inv.
Qed.

Lemma reachable_Inv s : reachable s → Inv s.
Proof.
  intros (s0 & H0 & Hs). apply initial_Inv in H0. revert H0.
  induction Hs as [|s0 s1 s2 [l Hl] _ IH]; [done|]. intros. eapply IH, exec_Inv; eauto.
Qed.

(** What the invariant says of the buffers. *)
Lemma Inv_safe s :
  Inv s →
  Z.of_nat (outstanding s) <= max_inflights (tx s) ∧
  (∀ j m, (taken s <= j)%nat → committed s !! j = Some m →
     load_msg (txbuf s) (pos (tx s) j) (msg_bytes (tx s)) = m ∧
     (claimed s ≠ [] → pos (tx s) j ≠ tail (tx s))) ∧
  (∀ j w, (cleared s <= j)%nat → responded s !! j = Some w →
     load_msg (rxbuf s) (pos (rx s) j) (msg_bytes (rx s)) = w) ∧
  (busy s ≠ [] → load_word (rxbuf s) (hw_tail s) = Some ADF_RING_EMPTY_SIG).
Proof.
  intros (HS & HP & HC & HD).
  destruct (slots_bytes _ (i_tx _ HS)) as (_ & Hn & Hb).
  pose proof (i_limit _ HC) as Hlim. pose proof (i_delivered _ HP).
  assert (Nat.b2n (clearing s) <= 1)%nat by (destruct (clearing s); simpl; lia).
  pose proof (i_slots _ HS) as Hsl. unfold outstanding, cleared in *. split_and!.
  - rewrite (i_max _ HS). unfold outstanding. lia.
  - intros j m Hj Hm. split; [by apply (i_requests _ HD)|]. intros Hcl.
    rewrite (i_tail _ HP). unfold pos. intros E.
    apply lookup_lt_Some in Hm. destruct (claimed s); [done|]. simpl in *.
    apply (slots_distinct (tx s) j (length (committed s))); [apply HS|lia|nia].
  - apply (i_responses _ HD).
  - intros Hbu. rewrite (i_hwtail _ HP). apply (i_empty _ HD). unfold cleared.
    destruct (busy s); [done|]. simpl in *. lia.
Qed.

(** C1 Nothing is ever overwritten.  In every reachable state of senders, poller
    and device, the requests still in the ring are at most [max_inflights] and
    read back as they were written, and so do the responses the poller has not
    cleared; a sender past the check writes to a slot that holds no pending
    request, and the device, which never checks for room, writes its next
    response to a slot marked empty, even while the poller is between its
    [atomic_dec] and the clearing of the slot. *)
Theorem no_overwrite s :
  reachable s →
  Z.of_nat (outstanding s) <= max_inflights (tx s) ∧
  (∀ j m, (taken s <= j)%nat → committed s !! j = Some m →
     load_msg (txbuf s) (pos (tx s) j) (msg_bytes (tx s)) = m ∧
     (claimed s ≠ [] → pos (tx s) j ≠ tail (tx s))) ∧
  (∀ j w, (cleared s <= j)%nat → responded s !! j = Some w →
     load_msg (rxbuf s) (pos (rx s) j) (msg_bytes (rx s)) = w) ∧
  (busy s ≠ [] → load_word (rxbuf s) (hw_tail s) = Some ADF_RING_EMPTY_SIG).
Proof. intros Hr. by apply Inv_safe, reachable_Inv. Qed.

(** C2 Exactly once, and in order.  What the callback has been given is a
    prefix of what the device wrote; and the answers to the requests written so
    far are, as a multiset, the responses written and the answers to the
    requests the device still has to take or to answer.  So no response is
    lost, duplicated or invented. *)
Theorem exactly_once s :
  reachable s →
  delivered s `prefix_of` responded s ∧
  resp <$> committed s ≡ₚ
    responded s ++ (resp <$> busy s ++ drop (taken s) (committed s)).
Proof. intros Hr. apply reachable_Inv in Hr as (_ & _ & _ & [? ? ? ? ?]). done. Qed.

(** Work left, with every message counted for the steps it still needs. *)
Definition work (s : sys) : nat :=
  (failed s + Nat.b2n (clearing s) + 5 * length (claimed s)
   + 4 * (length (committed s) - taken s) + 3 * length (busy s)
   + 2 * (length (responded s) - length (delivered s)))%nat.

Lemma step_work l s s' :
  Inv s → exec l s = Some s' → (∀ m, l ≠ Claim m) → (work s' < work s)%nat.
Proof.
  intros HI Hl Hn. pose proof (exec_Inv _ _ _ HI Hl) as HI'.
  destruct HI as (_ & HP & _ & _), HI' as (_ & HP' & _ & _).
  pose proof (i_taken _ HP). pose proof (i_delivered _ HP).
  pose proof (i_taken _ HP'). pose proof (i_delivered _ HP').
  destruct s as [c tx rx tb rb cl fa cg hh ht bu tk co re de].
  unfold work. destruct l as [m| |i| |i| |]; simpl in *.
  - by destruct (Hn m).
  - destruct fa; [done|]. injection Hl as <-. simpl in *. lia.
  - destruct (cl !! i) as [m|] eqn:Hm; [|done]. simpl in Hl.
    destruct (send_copy tx tb m) as [[? ?]|]; [|done]. injection Hl as <-. simpl in *.
    rewrite length_delete, length_app by done. simpl. apply lookup_lt_Some in Hm. lia.
  - destruct (hh =? csr_tail_offset tx); [done|]. injection Hl as <-. simpl in *.
    rewrite length_app. simpl. lia.
  - destruct (bu !! i) as [m|] eqn:Hm; [|done]. simpl in Hl.
    destruct (memcpy_words _ _ _ _); [|done]. injection Hl as <-. simpl in *.
    rewrite length_delete, length_app by done. simpl. apply lookup_lt_Some in Hm. lia.
  - destruct cg; [done|]. destruct (load_word _ _) as [w|]; [|done]. simpl in Hl.
    destruct (w =? ADF_RING_EMPTY_SIG); [done|]. injection Hl as <-. simpl in *.
    rewrite length_app in *. simpl in *. lia.
  - destruct cg; [|done]. destruct (recv_clear rx rb) as [[? ?]|]; [|done].
    injection Hl as <-. simpl. lia.
Qed.

Lemma stuck_done s :
  Inv s → (∀ l s', exec l s = Some s' → ∃ m, l = Claim m) →
  claimed s = [] ∧ failed s = 0%nat ∧ busy s = [] ∧ taken s = length (committed s) ∧
  delivered s = responded s.
Proof.
  intros HI Hst.
  assert (∀ l, is_Some (exec l s) → (∀ m, l ≠ Claim m) → False) as Hno.
  { intros l [s' Hs'] Hm. destruct (Hst l s' Hs') as [m ->]. by eapply Hm. }
  assert (claimed s = []) as Hcl.
  { destruct (claimed s) eqn:E; [done|]. exfalso.
    apply (Hno (Commit 0)); [apply Commit_ok; [done|]; rewrite E; simpl; lia|done]. }
  assert (busy s = []) as Hbu.
  { destruct (busy s) eqn:E; [done|]. exfalso.
    apply (Hno (HwRespond 0)); [apply HwRespond_ok; [done|]; rewrite E; simpl; lia|done]. }
  assert (clearing s = false) as Hcg.
  { destruct (clearing s) eqn:E; [|done]. exfalso.
    apply (Hno Clear); [by apply Clear_ok|done]. }
  destruct (poll_word s HI Hcg) as (w & Hw & Hcase).
  destruct HI as (HS & HP & HC & HD). split_and!; [done| |done| |].
  - destruct s as [c tx rx tb rb cl [|fa] cg hh ht bu tk co re de]; [done|].
    exfalso. apply (Hno Unclaim); [by eexists|done].
  - destruct (decide (taken s = length (committed s))) as [|Hne]; [done|]. exfalso.
    apply (Hno HwTake); [|done]. pose proof (i_limit _ HC). pose proof (i_taken _ HP).
    destruct (slots_bytes _ (i_tx _ HS)) as (_ & Hn & Hb).
    pose proof (i_csr _ HP) as Hcsr. rewrite (i_tail _ HP) in Hcsr.
    pose proof (i_hwhead _ HP) as Hhh. pose proof (i_tx _ HS) as Htx.
    destruct s as [c tx rx tb rb cl fa cg hh ht bu tk co re de].
    unfold outstanding in *. simpl in *. rewrite Hcsr, Hhh.
    destruct (Z.eqb_spec (pos tx tk) (pos tx (length co))) as [E|]; [|by eexists].
    exfalso. unfold pos in E.
    apply (slots_distinct tx tk (length co)); [done|lia|nia].
  - destruct Hcase as [[_ ?]|[Hne Hre]]; [done|]. exfalso.
    apply (Hno Poll); [|done]. destruct s. simpl in *. subst. rewrite Hw. simpl.
    destruct (Z.eqb_spec w ADF_RING_EMPTY_SIG); [done|by eexists].
Qed.

(** C19 Every request is answered, under any scheduling.  Once no thread enters
    [adf_send_message], each step of the senders, the poller and the device
    uses up work, so only finitely many follow; and where none is possible any
    more every request has been delivered its response and the in-flight
    counter is back to 0. *)
Theorem drains s :
  reachable s →
  (∀ l s', exec l s = Some s' → (∀ m, l ≠ Claim m) → (work s' < work s)%nat) ∧
  ((∀ l s', exec l s = Some s' → ∃ m, l = Claim m) →
   delivered s ≡ₚ resp <$> committed s ∧ ctr s = 0).
Proof.
  intros Hr. apply reachable_Inv in Hr as HI. split; [eauto using step_work|]. intros Hst.
  destruct (stuck_done s HI Hst) as (Hcl & Hfa & Hbu & Htk & Hde).
  destruct HI as (_ & _ & HC & HD). split.
  - rewrite (i_perm _ HD), Hbu, Htk, drop_all, Hde. simpl. by rewrite app_nil_r.
  - rewrite (i_ctr _ HC). unfold outstanding. rewrite Hcl, Hfa, Hbu, Htk, Hde. simpl. lia.
Qed.

End system.

(** ** A run of a small pair of rings *)

Definition ex_resp (m : list Z) : list Z := 1 :: replicate 7 (default 0 (list.head m)).
Definition ex_msg (z : Z) : list Z := replicate 16 z.

(** 8 slots of 64 bytes, 16 slots of 32 bytes. *)
Definition ex_tx := RingData 1 1 None (Some 0) 0 0 0 0 3 2 0 7 false.
Definition ex_rx := RingData 2 1 (Some 1) (Some 0) 0 0 0 8 3 1 0 15 false.
Definition ex_init : sys :=
  Sys 0 ex_tx ex_rx (replicate 1024 ADF_RING_EMPTY_SIG) (replicate 1024 ADF_RING_EMPTY_SIG)
    [] 0 false 0 0 [] 0 [] [] [].

Lemma run_labels_rtc resp nthreads ls s s' :
  run_labels resp nthreads ls s = Some s' → rtc (step resp nthreads) s s'.
Proof.
  revert s. induction ls as [|l ls IH]; simpl; intros s H.
  - injection H as <-. done.
  - destruct (exec resp nthreads l s) as [s1|] eqn:E; [|done].
    eapply rtc_l; [by exists l|]. by apply IH.
Qed.

Lemma ex_initial : initial 8 ex_init.
Proof.
  assert (ring_ok ex_tx) by (split; [split; done|by right; left]).
  assert (ring_ok ex_rx) by (split; [split; done|by left]).
  unfold initial. split_and!; try done; try (vm_compute; lia).
  - apply (Forall_replicate (λ w, w = ADF_RING_EMPTY_SIG) 1024). done.
Qed.

(** Three threads send, a fourth message waits; the device has answered two
    requests out of order, and the poller is clearing the first response. *)
Definition ex_labels : list label :=
  [Claim (ex_msg 5); Claim (ex_msg 6); Commit 1; HwTake; Claim (ex_msg 7); Commit 0; HwTake;
   HwRespond 1; Poll; Commit 0; HwRespond 0; HwTake; Claim (ex_msg 8)].

Definition ex_state : sys := default ex_init (run_labels ex_resp 4 ex_labels ex_init).

(** The same run, continued until everything is delivered. *)
Definition ex_labels' : list label :=
  ex_labels ++ [Commit 0; Clear; Poll; Clear; HwTake; HwRespond 1; HwRespond 0; Poll; Clear;
                Poll; Clear].

Definition ex_state' : sys := default ex_init (run_labels ex_resp 4 ex_labels' ex_init).

Lemma ex_reachable : reachable ex_resp 8 4 ex_state.
Proof.
  exists ex_init. split; [apply ex_initial|].
  apply (run_labels_rtc ex_resp 4 ex_labels). by vm_compute.
Qed.

Lemma ex_reachable' : reachable ex_resp 8 4 ex_state'.
Proof.
  exists ex_init. split; [apply ex_initial|].
  apply (run_labels_rtc ex_resp 4 ex_labels'). by vm_compute.
Qed.

Lemma ex_resp_length m : length (ex_resp m) = 8%nat.
Proof. done. Qed.

Lemma ex_resp_sig m : list.head (ex_resp m) ≠ Some ADF_RING_EMPTY_SIG.
Proof. done. Qed.

Lemma no_overwrite_witness :
  busy ex_state ≠ [] ∧ clearing ex_state = true ∧
  load_word (rxbuf ex_state) (hw_tail ex_state) = Some ADF_RING_EMPTY_SIG.
Proof.
  split; [by vm_compute|]. split; [by vm_compute|].
  apply (no_overwrite ex_resp 8 4 ex_resp_length ex_resp_sig ltac:(lia) ex_state ex_reachable).
  by vm_compute.
Defined.

Lemma exactly_once_witness :
  delivered ex_state = [ex_resp (ex_msg 5)] ∧ delivered ex_state `prefix_of` responded ex_state.
Proof.
  split; [by vm_compute|].
  apply (exactly_once ex_resp 8 4 ex_resp_length ex_resp_sig ltac:(lia) ex_state ex_reachable).
Defined.

Lemma drains_witness :
  exec ex_resp 4 Poll ex_state' = None ∧
  (∀ l s', exec ex_resp 4 l ex_state' = Some s' → (∀ m, l ≠ Claim m) →
     (work s' < work ex_state')%nat).
Proof.
  split; [by vm_compute|].
  apply (drains ex_resp 8 4 ex_resp_length ex_resp_sig ltac:(lia) ex_state' ex_reachable').
Defined.

End RingSys.
