(* ===== verification/Transport.v ===== *)
(** * The transport layer

    Models [adf_transport.c] with the ring arbiter calls of
    [adf_hw_arbiter.c]: the banks and rings of a device, the buffers the device
    shares by DMA, the control registers, and every function that creates,
    removes, polls or writes a ring.  A fault is a NULL dereference, an access
    outside a buffer, or a block freed twice. *)

From stdpp Require Import pretty.
From S2P Require Import Prelude Ring.
Import Ring.

#[local] Open Scope Z_scope.
#[local] Open Scope qat_scope.

Module Transport.

Definition ENOENT := 2.
Definition ADF_RING_BUNDLE_SIZE := 0x1000.
Definition ADF_RINGS_PER_INT_SRCSEL := 8.
Definition ADF_BANK_INT_SRC_SEL_MASK := 0x44444444.
Definition ADF_BANK_INT_FLAG_CLEAR_MASK := 0xFFFF.
Definition ADF_RING_NEAR_WATERMARK_512 := 0x08.
Definition ADF_RING_NEAR_WATERMARK_0 := 0x00.
Definition ADF_COALESCING_MIN_TIME := 0x1FF.
Definition ADF_COALESCING_MAX_TIME := 0xFFFFF.
Definition ADF_COALESCING_DEF_TIME := 0x27FF.

(** [struct adf_etr_bank_data].  [rings] is the kzalloc'ed array, with the
    identity of its block; [csr_addr] is the register window of the device for
    every bank, and is left out. *)
Record adf_etr_bank_data := BankData {
  rings : option (Z * list adf_etr_ring_data);
  irq_coalesc_timer : Z;
  ring_mask : Z;
  irq_mask : Z;
  bank_number : Z;
  bank_debug : bool
}.

Definition zero_bank : adf_etr_bank_data := BankData None 0 0 0 0 false.

Definition set_rings (v : option (Z * list adf_etr_ring_data)) (b : adf_etr_bank_data) :=
  BankData v (irq_coalesc_timer b) (ring_mask b) (irq_mask b) (bank_number b) (bank_debug b).
Definition set_timer (v : Z) (b : adf_etr_bank_data) :=
  BankData (rings b) v (ring_mask b) (irq_mask b) (bank_number b) (bank_debug b).
Definition set_ring_mask (v : Z) (b : adf_etr_bank_data) :=
  BankData (rings b) (irq_coalesc_timer b) v (irq_mask b) (bank_number b) (bank_debug b).
Definition set_irq_mask (v : Z) (b : adf_etr_bank_data) :=
  BankData (rings b) (irq_coalesc_timer b) (ring_mask b) v (bank_number b) (bank_debug b).
Definition set_bank_debug (v : bool) (b : adf_etr_bank_data) :=
  BankData (rings b) (irq_coalesc_timer b) (ring_mask b) (irq_mask b) (bank_number b) v.

(** [struct adf_etr_data], with the identities of its two blocks. *)
Record adf_etr_data := EtrData {
  etr_blk : Z;
  banks_blk : Z;
  banks : list adf_etr_bank_data;
  debug : bool
}.

(** The device: what [adf_accel_dev] holds and what it points to. *)
Record device := Device {
  transport : option adf_etr_data;
  live : gset Z;                      (** kzalloc'ed blocks *)
  atomics : gmap Z Z;                 (** kzalloc'ed in-flight counters *)
  dma : gmap Z (list Z);              (** DMA buffers, in 32-bit words *)
  csr : gmap Z Z;                     (** registers, by offset *)
  next_ptr : Z;                       (** the next block's identity *)
  nalloc : nat;                       (** calls made to the allocators and debugfs *)
  calls : list (Z * list Z)           (** callbacks called, with their message *)
}.

Definition set_transport v d :=
  Device v (live d) (atomics d) (dma d) (csr d) (next_ptr d) (nalloc d) (calls d).
Definition set_live v d :=
  Device (transport d) v (atomics d) (dma d) (csr d) (next_ptr d) (nalloc d) (calls d).
Definition set_atomics v d :=
  Device (transport d) (live d) v (dma d) (csr d) (next_ptr d) (nalloc d) (calls d).
Definition set_dma v d :=
  Device (transport d) (live d) (atomics d) v (csr d) (next_ptr d) (nalloc d) (calls d).
Definition set_csr v d :=
  Device (transport d) (live d) (atomics d) (dma d) v (next_ptr d) (nalloc d) (calls d).
Definition set_next v d :=
  Device (transport d) (live d) (atomics d) (dma d) (csr d) v (nalloc d) (calls d).
Definition set_nalloc v d :=
  Device (transport d) (live d) (atomics d) (dma d) (csr d) (next_ptr d) v (calls d).
Definition set_calls v d :=
  Device (transport d) (live d) (atomics d) (dma d) (csr d) (next_ptr d) (nalloc d) v.

(** The fields of [struct adf_hw_device_data] the layer reads. *)
Record hw_device_data := Hw {
  tx_rings_mask : Z;
  tx_rx_gap : Z;
  num_rings_per_bank : Z;
  num_banks : Z;
  get_clock_speed : option Z          (** NULL, or what it returns *)
}.

(** ** Memory *)

Definition bank_at (d : device) (b : Z) : option adf_etr_bank_data :=
  e ← transport d;
  if decide (etr_blk e ∈ live d ∧ banks_blk e ∈ live d) then aget (banks e) b else None.

Definition put_bank_at (d : device) (b : Z) (bk : adf_etr_bank_data) : option device :=
  e ← transport d;
  if decide (etr_blk e ∈ live d ∧ banks_blk e ∈ live d) then
    l ← aset (banks e) b bk;
    Some (set_transport (Some (EtrData (etr_blk e) (banks_blk e) l (debug e))) d)
  else None.

(** [&banks[b].rings[i]] *)
Definition ring_at (d : device) (b i : Z) : option adf_etr_ring_data :=
  bk ← bank_at d b;
  '(p, l) ← rings bk;
  if decide (p ∈ live d) then aget l i else None.

Definition put_ring_at (d : device) (b i : Z) (r : adf_etr_ring_data) : option device :=
  bk ← bank_at d b;
  '(p, l) ← rings bk;
  if decide (p ∈ live d) then
    l ← aset l i r; put_bank_at d b (set_rings (Some (p, l)) bk)
  else None.

Definition get_bank (b : Z) : M device adf_etr_bank_data :=
  o <- gets (λ d, bank_at d b) ;; lift o.
Definition upd (f : device → option device) : M device () :=
  λ d, d' ← f d; Some ((), d').
Definition put_bank (b : Z) (bk : adf_etr_bank_data) : M device () :=
  upd (λ d, put_bank_at d b bk).
Definition get_ring (b i : Z) : M device adf_etr_ring_data :=
  o <- gets (λ d, ring_at d b i) ;; lift o.
Definition put_ring (b i : Z) (r : adf_etr_ring_data) : M device () :=
  upd (λ d, put_ring_at d b i r).

Definition get_dma (p : Z) : M device (list Z) := o <- gets (λ d, dma d !! p) ;; lift o.
Definition put_dma (p : Z) (buf : list Z) : M device () :=
  modify (λ d, set_dma (<[p := buf]> (dma d)) d).

(** [atomic_add_return(n, p)] *)
Definition atomic_add (n p : Z) : M device Z :=
  o <- gets (λ d, atomics d !! p) ;;
  v <- lift o ;;
  let v' := s32 (v + n) in
  modify (λ d, set_atomics (<[p := v']> (atomics d)) d) ;;
  ret v'.

Definition atomic_set (p v : Z) : M device () :=
  o <- gets (λ d, atomics d !! p) ;;
  lift o ;;
  modify (λ d, set_atomics (<[p := v]> (atomics d)) d).

Definition csr_wr (off v : Z) : M device () :=
  modify (λ d, set_csr (<[off := u32 v]> (csr d)) d).
Definition csr_rd (off : Z) : M device Z :=
  gets (λ d, default 0 (csr d !! off)).

Definition WRITE_CSR_RING_CONFIG bank ring value :=
  csr_wr (ADF_RING_BUNDLE_SIZE * bank + 0x000 + Z.shiftl ring 2) value.
Definition WRITE_CSR_RING_BASE bank ring value :=
  csr_wr (ADF_RING_BUNDLE_SIZE * bank + 0x040 + Z.shiftl ring 2) (value .& 0xFFFFFFFF) ;;
  csr_wr (ADF_RING_BUNDLE_SIZE * bank + 0x080 + Z.shiftl ring 2)
    (Z.shiftr (value .& 0xFFFFFFFF00000000) 32).
Definition WRITE_CSR_RING_HEAD bank ring value :=
  csr_wr (ADF_RING_BUNDLE_SIZE * bank + 0x0C0 + Z.shiftl ring 2) value.
Definition WRITE_CSR_RING_TAIL bank ring value :=
  csr_wr (ADF_RING_BUNDLE_SIZE * bank + 0x100 + Z.shiftl ring 2) value.
Definition READ_CSR_E_STAT bank := csr_rd (ADF_RING_BUNDLE_SIZE * bank + 0x14C).
Definition WRITE_CSR_INT_FLAG bank value :=
  csr_wr (ADF_RING_BUNDLE_SIZE * bank + 0x170) value.
Definition WRITE_CSR_INT_SRCSEL bank idx :=
  csr_wr (ADF_RING_BUNDLE_SIZE * bank + (0x174 + idx * 4)) ADF_BANK_INT_SRC_SEL_MASK.
Definition WRITE_CSR_INT_COL_EN bank value :=
  csr_wr (ADF_RING_BUNDLE_SIZE * bank + 0x17C) value.
Definition WRITE_CSR_INT_COL_CTL bank value :=
  csr_wr (ADF_RING_BUNDLE_SIZE * bank + 0x180) (0x80000000 .| value).
Definition WRITE_CSR_ARB_RINGSRVARBEN index value :=
  csr_wr (0x19C + 0x1000 * index) value.

Definition BUILD_RING_CONFIG (size : Z) : Z :=
  Z.shiftl ADF_RING_NEAR_WATERMARK_0 0x0A .| Z.shiftl ADF_RING_NEAR_WATERMARK_0 0x05 .| size.
Definition BUILD_RESP_RING_CONFIG (size watermark_nf watermark_ne : Z) : Z :=
  Z.shiftl watermark_nf 0x0A .| Z.shiftl watermark_ne 0x05 .| size.
Definition BUILD_RING_BASE_ADDR (addr size : Z) : Z :=
  Z.shiftr addr 6 .& u64 (Z.shiftl 0xFFFFFFFFFFFFFFFF size).

(** Writing a bank or a ring changes that bank or ring, and nothing but the
    transport data. *)
Lemma put_bank_at_spec d b bk0 bk :
  bank_at d b = Some bk0 →
  ∃ d' t, put_bank_at d b bk = Some d' ∧ d' = set_transport t d ∧
    bank_at d' b = Some bk ∧ ∀ b', b' ≠ b → bank_at d' b' = bank_at d b'.
Proof.
  unfold bank_at, put_bank_at. destruct (transport d) as [e|] eqn:E; [simpl|done].
  intros H. case_decide as Hl; [|done]. pose proof (aget_Some _ _ _ H) as Hb.
  rewrite (aset_in _ _ bk) by done. simpl. eexists _, _. split; [done|]. split; [done|]. simpl.
  rewrite decide_True by done. split.
  - eapply aget_aset_eq, aset_in. done.
  - intros b' Hne. rewrite decide_True by done.
    eapply (aget_aset_ne (banks e)); [by apply aset_in|done].
Qed.

Lemma put_ring_at_spec d b i r0 r :
  ring_at d b i = Some r0 →
  ∃ d' t, put_ring_at d b i r = Some d' ∧ d' = set_transport t d ∧
    ring_at d' b i = Some r ∧
    (∀ b' i', (b', i') ≠ (b, i) → ring_at d' b' i' = ring_at d b' i') ∧
    (∀ b' bk, bank_at d b' = Some bk → ∃ v, bank_at d' b' = Some (set_rings v bk)).
Proof.
  unfold ring_at at 1, put_ring_at. destruct (bank_at d b) as [bk|] eqn:Eb; [simpl|done].
  destruct (rings bk) as [[p l]|] eqn:Er; [simpl|done]. case_decide as Hp; [|done].
  intros Hi. pose proof (aget_Some _ _ _ Hi) as Hr. rewrite (aset_in _ _ r) by done. simpl.
  destruct (put_bank_at_spec d b bk (set_rings (Some (p, <[Z.to_nat i:=r]> l)) bk) Eb)
    as (d' & t & -> & Hd & Hb & Hb').
  exists d', t. split_and!; [done|done| | |].
  - unfold ring_at. rewrite Hb. simpl. rewrite Hd. simpl. rewrite decide_True by done.
    eapply aget_aset_eq, aset_in. done.
  - intros b' i' Hne. unfold ring_at. destruct (decide (b' = b)) as [->|Hbne].
    + rewrite Hb, Eb. simpl. rewrite Er. simpl. rewrite Hd. simpl. case_decide; [|done].
      eapply (aget_aset_ne l); [by apply aset_in|congruence].
    + rewrite Hb' by done. subst d'. done.
  - intros b' bk' Hbk. destruct (decide (b' = b)) as [->|Hbne].
    + rewrite Eb in Hbk. injection Hbk as <-. by eexists.
    + rewrite Hb', Hbk by done. exists (rings bk'). by destruct bk'.
Qed.

(** ** The functions of the layer

    What the kernel and the rest of the driver answer are arguments: [ext_ok]
    says whether the [n]-th call of [kzalloc_node] or of a debugfs function
    succeeds, [dma_addr_of] the bus address of a buffer or a failure,
    [cfg_get section key] the configuration table ([adf_cfg_get_param_value]),
    [kstrtouint] the parse of a decimal number, and [dev_found] whether
    [adf_devmgr_get_dev_by_id] finds this device under an identifier. *)
Section layer.
Context (hw : hw_device_data) (ext_ok : nat → bool) (dma_addr_of : nat → option Z)
  (cfg_get : string → string → option string) (kstrtouint : string → option Z)
  (dev_found : Z → bool).

Definition tick : M device nat :=
  n <- gets nalloc ;; modify (set_nalloc (S n)) ;; ret n.

Definition ext_call : M device bool := n <- tick ;; ret (ext_ok n).

Definition fresh : M device Z :=
  p <- gets next_ptr ;; modify (set_next (p + 1)) ;; ret p.

(** [kzalloc_node] of a block: its identity, or 0 for NULL. *)
Definition kzalloc : M device Z :=
  ok <- ext_call ;;
  if negb ok then ret 0 else
  p <- fresh ;;
  modify (λ d, set_live ({[p]} ∪ live d) d) ;;
  ret p.

Definition kfree (p : Z) : M device () :=
  if p =? 0 then ret () else
  upd (λ d, if decide (p ∈ live d) then Some (set_live (live d ∖ {[p]}) d) else None).

(** The same for an [atomic_t]. *)
Definition kzalloc_atomic : M device Z :=
  ok <- ext_call ;;
  if negb ok then ret 0 else
  p <- fresh ;;
  modify (λ d, set_atomics (<[p := 0]> (atomics d)) d) ;;
  ret p.

Definition kfree_atomic (p : Z) : M device () :=
  if p =? 0 then ret () else
  upd (λ d, match atomics d !! p with
            | Some _ => Some (set_atomics (delete p (atomics d)) d)
            | None => None
            end).

Definition dma_free_coherent (p : Z) : M device () :=
  upd (λ d, match dma d !! p with
            | Some _ => Some (set_dma (delete p (dma d)) d)
            | None => None
            end).

Definition ring_buffer (size : Z) : list Z :=
  replicate (Z.to_nat (size / 4)) ADF_RING_EMPTY_SIG.

(** 0, or [-EFAULT] when the ring is taken. *)
Definition adf_reserve_ring (b ring : Z) : M device Z :=
  bank <- get_bank b ;;
  if negb (ring_mask bank .& BIT ring =? 0) then ret (- EFAULT) else
  put_bank b (set_ring_mask (u16 (ring_mask bank .| BIT ring)) bank) ;;
  ret 0.

Definition adf_unreserve_ring (b ring : Z) : M device () :=
  bank <- get_bank b ;;
  put_bank b (set_ring_mask (clear (ring_mask bank) (BIT ring)) bank).

Definition adf_enable_ring_irq (b ring : Z) : M device () :=
  bank <- get_bank b ;;
  put_bank b (set_irq_mask (u16 (irq_mask bank .| BIT ring)) bank) ;;
  bank <- get_bank b ;;
  WRITE_CSR_INT_COL_EN (bank_number bank) (irq_mask bank) ;;
  WRITE_CSR_INT_COL_CTL (bank_number bank) (irq_coalesc_timer bank).

Definition adf_disable_ring_irq (b ring : Z) : M device () :=
  bank <- get_bank b ;;
  put_bank b (set_irq_mask (clear (irq_mask bank) (BIT ring)) bank) ;;
  bank <- get_bank b ;;
  WRITE_CSR_INT_COL_EN (bank_number bank) (irq_mask bank).

(** [ring->bank->bank_number]: a ring that was never created has no bank. *)
Definition ring_bank (r : adf_etr_ring_data) : M device adf_etr_bank_data :=
  b <- lift (bank r) ;; get_bank b.

Definition adf_update_ring_arb (b i : Z) : M device () :=
  ring <- get_ring b i ;;
  bk <- ring_bank ring ;;
  WRITE_CSR_ARB_RINGSRVARBEN (bank_number bk) (ring_mask bk .& 0xFF).

Definition adf_send_message (b i : Z) (msg : list Z) : M device Z :=
  ring <- get_ring b i ;;
  v <- atomic_add 1 (inflights ring) ;;
  if over_limit ring v then
    atomic_add (-1) (inflights ring) ;;
    ret (- EAGAIN)
  else
    buf <- get_dma (base_addr ring) ;;
    let! (ring', buf') := lift (send_copy ring buf msg) in
    put_dma (base_addr ring) buf' ;;
    put_ring b i ring' ;;
    bk <- ring_bank ring' ;;
    WRITE_CSR_RING_TAIL (bank_number bk) (ring_number ring') (tail ring') ;;
    ret 0.

(** [ring->callback(msg)] *)
Definition call_back (r : adf_etr_ring_data) (msg : list Z) : M device () :=
  cb <- lift (callback r) ;;
  modify (λ d, set_calls (calls d ++ [(cb, msg)]) d).

(** The [while] loop; [n] is [msg_counter].  It ends by itself, at the latest
    after one turn of the ring: a loop that outlives its fuel is a fault. *)
Fixpoint response_loop (fuel : nat) (b i quota n : Z) : M device Z :=
  match fuel with
  | O => fault
  | S fuel =>
    ring <- get_ring b i ;;
    buf <- get_dma (base_addr ring) ;;
    w <- lift (load_word buf (head ring)) ;;
    if negb (w =? ADF_RING_EMPTY_SIG) && (n <? quota) then
      call_back ring (load_msg buf (head ring) (msg_bytes ring)) ;;
      atomic_add (-1) (inflights ring) ;;
      let! (ring', buf') := lift (recv_clear ring buf) in
      put_dma (base_addr ring) buf' ;;
      put_ring b i ring' ;;
      response_loop fuel b i quota (n + 1)
    else ret n
  end.

(** One turn of the largest ring, in the smallest messages, and one more. *)
Definition response_fuel : nat := Z.to_nat (2 ^ 17 + 1).

Definition adf_handle_response (b i quota : Z) : M device Z :=
  let quota := if quota =? 0 then ADF_NO_RESPONSE_QUOTA else quota in
  n <- response_loop response_fuel b i quota 0 ;;
  when (0 <? n)
    (ring <- get_ring b i ;;
     bk <- ring_bank ring ;;
     WRITE_CSR_RING_HEAD (bank_number bk) (ring_number ring) (head ring)) ;;
  ret n.

(** The loop of [adf_poll_bank] over [bank->rings]; returns [resp_total]. *)
Fixpoint poll_rings (js : list Z) (b quota rings_not_empty total : Z) : M device Z :=
  match js with
  | [] => ret total
  | ring_num :: js =>
    ring <- get_ring b ring_num ;;
    if rings_not_empty .& BIT (ring_number ring) =? 0
    then poll_rings js b quota rings_not_empty total
    else
      num_resp <- adf_handle_response b ring_num quota ;;
      poll_rings js b quota rings_not_empty (u32 (total + num_resp))
  end.

Definition indices (n : Z) : list Z := seqZ 0 n.

Definition adf_poll_bank (accel_id bank_num quota : Z) : M device Z :=
  if negb (dev_found accel_id) then ret (- EINVAL) else
  bank <- get_bank bank_num ;;
  e <- READ_CSR_E_STAT (bank_number bank) ;;
  let rings_not_empty := u32 (Z.lnot e) .& ring_mask bank in
  if rings_not_empty .& ring_mask bank =? 0 then ret (- EAGAIN) else
  resp_total <- poll_rings (indices (num_rings_per_bank hw)) bank_num quota rings_not_empty 0 ;;
  ret (if resp_total =? 0 then - EAGAIN else 0).

(** The loop of [adf_poll_all_banks]: [inl] is an early return. *)
Fixpoint poll_banks (bs : list Z) (accel_id quota stat_total : Z) : M device (Z + Z) :=
  match bs with
  | [] => ret (inr stat_total)
  | bank_num :: bs =>
    bank <- get_bank bank_num ;;
    if ring_mask bank =? 0 then poll_banks bs accel_id quota stat_total else
    status <- adf_poll_bank accel_id bank_num quota ;;
    if status =? 0 then poll_banks bs accel_id quota (u32 (stat_total + 1))
    else if status =? - EAGAIN then poll_banks bs accel_id quota stat_total
    else ret (inl status)
  end.

Definition adf_poll_all_banks (accel_id quota : Z) : M device Z :=
  if negb (dev_found accel_id) then ret (- EINVAL) else
  r <- poll_banks (indices (num_banks hw)) accel_id quota 0 ;;
  match r with
  | inl status => ret status
  | inr stat_total => ret (if stat_total =? 0 then - EAGAIN else 0)
  end.

Definition adf_configure_tx_ring (b i : Z) : M device () :=
  ring <- get_ring b i ;;
  bk <- ring_bank ring ;;
  WRITE_CSR_RING_CONFIG (bank_number bk) (ring_number ring) (BUILD_RING_CONFIG (ring_size ring)).

Definition adf_configure_rx_ring (b i : Z) : M device () :=
  ring <- get_ring b i ;;
  bk <- ring_bank ring ;;
  WRITE_CSR_RING_CONFIG (bank_number bk) (ring_number ring)
    (BUILD_RESP_RING_CONFIG (ring_size ring) ADF_RING_NEAR_WATERMARK_512
       ADF_RING_NEAR_WATERMARK_0).

Definition adf_init_ring (b i : Z) : M device Z :=
  ring <- get_ring b i ;;
  let ring_size_bytes :=
    ADF_RING_SIZE_BYTES_MIN (ADF_SIZE_TO_RING_SIZE_IN_BYTES (ring_size ring)) in
  n <- tick ;;
  match dma_addr_of n with
  | None => put_ring b i (set_buffer 0 (dma_addr ring) ring) ;; ret (- ENOMEM)
  | Some addr =>
    p <- fresh ;;
    put_dma p (ring_buffer ring_size_bytes) ;;
    put_ring b i (set_buffer p addr ring) ;;
    if negb (adf_check_ring_alignment addr ring_size_bytes =? 0) then
      dma_free_coherent p ;; ret (- EFAULT)
    else
      (if negb (tx_rings_mask hw .& BIT (ring_number ring) =? 0)
       then adf_configure_tx_ring b i else adf_configure_rx_ring b i) ;;
      bk <- ring_bank ring ;;
      WRITE_CSR_RING_BASE (bank_number bk) (ring_number ring)
        (BUILD_RING_BASE_ADDR addr (ring_size ring)) ;;
      ret 0
  end.

(** The buffer is wiped, then freed: [base_addr] keeps its value. *)
Definition adf_cleanup_ring (b i : Z) : M device () :=
  ring <- get_ring b i ;;
  if base_addr ring =? 0 then ret () else
  get_dma (base_addr ring) ;;
  put_dma (base_addr ring)
    (ring_buffer (ADF_RING_SIZE_BYTES_MIN (ADF_SIZE_TO_RING_SIZE_IN_BYTES (ring_size ring)))) ;;
  dma_free_coherent (base_addr ring).

(** [num_rings_per_bank], [val] and [kstrtouint]: the ring's number, or an
    error before anything is changed. *)
Definition create_ring_checks (section : string) (bank_num num_msgs msg_size : Z)
    (ring_name : string) : option Z :=
  if num_banks hw <=? bank_num then None else
  if ADF_MSG_SIZE_TO_BYTES ADF_MAX_MSG_SIZE <? msg_size then None else
  if ADF_MAX_INFLIGHTS (adf_verify_ring_size msg_size num_msgs)
       (ADF_BYTES_TO_MSG_SIZE msg_size) <? 2 then None else
  val ← cfg_get section ring_name;
  ring_num ← kstrtouint val;
  if num_rings_per_bank hw <=? ring_num then None else Some ring_num.

(** The assignments to the ring before [adf_init_ring]. *)
Definition ring_setup (bank_num ring_num num_msgs msg_size : Z) (cb : option Z)
    (r : adf_etr_ring_data) : adf_etr_ring_data :=
  let ms := wrap 8 (ADF_BYTES_TO_MSG_SIZE msg_size) in
  let rs := wrap 8 (adf_verify_ring_size msg_size num_msgs) in
  RingData (base_addr r) (inflights r) cb (Some bank_num) (dma_addr r) 0 0
    (wrap 8 ring_num) rs ms 0 (u32 (ADF_MAX_INFLIGHTS rs ms)) (ring_debug r).

(** [inl err], or [inr i]: 0 is returned and [*ring_ptr] is ring [i] of the
    bank. *)
Definition adf_create_ring (section : string) (bank_num num_msgs msg_size : Z)
    (ring_name : string) (cb : option Z) (poll_mode : bool) : M device (Z + Z) :=
  match create_ring_checks section bank_num num_msgs msg_size ring_name with
  | None => ret (inl (- EFAULT))
  | Some ring_num =>
    taken <- adf_reserve_ring bank_num ring_num ;;
    if negb (taken =? 0) then ret (inl (- EFAULT)) else
    ring <- get_ring bank_num ring_num ;;
    put_ring bank_num ring_num (ring_setup bank_num ring_num num_msgs msg_size cb ring) ;;
    atomic_set (inflights ring) 0 ;;
    r <- adf_init_ring bank_num ring_num ;;
    let err r :=
      adf_cleanup_ring bank_num ring_num ;;
      adf_unreserve_ring bank_num ring_num ;;
      adf_update_ring_arb bank_num ring_num ;;
      ret (inl r) in
    if negb (r =? 0) then err r else
    adf_update_ring_arb bank_num ring_num ;;
    ok <- ext_call ;;
    if negb ok then err (- EFAULT) else
    ring <- get_ring bank_num ring_num ;;
    put_ring bank_num ring_num (set_debug true ring) ;;
    when (bool_decide (is_Some cb) && negb poll_mode)
      (adf_enable_ring_irq bank_num (ring_number ring)) ;;
    ret (inr ring_num)
  end.

Definition adf_remove_ring (b i : Z) : M device () :=
  ring <- get_ring b i ;;
  bn <- lift (bank ring) ;;
  adf_disable_ring_irq bn (ring_number ring) ;;
  bk <- get_bank bn ;;
  WRITE_CSR_RING_CONFIG (bank_number bk) (ring_number ring) 0 ;;
  WRITE_CSR_RING_BASE (bank_number bk) (ring_number ring) 0 ;;
  put_ring b i (set_debug false ring) ;;
  adf_unreserve_ring bn (ring_number ring) ;;
  adf_update_ring_arb b i ;;
  adf_cleanup_ring b i.

Definition adf_ring_response_handler (b : Z) : M device () :=
  bank <- get_bank b ;;
  e <- READ_CSR_E_STAT (bank_number bank) ;;
  let empty_rings := u32 (Z.lnot e) .& irq_mask bank in
  foreach (indices (num_rings_per_bank hw)) (λ i,
    when (negb (empty_rings .& BIT i =? 0))
      (adf_handle_response b i 0 ;; ret ())).

Definition adf_response_handler (b : Z) : M device () :=
  adf_ring_response_handler b ;;
  bank <- get_bank b ;;
  WRITE_CSR_INT_COL_EN (bank_number bank) (irq_mask bank).

(** [Some v]: 0 is returned and [v] written to [*value]; [None]: [-EFAULT]. *)
Definition adf_get_cfg_int (section : string) (key : string) : option Z :=
  val ← cfg_get section key; kstrtouint val.

Definition coalesc_enabled_key (bank : Z) : string :=
  "Bank" +:+ pretty bank +:+ "InterruptCoalescingEnabled".
Definition coalesc_timer_key (bank : Z) : string :=
  "Bank" +:+ pretty bank +:+ "InterruptCoalescingTimerNs".

(** The value [adf_get_coalesc_timer] gives [bank->irq_coalesc_timer]. *)
Definition adf_get_coalesc_timer (section : string) (bank_num_in_accel : Z) : Z :=
  let coalesc_timer :=
    default ADF_COALESCING_DEF_TIME
      (adf_get_cfg_int section (coalesc_timer_key bank_num_in_accel)) in
  let t := match get_clock_speed hw with
           | Some speed => u32 (coalesc_timer * (speed / 1000000) / 1000)
           | None => coalesc_timer
           end in
  if ADF_COALESCING_MAX_TIME <? t then ADF_COALESCING_MAX_TIME
  else if t <? ADF_COALESCING_MIN_TIME then ADF_COALESCING_MIN_TIME
  else t.

(** The [for] loop of [adf_init_bank] over the rings; [false]: [goto err]. *)
Fixpoint init_rings (js : list Z) (b : Z) : M device bool :=
  match js with
  | [] => ret true
  | i :: js =>
    WRITE_CSR_RING_CONFIG b i 0 ;;
    WRITE_CSR_RING_BASE b i 0 ;;
    ring <- get_ring b i ;;
    if negb (tx_rings_mask hw .& BIT i =? 0) then
      p <- kzalloc_atomic ;;
      put_ring b i (set_inflights p ring) ;;
      if p =? 0 then ret false else init_rings js b
    else if i <? tx_rx_gap hw then ret false
    else
      tx_ring <- get_ring b (i - tx_rx_gap hw) ;;
      put_ring b i (set_inflights (inflights tx_ring) ring) ;;
      init_rings js b
  end.

(** [kfree(ring->inflights)] for every request ring. *)
Definition free_inflights (b i : Z) : M device () :=
  when (negb (tx_rings_mask hw .& BIT i =? 0))
    (ring <- get_ring b i ;; kfree_atomic (inflights ring)).

Definition free_rings (b : Z) : M device () :=
  bank <- get_bank b ;;
  match rings bank with None => ret () | Some (p, _) => kfree p end.

Definition adf_init_bank (b : Z) : M device Z :=
  put_bank b (BankData None 0 0 0 b false) ;;
  p <- kzalloc ;;
  if p =? 0 then ret (- ENOMEM) else
  bank <- get_bank b ;;
  put_bank b (set_rings
    (Some (p, replicate (Z.to_nat (num_rings_per_bank hw)) zero_ring)) bank) ;;
  let coalesc_enabled := adf_get_cfg_int "Accelerator0" (coalesc_enabled_key b) in
  bank <- get_bank b ;;
  put_bank b (set_timer
    (match coalesc_enabled with
     | Some e => if e =? 0 then ADF_COALESCING_MIN_TIME
                 else adf_get_coalesc_timer "Accelerator0" b
     | None => ADF_COALESCING_MIN_TIME
     end) bank) ;;
  let err :=
    foreach (indices (num_rings_per_bank hw)) (free_inflights b) ;;
    free_rings b ;;
    ret (- ENOMEM) in
  ok <- init_rings (indices (num_rings_per_bank hw)) b ;;
  if negb ok then err else
  ok <- ext_call ;;
  if negb ok then err else
  bank <- get_bank b ;;
  put_bank b (set_bank_debug true bank) ;;
  WRITE_CSR_INT_FLAG b ADF_BANK_INT_FLAG_CLEAR_MASK ;;
  foreach (indices (num_rings_per_bank hw / ADF_RINGS_PER_INT_SRCSEL))
    (λ i, WRITE_CSR_INT_SRCSEL b i) ;;
  ret 0.

Fixpoint init_banks (bs : list Z) : M device Z :=
  match bs with
  | [] => ret 0
  | b :: bs =>
    r <- adf_init_bank b ;;
    if r =? 0 then init_banks bs else ret r
  end.

Definition adf_init_etr_data : M device Z :=
  ep <- kzalloc ;;
  if ep =? 0 then ret (- ENOMEM) else
  bp <- kzalloc ;;
  let err_bank r := kfree ep ;; modify (set_transport None) ;; ret r in
  if bp =? 0 then err_bank (- ENOMEM) else
  modify (set_transport (Some
    (EtrData ep bp (replicate (Z.to_nat (num_banks hw)) zero_bank) false))) ;;
  ok <- ext_call ;;
  if negb ok then kfree bp ;; err_bank (- ENOENT) else
  modify (λ d, set_transport
    ((λ e, EtrData (etr_blk e) (banks_blk e) (banks e) true) <$> transport d) d) ;;
  r <- init_banks (indices (num_banks hw)) ;;
  if r =? 0 then ret 0 else
  kfree bp ;; err_bank r.

Definition cleanup_bank (b : Z) : M device () :=
  foreach (indices (num_rings_per_bank hw)) (λ i,
    bank <- get_bank b ;;
    when (negb (ring_mask bank .& BIT i =? 0)) (adf_cleanup_ring b i) ;;
    free_inflights b i) ;;
  free_rings b ;;
  put_bank b zero_bank.

Definition adf_cleanup_etr_handles : M device () :=
  foreach (indices (num_banks hw)) cleanup_bank.

Definition adf_cleanup_etr_data : M device () :=
  e <- gets transport ;;
  match e with
  | None => ret ()
  | Some e =>
    adf_cleanup_etr_handles ;;
    free_rings 0 ;;
    kfree (banks_blk e) ;;
    kfree (etr_blk e) ;;
    modify (set_transport None)
  end.

End layer.

(** The coalescing timer of a bank lies between the minimum and the maximum
    the register accepts, whatever the configuration and the clock; a configured
    time (scaled by the clock when the device has one) within the bounds is
    taken as it is. *)
Theorem adf_get_coalesc_timer_bounds hw cfg_get kstrtouint section n :
  let t := adf_get_coalesc_timer hw cfg_get kstrtouint section n in
  ADF_COALESCING_MIN_TIME <= t <= ADF_COALESCING_MAX_TIME ∧
  (∀ v, adf_get_cfg_int cfg_get kstrtouint section (coalesc_timer_key n) = Some v →
   get_clock_speed hw = None → ADF_COALESCING_MIN_TIME <= v <= ADF_COALESCING_MAX_TIME →
   t = v).
Proof.
  cbv zeta. unfold adf_get_coalesc_timer. 
  match goal with |- context [ADF_COALESCING_MAX_TIME <? ?x] => set (u := x) end.
  destruct (Z.ltb_spec ADF_COALESCING_MAX_TIME u), (Z.ltb_spec u ADF_COALESCING_MIN_TIME);
    unfold ADF_COALESCING_MAX_TIME, ADF_COALESCING_MIN_TIME in *; (split; [lia|]);
    intros v Hv Hc Hr; unfold u in *; rewrite Hc, Hv in *; simpl in *; lia.
Qed.

(** [adf_poll_bank] does not skip rings that were never created: their
    [ring_number] is 0, so when ring 0 of the bank has data they are polled too,
    through a NULL [base_addr]. *)
Theorem poll_rings_uncreated b k js quota rings_not_empty total d r :
  ring_at d b k = Some r → base_addr r = 0 → ring_number r = 0 → dma d !! 0 = None →
  Z.testbit rings_not_empty 0 = true →
  poll_rings (k :: js) b quota rings_not_empty total d = None.
Proof.
  intros Hr Hb Hn Hd Hbit. simpl.
  assert (get_ring b k d = Some (r, d)) as Hg by (unfold get_ring, bind, gets, lift; by rewrite Hr).
  rewrite (bind_Some _ _ _ _ _ Hg), Hn, land_BIT_nonzero, Hbit by lia. branch.
  apply bind_None, bind_None.
  assert (∃ f, response_fuel = S f) as [f ->]
    by (exists (Z.to_nat (2 ^ 17)); unfold response_fuel; lia).
  simpl.
  rewrite (bind_Some _ _ _ _ _ Hg). apply bind_None. unfold get_dma. rewrite bind_gets, Hb, Hd.
  done.
Qed.

(** ** A small device: two banks of 16 rings, requests on rings 0 to 7 *)

Definition ex_hw : hw_device_data := Hw 0xFF 8 16 2 (Some 685000000).
Definition ex_dma_addr (n : nat) : option Z := Some (Z.of_nat n * 2 ^ 22).
Definition ex_cfg (section key : string) : option string := Some key.
Definition ex_kstrtouint (s : string) : option Z :=
  if decide (s = "0"%string) then Some 0 else if decide (s = "8"%string) then Some 8 else None.

Definition blank_device : device := Device None ∅ ∅ ∅ ∅ 1 0 [].

Definition ex_device : device :=
  default blank_device (snd <$>
    adf_init_etr_data ex_hw (λ _, true) ex_cfg ex_kstrtouint blank_device).

Definition ex_ring (i : Z) : adf_etr_ring_data := default zero_ring (ring_at ex_device 0 i).

(** The same with a pair of rings of eight messages. *)
Definition ex_create (name : string) (ms : Z) (cb : option Z) : M device (Z + Z) :=
  adf_create_ring ex_hw (λ _, true) ex_dma_addr ex_cfg ex_kstrtouint "KERNEL" 0 8 ms name cb true.

Definition ex_device2 : device :=
  default blank_device (snd <$>
    (ex_create "0" 64 None ;; ex_create "8" 32 (Some 1)) ex_device).

Lemma adf_get_coalesc_timer_bounds_witness :
  adf_get_coalesc_timer (Hw 0xFF 8 16 2 None) (λ _ _, Some "900"%string) (λ _, Some 900) "A" 0 = 900.
Proof. apply adf_get_coalesc_timer_bounds; by vm_compute. Defined.

(** Rings 0 and 8 exist, ring 1 does not. *)
Lemma poll_rings_uncreated_witness :
  ring_mask (default zero_bank (bank_at ex_device2 0)) = 0x101 ∧
  poll_rings [1] 0 0 0x001 0 ex_device2 = None.
Proof.
  split; [by vm_compute|].
  apply (poll_rings_uncreated 0 1 [] 0 0x001 0 ex_device2
    (default zero_ring (ring_at ex_device2 0 1))); by vm_compute.
Defined.

(** When a later bank cannot be set up, [adf_init_etr_data] frees the array
    of banks but not what the earlier banks own: their ring arrays and in-flight
    counters are left allocated with nothing pointing to them. *)
Theorem adf_init_etr_data_leak :
  ∃ d, adf_init_etr_data ex_hw (λ n, negb (n =? 13)%nat) ex_cfg ex_kstrtouint blank_device
       = Some (- ENOMEM, d) ∧
  transport d = None ∧ size (live d) = 1%nat ∧ size (atomics d) = 8%nat.
Proof. eexists. split; [vm_compute; reflexivity|]. by vm_compute. Qed.

(** With both banks set up, [adf_cleanup_etr_data] frees every block and
    counter that [adf_init_etr_data] allocated. *)
Theorem adf_cleanup_etr_data_frees :
  ∃ d, adf_init_etr_data ex_hw (λ _, true) ex_cfg ex_kstrtouint blank_device = Some (0, d) ∧
  size (live d) = 4%nat ∧ size (atomics d) = 16%nat ∧
  ∃ d', adf_cleanup_etr_data ex_hw d = Some ((), d') ∧
  transport d' = None ∧ live d' = ∅ ∧ atomics d' = ∅.
Proof.
  eexists. split; [vm_compute; reflexivity|]. split; [by vm_compute|]. split; [by vm_compute|].
  eexists. split; [vm_compute; reflexivity|]. by vm_compute.
Qed.

End Transport.
