(* ===== verification/TransportRefine.v ===== *)
(** * The transport layer implements the ring protocol

    [Transport.adf_send_message] and [Transport.adf_handle_response], run on a
    device whose rings, counter and buffers are those of a state of [RingSys],
    take the steps the protocol allows, and leave a device that shows the state
    reached: the theorems of [RingSys] are theorems about the driver's
    functions. *)

From S2P Require Import Prelude Ring RingSys Transport.
Import Ring RingSys Transport.

#[local] Open Scope Z_scope.
#[local] Open Scope qat_scope.

Module TransportRefine.

(** Device [d] shows [s]: the request ring is ring [i] of bank [b], the response
    ring, with callback [cb], ring [j]. *)
Record view (b i j cb : Z) (d : device) (s : sys) : Prop := View {
  v_tx : ring_at d b i = Some (tx s);
  v_rx : ring_at d b j = Some (rx s);
  v_ne : i ≠ j;
  v_bank : is_Some (bank_at d b);
  v_txbank : bank (tx s) = Some b;
  v_rxbank : bank (rx s) = Some b;
  v_shared : inflights (rx s) = inflights (tx s);
  v_ctr : atomics d !! inflights (tx s) = Some (ctr s);
  v_txbuf : dma d !! base_addr (tx s) = Some (txbuf s);
  v_rxbuf : dma d !! base_addr (rx s) = Some (rxbuf s);
  v_bufs : base_addr (tx s) ≠ base_addr (rx s);
  v_cb : callback (rx s) = Some cb
}.

Section refine.
Context (resp : list Z → list Z) (rw nthreads : nat).
Context (resp_length : ∀ m, length (resp m) = rw)
  (resp_sig : ∀ m, list.head (resp m) ≠ Some ADF_RING_EMPTY_SIG)
  (threads_ok : Z.of_nat nthreads <= 2 ^ 30).
Context (b i j cb : Z).

Abbreviation Inv := (Inv resp rw nthreads).

Lemma ctr_range s : Inv s → 0 <= ctr s <= 2 ^ 30 + 2 ^ 17.
Proof.
  intros (HS & _ & HC & _). pose proof (slots_bound _ (i_tx _ _ HS)).
  rewrite (i_ctr _ _ HC). pose proof (i_limit _ _ HC). pose proof (i_threads _ _ HC). lia.
Qed.

Lemma put_ring_run b' i' r r0 d :
  ring_at d b' i' = Some r0 →
  ∃ d' t, put_ring b' i' r d = Some ((), d') ∧ d' = set_transport t d ∧
    ring_at d' b' i' = Some r ∧
    (∀ b1 i1, (b1, i1) ≠ (b', i') → ring_at d' b1 i1 = ring_at d b1 i1) ∧
    (is_Some (bank_at d b') → is_Some (bank_at d' b')).
Proof.
  intros H. destruct (put_ring_at_spec d b' i' r0 r H) as (d' & t & Hp & Hd & Hr & Hr' & Hb).
  exists d', t. split_and!; try done.
  - unfold put_ring, upd. by rewrite Hp.
  - intros [bk Hbk]. destruct (Hb _ _ Hbk) as [v ->]. done.
Qed.

(** Running the primitive calls. *)
Lemma atomic_add_run n p v d :
  atomics d !! p = Some v → - 2 ^ 31 <= v + n < 2 ^ 31 →
  atomic_add n p d = Some (v + n, set_atomics (<[p := v + n]> (atomics d)) d).
Proof.
  intros Hp Hr. unfold atomic_add, gets, bind, lift, modify, ret. simpl. rewrite Hp.
  by rewrite s32_small.
Qed.

Lemma get_ring_run b' i' r d : ring_at d b' i' = Some r → get_ring b' i' d = Some (r, d).
Proof. intros H. unfold get_ring, gets, bind, lift. by rewrite H. Qed.

Lemma get_dma_run p buf d : dma d !! p = Some buf → get_dma p d = Some (buf, d).
Proof. intros H. unfold get_dma, gets, bind, lift. by rewrite H. Qed.

Lemma ring_bank_run r b' d :
  bank r = Some b' → is_Some (bank_at d b') → ∃ bk, ring_bank r d = Some (bk, d).
Proof.
  intros Hr [bk Hb]. exists bk. unfold ring_bank, get_bank, gets, bind, lift.
  rewrite Hr. simpl. by rewrite Hb.
Qed.

(** A successful claim and the copy that follows, as the protocol takes them. *)
Lemma claim_commit s m :
  Inv s → length m = msg_words (tx s) → (length (claimed s) + failed s < nthreads)%nat →
  ctr s < max_inflights (tx s) →
  over_limit (tx s) (ctr s + 1) = false ∧
  ∃ r' buf' s', send_copy (tx s) (txbuf s) m = Some (r', buf') ∧
    run_labels resp nthreads [Claim m; Commit (length (claimed s))] s = Some s' ∧
    tx s' = r' ∧ txbuf s' = buf' ∧ rx s' = rx s ∧ rxbuf s' = rxbuf s ∧ ctr s' = ctr s + 1.
Proof.
  intros HI Hm Hth Hlt. pose proof (ctr_range s HI) as Hc.
  assert (over_limit (tx s) (ctr s + 1) = false) as Hover.
  { unfold over_limit. rewrite wrap_small by lia. apply Z.ltb_ge. lia. }
  split; [done|].
  assert (∃ s1, exec resp nthreads (Claim m) s = Some s1) as [s1 Hs1].
  { destruct s. simpl in *. rewrite (proj2 (Nat.ltb_lt _ _)), Hm, Nat.eqb_refl, Hover by done.
    by eexists. }
  pose proof (exec_Inv _ _ _ resp_length resp_sig threads_ok _ _ _ HI Hs1) as HI1.
  destruct s as [c tx rx tbf rbf cl fa cg hh ht bu tk co re de]. simpl in *.
  rewrite (proj2 (Nat.ltb_lt _ _)), Hm, Nat.eqb_refl, Hover in Hs1 |- * by done.
  simpl in *. injection Hs1 as <-.
  destruct (Commit_ok _ _ _ (length cl) _ HI1) as [s2 Hs2];
    [simpl; rewrite length_app; simpl; lia|].
  simpl in *. rewrite lookup_app_r, Nat.sub_diag in Hs2 |- * by done. simpl in *.
  destruct (send_copy tx tbf m) as [[r' buf']|]; [|done]. simpl in *.
  eexists r', buf', _. split; [done|]. split; [reflexivity|]. done.
Qed.

(** C7 [adf_send_message] refines the sender's steps: it returns 0 exactly
    when the in-flight counter is below [max_inflights], and then it has
    claimed a slot and copied the message there; otherwise it returns
    [-EAGAIN], and the device shows the state it was called in. *)
Theorem adf_send_message_refines s d m :
  Inv s → view b i j cb d s → length m = msg_words (tx s) →
  (length (claimed s) + failed s < nthreads)%nat →
  ∃ d' s',
    view b i j cb d' s' ∧
    (if ctr s <? max_inflights (tx s) then
       adf_send_message b i m d = Some (0, d') ∧
       run_labels resp nthreads [Claim m; Commit (length (claimed s))] s = Some s'
     else
       adf_send_message b i m d = Some (- EAGAIN, d') ∧
       run_labels resp nthreads [Claim m; Unclaim] s = Some s' ∧ s' = s).
Proof.
  intros HI HV Hm Hth. pose proof (ctr_range s HI) as Hc.
  destruct HV as [Htx Hrx Hij Hbk Htb Hrb Hsh Hctr Htxb Hrxb Hbufs Hcb].
  unfold adf_send_message.
  rewrite (bind_Some _ _ _ _ _ (get_ring_run _ _ _ _ Htx)).
  rewrite (bind_Some _ _ _ _ _ (atomic_add_run 1 _ _ d Hctr ltac:(lia))).
  destruct (Z.ltb_spec (ctr s) (max_inflights (tx s))) as [Hlt|Hge].
  - destruct (claim_commit s m HI Hm Hth Hlt)
      as (-> & r' & buf' & s' & Hcopy & Hrun & Htx' & Hbuf' & Hrx' & Hrb' & Hctr').
    cbv beta iota. erewrite bind_Some by by apply get_dma_run. rewrite Hcopy.
    rewrite bind_lift. unfold put_dma. rewrite bind_modify.
    set (d2 := set_dma _ _).
    destruct (put_ring_run b i r' (tx s) d2) as (d3 & t & Hput & Hd3 & Hr & Hne & Hbk3); [done|].
    rewrite (bind_Some _ _ _ _ _ Hput).
    assert (bank r' = Some b ∧ inflights r' = inflights (tx s) ∧ base_addr r' = base_addr (tx s))
      as (Hb' & Hi' & Ha').
    { unfold send_copy in Hcopy. destruct (memcpy_words _ _ _ _); [|done].
      simpl in Hcopy. by injection Hcopy as <- <-. }
    destruct (ring_bank_run r' b d3 Hb' (Hbk3 Hbk)) as [bk Hrbk].
    rewrite (bind_Some _ _ _ _ _ Hrbk).
    unfold WRITE_CSR_RING_TAIL, csr_wr. rewrite bind_modify.
    eexists _, s'. split; [|by split].
    split; rewrite ?Htx', ?Hbuf', ?Hrx', ?Hrb', ?Hctr', ?Hi', ?Ha'; try done.

    + change (ring_at d3 b j = Some (rx s)). rewrite Hne by congruence. done.
    + by apply Hbk3.
    + subst d3. simpl. by rewrite lookup_insert_eq.
    + subst d3. simpl. by rewrite lookup_insert_eq.
    + subst d3. simpl. by rewrite lookup_insert_ne.
  - assert (over_limit (tx s) (ctr s + 1) = true) as Hover.
    { unfold over_limit. rewrite wrap_small by lia. apply Z.ltb_lt. lia. }
    rewrite Hover. cbv beta iota.
    exists (set_atomics (<[inflights (tx s) := ctr s]> (atomics d)) d), s. split_and!.
    + split; try done. simpl. by rewrite lookup_insert_eq.
    + erewrite bind_Some; [|apply (atomic_add_run _ _ (ctr s + 1)); simpl;
        [by rewrite lookup_insert_eq|lia]].
      unfold ret. simpl. rewrite insert_insert_eq. by replace (ctr s + 1 + -1) with (ctr s) by lia.
    + destruct s. simpl in *. rewrite (proj2 (Nat.ltb_lt _ _)) by done.
      rewrite Hm, Nat.eqb_refl, Hover. simpl. by rewrite Z.add_simpl_r.
    + done.
Qed.

(** One iteration of the poller, as the protocol takes it. *)
Lemma poll_clear s w :
  Inv s → clearing s = false → load_word (rxbuf s) (head (rx s)) = Some w →
  w ≠ ADF_RING_EMPTY_SIG →
  ∃ r' buf' s', recv_clear (rx s) (rxbuf s) = Some (r', buf') ∧
    run_labels resp nthreads [Poll; Clear] s = Some s' ∧ Inv s' ∧ clearing s' = false ∧
    rx s' = r' ∧ rxbuf s' = buf' ∧ tx s' = tx s ∧ txbuf s' = txbuf s ∧ ctr s' = ctr s - 1 ∧
    responded s' = responded s ∧
    delivered s' = delivered s ++ [load_msg (rxbuf s) (head (rx s)) (msg_bytes (rx s))].
Proof.
  intros HI Hcg Hw Hne.
  assert (∃ s1, exec resp nthreads Poll s = Some s1) as [s1 Hs1].
  { destruct s. simpl in *. subst. rewrite Hw. simpl. rewrite (proj2 (Z.eqb_neq _ _)) by done.
    by eexists. }
  pose proof (exec_Inv _ _ _ resp_length resp_sig threads_ok _ _ _ HI Hs1) as HI1.
  destruct s as [c tx rx tbf rbf cl fa cg hh ht bu tk co re de]. simpl in *. subst cg.
  rewrite Hw in Hs1 |- *. simpl in *. rewrite (proj2 (Z.eqb_neq _ _)) in Hs1 |- * by done.
  injection Hs1 as <-. destruct (Clear_ok _ _ _ _ HI1 eq_refl) as [s2 Hs2].
  pose proof (exec_Inv _ _ _ resp_length resp_sig threads_ok _ _ _ HI1 Hs2) as HI2.
  simpl in *. destruct (recv_clear rx rbf) as [[r' buf']|]; [|done]. simpl in *.
  injection Hs2 as <-. by eexists r', buf', _.
Qed.

Definition poll_labels (k : nat) : list label := concat (replicate k [Poll; Clear]).

Lemma run_labels_app l1 l2 s s1 :
  run_labels resp nthreads l1 s = Some s1 →
  run_labels resp nthreads (l1 ++ l2) s = run_labels resp nthreads l2 s1.
Proof.
  revert s. induction l1 as [|l l1 IH]; simpl; intros s H; [congruence|].
  destruct (exec resp nthreads l s); [|done]. simpl in *. auto.
Qed.

Lemma response_loop_refines fuel n q s d :
  Inv s → view b i j cb d s → clearing s = false → 0 <= n →
  (length (responded s) - length (delivered s) < fuel)%nat →
  ∃ new d' s', let k := length new in
    response_loop fuel b j q n d = Some (n + Z.of_nat k, d') ∧
    run_labels resp nthreads (poll_labels k) s = Some s' ∧
    view b i j cb d' s' ∧
    delivered s' = delivered s ++ new ∧ calls d' = calls d ++ (pair cb <$> new) ∧
    (n + Z.of_nat k < q → delivered s' = responded s') ∧
    (n <= q → n + Z.of_nat k <= q) ∧ (k < fuel)%nat.
Proof.
  revert n s d. induction fuel as [|fuel IH]; intros n s d HI HV Hcg Hn Hf; [lia|].
  destruct (poll_word _ _ _ resp_sig s HI Hcg) as (w & Hw & Hcase).
  pose proof (ctr_range s HI) as Hc.
  pose proof HV as [Htx Hrx Hij Hbk Htb Hrb Hsh Hctr Htxb Hrxb Hbufs Hcb].
  simpl. rewrite (bind_Some _ _ _ _ _ (get_ring_run _ _ _ _ Hrx)).
  rewrite (bind_Some _ _ _ _ _ (get_dma_run _ _ _ Hrxb)), Hw, bind_lift.
  destruct (decide (w = ADF_RING_EMPTY_SIG ∨ q <= n)) as [Hstop|Hgo].
  { exists [], d, s. cbv zeta. simpl. rewrite !app_nil_r, Z.add_0_r. split_and!; try done.
    - destruct (Z.eqb_spec w ADF_RING_EMPTY_SIG), (Z.ltb_spec n q); simpl; try done; lia.
    - destruct Hcase as [[_ ->]|[? _]]; [done|]. lia.
    - lia. }
  assert (w ≠ ADF_RING_EMPTY_SIG ∧ n < q) as [Hne Hq] by (split; [naive_solver|lia]).
  rewrite (proj2 (Z.eqb_neq _ _)), (proj2 (Z.ltb_lt _ _)) by done. cbv beta iota delta [negb andb].
  destruct Hcase as [[]|[_ Hre]]; [done|]. pose proof (lookup_lt_Some _ _ _ Hre) as Hlt.
  destruct (poll_clear s w HI Hcg Hw Hne) as (r' & buf' & s1 & Hcl & Hrun & HI1 & Hcg1 & Hr1 &
    Hb1 & Htx1 & Htb1 & Hc1 & Hre1 & Hde1).
  unfold call_back. rewrite Hcb, bind_assoc, bind_lift, bind_modify.
  set (d1 := set_calls _ d).
  assert (0 < ctr s) as Hpos.
  { destruct HI as (_ & _ & HC & _). rewrite (i_ctr _ _ HC). unfold outstanding. lia. }
  rewrite (bind_Some _ _ _ _ _
    (atomic_add_run (-1) (inflights (rx s)) (ctr s) d1 ltac:(by rewrite Hsh) ltac:(lia))).
  rewrite Hcl, bind_lift. unfold put_dma. rewrite bind_modify. set (d2 := set_dma _ _).
  destruct (put_ring_run b j r' (rx s) d2) as (d3 & t & Hput & Hd3 & Hr & Hne3 & Hbk3); [done|].
  rewrite (bind_Some _ _ _ _ _ Hput).
  assert (bank r' = Some b ∧ inflights r' = inflights (rx s) ∧
    base_addr r' = base_addr (rx s) ∧ callback r' = Some cb) as (Hb' & Hi' & Ha' & Hcb').
  { unfold recv_clear in Hcl. destruct (store_word _ _ _); [|done].
    simpl in Hcl. by injection Hcl as <- <-. }
  assert (view b i j cb d3 s1) as HV1.
  { split; rewrite ?Htx1, ?Hb1, ?Hr1, ?Htb1, ?Hc1, ?Hi', ?Ha'; try done.
    - rewrite Hne3 by congruence. done.
    - by apply Hbk3.
    - subst d3. simpl. by rewrite Hsh, lookup_insert_eq.
    - subst d3. simpl. by rewrite lookup_insert_ne.
    - subst d3. simpl. by rewrite lookup_insert_eq. }
  destruct (IH (n + 1) s1 d3 HI1 HV1 Hcg1) as (new & d' & s' & Hloop & Hrun' & HV' & Hnew & Hcalls & Hd & Hle & Hk);
    [lia|rewrite Hre1, Hde1, length_app; simpl; lia|].
  eexists (_ :: new), d', s'. simpl length. cbv zeta. split_and!.
  - rewrite Hloop. by replace (n + 1 + _) with (n + Z.of_nat (S (length new))) by lia.
  - change (poll_labels (S (length new))) with ([Poll; Clear] ++ poll_labels (length new)).
    by rewrite (run_labels_app _ _ _ _ Hrun).
  - done.
  - by rewrite Hnew, Hde1, <- app_assoc.
  - rewrite Hcalls. subst d3. simpl. by rewrite <- app_assoc.
  - intros. apply Hd. lia.
  - lia.
  - lia.
Qed.

(** C8 [adf_handle_response] refines the poller's steps and always returns: its
    result is the number of responses it took, each of them given to the
    callback, in the order of the ring, and cleared, with the in-flight counter
    decremented; it takes every response the ring holds, or as many as the
    quota allows (0 stands for 2^32 - 1). *)
Theorem adf_handle_response_refines s d quota :
  Inv s → view b i j cb d s → clearing s = false → 0 <= quota < 2 ^ 32 →
  ∃ new d' s',
    adf_handle_response b j quota d = Some (Z.of_nat (length new), d') ∧
    run_labels resp nthreads (poll_labels (length new)) s = Some s' ∧
    view b i j cb d' s' ∧
    delivered s' = delivered s ++ new ∧ calls d' = calls d ++ (pair cb <$> new) ∧
    (quota = 0 ∨ Z.of_nat (length new) < quota → delivered s' = responded s') ∧
    (quota ≠ 0 → Z.of_nat (length new) <= quota).
Proof.
  intros HI HV Hcg Hq. pose proof HI as (HS & _ & HC & _).
  pose proof (slots_bound _ (i_tx _ _ HS)) as Hb. pose proof (i_limit _ _ HC) as Hl.
  unfold outstanding in Hl.
  set (q := if quota =? 0 then ADF_NO_RESPONSE_QUOTA else quota).
  assert (length (responded s) - length (delivered s) < response_fuel)%nat as Hf
    by (unfold response_fuel; lia).
  destruct (response_loop_refines response_fuel 0 q s d HI HV Hcg ltac:(lia) Hf)
    as (new & d' & s' & Hloop & Hrun & HV' & Hnew & Hcalls & Hd & Hle & Hk).
  rewrite Z.add_0_l in *.
  assert (Z.of_nat (length new) < ADF_NO_RESPONSE_QUOTA) as Hsmall.
  { unfold response_fuel, ADF_NO_RESPONSE_QUOTA in *. lia. }
  unfold adf_handle_response. fold q. rewrite (bind_Some _ _ _ _ _ Hloop).
  assert (∀ v, view b i j cb (set_csr v d') s') as HVc
    by (intros v; destruct HV'; split; done).
  assert (quota = 0 ∨ Z.of_nat (length new) < quota → delivered s' = responded s') as Hall.
  { unfold q in Hd. destruct (Z.eqb_spec quota 0); [auto|]. intros [|]; [done|auto]. }
  assert (quota ≠ 0 → Z.of_nat (length new) <= quota) as Hbound.
  { unfold q in Hle. destruct (Z.eqb_spec quota 0); [done|]. intros _. apply Hle. lia. }
  destruct (Z.ltb_spec 0 (Z.of_nat (length new))); simpl when.
  - destruct HV' as [? Hrx ? Hbk ? Hrb ? ? ? ? ? ?].
    destruct (ring_bank_run _ b d' Hrb Hbk) as [bk Hrbk].
    rewrite bind_assoc, (bind_Some _ _ _ _ _ (get_ring_run _ _ _ _ Hrx)).
    rewrite bind_assoc, (bind_Some _ _ _ _ _ Hrbk).
    unfold WRITE_CSR_RING_HEAD, csr_wr. rewrite bind_modify.
    eexists new, _, s'. by split_and!.
  - rewrite bind_ret. exists new, d', s'. by split_and!.
Qed.

End refine.

(** ** Witnesses *)

(** What [ex_device2] shows. *)
Definition ex_sys : sys :=
  Sys 0 (default zero_ring (ring_at ex_device2 0 0)) (default zero_ring (ring_at ex_device2 0 8))
    (replicate 1024 ADF_RING_EMPTY_SIG) (replicate 1024 ADF_RING_EMPTY_SIG)
    [] 0 false 0 0 [] 0 [] [] [].

Lemma ex_view : view 0 0 8 1 ex_device2 ex_sys.
Proof. split; first [by vm_compute | vm_compute; by eexists]. Qed.

Lemma ex_sys_Inv : Inv ex_resp 8 4 ex_sys.
Proof.
  apply initial_Inv. unfold initial.
  assert (ring_ok (tx ex_sys)) by (split; [split; by vm_compute|right; left; by vm_compute]).
  assert (ring_ok (rx ex_sys)) by (split; [split; by vm_compute|left; by vm_compute]).
  split_and!; try done; try (by vm_compute); try (vm_compute; lia).
  by apply (Forall_replicate (λ w, w = ADF_RING_EMPTY_SIG) 1024).
Qed.

Lemma adf_send_message_refines_witness :
  ∃ d' s', view 0 0 8 1 d' s' ∧ adf_send_message 0 0 (ex_msg 5) ex_device2 = Some (0, d').
Proof.
  destruct (adf_send_message_refines ex_resp 8 4 ex_resp_length ex_resp_sig ltac:(lia) 0 0 8 1
    ex_sys ex_device2 (ex_msg 5)) as (d' & s' & Hv & H);
    [apply ex_sys_Inv|apply ex_view|by vm_compute|vm_compute; lia|].
  assert (ctr ex_sys <? max_inflights (tx ex_sys) = true) as E by by vm_compute.
  rewrite E in H. exists d', s'. split; [exact Hv|apply H].
Defined.

(** [ex_device2] after a message was sent and the device answered it. *)
Definition ex_answered_labels : list label := [Claim (ex_msg 5); Commit 0; HwTake; HwRespond 0].
Definition ex_answered : sys := default ex_sys (run_labels ex_resp 4 ex_answered_labels ex_sys).
Definition ex_device3 : device :=
  default blank_device
    ((λ r, set_dma (<[base_addr (rx ex_answered) := rxbuf ex_answered]> (dma r.2)) r.2) <$>
     adf_send_message 0 0 (ex_msg 5) ex_device2).

Lemma ex_view3 : view 0 0 8 1 ex_device3 ex_answered.
Proof. split; first [by vm_compute | vm_compute; by eexists]. Qed.

Lemma run_labels_Inv ls s s' :
  Inv ex_resp 8 4 s → run_labels ex_resp 4 ls s = Some s' → Inv ex_resp 8 4 s'.
Proof.
  revert s. induction ls as [|l ls IH]; simpl; intros s HI H; [congruence|].
  destruct (exec ex_resp 4 l s) as [s1|] eqn:E; [|done]. simpl in H.
  eapply IH, H. eapply (exec_Inv ex_resp 8 4 ex_resp_length ex_resp_sig ltac:(lia)); eauto.
Qed.

Lemma ex_answered_Inv : Inv ex_resp 8 4 ex_answered.
Proof. apply (run_labels_Inv ex_answered_labels ex_sys); [apply ex_sys_Inv|by vm_compute]. Qed.

Lemma adf_handle_response_refines_witness :
  length (responded ex_answered) = 1%nat ∧
  ∃ new d', adf_handle_response 0 8 0 ex_device3 = Some (Z.of_nat (length new), d') ∧
    calls d' = pair 1 <$> new.
Proof.
  split; [by vm_compute|].
  destruct (adf_handle_response_refines ex_resp 8 4 ex_resp_length ex_resp_sig ltac:(lia) 0 0 8 1
    ex_answered ex_device3 0) as (new & d' & s' & H & _ & _ & _ & Hc & _);
    [apply ex_answered_Inv|apply ex_view3|by vm_compute|lia|].
  exists new, d'. split; [exact H|]. rewrite Hc. by vm_compute.
Defined.

End TransportRefine.
