(* ===== verification/TransportCreate.v ===== *)
(** * Creating and removing rings

    [adf_create_ring] and [adf_remove_ring] on every branch: what a success
    sets up, that a failure gives everything back, and that the pair of rings a
    client creates is a ring pair the protocol of [RingSys] starts from. *)

From S2P Require Import Prelude Ring RingSys Transport TransportRefine.
Import Ring RingSys Transport TransportRefine.

#[local] Open Scope Z_scope.
#[local] Open Scope qat_scope.

Module TransportCreate.

(** Ring [i] of bank [b] is [r], and the bank's ring mask is [m]. *)
Definition at_ring (b i : Z) (d : device) (r : adf_etr_ring_data) (m : Z) : Prop :=
  ring_at d b i = Some r ∧ ∃ bk, bank_at d b = Some bk ∧ ring_mask bk = m.

(** From [d] to [d'] no other ring, no other bank and no other memory changed. *)
Record frame (b i : Z) (d d' : device) : Prop := Frame {
  f_rings b' i' : (b', i') ≠ (b, i) → ring_at d' b' i' = ring_at d b' i';
  f_banks b' : b' ≠ b → bank_at d' b' = bank_at d b';
  f_live : live d' = live d;
  f_atomics : atomics d' = atomics d;
  f_calls : calls d' = calls d
}.

#[export] Instance frame_preorder b i : PreOrder (frame b i).
Proof.
  split; [by split|]. intros d1 d2 d3 [] []. split; [..|congruence|congruence|congruence].
  - intros. rewrite f_rings1, f_rings0 by done. done.
  - intros. rewrite f_banks1, f_banks0 by done. done.
Qed.

Section calls.
Context (b i : Z).

Lemma put_ring_at_ring r0 r m d :
  at_ring b i d r0 m →
  ∃ d', put_ring b i r d = Some ((), d') ∧ at_ring b i d' r m ∧ frame b i d d' ∧
    dma d' = dma d ∧ next_ptr d' = next_ptr d ∧ nalloc d' = nalloc d.
Proof.
  intros [Hr (bk & Hbk & Hm)].
  destruct (put_ring_at_spec d b i r0 r Hr) as (d' & t & Hput & Hd & Hr' & Hne & Hb).
  exists d'. unfold put_ring, upd. rewrite Hput. simpl. subst d'. split_and!; try done.
  - split; [done|]. destruct (Hb _ _ Hbk) as [v Hv]. eexists. split; [done|done].
  - split; try done.
    intros b' Hb'. unfold put_ring_at in Hput. rewrite Hbk in Hput. simpl in Hput.
    destruct (rings bk) as [[p l]|]; [simpl in Hput|done]. case_decide; [|done].
    destruct (aset l i r) as [l'|]; [simpl in Hput|done].
    destruct (put_bank_at_spec d b bk (set_rings (Some (p, l')) bk) Hbk)
      as (d1 & t1 & H1 & _ & _ & H2). rewrite H1 in Hput. injection Hput as <-. by apply H2.
Qed.

Lemma put_bank_at_ring r bk bk' d :
  ring_at d b i = Some r → bank_at d b = Some bk → rings bk' = rings bk →
  ∃ d', put_bank b bk' d = Some ((), d') ∧ at_ring b i d' r (ring_mask bk') ∧
    frame b i d d' ∧ dma d' = dma d ∧ next_ptr d' = next_ptr d ∧ nalloc d' = nalloc d.
Proof.
  intros Hr Hbk Hm.
  destruct (put_bank_at_spec d b bk bk' Hbk) as (d' & t & Hput & Hd & Hb & Hb').
  exists d'. unfold put_bank, upd. rewrite Hput. simpl.
  assert (∀ i', ring_at d' b i' = ring_at d b i') as Hri
    by (intros i'; unfold ring_at; rewrite Hb, Hbk; simpl; rewrite Hm; by subst d').
  split_and!; try (by subst d'); [|split; try (by subst d')].
  - split; [by rewrite Hri|]. by eexists.
  - intros b1 i1 _. destruct (decide (b1 = b)) as [->|]; [done|].
    unfold ring_at. rewrite Hb' by done. by subst d'.
Qed.

Lemma get_bank_run r m d :
  at_ring b i d r m → ∃ bk, get_bank b d = Some (bk, d) ∧ bank_at d b = Some bk ∧ ring_mask bk = m.
Proof.
  intros [_ (bk & Hbk & Hm)]. exists bk. split; [|done].
  unfold get_bank, gets, bind, lift. by rewrite Hbk.
Qed.

Lemma csr_wr_frame off v d :
  ∃ d', csr_wr off v d = Some ((), d') ∧ frame b i d d' ∧
    (∀ r m, at_ring b i d r m → at_ring b i d' r m) ∧
    dma d' = dma d ∧ next_ptr d' = next_ptr d ∧ nalloc d' = nalloc d.
Proof. eexists. split; [done|]. split; [by split|]. done. Qed.

(** [adf_reserve_ring] sets the ring's bit if it is clear, and fails, changing
    nothing, if it is set; [adf_unreserve_ring] clears it. *)
Lemma adf_reserve_ring_spec r m d :
  at_ring b i d r m → 0 <= i < 16 → 0 <= m < 2 ^ 16 →
  if Z.testbit m i then adf_reserve_ring b i d = Some (- EFAULT, d)
  else ∃ d', adf_reserve_ring b i d = Some (0, d') ∧ at_ring b i d' r (m .| BIT i) ∧
    frame b i d d' ∧ dma d' = dma d ∧ next_ptr d' = next_ptr d ∧ nalloc d' = nalloc d.
Proof.
  intros Hat Hi Hm. pose proof Hat as [Hr _].
  destruct (get_bank_run _ _ _ Hat) as (bk & Hrun & Hbk & Hmask).
  unfold adf_reserve_ring. rewrite (bind_Some _ _ _ _ _ Hrun), Hmask, land_BIT_nonzero by lia.
  destruct (Z.testbit m i) eqn:E; [done|]. simpl.
  assert (u16 (m .| BIT i) = m .| BIT i) as ->.
  { apply wrap_small, lor_range; [lia|done|]. rewrite BIT_pow2 by lia.
    split; [apply Z.pow_nonneg; lia|]. apply Z.pow_lt_mono_r; lia. }
  destruct (put_bank_at_ring r bk (set_ring_mask (m .| BIT i) bk) d Hr Hbk eq_refl) as (d' & Hput & H).
  exists d'. rewrite (bind_Some _ _ _ _ _ Hput). done.
Qed.

Lemma adf_unreserve_ring_spec r m d :
  at_ring b i d r m →
  ∃ d', adf_unreserve_ring b i d = Some ((), d') ∧ at_ring b i d' r (clear m (BIT i)) ∧
    frame b i d d' ∧ dma d' = dma d ∧ next_ptr d' = next_ptr d ∧ nalloc d' = nalloc d.
Proof.
  intros Hat. pose proof Hat as [Hr _].
  destruct (get_bank_run _ _ _ Hat) as (bk & Hrun & Hbk & Hmask).
  unfold adf_unreserve_ring. rewrite (bind_Some _ _ _ _ _ Hrun), Hmask.
  by apply (put_bank_at_ring r bk (set_ring_mask _ bk)).
Qed.

Lemma ring_bank_at r m d :
  at_ring b i d r m → bank r = Some b →
  ∃ bk, ring_bank r d = Some (bk, d) ∧ ring_mask bk = m.
Proof.
  intros Hat Hb. destruct (get_bank_run _ _ _ Hat) as (bk & Hrun & _ & Hm).
  exists bk. split; [|done]. unfold ring_bank. by rewrite Hb, bind_lift.
Qed.

Lemma adf_update_ring_arb_spec r m d :
  at_ring b i d r m → bank r = Some b →
  ∃ d', adf_update_ring_arb b i d = Some ((), d') ∧ at_ring b i d' r m ∧
    frame b i d d' ∧ dma d' = dma d ∧ next_ptr d' = next_ptr d ∧ nalloc d' = nalloc d.
Proof.
  intros Hat Hb. pose proof Hat as [Hr _]. unfold adf_update_ring_arb.
  rewrite (bind_Some _ _ _ _ _ (get_ring_run _ _ _ _ Hr)).
  destruct (ring_bank_at _ _ _ Hat Hb) as (bk & Hrun & _). rewrite (bind_Some _ _ _ _ _ Hrun).
  destruct (csr_wr_frame (0x19C + 0x1000 * bank_number bk) (ring_mask bk .& 255) d)
    as (d' & H1 & H2 & H3 & H4). exists d'. split_and!; naive_solver.
Qed.

Lemma adf_enable_ring_irq_spec n r m d :
  at_ring b i d r m →
  ∃ d', adf_enable_ring_irq b n d = Some ((), d') ∧ at_ring b i d' r m ∧
    frame b i d d' ∧ dma d' = dma d ∧ next_ptr d' = next_ptr d ∧ nalloc d' = nalloc d.
Proof.
  intros Hat. pose proof Hat as [Hr _]. unfold adf_enable_ring_irq.
  destruct (get_bank_run _ _ _ Hat) as (bk & Hrun & Hbk & Hmask).
  rewrite (bind_Some _ _ _ _ _ Hrun).
  destruct (put_bank_at_ring r bk (set_irq_mask (u16 (irq_mask bk .| BIT n)) bk) d Hr Hbk eq_refl)
    as (d1 & Hput & Hat1 & Hf1 & H1). rewrite (bind_Some _ _ _ _ _ Hput).
  simpl in Hat1. rewrite Hmask in Hat1.
  destruct (get_bank_run _ _ _ Hat1) as (bk1 & Hrun1 & _). rewrite (bind_Some _ _ _ _ _ Hrun1).
  unfold WRITE_CSR_INT_COL_EN, WRITE_CSR_INT_COL_CTL, csr_wr. autorewrite with monad.
  eexists. split; [done|]. split; [done|]. split; [|done]. trans d1; [done|by split].
Qed.

(** [adf_cleanup_ring] frees the ring's buffer. *)
Lemma adf_cleanup_ring_spec r m d :
  at_ring b i d r m →
  if base_addr r =? 0 then adf_cleanup_ring b i d = Some ((), d)
  else match dma d !! base_addr r with
       | Some _ => adf_cleanup_ring b i d = Some ((), set_dma (delete (base_addr r) (dma d)) d)
       | None => adf_cleanup_ring b i d = None
       end.
Proof.
  intros [Hr _]. unfold adf_cleanup_ring.
  rewrite (bind_Some _ _ _ _ _ (get_ring_run _ _ _ _ Hr)).
  destruct (base_addr r =? 0); [done|].
  destruct (dma d !! base_addr r) as [buf|] eqn:E.
  - rewrite (bind_Some _ _ _ _ _ (get_dma_run _ _ _ E)). unfold put_dma. rewrite bind_modify.
    unfold dma_free_coherent, upd. simpl. rewrite lookup_insert_eq. simpl.
    rewrite delete_insert_eq. done.
  - apply bind_None. unfold get_dma. rewrite bind_gets, E. done.
Qed.

End calls.

Section create.
Context (hw : hw_device_data) (ext_ok : nat → bool) (dma_addr_of : nat → option Z)
  (cfg_get : string → string → option string) (kstrtouint : string → option Z).

(** Bytes allocated for a ring. *)
Definition ring_alloc (rs : Z) : Z :=
  ADF_RING_SIZE_BYTES_MIN (ADF_SIZE_TO_RING_SIZE_IN_BYTES rs).

Lemma configure_ring_spec b i r m d :
  at_ring b i d r m → bank r = Some b →
  ∃ d', (if negb (tx_rings_mask hw .& BIT (ring_number r) =? 0)
         then adf_configure_tx_ring b i else adf_configure_rx_ring b i) d = Some ((), d') ∧
    at_ring b i d' r m ∧ frame b i d d' ∧
    dma d' = dma d ∧ next_ptr d' = next_ptr d ∧ nalloc d' = nalloc d.
Proof.
  intros Hat Hb. pose proof Hat as [Hr _].
  destruct (ring_bank_at _ _ _ _ _ Hat Hb) as (bk & Hrun & _).
  set (cfg := if negb (tx_rings_mask hw .& BIT (ring_number r) =? 0)
              then BUILD_RING_CONFIG (ring_size r)
              else BUILD_RESP_RING_CONFIG (ring_size r) ADF_RING_NEAR_WATERMARK_512
                     ADF_RING_NEAR_WATERMARK_0).
  destruct (csr_wr_frame b i (ADF_RING_BUNDLE_SIZE * bank_number bk + 0x000 +
    Z.shiftl (ring_number r) 2) cfg d) as (d' & H1 & H2 & H3 & H4).
  exists d'. unfold adf_configure_tx_ring, adf_configure_rx_ring.
  split; [|split; [by apply H3|done]].
  unfold cfg in H1. destruct (negb _);
    by rewrite (bind_Some _ _ _ _ _ (get_ring_run _ _ _ _ Hr)), (bind_Some _ _ _ _ _ Hrun).
Qed.

(** [adf_init_ring]: no buffer, a misaligned one (freed, but [base_addr]
    keeps its address), or a buffer marked empty throughout. *)
Lemma adf_init_ring_spec b i r m d :
  at_ring b i d r m → bank r = Some b → dma d !! next_ptr d = None →
  match dma_addr_of (nalloc d) with
  | None => ∃ d', adf_init_ring hw dma_addr_of b i d = Some (- ENOMEM, d') ∧
      at_ring b i d' (set_buffer 0 (dma_addr r) r) m ∧ frame b i d d' ∧ dma d' = dma d ∧
      next_ptr d' = next_ptr d ∧ nalloc d' = S (nalloc d)
  | Some addr =>
      if adf_check_ring_alignment addr (ring_alloc (ring_size r)) =? 0 then
        ∃ d', adf_init_ring hw dma_addr_of b i d = Some (0, d') ∧
          at_ring b i d' (set_buffer (next_ptr d) addr r) m ∧ frame b i d d' ∧
          dma d' = <[next_ptr d := ring_buffer (ring_alloc (ring_size r))]> (dma d) ∧
          next_ptr d' = next_ptr d + 1 ∧ nalloc d' = S (nalloc d)
      else
        ∃ d', adf_init_ring hw dma_addr_of b i d = Some (- EFAULT, d') ∧
          at_ring b i d' (set_buffer (next_ptr d) addr r) m ∧ dma d' = dma d
  end.
Proof.
  intros Hat Hb Hfresh. pose proof Hat as [Hr _]. unfold adf_init_ring, ring_alloc.
  rewrite (bind_Some _ _ _ _ _ (get_ring_run _ _ _ _ Hr)). cbv zeta.
  unfold tick. autorewrite with monad.
  set (size := ADF_RING_SIZE_BYTES_MIN _). set (d1 := set_nalloc _ d).
  assert (at_ring b i d1 r m) as Hat1 by done.
  destruct (dma_addr_of (nalloc d)) as [addr|].
  2: { destruct (put_ring_at_ring b i r (set_buffer 0 (dma_addr r) r) m d1 Hat1)
         as (d2 & Hput & ? & [] & ? & ? & ?). rewrite (bind_Some _ _ _ _ _ Hput).
       exists d2. by split_and!. }
  unfold fresh, put_dma. autorewrite with monad. set (d2 := set_dma _ _).
  assert (at_ring b i d2 r m) as Hat2 by done.
  destruct (put_ring_at_ring b i r (set_buffer (next_ptr d1) addr r) m d2 Hat2)
    as (d3 & Hput & Hat3 & Hf3 & Hd3 & Hn3 & Ha3). rewrite (bind_Some _ _ _ _ _ Hput).
  destruct (adf_check_ring_alignment addr size =? 0); branch.
  - destruct (configure_ring_spec b i _ m d3 Hat3 Hb) as (d4 & Hc & Hat4 & Hf4 & Hd4 & Hn4 & Ha4).
    change (ring_number (set_buffer _ _ r)) with (ring_number r) in Hc.
    rewrite (bind_Some _ _ _ _ _ Hc).
    destruct (ring_bank_at _ _ _ _ _ Hat4 Hb) as (bk & Hrun & _).
    change (ring_bank r d4 = Some (bk, d4)) in Hrun.
    rewrite (bind_Some _ _ _ _ _ Hrun). unfold WRITE_CSR_RING_BASE, csr_wr.
    autorewrite with monad. eexists. split; [done|]. split; [done|]. simpl.
    split_and!; [|by rewrite Hd4, Hd3|by rewrite Hn4, Hn3|by rewrite Ha4, Ha3].
    trans d4; [|by split]. trans d3; [|done]. trans d2; [by split|done].
  - assert (dma_free_coherent (next_ptr d1) d3 = Some ((), set_dma (dma d) d3)) as Hfree.
    { unfold dma_free_coherent, upd. rewrite Hd3. simpl. rewrite lookup_insert_eq. simpl.
      by rewrite delete_insert_id. }
    rewrite (bind_Some _ _ _ _ _ Hfree). by eexists.
Qed.

(** ** [adf_create_ring] *)

Context (section : string) (b num_msgs msg_size : Z) (ring_name : string)
  (cb : option Z) (poll_mode : bool).

Abbreviation create :=
  (adf_create_ring hw ext_ok dma_addr_of cfg_get kstrtouint section b num_msgs msg_size
     ring_name cb poll_mode).
Abbreviation checks :=
  (create_ring_checks hw cfg_get kstrtouint section b num_msgs msg_size ring_name).

(** The device as [adf_create_ring] finds it: the ring exists, with its
    in-flight counter, and memory is available under a new address. *)
Record ready (d : device) (i : Z) (r : adf_etr_ring_data) (m : Z) : Prop := Ready {
  y_at : at_ring b i d r m;
  y_i : 0 <= i < 16;
  y_m : 0 <= m < 2 ^ 16;
  y_ctr : is_Some (atomics d !! inflights r);
  y_fresh : dma d !! next_ptr d = None;
  y_ptr : next_ptr d ≠ 0
}.

(** The ring's counter is zeroed. *)
Definition zero_ctr (r : adf_etr_ring_data) (d : device) : device :=
  set_atomics (<[inflights r := 0]> (atomics d)) d.

(** What has happened when [adf_init_ring] is called. *)
Lemma create_prefix d i r m :
  checks = Some i → ready d i r m → Z.testbit m i = false →
  ∃ d1, at_ring b i d1 (ring_setup b i num_msgs msg_size cb r) (m .| BIT i) ∧
    frame b i (zero_ctr r d) d1 ∧ dma d1 = dma d ∧ next_ptr d1 = next_ptr d ∧
    nalloc d1 = nalloc d ∧
    create d =
      (r <- adf_init_ring hw dma_addr_of b i ;;
       let err r :=
         adf_cleanup_ring b i ;; adf_unreserve_ring b i ;;
         adf_update_ring_arb b i ;; ret (inl r) in
       if negb (r =? 0) then err r else
       adf_update_ring_arb b i ;;
       ok <- ext_call ext_ok ;;
       if negb ok then err (- EFAULT) else
       ring <- get_ring b i ;;
       put_ring b i (set_debug true ring) ;;
       when (bool_decide (is_Some cb) && negb poll_mode)
         (adf_enable_ring_irq b (ring_number ring)) ;;
       ret (inr i)) d1.
Proof.
  intros Hck [Hat Hi Hm [v Hv] Hfr Hptr] Hbit. unfold adf_create_ring. rewrite Hck.
  pose proof (adf_reserve_ring_spec b i r m d Hat Hi Hm) as Hres. rewrite Hbit in Hres.
  destruct Hres as (d1 & Hres & Hat1 & Hf1 & Hd1 & Hn1 & Ha1).
  rewrite (bind_Some _ _ _ _ _ Hres). change (negb (0 =? 0)) with false. branch.
  pose proof Hat1 as [Hr1 _]. rewrite (bind_Some _ _ _ _ _ (get_ring_run _ _ _ _ Hr1)).
  destruct (put_ring_at_ring b i r (ring_setup b i num_msgs msg_size cb r) _ d1 Hat1)
    as (d2 & Hput & Hat2 & Hf2 & Hd2 & Hn2 & Ha2). rewrite (bind_Some _ _ _ _ _ Hput).
  unfold atomic_set. autorewrite with monad.
  rewrite (f_atomics _ _ _ _ Hf2), (f_atomics _ _ _ _ Hf1), Hv. autorewrite with monad.
  exists (set_atomics (<[inflights r := 0]> (atomics d2)) d2).
  split; [exact Hat2|]. split_and!; [|simpl; congruence..|done].
  destruct Hf1 as [A1 B1 C1 D1 E1], Hf2 as [A2 B2 C2 D2 E2].
  split; simpl; try congruence.
  - intros b' i' Hne. change (ring_at d2 b' i' = ring_at d b' i'). by rewrite A2, A1.
  - intros b' Hne. change (bank_at d2 b' = bank_at d b'). by rewrite B2, B1.
Qed.

Lemma create_ok d i r m addr :
  checks = Some i → ready d i r m → Z.testbit m i = false →
  dma_addr_of (nalloc d) = Some addr →
  adf_check_ring_alignment addr (ring_alloc (adf_verify_ring_size msg_size num_msgs)) = 0 →
  ext_ok (S (nalloc d)) = true →
  ∃ d', create d = Some (inr i, d') ∧
    at_ring b i d'
      (set_debug true (set_buffer (next_ptr d) addr (ring_setup b i num_msgs msg_size cb r)))
      (m .| BIT i) ∧
    frame b i (zero_ctr r d) d' ∧
    dma d' = <[next_ptr d :=
      ring_buffer (ring_alloc (adf_verify_ring_size msg_size num_msgs))]> (dma d) ∧
    next_ptr d' = next_ptr d + 1 ∧ nalloc d' = S (S (nalloc d)).
Proof.
  intros Hck Hrd Hbit Haddr Hal Hext.
  destruct (create_prefix d i r m Hck Hrd Hbit) as (d1 & Hat1 & Hf1 & Hd1 & Hn1 & Ha1 & ->).
  pose proof (adf_verify_ring_size_spec msg_size num_msgs) as [Hrs _].
  assert (ring_size (ring_setup b i num_msgs msg_size cb r) = adf_verify_ring_size msg_size num_msgs)
    as Hsz by (apply wrap_small; lia).
  pose proof (adf_init_ring_spec b i _ _ d1 Hat1 eq_refl) as Hinit.
  rewrite Hd1, Hn1, Ha1, Haddr, Hsz, Hal in Hinit.
  change (0 =? 0) with true in Hinit. cbv iota in Hinit.
  destruct (Hinit (y_fresh _ _ _ _ Hrd)) as (d2 & Hrun & Hat2 & Hf2 & Hd2 & Hn2 & Ha2).
  rewrite (bind_Some _ _ _ _ _ Hrun). cbv zeta. change (0 =? 0) with true. branch.
  destruct (adf_update_ring_arb_spec _ _ _ _ _ Hat2 eq_refl)
    as (d3 & Harb & Hat3 & Hf3 & Hd3 & Hn3 & Ha3). rewrite (bind_Some _ _ _ _ _ Harb).
  unfold ext_call, tick. autorewrite with monad. rewrite Ha3, Ha2, Hext. branch.
  set (d4 := set_nalloc _ d3).
  assert (at_ring b i d4 (set_buffer (next_ptr d) addr (ring_setup b i num_msgs msg_size cb r))
    (m .| BIT i)) as Hat4 by done. pose proof Hat4 as [Hr4 _].
  rewrite (bind_Some _ _ _ _ _ (get_ring_run _ _ _ _ Hr4)).
  destruct (put_ring_at_ring b i _ (set_debug true (set_buffer (next_ptr d) addr
     (ring_setup b i num_msgs msg_size cb r))) _ d4 Hat4)
    as (d5 & Hput & Hat5 & Hf5 & Hd5 & Hn5 & Ha5). rewrite (bind_Some _ _ _ _ _ Hput).
  assert (∃ d6, (when (bool_decide (is_Some cb) && negb poll_mode)
      (adf_enable_ring_irq b (ring_number (set_buffer (next_ptr d) addr
         (ring_setup b i num_msgs msg_size cb r))))) d5 = Some ((), d6) ∧
    at_ring b i d6 (set_debug true (set_buffer (next_ptr d) addr
      (ring_setup b i num_msgs msg_size cb r))) (m .| BIT i) ∧
    frame b i d5 d6 ∧ dma d6 = dma d5 ∧ next_ptr d6 = next_ptr d5 ∧ nalloc d6 = nalloc d5)
    as (d6 & Hwhen & ? & Hf6 & ? & ? & ?).
  { destruct (bool_decide (is_Some cb) && negb poll_mode); simpl; [|by exists d5].
    destruct (adf_enable_ring_irq_spec b i (wrap 8 i) _ _ d5 Hat5) as (d6 & ?).
    by exists d6. }
  rewrite (bind_Some _ _ _ _ _ Hwhen). exists d6. split; [done|]. split_and!; [done| | | |].
  - trans d5; [|done]. trans d4; [|done]. trans d3; [|by split]. trans d2; [|done].
    by trans d1.
  - assert (dma d4 = dma d3) by done. congruence.
  - assert (next_ptr d4 = next_ptr d3) by done. congruence.
  - assert (nalloc d4 = S (S (nalloc d))) by done. congruence.
Qed.

(** A ring is created: when the checks pass, the ring is free and the
    allocations succeed, [adf_create_ring] returns the ring with [head] and
    [tail] 0, the sizes asked for, [max_inflights] one less than its slots and a
    buffer, at a new address, marked empty throughout; its counter is 0, its bit
    of the ring mask is set, and every other ring, bank, counter and buffer of
    the device is unchanged. *)
Theorem adf_create_ring_success d i r m addr :
  checks = Some i → ready d i r m → Z.testbit m i = false →
  dma_addr_of (nalloc d) = Some addr →
  adf_check_ring_alignment addr (ring_alloc (adf_verify_ring_size msg_size num_msgs)) = 0 →
  ext_ok (S (nalloc d)) = true →
  ∃ d', create d = Some (inr i, d') ∧
    at_ring b i d'
      (set_debug true (set_buffer (next_ptr d) addr (ring_setup b i num_msgs msg_size cb r)))
      (m .| BIT i) ∧
    frame b i (zero_ctr r d) d' ∧
    dma d' = <[next_ptr d :=
      ring_buffer (ring_alloc (adf_verify_ring_size msg_size num_msgs))]> (dma d) ∧
    next_ptr d' = next_ptr d + 1.
Proof.
  intros. destruct (create_ok d i r m addr) as (d' & ? & ? & ? & ? & ? & _); try done.
  by exists d'.
Qed.

(** After a failure: ring [i] is free again, no buffer is left allocated, and
    nothing else has changed. *)
Definition released (d : device) (i : Z) (r : adf_etr_ring_data) (m : Z) (d' : device) : Prop :=
  (∃ r', at_ring b i d' r' m ∧ inflights r' = inflights r) ∧
  frame b i (zero_ctr r d) d' ∧ dma d' = dma d.

(** The [err] label: the buffer, if there is one, is freed. *)
Lemma create_err d1 d i r r' m (e : Z) :
  at_ring b i d1 r' (m .| BIT i) → bank r' = Some b → inflights r' = inflights r →
  0 <= i → Z.testbit m i = false →
  frame b i (zero_ctr r d) d1 →
  (base_addr r' = 0 ∧ dma d1 = dma d) ∨
  (base_addr r' ≠ 0 ∧ dma d !! base_addr r' = None ∧
   ∃ buf, dma d1 = <[base_addr r' := buf]> (dma d)) →
  ∃ d', (adf_cleanup_ring b i ;; adf_unreserve_ring b i ;;
         adf_update_ring_arb b i ;; ret (inl e : Z + Z)) d1 = Some (inl e, d') ∧
    released d i r m d'.
Proof.
  intros Hat Hb Hir Hi Hbit Hf Hbuf.
  assert (∃ d2, adf_cleanup_ring b i d1 = Some ((), d2) ∧ at_ring b i d2 r' (m .| BIT i) ∧
    frame b i d1 d2 ∧ dma d2 = dma d) as (d2 & Hcl & Hat2 & Hf2 & Hd2).
  { pose proof (adf_cleanup_ring_spec b i r' _ d1 Hat) as Hcl.
    destruct Hbuf as [[H0 Hd]|(H0 & Hnone & buf & Hd)].
    - rewrite H0 in Hcl. by exists d1.
    - rewrite (proj2 (Z.eqb_neq _ _)) in Hcl by done.
      rewrite Hd, lookup_insert_eq in Hcl. eexists. split; [done|]. split; [done|].
      split; [by split|]. simpl. by rewrite delete_insert_id. }
  rewrite (bind_Some _ _ _ _ _ Hcl).
  destruct (adf_unreserve_ring_spec b i _ _ d2 Hat2) as (d3 & Hun & Hat3 & Hf3 & Hd3 & _).
  rewrite (bind_Some _ _ _ _ _ Hun). rewrite clear_lor_BIT in Hat3 by done.
  destruct (adf_update_ring_arb_spec b i _ _ d3 Hat3 Hb) as (d4 & Harb & Hat4 & Hf4 & Hd4 & _).
  rewrite (bind_Some _ _ _ _ _ Harb). exists d4. split; [done|]. split_and!.
  - by exists r'.
  - trans d3; [|done]. trans d2; [|done]. by trans d1.
  - by rewrite Hd4, Hd3, Hd2.
Qed.


(** A buffer at a misaligned bus address is freed twice: [adf_init_ring]
    frees it and leaves [base_addr] set, and the error path of
    [adf_create_ring] wipes and frees it again. *)
Theorem adf_create_ring_misaligned d i r m addr :
  checks = Some i → ready d i r m → Z.testbit m i = false →
  dma_addr_of (nalloc d) = Some addr →
  adf_check_ring_alignment addr (ring_alloc (adf_verify_ring_size msg_size num_msgs)) ≠ 0 →
  create d = None.
Proof.
  intros Hck Hrd Hbit Haddr Hal. pose proof Hrd as [_ _ _ _ Hfr Hptr].
  destruct (create_prefix d i r m Hck Hrd Hbit) as (d1 & Hat1 & Hf1 & Hd1 & Hn1 & Ha1 & ->).
  pose proof (adf_verify_ring_size_spec msg_size num_msgs) as [Hrs _].
  assert (ring_size (ring_setup b i num_msgs msg_size cb r) = adf_verify_ring_size msg_size num_msgs)
    as Hsz by (apply wrap_small; lia).
  pose proof (adf_init_ring_spec b i _ _ d1 Hat1 eq_refl) as Hinit.
  rewrite Hd1, Hn1, Ha1, Haddr, Hsz in Hinit.
  rewrite (proj2 (Z.eqb_neq _ _)) in Hinit by done.
  destruct (Hinit Hfr) as (d2 & Hrun & Hat2 & Hd2).
  rewrite (bind_Some _ _ _ _ _ Hrun). cbv zeta. change (- EFAULT =? 0) with false. branch.
  apply bind_None. pose proof (adf_cleanup_ring_spec b i _ _ d2 Hat2) as Hcl.
  simpl base_addr in Hcl. rewrite (proj2 (Z.eqb_neq _ _)), Hd2, Hfr in Hcl by done. done.
Qed.

End create.

(** ** A pair of rings *)

(** [n] messages of [ms] bytes are a ring the hardware has. *)
Definition sizes_ok (ms n : Z) : Prop :=
  (ms = 32 ∨ ms = 64 ∨ ms = 128) ∧ 0 <= n ∧ ∃ c, 1 <= c <= 16 ∧ ms * n = 2 ^ (c + 6).

Lemma sizes_ring b i ms n cb r :
  sizes_ok ms n →
  let r' := ring_setup b i n ms cb r in
  ring_ok r' ∧ slots r' = Z.to_nat n ∧ max_inflights r' = n - 1 ∧
  max_inflights r' = ADF_MAX_INFLIGHTS (ring_size r') (msg_size r') ∧
  (slots r' * msg_words r' <= Z.to_nat (ring_alloc (adf_verify_ring_size ms n) / 4))%nat.
Proof.
  intros (Hms & Hn & c & Hc & Hc'). cbv zeta.
  assert (2 ^ (c + 6) <= 2 ^ 22) by (apply Z.pow_le_mono_r; lia).
  destruct (adf_verify_ring_size_spec ms n) as (_ & Hk & _).
  assert (adf_verify_ring_size ms n = c) as Hv by (apply Hk; [lia|]; rewrite wrap_small; lia).
  set (r' := ring_setup b i n ms cb r).
  assert (ring_size r' = c) as Hrs by (unfold r'; simpl; rewrite Hv; apply wrap_small; lia).
  assert (msg_size r' = ms / 32 ∧ msg_bytes r' = ms) as [Hmsz Hmb]
    by (unfold msg_bytes; destruct Hms as [-> | [-> | ->]]; done).
  assert (ring_ok r') as Hok
    by (split; [lia|]; rewrite Hmsz; destruct Hms as [-> | [-> | ->]]; vm_compute; tauto).
  destruct (slots_bytes r' Hok) as (Hs & _ & _). rewrite Hmb, Hrs in Hs.
  unfold ring_bytes in Hs. rewrite <- Hc' in Hs.
  assert (Z.of_nat (slots r') = n) as Hsn by (destruct Hms as [-> | [-> | ->]]; lia).
  pose proof (max_inflights_slots r' Hok) as Hmax.
  assert (max_inflights r' = ADF_MAX_INFLIGHTS (ring_size r') (msg_size r')) as Hmi.
  { change (max_inflights r') with (u32 (ADF_MAX_INFLIGHTS (ring_size r') (msg_size r'))).
    apply wrap_small. pose proof (slots_bound r' Hok). destruct (slots_bytes r' Hok) as (_ & ? & _). lia. }
  split_and!; [done|lia|lia|done|].
  destruct (msg_words_bytes r' Hok) as [Hw _]. rewrite Hmb in Hw.
  unfold ring_alloc. rewrite Hv, ring_bytes_macro by lia. unfold ring_bytes.
  rewrite <- Hc'. unfold ADF_RING_SIZE_BYTES_MIN.
  assert (ms * n / 4 = n * Z.of_nat (msg_words r')) as Hdiv
    by (rewrite <- Hw; replace (4 * Z.of_nat (msg_words r') * n)
          with (n * Z.of_nat (msg_words r') * 4) by lia; by apply Z.div_mul).
  assert (ms * n <= (if ms * n <? ADF_SIZE_TO_RING_SIZE_IN_BYTES ADF_RING_SIZE_4K
    then ADF_SIZE_TO_RING_SIZE_IN_BYTES ADF_RING_SIZE_4K else ms * n)) as Hle
    by (destruct (Z.ltb_spec (ms * n) (ADF_SIZE_TO_RING_SIZE_IN_BYTES ADF_RING_SIZE_4K)); lia).
  pose proof (Z.div_le_mono _ _ 4 ltac:(lia) Hle). rewrite Hdiv in *. rewrite <- Hsn in *. nia.
Qed.

Section pair.
Context (hw : hw_device_data) (ext_ok : nat → bool) (dma_addr_of : nat → option Z)
  (cfg_get : string → string → option string) (kstrtouint : string → option Z).
Context (section : string) (b n : Z) (txs rxs : Z) (tx_name rx_name : string)
  (tx_cb : option Z) (cb : Z) (tx_poll rx_poll : bool).

Abbreviation create ms name cb poll :=
  (adf_create_ring hw ext_ok dma_addr_of cfg_get kstrtouint section b n ms name cb poll).
Abbreviation checks ms name :=
  (create_ring_checks hw cfg_get kstrtouint section b n ms name).
Abbreviation aligned ms addr :=
  (adf_check_ring_alignment addr (ring_alloc (adf_verify_ring_size ms n)) = 0).

(** C28 Creating a request ring and a response ring of as many messages on a
    bank leaves a device that shows an initial state of the ring protocol: the
    two rings share one zeroed counter, both buffers exist and the response
    buffer is marked empty throughout.  With [adf_send_message_refines] and
    [adf_handle_response_refines], whatever senders, poller and hardware do from
    there is a run of that protocol. *)
Theorem adf_create_ring_pair d i j ri rj m a1 a2 :
  sizes_ok txs n → sizes_ok rxs n →
  checks txs tx_name = Some i → checks rxs rx_name = Some j →
  i ≠ j → 0 <= j < 16 → ready b d i ri m → 0 < next_ptr d →
  dma d !! (next_ptr d + 1) = None →
  ring_at d b j = Some rj → inflights rj = inflights ri →
  Z.testbit m i = false → Z.testbit m j = false →
  dma_addr_of (nalloc d) = Some a1 → aligned txs a1 → ext_ok (S (nalloc d)) = true →
  dma_addr_of (S (S (nalloc d))) = Some a2 → aligned rxs a2 →
  ext_ok (S (S (S (nalloc d)))) = true →
  ∃ d1 d2 s,
    create txs tx_name tx_cb tx_poll d = Some (inr i, d1) ∧
    create rxs rx_name (Some cb) rx_poll d1 = Some (inr j, d2) ∧
    view b i j cb d2 s ∧ initial (Z.to_nat (rxs / 4)) s.
Proof.
  intros Htxs Hrxs Hck1 Hck2 Hij Hj Hrd Hptr Hfr2 Hrj Hshare Hb1 Hb2 Ha1 Hal1 He1 Ha2 Hal2 He2.
  pose proof Hrd as [Hat Hi Hm [v Hv] Hfr _].
  destruct (create_ok hw ext_ok dma_addr_of cfg_get kstrtouint section b n txs tx_name tx_cb
    tx_poll d i ri m a1) as (d1 & Hc1 & Hat1 & Hf1 & Hd1 & Hn1 & Hna1); [done..|].
  set (r1 := set_debug true (set_buffer (next_ptr d) a1 (ring_setup b i n txs tx_cb ri))) in *.
  assert (ring_at d1 b j = Some rj) as Hrj1.
  { rewrite (f_rings _ _ _ _ Hf1) by congruence. done. }
  assert (at_ring b j d1 rj (m .| BIT i)) as Hatj by (split; [done|apply Hat1]).
  assert (Z.testbit (m .| BIT i) j = false) as Hbj.
  { rewrite lor_BIT_testbit, Hb2 by lia. simpl. by apply Z.eqb_neq. }
  assert (atomics d1 = <[inflights ri := 0]> (atomics d)) as Hat1a by apply Hf1.
  assert (ready b d1 j rj (m .| BIT i)) as Hrd2.
  { split; try done.
    - apply lor_range; [lia|done|]. rewrite BIT_pow2 by lia.
      split; [apply Z.pow_nonneg; lia|]. apply Z.pow_lt_mono_r; lia.
    - rewrite Hat1a, Hshare, lookup_insert_eq. done.
    - rewrite Hd1, Hn1, lookup_insert_ne by lia. done.
    - lia. }
  destruct (create_ok hw ext_ok dma_addr_of cfg_get kstrtouint section b n rxs rx_name (Some cb)
    rx_poll d1 j rj (m .| BIT i) a2) as (d2 & Hc2 & Hat2 & Hf2 & Hd2 & Hn2 & _);
    [done|done|done|by rewrite Hna1|done|by rewrite Hna1|].
  set (r2 := set_debug true (set_buffer (next_ptr d1) a2 (ring_setup b j n rxs (Some cb) rj))) in *.
  destruct (sizes_ring b i txs n tx_cb ri Htxs) as (Hok1 & Hs1 & _ & Hmax1 & Hl1).
  destruct (sizes_ring b j rxs n (Some cb) rj Hrxs) as (Hok2 & Hs2 & _ & _ & Hl2).
  exists d1, d2, (Sys 0 r1 r2 (ring_buffer (ring_alloc (adf_verify_ring_size txs n)))
    (ring_buffer (ring_alloc (adf_verify_ring_size rxs n))) [] 0 false 0 0 [] 0 [] [] []).
  split_and!; [done|done| |].
  - assert (atomics d2 = <[inflights rj := 0]> (atomics d1)) as Hat2a by apply Hf2.
    split; simpl; try done.
    + rewrite (f_rings _ _ _ _ Hf2) by congruence. apply Hat1.
    + apply Hat2.
    + destruct Hat2 as [_ (bk & -> & _)]. done.
    + rewrite Hat2a, Hshare, lookup_insert_eq. done.
    + rewrite Hd2, lookup_insert_ne, Hd1, lookup_insert_eq by lia. done.
    + by rewrite Hd2, lookup_insert_eq.
    + lia.
  - assert (msg_words r2 = Z.to_nat (rxs / 4)) as Hw.
    { destruct Hrxs as ([-> | [-> | ->]] & _); done. }
    unfold initial; simpl. unfold ring_buffer. rewrite !length_replicate.
    change (slots r1) with (slots (ring_setup b i n txs tx_cb ri)).
    change (slots r2) with (slots (ring_setup b j n rxs (Some cb) rj)).
    split_and!; try done; [by rewrite Hs1, Hs2|].
    by apply (Forall_replicate (λ w, w = ADF_RING_EMPTY_SIG)).
Qed.

End pair.

(** ** Witnesses, on the device of [Transport] *)

Lemma ex_ready : ready 0 ex_device 0 (ex_ring 0) 0.
Proof.
  split; [|lia|lia|by vm_compute; eexists|by vm_compute|by vm_compute].
  split; [by vm_compute|]. eexists. split; [by vm_compute|done].
Qed.

Lemma ex_sizes ms : ms = 32 ∨ ms = 64 → sizes_ok ms 8.
Proof.
  intros [-> | ->]; (split; [tauto|split; [lia|]]); [exists 2|exists 3]; split; lia || done.
Qed.

Lemma adf_create_ring_success_witness :
  ∃ d', ex_create "0" 64 None ex_device = Some (inr 0, d').
Proof.
  destruct (adf_create_ring_success ex_hw (λ _, true) ex_dma_addr ex_cfg ex_kstrtouint
    "KERNEL" 0 8 64 "0" None true ex_device 0 (ex_ring 0) 0
    (Z.of_nat (nalloc ex_device) * 2 ^ 22)) as (d' & H & _);
    [by vm_compute|apply ex_ready|done|by vm_compute|by vm_compute|done|by exists d'].
Defined.


Lemma adf_create_ring_misaligned_witness :
  adf_create_ring ex_hw (λ _, true) (λ _, Some 64) ex_cfg ex_kstrtouint
    "KERNEL" 0 8 64 "0" None true ex_device = None.
Proof.
  apply (adf_create_ring_misaligned ex_hw (λ _, true) (λ _, Some 64) ex_cfg ex_kstrtouint
    "KERNEL" 0 8 64 "0" None true ex_device 0 (ex_ring 0) 0 64);
    [by vm_compute|apply ex_ready|done|done|by vm_compute].
Defined.

Lemma adf_create_ring_pair_witness :
  ∃ d1 d2 s, ex_create "0" 64 None ex_device = Some (inr 0, d1) ∧
    ex_create "8" 32 (Some 1) d1 = Some (inr 8, d2) ∧
    view 0 0 8 1 d2 s ∧ initial 8 s.
Proof.
  apply (adf_create_ring_pair ex_hw (λ _, true) ex_dma_addr ex_cfg ex_kstrtouint
    "KERNEL" 0 8 64 32 "0" "8" None 1 true true ex_device 0 8 (ex_ring 0) (ex_ring 8) 0
    (Z.of_nat (nalloc ex_device) * 2 ^ 22) (Z.of_nat (S (S (nalloc ex_device))) * 2 ^ 22));
    [apply ex_sizes; by right|apply ex_sizes; by left|by vm_compute|by vm_compute|lia|lia
    |apply ex_ready|by vm_compute..].
Defined.

End TransportCreate.
