(* ===== verification/UsdmKernel.v ===== *)
(** * The kernel side of the memory driver

    Models the memory management of [qae_mem_drv.c]: the slabs of physically
    contiguous memory that processes get by [ioctl], kept in a list per open
    file and in a hash by physical address, the accounting of the memory and
    of the huge pages, [mmap], and opening and closing the device.

    The kernel's allocator ([kmalloc], [kmalloc_node], [kzalloc],
    [get_zeroed_page]) is a parameter, [alloc], of the number of calls made so
    far, of the size and of the blocks in use; the state keeps those blocks, so
    that freeing one twice is a fault and one that nothing refers to is a leak.
    An object that is freed loses its links and fields: using it is a fault. *)

From S2P Require Import Prelude DList.
Import DList.

#[local] Open Scope Z_scope.
#[local] Open Scope qat_scope.

Module UsdmKernel.

Definition PAGE_SHIFT := 12.
Definition PAGE_SIZE := 4096.
Definition QAE_KBYTE := 1024.
Definition SMALL := 0.
Definition LARGE := 1.
Definition NUMA_NO_NODE := -1.
(** [sizeof(block_ctrl_t)] and of the other structures allocated here *)
Definition sizeof_block_ctrl := 4440.
Definition sizeof_kdev_mem_info := 64.
Definition sizeof_user_proc_mem_list := 56.

(** [kdev_mem_info_t] and [user_proc_mem_list_t] without their links. *)
Record kdev_mem_info := Kmem { kmalloc_ptr : Z; huge_mem_ctrl : Z; size : Z; phy_addr : Z }.
Record user_proc_mem_list := Proc { pid : Z; allocs_nr : Z; hugepages_nr : Z; slabs : dlist }.

(** The part of [dev_mem_info_t] kernel and user share. *)
Record dev_mem_info := MemInfo { mi_node : Z; mi_size : Z; mi_type : Z; mi_phy : Z }.

Record state := State {
  kmems : gmap Z kdev_mem_info;
  klinks : links;               (* pPrev_kernel, pNext_kernel *)
  hlinks : links;               (* pPrev_kernel_hash, pNext_kernel_hash *)
  g_slab_list : gmap Z dlist;   (* a missing chain is {0} *)
  procs : gmap Z user_proc_mem_list;
  plinks : links;               (* pPrev, pNext of the processes *)
  mem_dev_numa : option dlist;
  private_data : gmap Z Z;      (* of the open files; a missing one is NULL *)
  mem_allocated : Z;
  max_huge_pages : Z;
  blocks : gmap Z Z;            (* the kernel blocks in use, with their sizes *)
  calls : nat;                  (* calls of the allocator so far *)
}.

Definition set_kmems v s := State v (klinks s) (hlinks s) (g_slab_list s) (procs s) (plinks s) (mem_dev_numa s) (private_data s) (mem_allocated s) (max_huge_pages s) (blocks s) (calls s).
Definition set_klinks v s := State (kmems s) v (hlinks s) (g_slab_list s) (procs s) (plinks s) (mem_dev_numa s) (private_data s) (mem_allocated s) (max_huge_pages s) (blocks s) (calls s).
Definition set_hash v l s := State (kmems s) (klinks s) v l (procs s) (plinks s) (mem_dev_numa s) (private_data s) (mem_allocated s) (max_huge_pages s) (blocks s) (calls s).
Definition set_procs v s := State (kmems s) (klinks s) (hlinks s) (g_slab_list s) v (plinks s) (mem_dev_numa s) (private_data s) (mem_allocated s) (max_huge_pages s) (blocks s) (calls s).
Definition set_plinks v d s := State (kmems s) (klinks s) (hlinks s) (g_slab_list s) (procs s) v d (private_data s) (mem_allocated s) (max_huge_pages s) (blocks s) (calls s).
Definition set_private v s := State (kmems s) (klinks s) (hlinks s) (g_slab_list s) (procs s) (plinks s) (mem_dev_numa s) v (mem_allocated s) (max_huge_pages s) (blocks s) (calls s).
Definition set_mem v s := State (kmems s) (klinks s) (hlinks s) (g_slab_list s) (procs s) (plinks s) (mem_dev_numa s) (private_data s) v (max_huge_pages s) (blocks s) (calls s).
Definition set_huge v s := State (kmems s) (klinks s) (hlinks s) (g_slab_list s) (procs s) (plinks s) (mem_dev_numa s) (private_data s) (mem_allocated s) v (blocks s) (calls s).
Definition set_blocks v n s := State (kmems s) (klinks s) (hlinks s) (g_slab_list s) (procs s) (plinks s) (mem_dev_numa s) (private_data s) (mem_allocated s) (max_huge_pages s) v n.

(** [mem_allocated += v] *)
Definition account (v : Z) : M state () := modify (λ s, set_mem (u64 (mem_allocated s + v)) s).

(** The kernel around the driver, and the driver's parameters. *)
Section kernel.
Context (alloc : nat → Z → gmap Z Z → option Z).
Context (iommu_map : nat → Z → option Z) (remapping_size : Z → Z).
Context (node_online : Z → bool) (MAX_NUMNODES : Z).
Context (max_mem_numa max_huge_pages_per_process : Z).

Definition kmalloc (sz : Z) : M state Z :=
  n <- gets calls ;; b <- gets blocks ;;
  match alloc n sz b with
  | None => modify (set_blocks b (S n)) ;; ret 0
  | Some a => modify (set_blocks (<[a := sz]> b) (S n)) ;; ret a
  end.
Definition FREE (ptr : Z) : M state () :=
  if ptr =? 0 then ret () else
  b <- gets blocks ;; n <- gets calls ;;
  lift (b !! ptr) ;;
  modify (set_blocks (delete ptr b) n).

Definition kmem_at (p : Z) : M state kdev_mem_info := m <- gets kmems ;; lift (m !! p).
Definition proc_at (p : Z) : M state user_proc_mem_list := m <- gets procs ;; lift (m !! p).
Definition put_proc (p : Z) (l : user_proc_mem_list) : M state () :=
  modify (λ s, set_procs (<[p := l]> (procs s)) s).
Definition with_slabs (d : dlist) (l : user_proc_mem_list) : user_proc_mem_list :=
  Proc (pid l) (allocs_nr l) (hugepages_nr l) d.
Definition with_allocs (v : Z) (l : user_proc_mem_list) : user_proc_mem_list :=
  Proc (pid l) v (hugepages_nr l) (slabs l).
Definition with_hugepages (v : Z) (l : user_proc_mem_list) : user_proc_mem_list :=
  Proc (pid l) (allocs_nr l) v (slabs l).
Definition private (fp : Z) : M state Z := m <- gets private_data ;; ret (default 0 (m !! fp)).

Definition get_key (phys : Z) : Z := Z.shiftr phys 20 .& (PAGE_SIZE - 1).
Definition chain (key : Z) : M state dlist := m <- gets g_slab_list ;; ret (default empty (m !! key)).

Definition add_slab_to_hash (slab : Z) : M state () :=
  k <- kmem_at slab ;;
  let key := get_key (phy_addr k) in
  d <- chain key ;; ls <- gets hlinks ;;
  let! (ls, d) := lift (ADD_ELEMENT_TO_HEAD_LIST slab ls d) in
  modify (λ s, set_hash ls (<[key := d]> (g_slab_list s)) s).

Definition del_slab_from_hash (slab : Z) : M state () :=
  k <- kmem_at slab ;;
  let key := get_key (phy_addr k) in
  d <- chain key ;; ls <- gets hlinks ;;
  let! (ls, d) := lift (REMOVE_ELEMENT_FROM_LIST slab ls d) in
  modify (λ s, set_hash ls (<[key := d]> (g_slab_list s)) s).

(** The first slab of the chain at the address; 0 for NULL. *)
Fixpoint find_in (m : gmap Z kdev_mem_info) (l : list Z) (phys : Z) : option Z :=
  match l with
  | [] => Some 0
  | p :: l => k ← m !! p; if phys =? phy_addr k then Some p else find_in m l phys
  end.
Definition find_slab (phys : Z) : M state Z :=
  d <- chain (get_key phys) ;; ls <- gets hlinks ;;
  l <- lift (dlist_elements ls d) ;; m <- gets kmems ;;
  lift (find_in m l phys).

Definition userMemGetInfo (fp id : Z) : M state Z :=
  if fp =? 0 then ret 0 else
  l <- private fp ;;
  if l =? 0 then ret 0 else find_slab id.

Definition DIV_ROUND_UP (n d : Z) : Z := u64 (n + d - 1) / d.
Definition IS_PAGE_ALIGNED (x : Z) : bool := x mod PAGE_SIZE =? 0.

(** Which node is used for the one asked for. *)
Definition pick_node (node : Z) : Z :=
  if node =? NUMA_NO_NODE then node else
  if (0 <=? node) && (node <? MAX_NUMNODES) then (if node_online node then node else 0) else 0.

(** The two branches on [large_memory]: the control structure [kmem], whose
    address is returned, with the memory it controls. *)
Definition large_memory_branch (sz : Z) : M state (option (Z * (Z * Z))) :=
  m <- gets mem_allocated ;;
  let totalInKBytes := DIV_ROUND_UP (u64 (m + sz)) QAE_KBYTE in
  let pageSizeInKb := PAGE_SIZE / QAE_KBYTE in
  if negb (max_mem_numa =? 0) && (max_mem_numa <? u64 (totalInKBytes + pageSizeInKb))
  then ret None else
  mem_info <- kmalloc PAGE_SIZE ;;
  if mem_info =? 0 then ret None else
  kmem <- kmalloc sizeof_kdev_mem_info ;;
  if kmem =? 0 then FREE mem_info ;; ret None else
  ptr <- kmalloc sz ;;
  if (ptr =? 0) || negb (IS_PAGE_ALIGNED ptr) then
    FREE ptr ;; FREE kmem ;; FREE mem_info ;; ret None
  else
    account (sz + PAGE_SIZE) ;; ret (Some (kmem, (ptr, mem_info))).

(** [memset] of the control block at the start of the slab needs its size. *)
Definition small_memory_branch (sz : Z) : M state (option (Z * (Z * Z))) :=
  m <- gets mem_allocated ;;
  let totalInKBytes := DIV_ROUND_UP (u64 (m + sz)) QAE_KBYTE in
  if negb (max_mem_numa =? 0) && (max_mem_numa <? totalInKBytes) then ret None else
  ptr <- kmalloc sz ;;
  if (ptr =? 0) || negb (IS_PAGE_ALIGNED ptr) then FREE ptr ;; ret None else
  kmem <- kmalloc sizeof_kdev_mem_info ;;
  if kmem =? 0 then FREE ptr ;; ret None else
  if sz <? sizeof_block_ctrl then fault else
  account sz ;; ret (Some (kmem, (ptr, 0))).

(** [*mem_info] as it is returned, or [None] for NULL. *)
Definition userMemAlloc (fp sz node large_memory : Z) : M state (option dev_mem_info) :=
  if (sz =? 0) || (fp =? 0) then ret None else
  let node := pick_node node in
  list <- private fp ;;
  if list =? 0 then ret None else
  let sz := remapping_size sz in
  r <- (if negb (large_memory =? 0) then large_memory_branch sz else small_memory_branch sz) ;;
  match r with
  | None => ret None
  | Some (kmem, (ptr, ctrl)) =>
    n <- gets calls ;;
    match iommu_map n ptr with
    | None =>
      when (large_memory =? LARGE) (FREE ctrl ;; account (- PAGE_SIZE)) ;;
      FREE ptr ;; FREE kmem ;; account (- sz) ;; ret None
    | Some phys =>
      modify (λ s, set_kmems (<[kmem := Kmem ptr ctrl sz phys]> (kmems s)) s) ;;
      modify (λ s, set_klinks (<[kmem := Link 0 0]> (klinks s)) s) ;;
      modify (λ s, set_hash (<[kmem := Link 0 0]> (hlinks s)) (g_slab_list s) s) ;;
      l <- proc_at list ;;
      put_proc list (with_allocs (u64 (allocs_nr l + 1)) l) ;;
      l <- proc_at list ;; ls <- gets klinks ;;
      let! (ls, d) := lift (ADD_ELEMENT_TO_END_LIST kmem ls (slabs l)) in
      modify (set_klinks ls) ;; put_proc list (with_slabs d l) ;;
      add_slab_to_hash kmem ;;
      ret (Some (MemInfo node sz large_memory phys))
    end
  end.

(** [list] is the process whose list the slab is taken off. *)
Definition free_slab (list slab : Z) : M state () :=
  k <- kmem_at slab ;;
  l <- proc_at list ;; ls <- gets klinks ;;
  let! (ls, d) := lift (REMOVE_ELEMENT_FROM_LIST slab ls (slabs l)) in
  modify (set_klinks ls) ;; put_proc list (with_slabs d l) ;;
  del_slab_from_hash slab ;;
  when (negb (huge_mem_ctrl k =? 0)) (FREE (huge_mem_ctrl k) ;; account (- PAGE_SIZE)) ;;
  FREE (kmalloc_ptr k) ;;
  FREE slab ;;
  modify (λ s, set_kmems (delete slab (kmems s)) s) ;;
  modify (λ s, set_klinks (delete slab (klinks s)) s) ;;
  modify (λ s, set_hash (delete slab (hlinks s)) (g_slab_list s) s) ;;
  account (- size k) ;;
  l <- proc_at list ;;
  put_proc list (with_allocs (u64 (allocs_nr l - 1)) l).

Definition userMemFree (fp id : Z) : M state Z :=
  if fp =? 0 then ret (- EIO) else
  list <- private fp ;;
  if list =? 0 then ret (- EIO) else
  kmem <- find_slab id ;;
  if negb (kmem =? 0) then free_slab list kmem ;; ret 0 else ret (- EIO).

(** The [while] loop over the slabs of a process. *)
Fixpoint free_slabs (fuel : nat) (list kmem : Z) : M state () :=
  if kmem =? 0 then ret () else
  match fuel with
  | O => fault
  | S fuel =>
    ls <- gets klinks ;; l <- lift (ls !! kmem) ;;
    let next := pNext l in
    free_slab list kmem ;; free_slabs fuel list next
  end.

Definition userMemFreeSlabs (fp : Z) : M state Z :=
  if fp =? 0 then ret (- EIO) else
  list <- private fp ;;
  if list =? 0 then ret (- EIO) else
  l <- proc_at list ;;
  modify (λ s, set_huge (u32 (max_huge_pages s + hugepages_nr l)) s) ;;
  put_proc list (with_hugepages 0 l) ;;
  m <- gets kmems ;;
  free_slabs (base.size m) list (head (slabs l)) ;; ret 0.

(** ** The calls of a process

    [from_ok] and [to_ok]: whether [copy_from_user] and [copy_to_user] succeed.
    The status, and what is copied to the user. *)

Definition dev_mem_alloc (from_ok to_ok : bool) (fp : Z) (arg : dev_mem_info)
    : M state (Z * option dev_mem_info) :=
  if fp =? 0 then ret (- EIO, None) else
  p <- private fp ;;
  if p =? 0 then ret (- EIO, None) else
  if negb from_ok then ret (- EIO, None) else
  mem_info <- userMemAlloc fp (mi_size arg) (s32 (mi_node arg)) (mi_type arg) ;;
  match mem_info with
  | None => ret (- ENOMEM, None)
  | Some info =>
    if negb to_ok then userMemFree fp (mi_phy arg) ;; ret (- EIO, None)
    else ret (0, Some info)
  end.

Definition dev_mem_free (from_ok : bool) (fp : Z) (arg : dev_mem_info) : M state Z :=
  if fp =? 0 then ret (- EIO) else
  p <- private fp ;;
  if p =? 0 then ret (- EIO) else
  if negb from_ok then ret (- EIO) else userMemFree fp (mi_phy arg).

Definition dev_release_pid (fp : Z) : M state Z := userMemFreeSlabs fp.

Definition dev_num_hp_get (to_ok : bool) (fp : Z) : M state (Z * option Z) :=
  if fp =? 0 then ret (- EIO, None) else
  p <- private fp ;;
  if p =? 0 then ret (- EIO, None) else
  mh <- gets max_huge_pages ;;
  let actual_num_hugepages := Z.min mh max_huge_pages_per_process in
  if negb to_ok then ret (- EIO, None) else
  modify (λ s, set_huge (u32 (max_huge_pages s - actual_num_hugepages)) s) ;;
  l <- proc_at p ;; put_proc p (with_hugepages actual_num_hugepages l) ;;
  ret (0, Some actual_num_hugepages).

(** [mem_ioctl]: the status each command returns, and what it copies out. *)
Inductive ioctl :=
  | DEV_MEM_IOC_MEMALLOC (arg : dev_mem_info)
  | DEV_MEM_IOC_MEMFREE (arg : dev_mem_info)
  | DEV_MEM_IOC_RELEASE
  | DEV_MEM_IOC_GET_NUM_HPT
  | DEV_MEM_IOC_OTHER.
Inductive copied := NOTHING | INFO (i : dev_mem_info) | NUM (n : Z).

Definition mem_ioctl (from_ok to_ok : bool) (fp : Z) (cmd : ioctl) : M state (Z * copied) :=
  match cmd with
  | DEV_MEM_IOC_MEMALLOC arg =>
    let! (r, out) := dev_mem_alloc from_ok to_ok fp arg in
    if negb (r =? 0) then ret (- ENOMEM, NOTHING)
    else ret (0, match out with Some i => INFO i | None => NOTHING end)
  | DEV_MEM_IOC_MEMFREE arg =>
    r <- dev_mem_free from_ok fp arg ;;
    ret (if negb (r =? 0) then - EIO else 0, NOTHING)
  | DEV_MEM_IOC_RELEASE =>
    r <- dev_release_pid fp ;;
    ret (if negb (r =? 0) then - EIO else 0, NOTHING)
  | DEV_MEM_IOC_GET_NUM_HPT =>
    let! (r, out) := dev_num_hp_get to_ok fp in
    if negb (r =? 0) then ret (- EIO, NOTHING)
    else ret (0, match out with Some n => NUM n | None => NOTHING end)
  | DEV_MEM_IOC_OTHER => ret (- EINVAL, NOTHING)
  end.

(** The kernel address [mem_mmap] maps [len] bytes from, at offset [pgoff]
    pages of the file, or its error. *)
Definition mem_mmap (fp pgoff len : Z) : M state (Z + Z) :=
  let id := u64 (Z.shiftl pgoff PAGE_SHIFT) in
  kmem <- userMemGetInfo fp id ;;
  if kmem =? 0 then ret (inl (- ENOMEM)) else
  k <- kmem_at kmem ;;
  if size k <? len then ret (inl (- ENOMEM)) else
  if PAGE_SIZE =? len then ret (inr (huge_mem_ctrl k)) else ret (inr (kmalloc_ptr k)).

Definition mem_open (fp tgid : Z) : M state Z :=
  p <- private fp ;;
  if p =? 0 then
    list <- kmalloc sizeof_user_proc_mem_list ;;
    if list =? 0 then ret (- ENODEV) else
    modify (λ s, set_procs (<[list := Proc 0 0 0 empty]> (procs s)) s) ;;
    modify (λ s, set_plinks (<[list := Link 0 0]> (plinks s)) (mem_dev_numa s) s) ;;
    modify (λ s, set_private (<[fp := list]> (private_data s)) s) ;;
    numa <- gets mem_dev_numa ;; d <- lift numa ;; ls <- gets plinks ;;
    let! (ls, d) := lift (ADD_ELEMENT_TO_END_LIST list ls d) in
    modify (set_plinks ls (Some d)) ;;
    l <- proc_at list ;;
    put_proc list (Proc tgid (allocs_nr l) (hugepages_nr l) (slabs l)) ;; ret 0
  else ret 0.

Definition remove_element (p : Z) : M state () :=
  if p =? 0 then ret () else
  ls <- gets plinks ;; l <- lift (ls !! p) ;;
  ls <- lift (if negb (pPrev l =? 0) then set_next (pPrev l) (pNext l) ls else Some ls) ;;
  ls <- lift (if negb (pNext l =? 0) then set_prev (pNext l) (pPrev l) ls else Some ls) ;;
  modify (λ s, set_plinks ls (mem_dev_numa s) s).

Definition mem_release (fp : Z) : M state Z :=
  list <- private fp ;;
  if negb (list =? 0) then
    userMemFreeSlabs fp ;;
    numa <- gets mem_dev_numa ;;
    match numa with
    | Some d =>
      ls <- gets plinks ;;
      let! (ls, d) := lift (REMOVE_ELEMENT_FROM_LIST list ls d) in
      modify (set_plinks ls (Some d))
    | None => remove_element list
    end ;;
    FREE list ;;
    modify (λ s, set_procs (delete list (procs s)) s) ;;
    modify (λ s, set_plinks (delete list (plinks s)) (mem_dev_numa s) s) ;;
    modify (λ s, set_private (delete fp (private_data s)) s) ;; ret 0
  else ret 0.
End kernel.

(** ** Steps of the proofs *)

(** Read the fields of an updated state. *)
Ltac fields :=
  cbn [kmems klinks hlinks g_slab_list procs plinks mem_dev_numa private_data mem_allocated
       max_huge_pages blocks calls set_kmems set_klinks set_hash set_procs set_plinks
       set_private set_mem set_huge set_blocks
       pid allocs_nr hugepages_nr slabs with_slabs with_allocs with_hugepages
       kmalloc_ptr huge_mem_ctrl size phy_addr] in *.
Ltac steps := repeat progress (autorewrite with monad; fields).

(** ** The invariant *)

Section invariant.
(** Where the kernel maps the memory at an address, at a given time. *)
Context (iommu_map : nat → Z → option Z).

(** What the driver owns of the kernel's memory: per slab its control
    structure, its memory and the page of a large one; and the process lists. *)
Definition owned_of (km : Z * kdev_mem_info) : list Z :=
  let '(k, m) := km in
  [k; kmalloc_ptr m] ++ (if huge_mem_ctrl m =? 0 then [] else [huge_mem_ctrl m]).
Definition owned (s : state) : list Z :=
  (map_to_list (kmems s) ≫= owned_of) ++ elements (dom (procs s)).

(** The memory a slab is charged for. *)
Definition footprint (m : kdev_mem_info) : Z :=
  size m + (if huge_mem_ctrl m =? 0 then 0 else PAGE_SIZE).
Definition total : gmap Z kdev_mem_info → Z := map_sum footprint.

(** [own p] lists the slabs of process [p], [ch key] those of a hash chain,
    [pl] the processes. *)
Record wf (s : state) (own ch : Z → list Z) (pl : list Z) : Prop := {
  wf_own p l : procs s !! p = Some l →
    is_list (klinks s) (slabs l) (own p) ∧ allocs_nr l = u64 (Z.of_nat (length (own p)));
  wf_own_proc p k : k ∈ own p → is_Some (procs s !! p);
  wf_slab k : is_Some (kmems s !! k) ↔ ∃ p, k ∈ own p;
  wf_disj p q k : k ∈ own p → k ∈ own q → p = q;
  wf_chain key : is_list (hlinks s) (default empty (g_slab_list s !! key)) (ch key);
  wf_hash key k : k ∈ ch key ↔ ∃ m, kmems s !! k = Some m ∧ get_key (phy_addr m) = key;
  wf_klinks : dom (klinks s) = dom (kmems s);
  wf_hlinks : dom (hlinks s) = dom (kmems s);
  wf_phys j k a b : kmems s !! j = Some a → kmems s !! k = Some b →
    phy_addr a = phy_addr b → j = k;
  wf_map k m : kmems s !! k = Some m → ∃ n, iommu_map n (kmalloc_ptr m) = Some (phy_addr m);
  wf_blocks : owned s ≡ₚ elements (dom (blocks s));
  wf_null : 0 ∉ dom (blocks s);
  wf_ptr k m : kmems s !! k = Some m → kmalloc_ptr m ≠ 0;
  wf_mem : mem_allocated s = u64 (total (kmems s));
  wf_procs : ∃ d, mem_dev_numa s = Some d ∧ is_list (plinks s) d pl;
  wf_proc p : p ∈ pl ↔ is_Some (procs s !! p);
  wf_plinks : dom (plinks s) = dom (procs s);
  wf_files p : is_Some (procs s !! p) ↔ ∃ fp, private_data s !! fp = Some p;
  wf_private fp gp p : private_data s !! fp = Some p → private_data s !! gp = Some p → fp = gp;
  wf_file0 : private_data s !! 0 = None;
}.

Lemma elements_dom_insert (b : gmap Z Z) a v :
  b !! a = None → elements (dom (<[a := v]> b)) ≡ₚ a :: elements (dom b).
Proof.
  intros. rewrite dom_insert_L, elements_union_singleton; [done|]. by apply not_elem_of_dom.
Qed.

Lemma elements_dom_delete (b : gmap Z Z) a v :
  b !! a = Some v → elements (dom b) ≡ₚ a :: elements (dom (delete a b)).
Proof.
  intros Ha. rewrite <- (insert_delete_id b a v Ha) at 1.
  apply elements_dom_insert, lookup_delete_eq.
Qed.

(** A block of the list can be freed, and the rest of the list is what is
    still in use. *)
Lemma owned_cons a l (b : gmap Z Z) :
  a :: l ≡ₚ elements (dom b) → ∃ v, b !! a = Some v ∧ l ≡ₚ elements (dom (delete a b)).
Proof.
  intros H. assert (a ∈ dom b) as [v Ha]%elem_of_dom by (apply elem_of_elements; rewrite <- H; left).
  exists v. split; [done|]. apply (Permutation_cons_inv (a := a)). rewrite H. by eapply elements_dom_delete.
Qed.

Lemma owned_insert s k m :
  kmems s !! k = None → owned (set_kmems (<[k := m]> (kmems s)) s) ≡ₚ owned_of (k, m) ++ owned s.
Proof.
  intros. unfold owned. cbn [kmems set_kmems procs]. rewrite map_to_list_insert by done.
  by rewrite bind_cons, <- app_assoc.
Qed.

Lemma owned_delete s k m :
  kmems s !! k = Some m → owned s ≡ₚ owned_of (k, m) ++ owned (set_kmems (delete k (kmems s)) s).
Proof.
  intros Hk. unfold owned at 1. rewrite <- (map_to_list_delete (kmems s) k m) by done.
  by rewrite bind_cons, <- app_assoc.
Qed.

Lemma owned_of_perm k m l :
  (if huge_mem_ctrl m =? 0 then kmalloc_ptr m :: k :: l
   else huge_mem_ctrl m :: kmalloc_ptr m :: k :: l) ≡ₚ owned_of (k, m) ++ l.
Proof. unfold owned_of. destruct (_ =? 0); cbn [app]; solve_Permutation. Qed.

(** The count of allocator calls is no part of the invariant. *)
Lemma wf_calls s own ch pl n : wf s own ch pl → wf (set_blocks (blocks s) n s) own ch pl.
Proof. by intros []. Qed.

(** Every slab is found at its address. *)
Lemma find_in_spec m l phys :
  (∀ k, k ∈ l → is_Some (m !! k)) →
  ∃ r, find_in m l phys = Some r ∧
    ((r = 0 ∧ ∀ k v, k ∈ l → m !! k = Some v → phy_addr v ≠ phys) ∨
     (r ∈ l ∧ ∃ v, m !! r = Some v ∧ phy_addr v = phys)).
Proof.
  induction l as [|x l IH]; intros Hl; [exists 0; split; [done|left; split; [done|]; set_solver]|].
  cbn [find_in]. destruct (Hl x ltac:(left)) as [v Hv]. rewrite Hv. cbn [mbind option_bind].
  destruct (Z.eqb_spec phys (phy_addr v)) as [->|Hne].
  - exists x. split; [done|]. right. split; [left|eauto].
  - destruct IH as (r & Hr & H); [intros k Hk; apply Hl; by right|]. exists r. split; [done|].
    destruct H as [[-> Hn]|[Hin H]]; [left|right; split; [by right|done]]. split; [done|].
    intros k w [->|Hk]%elem_of_cons Hw; [naive_solver|by eapply Hn].
Qed.

Lemma find_slab_spec s own ch pl phys :
  wf s own ch pl →
  ∃ r, find_slab phys s = Some (r, s) ∧
    ((r = 0 ∧ ∀ k v, kmems s !! k = Some v → phy_addr v ≠ phys) ∨
     (r ≠ 0 ∧ ∃ v, kmems s !! r = Some v ∧ phy_addr v = phys)).
Proof.
  intros W. unfold find_slab, chain. autorewrite with monad.
  pose proof (wf_chain _ _ _ _ W (get_key phys)) as Hc. rewrite (dlist_elements_spec _ _ _ Hc).
  autorewrite with monad.
  destruct (find_in_spec (kmems s) (ch (get_key phys)) phys) as (r & Hr & H).
  { intros k Hk. apply (wf_hash _ _ _ _ W) in Hk as (m & Hm & _). eauto. }
  exists r. unfold lift. rewrite Hr. split; [done|]. destruct H as [[-> Hn]|(Hin & v & Hv & Hp)].
  - left. split; [done|]. intros k v Hv Hp. apply (Hn k v); [|done..].
    apply (wf_hash _ _ _ _ W). exists v. by rewrite Hp.
  - right. split; [by eapply (is_list_elem _ _ _ _ Hc)|eauto].
Qed.

Lemma FREE_spec a l s :
  a ≠ 0 → a :: l ≡ₚ elements (dom (blocks s)) →
  ∃ b, FREE a s = Some ((), set_blocks b (calls s) s) ∧ l ≡ₚ elements (dom b) ∧
       dom b ⊆ dom (blocks s).
Proof.
  intros Ha Hl. apply owned_cons in Hl as (v & Hv & Hl). unfold FREE.
  rewrite (proj2 (Z.eqb_neq _ _)) by done. steps. rewrite Hv. steps.
  eexists. split; [reflexivity|]. split; [done|]. rewrite dom_delete_L. set_solver.
Qed.

(** The ghost function counts only up to its values. *)
Lemma wf_own_ext s own own' ch pl : (∀ p, own' p = own p) → wf s own ch pl → wf s own' ch pl.
Proof.
  intros He [W1 W2 W3 W4 W5 W6 W7 W8 W9 W10 W11 W12 W13 W14 W15 W16 W17 W18 W19 W20].
  split; try done.
  - intros p l Hl. rewrite He. by apply W1.
  - intros p k. rewrite He. by apply W2.
  - intros k. setoid_rewrite He. apply W3.
  - intros p q k. rewrite !He. apply W4.
Qed.

(** The page of a large slab. *)
Lemma free_ctrl_spec s m l :
  (if huge_mem_ctrl m =? 0 then l else huge_mem_ctrl m :: l) ≡ₚ elements (dom (blocks s)) →
  ∃ b mm, when (negb (huge_mem_ctrl m =? 0)) (FREE (huge_mem_ctrl m) ;; account (- PAGE_SIZE)) s =
      Some ((), set_mem mm (set_blocks b (calls s) s)) ∧
    l ≡ₚ elements (dom b) ∧ dom b ⊆ dom (blocks s) ∧
    u64 (mm + (if huge_mem_ctrl m =? 0 then 0 else PAGE_SIZE)) = u64 (mem_allocated s).
Proof.
  intros Hl. destruct (Z.eqb_spec (huge_mem_ctrl m) 0) as [E|E]; branch.
  - exists (blocks s), (mem_allocated s). split; [by destruct s|]. by rewrite Z.add_0_r.
  - destruct (FREE_spec _ _ _ E Hl) as (b & Hf & Hb & Hs). unfold when.
    rewrite (bind_Some _ _ _ _ _ Hf). eexists b, _. split; [reflexivity|]. split; [done|].
    split; [done|]. fields. unfold wrap. rewrite Zplus_mod_idemp_l. f_equal. lia.
Qed.

(** Take the slab [k] off the hash. *)
Lemma del_hash_spec s own ch pl k m s1 :
  wf s own ch pl → kmems s !! k = Some m →
  kmems s1 = kmems s → hlinks s1 = hlinks s → g_slab_list s1 = g_slab_list s →
  ∃ hl g as_ bs, del_slab_from_hash k s1 = Some ((), set_hash hl g s1) ∧
    ch (get_key (phy_addr m)) = as_ ++ k :: bs ∧ dom hl = dom (hlinks s) ∧
    ∀ key, is_list hl (default empty (g !! key))
      (fupd ch (get_key (phy_addr m)) (as_ ++ bs) key).
Proof.
  intros W Hk E1 E2 E3. set (key := get_key (phy_addr m)).
  assert (k ∈ ch key) as (as_ & bs & Hc)%list_elem_of_split by (apply (wf_hash _ _ _ _ W); eauto).
  pose proof (wf_chain _ _ _ _ W key) as Hl. rewrite Hc in Hl.
  destruct (remove_spec _ _ _ _ _ Hl) as (ls & d & Hr & Hl' & Hf & Hdom).
  exists ls, (<[key := d]> (g_slab_list s1)), as_, bs.
  unfold del_slab_from_hash, kmem_at, chain. steps. rewrite E1, Hk. steps. fold key.
  rewrite <- E2, <- E3 in Hr. rewrite Hr. steps. split; [reflexivity|]. split; [done|]. split; [done|].
  intros key'. rewrite E3. destruct (decide (key' = key)) as [->|Hne].
  - by rewrite fupd_eq, lookup_insert_eq.
  - rewrite fupd_ne, lookup_insert_ne by done.
    eapply is_list_frame; [|apply (wf_chain _ _ _ _ W)]. intros x Hx. apply Hf. intros Hin.
    assert (x ∈ ch key) as Hx' by (rewrite Hc; clear - Hin; set_solver).
    apply (wf_hash _ _ _ _ W) in Hx as (? & ? & ?), Hx' as (? & ? & ?). congruence.
Qed.

(** What taking the slab [k] of process [p] away leaves is well formed. *)
Lemma wf_remove s s' own ch pl p k m l xs ys as_ bs ls hl d :
  wf s own ch pl → procs s !! p = Some l → own p = xs ++ k :: ys → kmems s !! k = Some m →
  ch (get_key (phy_addr m)) = as_ ++ k :: bs →
  is_list ls d (xs ++ ys) → (∀ y, y ∉ xs ++ ys → ls !! y = klinks s !! y) → dom ls = dom (klinks s) →
  dom hl = dom (hlinks s) →
  (∀ key, is_list hl (default empty (g_slab_list s' !! key))
     (fupd ch (get_key (phy_addr m)) (as_ ++ bs) key)) →
  kmems s' = delete k (kmems s) → klinks s' = delete k ls → hlinks s' = delete k hl →
  procs s' = <[p := Proc (pid l) (u64 (allocs_nr l - 1)) (hugepages_nr l) d]> (procs s) →
  plinks s' = plinks s → mem_dev_numa s' = mem_dev_numa s → private_data s' = private_data s →
  owned s' ≡ₚ elements (dom (blocks s')) → dom (blocks s') ⊆ dom (blocks s) →
  mem_allocated s' = u64 (total (kmems s')) →
  wf s' (fupd own p (xs ++ ys)) (fupd ch (get_key (phy_addr m)) (as_ ++ bs)) pl.
Proof.
  intros W Hp Ho Hk Hc Hl Hf Hdk Hdh Hch Ekm Ekl Ehl Epr Epl Emd Epd Hb Hsub Hmem.
  destruct (wf_own _ _ _ _ W p l Hp) as [Hlo Ha].
  assert (NoDup (own p)) as Hnd by apply Hlo. rewrite Ho in Hnd.
  apply NoDup_app in Hnd as (_ & Hkx & [Hky _]%NoDup_cons).
  assert (k ∉ xs ++ ys) as Hkn.
  { intros [Hin|Hin]%elem_of_app; [by apply (Hkx k Hin), list_elem_of_here|done]. }
  assert (∀ q j, j ∈ fupd own p (xs ++ ys) q ↔ j ∈ own q ∧ j ≠ k) as Hown.
  { intros q j. destruct (decide (q = p)) as [->|Hq].
    - rewrite fupd_eq, Ho, !elem_of_app, elem_of_cons. split; [|naive_solver].
      intros Hin. split; [naive_solver|]. intros ->. by apply Hkn, elem_of_app.
    - rewrite fupd_ne by done. split; [|naive_solver]. intros Hin. split; [done|].
      intros ->. apply Hq. apply (wf_disj _ _ _ _ W q p k); [done|]. rewrite Ho. set_solver. }
  assert (∀ q, k ∉ fupd own p (xs ++ ys) q) as Hkq by (intros q Hin; by apply Hown in Hin as [_ ?]).
  assert (NoDup (as_ ++ k :: bs)) as Hndc by (rewrite <- Hc; apply (wf_chain _ _ _ _ W)).
  apply NoDup_app in Hndc as (_ & Hka & [Hkb _]%NoDup_cons).
  assert (∀ key j, j ∈ fupd ch (get_key (phy_addr m)) (as_ ++ bs) key ↔ j ∈ ch key ∧ j ≠ k) as Hcho.
  { intros key j. destruct (decide (key = get_key (phy_addr m))) as [->|Hq].
    - rewrite fupd_eq, Hc, !elem_of_app, elem_of_cons. split; [|naive_solver].
      intros Hin. split; [naive_solver|]. intros ->.
      destruct Hin as [Hin|Hin]; [by apply (Hka k Hin), list_elem_of_here|done].
    - rewrite fupd_ne by done. split; [|naive_solver]. intros Hin. split; [done|].
      intros ->. apply Hq. apply (wf_hash _ _ _ _ W) in Hin as (m' & Hm' & <-). congruence. }
  assert (dom (procs s') = dom (procs s)) as Hdp
    by (rewrite Epr, dom_insert_lookup_L; [done|by eexists]).
  assert (∀ q, is_Some (procs s' !! q) ↔ is_Some (procs s !! q)) as Hpq
    by (intros q; by rewrite <- !elem_of_dom, Hdp).
  split.
  - intros q lq. rewrite Epr. destruct (decide (q = p)) as [->|Hq].
    + rewrite lookup_insert_eq, fupd_eq. intros [= <-]. cbn [slabs allocs_nr]. split.
      * eapply is_list_frame, Hl. intros x Hx. rewrite Ekl. apply lookup_delete_ne. by intros ->.
      * rewrite Ha, Ho, !length_app. cbn [length]. unfold wrap. rewrite Zminus_mod_idemp_l. f_equal.
        lia.
    + rewrite lookup_insert_ne, fupd_ne by done. intros Hq'.
      destruct (wf_own _ _ _ _ W q lq Hq') as [Hlq Haq]. split; [|done].
      eapply is_list_frame, Hlq. intros x Hx. rewrite Ekl, lookup_delete_ne.
      * apply Hf. intros Hin. apply Hq. apply (wf_disj _ _ _ _ W q p x); [done|].
        rewrite Ho. set_solver.
      * intros <-. apply (Hkq q). by rewrite fupd_ne.
  - intros q j [Hj _]%Hown. apply Hpq. by eapply (wf_own_proc _ _ _ _ W).
  - intros j. rewrite Ekm, lookup_delete_is_Some, (wf_slab _ _ _ _ W). setoid_rewrite Hown. naive_solver.
  - intros q r j [H1 _]%Hown [H2 _]%Hown. by eapply (wf_disj _ _ _ _ W).
  - intros key. eapply is_list_frame, Hch. intros x Hx. rewrite Ehl. apply lookup_delete_ne.
    intros <-. by apply Hcho in Hx as [_ ?].
  - intros key j. rewrite Hcho, (wf_hash _ _ _ _ W), Ekm. setoid_rewrite lookup_delete_Some. naive_solver.
  - rewrite Ekl, Ekm, !dom_delete_L, Hdk. by rewrite (wf_klinks _ _ _ _ W).
  - rewrite Ehl, Ekm, !dom_delete_L, Hdh. by rewrite (wf_hlinks _ _ _ _ W).
  - intros j j' a b. rewrite Ekm. intros [_ Hj]%lookup_delete_Some [_ Hj']%lookup_delete_Some.
    by apply (wf_phys _ _ _ _ W).
  - intros j mj. rewrite Ekm. intros [_ Hj]%lookup_delete_Some. by eapply (wf_map _ _ _ _ W).
  - done.
  - intros H0. apply (wf_null _ _ _ _ W). set_solver.
  - intros j mj. rewrite Ekm. intros [_ Hj]%lookup_delete_Some. by eapply (wf_ptr _ _ _ _ W).
  - done.
  - rewrite Epl, Emd. apply (wf_procs _ _ _ _ W).
  - intros q. rewrite Hpq. apply (wf_proc _ _ _ _ W).
  - rewrite Epl, Hdp. apply (wf_plinks _ _ _ _ W).
  - intros q. rewrite Hpq, Epd. apply (wf_files _ _ _ _ W).
  - rewrite Epd. apply (wf_private _ _ _ _ W).
  - rewrite Epd. apply (wf_file0 _ _ _ _ W).
Qed.

Lemma free_slab_spec s own ch pl p l k m xs ys :
  wf s own ch pl → procs s !! p = Some l → own p = xs ++ k :: ys → kmems s !! k = Some m →
  ∃ s' ch' d, free_slab p k s = Some ((), s') ∧ wf s' (fupd own p (xs ++ ys)) ch' pl ∧
    kmems s' = delete k (kmems s) ∧
    procs s' = <[p := Proc (pid l) (u64 (allocs_nr l - 1)) (hugepages_nr l) d]> (procs s) ∧
    private_data s' = private_data s ∧ max_huge_pages s' = max_huge_pages s ∧
    mem_dev_numa s' = mem_dev_numa s ∧ calls s' = calls s.
Proof.
  intros W Hp Ho Hk.
  destruct (wf_own _ _ _ _ W p l Hp) as [Hl Ha]. rewrite Ho in Hl, Ha.
  destruct (remove_spec _ _ _ _ _ Hl) as (ls & d & Hr & Hl' & Hf & Hdom).
  unfold free_slab, kmem_at, proc_at, put_proc. steps. rewrite Hk. steps.
  rewrite Hp. steps. rewrite Hr. steps.
  match goal with |- context [bind (del_slab_from_hash k) _ ?x] => set (s1 := x) end.
  destruct (del_hash_spec s own ch pl k m s1 W Hk) as (hl & g & as_ & bs & Hd & Hc & Hdh & Hch);
    [done..|].
  rewrite (bind_Some _ _ _ _ _ Hd).
  pose proof (wf_mem _ _ _ _ W) as Hmem.
  pose proof (wf_blocks _ _ _ _ W) as Hb. rewrite (owned_delete s k m Hk) in Hb.
  destruct (free_ctrl_spec (set_hash hl g s1) m (kmalloc_ptr m :: k :: owned (set_kmems (delete k (kmems s)) s)))
    as (b1 & mm & H1 & Hb1 & Hsub1 & Hmm).
  { etransitivity; [apply owned_of_perm|exact Hb]. }
  rewrite (bind_Some _ _ _ _ _ H1).
  destruct (FREE_spec (kmalloc_ptr m) _ (set_mem mm (set_blocks b1 (calls (set_hash hl g s1)) (set_hash hl g s1)))
    (wf_ptr _ _ _ _ W k m Hk) Hb1) as (b2 & H2 & Hb2 & Hsub2).
  rewrite (bind_Some _ _ _ _ _ H2). fields.
  destruct (is_list_elem _ _ _ k Hl ltac:(set_solver)) as [Hk0 _].
  match goal with |- context [bind (FREE k) _ ?x] => destruct (FREE_spec k _ x Hk0 Hb2) as (b3 & H3 & Hb3 & Hsub3) end.
  rewrite (bind_Some _ _ _ _ _ H3). unfold account. subst s1. steps. rewrite lookup_insert_eq. steps.
  unfold modify at 1. fields. rewrite insert_insert_eq.
  eexists _, (fupd ch (get_key (phy_addr m)) (as_ ++ bs)), d.
  split; [reflexivity|]. split; [|by fields].
  eapply wf_remove; fields; try done.
  - rewrite <- Hb3. unfold owned. fields. by rewrite dom_insert_lookup_L.
  - set_solver.
  - rewrite Hmem in Hmm. rewrite wrap_wrap in Hmm by done. unfold total in *. rewrite (map_sum_delete _ _ _ _ Hk) in Hmm.
    apply (wrap_sub _ _ _ (footprint m)) in Hmm.
    etransitivity; [etransitivity; [|exact Hmm]|]; f_equal; [unfold footprint|]; lia.
Qed.

(** What adding the slab [k], with its memory, to process [p] leaves. *)
Lemma wf_add s s' own ch pl p k m l ls hl d :
  wf s own ch pl → procs s !! p = Some l → k ∉ dom (blocks s) →
  (∀ j a, kmems s !! j = Some a → phy_addr a ≠ phy_addr m) →
  (∃ n, iommu_map n (kmalloc_ptr m) = Some (phy_addr m)) → kmalloc_ptr m ≠ 0 →
  is_list ls d (own p ++ [k]) → (∀ y, y ∉ k :: own p → ls !! y = klinks s !! y) →
  dom ls = {[k]} ∪ dom (klinks s) → dom hl = {[k]} ∪ dom (hlinks s) →
  (∀ key, is_list hl (default empty (g_slab_list s' !! key))
     (fupd ch (get_key (phy_addr m)) (k :: ch (get_key (phy_addr m))) key)) →
  kmems s' = <[k := m]> (kmems s) → klinks s' = ls → hlinks s' = hl →
  procs s' = <[p := Proc (pid l) (u64 (allocs_nr l + 1)) (hugepages_nr l) d]> (procs s) →
  plinks s' = plinks s → mem_dev_numa s' = mem_dev_numa s → private_data s' = private_data s →
  owned s' ≡ₚ elements (dom (blocks s')) → 0 ∉ dom (blocks s') →
  mem_allocated s' = u64 (total (kmems s')) →
  wf s' (fupd own p (own p ++ [k])) (fupd ch (get_key (phy_addr m)) (k :: ch (get_key (phy_addr m)))) pl.
Proof.
  intros W Hp Hk Hphys Hmap Hptr Hl Hf Hdk Hdh Hch Ekm Ekl Ehl Epr Epl Emd Epd Hb Hnull Hmem.
  destruct (wf_own _ _ _ _ W p l Hp) as [Hlo Ha].
  assert (kmems s !! k = None) as Hkm.
  { apply eq_None_not_Some. intros [mk Hmk]. apply Hk, elem_of_elements.
    rewrite <- (wf_blocks _ _ _ _ W), (owned_delete s k mk Hmk). left. }
  assert (∀ q, k ∉ own q) as Hkq.
  { intros q Hin. assert (is_Some (kmems s !! k)) as [? ?] by (apply (wf_slab _ _ _ _ W); eauto). congruence. }
  assert (∀ q j, j ∈ fupd own p (own p ++ [k]) q ↔ j ∈ own q ∨ (j = k ∧ q = p)) as Hown.
  { intros q j. destruct (decide (q = p)) as [->|Hq].
    - rewrite fupd_eq, elem_of_app, list_elem_of_singleton. naive_solver.
    - rewrite fupd_ne by done. naive_solver. }
  assert (∀ key j, j ∈ fupd ch (get_key (phy_addr m)) (k :: ch (get_key (phy_addr m))) key ↔
    j ∈ ch key ∨ (j = k ∧ key = get_key (phy_addr m))) as Hcho.
  { intros key j. destruct (decide (key = get_key (phy_addr m))) as [->|Hq].
    - rewrite fupd_eq, elem_of_cons. naive_solver.
    - rewrite fupd_ne by done. naive_solver. }
  assert (dom (procs s') = dom (procs s)) as Hdp
    by (rewrite Epr, dom_insert_lookup_L; [done|by eexists]).
  assert (∀ q, is_Some (procs s' !! q) ↔ is_Some (procs s !! q)) as Hpq
    by (intros q; by rewrite <- !elem_of_dom, Hdp).
  split.
  - intros q lq. rewrite Epr, Ekl. destruct (decide (q = p)) as [->|Hq].
    + rewrite lookup_insert_eq, fupd_eq. intros [= <-]. cbn [slabs allocs_nr]. split; [done|].
      rewrite Ha, length_app. cbn [length]. unfold wrap. rewrite Zplus_mod_idemp_l. f_equal. lia.
    + rewrite lookup_insert_ne, fupd_ne by done. intros Hq'.
      destruct (wf_own _ _ _ _ W q lq Hq') as [Hlq Haq]. split; [|done].
      eapply is_list_frame, Hlq. intros x Hx. apply Hf.
      intros [->|Hin]%elem_of_cons; [by apply (Hkq q)|]. apply Hq. by apply (wf_disj _ _ _ _ W q p x).
  - intros q j [Hj|[-> ->]]%Hown; apply Hpq; [by eapply (wf_own_proc _ _ _ _ W)|eauto].
  - intros j. rewrite Ekm, lookup_insert_is_Some', (wf_slab _ _ _ _ W). setoid_rewrite Hown. naive_solver.
  - intros q r j [H1|[-> ->]]%Hown [H2|[? ->]]%Hown; subst; try done; try by (exfalso; eapply Hkq).
    by eapply (wf_disj _ _ _ _ W).
  - intros key. rewrite Ehl. apply Hch.
  - intros key j. rewrite Hcho, (wf_hash _ _ _ _ W), Ekm. setoid_rewrite lookup_insert_Some.
    split; [|naive_solver]. intros [(mj & Hmj & He)|[-> ->]]; [|eauto].
    exists mj. split; [|done]. right. split; [congruence|done].
  - rewrite Ekl, Ekm, dom_insert_L, Hdk. by rewrite (wf_klinks _ _ _ _ W).
  - rewrite Ehl, Ekm, dom_insert_L, Hdh. by rewrite (wf_hlinks _ _ _ _ W).
  - intros j j' a b. rewrite Ekm.
    intros [[<- <-]|[? Hj]]%lookup_insert_Some [[<- <-]|[? Hj']]%lookup_insert_Some; [done| | |].
    + intros He. by destruct (Hphys _ _ Hj').
    + intros He. by destruct (Hphys _ _ Hj).
    + by apply (wf_phys _ _ _ _ W).
  - intros j mj. rewrite Ekm. intros [[<- <-]|[? Hj]]%lookup_insert_Some; [done|].
    by eapply (wf_map _ _ _ _ W).
  - done.
  - done.
  - intros j mj. rewrite Ekm. intros [[<- <-]|[? Hj]]%lookup_insert_Some; [done|].
    by eapply (wf_ptr _ _ _ _ W).
  - done.
  - rewrite Epl, Emd. apply (wf_procs _ _ _ _ W).
  - intros q. rewrite Hpq. apply (wf_proc _ _ _ _ W).
  - rewrite Epl, Hdp. apply (wf_plinks _ _ _ _ W).
  - intros q. rewrite Hpq, Epd. apply (wf_files _ _ _ _ W).
  - rewrite Epd. apply (wf_private _ _ _ _ W).
  - rewrite Epd. apply (wf_file0 _ _ _ _ W).
Qed.

End invariant.

End UsdmKernel.
