(* ===== verification/UsdmKernelInv.v ===== *)
(** * The kernel side of the memory driver: the clients' view

    What the calls of [UsdmKernel] do in a well-formed state, and what any
    number of processes that use them can rely on: no call faults, every slab
    stays with the process it was given to, the memory limit is kept, and
    closing the files gives everything back. *)

From S2P Require Import Prelude DList UsdmKernel.
Import DList UsdmKernel.

#[local] Open Scope Z_scope.
#[local] Open Scope qat_scope.

Module UsdmKernelInv.

(** ** Allocation *)

Section spec.
Context (alloc : nat → Z → gmap Z Z → option Z).
Context (iommu_map : nat → Z → option Z) (remapping_size : Z → Z).
Context (node_online : Z → bool) (MAX_NUMNODES : Z).
Context (max_mem_numa max_huge_pages_per_process : Z).

(** The allocator hands out blocks that are not in use, of less than 2^62
    bytes; the IOMMU never maps two addresses to one. *)
Definition alloc_ok : Prop := ∀ n sz b a,
  alloc n sz b = Some a → a ≠ 0 ∧ b !! a = None ∧ 0 < sz < 2 ^ 62.
Definition map_ok : Prop := ∀ n m a b p,
  iommu_map n a = Some p → iommu_map m b = Some p → a = b.
Hypothesis Halloc : alloc_ok.
Hypothesis Hmap : map_ok.

Notation kmalloc := (kmalloc alloc).
Notation large_memory_branch := (large_memory_branch alloc max_mem_numa).
Notation small_memory_branch := (small_memory_branch alloc max_mem_numa).
Notation userMemAlloc :=
  (userMemAlloc alloc iommu_map remapping_size node_online MAX_NUMNODES max_mem_numa).
Notation wf := (wf iommu_map).

Lemma kmalloc_spec sz s :
  kmalloc sz s = Some (0, set_blocks (blocks s) (S (calls s)) s) ∨
  ∃ a, a ≠ 0 ∧ blocks s !! a = None ∧ 0 < sz < 2 ^ 62 ∧
    kmalloc sz s = Some (a, set_blocks (<[a := sz]> (blocks s)) (S (calls s)) s).
Proof.
  unfold UsdmKernel.kmalloc. steps. destruct (alloc _ _ _) as [a|] eqn:E; steps; [right|by left].
  apply Halloc in E as (? & ? & ?). by exists a.
Qed.

(** A block that was just allocated can be given back. *)
Lemma FREE_fresh a v b n s :
  a ≠ 0 → b !! a = None → FREE a (set_blocks (<[a := v]> b) n s) = Some ((), set_blocks b n s).
Proof.
  intros Ha Hb. unfold FREE. rewrite (proj2 (Z.eqb_neq _ _)) by done. steps.
  rewrite lookup_insert_eq. steps. unfold modify. fields. by rewrite delete_insert_id.
Qed.

Ltac free_fresh := erewrite bind_Some by (apply FREE_fresh; done).

Lemma FREE_null s : FREE 0 s = Some ((), s).
Proof. done. Qed.

(** What a branch on [large_memory] returns: nothing, with nothing changed but
    the number of allocator calls, or the slab's blocks, charged for. *)
Definition acquired (charge : Z) (large : bool) (s s' : state) (r : option (Z * (Z * Z))) : Prop :=
  match r with
  | None => ∃ n, s' = set_blocks (blocks s) n s
  | Some (kmem, (ptr, ctrl)) =>
    ∃ b n, s' = set_mem (u64 (mem_allocated s + charge)) (set_blocks b n s) ∧
      kmem ≠ 0 ∧ ptr ≠ 0 ∧ (ctrl ≠ 0 ↔ large = true) ∧ 0 < charge - (if large then PAGE_SIZE else 0) < 2 ^ 62 ∧
      elements (dom b) ≡ₚ
        (if large then [ctrl; kmem; ptr] else [kmem; ptr]) ++ elements (dom (blocks s)) ∧
      (max_mem_numa = 0 ∨
       DIV_ROUND_UP (u64 (mem_allocated s + (charge - if large then PAGE_SIZE else 0))) QAE_KBYTE
         + (if large then 4 else 0) <= max_mem_numa)
  end.

Lemma limit_spec x : negb (max_mem_numa =? 0) && (max_mem_numa <? x) = false →
  max_mem_numa = 0 ∨ x <= max_mem_numa.
Proof. destruct (Z.eqb_spec max_mem_numa 0), (Z.ltb_spec max_mem_numa x); naive_solver lia. Qed.

Ltac alloc_step sz :=
  match goal with |- context [bind (UsdmKernel.kmalloc alloc sz) _ ?x] =>
    let H := fresh "H" in let a := fresh "a" in
    destruct (kmalloc_spec sz x) as [H|(a & ? & ? & ? & H)];
    rewrite (bind_Some _ _ _ _ _ H); fields; clear H;
    [change (0 =? 0) with true; branch|rewrite ?(proj2 (Z.eqb_neq a 0)) by done; branch]
  end.

Lemma large_branch_spec sz s :
  ∃ r s', large_memory_branch sz s = Some (r, s') ∧ acquired (sz + PAGE_SIZE) true s s' r.
Proof.
  unfold UsdmKernel.large_memory_branch. steps.
  destruct (negb (max_mem_numa =? 0) && _) eqn:E.
  { eexists _, _. split; [done|]. exists (calls s). by destruct s. }
  alloc_step PAGE_SIZE.
  { eexists _, _. split; [done|]. by eexists. }
  alloc_step sizeof_kdev_mem_info.
  { free_fresh.
    eexists _, _. split; [done|]. by eexists. }
  alloc_step sz.
  { cbn [orb]. rewrite (bind_Some _ _ _ _ _ (FREE_null _)).
    free_fresh.
    free_fresh.
    eexists _, _. split; [done|]. by eexists. }
  cbn [orb]. destruct (negb (IS_PAGE_ALIGNED _)).
  { do 3 free_fresh.
    eexists _, _. split; [done|]. by eexists. }
  unfold account. steps. eexists _, _. split; [reflexivity|].
  eexists _, _. split; [reflexivity|]. split_and!; try done.
  - unfold PAGE_SIZE. lia.
  - unfold PAGE_SIZE. lia.
  - rewrite !elements_dom_insert by done. cbn [app]. solve_Permutation.
  - apply limit_spec in E as [?|E]; [by left|right].
    replace (sz + PAGE_SIZE - PAGE_SIZE) with sz by lia.
    unfold DIV_ROUND_UP in E |- *. change (PAGE_SIZE / QAE_KBYTE) with 4 in E.
    rewrite (wrap_small 64 (_ / _ + 4)) in E; [done|]. pose proof (wrap_range 64 (u64 (mem_allocated s + sz) + QAE_KBYTE - 1) ltac:(done)).
    unfold QAE_KBYTE in *. split; [apply Z.add_nonneg_nonneg; [apply Z.div_pos; lia|lia]|].
    apply Z.lt_le_trans with (2 ^ 54 + 4); [|done]. apply Z.add_lt_mono_r, Z.div_lt_upper_bound; lia.
Qed.

Lemma small_branch_spec sz s :
  sizeof_block_ctrl <= sz →
  ∃ r s', small_memory_branch sz s = Some (r, s') ∧ acquired sz false s s' r.
Proof.
  intros Hsz. unfold UsdmKernel.small_memory_branch. steps.
  destruct (negb (max_mem_numa =? 0) && _) eqn:E.
  { eexists _, _. split; [done|]. exists (calls s). by destruct s. }
  alloc_step sz.
  { cbn [orb]. rewrite (bind_Some _ _ _ _ _ (FREE_null _)). eexists _, _. split; [done|]. by eexists. }
  cbn [orb]. destruct (negb (IS_PAGE_ALIGNED _)).
  { free_fresh.
    eexists _, _. split; [done|]. by eexists. }
  alloc_step sizeof_kdev_mem_info.
  { free_fresh.
    eexists _, _. split; [done|]. by eexists. }
  rewrite (proj2 (Z.ltb_ge _ _)) by done.
  unfold account. steps. eexists _, _. split; [reflexivity|].
  eexists _, _. split; [reflexivity|]. split_and!; try done; try lia.
  - rewrite !elements_dom_insert by done. done.
  - apply limit_spec in E as [?|E]; [by left|right]. by rewrite Z.sub_0_r, Z.add_0_r.
Qed.

Lemma add_hash_spec s own ch pl k m s1 :
  wf s own ch pl → kmems s !! k = None → k ≠ 0 →
  kmems s1 !! k = Some m → hlinks s1 = <[k := Link 0 0]> (hlinks s) → g_slab_list s1 = g_slab_list s →
  ∃ hl g, add_slab_to_hash k s1 = Some ((), set_hash hl g s1) ∧ dom hl = {[k]} ∪ dom (hlinks s) ∧
    ∀ key, is_list hl (default empty (g !! key))
      (fupd ch (get_key (phy_addr m)) (k :: ch (get_key (phy_addr m))) key).
Proof.
  intros W Hk Hk0 E1 E2 E3. set (key := get_key (phy_addr m)).
  assert (∀ key', k ∉ ch key') as Hkc.
  { intros key' Hin. apply (wf_hash _ _ _ _ _ W) in Hin as (? & ? & _). congruence. }
  assert (∀ key', is_list (hlinks s1) (default empty (g_slab_list s !! key')) (ch key')) as Hch.
  { intros key'. eapply is_list_frame, (wf_chain _ _ _ _ _ W). intros x Hx. rewrite E2.
    apply lookup_insert_ne. intros ->. by apply (Hkc key'). }
  destruct (add_head_spec k _ _ _ (Hch key)) as (ls & d & Hr & Hl & Hf & Hdom); [done|done| |].
  { rewrite E2, lookup_insert_eq. eauto. }
  exists ls, (<[key := d]> (g_slab_list s1)).
  unfold add_slab_to_hash, kmem_at, chain. steps. rewrite E1. steps. fold key.
  rewrite <- E3 in Hr. rewrite Hr. steps. split; [reflexivity|].
  split; [by rewrite Hdom, E2, dom_insert_L|]. intros key'. rewrite E3.
  destruct (decide (key' = key)) as [->|Hne].
  - by rewrite fupd_eq, lookup_insert_eq.
  - rewrite fupd_ne, lookup_insert_ne by done. eapply is_list_frame, Hch.
    intros x Hx. apply Hf. intros [->|Hin]%elem_of_cons; [by apply (Hkc key')|].
    apply (wf_hash _ _ _ _ _ W) in Hx as (? & ? & ?), Hin as (? & ? & ?). congruence.
Qed.

Lemma owned_block s own ch pl a : wf s own ch pl → a ∈ owned s → a ∈ dom (blocks s) ∧ a ≠ 0.
Proof.
  intros W Ha. assert (a ∈ dom (blocks s)) by (apply elem_of_elements; by rewrite <- (wf_blocks _ _ _ _ _ W)).
  split; [done|]. intros ->. by apply (wf_null _ _ _ _ _ W).
Qed.

(** An open file has a process list. *)
Lemma private_spec s own ch pl fp p :
  wf s own ch pl → private_data s !! fp = Some p → fp ≠ 0 →
  p ≠ 0 ∧ (∃ l, procs s !! p = Some l) ∧ private fp s = Some (p, s).
Proof.
  intros W Hp Hfp. assert (is_Some (procs s !! p)) as [l Hl] by (apply (wf_files _ _ _ _ _ W); eauto).
  split; [|split; [eauto|]].
  - eapply owned_block; [done|]. unfold owned. apply elem_of_app. right.
    apply elem_of_elements, elem_of_dom. eauto.
  - unfold private. steps. by rewrite Hp.
Qed.

(** Another address, another physical address. *)
Lemma fresh_phys s own ch pl ptr n phys :
  wf s own ch pl → ptr ∉ dom (blocks s) → iommu_map n ptr = Some phys →
  ∀ j a, kmems s !! j = Some a → phy_addr a ≠ phys.
Proof.
  intros W Hptr Hm j a Hj <-. destruct (wf_map _ _ _ _ _ W j a Hj) as [n' Hn'].
  pose proof (Hmap _ _ _ _ _ Hn' Hm) as <-. apply Hptr. eapply owned_block; [done|].
  rewrite (owned_delete s j a Hj). unfold owned_of. set_solver.
Qed.

(** The state [s'] is [s] but for the allocator's bookkeeping. *)
Definition same (s s' : state) : Prop :=
  ∃ b n, s' = set_blocks b n s ∧ dom b = dom (blocks s).

Lemma same_refl s : same s s.
Proof. exists (blocks s), (calls s). by destruct s. Qed.

Lemma wf_same s s' own ch pl : wf s own ch pl → same s s' → wf s' own ch pl.
Proof.
  intros [] (b & n & -> & Hb). split; try done.
  - unfold owned in *. fields. by rewrite Hb.
  - fields. by rewrite Hb.
Qed.

(** The IOMMU refuses: everything is given back. *)
Lemma undo_acquired sz (large : bool) s own ch pl kmem ptr ctrl s1 :
  wf s own ch pl →
  acquired (if large then sz + PAGE_SIZE else sz) large s s1 (Some (kmem, (ptr, ctrl))) →
  ∃ s2, (when large (FREE ctrl ;; account (- PAGE_SIZE)) ;;
     FREE ptr ;; FREE kmem ;; account (- sz) ;; ret (@None dev_mem_info)) s1 = Some (None, s2) ∧ same s s2.
Proof.
  intros W (b & n & -> & Hk & Hp & Hc & _ & Hb & _).
  assert (u64 (mem_allocated s) = mem_allocated s) as Hm.
  { rewrite (wf_mem _ _ _ _ _ W) at 1. by rewrite wrap_wrap, <- (wf_mem _ _ _ _ _ W). }
  assert (∃ b1 mm, when large (FREE ctrl ;; account (- PAGE_SIZE))
      (set_mem (u64 (mem_allocated s + (if large then sz + PAGE_SIZE else sz))) (set_blocks b n s)) =
      Some ((), set_mem mm (set_blocks b1 n s)) ∧
    [kmem; ptr] ++ elements (dom (blocks s)) ≡ₚ elements (dom b1) ∧ u64 (mm - sz) = mem_allocated s)
    as (b1 & mm & H1 & Hb1 & Hmm).
  { destruct large.
    - pose proof (proj2 Hc eq_refl) as Hc0. symmetry in Hb. cbn [app] in Hb.
      destruct (FREE_spec _ _ (set_mem (u64 (mem_allocated s + (sz + PAGE_SIZE))) (set_blocks b n s)) Hc0 Hb)
        as (b1 & Hf & Hb1 & _).
      unfold when. rewrite (bind_Some _ _ _ _ _ Hf). eexists _, _. split; [reflexivity|].
      split; [done|]. transitivity (u64 (mem_allocated s)); [fields|exact Hm].
      rewrite (wrap_sub 64 _ _ sz (wrap_wrap 64 _ ltac:(done))), Z.add_opp_r, <- Z.sub_add_distr.
      rewrite (wrap_sub 64 _ _ _ (wrap_wrap 64 _ ltac:(done))). f_equal. lia.
    - exists b, (u64 (mem_allocated s + sz)). split; [done|]. split; [by symmetry|].
      transitivity (u64 (mem_allocated s)); [|exact Hm].
      rewrite (wrap_sub 64 _ _ _ (wrap_wrap 64 _ ltac:(done))). f_equal. lia. }
  rewrite (bind_Some _ _ _ _ _ H1).
  assert (ptr :: kmem :: elements (dom (blocks s)) ≡ₚ elements (dom b1)) as Hb1'
    by (rewrite <- Hb1; solve_Permutation).
  destruct (FREE_spec _ _ (set_mem mm (set_blocks b1 n s)) Hp Hb1') as (b2 & H2 & Hb2 & _).
  rewrite (bind_Some _ _ _ _ _ H2). fields.
  match goal with |- context [bind (FREE kmem) _ ?x] =>
    destruct (FREE_spec _ _ x Hk Hb2) as (b3 & H3 & Hb3 & _) end.
  rewrite (bind_Some _ _ _ _ _ H3). unfold account. steps. eexists. split; [reflexivity|].
  exists b3, n. split.
  - unfold set_mem, set_blocks. fields. rewrite Z.add_opp_r, Hmm. by destruct s.
  - apply set_eq. intros x. by rewrite <- !elem_of_elements, Hb3.
Qed.

(** What a successful [userMemAlloc] for process [p] changes. *)
Record allocated (s s' : state) (own : Z → list Z) (p sz node large : Z) (info : dev_mem_info) : Prop := {
  al_slab : ∃ k m, kmems s !! k = None ∧ kmems s' = <[k := m]> (kmems s) ∧
    info = MemInfo (pick_node node_online MAX_NUMNODES node) (size m) large (phy_addr m) ∧
    size m = remapping_size sz ∧ 0 < size m < 2 ^ 62 ∧ (huge_mem_ctrl m ≠ 0 ↔ large ≠ 0) ∧
    (∀ j a, kmems s !! j = Some a → phy_addr a ≠ phy_addr m) ∧
    (∃ ch pl, wf s' (fupd own p (own p ++ [k])) ch pl) ∧
    (max_mem_numa = 0 ∨
      DIV_ROUND_UP (u64 (mem_allocated s + size m)) QAE_KBYTE + (if large =? 0 then 0 else 4) <= max_mem_numa);
  al_procs : ∃ l d, procs s !! p = Some l ∧
    procs s' = <[p := Proc (pid l) (u64 (allocs_nr l + 1)) (hugepages_nr l) d]> (procs s);
  al_private : private_data s' = private_data s;
  al_huge : max_huge_pages s' = max_huge_pages s;
}.

Lemma publish_spec s own ch pl p sz node (large : bool) kmem ptr ctrl s1 phys n0 :
  wf s own ch pl → is_Some (procs s !! p) →
  acquired (if large then sz + PAGE_SIZE else sz) large s s1 (Some (kmem, (ptr, ctrl))) →
  iommu_map n0 ptr = Some phys →
  ∃ s' l d ch', (modify (λ s, set_kmems (<[kmem := Kmem ptr ctrl sz phys]> (kmems s)) s) ;;
     modify (λ s, set_klinks (<[kmem := Link 0 0]> (klinks s)) s) ;;
     modify (λ s, set_hash (<[kmem := Link 0 0]> (hlinks s)) (g_slab_list s) s) ;;
     l <- proc_at p ;;
     put_proc p (with_allocs (u64 (allocs_nr l + 1)) l) ;;
     l <- proc_at p ;; ls <- gets klinks ;;
     let! (ls, d) := lift (ADD_ELEMENT_TO_END_LIST kmem ls (slabs l)) in
     modify (set_klinks ls) ;; put_proc p (with_slabs d l) ;;
     add_slab_to_hash kmem ;;
     ret (Some (MemInfo node sz (if large then 1 else 0) phys))) s1 =
     Some (Some (MemInfo node sz (if large then 1 else 0) phys), s') ∧
    kmems s !! kmem = None ∧ kmems s' = <[kmem := Kmem ptr ctrl sz phys]> (kmems s) ∧
    wf s' (fupd own p (own p ++ [kmem])) ch' pl ∧ procs s !! p = Some l ∧
    procs s' = <[p := Proc (pid l) (u64 (allocs_nr l + 1)) (hugepages_nr l) d]> (procs s) ∧
    private_data s' = private_data s ∧ max_huge_pages s' = max_huge_pages s ∧
    (∀ j a, kmems s !! j = Some a → phy_addr a ≠ phys).
Proof.
  intros W [l Hl] (b & n & -> & Hk & Hp & Hc & _ & Hb & _) Hm.
  assert (NoDup (elements (dom b))) as Hnd by apply NoDup_elements. rewrite Hb in Hnd.
  assert (kmem ∉ dom (blocks s) ∧ ptr ∉ dom (blocks s)) as [Hkf Hpf].
  { rewrite <- !(elem_of_elements (dom (blocks s))).
    apply NoDup_app in Hnd as (_ & Hd & _). split; apply Hd; destruct large; set_solver. }
  assert (kmems s !! kmem = None) as Hkn.
  { apply eq_None_not_Some. intros [m Hm']. apply Hkf. eapply owned_block; [done|].
    rewrite (owned_delete s kmem m Hm'). unfold owned_of. set_solver. }
  destruct (wf_own _ _ _ _ _ W p l Hl) as [Hlo _].
  assert (∀ q, kmem ∉ own q) as Hko.
  { intros q Hin. assert (is_Some (kmems s !! kmem)) as [? ?] by (apply (wf_slab _ _ _ _ _ W); eauto). congruence. }
  assert (is_list (<[kmem := Link 0 0]> (klinks s)) (slabs l) (own p)) as Hlo'.
  { eapply is_list_frame, Hlo. intros x Hx. apply lookup_insert_ne. intros ->. by apply (Hko p). }
  destruct (add_end_spec kmem _ _ _ Hlo') as (ls & d & Hr & Hl' & Hf & Hdom); [done|done| |].
  { rewrite lookup_insert_eq. eauto. }
  unfold proc_at, put_proc. steps. rewrite Hl. steps. rewrite lookup_insert_eq. steps.
  rewrite Hr. steps. rewrite insert_insert_eq.
  match goal with |- context [bind (add_slab_to_hash kmem) _ ?x] => set (s1 := x) end.
  destruct (add_hash_spec s own ch pl kmem (Kmem ptr ctrl sz phys) s1 W Hkn Hk) as (hl & g & Hh & Hdh & Hch);
    [by apply lookup_insert_eq|done|done|].
  rewrite (bind_Some _ _ _ _ _ Hh). eexists _, l, d, _. split; [reflexivity|].
  pose proof (fresh_phys _ _ _ _ _ _ _ W Hpf Hm) as Hfresh.
  split; [done|]. split; [done|]. split; [|by repeat split].
  assert (∀ x, x ∈ dom b ↔ x ∈ (if large then [ctrl; kmem; ptr] else [kmem; ptr]) ∨ x ∈ dom (blocks s)) as Hdb.
  { intros x. rewrite <- elem_of_elements, Hb, elem_of_app, elem_of_elements. done. }
  assert (footprint (Kmem ptr ctrl sz phys) = if large then sz + PAGE_SIZE else sz) as Hfoot.
  { unfold footprint. fields. destruct large.
    - by rewrite (proj2 (Z.eqb_neq _ _)) by (by apply Hc).
    - rewrite (proj2 (Z.eqb_eq ctrl 0)); [lia|]. destruct (decide (ctrl = 0)); [done|]. by apply Hc in n1. }
  assert ((if ctrl =? 0 then [] else [ctrl]) = if large then [ctrl] else []) as Hctrl.
  { destruct large.
    - by rewrite (proj2 (Z.eqb_neq _ _)) by (by apply Hc).
    - rewrite (proj2 (Z.eqb_eq ctrl 0)); [done|]. destruct (decide (ctrl = 0)); [done|]. by apply Hc in n1. }
  subst s1. apply (wf_add _ s _ own ch pl p kmem (Kmem ptr ctrl sz phys) l ls hl d W Hl Hkf); fields; try done.
  - by exists n0.
  - intros y Hy. rewrite Hf by done. apply lookup_insert_ne. set_solver.
  - by rewrite Hdom, dom_insert_L.
  - unfold owned. fields.
    rewrite map_to_list_insert by done. rewrite bind_cons, dom_insert_lookup_L by eauto.
    rewrite <- app_assoc. unfold owned_of at 1. fields. rewrite Hctrl.
    change ((map_to_list (kmems s) ≫= owned_of) ++ elements (dom (procs s))) with (owned s).
    rewrite (wf_blocks _ _ _ _ _ W), Hb. destruct large; cbn [app]; solve_Permutation.
  - rewrite Hdb. intros [Hin|Hin]; [|by apply (wf_null _ _ _ _ _ W)].
    destruct large; [pose proof (proj2 Hc eq_refl)|]; set_solver.
  - unfold total in *. rewrite map_sum_insert, Hfoot by done. rewrite (wf_mem _ _ _ _ _ W).
    rewrite (wrap_add 64 _ _ _ (wrap_wrap 64 _ ltac:(done))). f_equal. unfold total. lia.
Qed.

Lemma userMemAlloc_spec s own ch pl fp p sz node large :
  wf s own ch pl → private_data s !! fp = Some p → fp ≠ 0 →
  (large = SMALL ∧ sizeof_block_ctrl <= remapping_size sz) ∨ large = LARGE →
  ∃ r s', userMemAlloc fp sz node large s = Some (r, s') ∧
    match r with
    | None => same s s'
    | Some info => allocated s s' own p sz node large info
    end.
Proof.
  intros W Hfp Hfp0 Hlarge. destruct (private_spec _ _ _ _ _ _ W Hfp Hfp0) as (Hp0 & [l Hl] & Hpriv).
  unfold UsdmKernel.userMemAlloc. destruct (_ || _) eqn:E0.
  { eexists _, _. split; [done|]. apply same_refl. }
  clear E0. rewrite (bind_Some _ _ _ _ _ Hpriv), (proj2 (Z.eqb_neq p 0)) by done.
  set (sz' := remapping_size sz) in *. set (node' := pick_node _ _ _).
  assert (∃ big : bool, large = (if big then 1 else 0) ∧ ∃ r s1,
    (if negb (large =? 0) then large_memory_branch sz' else small_memory_branch sz') s = Some (r, s1) ∧
    acquired (if big then sz' + PAGE_SIZE else sz') big s s1 r) as (big & Eb & r & s1 & Hrun & Hacq).
  { destruct Hlarge as [[-> Hsz]| ->]; [exists false|exists true]; split; try done.
    - by apply small_branch_spec.
    - apply large_branch_spec. }
  rewrite (bind_Some _ _ _ _ _ Hrun). destruct r as [(kmem & ptr & ctrl)|].
  2: { eexists _, _. split; [done|]. destruct Hacq as [n ->]. by eexists _, n. }
  steps. destruct (iommu_map (calls s1) ptr) as [phys|] eqn:Em.
  - destruct (publish_spec s own ch pl p sz' node' big kmem ptr ctrl s1 phys (calls s1) W)
      as (s' & l' & d & ch' & Hpub & Hkn & Hkm & W' & Hl' & Hpr & Hpd & Hmh & Hph); [eauto|done|done|].
    exists (Some (MemInfo node' sz' large phys)), s'. rewrite Eb.
    split; [exact Hpub|]. split; [|by exists l', d|done|done].
    destruct Hacq as (b & n & -> & _ & _ & Hc & Hsz & _ & Hlim).
    eexists kmem, _. split; [done|]. split; [exact Hkm|]. cbn [size phy_addr huge_mem_ctrl].
    split; [done|]. split; [done|]. split; [destruct big; lia|]. split; [destruct big; naive_solver|].
    split; [done|]. split; [by eexists _, _|].
    destruct Hlim as [?|Hlim]; [by left|right]. destruct big; [|by rewrite Z.sub_0_r in Hlim].
    by replace (sz' + PAGE_SIZE - PAGE_SIZE) with sz' in Hlim by lia.
  - destruct (undo_acquired sz' big s own ch pl kmem ptr ctrl s1 W Hacq) as (s2 & Hundo & Hsame).
    exists None, s2. split; [|done]. rewrite Eb. destruct big; exact Hundo.
Qed.

(** ** Freeing *)

(** The slabs of the list from [k] on are freed, in order. *)
Lemma free_slabs_spec s own ch pl p l xs fuel :
  wf s own ch pl → procs s !! p = Some l → own p = xs → (length xs <= fuel)%nat →
  ∃ s' ch' l', free_slabs fuel p (List.hd 0 xs) s = Some ((), s') ∧ wf s' (fupd own p []) ch' pl ∧
    procs s' = <[p := l']> (procs s) ∧ hugepages_nr l' = hugepages_nr l ∧
    (∀ k, kmems s' !! k = if decide (k ∈ xs) then None else kmems s !! k) ∧
    private_data s' = private_data s ∧ max_huge_pages s' = max_huge_pages s.
Proof.
  revert s own ch l fuel. induction xs as [|k xs IH]; intros s own ch l fuel W Hl Ho Hf.
  - exists s, ch, l. destruct fuel; (split; [done|]).
    all: split; [|split; [by rewrite insert_id|split_and!; try done; intros k; by rewrite decide_False by set_solver]].
    all: eapply wf_own_ext, W; intros q; unfold fupd; by case_decide; subst.
  - destruct fuel as [|fuel]; cbn [length] in Hf; [lia|].
    assert (is_Some (kmems s !! k)) as [m Hm].
    { apply (wf_slab _ _ _ _ _ W). exists p. rewrite Ho. left. }
    destruct (wf_own _ _ _ _ _ W p l Hl) as [Hlo _]. rewrite Ho in Hlo.
    destruct (is_list_elem _ _ _ k Hlo ltac:(left)) as [Hk0 _].
    pose proof Hlo as (_ & (_ & Hkl & _) & _).
    cbn [List.hd free_slabs]. rewrite (proj2 (Z.eqb_neq _ _)) by done. steps. rewrite Hkl. steps.
    cbn [pNext].
    destruct (free_slab_spec _ s own ch pl p l k m [] xs W Hl Ho Hm)
      as (s1 & ch1 & d & Hrun & W1 & Hk1 & Hp1 & Hpd1 & Hmh1 & Hmd1 & Hc1).
    rewrite (bind_Some _ _ _ _ _ Hrun).
    destruct (IH s1 (fupd own p xs) ch1 (Proc (pid l) (u64 (allocs_nr l - 1)) (hugepages_nr l) d) fuel W1)
      as (s2 & ch2 & l2 & Hrun2 & W2 & Hp2 & Hh2 & Hk2 & Hpd2 & Hmh2);
      [by rewrite Hp1, lookup_insert_eq|by rewrite fupd_eq|lia|].
    exists s2, ch2, l2. split; [exact Hrun2|].
    split; [by eapply wf_own_ext, W2; intros q; unfold fupd; case_decide|].
    split; [by rewrite Hp2, Hp1, insert_insert_eq|]. split; [done|].
    split; [|split; congruence]. intros j. rewrite Hk2, Hk1.
    destruct (decide (j = k)) as [->|Hj].
    + rewrite lookup_delete_eq. rewrite (decide_True (P := k ∈ k :: xs)) by left. by case_decide.
    + rewrite lookup_delete_ne by done. apply decide_ext. set_solver.
Qed.

Lemma put_proc_wf s own ch pl p l l' :
  wf s own ch pl → procs s !! p = Some l → slabs l' = slabs l → allocs_nr l' = allocs_nr l →
  wf (set_procs (<[p := l']> (procs s)) s) own ch pl.
Proof.
  intros [W1 W2 W3 W4 W5 W6 W7 W8 W9 W10 W11 W12 W13 W14 W15 W16 W17 W18 W19 W20] Hl Hs Ha.
  assert (dom (<[p := l']> (procs s)) = dom (procs s)) as Hd by by apply dom_insert_lookup_L; eauto.
  assert (∀ q, is_Some (<[p := l']> (procs s) !! q) ↔ is_Some (procs s !! q)) as Hq
    by (intros q; by rewrite <- !elem_of_dom, Hd).
  split; fields; try done.
  - intros q lq. destruct (decide (q = p)) as [->|Hqp].
    + rewrite lookup_insert_eq. intros [= <-]. rewrite Hs, Ha. by apply W1.
    + rewrite lookup_insert_ne by done. apply W1.
  - intros q k Hk. apply Hq. by eapply W2.
  - unfold owned in *. fields. by rewrite Hd.
  - intros q. rewrite Hq. apply W16.
  - by rewrite Hd.
  - intros q. rewrite Hq. apply W18.
Qed.

Lemma set_huge_wf s own ch pl v : wf s own ch pl → wf (set_huge v s) own ch pl.
Proof. by intros []. Qed.

Lemma own_size s own ch pl p : wf s own ch pl → (length (own p) <= base.size (kmems s))%nat.
Proof.
  intros W. destruct (procs s !! p) as [l|] eqn:Hl.
  - rewrite <- (size_list_to_set (C := gset Z)) by apply (wf_own _ _ _ _ _ W p l Hl).
    rewrite <- size_dom. apply subseteq_size. intros k Hk%elem_of_list_to_set.
    apply elem_of_dom, (wf_slab _ _ _ _ _ W). eauto.
  - destruct (own p) as [|k xs] eqn:E; [cbn; lia|].
    destruct (wf_own_proc _ _ _ _ _ W p k) as [? ?]; [rewrite E; left|congruence].
Qed.

Lemma userMemFreeSlabs_spec s own ch pl fp p :
  wf s own ch pl → private_data s !! fp = Some p → fp ≠ 0 →
  ∃ s' ch' l l', userMemFreeSlabs fp s = Some (0, s') ∧ wf s' (fupd own p []) ch' pl ∧
    procs s !! p = Some l ∧ procs s' = <[p := l']> (procs s) ∧ hugepages_nr l' = 0 ∧
    (∀ k, kmems s' !! k = if decide (k ∈ own p) then None else kmems s !! k) ∧
    private_data s' = private_data s ∧
    max_huge_pages s' = u32 (max_huge_pages s + hugepages_nr l).
Proof.
  intros W Hfp Hfp0. destruct (private_spec _ _ _ _ _ _ W Hfp Hfp0) as (Hp0 & [l Hl] & Hpriv).
  unfold userMemFreeSlabs. rewrite (proj2 (Z.eqb_neq fp 0)) by done.
  rewrite (bind_Some _ _ _ _ _ Hpriv), (proj2 (Z.eqb_neq p 0)) by done.
  unfold proc_at, put_proc. steps. rewrite Hl. steps.
  destruct (wf_own _ _ _ _ _ W p l Hl) as [(_ & _ & Hh & _) _]. rewrite Hh.
  match goal with |- context [bind (free_slabs _ _ _) _ ?x] => set (s1 := x) end.
  assert (wf s1 own ch pl) as W1.
  { subst s1. apply (put_proc_wf (set_huge _ s) _ _ _ p l); try done. by apply set_huge_wf. }
  destruct (free_slabs_spec s1 own ch pl p (with_hugepages 0 l) (own p) (base.size (kmems s)) W1)
    as (s2 & ch2 & l2 & Hrun & W2 & Hp2 & Hh2 & Hk2 & Hpd2 & Hmh2);
    [by subst s1; fields; apply lookup_insert_eq|done|by apply (own_size _ _ _ _ _ W)|].
  rewrite (bind_Some _ _ _ _ _ Hrun). exists s2, ch2, l, l2. split; [done|].
  split_and!; try done. rewrite Hp2. subst s1. fields. by rewrite insert_insert_eq.
Qed.

(** A slab of the caller is freed; an address that is no slab's is refused. *)
Lemma userMemFree_spec s own ch pl fp p id :
  wf s own ch pl → private_data s !! fp = Some p → fp ≠ 0 →
  (∀ k m, kmems s !! k = Some m → phy_addr m = id → k ∈ own p) →
  ∃ r s' own' ch', userMemFree fp id s = Some (r, s') ∧ wf s' own' ch' pl ∧
    private_data s' = private_data s ∧ max_huge_pages s' = max_huge_pages s ∧
    (∀ q, hugepages_nr <$> procs s' !! q = hugepages_nr <$> procs s !! q) ∧
    ((r = - EIO ∧ s' = s ∧ own' = own ∧ ∀ k m, kmems s !! k = Some m → phy_addr m ≠ id) ∨
     (r = 0 ∧ ∃ k m xs ys, kmems s !! k = Some m ∧ phy_addr m = id ∧
        kmems s' = delete k (kmems s) ∧ own p = xs ++ k :: ys ∧ own' = fupd own p (xs ++ ys))).
Proof.
  intros W Hfp Hfp0 Hid. destruct (private_spec _ _ _ _ _ _ W Hfp Hfp0) as (Hp0 & [l Hl] & Hpriv).
  unfold userMemFree. rewrite (proj2 (Z.eqb_neq fp 0)) by done.
  rewrite (bind_Some _ _ _ _ _ Hpriv), (proj2 (Z.eqb_neq p 0)) by done.
  destruct (find_slab_spec _ _ _ _ _ id W) as (k & Hk & H). rewrite (bind_Some _ _ _ _ _ Hk).
  destruct H as [[-> Hn]|(Hk0 & m & Hm & Hph)].
  - change (0 =? 0) with true. branch. exists (- EIO), s, own, ch. split; [done|]. split_and!; try done.
    by left.
  - rewrite (proj2 (Z.eqb_neq k 0)) by done. branch.
    pose proof (Hid k m Hm Hph) as (xs & ys & Ho)%list_elem_of_split.
    destruct (free_slab_spec _ s own ch pl p l k m xs ys W Hl Ho Hm)
      as (s1 & ch1 & d & Hrun & W1 & Hk1 & Hp1 & Hpd1 & Hmh1 & _).
    rewrite (bind_Some _ _ _ _ _ Hrun). exists 0, s1, (fupd own p (xs ++ ys)), ch1.
    split; [done|]. split_and!; try done.
    + intros q. rewrite Hp1. destruct (decide (q = p)) as [->|Hq].
      * by rewrite lookup_insert_eq, Hl.
      * by rewrite lookup_insert_ne.
    + right. split; [done|]. by exists k, m, xs, ys.
Qed.

Lemma mem_open_spec s own ch pl fp tgid :
  wf s own ch pl → fp ≠ 0 → private_data s !! fp = None →
  ∃ r s' pl', mem_open alloc fp tgid s = Some (r, s') ∧ wf s' own ch pl' ∧ kmems s' = kmems s ∧
    max_huge_pages s' = max_huge_pages s ∧ mem_allocated s' = mem_allocated s ∧
    ((r = - ENODEV ∧ private_data s' = private_data s ∧ procs s' = procs s) ∨
     (r = 0 ∧ ∃ p, procs s !! p = None ∧ procs s' = <[p := Proc tgid 0 0 empty]> (procs s) ∧
        private_data s' = <[fp := p]> (private_data s))).
Proof.
  intros W Hfp Hpd. unfold mem_open, private. steps. rewrite Hpd. cbn [default].
  change (0 =? 0) with true. branch.
  destruct (kmalloc_spec sizeof_user_proc_mem_list s) as [H|(p & Hp0 & Hpb & _ & H)];
    rewrite (bind_Some _ _ _ _ _ H); fields; clear H.
  { change (0 =? 0) with true. branch. eexists _, _, pl. split; [done|].
    split; [by apply wf_calls|]. split_and!; try done. by left. }
  rewrite (proj2 (Z.eqb_neq p 0)) by done. steps.
  destruct (wf_procs _ _ _ _ _ W) as (d & Hd & Hl). rewrite Hd. steps.
  assert (p ∉ dom (procs s)) as Hpp.
  { intros Hin. apply not_elem_of_dom in Hpb. apply Hpb. eapply owned_block; [done|].
    unfold owned. apply elem_of_app. right. by apply elem_of_elements. }
  pose proof Hpp as Hpn. rewrite not_elem_of_dom in Hpn.
  assert (p ∉ pl) as Hppl by (intros [? ?]%(wf_proc _ _ _ _ _ W); congruence).
  assert (is_list (<[p := Link 0 0]> (plinks s)) d pl) as Hl'.
  { eapply is_list_frame, Hl. intros x Hx. apply lookup_insert_ne. by intros ->. }
  destruct (add_end_spec p _ _ _ Hl') as (ls & d' & Hr & Hl2 & Hf & Hdom); [done|done| |].
  { rewrite lookup_insert_eq. eauto. }
  rewrite Hr. unfold proc_at, put_proc. steps. rewrite lookup_insert_eq. steps.
  rewrite insert_insert_eq. eexists _, _, (pl ++ [p]). split; [reflexivity|].
  split; [|fields; split_and!; try done; right; split; [done|]; by exists p].
  assert (own p = []) as Hop.
  { destruct (own p) as [|k xs] eqn:E; [done|].
    destruct (wf_own_proc _ _ _ _ _ W p k) as [? ?]; [rewrite E; left|congruence]. }
  destruct W as [W1 W2 W3 W4 W5 W6 W7 W8 W9 W10 W11 W12 W13 W14 W15 W16 W17 W18 W19 W20].
  split; fields; try done.
  - intros q lq [[<- <-]|[? Hq]]%lookup_insert_Some; [|by apply W1].
    rewrite Hop. cbn [slabs allocs_nr]. split; [apply is_list_empty|done].
  - intros q k Hk. apply lookup_insert_is_Some'. right. by eapply W2.
  - unfold owned in *. fields. rewrite elements_dom_insert by done.
    rewrite dom_insert_L, elements_union_singleton by done. rewrite <- W11. solve_Permutation.
  - rewrite dom_insert_L. set_solver.
  - eauto.
  - intros q. rewrite elem_of_app, W16, lookup_insert_is_Some', list_elem_of_singleton. naive_solver.
  - by rewrite Hdom, !dom_insert_L, W17.
  - intros q. rewrite lookup_insert_is_Some', W18. split.
    + intros [->|(gp & Hgp)]; [exists fp; by rewrite lookup_insert_eq|].
      exists gp. rewrite lookup_insert_ne; [done|congruence].
    + intros (gp & [[<- <-]|[? ?]]%lookup_insert_Some); eauto.
  - assert (∀ g, private_data s !! g ≠ Some p) as Hnp.
    { intros g Hg. destruct (proj2 (W18 p)) as [? ?]; [eauto|congruence]. }
    intros f g q [[<- <-]|[? Hq]]%lookup_insert_Some [[<- Eq]|[? Hq']]%lookup_insert_Some; try done.
    + by destruct (Hnp g).
    + subst q. by destruct (Hnp f).
    + by eapply W19.
  - by rewrite lookup_insert_ne.
Qed.

Lemma mem_release_spec s own ch pl fp p :
  wf s own ch pl → private_data s !! fp = Some p → fp ≠ 0 →
  ∃ s' ch' pl' l, mem_release fp s = Some (0, s') ∧ wf s' (fupd own p []) ch' pl' ∧
    procs s !! p = Some l ∧ procs s' = delete p (procs s) ∧
    private_data s' = delete fp (private_data s) ∧
    (∀ k, kmems s' !! k = if decide (k ∈ own p) then None else kmems s !! k) ∧
    max_huge_pages s' = u32 (max_huge_pages s + hugepages_nr l).
Proof.
  intros W Hfp Hfp0. destruct (private_spec _ _ _ _ _ _ W Hfp Hfp0) as (Hp0 & _ & Hpriv).
  unfold mem_release. rewrite (bind_Some _ _ _ _ _ Hpriv), (proj2 (Z.eqb_neq p 0)) by done. branch.
  destruct (userMemFreeSlabs_spec s own ch pl fp p W Hfp Hfp0)
    as (s1 & ch1 & l & l1 & Hrun & W1 & Hl & Hp1 & _ & Hk1 & Hpd1 & Hmh1).
  rewrite (bind_Some _ _ _ _ _ Hrun).
  destruct (wf_procs _ _ _ _ _ W1) as (d & Hd & Hpl).
  assert (procs s1 !! p = Some l1) as Hl1 by by rewrite Hp1, lookup_insert_eq.
  assert (p ∈ pl) as (as_ & bs & ->)%list_elem_of_split by (apply (wf_proc _ _ _ _ _ W1); eauto).
  destruct (remove_spec _ _ _ _ _ Hpl) as (ls & d' & Hr & Hpl' & Hf & Hdom).
  steps. rewrite Hd. steps. rewrite Hr. steps.
  assert (p :: (map_to_list (kmems s1) ≫= owned_of) ++ elements (dom (procs s1) ∖ {[p]})
    ≡ₚ elements (dom (blocks s1))) as Hb.
  { rewrite <- (wf_blocks _ _ _ _ _ W1). unfold owned.
    rewrite (union_difference_L {[p]} (dom (procs s1))) at 2
      by (apply singleton_subseteq_l, elem_of_dom; eauto).
    rewrite elements_disj_union, elements_singleton by set_solver. solve_Permutation. }
  destruct (FREE_spec p _ (set_plinks ls (Some d') s1) Hp0 Hb) as (b & Hfr & Hb' & Hsub).
  rewrite (bind_Some _ _ _ _ _ Hfr). steps.
  eexists _, ch1, (as_ ++ bs), l. split; [reflexivity|]. split; [|fields; split_and!; try done].
  2: by rewrite Hp1, delete_insert_eq.
  2: by rewrite Hpd1.
  assert (NoDup (as_ ++ p :: bs)) as Hnd by apply Hpl.
  apply NoDup_app in Hnd as (_ & Hda & [Hpb _]%NoDup_cons).
  assert (p ∉ as_ ++ bs) as Hpn.
  { intros [Hin|Hin]%elem_of_app; [by apply (Hda p Hin), list_elem_of_here|done]. }
  assert (∀ q x, x ∈ fupd own p [] q → q ≠ p) as Hq0.
  { intros q x Hx ->. rewrite fupd_eq in Hx. by apply elem_of_nil in Hx. }
  destruct W1 as [V1 V2 V3 V4 V5 V6 V7 V8 V9 V10 V11 V12 V13 V14 V15 V16 V17 V18 V19 V20].
  split; fields; try done.
  - intros q lq [_ Hlq]%lookup_delete_Some. by apply V1.
  - intros q k Hk. apply lookup_delete_is_Some. split; [apply not_eq_sym; by eapply Hq0|by eapply V2].
  - unfold owned. fields. by rewrite dom_delete_L.
  - intros H0. by apply V12, Hsub.
  - exists d'. split; [done|]. eapply is_list_frame, Hpl'. intros x Hx. apply lookup_delete_ne.
    by intros <-.
  - intros q. rewrite lookup_delete_is_Some, <- V16, !elem_of_app, elem_of_cons. split.
    + intros Hq. split; [|naive_solver]. intros <-. by apply Hpn, elem_of_app.
    + naive_solver.
  - by rewrite !dom_delete_L, Hdom, V17.
  - intros q. rewrite lookup_delete_is_Some, V18. rewrite Hpd1. split.
    + intros (Hqp & g & Hg). exists g. rewrite lookup_delete_ne; [done|]. intros <-. congruence.
    + intros (g & [Hgf Hg]%lookup_delete_Some). split; [|eauto]. intros <-.
      apply Hgf. by eapply (wf_private _ _ _ _ _ W).
  - intros f g q [_ H1]%lookup_delete_Some [_ H2]%lookup_delete_Some. by eapply V19.
  - rewrite lookup_delete_None. by right.
Qed.

(** ** The clients

    What the processes do with the device: an open file is an address; a call
    on a file that is not open does not reach the driver. *)

Inductive call :=
  | Open (fp tgid : Z)
  | Release (fp : Z)
  | Ioctl (from_ok to_ok : bool) (fp : Z) (cmd : ioctl).

(** The calls a process may make: it frees no slab of another one, small slabs
    have room for a control block, and it asks for its huge pages once. *)
Definition polite (s : state) (c : call) : Prop :=
  match c with
  | Open fp _ => fp ≠ 0 ∧ private_data s !! fp = None
  | Release fp => is_Some (private_data s !! fp)
  | Ioctl _ to_ok fp cmd =>
    ∃ p l, private_data s !! fp = Some p ∧ procs s !! p = Some l ∧
    match cmd with
    | DEV_MEM_IOC_MEMALLOC arg =>
      (to_ok = true ∨ ∀ k m, kmems s !! k = Some m → phy_addr m ≠ mi_phy arg) ∧
      ((mi_type arg = SMALL ∧ sizeof_block_ctrl <= remapping_size (mi_size arg)) ∨ mi_type arg = LARGE)
    | DEV_MEM_IOC_MEMFREE arg =>
      ∀ k m, kmems s !! k = Some m → phy_addr m = mi_phy arg →
        ∃ xs, dlist_elements (klinks s) (slabs l) = Some xs ∧ k ∈ xs
    | DEV_MEM_IOC_GET_NUM_HPT => hugepages_nr l = 0
    | _ => True
    end
  end.

Definition run_call (c : call) : M state Z :=
  match c with
  | Open fp tgid => mem_open alloc fp tgid
  | Release fp => mem_release fp
  | Ioctl from_ok to_ok fp cmd =>
    let! (r, _) := mem_ioctl alloc iommu_map remapping_size node_online MAX_NUMNODES
      max_mem_numa max_huge_pages_per_process from_ok to_ok fp cmd in ret r
  end.

(** The state after the module was loaded with [pages] huge pages. *)
Definition loaded (pages : Z) : state :=
  State ∅ ∅ ∅ ∅ ∅ ∅ (Some empty) ∅ 0 pages ∅ 0.

Inductive reach (pages : Z) : state → Prop :=
  | reach_loaded : reach pages (loaded pages)
  | reach_call s c r s' :
      reach pages s → polite s c → run_call c s = Some (r, s') → reach pages s'.

(** The huge pages the processes hold. *)
Definition held (s : state) : Z := map_sum hugepages_nr (procs s).

Definition inv (pages : Z) (s : state) : Prop :=
  (∃ own ch pl, wf s own ch pl) ∧
  (max_mem_numa = 0 ∨ total (kmems s) <= 1024 * max_mem_numa) ∧
  (∀ k m, kmems s !! k = Some m → 0 < size m) ∧
  0 <= max_huge_pages s ∧ (∀ p l, procs s !! p = Some l → 0 <= hugepages_nr l) ∧
  max_huge_pages s + held s = pages.

Hypothesis Hmax : 0 <= max_mem_numa < 2 ^ 32.
Hypothesis Hper : 0 <= max_huge_pages_per_process.

Lemma total_mono s s' (x : list Z) :
  (∀ k m, kmems s !! k = Some m → 0 < size m) →
  (∀ k, kmems s' !! k = if decide (k ∈ x) then None else kmems s !! k) →
  0 <= total (kmems s') <= total (kmems s) ∧ ∀ k m, kmems s' !! k = Some m → 0 < size m.
Proof.
  intros Hpos Hk. split.
  - apply map_sum_mono.
    + apply map_subseteq_spec. intros k m. rewrite Hk. by case_decide.
    + intros k m Hm. unfold footprint, PAGE_SIZE. specialize (Hpos k m Hm). destruct (_ =? 0); lia.
  - intros k m. rewrite Hk. case_decide; [done|]. apply Hpos.
Qed.

Lemma held_nonneg s : (∀ p l, procs s !! p = Some l → 0 <= hugepages_nr l) → 0 <= held s.
Proof. intros H. by apply (map_sum_mono hugepages_nr (procs s) (procs s)). Qed.

(** [inv] after a call that leaves the huge pages alone. *)
Lemma inv_same_huge pages s s' own ch pl :
  inv pages s → wf s' own ch pl →
  (max_mem_numa = 0 ∨ total (kmems s') <= 1024 * max_mem_numa) →
  (∀ k m, kmems s' !! k = Some m → 0 < size m) →
  max_huge_pages s' = max_huge_pages s →
  (∀ p, hugepages_nr <$> procs s' !! p = hugepages_nr <$> procs s !! p) → inv pages s'.
Proof.
  intros (_ & _ & _ & Hm & Hp & Hh) W Hlim Hpos Emh Epr.
  split; [by eexists _, _, _|]. split; [done|]. split; [done|]. rewrite Emh. split; [done|]. split.
  - intros p l Hl. specialize (Epr p). rewrite Hl in Epr. destruct (procs s !! p) as [l0|] eqn:E; [|done].
    injection Epr as ->. by eapply Hp.
  - rewrite <- Hh. f_equal. unfold held.
    assert (∀ m : gmap Z user_proc_mem_list, map_sum hugepages_nr m = map_sum id (hugepages_nr <$> m)) as Hmap_sum.
    { induction m as [|k x m Hk IH] using map_ind; [by rewrite fmap_empty|].
      rewrite fmap_insert, !map_sum_insert by (done || by rewrite lookup_fmap, Hk). by rewrite IH. }
    rewrite !Hmap_sum. f_equal. apply map_eq. intros p. by rewrite !lookup_fmap.
Qed.

Lemma inv_same pages s s' : inv pages s → same s s' → inv pages s'.
Proof.
  intros Hi Hs. pose proof Hi as ((own & ch & pl & W) & Hlim & Hpos & _).
  pose proof (wf_same _ _ _ _ _ W Hs). destruct Hs as (b & n & -> & _). by eapply inv_same_huge.
Qed.

Lemma inv_allocated pages s s' own ch pl p sz node large info :
  inv pages s → wf s own ch pl → allocated s s' own p sz node large info → inv pages s'.
Proof.
  intros Hi W [(k & m & Hk & Hkm & _ & Hsize & Hsz & Hc & _ & (ch' & pl' & W') & Hlim) (l & d & Hl & Hpr) Hpd Hmh].
  pose proof Hi as (_ & Hlim0 & Hpos & _).
  assert (0 <= total (kmems s)) as Ht0.
  { apply (map_sum_mono footprint (kmems s) (kmems s)); [done|]. intros j a Hj.
    specialize (Hpos j a Hj). unfold footprint, PAGE_SIZE.
    destruct (huge_mem_ctrl a =? 0); lia. }
  eapply inv_same_huge; [exact Hi|exact W'| | |done|].
  - destruct (decide (max_mem_numa = 0)) as [?|Hm0]; [by left|right].
    destruct Hlim0 as [?|Hlim0], Hlim as [?|Hlim]; try done.
    rewrite Hkm. unfold total. rewrite map_sum_insert by done. fold total.
    rewrite (wf_mem _ _ _ _ _ W) in Hlim. rewrite (wrap_small 64 (total _)) in Hlim by lia.
    unfold DIV_ROUND_UP, QAE_KBYTE in Hlim. rewrite (wrap_small 64 (_ + size m)), (wrap_small 64 (_ - 1)) in Hlim by lia.
    pose proof (Z.div_mod (total (kmems s) + size m + 1024 - 1) 1024 ltac:(done)).
    pose proof (Z.mod_pos_bound (total (kmems s) + size m + 1024 - 1) 1024 ltac:(done)).
    unfold footprint, PAGE_SIZE. destruct (Z.eqb_spec (huge_mem_ctrl m) 0) as [E|E], (Z.eqb_spec large 0) as [E'|E'];
      naive_solver lia.
  - intros j a. rewrite Hkm. intros [[<- <-]|[_ Hj]]%lookup_insert_Some; [lia|by eapply Hpos].
  - intros q. rewrite Hpr. destruct (decide (q = p)) as [->|Hq].
    + by rewrite lookup_insert_eq, Hl.
    + by rewrite lookup_insert_ne.
Qed.

Lemma open_ok pages s fp tgid :
  inv pages s → polite s (Open fp tgid) → ∃ r s', mem_open alloc fp tgid s = Some (r, s') ∧ inv pages s'.
Proof.
  intros Hi [Hfp Hnone]. pose proof Hi as ((own & ch & pl & W) & Hlim & Hpos & Hm & Hp & Hh).
  destruct (mem_open_spec s own ch pl fp tgid W Hfp Hnone)
    as (r & s' & pl' & Hrun & W' & Hkm & Hmh & Hma & H).
  exists r, s'. split; [done|]. destruct H as [(_ & _ & Epr)|(_ & p & Hpn & Hpr & _)].
  - eapply inv_same_huge; [done|exact W'|..]; rewrite ?Hkm, ?Epr; done.
  - split; [by eexists _, _, _|]. rewrite Hkm, Hmh. split; [done|]. split; [done|]. split; [done|].
    unfold held in *. rewrite Hpr, map_sum_insert by done. split; [|cbn; lia].
    intros q l [[<- <-]|[_ Hq]]%lookup_insert_Some; [done|by eapply Hp].
Qed.

Lemma release_ok pages s fp :
  0 <= pages < 2 ^ 32 → inv pages s → polite s (Release fp) →
  ∃ s', mem_release fp s = Some (0, s') ∧ inv pages s'.
Proof.
  intros Hpages Hi [p Hfp]. pose proof Hi as ((own & ch & pl & W) & Hlim & Hpos & Hm & Hp & Hh).
  assert (fp ≠ 0) as Hfp0 by (intros ->; pose proof (wf_file0 _ _ _ _ _ W); congruence).
  destruct (mem_release_spec s own ch pl fp p W Hfp Hfp0)
    as (s' & ch' & pl' & l & Hrun & W' & Hl & Hpr & _ & Hkm & Hmh).
  exists s'. split; [done|]. destruct (total_mono s s' (own p) Hpos Hkm) as [Ht Hpos'].
  split; [by eexists _, _, _|]. split; [destruct Hlim; [by left|right; lia]|]. split; [done|].
  assert (∀ q lq, procs s' !! q = Some lq → 0 <= hugepages_nr lq) as Hp'.
  { intros q lq. rewrite Hpr. intros [_ Hq]%lookup_delete_Some. by eapply Hp. }
  pose proof (held_nonneg s' Hp') as Hh0. unfold held in *.
  rewrite (map_sum_delete _ _ _ _ Hl), <- Hpr in Hh. pose proof (Hp _ _ Hl).
  rewrite Hmh, wrap_small by lia. split; [lia|]. split; [done|lia].
Qed.

Notation mem_ioctl := (mem_ioctl alloc iommu_map remapping_size node_online MAX_NUMNODES
  max_mem_numa max_huge_pages_per_process).

Lemma freed_inv pages s s' own' ch' pl (x : list Z) :
  inv pages s → wf s' own' ch' pl →
  (∀ k, kmems s' !! k = if decide (k ∈ x) then None else kmems s !! k) →
  max_huge_pages s' = max_huge_pages s →
  (∀ q, hugepages_nr <$> procs s' !! q = hugepages_nr <$> procs s !! q) → inv pages s'.
Proof.
  intros Hi W' Hk Hmh Hpr. pose proof Hi as (_ & Hlim & Hpos & _).
  destruct (total_mono s s' x Hpos Hk) as [Ht Hpos'].
  eapply inv_same_huge; try done. destruct Hlim; [by left|right; lia].
Qed.

Lemma free_ok pages s own ch pl fp p id :
  inv pages s → wf s own ch pl → private_data s !! fp = Some p → fp ≠ 0 →
  (∀ k m, kmems s !! k = Some m → phy_addr m = id → k ∈ own p) →
  ∃ r s', userMemFree fp id s = Some (r, s') ∧ inv pages s'.
Proof.
  intros Hi W Hfp Hfp0 Hid.
  destruct (userMemFree_spec s own ch pl fp p id W Hfp Hfp0 Hid)
    as (r & s' & own' & ch' & Hrun & W' & _ & Hmh & Hpr & [(-> & -> & _)|(-> & k & m & xs & ys & _ & _ & Hkm & _)]).
  - by eexists _, _.
  - eexists _, _. split; [done|]. apply (freed_inv pages s s' own' ch' pl [k]); try done.
    intros j. rewrite Hkm. destruct (decide (j = k)) as [->|Hj].
    + by rewrite lookup_delete_eq, decide_True by set_solver.
    + by rewrite lookup_delete_ne, decide_False by set_solver.
Qed.

Lemma alloc_ioctl_ok pages s from_ok to_ok fp arg :
  inv pages s → polite s (Ioctl from_ok to_ok fp (DEV_MEM_IOC_MEMALLOC arg)) →
  ∃ r s', mem_ioctl from_ok to_ok fp (DEV_MEM_IOC_MEMALLOC arg) s = Some (r, s') ∧ inv pages s'.
Proof.
  intros Hi (p & l & Hfp & Hl & Hto & Hty). pose proof Hi as ((own & ch & pl & W) & _).
  assert (fp ≠ 0) as Hfp0 by (intros ->; pose proof (wf_file0 _ _ _ _ _ W); congruence).
  destruct (private_spec _ _ _ _ _ _ W Hfp Hfp0) as (Hp0 & _ & Hpriv).
  unfold UsdmKernel.mem_ioctl, UsdmKernel.dev_mem_alloc.
  rewrite (proj2 (Z.eqb_neq fp 0)) by done. autorewrite with monad.
  rewrite (bind_Some _ _ _ _ _ Hpriv), (proj2 (Z.eqb_neq p 0)) by done.
  destruct from_ok; branch; [|by eexists _, _].
  destruct (userMemAlloc_spec s own ch pl fp p (mi_size arg) (s32 (mi_node arg)) (mi_type arg) W Hfp Hfp0 Hty)
    as (r & s1 & Hrun & Hr). autorewrite with monad. rewrite (bind_Some _ _ _ _ _ Hrun).
  destruct r as [info|]; [|eexists _, _; split; [done|by eapply inv_same]].
  pose proof (inv_allocated _ _ _ _ _ _ _ _ _ _ _ Hi W Hr) as Hi1.
  destruct to_ok; branch; [by eexists _, _|]. destruct Hto as [?|Hto]; [done|].
  destruct Hr as [(k & m & Hk & Hkm & _ & _ & _ & _ & _ & (ch1 & pl1 & W1) & _) (l1 & d1 & _ & Hpr1) Hpd1 _].
  destruct (free_ok pages s1 _ ch1 pl1 fp p (mi_phy arg) Hi1 W1) as (r2 & s2 & Hrun2 & Hi2); [by rewrite Hpd1|done| |].
  { intros j a. rewrite Hkm, fupd_eq. intros [[<- <-]|[_ Hj]]%lookup_insert_Some Ha; [set_solver|].
    by destruct (Hto j a Hj). }
  autorewrite with monad. rewrite (bind_Some _ _ _ _ _ Hrun2). by eexists _, _.
Qed.

Lemma free_ioctl_ok pages s from_ok to_ok fp arg :
  inv pages s → polite s (Ioctl from_ok to_ok fp (DEV_MEM_IOC_MEMFREE arg)) →
  ∃ r s', mem_ioctl from_ok to_ok fp (DEV_MEM_IOC_MEMFREE arg) s = Some (r, s') ∧ inv pages s'.
Proof.
  intros Hi (p & l & Hfp & Hl & Hown). pose proof Hi as ((own & ch & pl & W) & _).
  assert (fp ≠ 0) as Hfp0 by (intros ->; pose proof (wf_file0 _ _ _ _ _ W); congruence).
  destruct (private_spec _ _ _ _ _ _ W Hfp Hfp0) as (Hp0 & _ & Hpriv).
  unfold UsdmKernel.mem_ioctl, dev_mem_free.
  rewrite (proj2 (Z.eqb_neq fp 0)) by done. autorewrite with monad.
  rewrite (bind_Some _ _ _ _ _ Hpriv), (proj2 (Z.eqb_neq p 0)) by done.
  destruct from_ok; branch; [|by eexists _, _].
  destruct (free_ok pages s own ch pl fp p (mi_phy arg) Hi W Hfp Hfp0) as (r & s' & Hrun & Hi').
  { intros k m Hk Hph. destruct (Hown k m Hk Hph) as (xs & Hxs & Hin).
    rewrite (dlist_elements_spec _ _ (own p)) in Hxs by by apply (wf_own _ _ _ _ _ W).
    by injection Hxs as ->. }
  autorewrite with monad. rewrite (bind_Some _ _ _ _ _ Hrun). by eexists _, _.
Qed.

Lemma release_ioctl_ok pages s from_ok to_ok fp :
  0 <= pages < 2 ^ 32 → inv pages s → polite s (Ioctl from_ok to_ok fp DEV_MEM_IOC_RELEASE) →
  ∃ r s', mem_ioctl from_ok to_ok fp DEV_MEM_IOC_RELEASE s = Some (r, s') ∧ inv pages s'.
Proof.
  intros Hpages Hi (p & l0 & Hfp & _). pose proof Hi as ((own & ch & pl & W) & Hlim & Hpos & Hm & Hp & Hh).
  assert (fp ≠ 0) as Hfp0 by (intros ->; pose proof (wf_file0 _ _ _ _ _ W); congruence).
  destruct (userMemFreeSlabs_spec s own ch pl fp p W Hfp Hfp0)
    as (s' & ch' & l & l' & Hrun & W' & Hl & Hpr & Hh' & Hkm & _ & Hmh).
  unfold UsdmKernel.mem_ioctl, dev_release_pid. rewrite (bind_Some _ _ _ _ _ Hrun).
  eexists _, s'. split; [done|]. destruct (total_mono s s' (own p) Hpos Hkm) as [Ht Hpos'].
  split; [by eexists _, _, _|]. split; [destruct Hlim; [by left|right; lia]|]. split; [done|].
  assert (∀ q lq, procs s' !! q = Some lq → 0 <= hugepages_nr lq) as Hp'.
  { intros q lq. rewrite Hpr. intros [[<- <-]|[_ Hq]]%lookup_insert_Some; [lia|by eapply Hp]. }
  pose proof (held_nonneg s' Hp') as Hh0. pose proof (Hp _ _ Hl). unfold held in *.
  rewrite Hpr, (map_sum_update _ _ _ _ _ Hl) in Hh0 |- *.
  rewrite Hmh, wrap_small by lia. split; [lia|]. split; [|lia]. rewrite <- Hpr. exact Hp'.
Qed.

Lemma huge_ioctl_ok pages s from_ok to_ok fp :
  0 <= pages < 2 ^ 32 → inv pages s → polite s (Ioctl from_ok to_ok fp DEV_MEM_IOC_GET_NUM_HPT) →
  ∃ r s', mem_ioctl from_ok to_ok fp DEV_MEM_IOC_GET_NUM_HPT s = Some (r, s') ∧ inv pages s'.
Proof.
  intros Hpages Hi (p & l & Hfp & Hl & Hl0). pose proof Hi as ((own & ch & pl & W) & Hlim & Hpos & Hm & Hp & Hh).
  assert (fp ≠ 0) as Hfp0 by (intros ->; pose proof (wf_file0 _ _ _ _ _ W); congruence).
  destruct (private_spec _ _ _ _ _ _ W Hfp Hfp0) as (Hp0 & _ & Hpriv).
  unfold UsdmKernel.mem_ioctl, UsdmKernel.dev_num_hp_get.
  rewrite (proj2 (Z.eqb_neq fp 0)) by done. autorewrite with monad.
  rewrite (bind_Some _ _ _ _ _ Hpriv), (proj2 (Z.eqb_neq p 0)) by done.
  autorewrite with monad. destruct to_ok; branch; [|by eexists _, _].
  unfold proc_at, put_proc. steps. rewrite Hl. steps. change (0 =? 0) with true. branch.
  eexists _, _. split; [reflexivity|].
  set (n := Z.min _ _). pose proof (held_nonneg s Hp) as Hh0.
  assert (0 <= n <= max_huge_pages s) as Hn by lia.
  split. { eexists own, ch, pl. apply (put_proc_wf (set_huge _ s) _ _ _ p l); try done. by apply set_huge_wf. }
  fields. split; [done|]. split; [done|]. rewrite wrap_small by lia. split; [lia|]. split.
  - intros q lq [[<- <-]|[_ Hq]]%lookup_insert_Some; [cbn; lia|by eapply Hp].
  - unfold held in *. fields. rewrite (map_sum_update _ _ _ _ _ Hl), Hl0. fields. lia.
Qed.

Lemma call_ok pages s c :
  0 <= pages < 2 ^ 32 → inv pages s → polite s c →
  ∃ r s', run_call c s = Some (r, s') ∧ inv pages s'.
Proof.
  intros Hpages Hi Hc. destruct c as [fp tgid|fp|from_ok to_ok fp cmd]; cbn [run_call].
  - by apply open_ok.
  - destruct (release_ok pages s fp Hpages Hi Hc) as (s' & ? & ?). by eexists _, s'.
  - assert (∃ r s', mem_ioctl from_ok to_ok fp cmd s = Some (r, s') ∧ inv pages s') as ((r & out) & s' & Hrun & Hi').
    { destruct cmd as [arg|arg| | |].
      - by apply alloc_ioctl_ok.
      - by apply free_ioctl_ok.
      - by apply release_ioctl_ok.
      - by apply huge_ioctl_ok.
      - by eexists _, _. }
    rewrite (bind_Some _ _ _ _ _ Hrun). by eexists _, _.
Qed.

Lemma loaded_wf pages : wf (loaded pages) (λ _, []) (λ _, []) [].
Proof.
  split; try done.
  - intros p k Hk. by apply elem_of_nil in Hk.
  - intros k. split; [by intros [? ?]|intros [? Hk]; by apply elem_of_nil in Hk].
  - intros p q k Hk. by apply elem_of_nil in Hk.
  - intros key. apply is_list_empty.
  - intros key k. split; [intros Hk; by apply elem_of_nil in Hk|by intros (? & ? & _)].
  - by eexists; split; [|apply is_list_empty].
  - intros p. split; [intros Hk; by apply elem_of_nil in Hk|by intros [? ?]].
  - intros p. split; [by intros [? ?]|by intros (? & ?)].
Qed.

Lemma usdm_reach_inv pages s : 0 <= pages < 2 ^ 32 → reach pages s → inv pages s.
Proof.
  intros Hpages. induction 1 as [|s c r s' _ IH Hc Hrun].
  - split; [by eexists _, _, _; apply loaded_wf|]. cbn [loaded kmems procs max_huge_pages].
    change (total ∅) with 0. change (held (loaded pages)) with 0.
    split; [right; lia|]. split; [done|]. split; [lia|]. split; [done|lia].
  - destruct (call_ok pages s c Hpages IH Hc) as (r' & s1 & Hrun' & Hi). congruence.
Qed.

(** Nothing is left when no file is open. *)
Lemma closed_empty pages s :
  inv pages s → private_data s = ∅ →
  blocks s = ∅ ∧ kmems s = ∅ ∧ mem_allocated s = 0 ∧ max_huge_pages s = pages.
Proof.
  intros ((own & ch & pl & W) & _ & _ & _ & _ & Hh) Hpd.
  assert (procs s = ∅) as Hpr.
  { apply map_empty. intros p. apply eq_None_not_Some. intros Hp.
    apply (wf_files _ _ _ _ _ W) in Hp as [fp Hfp]. by rewrite Hpd in Hfp. }
  assert (kmems s = ∅) as Hkm.
  { apply map_empty. intros k. apply eq_None_not_Some. intros [p Hk]%(wf_slab _ _ _ _ _ W).
    apply (wf_own_proc _ _ _ _ _ W) in Hk as [? ?]. by rewrite Hpr in H. }
  pose proof (wf_blocks _ _ _ _ _ W) as Hb. unfold owned in Hb. rewrite Hkm, Hpr in Hb.
  split; [|split; [done|]].
  - apply dom_empty_inv_L, leibniz_equiv, elements_empty_inv, Permutation_nil_r.
    by rewrite <- Hb, dom_empty_L, elements_empty, map_to_list_empty.
  - rewrite (wf_mem _ _ _ _ _ W), Hkm. split; [done|].
    unfold held in Hh. rewrite Hpr in Hh. change (map_sum hugepages_nr ∅) with 0 in Hh. lia.
Qed.


(** [free_slab] for a process that does not own the slab, the first one of its
    owner's list. *)
Lemma free_slab_foreign s own ch pl p q l lq k m rest :
  wf s own ch pl → procs s !! p = Some l → procs s !! q = Some lq → p ≠ q →
  own q = k :: rest → kmems s !! k = Some m →
  ∃ s1, free_slab p k s = Some ((), s1) ∧ kmems s1 = delete k (kmems s) ∧ klinks s1 !! k = None ∧
    procs s1 !! q = Some lq ∧ private_data s1 = private_data s.
Proof.
  intros W Hl Hlq Hpq Ho Hk.
  destruct (wf_own _ _ _ _ _ W q lq Hlq) as [(_ & Hseg & _) _]. rewrite Ho in Hseg.
  destruct Hseg as (Hk0 & Hkl & Hrest).
  unfold free_slab, kmem_at, proc_at, put_proc. steps. rewrite Hk. steps. rewrite Hl. steps.
  assert (∃ ls d, REMOVE_ELEMENT_FROM_LIST k (klinks s) (slabs l) = Some (ls, d)) as (ls & d & Hr).
  { unfold REMOVE_ELEMENT_FROM_LIST. rewrite Hkl. cbn [mbind option_bind pPrev pNext].
    change (0 =? 0) with true. branch. destruct rest as [|x rest]; [by eexists _, _|].
    cbn [List.hd]. destruct Hrest as (Hx0 & Hx & _). rewrite (proj2 (Z.eqb_neq _ _)) by done.
    cbn [negb]. unfold set_prev. rewrite Hx. by eexists _, _. }
  rewrite Hr. steps.
  match goal with |- context [bind (del_slab_from_hash k) _ ?x] => set (s1 := x) end.
  destruct (del_hash_spec _ s own ch pl k m s1 W Hk) as (hl & g & as_ & bs & Hd & _); [done..|].
  rewrite (bind_Some _ _ _ _ _ Hd).
  pose proof (wf_blocks _ _ _ _ _ W) as Hb. rewrite (owned_delete s k m Hk) in Hb.
  destruct (free_ctrl_spec (set_hash hl g s1) m (kmalloc_ptr m :: k :: owned (set_kmems (delete k (kmems s)) s)))
    as (b1 & mm & H1 & Hb1 & _).
  { etransitivity; [apply owned_of_perm|exact Hb]. }
  rewrite (bind_Some _ _ _ _ _ H1).
  match goal with |- context [bind (FREE (kmalloc_ptr m)) _ ?x] =>
    destruct (FREE_spec _ _ x (wf_ptr _ _ _ _ _ W k m Hk) Hb1) as (b2 & H2 & Hb2 & _) end.
  rewrite (bind_Some _ _ _ _ _ H2).
  match goal with |- context [bind (FREE k) _ ?x] =>
    destruct (FREE_spec _ _ x Hk0 Hb2) as (b3 & H3 & _) end.
  rewrite (bind_Some _ _ _ _ _ H3). unfold account. subst s1. steps. rewrite lookup_insert_eq. steps.
  eexists. split; [reflexivity|]. fields. split; [done|]. split; [apply lookup_delete_eq|].
  split; [|done]. by rewrite !lookup_insert_ne by done.
Qed.

(** A slab is looked up by its physical address only: a process that frees
    the address of another one's slab succeeds, and when the slab was the first
    of its owner's list the owner's release of the device then follows a freed
    link (a fault here, a use after free in the kernel). *)
Theorem userMemFree_foreign s own ch pl fp gq p q k m rest :
  wf s own ch pl → private_data s !! fp = Some p → private_data s !! gq = Some q → p ≠ q →
  own q = k :: rest → kmems s !! k = Some m →
  ∃ s', userMemFree fp (phy_addr m) s = Some (0, s') ∧ kmems s' !! k = None ∧ mem_release gq s' = None.
Proof.
  intros W Hfp Hgq Hpq Ho Hk.
  assert (∀ f r, private_data s !! f = Some r → f ≠ 0) as Hf0
    by (intros f r Hf ->; pose proof (wf_file0 _ _ _ _ _ W); congruence).
  destruct (private_spec _ _ _ _ _ _ W Hfp (Hf0 _ _ Hfp)) as (Hp0 & [l Hl] & Hpriv).
  destruct (private_spec _ _ _ _ _ _ W Hgq (Hf0 _ _ Hgq)) as (Hq0 & [lq Hlq] & _).
  destruct (wf_own _ _ _ _ _ W q lq Hlq) as [Hlist _]. rewrite Ho in Hlist.
  destruct Hlist as (_ & (Hk0 & _) & Hhead & _). cbn [List.hd] in Hhead.
  unfold userMemFree. rewrite (proj2 (Z.eqb_neq fp 0)) by by eapply Hf0.
  rewrite (bind_Some _ _ _ _ _ Hpriv), (proj2 (Z.eqb_neq p 0)) by done.
  destruct (find_slab_spec _ _ _ _ _ (phy_addr m) W) as (r & Hrun & [[-> Hn]|(Hr0 & v & Hv & Hph)]).
  { by destruct (Hn k m Hk). }
  assert (r = k) as -> by by eapply (wf_phys _ _ _ _ _ W).
  rewrite (bind_Some _ _ _ _ _ Hrun), (proj2 (Z.eqb_neq k 0)) by done. branch.
  destruct (free_slab_foreign s own ch pl p q l lq k m rest W Hl Hlq Hpq Ho Hk)
    as (s1 & H1 & Hkm & Hkn & Hlq1 & Hpd).
  rewrite (bind_Some _ _ _ _ _ H1). exists s1. split; [done|]. split; [by rewrite Hkm, lookup_delete_eq|].
  unfold mem_release, userMemFreeSlabs, private. steps. rewrite Hpd, Hgq. cbn [default].
  change (Datatypes.id q) with q. rewrite (proj2 (Z.eqb_neq q 0)) by done. branch.
  rewrite (proj2 (Z.eqb_neq gq 0)) by by eapply Hf0. steps. rewrite Hpd, Hgq.
  change (default 0 (Some q)) with q. rewrite (proj2 (Z.eqb_neq q 0)) by done.
  unfold proc_at, put_proc. steps. rewrite Hlq1. steps. rewrite Hhead.
  apply bind_None. destruct (base.size _) as [|fuel]; cbn [free_slabs];
    rewrite (proj2 (Z.eqb_neq k 0)) by done; [done|]. steps. by rewrite Hkn.
Qed.

End spec.

(** ** Example *)

Definition ex_alloc (n : nat) (sz : Z) (b : gmap Z Z) : option Z :=
  let a := 4096 * Z.of_nat (S n) in
  if (0 <? sz) && (sz <? 2 ^ 62) then match b !! a with None => Some a | Some _ => None end else None.
Definition ex_map (_ : nat) (a : Z) : option Z := Some a.

Lemma ex_alloc_ok : alloc_ok ex_alloc.
Proof.
  intros n sz b a. unfold ex_alloc.
  destruct (Z.ltb_spec 0 sz), (Z.ltb_spec sz (2 ^ 62)); cbn [andb]; try done.
  destruct (b !! _) eqn:E; [done|]. intros [= <-]. split; [lia|done].
Qed.
Lemma ex_map_ok : map_ok ex_map.
Proof. intros n m a b p. unfold ex_map. congruence. Qed.

Lemma ex_max : 0 <= 8192 < 2 ^ 32.
Proof. lia. Qed.
Lemma ex_per : 0 <= 4.
Proof. lia. Qed.
Lemma ex_pages : 0 <= 8 < 2 ^ 32.
Proof. lia. Qed.

Notation ex_call := (run_call ex_alloc ex_map id (λ _, true) 1 8192 4).
Notation ex_reach := (reach ex_alloc ex_map id (λ _, true) 1 8192 4).

Definition ex_step (s : state) (c : call) : state := default s (snd <$> ex_call c s).
Definition ex_small : ioctl := DEV_MEM_IOC_MEMALLOC (MemInfo 0 0x200000 SMALL 0).
Definition ex_large : ioctl := DEV_MEM_IOC_MEMALLOC (MemInfo 0 0x300000 LARGE 0).
Definition ex_1 : state := ex_step (loaded 8) (Open 1 42).
Definition ex_2 : state := ex_step ex_1 (Ioctl true true 1 ex_small).
Definition ex_3 : state := ex_step ex_2 (Open 2 43).
Definition ex_4 : state := ex_step ex_3 (Ioctl true true 2 ex_large).
Definition ex_5 : state := ex_step ex_4 (Ioctl true true 2 DEV_MEM_IOC_GET_NUM_HPT).

Lemma ex_5_reach : ex_reach 8 ex_5.
Proof.
  apply (reach_call _ _ _ _ _ _ _ _ ex_4 (Ioctl true true 2 DEV_MEM_IOC_GET_NUM_HPT) 0);
    [|eexists _, _; vm_compute; repeat split|vm_compute; reflexivity].
  apply (reach_call _ _ _ _ _ _ _ _ ex_3 (Ioctl true true 2 ex_large) 0);
    [|eexists _, _; split; [|split; [|split; [by left|by right]]]; vm_compute; reflexivity
     |vm_compute; reflexivity].
  apply (reach_call _ _ _ _ _ _ _ _ ex_2 (Open 2 43) 0); [|vm_compute; repeat split; congruence|vm_compute; reflexivity].
  apply (reach_call _ _ _ _ _ _ _ _ ex_1 (Ioctl true true 1 ex_small) 0);
    [|eexists _, _; split; [|split; [|split; [by left|left; split; [|done]]]]; vm_compute; reflexivity
     |vm_compute; reflexivity].
  apply (reach_call _ _ _ _ _ _ _ _ (loaded 8) (Open 1 42) 0);
    [constructor|vm_compute; repeat split; congruence|vm_compute; reflexivity].
Qed.


(** The file 1 frees the slab of the file 2. *)
Lemma ex_5_wf : ∃ own ch pl, wf ex_map ex_5 own ch pl ∧ own 0x4000 = [0x6000].
Proof.
  destruct (usdm_reach_inv ex_alloc ex_map id (λ _, true) 1 8192 4 ex_alloc_ok ex_map_ok
    ex_max ex_per 8 ex_5 ex_pages ex_5_reach) as ((own & ch & pl & W) & _).
  exists own, ch, pl. split; [done|].
  assert (∃ l, procs ex_5 !! 0x4000 = Some l ∧ dlist_elements (klinks ex_5) (slabs l) = Some [0x6000])
    as (l & Hl & He) by (eexists; split; vm_compute; reflexivity).
  rewrite (dlist_elements_spec _ _ _ (proj1 (wf_own _ _ _ _ _ W _ l Hl))) in He. congruence.
Qed.

Lemma userMemFree_foreign_witness :
  ∃ s', userMemFree 1 0x7000 ex_5 = Some (0, s') ∧ kmems s' !! 0x6000 = None ∧ mem_release 2 s' = None.
Proof.
  destruct ex_5_wf as (own & ch & pl & W & Ho).
  refine (userMemFree_foreign ex_map ex_5 own ch pl 1 2 0x1000 0x4000 0x6000
    (Kmem 0x7000 0x5000 0x300000 0x7000) [] W _ _ _ Ho _); [vm_compute; reflexivity..|done|vm_compute; reflexivity].
Defined.

End UsdmKernelInv.
