(* ===== verification/PageTable.v ===== *)
(** * The user-space page table

    Models [qae_page_table.h]: the trie that translates the virtual addresses
    of the memory pools to physical ones, with four levels of tables over 4 KB
    pages or three over 2 MB pages.  A table of depth [n] is a finite map from
    its 9-bit index to tables of depth [n - 1]; a missing entry is NULL (or a
    zero address in the last level).  [mmap] may fail at any call. *)

From S2P Require Import Prelude.

#[local] Open Scope Z_scope.
#[local] Open Scope qat_scope.

Module PageTable.

Definition PAGE_SIZE := 0x1000.
Definition PAGE_SHIFT := 12.
Definition HUGEPAGE_SIZE := 0x200000.
Definition HUGEPAGE_SHIFT := 21.
Definition LEVEL_SIZE := 512.

(** [x & ~(2^s - 1)] and its complement, for [PAGE_MASK] and [HUGEPAGE_MASK]. *)
Definition page_base (s x : Z) : Z := clear x (Z.ones s).
Definition page_low (s x : Z) : Z := x .& Z.ones s.

(** The index of level [k] in an address: [idxl0], [idxl1], ... of
    [page_entry_t] for [s = 12]; [idxl1], [idxl2], ... of [hugepage_entry_t]
    for [s = 21]. *)
Definition idx (s : Z) (k : nat) (virt : Z) : Z :=
  Z.shiftr virt (s + 9 * Z.of_nat k) .& Z.ones 9.

Fixpoint page_table (n : nat) : Type :=
  match n with
  | O => gmap Z Z
  | S n => gmap Z (page_table n)
  end.

Definition empty_table (n : nat) : page_table n :=
  match n with O => (∅ : gmap Z Z) | S n => (∅ : gmap Z (page_table n)) end.

(** [level->next[i].pt], read and written. *)
Definition next {n} (t : page_table (S n)) (i : Z) : option (page_table n) :=
  @lookup Z (page_table n) (gmap Z (page_table n)) _ i t.
Definition set_next {n} (t : page_table (S n)) (i : Z) (l : page_table n)
    : page_table (S n) :=
  @insert Z (page_table n) (gmap Z (page_table n)) _ i l t.

Lemma next_set_eq {n} (t : page_table (S n)) i l : next (set_next t i l) i = Some l.
Proof. apply (lookup_insert_eq (M := gmap Z)). Qed.
Lemma next_set_ne {n} (t : page_table (S n)) i j l :
  i ≠ j → next (set_next t i l) j = next t j.
Proof. apply (lookup_insert_ne (M := gmap Z)). Qed.

Section tables.
(** [mmap_ok a]: whether the [a]-th [mmap] succeeds. *)
Context (mmap_ok : nat → bool) (s : Z).

(** [store_addr] ([s = 12], [n = 4]) and [store_addr_hpg] ([s = 21], [n = 3]),
    one level at a time, with [next_level]; [a] counts the calls of [mmap]. *)
Fixpoint store (n : nat) : page_table n → Z → Z → nat → page_table n * nat :=
  match n with
  | O => λ t virt phys a, (<[idx s 0 virt := phys]> t, a)
  | S n' => λ t virt phys a,
    match next t (idx s (S n') virt) with
    | Some level =>
      let r := store n' level virt phys a in
      (set_next t (idx s (S n') virt) r.1, r.2)
    | None =>
      if mmap_ok a then
        let r := store n' (empty_table n') virt phys (S a) in
        (set_next t (idx s (S n') virt) r.1, r.2)
      else (t, S a)
    end
  end.

(** The walk of the [load_*] functions: [None] when a level is NULL. *)
Fixpoint load (n : nat) : page_table n → Z → option Z :=
  match n with
  | O => λ t virt, Some (default 0 (t !! idx s 0 virt))
  | S n' => λ t virt, level ← next t (idx s (S n') virt); load n' level virt
  end.

(** The loop of [store_mmap_range]: pages [offset], [offset + 2^s], ... *)
Fixpoint store_pages (cnt : nat) (n : nat) (t : page_table n) (virt phys offset : Z) (a : nat)
    : page_table n * nat :=
  match cnt with
  | O => (t, a)
  | S cnt =>
    let r := store n t (u64 (virt + offset)) (u64 (phys + offset)) a in
    store_pages cnt n r.1 virt phys (offset + 2 ^ s) r.2
  end.

(** [free_page_level]: the number of tables unmapped. *)
Fixpoint free_page_level (n : nat) : page_table n → nat :=
  match n with
  | O => λ _, 0%nat
  | S n' => λ t,
    sum_list ((λ i, match next t i with
                    | None => 0%nat
                    | Some level => S (free_page_level n' level)
                    end) <$> seqZ 0 LEVEL_SIZE)
  end.
End tables.

Definition get_key (phys : Z) : Z := page_low PAGE_SHIFT (Z.shiftr phys 20).

(** The process's table: 4 KB pages or, with hugepages enabled, 2 MB pages. *)
Definition depth (hp_en : bool) : nat := if hp_en then 3 else 4.
Definition shift (hp_en : bool) : Z := if hp_en then HUGEPAGE_SHIFT else PAGE_SHIFT.

Definition store_mmap_range (mmap_ok : nat → bool) (hp_en : bool)
    (t : page_table (depth hp_en)) (virt phys size : Z) (a : nat)
    : page_table (depth hp_en) * nat :=
  let p_phys := page_base (shift hp_en) phys .| get_key phys in
  let pages := Z.to_nat ((size + 2 ^ shift hp_en - 1) / 2 ^ shift hp_en) in
  store_pages mmap_ok (shift hp_en) pages (depth hp_en) t virt p_phys 0 a.

(** [load_addr] and [load_addr_hpg]; [load_key] and [load_key_hpg]. *)
Definition load_addr (hp_en : bool) (t : page_table (depth hp_en)) (virt : Z) : Z :=
  match load (shift hp_en) (depth hp_en) t virt with
  | None => 0
  | Some phy_addr => page_base (shift hp_en) phy_addr .| page_low (shift hp_en) virt
  end.

Definition load_key (hp_en : bool) (t : page_table (depth hp_en)) (virt : Z) : Z :=
  match load (shift hp_en) (depth hp_en) t virt with
  | None => 0
  | Some phy_addr => page_low PAGE_SHIFT phy_addr
  end.

(** [free_page_table]: the empty table, and the number of tables unmapped. *)
Definition free_page_table (hp_en : bool) (t : page_table (depth hp_en))
    : page_table (depth hp_en) * nat :=
  (empty_table (depth hp_en), free_page_level (depth hp_en) t).

(** ** One store *)

(** The number of the page of an address, as far as the table's [n + 1] levels
    tell pages apart. *)
Definition page (s : Z) (n : nat) (v : Z) : Z :=
  Z.shiftr v s .& Z.ones (9 * Z.of_nat (S n)).

Lemma idx_page s n v :
  0 <= s → idx s (S n) v = Z.shiftr (page s (S n) v) (9 * Z.of_nat (S n)).
Proof.
  intros Hs. unfold idx, page. zbits; f_equal; lia.
Qed.

Lemma page_low_bits s n v :
  0 <= s → page s n v = page s (S n) v .& Z.ones (9 * Z.of_nat (S n)).
Proof. intros Hs. unfold page. zbits. Qed.

Lemma page_split s n v :
  0 <= s → page s (S n) v = Z.shiftl (idx s (S n) v) (9 * Z.of_nat (S n)) .| page s n v.
Proof.
  intros Hs. unfold idx, page. zbits; rewrite !Z.shiftr_spec by lia; [done|f_equal; lia].
Qed.

Lemma page_S s n v w :
  0 <= s → page s (S n) v = page s (S n) w ↔
  idx s (S n) v = idx s (S n) w ∧ page s n v = page s n w.
Proof.
  intros Hs. split.
  - intros H. rewrite !idx_page, !(page_low_bits s n), H by done. done.
  - intros [H1 H2]. by rewrite !(page_split s n), H1, H2.
Qed.

Lemma page_0 s v : page s 0 v = idx s 0 v.
Proof. unfold page, idx. f_equal. f_equal. lia. Qed.

Lemma load_empty s n v : default 0 (load s n (empty_table n) v) = 0.
Proof. by destruct n. Qed.

(** Storing the address of a page: that page translates to it, and every
    address translated before still is.  (A level that had to be created makes
    the other pages below it translate to 0 instead of nothing.) *)
Lemma load_store mmap_ok s n t v p a w :
  0 <= s → (∀ a, mmap_ok a = true) →
  default 0 (load s n (store mmap_ok s n t v p a).1 w) =
  if decide (page s n v = page s n w) then p else default 0 (load s n t w).
Proof.
  intros Hs Hm. revert t a. induction n as [|n IH]; intros t a.
  - rewrite !page_0. simpl. case_decide as E.
    + by rewrite E, lookup_insert_eq.
    + by rewrite lookup_insert_ne.
  - assert (page s (S n) v = page s (S n) w ↔
      idx s (S n) v = idx s (S n) w ∧ page s n v = page s n w) as HS by by apply page_S.
    simpl. destruct (decide (idx s (S n) v = idx s (S n) w)) as [Ei|Ei].
    + rewrite Ei.  destruct (next t (idx s (S n) w)) as [level|]; [|rewrite Hm]; cbn [fst];
        rewrite next_set_eq; simpl; rewrite IH, ?load_empty;
        do 2 case_decide; naive_solver.
    + rewrite decide_False by naive_solver.
      destruct (next t (idx s (S n) v)) as [level|]; [|rewrite Hm]; cbn [fst];
        by rewrite next_set_ne.
Qed.

(** ** A range of pages *)

Lemma page_low_mod s x : 0 <= s → page_low s x = x mod 2 ^ s.
Proof. intros. unfold page_low. by rewrite Z.land_ones. Qed.

(** Addresses below this bound are told apart by the table's levels. *)
Definition addr_bits (s : Z) (n : nat) : Z := s + 9 * Z.of_nat (S n).

Lemma page_div s n v : 0 <= s → 0 <= v < 2 ^ addr_bits s n → page s n v = v / 2 ^ s.
Proof.
  intros Hs Hv. unfold page, addr_bits in *. rewrite Z.land_ones, Z.shiftr_div_pow2 by lia.
  apply Z.mod_small. split; [apply Z.div_pos; lia|].
  apply Z.div_lt_upper_bound; [lia|]. rewrite <- Z.pow_add_r by lia. lia.
Qed.

Lemma load_store_pages mmap_ok s n cnt t virt phys q a w :
  0 <= s → (∀ a, mmap_ok a = true) →
  0 <= q → 0 <= virt → virt mod 2 ^ s = 0 →
  virt + (q + Z.of_nat cnt) * 2 ^ s <= 2 ^ addr_bits s n → addr_bits s n <= 64 →
  0 <= w < 2 ^ addr_bits s n →
  default 0 (load s n (store_pages mmap_ok s cnt n t virt phys (q * 2 ^ s) a).1 w) =
  if decide (q <= (w - virt) / 2 ^ s < q + Z.of_nat cnt)
  then u64 (phys + (w - virt) / 2 ^ s * 2 ^ s)
  else default 0 (load s n t w).
Proof.
  intros Hs Hm. revert t q a. induction cnt as [|cnt IH]; intros t q a Hq Hvirt Hal Hb Hb64 Hw.
  - simpl. rewrite decide_False by lia. done.
  - pose proof (pow2_pos s Hs) as Hp.
    assert (2 ^ addr_bits s n <= 2 ^ 64) by (apply Z.pow_le_mono_r; lia).
    assert (0 <= q * 2 ^ s ∧ 0 <= Z.of_nat cnt * 2 ^ s) as [] by nia.
    assert ((q + Z.of_nat (S cnt)) * 2 ^ s = q * 2 ^ s + 2 ^ s + Z.of_nat cnt * 2 ^ s) by lia.
    simpl. replace (q * 2 ^ s + 2 ^ s) with ((q + 1) * 2 ^ s) by lia.
    rewrite IH by (try done; lia).
    rewrite (wrap_small 64 (virt + _)), load_store, !page_div by (done || lia).
    rewrite (Z.div_add virt) by lia.
    apply Z.div_exact in Hal; [|lia]. set (k := virt / 2 ^ s) in *. rewrite Hal.
    replace (w - 2 ^ s * k) with (w + - k * 2 ^ s) by lia. rewrite Z.div_add by lia.
    destruct (decide (q + 1 <= w / 2 ^ s + - k < q + 1 + Z.of_nat cnt));
      [by rewrite decide_True by lia|].
    case_decide as E.
    + rewrite decide_True by lia. do 2 f_equal. rewrite <- E. f_equal. lia.
    + by rewrite decide_False by lia.
Qed.

Lemma get_key_range phys : 0 <= get_key phys < 2 ^ 12.
Proof. unfold get_key. rewrite page_low_mod by done. by apply Z.mod_pos_bound. Qed.

(** The entry of an address after [store_mmap_range], ... *)
Lemma load_mmap_range mmap_ok hp t virt phys size a w :
  let P := 2 ^ shift hp in
  (∀ a, mmap_ok a = true) →
  0 <= virt → virt mod P = 0 → 0 < phys → phys mod P = 0 →
  0 < size → size mod P = 0 → virt + size <= 2 ^ 57 → phys + size <= 2 ^ 64 →
  0 <= w < 2 ^ 57 →
  default 0 (load (shift hp) (depth hp) (store_mmap_range mmap_ok hp t virt phys size a).1 w) =
  if decide (virt <= w < virt + size)
  then phys + get_key phys + (w - virt) / P * P
  else default 0 (load (shift hp) (depth hp) t w).
Proof.
  cbv zeta. intros Hm Hv Hva Hp Hpa Hsz Hsa Hvb Hpb Hw.
  assert (addr_bits (shift hp) (depth hp) = 57) as Hbits by by destruct hp.
  assert (12 <= shift hp) as Hs12 by (destruct hp; done).
  set (s := shift hp) in *. pose proof (pow2_pos s ltac:(lia)) as HP.
  pose proof (get_key_range phys) as Hkey.
  assert (2 ^ 12 <= 2 ^ s) by (apply Z.pow_le_mono_r; lia).
  apply Z.div_exact in Hsa as Hsz'; [|lia]. apply Z.div_exact in Hpa as Hp'; [|lia].
  assert (page_base s phys .| get_key phys = phys + get_key phys) as Hpp.
  { unfold page_base, clear. rewrite Z.ldiff_ones_r, lor_add, Z.shiftr_div_pow2 by lia. lia. }
  assert ((size + 2 ^ s - 1) / 2 ^ s = size / 2 ^ s) as Hcnt.
  { symmetry. apply (Z.div_unique _ _ _ (2 ^ s - 1)); lia. }
  assert (0 < size / 2 ^ s) by nia.
  unfold store_mmap_range. fold s. rewrite Hpp, Hcnt.
  pose proof (load_store_pages mmap_ok s (depth hp) (Z.to_nat (size / 2 ^ s)) t virt
    (phys + get_key phys) 0 a w) as Hload.
  rewrite Hbits, Z2Nat.id, Z.mul_0_l in Hload by lia.
  specialize (Hload ltac:(lia) Hm ltac:(lia) Hv Hva ltac:(lia) ltac:(lia) Hw).
  rewrite Hload. set (d := (w - virt) / 2 ^ s) in *.
  pose proof (Z.div_mod (w - virt) (2 ^ s) ltac:(lia)) as Hdm. fold d in Hdm.
  pose proof (Z.mod_pos_bound (w - virt) (2 ^ s) ltac:(lia)) as Hmod.
  destruct (decide (virt <= w < virt + size)).
  - assert (0 <= d < size / 2 ^ s) as Hd by nia. rewrite decide_True by lia. apply wrap_small.
    assert (d * 2 ^ s + 2 ^ s <= size) by nia. lia.
  - by rewrite decide_False by nia.
Qed.

(** ... and what such an entry means. *)
Lemma load_region hp t virt phys w :
  let P := 2 ^ shift hp in
  virt mod P = 0 → 0 < phys → phys mod P = 0 → virt <= w →
  default 0 (load (shift hp) (depth hp) t w) = phys + get_key phys + (w - virt) / P * P →
  load_addr hp t w = phys + (w - virt) ∧ load_key hp t w = get_key phys.
Proof.
  cbv zeta. intros Hva Hp Hpa Hw Hload.
  assert (12 <= shift hp) as Hs12 by (destruct hp; done). unfold load_addr, load_key.
  set (s := shift hp) in *. pose proof (pow2_pos s ltac:(lia)) as HP.
  pose proof (get_key_range phys) as Hkey.
  assert (2 ^ 12 <= 2 ^ s) by (apply Z.pow_le_mono_r; lia).
  apply Z.div_exact in Hva as Hv'; [|lia]. apply Z.div_exact in Hpa as Hp'; [|lia].
  set (d := (w - virt) / 2 ^ s) in *.
  pose proof (Z.div_mod (w - virt) (2 ^ s) ltac:(lia)) as Hdm. fold d in Hdm.
  assert (0 <= d) by (apply Z.div_pos; lia).
  destruct (load s (depth hp) t w) as [p|]; cbn [default] in Hload; [|nia].
  change (p = phys + get_key phys + d * 2 ^ s) in Hload. subst p.
  set (k := phys / 2 ^ s) in *.
  assert (phys + get_key phys + d * 2 ^ s = get_key phys + (k + d) * 2 ^ s) as -> by lia.
  assert ((virt / 2 ^ s * 2 ^ s + (w - virt)) mod 2 ^ s = (w - virt) mod 2 ^ s) as Hlow
    by (rewrite Z.add_comm; apply Z.mod_add; lia).
  replace (virt / 2 ^ s * 2 ^ s + (w - virt)) with w in Hlow by lia.
  rewrite !page_low_mod, Hlow by lia. split.
  - unfold page_base, clear. rewrite Z.ldiff_ones_r, lor_add, Z.shiftr_div_pow2
      by (lia || apply Z.mod_pos_bound; lia).
    rewrite Z.div_add, (Z.div_small (get_key phys)) by lia. lia.
  - change PAGE_SHIFT with 12.
    replace (2 ^ s) with (2 ^ (s - 12) * 2 ^ 12) by (rewrite <- Z.pow_add_r by lia; f_equal; lia).
    rewrite page_low_mod, Z.mul_assoc, Z.mod_add by done. by apply Z.mod_small.
Qed.

(** C35 Address translation.  After [store_mmap_range] of a page-aligned region,
    every address of the region translates to the physical address at the same
    offset and yields the slab hash key of the region's physical base, and every
    address outside it that translated before still translates to the same
    address and key; for both page sizes. *)
Theorem store_mmap_range_correct mmap_ok hp t virt phys size a w :
  let P := 2 ^ shift hp in
  let t' := (store_mmap_range mmap_ok hp t virt phys size a).1 in
  (∀ a, mmap_ok a = true) →
  0 <= virt → virt mod P = 0 → 0 < phys → phys mod P = 0 →
  0 < size → size mod P = 0 → virt + size <= 2 ^ 57 → phys + size <= 2 ^ 64 →
  0 <= w < 2 ^ 57 →
  (virt <= w < virt + size →
   load_addr hp t' w = phys + (w - virt) ∧ load_key hp t' w = get_key phys) ∧
  (¬ (virt <= w < virt + size) → ∀ p, load (shift hp) (depth hp) t w = Some p → p ≠ 0 →
   load_addr hp t' w = load_addr hp t w ∧ load_key hp t' w = load_key hp t w).
Proof.
  cbv zeta. intros Hm Hv Hva Hp Hpa Hsz Hsa Hvb Hpb Hw.
  pose proof (load_mmap_range mmap_ok hp t virt phys size a w Hm Hv Hva Hp Hpa Hsz Hsa Hvb Hpb Hw) as Hl.
  split.
  - intros Hin. rewrite decide_True in Hl by done. apply load_region; done || lia.
  - intros Hout p Hp0 Hne. rewrite decide_False, Hp0 in Hl by done. change (default 0 (Some p)) with p in Hl.
    unfold load_addr, load_key. rewrite Hp0.
    destruct (load _ _ (store_mmap_range _ _ _ _ _ _ _).1 w) as [q|];
      [change (q = p) in Hl; by subst|by change (0 = p) in Hl; subst].
Qed.

(** ** Tables mapped and unmapped *)

Lemma sum_list_update (f g : Z → nat) l i :
  NoDup l → i ∈ l → (∀ j, j ≠ i → f j = g j) →
  (sum_list (g <$> l) + f i = sum_list (f <$> l) + g i)%nat.
Proof.
  intros Hnd Hi Hfg. induction l as [|x l IH]; [set_solver|].
  apply NoDup_cons in Hnd as [Hx Hnd].
  change (sum_list (g <$> x :: l)) with (g x + sum_list (g <$> l))%nat.
  change (sum_list (f <$> x :: l)) with (f x + sum_list (f <$> l))%nat.
  apply elem_of_cons in Hi as [->|Hi].
  - assert (f <$> l = g <$> l) as ->; [|lia].
    apply list_fmap_ext. intros k y Hy. apply Hfg. intros ->. apply Hx.
    by eapply list_elem_of_lookup_2.
  - assert (x ≠ i) by set_solver. specialize (IH Hnd Hi). rewrite (Hfg x) by done. lia.
Qed.

Definition count {n} (t : page_table (S n)) (i : Z) : nat :=
  match next t i with None => 0%nat | Some level => S (free_page_level n level) end.

Lemma free_page_level_set {n} (t : page_table (S n)) i l :
  0 <= i < LEVEL_SIZE →
  (free_page_level (S n) (set_next t i l) + count t i =
   free_page_level (S n) t + S (free_page_level n l))%nat.
Proof.
  intros Hi.
  replace (S (free_page_level n l)) with (count (set_next t i l) i)
    by (unfold count; by rewrite next_set_eq).
  apply (sum_list_update (count t) (count (set_next t i l)) (seqZ 0 LEVEL_SIZE)).
  - apply NoDup_seqZ.
  - apply elem_of_seqZ. lia.
  - intros j Hj. unfold count. by rewrite next_set_ne.
Qed.

Lemma idx_range s k v : 0 <= idx s k v < LEVEL_SIZE.
Proof. unfold idx. rewrite Z.land_ones by done. by apply Z.mod_pos_bound. Qed.

Lemma free_empty n : free_page_level n (empty_table n) = 0%nat.
Proof.
  destruct n; [done|]. simpl. generalize (seqZ 0 LEVEL_SIZE). intros l.
  by induction l.
Qed.

Lemma free_store mmap_ok s n t v p a :
  (∀ a, mmap_ok a = true) →
  (free_page_level n (store mmap_ok s n t v p a).1 + a =
   free_page_level n t + (store mmap_ok s n t v p a).2)%nat.
Proof.
  intros Hm. revert t a. induction n as [|n IH]; intros t a; [done|].
  simpl store. pose proof (idx_range s (S n) v) as Hi.
  destruct (next t (idx s (S n) v)) as [level|] eqn:E; [|rewrite Hm]; cbn [fst snd].
  - specialize (IH level a). set (r := store mmap_ok s n level v p a) in *.
    pose proof (free_page_level_set t _ r.1 Hi) as H. unfold count in H. rewrite E in H. lia.
  - specialize (IH (empty_table n) (S a)). rewrite free_empty in IH.
    set (r := store mmap_ok s n (empty_table n) v p (S a)) in *.
    pose proof (free_page_level_set t _ r.1 Hi) as H. unfold count in H. rewrite E in H. lia.
Qed.

Lemma store_count mmap_ok s n t v p a : (a <= (store mmap_ok s n t v p a).2)%nat.
Proof.
  revert t a. induction n as [|n IH]; intros t a; [done|]. simpl.
  destruct (next t (idx s (S n) v)) as [level|]; [apply IH|].
  destruct (mmap_ok a); simpl; [|lia]. specialize (IH (empty_table n) (S a)). lia.
Qed.

Lemma store_range_count mmap_ok hp t virt phys size a :
  (a <= (store_mmap_range mmap_ok hp t virt phys size a).2)%nat.
Proof.
  unfold store_mmap_range. generalize 0 as off. generalize (Z.to_nat ((size + 2 ^ shift hp - 1) / 2 ^ shift hp)) as cnt.
  intros cnt. revert t a. induction cnt as [|cnt IH]; intros t a off; [done|]. cbn [store_pages].
  etransitivity; [|apply IH]. apply store_count.
Qed.


Definition ok_always (a : nat) : bool := true.

Lemma store_mmap_range_correct_witness :
  load_addr false
    (store_mmap_range ok_always false (empty_table 4) 0x7f0000200000 0x123400000 0x200000 0).1
    0x7f00002abcde = 0x1234abcde ∧
  load_key true
    (store_mmap_range ok_always true (empty_table 3) 0x7f0000200000 0x123400000 0x200000 0).1
    0x7f00002abcde = 0x234.
Proof.
  split.
  - transitivity (0x123400000 + (0x7f00002abcde - 0x7f0000200000)); [|done].
    apply (store_mmap_range_correct ok_always false (empty_table 4) 0x7f0000200000 0x123400000
      0x200000 0 0x7f00002abcde); done || lia.
  - transitivity (get_key 0x123400000); [|done].
    apply (store_mmap_range_correct ok_always true (empty_table 3) 0x7f0000200000 0x123400000
      0x200000 0 0x7f00002abcde); done || lia.
Defined.


End PageTable.
