(* ===== verification/Slab.v ===== *)
(** * The slab allocator

    Models the bitmap allocator of [qae_mem_utils.c]: a slab of 2048 units of
    1 KB, one bit per unit in 32 words of 64 bits and a word of ones behind them
    as a barrier, and the length of each allocated block in [sizes].  [mem_alloc]
    searches for a free run through a sliding 64-bit window.  A fault is an
    access outside the bitmap or the sizes. *)

From S2P Require Import Prelude.

#[local] Open Scope Z_scope.
#[local] Open Scope qat_scope.

(** Let [lia] decide quotients and remainders by 64 and 1024. *)
#[local] Ltac Zify.zify_post_hook ::= Z.div_mod_to_equations.

Module Slab.

Definition UNIT_SIZE := 1024.
Definition QWORD_WIDTH := 64.
Definition QWORD_ALL_ONE := 0xFFFFFFFFFFFFFFFF.
Definition BITMAP_LEN := 32.
Definition CHUNK_SIZE := UNIT_SIZE * QWORD_WIDTH.
(** [BITMAP_LEN * QWORD_WIDTH] *)
Definition BLOCK_SIZES := 2048.

Definition div_round_up (n d : Z) : Z := u64 (n + d - 1) / d.

(** [sizeof(block_ctrl_t)]: 80 bytes of [mem_info], 33 words of bitmap, 2048
    16-bit sizes. *)
Definition sizeof_block_ctrl := 80 + 33 * 8 + 2048 * 2.
Definition reserved := div_round_up sizeof_block_ctrl UNIT_SIZE.

(** The count of trailing zeros, [__builtin_ctzll], from bit [i] up. *)
Fixpoint ctz_from (fuel : nat) (i w : Z) : Z :=
  match fuel with
  | O => i
  | S fuel => if Z.testbit w i then i else ctz_from fuel (i + 1) w
  end.

Definition mem_ctzll (w : Z) : Z := if w =? 0 then QWORD_WIDTH else ctz_from 64 0 w.

Definition bitmap_read (map : list Z) (window_pos : Z) : option Z :=
  let quad_word_pos := window_pos / QWORD_WIDTH in
  if BITMAP_LEN <=? quad_word_pos then Some QWORD_ALL_ONE else
  let bit_pos := window_pos mod QWORD_WIDTH in
  quad_word_window ← aget map quad_word_pos;
  if bit_pos =? 0 then Some quad_word_window else
  next_quad_word ← aget map (quad_word_pos + 1);
  Some (Z.shiftr quad_word_window bit_pos .|
        u64 (Z.shiftl next_quad_word (QWORD_WIDTH - bit_pos))).

Definition __bitmask : list Z := [
  0x0; 0x1; 0x3; 0x7; 0xf; 0x1f; 0x3f; 0x7f; 0xff; 0x1ff; 0x3ff; 0x7ff; 0xfff; 0x1fff;
  0x3fff; 0x7fff; 0xffff; 0x1ffff; 0x3ffff; 0x7ffff; 0xfffff; 0x1fffff; 0x3fffff; 0x7fffff;
  0xffffff; 0x1ffffff; 0x3ffffff; 0x7ffffff; 0xfffffff; 0x1fffffff; 0x3fffffff; 0x7fffffff;
  0xffffffff; 0x1ffffffff; 0x3ffffffff; 0x7ffffffff; 0xfffffffff; 0x1fffffffff;
  0x3fffffffff; 0x7fffffffff; 0xffffffffff; 0x1ffffffffff; 0x3ffffffffff; 0x7ffffffffff;
  0xfffffffffff; 0x1fffffffffff; 0x3fffffffffff; 0x7fffffffffff; 0xffffffffffff;
  0x1ffffffffffff; 0x3ffffffffffff; 0x7ffffffffffff; 0xfffffffffffff; 0x1fffffffffffff;
  0x3fffffffffffff; 0x7fffffffffffff; 0xffffffffffffff; 0x1ffffffffffffff;
  0x3ffffffffffffff; 0x7ffffffffffffff; 0xfffffffffffffff; 0x1fffffffffffffff;
  0x3fffffffffffffff; 0x7fffffffffffffff; 0xffffffffffffffff].

(** The [while (num--)] loops. *)
Fixpoint fill_qwords (num : nat) (bitmap : list Z) (qword v : Z) : option (list Z * Z) :=
  match num with
  | O => Some (bitmap, qword)
  | S num => bitmap ← aset bitmap qword v; fill_qwords num bitmap (qword + 1) v
  end.

(** [bitmap[qword] = op bitmap[qword] mask] *)
Definition update_qword (op : Z → Z → Z) (bitmap : list Z) (qword mask : Z) : option (list Z) :=
  w ← aget bitmap qword; aset bitmap qword (op w mask).

(** The text [set_bitmap] and [clear_bitmap] share: [op] is [|=] or [&= ~],
    [full] what the loop stores in the whole words between. *)
Definition change_bitmap (op : Z → Z → Z) (full : Z) (bitmap : list Z) (index len : Z)
    : option (list Z) :=
  let qword := index / QWORD_WIDTH in
  let offset := index mod QWORD_WIDTH in
  '(bitmap, len, qword) ←
    (if 0 <? offset then
       let width := Z.min len (QWORD_WIDTH - offset) in
       m ← aget __bitmask width;
       let mask := u64 (Z.shiftl m offset) in
       bitmap ← update_qword op bitmap qword mask;
       Some (bitmap, len - width, qword + 1)
     else Some (bitmap, len, qword));
  let num := len / QWORD_WIDTH in
  let len := len mod QWORD_WIDTH in
  '(bitmap, qword) ← fill_qwords (Z.to_nat num) bitmap qword full;
  m ← aget __bitmask len;
  update_qword op bitmap qword m.

Definition set_bitmap : list Z → Z → Z → option (list Z) :=
  change_bitmap Z.lor QWORD_ALL_ONE.
Definition clear_bitmap : list Z → Z → Z → option (list Z) :=
  change_bitmap clear 0.

(** [block_ctrl_t], without [mem_info]. *)
Record block_ctrl := BlockCtrl { bitmap : list Z; sizes : list Z }.

(** The [do] loop of [mem_alloc]: the first block of the run it settles on, or
    [None] for the NULL it returns. *)
Fixpoint alloc_loop (fuel : nat) (bm : list Z) (blocks_required align : Z)
    (window_pos first_block blocks_found : Z) : option (option Z) :=
  match fuel with
  | O => None
  | S fuel =>
    bitmap_window ← bitmap_read bm window_pos;
    let width := mem_ctzll bitmap_window in
    let blocks_found := blocks_found + width in
    if blocks_required <=? blocks_found then
      Some (if BITMAP_LEN * QWORD_WIDTH <? first_block + blocks_required
            then None else Some first_block)
    else
      let '(window_pos, first_block, blocks_found) :=
        if negb (bitmap_window =? 0) then
          let bitmap_window := Z.shiftr bitmap_window (width + 1) in
          let width_ones := mem_ctzll (u64 (Z.lnot bitmap_window)) in
          let window_pos := window_pos + (width + 1 + width_ones) in
          let window_pos :=
            if negb (align =? 0) && negb (window_pos mod align =? 0)
            then window_pos + (align - window_pos mod align) else window_pos in
          (window_pos, window_pos, 0)
        else (window_pos + width, first_block, blocks_found) in
      if window_pos <? BITMAP_LEN * QWORD_WIDTH
      then alloc_loop fuel bm blocks_required align window_pos first_block blocks_found
      else Some None
  end.

(** Every iteration moves the window on by a unit at least. *)
Definition alloc_fuel : nat := 2049.

(** [mem_alloc]: the byte offset of the block in the slab, or [None] for NULL. *)
Definition mem_alloc (cb : block_ctrl) (size align : Z) : option (option Z * block_ctrl) :=
  if size =? 0 then Some (None, cb) else
  let blocks_required := div_round_up size UNIT_SIZE in
  r ← alloc_loop alloc_fuel (bitmap cb) blocks_required align 0 0 0;
  match r with
  | None => Some (None, cb)
  | Some first_block =>
    szs ← aset (sizes cb) first_block (u16 blocks_required);
    bm ← set_bitmap (bitmap cb) first_block blocks_required;
    Some (Some (first_block * UNIT_SIZE), BlockCtrl bm szs)
  end.

(** [mem_free] of the block at byte offset [block] of the slab. *)
Definition mem_free (cb : block_ctrl) (block : Z) : option block_ctrl :=
  if negb (block mod UNIT_SIZE =? 0) then Some cb else
  let first_block := block / UNIT_SIZE in
  length ← aget (sizes cb) first_block;
  if BITMAP_LEN * QWORD_WIDTH <? length + first_block then Some cb else
  bm ← clear_bitmap (bitmap cb) first_block length;
  Some (BlockCtrl bm (sizes cb)).

(** The first two assignments of [init_slab_and_alloc], on a slab of [size]
    bytes. *)
Definition init_slab (cb : block_ctrl) (size : Z) : option block_ctrl :=
  let last := size / CHUNK_SIZE in
  bm ← aset (bitmap cb) 0 (Z.shiftl 1 reserved - 1);
  bm ← aset bm last QWORD_ALL_ONE;
  Some (BlockCtrl bm (sizes cb)).

(** ** Bits of the bitmap *)

Definition bits (bm : list Z) (i : Z) : bool :=
  match aget bm (i / 64) with Some w => Z.testbit w (i mod 64) | None => false end.

Definition bm_ok (bm : list Z) : Prop :=
  length bm = 33%nat ∧ Forall (λ w, 0 <= w < 2 ^ 64) bm.

Lemma bm_ok_get bm q w : bm_ok bm → aget bm q = Some w → 0 <= w < 2 ^ 64.
Proof.
  intros [_ Hf]. unfold aget. destruct (0 <=? q); [|done].
  intros H. by apply (Forall_lookup_1 _ _ _ _ Hf H).
Qed.

Lemma bm_ok_set bm bm' q w :
  bm_ok bm → 0 <= w < 2 ^ 64 → aset bm q w = Some bm' →
  bm_ok bm' ∧ ∀ i, bits bm' i = if i / 64 =? q then Z.testbit w (i mod 64) else bits bm i.
Proof.
  intros [Hl Hf] Hw Hs. pose proof (aset_Some _ _ _ _ Hs) as [_ Heq]. split.
  - split; [by rewrite (aset_length _ _ _ _ Hs)|]. subst bm'. by apply Forall_insert.
  - intros i. unfold bits. destruct (Z.eqb_spec (i / 64) q) as [->|Hne].
    + by rewrite (aget_aset_eq _ _ _ _ Hs).
    + rewrite (aget_aset_ne _ _ _ _ _ Hs); [done|congruence].
Qed.

Lemma bm_get bm q : bm_ok bm → 0 <= q < 33 → ∃ w, aget bm q = Some w ∧ 0 <= w < 2 ^ 64.
Proof.
  intros Hok Hq. destruct (aget_is_Some bm q) as [w Hw]; [destruct Hok as [-> _]; lia|].
  exists w. eauto using bm_ok_get.
Qed.

Lemma bitmask_ones k : 0 <= k <= 64 → aget __bitmask k = Some (Z.ones k).
Proof.
  intros Hk.
  assert (forallb (λ k, bool_decide (aget __bitmask k = Some (Z.ones k))) (seqZ 0 65) = true) as H
    by by vm_compute.
  rewrite forallb_forall in H. eapply bool_decide_eq_true_1, H.
  apply list_elem_of_In, elem_of_seqZ. lia.
Qed.

(** ** The window *)

Lemma ctz_from_spec fuel i w :
  0 <= i → let r := ctz_from fuel i w in
  i <= r <= i + Z.of_nat fuel ∧ (∀ j, i <= j < r → Z.testbit w j = false) ∧
  (r < i + Z.of_nat fuel → Z.testbit w r = true).
Proof.
  cbv zeta. revert i. induction fuel as [|fuel IH]; intros i Hi; cbn [ctz_from].
  - split_and!; [lia..|intros; lia|lia].
  - destruct (Z.testbit w i) eqn:E.
    + split_and!; [lia..|intros; lia|done].
    + destruct (IH (i + 1)) as (H1 & H2 & H3); [lia|]. split_and!; [lia..| |].
      * intros j Hj. destruct (decide (j = i)) as [->|]; [done|]. apply H2. lia.
      * intros. apply H3. lia.
Qed.

(** [mem_ctzll] counts the trailing zeros of a 64-bit word. *)
Lemma mem_ctzll_spec w :
  0 <= w < 2 ^ 64 → let r := mem_ctzll w in
  0 <= r <= 64 ∧ (∀ j, 0 <= j < r → Z.testbit w j = false) ∧
  (w = 0 ∧ r = 64 ∨ w ≠ 0 ∧ r < 64 ∧ Z.testbit w r = true).
Proof.
  intros Hw. cbv zeta. unfold mem_ctzll. destruct (Z.eqb_spec w 0) as [->|Hne].
  - unfold QWORD_WIDTH. split_and!; [lia..| |by left]. intros. apply Z.bits_0.
  - destruct (ctz_from_spec 64 0 w) as (H1 & H2 & H3); [lia|].
    split_and!; [lia..|done|]. right. split; [done|].
    destruct (decide (ctz_from 64 0 w = 64)) as [E|E]; [|split; [lia|apply H3; lia]].
    exfalso. apply Hne, Z.bits_inj'. intros j Hj. rewrite Z.bits_0.
    destruct (decide (j < 64)); [apply H2; lia|]. apply (testbit_high w 64); lia.
Qed.

(** [bitmap_read] returns the 64 bits from [pos] on. *)
Lemma bitmap_read_spec bm pos :
  bm_ok bm → 0 <= pos < 2048 →
  ∃ w, bitmap_read bm pos = Some w ∧ 0 <= w < 2 ^ 64 ∧
    ∀ j, 0 <= j < 64 → Z.testbit w j = bits bm (pos + j).
Proof.
  intros Hok Hpos. unfold bitmap_read, QWORD_WIDTH, BITMAP_LEN.
  destruct (Z.leb_spec 32 (pos / 64)); [lia|].
  destruct (bm_get bm (pos / 64) Hok) as (w & Hw & Hwr); [lia|]. rewrite Hw. simpl.
  destruct (Z.eqb_spec (pos mod 64) 0) as [E|E].
  - exists w. split_and!; [done|lia..|]. intros j Hj. unfold bits.
    assert ((pos + j) / 64 = pos / 64) as -> by lia.
    assert ((pos + j) mod 64 = j) as -> by lia. by rewrite Hw.
  - destruct (bm_get bm (pos / 64 + 1) Hok) as (n & Hn & Hnr); [lia|]. rewrite Hn. simpl.
    eexists. split; [done|]. split.
    + apply lor_range; [lia| |auto with qat]. split; [apply Z.shiftr_nonneg; lia|].
      rewrite Z.shiftr_div_pow2 by lia. apply Z.div_lt_upper_bound; [apply pow2_pos; lia|].
      assert (1 <= 2 ^ (pos mod 64)) by (pose proof (pow2_pos (pos mod 64)); lia). nia.
    + intros j Hj. rewrite Z.lor_spec, wrap_testbit, Z.shiftr_spec, Z.shiftl_spec by lia.
      rewrite (proj2 (Z.ltb_lt j 64)) by lia. simpl. unfold bits.
      destruct (decide (pos mod 64 + j < 64)).
      * assert ((pos + j) / 64 = pos / 64) as -> by lia.
        assert ((pos + j) mod 64 = j + pos mod 64) as -> by lia. rewrite Hw.
        rewrite (Z.testbit_neg_r n) by lia. by rewrite orb_false_r.
      * assert ((pos + j) / 64 = pos / 64 + 1) as -> by lia.
        assert ((pos + j) mod 64 = j - (64 - pos mod 64)) as -> by lia. rewrite Hn.
        rewrite (testbit_high w 64) by lia. done.
Qed.

(** ** Setting and clearing a range *)

Section change.
(** [op] sets a masked bit to [c] and leaves the others, and [full] has every
    bit equal to [c]. *)
Context (op : Z → Z → Z) (full : Z) (c : bool).
Context (op_range : ∀ w m, 0 <= w < 2 ^ 64 → 0 <= m < 2 ^ 64 → 0 <= op w m < 2 ^ 64)
  (op_bit : ∀ w m i, 0 <= i → Z.testbit (op w m) i = if Z.testbit m i then c else Z.testbit w i)
  (full_range : 0 <= full < 2 ^ 64)
  (full_bit : ∀ i, 0 <= i < 64 → Z.testbit full i = c).

(** [bm'] is [bm] with the bits from [a] up to [b] equal to [c]. *)
Definition changed (bm bm' : list Z) (a b : Z) : Prop :=
  bm_ok bm' ∧ ∀ i, 0 <= i → bits bm' i = if decide (a <= i < b) then c else bits bm i.

Lemma changed_trans bm1 bm2 bm3 a b d :
  a <= b <= d → changed bm1 bm2 a b → changed bm2 bm3 b d → changed bm1 bm3 a d.
Proof.
  intros Hab [_ H1] [Hok H2]. split; [done|]. intros i Hi. rewrite H2, H1 by done.
  repeat case_decide; done || lia.
Qed.

Lemma update_qword_spec bm q off width :
  bm_ok bm → 0 <= q < 33 → 0 <= off → 0 <= width → off + width <= 64 →
  ∃ bm', update_qword op bm q (u64 (Z.shiftl (Z.ones width) off)) = Some bm' ∧
    changed bm bm' (64 * q + off) (64 * q + off + width).
Proof.
  intros Hok Hq Hoff Hw Hle. destruct (bm_get bm q Hok Hq) as (w & Hget & Hwr).
  unfold update_qword. rewrite Hget. simpl. set (m := u64 _).
  assert (0 <= m < 2 ^ 64) as Hm by by apply wrap_range.
  rewrite aset_in by (destruct Hok as [-> _]; lia). eexists. split; [done|].
  destruct (bm_ok_set bm _ q (op w m) Hok (op_range w m Hwr Hm)
    (aset_in bm q (op w m) ltac:(destruct Hok as [-> _]; lia))) as [Hok' Hb].
  split; [done|]. intros i Hi. rewrite Hb.
  destruct (Z.eqb_spec (i / 64) q) as [E|E]; [|rewrite decide_False by lia; done].
  rewrite op_bit by lia. unfold m.
  rewrite wrap_testbit, Z.shiftl_spec by lia.
  rewrite (proj2 (Z.ltb_lt (i mod 64) 64)) by lia. simpl.
  assert (bits bm i = Z.testbit w (i mod 64)) as <- by (unfold bits; by rewrite E, Hget).
  destruct (decide (off <= i mod 64)).
  - rewrite ones_testbit by done. case_decide; zbits_cases; simpl; done || lia.
  - rewrite Z.testbit_neg_r by lia. rewrite decide_False by lia. done.
Qed.

Lemma fill_qwords_spec num bm q :
  bm_ok bm → 0 <= q → q + Z.of_nat num <= 33 →
  ∃ bm', fill_qwords num bm q full = Some (bm', q + Z.of_nat num) ∧
    changed bm bm' (64 * q) (64 * (q + Z.of_nat num)).
Proof.
  revert bm q. induction num as [|num IH]; intros bm q Hok Hq Hle; cbn [fill_qwords].
  - exists bm. split; [by rewrite Z.add_0_r|]. split; [done|]. intros i Hi.
    rewrite decide_False by lia. done.
  - rewrite aset_in by (destruct Hok as [-> _]; lia). simpl.
    set (bm1 := <[Z.to_nat q:=full]> bm).
    destruct (bm_ok_set bm bm1 q full Hok full_range
      (aset_in bm q full ltac:(destruct Hok as [-> _]; lia))) as [Hok1 Hb1].
    destruct (IH bm1 (q + 1) Hok1) as (bm' & -> & Hch); [lia..|].
    exists bm'. split; [by replace (q + 1 + Z.of_nat num) with (q + Z.of_nat (S num)) by lia|].
    replace (64 * (q + Z.of_nat (S num))) with (64 * (q + 1 + Z.of_nat num)) by lia.
    apply (changed_trans bm bm1 bm' _ (64 * (q + 1))); [lia| |done].
    split; [done|]. intros i Hi. rewrite Hb1.
    destruct (Z.eqb_spec (i / 64) q); case_decide; try lia; [|done].
    apply full_bit. lia.
Qed.

(** The range set or cleared is exactly the [len] bits from [index]. *)
Lemma change_bitmap_spec bm index len :
  bm_ok bm → 0 <= index → 0 <= len → index + len <= 2048 →
  ∃ bm', change_bitmap op full bm index len = Some bm' ∧ changed bm bm' index (index + len).
Proof.
  intros Hok Hi Hl Hle. unfold change_bitmap, QWORD_WIDTH.
  assert (∃ bm1 w q,
    (if 0 <? index mod 64 then
       m ← aget __bitmask (len `min` (64 - index mod 64));
       bm ← update_qword op bm (index / 64) (u64 (Z.shiftl m (index mod 64)));
       Some (bm, len - len `min` (64 - index mod 64), index / 64 + 1)
     else Some (bm, len, index / 64)) = Some (bm1, len - w, q) ∧
    0 <= w <= len ∧ 0 <= q <= 32 ∧ (w = len ∨ 64 * q = index + w) ∧
    changed bm bm1 index (index + w)) as (bm1 & w & q & -> & Hw & Hq & Hal & Hch1).
  { destruct (Z.ltb_spec 0 (index mod 64)).
    - rewrite bitmask_ones by lia. simpl.
      destruct (update_qword_spec bm (index / 64) (index mod 64) (len `min` (64 - index mod 64)) Hok)
        as (bm1 & -> & Hch); [lia..|]. simpl.
      exists bm1, (len `min` (64 - index mod 64)), (index / 64 + 1). split_and!; [done|lia..|].
      by replace index with (64 * (index / 64) + index mod 64) at 1 2 by lia.
    - exists bm, 0, (index / 64). rewrite Z.sub_0_r. split_and!; [done|lia..|].
      split; [done|]. intros i Hi'. by rewrite decide_False by lia. }
  simpl. set (L := len - w) in *.
  destruct (fill_qwords_spec (Z.to_nat (L / 64)) bm1 q (proj1 Hch1)) as (bm2 & -> & Hch2); [lia..|].
  rewrite Z2Nat.id in * by lia. simpl. rewrite bitmask_ones by lia. simpl.
  destruct (update_qword_spec bm2 (q + L / 64) 0 (L mod 64) (proj1 Hch2)) as (bm3 & Hrun & Hch3);
    [lia..|].
  rewrite Z.shiftl_0_r, wrap_small, Z.add_0_r in *
    by (rewrite Z.ones_equiv; pose proof (pow2_pos (L mod 64));
        pose proof (Z.pow_lt_mono_r 2 (L mod 64) 64); lia).
  exists bm3. split; [done|]. apply (changed_trans bm bm1 bm3 _ (index + w)); [lia|done|].
  assert (changed bm1 bm3 (64 * q) (64 * q + L)) as Hch.
  { apply (changed_trans bm1 bm2 bm3 _ (64 * (q + L / 64))); [lia|done|].
    by replace (64 * q + L) with (64 * (q + L / 64) + L mod 64) by lia. }
  destruct Hal as [-> | E]; [|by replace (index + len) with (64 * q + L) by lia; rewrite <- E].
  split; [apply Hch|]. intros i Hi'. rewrite (proj2 Hch) by done.
  by rewrite !decide_False by lia.
Qed.
End change.

Lemma set_bitmap_spec bm index len :
  bm_ok bm → 0 <= index → 0 <= len → index + len <= 2048 →
  ∃ bm', set_bitmap bm index len = Some bm' ∧ changed true bm bm' index (index + len).
Proof.
  apply change_bitmap_spec.
  - auto with qat.
  - intros w m i Hi. rewrite Z.lor_spec. destruct (Z.testbit m i); by rewrite ?orb_true_r, ?orb_false_r.
  - done.
  - intros i Hi. change QWORD_ALL_ONE with (Z.ones 64). apply Z.ones_spec_low. lia.
Qed.

Lemma clear_bitmap_spec bm index len :
  bm_ok bm → 0 <= index → 0 <= len → index + len <= 2048 →
  ∃ bm', clear_bitmap bm index len = Some bm' ∧ changed false bm bm' index (index + len).
Proof.
  apply change_bitmap_spec.
  - auto with qat.
  - intros w m i Hi. unfold clear. rewrite Z.ldiff_spec.
    destruct (Z.testbit m i); by rewrite ?andb_false_r, ?andb_true_r.
  - done.
  - intros i Hi. apply Z.bits_0.
Qed.

(** ** The search *)

(** The units from [s], [n] of them, are free. *)
Definition free_run (bm : list Z) (s n : Z) : Prop := ∀ i, s <= i < s + n → bits bm i = false.

(** [align] is 0 when the alignment asked for is below a unit. *)
Definition aligned (align s : Z) : Prop := align = 0 ∨ s mod align = 0.

(** The word behind the bitmap stops every run. *)
Definition barrier (bm : list Z) : Prop := ∀ i, 2048 <= i < 2112 → bits bm i = true.

(** [s] is a place for [n] units. *)
Definition fits (bm : list Z) (align n s : Z) : Prop :=
  aligned align s ∧ free_run bm s n ∧ s + n <= 2048.

Lemma align_up al p :
  0 <= al → 0 <= p →
  let p' := if negb (al =? 0) && negb (p mod al =? 0) then p + (al - p mod al) else p in
  p <= p' ∧ aligned al p' ∧ ∀ s, p <= s < p' → ¬ aligned al s.
Proof.
  intros Hal Hp. cbv zeta. unfold aligned.
  destruct (Z.eqb_spec al 0) as [->|Hne]; simpl; [split_and!; [lia|by left|intros; lia]|].
  pose proof (Z.mod_pos_bound p al ltac:(lia)) as Hr.
  destruct (Z.eqb_spec (p mod al) 0) as [E|E]; simpl; [split_and!; [lia|by right|intros; lia]|].
  split_and!; [lia| |].
  - right. pose proof (Z.div_mod p al Hne) as Hd.
    replace (p + (al - p mod al)) with ((p / al + 1) * al) by lia. by apply Z.mod_mul.
  - intros s Hs [?|Hs0]; [done|].
    pose proof (Z.div_mod p al Hne) as Hd. apply Z.div_exact in Hs0; [|done].
    assert (p / al < s / al) by nia. assert (s / al < p / al + 1) by nia. lia.
Qed.

Lemma alloc_loop_spec fuel bm req al wp fb bf :
  bm_ok bm → barrier bm → 1 <= req → 0 <= al →
  0 <= fb <= wp → wp < 2048 → bf = wp - fb → bf < req → free_run bm fb bf → aligned al fb →
  (∀ s, 0 <= s < fb → ¬ fits bm al req s) →
  2048 - wp < Z.of_nat fuel →
  ∃ r, alloc_loop fuel bm req al wp fb bf = Some r ∧
    match r with
    | Some b => 0 <= b ∧ fits bm al req b ∧ ∀ s, 0 <= s < b → ¬ fits bm al req s
    | None => ∀ s, 0 <= s → ¬ fits bm al req s
    end.
Proof.
  intros Hok Hbar Hreq Hal. revert wp fb bf.
  induction fuel as [|fuel IH]; intros wp fb bf Hfb Hwp -> Hbf Hfree Hafb Hno Hfuel; [lia|].
  cbn [alloc_loop]. unfold BITMAP_LEN, QWORD_WIDTH. change (32 * 64) with 2048.
  destruct (bitmap_read_spec bm wp Hok) as (w & -> & Hw & Hbits); [lia|]. simpl.
  pose proof (mem_ctzll_spec w Hw) as Hctz. cbv zeta in Hctz. set (width := mem_ctzll w) in *.
  destruct Hctz as (Hwd & Hzero & Hend).
  assert (free_run bm fb (wp - fb + width)) as Hfree'.
  { intros i Hi. destruct (decide (i < wp)); [apply Hfree; lia|].
    replace i with (wp + (i - wp)) by lia. rewrite <- Hbits by lia. apply Hzero. lia. }
  destruct (Z.leb_spec req (wp - fb + width)) as [Hfit|Hfit].
  { assert (free_run bm fb req) as Hrun by (intros i Hi; apply Hfree'; lia).
    assert (fb + req <= 2048).
    { destruct (decide (fb + req <= 2048)); [done|]. exfalso.
      pose proof (Hbar 2048 ltac:(lia)) as H1. by rewrite (Hrun 2048) in H1 by lia. }
    rewrite (proj2 (Z.ltb_ge _ _)) by done. exists (Some fb). split; [done|]. split; [lia|]. by split. }
  destruct Hend as [[Hw0 Hw64]|(Hw0 & Hw64 & Hset)].
  - rewrite Hw0. simpl. rewrite Hw64 in *.
    destruct (Z.ltb_spec (wp + 64) 2048).
    + apply IH; try done; try lia.
    + exists None. split; [done|]. intros s Hs Hf.
      destruct (decide (s < fb)); [by apply (Hno s)|]. destruct Hf as (_ & _ & Hle). lia.
  - rewrite (proj2 (Z.eqb_neq w 0)) by done. change (negb false) with true. cbv iota.
    set (q := wp + width) in *.
    assert (bits bm q = true) as Hq by (unfold q; rewrite <- Hbits by lia; done).
    set (w' := Z.shiftr w (width + 1)). set (nw := u64 (Z.lnot w')).
    pose proof (mem_ctzll_spec nw ltac:(by apply wrap_range)) as Hones. cbv zeta in Hones.
    set (ones := mem_ctzll nw) in *. destruct Hones as (Hod & Hoz & _).
    assert (∀ j, 0 <= j < ones → bits bm (q + 1 + j) = true) as Hrun1.
    { intros j Hj. specialize (Hoz j Hj). unfold nw, w' in Hoz.
      rewrite wrap_testbit, Z.lnot_spec, Z.shiftr_spec in Hoz by lia.
      rewrite (proj2 (Z.ltb_lt j 64)) in Hoz by lia. apply negb_false_iff in Hoz.
      destruct (decide (j + (width + 1) < 64));
        [|rewrite (testbit_high w 64) in Hoz by lia; done].
      rewrite Hbits in Hoz by lia. unfold q. rewrite <- Hoz. f_equal. lia. }
    replace (wp + (width + 1 + ones)) with (q + 1 + ones) by lia.
    destruct (align_up al (q + 1 + ones) Hal) as (Hup & Hua & Hun); [lia|]. cbv zeta in *.
    set (p := if negb (al =? 0) && _ then _ else _) in *.
    assert (∀ s, 0 <= s < p → ¬ fits bm al req s) as Hno'.
    { intros s Hs Hf. destruct (decide (s < fb)); [apply (Hno s); [lia|done]|].
      destruct Hf as (Ha & Hr & _). destruct (decide (s <= q)).
      - rewrite (Hr q) in Hq by lia. done.
      - destruct (decide (s <= q + ones)).
        + pose proof (Hrun1 (s - q - 1) ltac:(lia)) as H1.
          replace (q + 1 + (s - q - 1)) with s in H1 by lia. by rewrite (Hr s) in H1 by lia.
        + by apply (Hun s); [lia|]. }
    destruct (Z.ltb_spec p 2048).
    + apply IH; try done; try lia. intros i Hi. lia.
    + exists None. split; [done|]. intros s Hs Hf.
      destruct (decide (s < p)); [by apply (Hno' s)|]. destruct Hf as (_ & _ & Hle). lia.
Qed.

(** ** The allocator *)

Definition cb_ok (cb : block_ctrl) : Prop :=
  bm_ok (bitmap cb) ∧ barrier (bitmap cb) ∧ length (sizes cb) = 2048%nat.

(** Units a request of [size] bytes takes. *)
Definition units (size : Z) : Z := div_round_up size UNIT_SIZE.

Lemma units_range size : 0 < size < 2 ^ 64 - 1024 →
  units size = (size + 1023) / 1024 ∧ 1 <= units size ∧ size <= units size * 1024.
Proof.
  intros Hs. unfold units, div_round_up, UNIT_SIZE. rewrite wrap_small by lia.
  replace (size + 1024 - 1) with (size + 1023) by lia. lia.
Qed.

Lemma mem_alloc_spec cb size al :
  cb_ok cb → 0 < size < 2 ^ 64 - 1024 → 0 <= al →
  (∃ b cb', mem_alloc cb size al = Some (Some (1024 * b), cb') ∧
     0 <= b ∧ fits (bitmap cb) al (units size) b ∧
     (∀ s, 0 <= s < b → ¬ fits (bitmap cb) al (units size) s) ∧
     cb_ok cb' ∧ changed true (bitmap cb) (bitmap cb') b (b + units size) ∧
     sizes cb' = <[Z.to_nat b := units size]> (sizes cb)) ∨
  (mem_alloc cb size al = Some (None, cb) ∧
   ∀ s, 0 <= s → ¬ fits (bitmap cb) al (units size) s).
Proof.
  intros (Hok & Hbar & Hsz) Hs Hal. destruct (units_range size Hs) as (_ & Hu & _).
  unfold mem_alloc. destruct (Z.eqb_spec size 0); [lia|]. fold (units size).
  destruct (alloc_loop_spec alloc_fuel (bitmap cb) (units size) al 0 0 0)
    as (r & -> & Hr);
    [done|done|lia..|intros ? ?; lia|by right|intros; lia|unfold alloc_fuel; lia|].
  simpl. destruct r as [b|]; [left|right; by split].
  destruct Hr as (Hb & Hf & Hfirst). pose proof Hf as (_ & _ & Hle).
  rewrite aset_in by lia. simpl.
  destruct (set_bitmap_spec (bitmap cb) b (units size) Hok) as (bm' & -> & Hch); [lia..|].
  simpl. exists b, (BlockCtrl bm' (<[Z.to_nat b := u16 (units size)]> (sizes cb))).
  split_and!; try done.
  - unfold UNIT_SIZE. rewrite (Z.mul_comm b). reflexivity.
  - split_and!; simpl; [apply Hch| |by rewrite length_insert].
    intros i Hi. rewrite (proj2 Hch) by lia. case_decide; [done|]. by apply Hbar.
  - simpl. by rewrite wrap_small by lia.
Qed.

(** C18 First fit.  [mem_alloc] always returns; it returns a block exactly when
    some aligned run of free units is long enough, the block is the lowest such
    run, its length is recorded, and its units, which were free, are the only
    bits of the bitmap that change; otherwise it returns NULL and changes
    nothing. *)
Theorem mem_alloc_correct cb size al :
  cb_ok cb → 0 < size < 2 ^ 64 - 1024 → 0 <= al →
  (∃ b cb', mem_alloc cb size al = Some (Some (1024 * b), cb') ∧
     fits (bitmap cb) al (units size) b ∧
     (∀ s, 0 <= s < b → ¬ fits (bitmap cb) al (units size) s) ∧
     changed true (bitmap cb) (bitmap cb') b (b + units size) ∧
     aget (sizes cb') b = Some (units size)) ∨
  (mem_alloc cb size al = Some (None, cb) ∧
   ∀ s, 0 <= s → ¬ fits (bitmap cb) al (units size) s).
Proof.
  intros Hok Hs Hal.
  destruct (mem_alloc_spec cb size al Hok Hs Hal) as [(b & cb' & H & Hb & Hf & Hn & _ & Hch & Hsz)|?];
    [left|by right].
  exists b, cb'. split_and!; try done. destruct Hok as (_ & _ & Hlen), Hf as (_ & _ & Hle).
  destruct (units_range size Hs) as (_ & Hu & _).
  rewrite Hsz. unfold aget. rewrite (proj2 (Z.leb_le _ _)) by done.
  apply list_lookup_insert_eq. lia.
Qed.

(** The blocks in use: first unit to length. *)
Abbreviation blocks := (gmap Z Z).

(** What the bitmap and the sizes say: the reserved units and the live blocks
    are set, nothing else is, and live blocks do not overlap. *)
Record slab_inv (cb : block_ctrl) (live : blocks) : Prop := {
  s_ok : cb_ok cb;
  s_block b n : live !! b = Some n →
    reserved <= b ∧ 1 <= n ∧ b + n <= 2048 ∧ aget (sizes cb) b = Some n;
  s_disjoint b n b' n' : live !! b = Some n → live !! b' = Some n' → b < b' → b + n <= b';
  s_bits i : 0 <= i < 2048 →
    bits (bitmap cb) i = true ↔ i < reserved ∨ ∃ b n, live !! b = Some n ∧ b <= i < b + n
}.

Lemma alloc_keeps cb live size al off cb' :
  slab_inv cb live → 0 < size < 2 ^ 64 - 1024 → 0 <= al →
  mem_alloc cb size al = Some (Some off, cb') →
  ∃ b, off = 1024 * b ∧ live !! b = None ∧ aligned al b ∧
    size <= 1024 * units size ∧ slab_inv cb' (<[b := units size]> live).
Proof.
  intros HI Hs Hal H. destruct (units_range size Hs) as (_ & Hu & Hle).
  destruct (mem_alloc_spec cb size al (s_ok _ _ HI) Hs Hal)
    as [(b & cb1 & H1 & Hb & (Ha & Hfree & Hend) & _ & Hok & Hch & Hsz)|[H1 _]];
    rewrite H in H1; [|done].
  injection H1 as -> <-. exists b. set (u := units size) in *.
  assert (∀ i, b <= i < b + u → ¬ (i < reserved ∨
    ∃ b' n, live !! b' = Some n ∧ b' <= i < b' + n)) as Hout.
  { intros i Hi Hor. apply (s_bits _ _ HI) in Hor; [|lia]. by rewrite Hfree in Hor. }
  assert (∀ b' n, live !! b' = Some n → b' + n <= b ∨ b + u <= b') as Hdis.
  { intros b' n Hb'. pose proof (s_block _ _ HI _ _ Hb') as (_ & Hn & _).
    destruct (decide (b' + n <= b)); [by left|]. right.
    destruct (decide (b + u <= b')); [done|]. exfalso.
    apply (Hout (Z.max b b')); [lia|]. right. exists b', n. split; [done|lia]. }
  split_and!; [done| |done|lia|].
  - destruct (live !! b) as [n|] eqn:E; [|done]. exfalso.
    apply (Hout b); [lia|]. right. exists b, n. split; [done|].
    pose proof (s_block _ _ HI _ _ E). lia.
  - split; [done|..].
    + intros b' n. rewrite Hsz. destruct (decide (b' = b)) as [->|Hne].
      * rewrite lookup_insert_eq. intros [= <-]. split_and!; [|lia..|].
        -- destruct (decide (reserved <= b)); [done|]. exfalso.
           apply (Hout b); [lia|left; lia].
        -- destruct (s_ok _ _ HI) as (_ & _ & Hlen). unfold aget.
           rewrite (proj2 (Z.leb_le _ _)) by done. apply list_lookup_insert_eq. lia.
      * rewrite lookup_insert_ne by done. intros Hb'.
        pose proof (s_block _ _ HI _ _ Hb') as (? & ? & ? & Hg). split_and!; try done.
        unfold aget in *. destruct (Z.leb_spec 0 b'); [|done].
        rewrite list_lookup_insert_ne by lia. done.
    + intros b1 n1 b2 n2. rewrite !lookup_insert_Some.
      intros [[<- <-]|[? H1]] [[<- <-]|[? H2]] Hlt; [lia| | |].
      * pose proof (s_block _ _ HI _ _ H2). destruct (Hdis _ _ H2); lia.
      * pose proof (s_block _ _ HI _ _ H1). destruct (Hdis _ _ H1); lia.
      * by eapply (s_disjoint _ _ HI).
    + intros i Hi. rewrite (proj2 Hch) by lia. case_decide as E.
      * split; [|done]. intros _. right. exists b, u. by rewrite lookup_insert_eq.
      * rewrite (s_bits _ _ HI) by done. split; (intros [?|(b' & n & Hb' & Hi')]; [by left|]).
        -- right. exists b', n. rewrite lookup_insert_ne; [done|].
           intros ->. pose proof (Hdis _ _ Hb'). lia.
        -- rewrite lookup_insert_Some in Hb'. destruct Hb' as [[<- <-]|[? Hb']]; [lia|].
           right. by exists b', n.
Qed.

(** Blocks never overlap: an allocation adds a block, outside the reserved
    units and disjoint from every live block, that is large enough and aligned,
    and the bitmap and sizes describe the enlarged set of blocks. *)
Theorem mem_alloc_inv cb live size al off cb' :
  slab_inv cb live → 0 < size < 2 ^ 64 - 1024 → 0 <= al →
  mem_alloc cb size al = Some (Some off, cb') →
  ∃ b, off = 1024 * b ∧ live !! b = None ∧ aligned al b ∧
    size <= 1024 * units size ∧ slab_inv cb' (<[b := units size]> live).
Proof. apply alloc_keeps. Qed.

(** Freeing a live block. *)
Lemma free_keeps cb live b n :
  slab_inv cb live → live !! b = Some n →
  ∃ cb', mem_free cb (1024 * b) = Some cb' ∧ slab_inv cb' (delete b live).
Proof.
  intros HI Hb. pose proof (s_block _ _ HI _ _ Hb) as (Hr & Hn & Hend & Hsz).
  assert (reserved = 5) as Hres by by vm_compute.
  destruct (s_ok _ _ HI) as (Hok & Hbar & Hlen).
  unfold mem_free, UNIT_SIZE, BITMAP_LEN, QWORD_WIDTH. change (32 * 64) with 2048.
  rewrite (Z.mul_comm 1024), Z.mod_mul, Z.div_mul, Hsz by done. simpl.
  rewrite (proj2 (Z.ltb_ge _ _)) by lia.
  destruct (clear_bitmap_spec (bitmap cb) b n Hok) as (bm' & -> & Hch); [lia..|]. simpl.
  eexists. split; [done|].
  assert (∀ b' n', live !! b' = Some n' → b' ≠ b → b' + n' <= b ∨ b + n <= b') as Hdis.
  { intros b' n' Hb' Hne. pose proof (s_disjoint _ _ HI _ _ _ _ Hb Hb').
    pose proof (s_disjoint _ _ HI _ _ _ _ Hb' Hb). lia. }
  split.
  - split_and!; simpl; [apply Hch| |done].
    intros i Hi. rewrite (proj2 Hch), decide_False by lia. by apply Hbar.
  - intros b' n' [Hne Hb']%lookup_delete_Some. by apply (s_block _ _ HI).
  - intros b1 n1 b2 n2 [_ H1]%lookup_delete_Some [_ H2]%lookup_delete_Some.
    by eapply (s_disjoint _ _ HI).
  - intros i Hi. simpl. rewrite (proj2 Hch) by lia. case_decide as E.
    + split; [done|]. intros [?|(b' & n' & [Hne Hb']%lookup_delete_Some & Hi')]; [lia|].
      destruct (Hdis b' n' Hb'); [done|lia..].
    + rewrite (s_bits _ _ HI) by done. split; (intros [?|(b' & n' & Hb' & Hi')]; [by left|right]).
      * exists b', n'. rewrite lookup_delete_ne; [done|]. intros <-.
        rewrite Hb in Hb'. injection Hb' as <-. lia.
      * apply lookup_delete_Some in Hb' as [_ Hb']. by exists b', n'.
Qed.

(** Freeing a live block gives its units back, and nothing else: the bitmap
    and sizes describe the set of blocks without it. *)
Theorem mem_free_inv cb live b n :
  slab_inv cb live → live !! b = Some n →
  ∃ cb', mem_free cb (1024 * b) = Some cb' ∧ slab_inv cb' (delete b live).
Proof. apply free_keeps. Qed.

(** A slab whose bitmap is clear, as the kernel hands it out and as it is when
    every block has been freed, starts with no blocks. *)
Lemma init_slab_inv cb :
  bm_ok (bitmap cb) → length (sizes cb) = 2048%nat →
  (∀ i, reserved <= i < 2048 → bits (bitmap cb) i = false) →
  ∃ cb', init_slab cb (2048 * 1024) = Some cb' ∧ slab_inv cb' ∅.
Proof.
  intros Hok Hlen Hclear. unfold init_slab.
  assert (reserved = 5) as Hres by by vm_compute. rewrite Hres in Hclear |- *.
  change (2048 * 1024 / CHUNK_SIZE) with 32. change (Z.shiftl 1 5 - 1) with 31.
  pose proof Hok as [Hl _].
  rewrite aset_in by lia. simpl. set (bm1 := <[Z.to_nat 0 := 31]> (bitmap cb)).
  destruct (bm_ok_set _ bm1 0 31 Hok ltac:(lia) (aset_in (bitmap cb) 0 31 ltac:(lia))) as [Hok1 Hb1].
  rewrite aset_in by (destruct Hok1; lia). simpl.
  destruct (bm_ok_set bm1 _ 32 QWORD_ALL_ONE Hok1 ltac:(done)
    (aset_in bm1 32 QWORD_ALL_ONE ltac:(destruct Hok1; lia))) as [Hok2 Hb2].
  eexists. split; [done|]. split; try (intros ? ? ?; done); simpl.
  - split_and!; [done| |done]. intros i Hi. simpl. rewrite Hb2.
    destruct (Z.eqb_spec (i / 64) 32); [|lia]. change QWORD_ALL_ONE with (Z.ones 64).
    apply Z.ones_spec_low. lia.
  - intros i Hi. rewrite Hb2. destruct (Z.eqb_spec (i / 64) 32); [lia|]. rewrite Hb1, Hres.
    destruct (Z.eqb_spec (i / 64) 0).
    + change 31 with (Z.ones 5). rewrite ones_testbit by done.
      split; [intros H; left; zbits_cases; done || lia|].
      intros [?|(b & m & Hb & _)]; [zbits_cases; done || lia|by apply lookup_empty_Some in Hb].
    + rewrite Hclear by lia. split; [done|].
      intros [?|(b & m & Hb & _)]; [lia|by apply lookup_empty_Some in Hb].
Qed.

(** ** A new slab *)

Definition ex_cb : block_ctrl := BlockCtrl (replicate 33 0) (replicate 2048 0).
Definition ex_slab : block_ctrl := default ex_cb (init_slab ex_cb (2048 * 1024)).

Lemma ex_slab_inv : slab_inv ex_slab ∅.
Proof.
  destruct (init_slab_inv ex_cb) as (cb' & H & HI); [| | |].
  - split; [done|]. apply (Forall_replicate (λ w, 0 <= w < 2 ^ 64) 33). lia.
  - done.
  - intros i Hi. unfold bits, aget. change (bitmap ex_cb) with (replicate 33 0).
    destruct (0 <=? i / 64); [|done].
    destruct (replicate 33 0 !! Z.to_nat (i / 64)) as [w|] eqn:E; [|done].
    apply lookup_replicate in E as [-> _]. apply Z.bits_0.
  - unfold ex_slab. by rewrite H.
Qed.

Lemma mem_alloc_correct_witness :
  ∃ b cb', mem_alloc ex_slab 3000 4 = Some (Some (1024 * b), cb') ∧
    fits (bitmap ex_slab) 4 3 b.
Proof.
  destruct (mem_alloc_correct ex_slab 3000 4 (s_ok _ _ ex_slab_inv)) as [(b & cb' & H & Hf & _)|[H _]];
    [lia..|exists b, cb'; split; [exact H|exact Hf]|vm_compute in H; discriminate H].
Defined.

Definition ex_slab2 : block_ctrl := (default (None, ex_cb) (mem_alloc ex_slab 3000 4)).2.

Lemma mem_alloc_inv_witness : slab_inv ex_slab2 {[8 := 3]}.
Proof.
  destruct (mem_alloc_inv ex_slab ∅ 3000 4 (1024 * 8) ex_slab2 ex_slab_inv)
    as (b & Hb & _ & _ & _ & H); [lia..|by vm_compute|].
  assert (b = 8) as -> by lia. exact H.
Defined.

Lemma ex_slab2_inv : slab_inv ex_slab2 {[8 := 3]}.
Proof.
  destruct (alloc_keeps ex_slab ∅ 3000 4 (1024 * 8) ex_slab2 ex_slab_inv)
    as (b & Hb & _ & _ & _ & H); [lia..|by vm_compute|].
  assert (b = 8) as -> by lia. exact H.
Qed.

Lemma mem_free_inv_witness :
  ∃ cb', mem_free ex_slab2 (1024 * 8) = Some cb' ∧ slab_inv cb' (delete 8 {[8 := 3]}).
Proof. apply (mem_free_inv ex_slab2 {[8 := 3]} 8 3 ex_slab2_inv). by vm_compute. Defined.

End Slab.
