(* ===== verification/UsdmHeap.v ===== *)
(** * The user side of the memory driver

    Models [qae_mem_utils.c] and [qae_mem_hugepage_utils.c] of the user-space
    library: the slabs it gets from the kernel driver or from huge pages, the
    lists of slabs in use, of large slabs and of cached empty ones, the hash by
    which the slab of an address is found through the page table, opening and
    reopening the device after a fork, and the allocation, the release and the
    translation of blocks, over [Slab] (the blocks of one slab), [PageTable] and
    [DList].

    The operating system is the class [OS]: the answers of the system calls, by
    the number of calls made so far.  The state keeps what the process has of
    it: its mapped regions, its open files and the physical memory the kernel
    driver gave to its open file.  A control block that is not mapped has no
    entry in [mem]: using it is a fault. *)

From S2P Require Import Prelude DList PageTable Slab.
Import DList PageTable Slab.

#[local] Open Scope Z_scope.
#[local] Open Scope qat_scope.

Module UsdmHeap.

Definition SMALL := 0.
Definition LARGE := 1.
Definition HUGE_PAGE := 2.
Definition NUMA_ANY_NODE := -1.
Definition ENOENT := 2.
Definition QAE_PAGE_SIZE := 4096.
Definition QAE_NUM_PAGES_PER_ALLOC := 512.
(** [QAE_NUM_PAGES_PER_ALLOC * QAE_PAGE_SIZE] *)
Definition SLAB_SIZE := QAE_NUM_PAGES_PER_ALLOC * QAE_PAGE_SIZE.
Definition g_max_cache := 0x800000.
Definition g_max_lookup_num := 10.
Definition getpagesize := 4096.

(** [dev_mem_info_t] without its links, and the rest of [block_ctrl_t]. *)
Record dev_mem_info := Mem {
  nodeId : Z; size : Z; type : Z; allocations : Z; hpg_fd : Z; phy_addr : Z; virt_addr : Z;
  ctrl : block_ctrl;
}.
Definition with_allocations v k := Mem (nodeId k) (size k) (type k) v (hpg_fd k) (phy_addr k) (virt_addr k) (ctrl k).
Definition with_virt_addr v k := Mem (nodeId k) (size k) (type k) (allocations k) (hpg_fd k) (phy_addr k) v (ctrl k).
Definition with_ctrl v k := Mem (nodeId k) (size k) (type k) (allocations k) (hpg_fd k) (phy_addr k) (virt_addr k) v.

(** The control block of memory that is zero. *)
Definition zero_ctrl : block_ctrl := BlockCtrl (replicate 33 0) (replicate 2048 0).

(** [g_page_table]: as it is cleared, or as [store_mmap_range] fills it. *)
Inductive root := Zeroed | Small (t : page_table 4) | Huge (t : page_table 3).

Record state := State {
  mem : gmap Z dev_mem_info;  (* the control blocks of the slabs that are mapped *)
  ulinks : links;  (* pPrev_user, pNext_user *)
  hlinks : links;  (* pPrev_user_hash, pNext_user_hash *)
  g_slab_list : gmap Z dlist;  (* a missing chain is {0} *)
  pUserCache : dlist;
  pUserMemList : dlist;
  pUserLargeMemList : dlist;
  g_page_table : root;
  g_cache_size : Z;
  g_strict_node : Z;
  fd : Z;
  pid : Z;  (* the static variable of check_pid *)
  g_num_hugepages : Z;
  g_hugepages_enabled : bool;
  fptr_hpg : bool;  (* the function pointers are those for huge pages *)
  self : Z;  (* what getpid returns *)
  maps : gmap Z Z;  (* the mapped regions and their lengths *)
  files : gset Z;  (* the open file descriptors *)
  kmem : gmap Z Z;  (* physical memory the kernel driver gave to this file *)
  clock : nat;  (* calls of the system so far *)
}.

Definition set_mem v s := State v (ulinks s) (hlinks s) (g_slab_list s) (pUserCache s) (pUserMemList s) (pUserLargeMemList s) (g_page_table s) (g_cache_size s) (g_strict_node s) (fd s) (pid s) (g_num_hugepages s) (g_hugepages_enabled s) (fptr_hpg s) (self s) (maps s) (files s) (kmem s) (clock s).
Definition set_ulinks v s := State (mem s) v (hlinks s) (g_slab_list s) (pUserCache s) (pUserMemList s) (pUserLargeMemList s) (g_page_table s) (g_cache_size s) (g_strict_node s) (fd s) (pid s) (g_num_hugepages s) (g_hugepages_enabled s) (fptr_hpg s) (self s) (maps s) (files s) (kmem s) (clock s).
Definition set_hlinks v s := State (mem s) (ulinks s) v (g_slab_list s) (pUserCache s) (pUserMemList s) (pUserLargeMemList s) (g_page_table s) (g_cache_size s) (g_strict_node s) (fd s) (pid s) (g_num_hugepages s) (g_hugepages_enabled s) (fptr_hpg s) (self s) (maps s) (files s) (kmem s) (clock s).
Definition set_g_slab_list v s := State (mem s) (ulinks s) (hlinks s) v (pUserCache s) (pUserMemList s) (pUserLargeMemList s) (g_page_table s) (g_cache_size s) (g_strict_node s) (fd s) (pid s) (g_num_hugepages s) (g_hugepages_enabled s) (fptr_hpg s) (self s) (maps s) (files s) (kmem s) (clock s).
Definition set_pUserCache v s := State (mem s) (ulinks s) (hlinks s) (g_slab_list s) v (pUserMemList s) (pUserLargeMemList s) (g_page_table s) (g_cache_size s) (g_strict_node s) (fd s) (pid s) (g_num_hugepages s) (g_hugepages_enabled s) (fptr_hpg s) (self s) (maps s) (files s) (kmem s) (clock s).
Definition set_pUserMemList v s := State (mem s) (ulinks s) (hlinks s) (g_slab_list s) (pUserCache s) v (pUserLargeMemList s) (g_page_table s) (g_cache_size s) (g_strict_node s) (fd s) (pid s) (g_num_hugepages s) (g_hugepages_enabled s) (fptr_hpg s) (self s) (maps s) (files s) (kmem s) (clock s).
Definition set_pUserLargeMemList v s := State (mem s) (ulinks s) (hlinks s) (g_slab_list s) (pUserCache s) (pUserMemList s) v (g_page_table s) (g_cache_size s) (g_strict_node s) (fd s) (pid s) (g_num_hugepages s) (g_hugepages_enabled s) (fptr_hpg s) (self s) (maps s) (files s) (kmem s) (clock s).
Definition set_g_page_table v s := State (mem s) (ulinks s) (hlinks s) (g_slab_list s) (pUserCache s) (pUserMemList s) (pUserLargeMemList s) v (g_cache_size s) (g_strict_node s) (fd s) (pid s) (g_num_hugepages s) (g_hugepages_enabled s) (fptr_hpg s) (self s) (maps s) (files s) (kmem s) (clock s).
Definition set_g_cache_size v s := State (mem s) (ulinks s) (hlinks s) (g_slab_list s) (pUserCache s) (pUserMemList s) (pUserLargeMemList s) (g_page_table s) v (g_strict_node s) (fd s) (pid s) (g_num_hugepages s) (g_hugepages_enabled s) (fptr_hpg s) (self s) (maps s) (files s) (kmem s) (clock s).
Definition set_g_strict_node v s := State (mem s) (ulinks s) (hlinks s) (g_slab_list s) (pUserCache s) (pUserMemList s) (pUserLargeMemList s) (g_page_table s) (g_cache_size s) v (fd s) (pid s) (g_num_hugepages s) (g_hugepages_enabled s) (fptr_hpg s) (self s) (maps s) (files s) (kmem s) (clock s).
Definition set_fd v s := State (mem s) (ulinks s) (hlinks s) (g_slab_list s) (pUserCache s) (pUserMemList s) (pUserLargeMemList s) (g_page_table s) (g_cache_size s) (g_strict_node s) v (pid s) (g_num_hugepages s) (g_hugepages_enabled s) (fptr_hpg s) (self s) (maps s) (files s) (kmem s) (clock s).
Definition set_pid v s := State (mem s) (ulinks s) (hlinks s) (g_slab_list s) (pUserCache s) (pUserMemList s) (pUserLargeMemList s) (g_page_table s) (g_cache_size s) (g_strict_node s) (fd s) v (g_num_hugepages s) (g_hugepages_enabled s) (fptr_hpg s) (self s) (maps s) (files s) (kmem s) (clock s).
Definition set_g_num_hugepages v s := State (mem s) (ulinks s) (hlinks s) (g_slab_list s) (pUserCache s) (pUserMemList s) (pUserLargeMemList s) (g_page_table s) (g_cache_size s) (g_strict_node s) (fd s) (pid s) v (g_hugepages_enabled s) (fptr_hpg s) (self s) (maps s) (files s) (kmem s) (clock s).
Definition set_g_hugepages_enabled v s := State (mem s) (ulinks s) (hlinks s) (g_slab_list s) (pUserCache s) (pUserMemList s) (pUserLargeMemList s) (g_page_table s) (g_cache_size s) (g_strict_node s) (fd s) (pid s) (g_num_hugepages s) v (fptr_hpg s) (self s) (maps s) (files s) (kmem s) (clock s).
Definition set_fptr_hpg v s := State (mem s) (ulinks s) (hlinks s) (g_slab_list s) (pUserCache s) (pUserMemList s) (pUserLargeMemList s) (g_page_table s) (g_cache_size s) (g_strict_node s) (fd s) (pid s) (g_num_hugepages s) (g_hugepages_enabled s) v (self s) (maps s) (files s) (kmem s) (clock s).
Definition set_maps v s := State (mem s) (ulinks s) (hlinks s) (g_slab_list s) (pUserCache s) (pUserMemList s) (pUserLargeMemList s) (g_page_table s) (g_cache_size s) (g_strict_node s) (fd s) (pid s) (g_num_hugepages s) (g_hugepages_enabled s) (fptr_hpg s) (self s) v (files s) (kmem s) (clock s).
Definition set_files v s := State (mem s) (ulinks s) (hlinks s) (g_slab_list s) (pUserCache s) (pUserMemList s) (pUserLargeMemList s) (g_page_table s) (g_cache_size s) (g_strict_node s) (fd s) (pid s) (g_num_hugepages s) (g_hugepages_enabled s) (fptr_hpg s) (self s) (maps s) v (kmem s) (clock s).
Definition set_kmem v s := State (mem s) (ulinks s) (hlinks s) (g_slab_list s) (pUserCache s) (pUserMemList s) (pUserLargeMemList s) (g_page_table s) (g_cache_size s) (g_strict_node s) (fd s) (pid s) (g_num_hugepages s) (g_hugepages_enabled s) (fptr_hpg s) (self s) (maps s) (files s) v (clock s).
Definition set_clock v s := State (mem s) (ulinks s) (hlinks s) (g_slab_list s) (pUserCache s) (pUserMemList s) (pUserLargeMemList s) (g_page_table s) (g_cache_size s) (g_strict_node s) (fd s) (pid s) (g_num_hugepages s) (g_hugepages_enabled s) (fptr_hpg s) (self s) (maps s) (files s) (kmem s) v.

(** Answers of the system calls, by the number of calls so far: [open] of the
    device; [mkstemp]; [mmap] of a length, given the regions mapped, of the
    device or of ordinary memory, and with [MAP_HUGETLB]; whether [madvise] and
    the [mmap] of a page table succeed; the word of [/proc/self/pagemap] for a
    page number; and the driver's [ioctl]s: the physical address and the node
    of new memory, given what the file has, and the number of huge pages. *)
Class OS := {
  sys_open : nat → option Z;
  sys_mkstemp : nat → option Z;
  sys_mmap : nat → gmap Z Z → Z → option Z;
  sys_mmap_huge : nat → gmap Z Z → Z → option Z;
  sys_madvise : nat → bool;
  sys_mmap_table : nat → bool;
  sys_pagemap : nat → Z → option Z;
  sys_memalloc : nat → gmap Z Z → Z → Z → Z → option (Z * Z);
  sys_num_hpt : nat → option Z;
}.

Section heap.
Context `{OS}.

Definition tick : M state nat := n <- gets clock ;; modify (set_clock (S n)) ;; ret n.

(** ** System calls *)

Definition qae_mmap (huge : bool) (len : Z) : M state Z :=
  n <- tick ;; m <- gets maps ;;
  match (if huge then sys_mmap_huge else sys_mmap) n m len with
  | None => ret 0
  | Some a => modify (set_maps (<[a := len]> m)) ;; ret a
  end.

(** Whatever control block the region starts with is gone with it. *)
Definition qae_munmap (a : Z) : M state () :=
  modify (λ s, set_maps (delete a (maps s)) s) ;;
  modify (λ s, set_mem (delete a (mem s)) s) ;;
  modify (λ s, set_ulinks (delete a (ulinks s)) s) ;;
  modify (λ s, set_hlinks (delete a (hlinks s)) s).

(** A control block that is now mapped at [p]. *)
Definition new_slab (p : Z) (k : dev_mem_info) : M state () :=
  modify (λ s, set_mem (<[p := k]> (mem s)) s) ;;
  modify (λ s, set_ulinks (<[p := Link 0 0]> (ulinks s)) s) ;;
  modify (λ s, set_hlinks (<[p := Link 0 0]> (hlinks s)) s).

Definition close (f : Z) : M state () := modify (λ s, set_files (files s ∖ {[f]}) s).

(** What the kernel driver makes of the size asked for. *)
Definition icp_iommu_get_remapping_size (sz : Z) : Z := clear (u64 (sz + PAGE_SIZE - 1)) (PAGE_SIZE - 1).

(** [DEV_MEM_IOC_MEMALLOC]: the physical address, the node and the size. *)
Definition ioctl_MEMALLOC (sz node ty : Z) : M state (option (Z * Z * Z)) :=
  n <- tick ;; k <- gets kmem ;;
  match sys_memalloc n k sz node ty with
  | None => ret None
  | Some (phy, node') =>
    let sz := icp_iommu_get_remapping_size sz in
    modify (set_kmem (<[phy := sz]> k)) ;; ret (Some (phy, node', sz))
  end.
Definition ioctl_MEMFREE (phy : Z) : M state () := modify (λ s, set_kmem (delete phy (kmem s)) s).
Definition ioctl_RELEASE : M state () := modify (set_kmem ∅).

(** ** The control blocks, the lists and the hash *)

Definition mem_at (p : Z) : M state dev_mem_info := m <- gets mem ;; lift (m !! p).
Definition put (p : Z) (k : dev_mem_info) : M state () := modify (λ s, set_mem (<[p := k]> (mem s)) s).

Inductive queue := CACHE | USED | BIG.

Definition user_list (s : state) (q : queue) : dlist :=
  match q with CACHE => pUserCache s | USED => pUserMemList s | BIG => pUserLargeMemList s end.
Definition set_user_list (q : queue) (d : dlist) : state → state :=
  match q with
  | CACHE => set_pUserCache d | USED => set_pUserMemList d | BIG => set_pUserLargeMemList d
  end.

Definition add_user (q : queue) (p : Z) : M state () :=
  ls <- gets ulinks ;; d <- gets (λ s, user_list s q) ;;
  let! (ls, d) := lift (ADD_ELEMENT_TO_HEAD_LIST p ls d) in
  modify (set_ulinks ls) ;; modify (set_user_list q d).
Definition remove_user (q : queue) (p : Z) : M state () :=
  ls <- gets ulinks ;; d <- gets (λ s, user_list s q) ;;
  let! (ls, d) := lift (REMOVE_ELEMENT_FROM_LIST p ls d) in
  modify (set_ulinks ls) ;; modify (set_user_list q d).
Definition elements_of (q : queue) : M state (list Z) :=
  ls <- gets ulinks ;; d <- gets (λ s, user_list s q) ;; lift (dlist_elements ls d).

Definition chain (s : state) (key : Z) : dlist := default empty (g_slab_list s !! key).

Definition add_slab_to_hash (slab : Z) : M state () :=
  k <- mem_at slab ;;
  let key := get_key (phy_addr k) in
  ls <- gets hlinks ;; d <- gets (λ s, chain s key) ;;
  let! (ls, d) := lift (ADD_ELEMENT_TO_HEAD_LIST slab ls d) in
  modify (set_hlinks ls) ;; modify (λ s, set_g_slab_list (<[key := d]> (g_slab_list s)) s).
Definition del_slab_from_hash (slab : Z) : M state () :=
  k <- mem_at slab ;;
  let key := get_key (phy_addr k) in
  ls <- gets hlinks ;; d <- gets (λ s, chain s key) ;;
  let! (ls, d) := lift (REMOVE_ELEMENT_FROM_LIST slab ls d) in
  modify (set_hlinks ls) ;; modify (λ s, set_g_slab_list (<[key := d]> (g_slab_list s)) s).

(** ** The page table, through the function pointers

    A table of small pages read as one of huge pages gives the address of a
    table: the model stops there. *)

Definition load_addr_fptr (hpg : bool) (t : root) (virt : Z) : option Z :=
  match hpg, t with
  | _, Zeroed => Some 0
  | false, Small t => Some (load_addr false t virt)
  | true, Huge t => Some (load_addr true t virt)
  | _, _ => None
  end.
Definition load_key_fptr (hpg : bool) (t : root) (virt : Z) : option Z :=
  match hpg, t with
  | _, Zeroed => Some 0
  | false, Small t => Some (load_key false t virt)
  | true, Huge t => Some (load_key true t virt)
  | _, _ => None
  end.

(** [store_mmap_range] of the global table; [n] counts the system calls. *)
Definition store_range (hp : bool) (t : root) (virt phys sz : Z) (n : nat) : option (root * nat) :=
  let small t := let r := store_mmap_range sys_mmap_table false t virt phys sz n in (Small r.1, r.2) in
  let huge t := let r := store_mmap_range sys_mmap_table true t virt phys sz n in (Huge r.1, r.2) in
  match hp, t with
  | false, Zeroed => Some (small (empty_table 4))
  | false, Small t => Some (small t)
  | true, Zeroed => Some (huge (empty_table 3))
  | true, Huge t => Some (huge t)
  | _, _ => None
  end.

(** The first slab of the list that the address is in; 0 for NULL. *)
Fixpoint slab_of (m : gmap Z dev_mem_info) (l : list Z) (virt : Z) : option Z :=
  match l with
  | [] => Some 0
  | slab :: l =>
    k ← m !! slab;
    let offs := u64 (virt - virt_addr k) in
    if offs <? size k then Some slab else slab_of m l virt
  end.
Definition find_slab_in_hash (virt : Z) : M state Z :=
  hpg <- gets fptr_hpg ;; t <- gets g_page_table ;;
  key <- lift (load_key_fptr hpg t virt) ;;
  ls <- gets hlinks ;; d <- gets (λ s, chain s key) ;;
  l <- lift (dlist_elements ls d) ;; m <- gets mem ;;
  lift (slab_of m l virt).

(** [free_page_table_fptr]: the root table is zeroed.  The three levels of huge
    pages can be taken off a deeper table, not the other way round. *)
Definition free_root (hpg : bool) (t : root) : option root :=
  match hpg, t with false, Huge _ => None | _, _ => Some Zeroed end.
Definition free_page_table_fptr : M state () :=
  hpg <- gets fptr_hpg ;; t <- gets g_page_table ;; t <- lift (free_root hpg t) ;; modify (set_g_page_table t).

(** ** Huge pages ([qae_mem_hugepage_utils.c]) *)

Definition hugepage_virt2phy (virtaddr : Z) : M state Z :=
  n <- tick ;;
  match sys_pagemap n (virtaddr / getpagesize) with
  | None => ret 0
  | Some page => ret (u64 (u64 ((page .& 0x7fffffffffffff) * getpagesize) + virtaddr mod getpagesize))
  end.

Definition hugepage_mmap_phy_addr (len : Z) : M state Z :=
  n <- tick ;;
  match sys_mkstemp n with
  | None => ret 0
  | Some hpg_fd =>
    modify (λ s, set_files ({[hpg_fd]} ∪ files s) s) ;;
    addr <- qae_mmap true len ;;
    if addr =? 0 then ret 0 else
    n <- tick ;;
    if negb (sys_madvise n) then qae_munmap addr ;; ret 0 else
    new_slab addr (Mem 0 0 0 0 hpg_fd 0 0 zero_ctrl) ;; ret addr
  end.

Definition hugepage_alloc_slab (sz node ty : Z) : M state Z :=
  g <- gets g_num_hugepages ;;
  if g =? 0 then ret 0 else
  slab <- hugepage_mmap_phy_addr sz ;;
  if slab =? 0 then ret 0 else
  k <- mem_at slab ;;
  phy <- hugepage_virt2phy slab ;;
  put slab (Mem node sz ty (allocations k) (hpg_fd k) phy slab (ctrl k)) ;;
  if phy =? 0 then qae_munmap slab ;; ret 0 else
  modify (set_g_num_hugepages (u64 (g - 1))) ;; ret slab.

Definition hugepage_free_slab (memInfo : dev_mem_info) : M state () :=
  modify (λ s, set_g_num_hugepages (u64 (g_num_hugepages s + 1)) s) ;;
  close (hpg_fd memInfo).

(** The driver copies four of the eight bytes of the number. *)
Definition init_hugepages : M state Z :=
  n <- tick ;;
  r <- match sys_num_hpt n with
       | Some v => modify (λ s, set_g_num_hugepages (clear (g_num_hugepages s) 0xffffffff .| u32 v) s) ;; ret 0
       | None => modify (set_g_num_hugepages 0) ;; ret (- EIO)
       end ;;
  g <- gets g_num_hugepages ;;
  (if negb (g =? 0) then modify (set_fptr_hpg true) ;; modify (set_g_hugepages_enabled true)
   else modify (set_g_hugepages_enabled false)) ;;
  ret r.

(** ** Slabs ([qae_mem_utils.c]) *)

(** [mem_alloc] in the slab [p]: the address of the block, or 0. *)
Definition slab_alloc (p sz align : Z) : M state Z :=
  k <- mem_at p ;;
  let! (off, cb) := lift (mem_alloc (ctrl k) sz align) in
  put p (with_ctrl cb k) ;;
  ret (match off with Some off => p + off | None => 0 end).

(** The loop of [userMemLookupBySize]: the slab and the block, or 0. *)
Fixpoint lookup_loop (l : list Z) (link_num sz node align : Z) : M state (Z * Z) :=
  match l with
  | [] => ret (0, 0)
  | pCurr :: l =>
    k <- mem_at pCurr ;; strict <- gets g_strict_node ;;
    if negb (strict =? 0) && negb (nodeId k =? node) then lookup_loop l link_num sz node align else
    block <- slab_alloc pCurr sz align ;;
    if negb (block =? 0) then ret (pCurr, block) else
    let link_num := link_num + 1 in
    if g_max_lookup_num <=? link_num then ret (0, 0) else lookup_loop l link_num sz node align
  end.
Definition userMemLookupBySize (sz node align : Z) : M state (Z * Z) :=
  l <- elements_of USED ;; lookup_loop l 0 sz node align.

Definition init_slab_and_alloc (slab sz phys_align_unit : Z) : M state Z :=
  k <- mem_at slab ;;
  cb <- lift (init_slab (ctrl k) (size k)) ;;
  put slab (with_ctrl cb k) ;;
  virt_addr <- slab_alloc slab sz phys_align_unit ;;
  when (negb (virt_addr =? 0)) (add_user USED slab) ;;
  ret virt_addr.

Definition push_slab (slab : Z) : M state Z :=
  k <- mem_at slab ;; g <- gets g_cache_size ;;
  if u64 (g + size k) <=? g_max_cache then
    modify (set_g_cache_size (u64 (g + size k))) ;; add_user CACHE slab ;; ret 0
  else ret (- ENOMEM).

(** The cached slab the loop of [pop_slab] stops at; 0 for NULL. *)
Fixpoint pick_slab (m : gmap Z dev_mem_info) (l : list Z) (strict node : Z) : option Z :=
  match l with
  | [] => Some 0
  | slab :: l =>
    k ← m !! slab;
    if negb (node =? NUMA_ANY_NODE) && (negb (strict =? 0) && negb (node =? nodeId k))
    then pick_slab m l strict node else Some slab
  end.
Definition pop_slab (node : Z) : M state Z :=
  l <- elements_of CACHE ;; m <- gets mem ;; strict <- gets g_strict_node ;;
  slab <- lift (pick_slab m l strict node) ;;
  if slab =? 0 then ret 0 else
  k <- mem_at slab ;;
  modify (λ s, set_g_cache_size (u64 (g_cache_size s - size k)) s) ;;
  remove_user CACHE slab ;; ret slab.

Definition free_slab (slab : Z) : M state () :=
  del_slab_from_hash slab ;;
  memInfo <- mem_at slab ;;
  qae_munmap (virt_addr memInfo) ;;
  when (type memInfo =? LARGE) (qae_munmap slab) ;;
  if type memInfo =? HUGE_PAGE then hugepage_free_slab memInfo else ioctl_MEMFREE (phy_addr memInfo).

(** The slab and the block. *)
Definition find_slab (sz node align : Z) : M state (Z * Z) :=
  let! (slab, addr) := userMemLookupBySize sz node align in
  if negb (slab =? 0) then ret (slab, addr) else
  slab <- pop_slab node ;;
  if slab =? 0 then ret (0, addr) else
  addr <- init_slab_and_alloc slab sz align ;;
  if addr =? 0 then free_slab slab ;; ret (0, 0) else ret (slab, addr).

(** ** Opening and closing *)

Definition check_pid : M state bool :=
  p <- gets pid ;; me <- gets self ;;
  if negb (p =? me) then modify (set_pid me) ;; ret true else ret false.

Definition qaeOpenFd : M state Z :=
  is_new_pid <- check_pid ;; f <- gets fd ;;
  if (f <? 0) || is_new_pid then
    free_page_table_fptr ;;
    modify (set_g_page_table Zeroed) ;;
    modify (set_g_slab_list ∅) ;;
    modify (set_g_cache_size 0) ;;
    modify (set_pUserCache empty) ;; modify (set_pUserMemList empty) ;;
    modify (set_pUserLargeMemList empty) ;;
    when (0 <? f) (close f) ;;
    n <- tick ;; modify (set_kmem ∅) ;;
    match sys_open n with
    | None => modify (set_fd (-1)) ;; ret (- ENOENT)
    | Some f =>
      modify (set_fd f) ;; modify (λ s, set_files ({[f]} ∪ files s) s) ;;
      r <- init_hugepages ;;
      if negb (r =? 0) then ret (- EIO) else ret 0
    end
  else ret 0.

(** The results of locking and unlocking the mutex are arguments. *)
Definition qaeMemInit (lock unlock : Z) : M state Z :=
  if negb (lock =? 0) then ret (- EIO) else
  fd_status <- qaeOpenFd ;;
  if negb (unlock =? 0) then ret (- EIO) else ret fd_status.

Fixpoint destroy_loop (fuel : nat) (pCurr : Z) : M state () :=
  if pCurr =? 0 then ret () else
  match fuel with
  | O => fault
  | S fuel =>
    ls <- gets ulinks ;; l <- lift (ls !! pCurr) ;;
    let next := pNext l in
    free_slab pCurr ;; destroy_loop fuel next
  end.
Definition destroyList (q : queue) : M state () :=
  m <- gets mem ;; d <- gets (λ s, user_list s q) ;; destroy_loop (S (base.size m)) (head d).

Fixpoint reset_loop (fuel : nat) : M state () :=
  slab <- pop_slab NUMA_ANY_NODE ;;
  if slab =? 0 then ret () else
  match fuel with O => fault | S fuel => free_slab slab ;; reset_loop fuel end.
Definition reset_cache : M state () := m <- gets mem ;; reset_loop (base.size m).

Definition qaeMemDestroy (lock : Z) : M state () :=
  if negb (lock =? 0) then ret () else
  free_page_table_fptr ;;
  reset_cache ;; destroyList USED ;; destroyList BIG ;;
  modify (set_pUserCache empty) ;; modify (set_pUserMemList empty) ;;
  modify (set_pUserLargeMemList empty) ;;
  f <- gets fd ;;
  when (0 <? f) (ioctl_RELEASE ;; close f ;; modify (set_fd (-1))).

(** ** Allocation and release *)

Definition mmap_phy_addr (len : Z) : M state Z :=
  addr <- qae_mmap false len ;;
  if addr =? 0 then ret 0 else
  n <- tick ;;
  if negb (sys_madvise n) then qae_munmap addr ;; ret 0 else ret addr.

Definition ioctl_alloc_slab (sz node ty : Z) : M state Z :=
  params <- ioctl_MEMALLOC sz node ty ;;
  match params with
  | None => ret 0
  | Some (phy, node', sz) =>
    when (negb (node =? node')) (modify (set_g_strict_node 0)) ;;
    slab <- mmap_phy_addr (if ty =? SMALL then sz else getpagesize) ;;
    if slab =? 0 then ioctl_MEMFREE phy ;; ret 0 else
    new_slab slab (Mem node' sz ty 0 0 phy 0 zero_ctrl) ;;
    k <- mem_at slab ;;
    if ty =? SMALL then put slab (with_virt_addr slab k) ;; ret slab else
    virt <- mmap_phy_addr sz ;;
    put slab (with_virt_addr virt k) ;;
    if virt =? 0 then qae_munmap slab ;; ioctl_MEMFREE phy ;; ret 0 else ret slab
  end.

Definition alloc_slab (sz node ty : Z) : M state Z :=
  slab <- (if ty =? HUGE_PAGE then hugepage_alloc_slab sz node ty else ioctl_alloc_slab sz node ty) ;;
  when (negb (slab =? 0)) (add_slab_to_hash slab) ;; ret slab.

Definition set_allocations (v p : Z) : M state () := k <- mem_at p ;; put p (with_allocations v k).

(** [store_mmap_range] of the slab's memory. *)
Definition store_slab (p : Z) : M state () :=
  k <- mem_at p ;; hp <- gets g_hugepages_enabled ;; t <- gets g_page_table ;; n <- gets clock ;;
  let! (t, n) := lift (store_range hp t (virt_addr k) (phy_addr k) (size k) n) in
  modify (set_g_page_table t) ;; modify (set_clock n).

(** The last part of [alloc_addr]: a slab of its own for the block. *)
Definition alloc_new (allocate_pages sz node mem_type phys_align_unit : Z) : M state Z :=
  p_ctrl_blk <- alloc_slab (u64 (allocate_pages * UNIT_SIZE)) node mem_type ;;
  if p_ctrl_blk =? 0 then ret 0 else
  store_slab p_ctrl_blk ;;
  set_allocations 1 p_ctrl_blk ;;
  k <- mem_at p_ctrl_blk ;;
  if mem_type =? LARGE then add_user BIG p_ctrl_blk ;; ret (virt_addr k) else
  if negb (virt_addr k mod QAE_PAGE_SIZE =? 0) then free_slab p_ctrl_blk ;; ret 0 else
  pVirtAddress <- init_slab_and_alloc p_ctrl_blk sz phys_align_unit ;;
  if pVirtAddress =? 0 then free_slab p_ctrl_blk ;; ret 0 else ret pVirtAddress.

Definition alloc_addr (sz node phys_alignment_byte : Z) : M state Z :=
  let phys_align_unit := phys_alignment_byte / UNIT_SIZE in
  let requested_pages := u64 (div_round_up sz UNIT_SIZE + reserved) in
  r <- qaeOpenFd ;;
  if negb (r =? 0) then ret 0 else
  hp <- gets g_hugepages_enabled ;;
  if (SLAB_SIZE / UNIT_SIZE <? requested_pages) || (SLAB_SIZE <=? phys_alignment_byte) then
    if hp then ret 0 else
    let sz := Z.max sz phys_alignment_byte in
    alloc_new (div_round_up sz UNIT_SIZE) sz node LARGE phys_align_unit
  else
    let! (p_ctrl_blk, pVirtAddress) := find_slab sz node phys_align_unit in
    if negb (p_ctrl_blk =? 0) then
      k <- mem_at p_ctrl_blk ;; set_allocations (u32 (allocations k + 1)) p_ctrl_blk ;; ret pVirtAddress
    else
      alloc_new (SLAB_SIZE / UNIT_SIZE) sz node (if hp then HUGE_PAGE else SMALL) phys_align_unit.

Definition MAX_PHYS_ALIGN := 0x400000.

Definition qaeMemAllocNUMA (lock unlock sz node phys_alignment_byte : Z) : M state Z :=
  if sz =? 0 then ret 0 else
  if (phys_alignment_byte =? 0) || (MAX_PHYS_ALIGN <? phys_alignment_byte) ||
     negb (phys_alignment_byte .& (phys_alignment_byte - 1) =? 0) then ret 0 else
  if negb (lock =? 0) then ret 0 else
  pVirtAddress <- alloc_addr sz node phys_alignment_byte ;;
  if negb (unlock =? 0) then ret 0 else ret pVirtAddress.

(** The last assignment: what [*p_va] is afterwards. *)
Definition free_addr (p_va : Z) : M state Z :=
  r <- qaeOpenFd ;;
  if negb (r =? 0) then ret p_va else
  p_ctrl_blk <- find_slab_in_hash p_va ;;
  if p_ctrl_blk =? 0 then ret p_va else
  k <- mem_at p_ctrl_blk ;;
  if (type k =? SMALL) || (type k =? HUGE_PAGE) then
    cb <- lift (mem_free (ctrl k) (p_va - p_ctrl_blk)) ;;
    let allocs := u32 (allocations k - 1) in
    put p_ctrl_blk (with_allocations allocs (with_ctrl cb k)) ;;
    if negb (allocs =? 0) then ret 0 else
    remove_user USED p_ctrl_blk ;;
    r <- push_slab p_ctrl_blk ;;
    when (negb (r =? 0)) (free_slab p_ctrl_blk) ;; ret 0
  else
    remove_user BIG p_ctrl_blk ;; free_slab p_ctrl_blk ;; ret 0.

(** [*ptr] afterwards; a NULL [ptr] is not modelled. *)
Definition qaeMemFreeNUMA (lock ptr : Z) : M state Z :=
  if ptr =? 0 then ret ptr else
  if negb (lock =? 0) then ret 0 else free_addr ptr.

Definition qaeVirtToPhysNUMA (pVirtAddress : Z) : M state Z :=
  hpg <- gets fptr_hpg ;; t <- gets g_page_table ;; lift (load_addr_fptr hpg t pVirtAddress).

Definition memoryRemap (d : dlist) : Z := if negb (head d =? 0) then - EIO else 0.

(** [qaeAtFork] only reports: the three statuses. *)
Definition qaeAtFork : M state (Z * Z * Z) :=
  gets (λ s, (memoryRemap (pUserCache s), memoryRemap (pUserMemList s), memoryRemap (pUserLargeMemList s))).

(** ** A process *)

(** [fork]: the child, which has no region of the library ([MADV_DONTFORK]). *)
Definition fork (child : Z) (s : state) : state :=
  State ∅ ∅ ∅ (g_slab_list s) (pUserCache s) (pUserMemList s) (pUserLargeMemList s)
    (g_page_table s) (g_cache_size s) (g_strict_node s) (fd s) (pid s) (g_num_hugepages s)
    (g_hugepages_enabled s) (fptr_hpg s) child ∅ (files s) (kmem s) (clock s).

End heap.

Definition init_state (me : Z) : state :=
  State ∅ ∅ ∅ ∅ empty empty empty Zeroed 0 1 (-1) 0 0 false false me ∅ ∅ ∅ 0.

End UsdmHeap.
