(* ===== verification/UsdmHeapInv.v ===== *)
(** * The user side of the memory driver: the invariant

    The laws of the operating system, the invariant of the slabs, their lists,
    their hash and the page table, and what the operations on slabs do with it:
    getting one from the system, releasing it, storing its translation, and
    moving it between the lists. *)

From S2P Require Import Prelude DList PageTable Slab UsdmHeap.
Import DList PageTable Slab UsdmHeap.

#[local] Open Scope Z_scope.
#[local] Open Scope qat_scope.

Module UsdmHeapInv.

#[export] Instance queue_eq_dec : EqDecision queue.
Proof. solve_decision. Defined.

(** The documented behaviour of the system calls: [mmap] gives page-aligned
    memory of the user's half of the address space that is not mapped yet; the
    frame of a huge page is aligned like the page; [kmalloc] gives memory that
    is not in use, aligned to every power of two up to its size.  Two are
    restrictions: page tables can always be mapped, and a process that got huge
    pages gets some again when it opens the driver once more. *)
Definition HUGE := HUGEPAGE_SIZE.

Definition fresh_region (m : gmap Z Z) (a len : Z) : Prop :=
  0 < a ∧ a mod 4096 = 0 ∧ a + len <= 2 ^ 47 ∧
  ∀ b n, m !! b = Some n → a + len <= b ∨ b + n <= a.

Definition some_hugepages `{OS} (n : nat) : Prop :=
  ∃ v, sys_num_hpt n = Some v ∧ 0 < u32 v.

Class OSLaws `{OS} := {
  mmap_law n m len a : sys_mmap n m len = Some a → fresh_region m a len;
  mmap_huge_law n m len a : sys_mmap_huge n m len = Some a → fresh_region m a len ∧ a mod HUGE = 0;
  table_law n : sys_mmap_table n = true;
  pagemap_law n a page : a mod HUGE = 0 → sys_pagemap n (a / getpagesize) = Some page →
    let phy := u64 ((page .& 0x7fffffffffffff) * getpagesize) in
    phy mod HUGE = 0 ∧ phy + HUGE <= 2 ^ 64;
  memalloc_law n k sz node ty phy node' : sys_memalloc n k sz node ty = Some (phy, node') →
    0 < sz < 2 ^ 46 ∧ 0 < phy ∧ k !! phy = None ∧
    phy + icp_iommu_get_remapping_size sz <= 2 ^ 64 ∧
    ∀ i, 0 <= i → 2 ^ i <= icp_iommu_get_remapping_size sz → phy mod 2 ^ i = 0;
  open_law n f : sys_open n = Some f → 0 <= f;
  num_law n m : (n <= m)%nat → some_hugepages n → some_hugepages m;
}.

(** Read the fields of an updated state. *)
Ltac fields :=
  cbn [mem ulinks hlinks g_slab_list pUserCache pUserMemList pUserLargeMemList g_page_table
       g_cache_size g_strict_node fd pid g_num_hugepages g_hugepages_enabled fptr_hpg self
       maps files kmem clock set_mem set_ulinks set_hlinks set_g_slab_list set_pUserCache
       set_pUserMemList set_pUserLargeMemList set_g_page_table set_g_cache_size
       set_g_strict_node set_fd set_pid set_g_num_hugepages set_g_hugepages_enabled
       set_fptr_hpg set_maps set_files set_kmem set_clock
       nodeId size type allocations hpg_fd phy_addr virt_addr ctrl with_allocations with_virt_addr
       with_ctrl user_list set_user_list] in *.
(** The fields of the final state of a run, worked out innermost update first. *)
Ltac flat :=
  cbv beta iota delta [mem ulinks hlinks g_slab_list pUserCache pUserMemList pUserLargeMemList g_page_table
       g_cache_size g_strict_node fd pid g_num_hugepages g_hugepages_enabled fptr_hpg self
       maps files kmem clock set_mem set_ulinks set_hlinks set_g_slab_list set_pUserCache
       set_pUserMemList set_pUserLargeMemList set_g_page_table set_g_cache_size
       set_g_strict_node set_fd set_pid set_g_num_hugepages set_g_hugepages_enabled
       set_fptr_hpg set_maps set_files set_kmem set_clock
       nodeId size type allocations hpg_fd phy_addr virt_addr ctrl with_allocations with_virt_addr
       with_ctrl user_list set_user_list].
Ltac steps := repeat progress (autorewrite with monad; fields).

Section invariant.
Context `{OSLaws}.

(** ** The invariant *)

(** The page-table entry of an address. *)
Definition entry (hp : bool) (t : root) (w : Z) : Z :=
  match hp, t with
  | false, Small t => default 0 (load (shift false) (depth false) t w)
  | true, Huge t => default 0 (load (shift true) (depth true) t w)
  | _, _ => 0
  end.

Definition translated (hp : bool) (t : root) (k : dev_mem_info) : Prop :=
  ∀ w, virt_addr k <= w < virt_addr k + size k →
    entry hp t w = phy_addr k + get_key (phy_addr k) + (w - virt_addr k) / 2 ^ shift hp * 2 ^ shift hp.

(** What the library knows of the huge pages and the table. *)
Definition root_ok (hp : bool) (t : root) : Prop :=
  match hp, t with false, Huge _ | true, Small _ => False | _, _ => True end.

Record modes (s : state) : Prop := {
  mo_fptr : fptr_hpg s = g_hugepages_enabled s;
  mo_root : root_ok (g_hugepages_enabled s) (g_page_table s);
  mo_none : fptr_hpg s = false → g_num_hugepages s = 0;
  mo_some : fptr_hpg s = true → ∃ n, (n < clock s)%nat ∧ some_hugepages n;
}.

(** The memory of a slab. *)
Record mapped (hp : bool) (ms km : gmap Z Z) (p : Z) (k : dev_mem_info) : Prop := {
  ma_type : type k = if hp then HUGE_PAGE else if decide (type k = LARGE) then LARGE else SMALL;
  ma_small : type k ≠ LARGE → virt_addr k = p ∧ size k = SLAB_SIZE;
  ma_large : type k = LARGE → virt_addr k ≠ p ∧ ms !! p = Some getpagesize;
  ma_region : ms !! virt_addr k = Some (size k);
  ma_size : 0 < size k ∧ size k mod 2 ^ shift hp = 0;
  ma_virt : 0 < virt_addr k ∧ virt_addr k mod 2 ^ shift hp = 0 ∧ virt_addr k + size k <= 2 ^ 47;
  ma_phys : 0 < phy_addr k ∧ phy_addr k mod 2 ^ shift hp = 0 ∧ phy_addr k + size k <= 2 ^ 64;
  ma_align i : 0 <= i → 2 ^ i <= size k → phy_addr k mod 2 ^ i = 0;
  ma_kmem : type k ≠ HUGE_PAGE → km !! phy_addr k = Some (size k);
}.

(** The blocks of a slab, by the list it is in. *)
Definition content (q : queue) (k : dev_mem_info) (bs : blocks) : Prop :=
  match q with
  | CACHE => type k ≠ LARGE ∧ slab_inv (ctrl k) bs ∧ bs = ∅
  | USED => type k ≠ LARGE ∧ slab_inv (ctrl k) bs
  | BIG => type k = LARGE ∧ bs = {[0 := size k / 1024]}
  end.

Definition owns (p : Z) (k : dev_mem_info) (a : Z) : Prop := a = p ∨ a = virt_addr k.

(** [x] is the slab that is in no list at the moment, or 0; [ul] are the user
    lists, [ch] the chains of the hash, [B] the blocks of each listed slab. *)
Record wf (s : state) (x : Z) (ul : queue → list Z) (ch : Z → list Z) (B : Z → blocks) : Prop := {
  wf_lists : family (ulinks s) (user_list s) ul;
  wf_listed p : is_Some (mem s !! p) ↔ (p = x ∧ x ≠ 0) ∨ ∃ q, p ∈ ul q;
  wf_x q : x ∉ ul q;
  wf_ulinks : dom (ulinks s) = dom (mem s);
  wf_hash : family (hlinks s) (chain s) ch;
  wf_chain p key : p ∈ ch key ↔ ∃ k, mem s !! p = Some k ∧ get_key (phy_addr k) = key;
  wf_hlinks : dom (hlinks s) = dom (mem s);
  wf_mapped p k : mem s !! p = Some k → mapped (g_hugepages_enabled s) (maps s) (kmem s) p k;
  wf_content q p k : p ∈ ul q → mem s !! p = Some k →
    content q k (B p) ∧ translated (g_hugepages_enabled s) (g_page_table s) k;
  wf_maps a n : maps s !! a = Some n → 0 < a ∧ 0 < n ∧ a + n <= 2 ^ 47;
  wf_disjoint a n b m : maps s !! a = Some n → maps s !! b = Some m → a ≠ b → a + n <= b ∨ b + m <= a;
  wf_owned a n : maps s !! a = Some n → ∃ p k, mem s !! p = Some k ∧ owns p k a;
  wf_owner p k p' k' a : mem s !! p = Some k → mem s !! p' = Some k' → owns p k a → owns p' k' a → p = p';
  wf_kmem a n : kmem s !! a = Some n →
    ∃ p k, mem s !! p = Some k ∧ type k ≠ HUGE_PAGE ∧ phy_addr k = a;
  wf_phys p k p' k' : mem s !! p = Some k → mem s !! p' = Some k' →
    type k ≠ HUGE_PAGE → type k' ≠ HUGE_PAGE → phy_addr k = phy_addr k' → p = p';
  wf_cache : g_cache_size s = SLAB_SIZE * Z.of_nat (length (ul CACHE)) ∧ g_cache_size s <= g_max_cache;
  wf_fd : fd s < 0 → mem s = ∅;
  wf_modes : modes s;
}.

(** What a call keeps of the process. *)
Record same (s s' : state) : Prop := {
  sa_fd : fd s' = fd s; sa_pid : pid s' = pid s; sa_self : self s' = self s;
  sa_hp : g_hugepages_enabled s' = g_hugepages_enabled s;
  sa_fptr : fptr_hpg s' = fptr_hpg s;
  sa_clock : (clock s <= clock s')%nat;
}.

#[export] Instance same_preorder : PreOrder same.
Proof.
  split; [by split|]. intros s1 s2 s3 [A1 A2 A3 A4 A5 A6] [B1 B2 B3 B4 B5 B6].
  split; try congruence. lia.
Qed.

Lemma modes_same s s' :
  same s s' → root_ok (g_hugepages_enabled s) (g_page_table s') →
  (fptr_hpg s = false → g_num_hugepages s' = 0) → modes s → modes s'.
Proof.
  intros [_ _ _ E1 E2 E3] Hr Hn [M1 M2 M3 M4]. split; rewrite ?E1, ?E2; try done.
  intros Hf. destruct (M4 Hf) as (n & ? & ?). exists n. split; [lia|done].
Qed.

(** ** Releasing a slab *)

Lemma owns_self p k : owns p k p.
Proof. by left. Qed.
Lemma owns_virt p k : owns p k (virt_addr k).
Proof. by right. Qed.

Lemma wf_not_owned s x ul ch B p k p' k' a :
  wf s x ul ch B → mem s !! p = Some k → mem s !! p' = Some k' → p ≠ p' → owns p k a → ¬ owns p' k' a.
Proof. intros W Hp Hp' Hne Ho Ho'. apply Hne. by eapply wf_owner. Qed.

Lemma wf_listed_mem s x ul ch B q p : wf s x ul ch B → p ∈ ul q → ∃ k, mem s !! p = Some k ∧ p ≠ x ∧ p ≠ 0.
Proof.
  intros W Hq. assert (is_Some (mem s !! p)) as [k Hk] by (apply (wf_listed _ _ _ _ _ W); eauto).
  exists k. split; [done|]. split; [intros ->; by apply (wf_x _ _ _ _ _ W q)|].
  by eapply (family_elem _ _ _ _ _ (wf_lists _ _ _ _ _ W)).
Qed.

(** What is left when the slab [x] is gone from everything. *)
Lemma wf_delete s s' x k ul ch ch' B :
  wf s x ul ch B → x ≠ 0 → mem s !! x = Some k → same s s' →
  (∀ key p, p ∈ ch' key ↔ p ∈ ch key ∧ p ≠ x) →
  family (hlinks s') (chain s') ch' → dom (hlinks s') = dom (mem s') →
  (∀ p, p ≠ x → ulinks s' !! p = ulinks s !! p) → dom (ulinks s') = dom (mem s') →
  (∀ q, user_list s' q = user_list s q) → mem s' = delete x (mem s) →
  (∀ a, maps s' !! a = if decide (owns x k a) then None else maps s !! a) →
  kmem s' = (if decide (type k = HUGE_PAGE) then kmem s else delete (phy_addr k) (kmem s)) →
  g_page_table s' = g_page_table s → g_cache_size s' = g_cache_size s →
  (fptr_hpg s = false → g_num_hugepages s' = 0) →
  wf s' 0 ul ch' B.
Proof.
  intros W Hx0 Hx HS Hch Hfam Hdh Hul Hdu Hql Hmem Hmaps Hkm Hpt Hcs Hnum.
  pose proof HS as [Efd _ _ Ehp Efp _].
  assert (∀ p k', mem s' !! p = Some k' ↔ mem s !! p = Some k' ∧ p ≠ x) as Hm
    by (intros; rewrite Hmem, lookup_delete_Some; naive_solver).
  assert (∀ p k' a, mem s' !! p = Some k' → owns p k' a → maps s' !! a = maps s !! a) as Hma.
  { intros p k' a [Hp Hne]%Hm Ho. rewrite Hmaps, decide_False; [done|].
    by apply (wf_not_owned s x ul ch B p k'). }
  assert (∀ q p, p ∈ ul q → p ≠ x) as Hux
    by (intros q p Hp ->; by apply (wf_x _ _ _ _ _ W q)).
  split.
  - eapply family_frame; [| |apply (wf_lists _ _ _ _ _ W)]; [|done].
    intros q p Hp. by eapply Hul, Hux.
  - intros p. assert (is_Some (mem s' !! p) ↔ is_Some (mem s !! p) ∧ p ≠ x) as ->
      by (rewrite Hmem, lookup_delete_is_Some; naive_solver).
    rewrite (wf_listed _ _ _ _ _ W). split; [naive_solver|].
    intros [[-> []]|[q Hq]]; [done|]. split; [eauto|by eapply Hux].
  - intros q Hq. by destruct (family_elem _ _ _ _ _ (wf_lists _ _ _ _ _ W) Hq).
  - done.
  - done.
  - intros p key. rewrite Hch, (wf_chain _ _ _ _ _ W). setoid_rewrite Hm. naive_solver.
  - done.
  - intros p k' Hp. pose proof Hp as [Hp' Hne]%Hm. rewrite Ehp.
    destruct (wf_mapped _ _ _ _ _ W p k' Hp') as [M1 M2 M3 M4 M5 M6 M7 M8 M9]. split; try done.
    + rewrite (Hma p k' p Hp (owns_self _ _)). done.
    + rewrite (Hma p k' _ Hp (owns_virt _ _)). done.
    + intros Hty. rewrite Hkm. destruct (decide (type k = HUGE_PAGE)); [by apply M9|]. rewrite lookup_delete_ne; [by apply M9|].
      intros He. apply Hne. by apply (wf_phys _ _ _ _ _ W p k' x k).
  - intros q p k' Hq [Hp Hne]%Hm. rewrite Ehp, Hpt. by apply (wf_content _ _ _ _ _ W).
  - intros a n. rewrite Hmaps. destruct (decide (owns x k a)); [done|]. apply (wf_maps _ _ _ _ _ W).
  - intros a n b m. rewrite !Hmaps. destruct (decide (owns x k a)), (decide (owns x k b)); try done. apply (wf_disjoint _ _ _ _ _ W).
  - intros a n. rewrite Hmaps. destruct (decide (owns x k a)) as [|E]; [done|].
    intros (p & k' & Hp & Ho)%(wf_owned _ _ _ _ _ W). exists p, k'. split; [|done].
    apply Hm. split; [done|]. intros ->. rewrite Hx in Hp. by injection Hp as <-.
  - intros p k1 p' k2 a [Hp _]%Hm [Hp' _]%Hm. by apply (wf_owner _ _ _ _ _ W).
  - intros a n Ha. assert (kmem s !! a = Some n ∧ (type k ≠ HUGE_PAGE → a ≠ phy_addr k)) as [Ha' Hne].
    { rewrite Hkm in Ha. destruct (decide (type k = HUGE_PAGE)); [naive_solver|]. apply lookup_delete_Some in Ha as [? ?]. naive_solver. }
    apply (wf_kmem _ _ _ _ _ W) in Ha' as (p & k' & Hp & Hty & Hphy). exists p, k'.
    split; [|done]. apply Hm. split; [done|]. intros ->. rewrite Hx in Hp. injection Hp as <-.
    by apply Hne.
  - intros p k1 p' k2 [Hp _]%Hm [Hp' _]%Hm. by apply (wf_phys _ _ _ _ _ W).
  - rewrite Hcs. apply (wf_cache _ _ _ _ _ W).
  - rewrite Efd. intros Hfd. rewrite Hmem, (wf_fd _ _ _ _ _ W Hfd). apply delete_empty.
  - eapply modes_same, (wf_modes _ _ _ _ _ W); [done| |done].
    rewrite Hpt. apply (mo_root _ (wf_modes _ _ _ _ _ W)).
Qed.

(** Unmapping memory that no control block is at the start of, ... *)
Lemma munmap_data s a :
  dom (ulinks s) = dom (mem s) → dom (hlinks s) = dom (mem s) → mem s !! a = None →
  qae_munmap a s = Some ((), set_maps (delete a (maps s)) s).
Proof.
  intros Hu Hh Ha. pose proof Ha as Hn%not_elem_of_dom. unfold qae_munmap. steps. unfold modify. steps.
  rewrite (delete_id (mem s)), (delete_id (ulinks s)), (delete_id (hlinks s))
    by (try done; apply not_elem_of_dom; congruence).
  by destruct s.
Qed.

(** ... and that one is. *)
Lemma munmap_slab s a :
  qae_munmap a s = Some ((), set_hlinks (delete a (hlinks s)) (set_ulinks (delete a (ulinks s))
    (set_mem (delete a (mem s)) (set_maps (delete a (maps s)) s)))).
Proof. done. Qed.

(** The hash without the slab [x]. *)
Lemma heap_del_hash_spec s x k ul ch B :
  wf s x ul ch B → mem s !! x = Some k →
  ∃ ls g ch', del_slab_from_hash x s = Some ((), set_g_slab_list g (set_hlinks ls s)) ∧
    dom ls = dom (mem s) ∧ (∀ key p, p ∈ ch' key ↔ p ∈ ch key ∧ p ≠ x) ∧
    family (delete x ls) (λ key, default empty (g !! key)) ch'.
Proof.
  intros W Hx. set (key := get_key (phy_addr k)).
  assert (x ∈ ch key) as (as_ & bs & Hc)%list_elem_of_split by (apply (wf_chain _ _ _ _ _ W); eauto).
  destruct (family_remove _ _ _ _ _ _ _ (wf_hash _ _ _ _ _ W) Hc) as (ls & d & Hr & Hdom & Hin & Hfam).
  exists ls, (<[key:=d]> (g_slab_list s)), (fupd ch key (as_ ++ bs)).
  unfold del_slab_from_hash, mem_at. steps. rewrite Hx. steps. fold key. rewrite Hr. steps.
  split; [reflexivity|]. split; [by rewrite Hdom, (wf_hlinks _ _ _ _ _ W)|]. split; [done|].
  eapply family_frame; [| |apply (Hfam (λ j, default empty (<[key:=d]> (g_slab_list s) !! j)))].
  - intros j p Hp%Hin. apply lookup_delete_ne. by intros <-; destruct Hp.
  - done.
  - intros j. unfold chain. destruct (decide (j = key)) as [->|Hj].
    + by rewrite fupd_eq, lookup_insert_eq.
    + by rewrite fupd_ne, lookup_insert_ne.
Qed.

Lemma heap_free_slab_spec s x ul ch B :
  wf s x ul ch B → x ≠ 0 →
  ∃ s' ch', free_slab x s = Some ((), s') ∧ wf s' 0 ul ch' B ∧ mem s' = delete x (mem s) ∧
    same s s' ∧ g_page_table s' = g_page_table s.
Proof.
  intros W Hx0. assert (is_Some (mem s !! x)) as [k Hx] by (apply (wf_listed _ _ _ _ _ W); by left).
  pose proof (wf_mapped _ _ _ _ _ W x k Hx) as HM.
  destruct (heap_del_hash_spec s x k ul ch B W Hx) as (ls & g & ch' & Hd & Hdom & Hin & Hf).
  unfold free_slab. rewrite (bind_Some _ _ _ _ _ Hd). unfold mem_at. steps. rewrite Hx. steps.
  assert (type k = HUGE_PAGE → fptr_hpg s = true) as Hhuge.
  { rewrite (ma_type _ _ _ _ _ HM), (mo_fptr _ (wf_modes _ _ _ _ _ W)).
    destruct (g_hugepages_enabled s); [done|]. by case_decide. }
  pose proof (wf_ulinks _ _ _ _ _ W) as Hul.
  destruct (Z.eqb_spec (type k) LARGE) as [Ety|Ety].
  - destruct (ma_large _ _ _ _ _ HM Ety) as [Hvx _].
    assert (mem s !! virt_addr k = None) as Hv.
    { apply eq_None_not_Some. intros [k' Hk']. apply Hvx. symmetry.
      eapply (wf_owner _ _ _ _ _ W x k _ k'); [done..|apply owns_virt|apply owns_self]. }
    rewrite (bind_Some _ _ _ _ _ (munmap_data (set_g_slab_list g (set_hlinks ls s)) _ Hul Hdom Hv)).
    unfold when. rewrite (bind_Some _ _ _ _ _ (munmap_slab _ _)).
    rewrite (proj2 (Z.eqb_neq (type k) HUGE_PAGE)) by by rewrite Ety. unfold ioctl_MEMFREE, modify.
    eexists _, ch'. split; [reflexivity|]. split; [|split; [done|by split]].
    eapply wf_delete; fields; try done.
    + by rewrite !dom_delete_L, Hdom.
    + intros p Hp. by apply lookup_delete_ne.
    + by rewrite !dom_delete_L, Hul.
    + intros a. unfold owns. destruct (decide (a = x ∨ a = virt_addr k)) as [Ho|Ho].
      * destruct (decide (a = x)) as [->|]; [apply lookup_delete_eq|].
        rewrite lookup_delete_ne by done. destruct Ho as [->| ->]; [done|]. apply lookup_delete_eq.
      * rewrite !lookup_delete_ne; [done|naive_solver..].
    + by rewrite Ety.
    + apply (mo_none _ (wf_modes _ _ _ _ _ W)).
  - destruct (ma_small _ _ _ _ _ HM Ety) as [Hvx _]. rewrite Hvx.
    rewrite (bind_Some _ _ _ _ _ (munmap_slab _ _)). unfold when. steps.
    assert (∀ a, delete x (maps s) !! a = if decide (owns x k a) then None else maps s !! a) as Hma.
    { intros a. unfold owns. rewrite Hvx. destruct (decide (a = x ∨ a = x)) as [Ho|Ho].
      - destruct Ho as [->| ->]; apply lookup_delete_eq.
      - apply lookup_delete_ne. naive_solver. }
    destruct (Z.eqb_spec (type k) HUGE_PAGE) as [Eh|Eh].
    + unfold hugepage_free_slab, close. steps. unfold modify.
      eexists _, ch'. split; [reflexivity|]. split; [|split; [done|by split]].
      eapply wf_delete; fields; try done.
      * by rewrite !dom_delete_L, Hdom.
      * intros p Hp. by apply lookup_delete_ne.
      * by rewrite !dom_delete_L, Hul.
      * by rewrite decide_True.
      * rewrite (Hhuge Eh). done.
    + unfold ioctl_MEMFREE, modify.
      eexists _, ch'. split; [reflexivity|]. split; [|split; [done|by split]].
      eapply wf_delete; fields; try done.
      * by rewrite !dom_delete_L, Hdom.
      * intros p Hp. by apply lookup_delete_ne.
      * by rewrite !dom_delete_L, Hul.
      * by rewrite decide_False.
      * apply (mo_none _ (wf_modes _ _ _ _ _ W)).
Qed.

(** ** A new slab *)

Definition maps_ok (ms : gmap Z Z) : Prop :=
  (∀ a n, ms !! a = Some n → 0 < a ∧ 0 < n ∧ a + n <= 2 ^ 47) ∧
  ∀ a n b m, ms !! a = Some n → ms !! b = Some m → a ≠ b → a + n <= b ∨ b + m <= a.

Lemma fresh_region_none ms a len n : maps_ok ms → fresh_region ms a len → 0 < len → ms !! a = Some n → False.
Proof.
  intros [Hm _] (Ha & _ & _ & Hd) Hl Hn. destruct (Hm _ _ Hn) as (_ & ? & _). destruct (Hd _ _ Hn); lia.
Qed.

Lemma maps_ok_insert ms a len :
  maps_ok ms → fresh_region ms a len → 0 < len → maps_ok (<[a := len]> ms) ∧ ms !! a = None.
Proof.
  intros HM Hf Hl. assert (ms !! a = None) as Hn
    by (apply eq_None_not_Some; intros [n Hn]; by eapply fresh_region_none).
  split; [|done]. destruct HM as [Hm Hd], Hf as (Ha & _ & Hb & Hfr). split.
  - intros b n [[<- <-]|[_ Hb']]%lookup_insert_Some; [lia|by apply Hm].
  - 
    intros b n c m [[<- <-]|[_ Hy1]]%lookup_insert_Some [[<- <-]|[_ Hy2]]%lookup_insert_Some Hne; [done| | |by eapply Hd].
    + destruct (Hfr _ _ Hy2); lia.
    + destruct (Hfr _ _ Hy1); lia.
Qed.

Lemma wf_maps_ok s x ul ch B : wf s x ul ch B → maps_ok (maps s).
Proof. intros W. split; [apply (wf_maps _ _ _ _ _ W)|apply (wf_disjoint _ _ _ _ _ W)]. Qed.

Lemma mapped_owns hp ms km p k a : mapped hp ms km p k → owns p k a → is_Some (ms !! a).
Proof.
  intros M [->| ->]; [|by eexists; apply (ma_region _ _ _ _ _ M)].
  destruct (decide (type k = LARGE)) as [E|E].
  - destruct (ma_large _ _ _ _ _ M E) as [_ ?]. by eexists.
  - destruct (ma_small _ _ _ _ _ M E) as [Hv _]. pose proof (ma_region _ _ _ _ _ M) as Hr.
    rewrite Hv in Hr. by eexists.
Qed.

Lemma wf_mem_maps s x ul ch B p : wf s x ul ch B → is_Some (mem s !! p) → is_Some (maps s !! p).
Proof. intros W [k Hk]. by eapply mapped_owns; [eapply wf_mapped|apply owns_self]. Qed.

(** A call that got nothing may have asked, and have lost a file descriptor. *)
Definition quiet (n : nat) (v : Z) (f : gset Z) (s : state) : state :=
  set_clock n (set_g_strict_node v (set_files f s)).

Lemma quiet_same n v f s : (clock s <= n)%nat → same s (quiet n v f s).
Proof. by split. Qed.

Lemma wf_quiet n v f s x ul ch B : (clock s <= n)%nat → wf s x ul ch B → wf (quiet n v f s) x ul ch B.
Proof.
  intros Hn W. destruct W. split; try done.
  eapply modes_same; [by apply quiet_same| | |done]; apply wf_modes0.
Qed.

(** A slab [x] of size [sz] that is mapped and in no list yet. *)
Record fresh_slab (s s' : state) (x ty sz : Z) (k : dev_mem_info) : Prop := {
  fr_x : x ≠ 0 ∧ mem s !! x = None;
  fr_type : type k = ty ∧ size k = sz ∧ ctrl k = zero_ctrl;
  fr_same : same s s';
  fr_mem : mem s' = <[x := k]> (mem s);
  fr_ulinks : ulinks s' = <[x := Link 0 0]> (ulinks s);
  fr_hlinks : hlinks s' = <[x := Link 0 0]> (hlinks s);
  fr_hash : g_slab_list s' = g_slab_list s;
  fr_lists q : user_list s' q = user_list s q;
  fr_mapped : mapped (g_hugepages_enabled s) (maps s') (kmem s') x k;
  fr_maps_ok : maps_ok (maps s');
  fr_sub : maps s ⊆ maps s';
  fr_owned a n : maps s' !! a = Some n → maps s !! a = Some n ∨ owns x k a;
  fr_new a : owns x k a → maps s !! a = None;
  fr_kmem : kmem s' = if decide (ty = HUGE_PAGE) then kmem s else <[phy_addr k := sz]> (kmem s);
  fr_phy : ty ≠ HUGE_PAGE → kmem s !! phy_addr k = None;
  fr_table : g_page_table s' = g_page_table s;
  fr_cache : g_cache_size s' = g_cache_size s;
  fr_num : fptr_hpg s = false → g_num_hugepages s' = 0;
}.

Lemma wf_insert s s1 s2 x ty sz k ul ch ch' B ls g :
  wf s 0 ul ch B → 0 <= fd s → fresh_slab s s1 x ty sz k →
  s2 = set_g_slab_list g (set_hlinks ls s1) →
  family ls (λ key, default empty (g !! key)) ch' → dom ls = dom (mem s1) →
  (∀ key p, p ∈ ch' key ↔ p ∈ ch key ∨ p = x ∧ key = get_key (phy_addr k)) →
  wf s2 x ul ch' B.
Proof.
  intros W Hfd [[Hx0 Hx] (Hty & Hsz & _) HS Em Eu _ _ El HM HMo Hsub Hown Hnew Ek Hphy Et Ec Hnum] ->
    Hfam Hdom Hch.
  pose proof HS as [Efd _ _ Ehp _ _].
  assert (∀ p k', mem s1 !! p = Some k' ↔ (p = x ∧ k' = k) ∨ (p ≠ x ∧ mem s !! p = Some k')) as Hm.
  { intros p k'. rewrite Em, lookup_insert_Some. naive_solver. }
  assert (∀ p k' a, mem s !! p = Some k' → owns p k' a → is_Some (maps s !! a)) as Hmo
    by (intros p k' a Hp Ho; by eapply mapped_owns; [eapply wf_mapped|]).
  assert (∀ p k', p ≠ x → mem s !! p = Some k' → mapped (g_hugepages_enabled s) (maps s1) (kmem s1) p k') as HM'.
  { intros p k' Hne Hp. destruct (wf_mapped _ _ _ _ _ W p k' Hp) as [M1 M2 M3 M4 M5 M6 M7 M8 M9]. split; try done.
    - intros Hl. destruct (M3 Hl) as [? ?]. split; [done|]. by eapply lookup_weaken.
    - by eapply lookup_weaken.
    - intros Hh. rewrite Ek. destruct (decide (ty = HUGE_PAGE)) as [|Hn]; [by apply M9|].
      rewrite lookup_insert_ne; [by apply M9|]. intros He. specialize (Hphy Hn).
      rewrite He, (M9 Hh) in Hphy. done. }
  assert (∀ q p, p ∈ ul q → p ≠ x) as Hux.
  { intros q p Hq ->. destruct (wf_listed_mem _ _ _ _ _ _ _ W Hq) as (? & ? & _). congruence. }
  split; fields.
  - eapply family_frame, (wf_lists _ _ _ _ _ W); [|intros q; apply El].
    intros q p Hp. rewrite Eu. apply lookup_insert_ne. intros <-. by apply (Hux q x).
  - intros p. rewrite Em, lookup_insert_is_Some', (wf_listed _ _ _ _ _ W). naive_solver.
  - intros q Hq. by apply (Hux q x).
  - rewrite Eu, Em, !dom_insert_L. by rewrite (wf_ulinks _ _ _ _ _ W).
  - done.
  - intros p key. rewrite Hch, (wf_chain _ _ _ _ _ W). setoid_rewrite Hm. split.
    + intros [(k' & Hk' & <-)|[-> ->]]; [|naive_solver]. exists k'. split; [|done]. right.
      split; [|done]. by intros ->; rewrite Hx in Hk'.
    + naive_solver.
  - done.
  - intros p k'. rewrite Ehp. intros [[-> ->]|[Hne Hp]]%Hm; [done|by apply HM'].
  - intros q p k' Hq [[-> ->]|[Hne Hp]]%Hm; [by destruct (Hux q x)|]. rewrite Ehp, Et.
    by apply (wf_content _ _ _ _ _ W).
  - apply HMo.
  - apply HMo.
  - intros a n [Ha|Ha]%Hown; [|exists x, k; split; [apply Hm; by left|done]].
    apply (wf_owned _ _ _ _ _ W) in Ha as (p & k' & Hp & Ho). exists p, k'. split; [|done].
    apply Hm. right. split; [|done]. by intros ->; rewrite Hx in Hp.
  - intros p k1 p' k2 a [[-> ->]|[? Hp]]%Hm [[-> ->]|[? Hp']]%Hm Ho Ho'; [done| | |].
    + destruct (Hmo _ _ _ Hp' Ho') as [n Hn]. rewrite (Hnew a Ho) in Hn. done.
    + destruct (Hmo _ _ _ Hp Ho) as [n Hn]. rewrite (Hnew a Ho') in Hn. done.
    + by eapply (wf_owner _ _ _ _ _ W).
  - intros a n. rewrite Ek. destruct (decide (ty = HUGE_PAGE)) as [|Hn];
      [|intros [[<- <-]|[? Ha]]%lookup_insert_Some; [exists x, k; split; [apply Hm; by left|by rewrite Hty]|revert Ha]];
      (intros Ha; apply (wf_kmem _ _ _ _ _ W) in Ha as (p & k' & Hp & Hk'); exists p, k';
       split; [|done]; apply Hm; right; split; [|done]; by intros ->; rewrite Hx in Hp).
  - assert (∀ p k', mem s !! p = Some k' → type k' ≠ HUGE_PAGE → ty ≠ HUGE_PAGE → phy_addr k' ≠ phy_addr k) as Hpn.
    { intros p k' Hp Hh Hn He. specialize (Hphy Hn). rewrite <- He in Hphy.
      rewrite (ma_kmem _ _ _ _ _ (wf_mapped _ _ _ _ _ W p k' Hp) Hh) in Hphy. done. }
    rewrite <- Hty in Hpn.
    intros p k1 p' k2 [[-> ->]|[? Hp]]%Hm [[-> ->]|[? Hp']]%Hm Ht1 Ht2 He; [done| | |].
    + by destruct (Hpn _ _ Hp').
    + by destruct (Hpn _ _ Hp).
    + by eapply (wf_phys _ _ _ _ _ W).
  - rewrite Ec. apply (wf_cache _ _ _ _ _ W).
  - rewrite Efd. lia.
  - eapply modes_same, (wf_modes _ _ _ _ _ W); [by destruct HS| |done].
    fields. rewrite Et. apply (mo_root _ (wf_modes _ _ _ _ _ W)).
Qed.

Lemma qae_mmap_spec huge len s :
  qae_mmap huge len s = Some (0, set_clock (S (clock s)) s) ∨
  ∃ a, fresh_region (maps s) a len ∧ (huge = true → a mod HUGE = 0) ∧
    qae_mmap huge len s = Some (a, set_maps (<[a := len]> (maps s)) (set_clock (S (clock s)) s)).
Proof.
  unfold qae_mmap, tick. steps. destruct huge.
  - destruct (sys_mmap_huge _ _ _) as [a|] eqn:E; [right|by left].
    apply mmap_huge_law in E as [? ?]. by exists a.
  - destruct (sys_mmap _ _ _) as [a|] eqn:E; [right|by left]. apply mmap_law in E. by exists a.
Qed.

(** The control blocks are where memory is mapped. *)
Definition at_maps (s : state) : Prop :=
  dom (ulinks s) = dom (mem s) ∧ dom (hlinks s) = dom (mem s) ∧ dom (mem s) ⊆ dom (maps s).

Lemma wf_at_maps s x ul ch B : wf s x ul ch B → at_maps s.
Proof.
  intros W. split; [apply (wf_ulinks _ _ _ _ _ W)|]. split; [apply (wf_hlinks _ _ _ _ _ W)|].
  intros p Hp%elem_of_dom. apply elem_of_dom. by eapply wf_mem_maps.
Qed.

(** Memory that was just mapped is unmapped again. *)
Lemma munmap_fresh a len n s :
  at_maps s → maps_ok (maps s) → fresh_region (maps s) a len → 0 < len →
  qae_munmap a (set_clock n (set_maps (<[a := len]> (maps s)) (set_clock n s))) = Some ((), set_clock n s).
Proof.
  intros (Hu & Hh & Hd) HM Hf Hl. destruct (maps_ok_insert _ _ _ HM Hf Hl) as [_ Hn].
  rewrite munmap_data; fields; [by rewrite delete_insert_id; [destruct s|]|done..|].
  apply not_elem_of_dom. intros Hm%Hd. by apply not_elem_of_dom in Hn.
Qed.

Lemma mmap_phy_addr_spec len s :
  at_maps s → maps_ok (maps s) → 0 < len →
  ∃ n, (clock s <= n)%nat ∧
    (mmap_phy_addr len s = Some (0, set_clock n s) ∨
     ∃ a, a ≠ 0 ∧ fresh_region (maps s) a len ∧
       mmap_phy_addr len s = Some (a, set_maps (<[a := len]> (maps s)) (set_clock n s))).
Proof.
  intros Hat HM Hl. unfold mmap_phy_addr. destruct (qae_mmap_spec false len s) as [E|(a & Hf & _ & E)];
    rewrite (bind_Some _ _ _ _ _ E).
  - exists (S (clock s)). split; [lia|]. left. done.
  - pose proof Hf as (Ha & _). rewrite (proj2 (Z.eqb_neq a 0)) by lia.
    unfold tick. steps. exists (S (S (clock s))). split; [lia|].
    destruct (sys_madvise _); branch; [right; exists a; split; [lia|done]|left].
    pose proof (munmap_fresh a len (S (S (clock s))) s Hat HM Hf Hl) as Hu.
    by rewrite (bind_Some _ _ _ _ _ Hu).
Qed.

Lemma remap_round sz : 0 < sz < 2 ^ 46 →
  icp_iommu_get_remapping_size sz = (sz + 4095) / 4096 * 4096.
Proof.
  intros Hs. unfold icp_iommu_get_remapping_size, clear, PAGE_SIZE. rewrite wrap_small by lia.
  change (0x1000 - 1) with (Z.ones 12). rewrite Z.ldiff_ones_r, Z.shiftl_mul_pow2, Z.shiftr_div_pow2 by done.
  change (2 ^ 12) with 4096. do 2 f_equal. lia.
Qed.

(** Enough for the kernel's memory: a size in pages and an address with it. *)
Lemma kernel_memory sz phy :
  0 < sz < 2 ^ 46 →
  (∀ i, 0 <= i → 2 ^ i <= icp_iommu_get_remapping_size sz → phy mod 2 ^ i = 0) →
  let sz' := icp_iommu_get_remapping_size sz in
  0 < sz' ∧ sz' mod 4096 = 0 ∧ sz <= sz' < sz + 4096 ∧ phy mod 4096 = 0.
Proof.
  intros Hs Ha. cbv zeta. rewrite (remap_round sz Hs) in *.
  assert (sz <= (sz + 4095) / 4096 * 4096 < sz + 4096) as Hr.
  { pose proof (Z.div_mod (sz + 4095) 4096 ltac:(done)). pose proof (Z.mod_pos_bound (sz + 4095) 4096 ltac:(done)). lia. }
  split; [lia|]. split; [by apply Z.mod_mul|]. split; [done|].
  change 4096 with (2 ^ 12). apply Ha; [done|]. change (2 ^ 12) with 4096.
  assert (1 <= (sz + 4095) / 4096) by (apply Z.div_le_lower_bound; lia). lia.
Qed.

Definition slab_type (hp : bool) (ty : Z) : Prop :=
  if hp then ty = HUGE_PAGE else ty = SMALL ∨ ty = LARGE.

(** A system call that gives a slab of at least [sz] bytes, or nothing. *)
Definition slab_result (s : state) (ty sz : Z) (r : Z) (s' : state) : Prop :=
  (r = 0 ∧ ∃ n v f, (clock s <= n)%nat ∧ s' = quiet n v f s) ∨
  ∃ sz' k, sz <= sz' ∧ fresh_slab s s' r ty sz' k.

Lemma when_strict b s :
  ∃ v, when b (modify (set_g_strict_node 0)) s = Some ((), set_g_strict_node v s).
Proof. destruct b; [by exists 0|exists (g_strict_node s)]. by destruct s. Qed.

Lemma put_insert p k k' m s :
  put p k' (set_mem (<[p := k]> m) s) = Some ((), set_mem (<[p := k']> m) s).
Proof. unfold put, modify. fields. by rewrite insert_insert_eq. Qed.

(** The state a new slab is in, before it is in the hash. *)
Definition with_slab (p : Z) (k : dev_mem_info) (ms km : gmap Z Z) (s : state) : state :=
  set_hlinks (<[p := Link 0 0]> (hlinks s)) (set_ulinks (<[p := Link 0 0]> (ulinks s))
    (set_mem (<[p := k]> (mem s)) (set_maps ms (set_kmem km s)))).

Lemma fresh_kernel s s0 ul ch B p k ms ty sz :
  wf s 0 ul ch B → g_hugepages_enabled s = false → (ty = SMALL ∨ ty = LARGE) →
  same s s0 → mem s0 = mem s → ulinks s0 = ulinks s → hlinks s0 = hlinks s →
  g_slab_list s0 = g_slab_list s → (∀ q, user_list s0 q = user_list s q) →
  g_page_table s0 = g_page_table s → g_cache_size s0 = g_cache_size s →
  g_num_hugepages s0 = g_num_hugepages s →
  type k = ty → size k = sz → ctrl k = zero_ctrl →
  0 < sz → sz mod 4096 = 0 → 0 < phy_addr k → phy_addr k + sz <= 2 ^ 64 → kmem s !! phy_addr k = None →
  phy_addr k mod 4096 = 0 → (∀ i, 0 <= i → 2 ^ i <= sz → phy_addr k mod 2 ^ i = 0) →
  virt_addr k mod 4096 = 0 → maps_ok ms → maps s ⊆ ms → ms !! virt_addr k = Some sz →
  (ty = SMALL → virt_addr k = p ∧ sz = SLAB_SIZE) →
  (ty = LARGE → virt_addr k ≠ p ∧ ms !! p = Some getpagesize) →
  (∀ a n, ms !! a = Some n → maps s !! a = Some n ∨ owns p k a) →
  (∀ a, owns p k a → maps s !! a = None) →
  fresh_slab s (with_slab p k ms (<[phy_addr k := sz]> (kmem s)) s0) p ty sz k.
Proof.
  intros W Hhp Hty HS Em Eu Eh Eg El Et Ec En Hk Hsz Hc Hs Hsm Hp Hpe Hpn Hpa Hal Hv HMo Hsub Hr Hsmall Hlarge Hown Hnew.
  assert (∃ n, ms !! p = Some n) as [n Hn].
  { destruct Hty as [Ht|Ht]; [destruct (Hsmall Ht) as [<- _]; eauto|destruct (Hlarge Ht) as [_ ?]; eauto]. }
  assert (ty ≠ HUGE_PAGE) as Hnh by (destruct Hty as [->| ->]; done).
  split; unfold with_slab; fields; try done.
  - split; [destruct (proj1 HMo _ _ Hn); lia|]. apply eq_None_not_Some. intros Hm.
    destruct (wf_mem_maps _ _ _ _ _ p W Hm) as [m Hm']. by rewrite (Hnew p (owns_self _ _)) in Hm'.
  - by destruct HS.
  - by rewrite Em.
  - by rewrite Eu.
  - by rewrite Eh.
  - rewrite Hhp. destruct (proj1 HMo _ _ Hr) as (? & _ & ?). split; fields; try done.
    + rewrite Hk. destruct Hty as [->| ->]; by case_decide.
    + rewrite Hk, Hsz. intros Hl. apply Hsmall. by destruct Hty.
    + rewrite Hk. apply Hlarge.
    + by rewrite Hsz.
    + by rewrite Hsz.
    + by rewrite Hsz.
    + by rewrite Hsz.
    + by rewrite Hsz.
    + intros _. by rewrite lookup_insert_eq, Hsz.
  - by rewrite decide_False.
  - rewrite En. apply (mo_none _ (wf_modes _ _ _ _ _ W)).
Qed.

Lemma ioctl_alloc_slab_spec s ul ch B sz node ty :
  wf s 0 ul ch B → g_hugepages_enabled s = false → (ty = SMALL ∧ sz = SLAB_SIZE ∨ ty = LARGE) →
  ∃ r s', ioctl_alloc_slab sz node ty s = Some (r, s') ∧ slab_result s ty sz r s'.
Proof.
  intros W Hhp Hty. pose proof (wf_at_maps _ _ _ _ _ W) as Hat. pose proof (wf_maps_ok _ _ _ _ _ W) as HM.
  unfold ioctl_alloc_slab, ioctl_MEMALLOC, tick. steps.
  destruct (sys_memalloc _ _ _ _ _) as [[phy node']|] eqn:E; steps.
  2:{ eexists _, _. split; [reflexivity|]. left. split; [done|].
      exists (S (clock s)), (g_strict_node s), (files s). split; [lia|]. by destruct s. }
  destruct (memalloc_law _ _ _ _ _ _ _ E) as (Hsz & Hphy & Hpn & Hpe & Hal).
  destruct (kernel_memory sz phy Hsz Hal) as (Hs0 & Hsm & Hle & Hpa).
  set (sz' := icp_iommu_get_remapping_size sz) in *. fields.
  match goal with |- context [bind (when ?b _) _ ?s1] => destruct (when_strict b s1) as [v Hw] end.
  rewrite (bind_Some _ _ _ _ _ Hw). clear Hw.
  match goal with |- context [bind (mmap_phy_addr ?l) _ ?x] => set (s1 := x);
    destruct (mmap_phy_addr_spec l s1 Hat HM ltac:(destruct (ty =? SMALL); [done|done])) as (n & Hn & Hm) end.
  destruct Hm as [Hm|(a & Ha0 & Hfa & Hm)]; rewrite (bind_Some _ _ _ _ _ Hm); clear Hm.
  { change (0 =? 0) with true; branch. unfold ioctl_MEMFREE. subst s1. steps. eexists _, _. split; [reflexivity|].
    left. split; [done|]. exists n, v, (files s). cbn [clock set_g_strict_node set_kmem set_clock] in Hn.
    split; [lia|]. rewrite delete_insert_id by done. by destruct s. }
  rewrite (proj2 (Z.eqb_neq a 0)) by done. unfold new_slab. subst s1. steps. unfold mem_at. steps.
  rewrite lookup_insert_eq. steps.
  destruct (Z.eqb_spec ty SMALL) as [Et|Et].
  - unfold put. steps. unfold modify. fields. rewrite insert_insert_eq.
    eexists _, _. split; [reflexivity|]. right. set (k := Mem node' sz' ty 0 0 phy a zero_ctrl).
    exists sz', k. split; [lia|].
    apply (fresh_kernel s (set_clock n (set_g_strict_node v s)) ul ch B a k (<[a:=sz']> (maps s)) ty sz'); try done.
    + by left.
    + split; try done. fields. lia.
    + apply Hfa.
    + by apply maps_ok_insert.
    + apply insert_subseteq. by apply (maps_ok_insert _ _ _ HM Hfa).
    + apply lookup_insert_eq.
    + intros _. split; [done|]. destruct Hty as [[_ Hsl]|Hl]; [|by rewrite Et in Hl].
      subst sz'. rewrite Hsl. by vm_compute.
    + intros Hl. by rewrite Et in Hl.
    + intros b m [[<- <-]|[_ Hb]]%lookup_insert_Some; [right; apply owns_self|by left].
    + intros b [->| ->]; by apply (maps_ok_insert _ _ _ HM Hfa).
  - destruct Hty as [[? _]|Hl]; [done|]. change getpagesize with 4096 in Hfa.
    destruct (maps_ok_insert _ _ _ HM Hfa ltac:(done)) as [HM1 Hna].
    match goal with |- context [bind (mmap_phy_addr ?l) _ ?x] => set (s1 := x) end.
    assert (at_maps s1) as Hat1.
    { destruct Hat as (H1 & H2 & H3). unfold at_maps, s1. fields.
      split; [|split]; rewrite ?dom_insert_L, ?H1, ?H2; [done|done|]. set_solver. }
    destruct (mmap_phy_addr_spec sz' s1 Hat1 HM1 Hs0) as (n1 & Hn1 & [Hm|(b & Hb0 & Hfb & Hm)]);
      rewrite (bind_Some _ _ _ _ _ Hm); clear Hm; unfold put; steps.
    + change (0 =? 0) with true; branch. unfold ioctl_MEMFREE. subst s1. rewrite (bind_Some _ _ _ _ _ (munmap_slab _ _)).
      steps. unfold ret. eexists _, _. split; [reflexivity|]. left. split; [done|].
      exists n1, v, (files s). split; [fields; lia|]. fields.
      assert (∀ {A} (m : gmap Z A) x y, m !! a = None → delete a (<[a:=x]> (<[a:=y]> m)) = m) as Hdd
        by (intros; by rewrite insert_insert_eq, delete_insert_id).
      destruct Hat as (Hu & Hh & Hd).
      assert (a ∉ dom (mem s)) as Hnd by (intros Hin%Hd; by apply not_elem_of_dom in Hna).
      rewrite Hdd, !delete_insert_id by (try done; apply not_elem_of_dom; congruence). by destruct s.
    + rewrite (proj2 (Z.eqb_neq b 0)) by done. subst s1. fields. unfold ret.
      eexists _, _. split; [reflexivity|]. right. set (k := Mem node' sz' ty 0 0 phy b zero_ctrl).
      exists sz', k. split; [lia|]. rewrite insert_insert_eq. pose proof Hfb as (? & ? & ? & ?).
      destruct (maps_ok_insert _ _ _ HM1 Hfb Hs0) as [HM2 Hnb]. fields.
      pose proof Hnb as [Hnb' Hab]%lookup_insert_None.
      apply (fresh_kernel s (set_clock n1 (set_g_strict_node v s)) ul ch B a k
        (<[b:=sz']> (<[a:=4096]> (maps s))) ty sz'); try done.
      * by right.
      * split; try done. fields. lia.
      * etransitivity; [|by apply insert_subseteq]. by apply insert_subseteq.
      * apply lookup_insert_eq.
      * intros _. split; [done|]. rewrite lookup_insert_ne by done. apply lookup_insert_eq.
      * intros c m [[<- <-]|[_ [[<- <-]|[_ Hc]]%lookup_insert_Some]]%lookup_insert_Some;
          [right; apply owns_virt|right; apply owns_self|by left].
      * intros c [->| ->]; done.
Qed.

Lemma mod_pow2_le a i j : 0 <= i <= j → a mod 2 ^ j = 0 → a mod 2 ^ i = 0.
Proof.
  intros Hij Ha. pose proof (pow2_pos i ltac:(lia)). pose proof (pow2_pos j ltac:(lia)).
  apply Z.mod_divide in Ha; [|lia]. apply Z.mod_divide; [lia|].
  etransitivity; [|exact Ha]. exists (2 ^ (j - i)). rewrite <- Z.pow_add_r by lia. f_equal. lia.
Qed.

Lemma hugepage_mmap_spec len s :
  at_maps s → maps_ok (maps s) → 0 < len →
  ∃ n f, (clock s <= n)%nat ∧
    (hugepage_mmap_phy_addr len s = Some (0, quiet n (g_strict_node s) f s) ∨
     ∃ a h, a ≠ 0 ∧ fresh_region (maps s) a len ∧ a mod HUGE = 0 ∧
       hugepage_mmap_phy_addr len s = Some (a, with_slab a (Mem 0 0 0 0 h 0 0 zero_ctrl)
         (<[a := len]> (maps s)) (kmem s) (quiet n (g_strict_node s) f s))).
Proof.
  intros Hat HM Hl. unfold hugepage_mmap_phy_addr, tick. steps.
  destruct (sys_mkstemp _) as [h|]; [|exists (S (clock s)), (files s); split; [lia|]; left; by destruct s].
  steps. match goal with |- context [bind (qae_mmap true len) _ ?x] => set (s1 := x) end.
  destruct (qae_mmap_spec true len s1) as [E|(a & Hf & Hal & E)]; rewrite (bind_Some _ _ _ _ _ E).
  - exists (S (clock s1)), (files s1). subst s1. fields. split; [lia|]. left. by destruct s.
  - pose proof Hf as (Ha & _). rewrite (proj2 (Z.eqb_neq a 0)) by lia. steps.
    exists (S (S (clock s1))), (files s1). split; [subst s1; fields; lia|].
    destruct (sys_madvise _); branch.
    + right. exists a, h. split; [lia|]. split; [done|]. split; [by apply Hal|].
      unfold new_slab. subst s1. steps. unfold ret. by destruct s.
    + left. rewrite (bind_Some _ _ _ _ _ (munmap_fresh a len (S (S (clock s1))) s1 Hat HM Hf Hl)).
      subst s1. unfold ret, quiet. by destruct s.
Qed.

Lemma hugepage_alloc_slab_spec s ul ch B node :
  wf s 0 ul ch B → g_hugepages_enabled s = true →
  ∃ r s', hugepage_alloc_slab SLAB_SIZE node HUGE_PAGE s = Some (r, s') ∧
    slab_result s HUGE_PAGE SLAB_SIZE r s'.
Proof.
  intros W Hhp. pose proof (wf_at_maps _ _ _ _ _ W) as Hat. pose proof (wf_maps_ok _ _ _ _ _ W) as HM.
  assert (∃ n v f, (clock s <= n)%nat ∧ s = quiet n v f s) as Hquiet
    by (exists (clock s), (g_strict_node s), (files s); split; [lia|by destruct s]).
  unfold hugepage_alloc_slab. steps. destruct (g_num_hugepages s =? 0).
  { eexists _, _. split; [reflexivity|]. by left. }
  destruct (hugepage_mmap_spec SLAB_SIZE s Hat HM ltac:(done)) as (n & f & Hn & Hm).
  destruct Hm as [Hm|(a & h & Ha0 & Hf & Hal & Hm)]; rewrite (bind_Some _ _ _ _ _ Hm).
  { eexists _, _. split; [reflexivity|]. left. split; [done|]. by exists n, (g_strict_node s), f. }
  rewrite (proj2 (Z.eqb_neq a 0)) by done. unfold mem_at, with_slab. steps. rewrite lookup_insert_eq. steps.
  destruct (maps_ok_insert _ _ _ HM Hf ltac:(done)) as [HM1 Hna].
  destruct Hat as (Hu & Hh & Hd).
  assert (a ∉ dom (mem s)) as Hnd by (intros Hin%Hd; by apply not_elem_of_dom in Hna).
  assert (∀ phy m km, km = kmem s → ∃ r s', (if phy =? 0 then qae_munmap a;; ret 0
      else modify (set_g_num_hugepages (u64 (g_num_hugepages s - 1)));; ret a)
      (set_clock (S n) (with_slab a m (<[a := SLAB_SIZE]> (maps s)) km (quiet n (g_strict_node s) f s))) =
      Some (r, s') ∧ ((r = 0 ∧ s' = quiet (S n) (g_strict_node s) f s) ∨
        (phy ≠ 0 ∧ r = a ∧ s' = set_g_num_hugepages (u64 (g_num_hugepages s - 1))
          (set_clock (S n) (with_slab a m (<[a := SLAB_SIZE]> (maps s)) km (quiet n (g_strict_node s) f s)))))) as Hend.
  { intros phy m km ->. destruct (Z.eqb_spec phy 0) as [->|Hp].
    - rewrite (bind_Some _ _ _ _ _ (munmap_slab _ _)). eexists _, _. split; [reflexivity|]. left. split; [done|].
      unfold with_slab, quiet. fields.
      rewrite !delete_insert_id by (try done; apply not_elem_of_dom; congruence). by destruct s.
    - eexists _, _. split; [reflexivity|]. by right. }
  unfold hugepage_virt2phy, tick. steps. fields.
  destruct (sys_pagemap _ _) as [page|] eqn:E; unfold put; steps; unfold with_slab in Hend; fields;
    rewrite insert_insert_eq.
  2:{ edestruct (Hend 0 (Mem node SLAB_SIZE HUGE_PAGE 0 h 0 a zero_ctrl)) as (r & s' & He & Hr); [done|].
      exists r, s'. split; [exact He|]. destruct Hr as [[-> ->]|[? _]]; [|done].
      left. split; [done|]. eexists _, _, _. split; [|done]. lia. }
  destruct (pagemap_law _ _ _ Hal E) as [Hpa Hpe].
  set (phy := u64 ((page .& 0x7fffffffffffff) * getpagesize)) in *.
  assert (a mod getpagesize = 0) as -> by apply Hf.
  assert (u64 (phy + 0) = phy) as -> by (rewrite Z.add_0_r; unfold phy; by rewrite wrap_wrap).
  edestruct (Hend phy (Mem node SLAB_SIZE HUGE_PAGE 0 h phy a zero_ctrl)) as (r & s' & He & Hr); [done|].
  exists r, s'. split; [exact He|]. destruct Hr as [[-> ->]|(Hp0 & -> & ->)].
  { left. split; [done|]. eexists _, _, _. split; [|done]. lia. }
  right. exists SLAB_SIZE, (Mem node SLAB_SIZE HUGE_PAGE 0 h phy a zero_ctrl). split; [done|].
  assert (0 <= phy) by (apply (wrap_range 64); done).
  pose proof Hf as (Ha1 & Ha2 & Ha3 & _). split; unfold quiet; fields; try done.
  - split; [done|]. by apply not_elem_of_dom.
  - split; try done. fields. lia.
  - rewrite Hhp. split; fields; try done.
    + apply lookup_insert_eq.
    + split; [lia|]. split; [exact Hpa|exact Hpe].
    + intros i Hi Hle. apply (mod_pow2_le _ i 21); [|done]. split; [done|].
      apply (Z.pow_le_mono_r_iff 2); [done|done|]. exact Hle.
  - by apply insert_subseteq.
  - intros b m [[<- <-]|[_ Hb]]%lookup_insert_Some; [right; apply owns_self|by left].
  - intros b [->| ->]; done.
  - rewrite (mo_fptr _ (wf_modes _ _ _ _ _ W)), Hhp. done.
Qed.

Lemma alloc_slab_spec s ul ch B sz node ty :
  wf s 0 ul ch B → 0 <= fd s → slab_type (g_hugepages_enabled s) ty → (ty ≠ LARGE → sz = SLAB_SIZE) →
  ∃ r s', alloc_slab sz node ty s = Some (r, s') ∧ same s s' ∧ g_page_table s' = g_page_table s ∧
    ((r = 0 ∧ mem s' = mem s ∧ wf s' 0 ul ch B) ∨
     (r ≠ 0 ∧ mem s !! r = None ∧ ∃ k ch', mem s' = <[r := k]> (mem s) ∧ type k = ty ∧
       sz <= size k ∧ ctrl k = zero_ctrl ∧ wf s' r ul ch' B)).
Proof.
  intros W Hfd Hty Hsz. unfold alloc_slab.
  assert (∃ r s', (if ty =? HUGE_PAGE then hugepage_alloc_slab sz node ty else ioctl_alloc_slab sz node ty) s =
    Some (r, s') ∧ slab_result s ty sz r s') as (r & s1 & Ha & Hr).
  { unfold slab_type in Hty. destruct (g_hugepages_enabled s) eqn:Hhp.
    - subst ty. rewrite (Hsz ltac:(done)). by eapply hugepage_alloc_slab_spec.
    - destruct (Z.eqb_spec ty HUGE_PAGE); [subst ty; by destruct Hty|].
      eapply ioctl_alloc_slab_spec; [done..|]. destruct Hty as [->| ->]; [left|by right].
      split; [done|by apply Hsz]. }
  rewrite (bind_Some _ _ _ _ _ Ha). destruct Hr as [[-> (n & v & f & Hn & ->)]|(sz' & k & Hle & HF)].
  { unfold when. change (0 =? 0) with true. branch. steps. eexists _, _. split; [reflexivity|].
    split; [by apply quiet_same|]. split; [done|]. left. split; [done|]. split; [done|]. by apply wf_quiet. }
  pose proof (fr_x _ _ _ _ _ _ HF) as [Hr0 Hrn]. rewrite (proj2 (Z.eqb_neq r 0)) by done.
  unfold when; branch. unfold add_slab_to_hash, mem_at. steps. rewrite (fr_mem _ _ _ _ _ _ HF), lookup_insert_eq. steps.
  set (key := get_key (phy_addr k)).
  destruct (family_add (hlinks s1) (chain s) ch key r) as (ls & d & Hadd & Hdom & Hfam).
  - eapply family_frame, (wf_hash _ _ _ _ _ W); [|done]. intros j p Hp.
    rewrite (fr_hlinks _ _ _ _ _ _ HF). apply lookup_insert_ne. intros <-.
    apply (wf_chain _ _ _ _ _ W) in Hp as (? & ? & _). congruence.
  - intros j (? & ? & _)%(wf_chain _ _ _ _ _ W). congruence.
  - done.
  - rewrite (fr_hlinks _ _ _ _ _ _ HF), lookup_insert_eq. by eexists.
  - replace (chain s1 key) with (chain s key) by (unfold chain; by rewrite (fr_hash _ _ _ _ _ _ HF)).
    rewrite Hadd. steps. eexists _, _. split; [reflexivity|]. split; [|split; [apply HF|right]].
    { destruct (fr_same _ _ _ _ _ _ HF). by split. }
    split; [done|]. split; [done|]. exists k, (fupd ch key (r :: ch key)). destruct (fr_type _ _ _ _ _ _ HF) as (? & <- & ?).
    split_and!; try done; [apply HF|].
    eapply (wf_insert _ _ _ _ _ _ _ _ _ _ _ ls); [exact W|done|exact HF|reflexivity|apply Hfam| |].
    + intros j. rewrite (fr_hash _ _ _ _ _ _ HF). unfold chain. destruct (decide (j = key)) as [->|Hj].
      * by rewrite fupd_eq, lookup_insert_eq.
      * by rewrite fupd_ne, lookup_insert_ne.
    + rewrite Hdom, (fr_hlinks _ _ _ _ _ _ HF), (fr_mem _ _ _ _ _ _ HF), !dom_insert_L.
      by rewrite (wf_hlinks _ _ _ _ _ W).
    + intros j p. destruct (decide (j = key)) as [->|Hj].
      * rewrite fupd_eq, elem_of_cons. naive_solver.
      * rewrite fupd_ne by done. split; [by left|]. intros [?|[-> ?]]; done.
Qed.

(** ** The page table *)

Definition table_of (hp : bool) (t : root) : option (page_table (depth hp)) :=
  match hp, t with
  | false, Zeroed => Some (empty_table 4)
  | false, Small t => Some t
  | true, Zeroed => Some (empty_table 3)
  | true, Huge t => Some t
  | _, _ => None
  end.

Lemma table_of_ok hp t : root_ok hp t → ∃ T, table_of hp t = Some T ∧
  ∀ w, entry hp t w = default 0 (load (shift hp) (depth hp) T w).
Proof. destruct hp, t; try done; intros _; eexists; (split; [reflexivity|]); done. Qed.

Lemma store_range_spec hp t virt phys sz n T :
  table_of hp t = Some T → ∃ t' n', store_range hp t virt phys sz n = Some (t', n') ∧ (n <= n')%nat ∧
    table_of hp t' = Some (store_mmap_range sys_mmap_table hp T virt phys sz n).1 ∧ root_ok hp t'.
Proof.
  destruct hp, t; try done; intros [= <-]; eexists _, _; (split; [reflexivity|]); split; try done;
    try apply (store_range_count sys_mmap_table true); apply (store_range_count sys_mmap_table false).
Qed.

Lemma entry_table hp t T w : table_of hp t = Some T → entry hp t w = default 0 (load (shift hp) (depth hp) T w).
Proof. destruct hp, t; try done; intros [= <-]; done. Qed.

(** Addresses translate through the function pointers to what the entry says. *)
Lemma translate s x ul ch B p k w :
  wf s x ul ch B → mem s !! p = Some k → translated (g_hugepages_enabled s) (g_page_table s) k →
  virt_addr k <= w < virt_addr k + size k →
  load_addr_fptr (fptr_hpg s) (g_page_table s) w = Some (phy_addr k + (w - virt_addr k)) ∧
  load_key_fptr (fptr_hpg s) (g_page_table s) w = Some (get_key (phy_addr k)).
Proof.
  intros W Hp Ht Hw. destruct (wf_modes _ _ _ _ _ W) as [-> Hr _ _].
  pose proof (wf_mapped _ _ _ _ _ W p k Hp) as M. destruct (ma_virt _ _ _ _ _ M) as (_ & Hv & _).
  destruct (ma_phys _ _ _ _ _ M) as (Hp0 & Hpa & _). specialize (Ht w Hw).
  pose proof (get_key_range (phy_addr k)).
  assert (0 < phy_addr k + get_key (phy_addr k) +
    (w - virt_addr k) / 2 ^ shift (g_hugepages_enabled s) * 2 ^ shift (g_hugepages_enabled s)) as Hpos.
  { assert (0 <= (w - virt_addr k) / 2 ^ shift (g_hugepages_enabled s) * 2 ^ shift (g_hugepages_enabled s)); [|lia].
    assert (0 < 2 ^ shift (g_hugepages_enabled s)) by by destruct (g_hugepages_enabled s).
    apply Z.mul_nonneg_nonneg; [apply Z.div_pos|]; lia. }
  destruct (g_hugepages_enabled s), (g_page_table s) as [|t|t]; try done; cbn [entry load_addr_fptr load_key_fptr] in *;
    try (rewrite <- Ht in Hpos; lia).
  - destruct (load_region true t (virt_addr k) (phy_addr k) w Hv Hp0 Hpa ltac:(lia) Ht) as [-> ->]. done.
  - destruct (load_region false t (virt_addr k) (phy_addr k) w Hv Hp0 Hpa ltac:(lia) Ht) as [-> ->]. done.
Qed.

(** Two slabs share no address. *)
Lemma slabs_disjoint s x ul ch B p k p' k' w :
  wf s x ul ch B → mem s !! p = Some k → mem s !! p' = Some k' →
  virt_addr k <= w < virt_addr k + size k → virt_addr k' <= w < virt_addr k' + size k' → p = p'.
Proof.
  intros W Hp Hp' Hw Hw'. destruct (decide (virt_addr k = virt_addr k')) as [E|E].
  - apply (wf_owner _ _ _ _ _ W p k p' k' (virt_addr k)); [done..|apply owns_virt|]. rewrite E. apply owns_virt.
  - destruct (wf_disjoint _ _ _ _ _ W _ _ _ _ (ma_region _ _ _ _ _ (wf_mapped _ _ _ _ _ W p k Hp))
      (ma_region _ _ _ _ _ (wf_mapped _ _ _ _ _ W p' k' Hp')) E); lia.
Qed.

Lemma store_slab_spec s x k ul ch B :
  wf s x ul ch B → mem s !! x = Some k →
  ∃ s', store_slab x s = Some ((), s') ∧ wf s' x ul ch B ∧ mem s' = mem s ∧ same s s' ∧
    translated (g_hugepages_enabled s') (g_page_table s') k.
Proof.
  intros W Hx. set (hp := g_hugepages_enabled s).
  pose proof (wf_mapped _ _ _ _ _ W x k Hx) as M. fold hp in M.
  destruct (table_of_ok hp (g_page_table s)) as (T & HT & _); [apply (mo_root _ (wf_modes _ _ _ _ _ W))|].
  destruct (store_range_spec hp (g_page_table s) (virt_addr k) (phy_addr k) (size k) (clock s) T HT)
    as (t' & n' & Hst & Hn & HT' & Hr').
  unfold store_slab, mem_at. steps. rewrite Hx. steps. fold hp. rewrite Hst. steps. unfold modify.
  eexists. split; [reflexivity|].
  assert (∀ w, 0 <= w < 2 ^ 57 → entry hp t' w =
    if decide (virt_addr k <= w < virt_addr k + size k)
    then phy_addr k + get_key (phy_addr k) + (w - virt_addr k) / 2 ^ shift hp * 2 ^ shift hp
    else entry hp (g_page_table s) w) as He.
  { intros w Hw. rewrite (entry_table _ _ _ _ HT'), (entry_table _ _ _ _ HT).
    destruct M as [_ _ _ _ [? ?] (? & ? & ?) (? & ? & ?) _ _].
    apply load_mmap_range; try done; [apply table_law|lia..]. }
  assert (2 ^ 47 <= 2 ^ 57) by done.
  assert (same s (set_clock n' (set_g_page_table t' s))) as HS by by split.
  split; [|split; [done|split; [done|]]].
  - destruct W. split; try done.
    + intros q p k' Hq Hp. destruct (wf_content0 q p k' Hq Hp) as [? Ht]. split; [done|].
      intros w Hw. specialize (Ht w Hw). fold hp in Ht. fields. fold hp.
      destruct (ma_virt _ _ _ _ _ (wf_mapped0 p k' Hp)) as (? & _ & ?).
      rewrite He, decide_False; [done| |lia]. intros Hw'.
      assert (p = x); [|subst p; by apply (wf_x0 q)].
      by eapply (slabs_disjoint s x ul ch B).
    + by eapply modes_same; [exact HS|..]; fields; [|apply wf_modes0|].
  - intros w Hw. fields. fold hp. destruct (ma_virt _ _ _ _ _ M) as (? & _ & ?).
    by rewrite He, decide_True by lia.
Qed.

(** ** The lists *)

Lemma user_list_set q d s q' : user_list (set_user_list q d s) q' = fupd (user_list s) q d q'.
Proof.
  destruct (decide (q' = q)) as [->|Hq]; [rewrite fupd_eq|rewrite fupd_ne by done];
    destruct q; try done; by destruct q'.
Qed.

Lemma elements_of_spec s x ul ch B q : wf s x ul ch B → elements_of q s = Some (ul q, s).
Proof.
  intros W. unfold elements_of. steps.
  by rewrite (dlist_elements_spec _ _ _ (proj1 (wf_lists _ _ _ _ _ W) q)).
Qed.

(** Only the lists and the size of the cache change. *)
Definition relisted (s : state) (q : queue) (d : dlist) (ls : links) (c : Z) : state :=
  set_user_list q d (set_ulinks ls (set_g_cache_size c s)).

Lemma relisted_frame s q d ls c :
  let s' := relisted s q d ls c in
  mem s' = mem s ∧ hlinks s' = hlinks s ∧ g_slab_list s' = g_slab_list s ∧ maps s' = maps s ∧
  kmem s' = kmem s ∧ g_page_table s' = g_page_table s ∧ same s s' ∧ g_num_hugepages s' = g_num_hugepages s ∧
  ulinks s' = ls ∧ g_cache_size s' = c ∧ ∀ q', user_list s' q' = fupd (user_list s) q d q'.
Proof.
  cbv zeta. unfold relisted. split_and!; try (by destruct q).
  intros q'. by rewrite user_list_set.
Qed.

Lemma wf_relist s x x' ul ul' ch B B' q d ls c :
  wf s x ul ch B → family ls (fupd (user_list s) q d) ul' → dom ls = dom (ulinks s) →
  (∀ p, (p = x ∧ x ≠ 0) ∨ (∃ q, p ∈ ul q) ↔ (p = x' ∧ x' ≠ 0) ∨ ∃ q, p ∈ ul' q) →
  (∀ q, x' ∉ ul' q) →
  (∀ q p k, p ∈ ul' q → mem s !! p = Some k →
     content q k (B' p) ∧ translated (g_hugepages_enabled s) (g_page_table s) k) →
  c = SLAB_SIZE * Z.of_nat (length (ul' CACHE)) → c <= g_max_cache →
  wf (relisted s q d ls c) x' ul' ch B'.
Proof.
  intros W Hf Hd Hl Hx Hc Hcs Hcm.
  destruct (relisted_frame s q d ls c) as (Em & Eh & Eg & Ema & Ek & Et & HS & En & Eu & Ec & El).
  pose proof HS as [Efd _ _ Ehp _ _].
  destruct W. split; rewrite ?Em, ?Eh, ?Eg, ?Ema, ?Ek, ?Et, ?Ehp, ?Eu, ?Ec, ?Efd; try done.
  - by eapply family_frame; [| |exact Hf].
  - intros p. by rewrite wf_listed0, Hl.
  - by rewrite Hd.
  - eapply family_frame; [done| |exact wf_hash0]. intros j. unfold chain. by rewrite Eg.
  - eapply modes_same; [exact HS|..]; rewrite ?Et, ?En; [apply wf_modes0..|done].
Qed.

Lemma add_user_spec s x k q c ul ch B bs :
  wf s x ul ch B → x ≠ 0 → mem s !! x = Some k → content q k bs →
  translated (g_hugepages_enabled s) (g_page_table s) k →
  c = g_cache_size s + (if decide (q = CACHE) then SLAB_SIZE else 0) → c <= g_max_cache →
  ∃ s', add_user q x (set_g_cache_size c s) = Some ((), s') ∧
    wf s' 0 (fupd ul q (x :: ul q)) ch (fupd B x bs) ∧ mem s' = mem s ∧ same s s' ∧
    g_page_table s' = g_page_table s.
Proof.
  intros W Hx0 Hx Hc Ht Hcs Hcm.
  destruct (family_add (ulinks s) (user_list s) ul q x) as (ls & d & Hadd & Hdom & Hfam).
  - apply (wf_lists _ _ _ _ _ W).
  - apply (wf_x _ _ _ _ _ W).
  - done.
  - apply elem_of_dom. rewrite (wf_ulinks _ _ _ _ _ W). by eapply elem_of_dom_2.
  - unfold add_user. steps. change (user_list (set_g_cache_size c s) q) with (user_list s q).
    rewrite Hadd. steps. unfold modify. exists (relisted s q d ls c).
    destruct (relisted_frame s q d ls c) as (Em & _ & _ & _ & _ & Et & HS & _).
    split; [by destruct q|]. split; [|done].
    assert (∀ q' p, p ∈ fupd ul q (x :: ul q) q' ↔ p ∈ ul q' ∨ p = x ∧ q' = q) as Hin.
    { intros q' p. destruct (decide (q' = q)) as [->|Hq].
      - rewrite fupd_eq, elem_of_cons. naive_solver.
      - rewrite fupd_ne by done. naive_solver. }
    eapply wf_relist; [exact W|by apply Hfam|done|..].
    + intros p. setoid_rewrite Hin. naive_solver.
    + intros q' [Hq'|[He _]]%Hin; [|by rewrite <- He in Hx0]. by destruct (family_elem _ _ _ _ _ (wf_lists _ _ _ _ _ W) Hq').
    + intros q' p k' [Hq'|[-> ->]]%Hin Hk'.
      * rewrite fupd_ne by (intros ->; by apply (wf_x _ _ _ _ _ W q')). by apply (wf_content _ _ _ _ _ W).
      * rewrite Hx in Hk'. injection Hk' as <-. by rewrite fupd_eq.
    + rewrite Hcs. destruct (wf_cache _ _ _ _ _ W) as [-> _]. destruct (decide (q = CACHE)) as [->|Hq].
      * rewrite fupd_eq. cbn [length]. lia.
      * rewrite fupd_ne by done. lia.
    + done.
Qed.

Lemma remove_user_spec s p q c ul ch B :
  wf s 0 ul ch B → p ∈ ul q →
  c = g_cache_size s - (if decide (q = CACHE) then SLAB_SIZE else 0) →
  ∃ s' ul', remove_user q p (set_g_cache_size c s) = Some ((), s') ∧ wf s' p ul' ch B ∧
    (∀ q' p', p' ∈ ul' q' ↔ p' ∈ ul q' ∧ p' ≠ p) ∧ mem s' = mem s ∧ same s s' ∧
    g_page_table s' = g_page_table s ∧ g_cache_size s' = c ∧
    ∃ xs ys, ul q = xs ++ p :: ys ∧ ul' = fupd ul q (xs ++ ys).
Proof.
  intros W Hp Hcs. destruct (wf_listed_mem _ _ _ _ _ _ _ W Hp) as (k & Hk & _ & Hp0).
  pose proof Hp as (xs & ys & Hl)%list_elem_of_split.
  destruct (family_remove _ _ _ _ _ _ _ (wf_lists _ _ _ _ _ W) Hl) as (ls & d & Hr & Hdom & Hin & Hfam).
  unfold remove_user. steps. change (user_list (set_g_cache_size c s) q) with (user_list s q).
  rewrite Hr. steps. unfold modify. exists (relisted s q d ls c), (fupd ul q (xs ++ ys)).
  destruct (relisted_frame s q d ls c) as (Em & _ & _ & _ & _ & Et & HS & _ & _ & Ec & _).
  split; [by destruct q|]. split; [|by eauto 10]. destruct (wf_cache _ _ _ _ _ W) as [Hc Hm].
  eapply wf_relist; [exact W|by apply Hfam|done|..].
  - intros p'. setoid_rewrite Hin. destruct (decide (p' = p)) as [->|Hne]; [naive_solver|].
    split; [naive_solver|]. intros [[? _]|(q' & ? & _)]; [done|eauto].
  - intros q' [_ ?]%Hin. done.
  - intros q' p' k' [Hq' _]%Hin. by apply (wf_content _ _ _ _ _ W).
  - rewrite Hcs, Hc. destruct (decide (q = CACHE)) as [->|Hq].
    + rewrite fupd_eq, Hl, !length_app. cbn [length]. lia.
    + rewrite fupd_ne by done. lia.
  - rewrite Hcs. case_decide; unfold SLAB_SIZE, QAE_NUM_PAGES_PER_ALLOC, QAE_PAGE_SIZE; lia.
Qed.

(** A control block changes only in its counts. *)
Definition alike (k k' : dev_mem_info) : Prop :=
  size k' = size k ∧ type k' = type k ∧ phy_addr k' = phy_addr k ∧ virt_addr k' = virt_addr k.

Lemma put_spec s x p k k' ul ch B bs :
  wf s x ul ch B → mem s !! p = Some k → alike k k' → (∀ q, p ∈ ul q → content q k' bs) →
  ∃ s', put p k' s = Some ((), s') ∧ wf s' x ul ch (fupd B p bs) ∧ mem s' = <[p := k']> (mem s) ∧
    same s s' ∧ g_page_table s' = g_page_table s ∧ s' = set_mem (<[p := k']> (mem s)) s.
Proof.
  intros W Hp (Es & Ety & Eph & Ev) Hc. unfold put, modify. eexists. split; [reflexivity|].
  split; [|split; [done|split; [by split|done]]].
  assert (∀ p' k1, <[p:=k']> (mem s) !! p' = Some k1 → ∃ k2, mem s !! p' = Some k2 ∧ alike k2 k1 ∧
    ((p' = p ∧ k1 = k') ∨ (p' ≠ p ∧ k1 = k2))) as Hm.
  { intros p' k1 [[<- <-]|[Hne Hk1]]%lookup_insert_Some.
    - exists k. split; [done|]. split; [done|]. by left.
    - exists k1. split; [done|]. split; [done|]. by right. }
  assert (dom (<[p:=k']> (mem s)) = dom (mem s)) as Hd
    by (apply dom_insert_lookup_L; by eexists).
  assert (∀ p' k2, mem s !! p' = Some k2 → ∃ k1, <[p:=k']> (mem s) !! p' = Some k1 ∧ alike k2 k1) as Hm'.
  { intros p' k2 Hk2. destruct (decide (p' = p)) as [->|Hne].
    - exists k'. rewrite lookup_insert_eq. split; [done|]. rewrite Hp in Hk2. by injection Hk2 as <-.
    - exists k2. by rewrite lookup_insert_ne. }
  destruct W. split; fields; try done.
  - intros p'. by rewrite <- elem_of_dom, Hd, elem_of_dom.
  - by rewrite Hd.
  - intros p' key. rewrite wf_chain0. split.
    + intros (k2 & Hk2 & <-). destruct (Hm' _ _ Hk2) as (k1 & Hk1 & _ & _ & E & _). exists k1. by rewrite E.
    + intros (k1 & Hk1 & <-). destruct (Hm _ _ Hk1) as (k2 & Hk2 & (_ & _ & E & _) & _). exists k2. by rewrite E.
  - by rewrite Hd.
  - intros p' k1 Hk1. destruct (Hm _ _ Hk1) as (k2 & Hk2 & (E1 & E2 & E3 & E4) & _).
    destruct (wf_mapped0 _ _ Hk2) as [M1 M2 M3 M4 M5 M6 M7 M8 M9].
    split; rewrite ?E1, ?E2, ?E3, ?E4; done.
  - intros q p' k1 Hq Hk1. destruct (Hm _ _ Hk1) as (k2 & Hk2 & (E1 & E2 & E3 & E4) & Hor).
    destruct (wf_content0 _ _ _ Hq Hk2) as [Hc2 Ht]. split.
    + destruct Hor as [[-> ->]|[Hne ->]]; [rewrite fupd_eq; by apply Hc|by rewrite fupd_ne].
    + intros w. rewrite E1, E3, E4. apply Ht.
  - intros a n Ha. destruct (wf_owned0 _ _ Ha) as (p' & k2 & Hk2 & Ho).
    destruct (Hm' _ _ Hk2) as (k1 & Hk1 & _ & _ & _ & E). exists p', k1. split; [done|].
    unfold owns in *. by rewrite E.
  - intros p1 k1 p2 k2 a Hk1 Hk2. destruct (Hm _ _ Hk1) as (j1 & Hj1 & (_ & _ & _ & E) & _).
    destruct (Hm _ _ Hk2) as (j2 & Hj2 & (_ & _ & _ & E') & _). unfold owns. rewrite E, E'.
    by apply (wf_owner0 p1 j1 p2 j2).
  - intros a n Ha. destruct (wf_kmem0 _ _ Ha) as (p' & k2 & Hk2 & ? & ?).
    destruct (Hm' _ _ Hk2) as (k1 & Hk1 & _ & E & E' & _). exists p', k1. by rewrite E, E'.
  - intros p1 k1 p2 k2 Hk1 Hk2. destruct (Hm _ _ Hk1) as (j1 & Hj1 & (_ & E1 & E2 & _) & _).
    destruct (Hm _ _ Hk2) as (j2 & Hj2 & (_ & E3 & E4 & _) & _). rewrite E1, E2, E3, E4. by eapply wf_phys0.
  - intros Hfd. by rewrite (wf_fd0 Hfd) in Hp.
  - by destruct wf_modes0.
Qed.

End invariant.

End UsdmHeapInv.
