(* ===== verification/UsdmHeapOps.v ===== *)
(** * The user side of the memory driver: its calls

    The blocks of the slabs and a specification of each call of the library,
    over the invariant of [UsdmHeapInv]. *)

From S2P Require Import Prelude DList PageTable Slab UsdmHeap UsdmHeapInv.
Import DList PageTable Slab UsdmHeap UsdmHeapInv.

#[local] Open Scope Z_scope.
#[local] Open Scope qat_scope.

Module UsdmHeapOps.

(** What the client has: the address, size and alignment of each block. *)
Abbreviation client := (gmap Z (Z * Z)).

Section heap.
Context `{OSLaws}.

(** ** The blocks *)

(** Block [b], of [u] units, of the listed slab [p]. *)
Definition block (m : gmap Z dev_mem_info) (x : Z) (B : Z → blocks) p k b u : Prop :=
  m !! p = Some k ∧ p ≠ x ∧ B p !! b = Some u.

Definition addr (k : dev_mem_info) (b : Z) : Z := virt_addr k + 1024 * b.

(** The client's blocks are the blocks. *)
Record rel (m : gmap Z dev_mem_info) (x : Z) (B : Z → blocks) (L : client) : Prop := {
  rel_client a n al : L !! a = Some (n, al) → ∃ p k b u, block m x B p k b u ∧ a = addr k b ∧
    n <= 1024 * u ∧ (phy_addr k + 1024 * b) mod al = 0;
  rel_block p k b u : block m x B p k b u → is_Some (L !! addr k b);
}.

(** The counts of blocks; slab [e] counts [d] too few. *)
Definition counted (ul : queue → list Z) (m : gmap Z dev_mem_info) (B : Z → blocks) (e d : Z) : Prop :=
  ∀ q p k, p ∈ ul q → m !! p = Some k → type k ≠ LARGE →
    allocations k = Z.of_nat (base.size (B p)) - (if decide (p = e) then d else 0) ∧
    (q = USED → p ≠ e → B p ≠ ∅).

Lemma wf_mem_nz s x ul ch B p k : wf s x ul ch B → mem s !! p = Some k → p ≠ 0.
Proof.
  intros W Hp. assert (is_Some (mem s !! p)) as Hs by by eexists.
  apply (wf_listed _ _ _ _ _ W) in Hs as [[-> ?]|[q Hq]]; [done|].
  by eapply (family_elem _ _ _ _ _ (wf_lists _ _ _ _ _ W)).
Qed.

Lemma block_listed s x ul ch B p k b u :
  wf s x ul ch B → block (mem s) x B p k b u → ∃ q, p ∈ ul q ∧ content q k (B p) ∧
    translated (g_hugepages_enabled s) (g_page_table s) k.
Proof.
  intros W (Hp & Hx & _). assert (is_Some (mem s !! p)) as Hs by by eexists.
  apply (wf_listed _ _ _ _ _ W) in Hs as [[-> ?]|[q Hq]]; [done|]. exists q. split; [done|].
  by eapply wf_content.
Qed.

Lemma block_range s x ul ch B p k b u :
  wf s x ul ch B → block (mem s) x B p k b u → 0 <= b ∧ 1 <= u ∧ 1024 * (b + u) <= size k.
Proof.
  intros W HB. destruct (block_listed _ _ _ _ _ _ _ _ _ W HB) as (q & Hq & Hc & _).
  destruct HB as (Hp & _ & Hb). pose proof (wf_mapped _ _ _ _ _ W p k Hp) as M.
  assert (type k ≠ LARGE → slab_inv (ctrl k) (B p) → 0 <= b ∧ 1 <= u ∧ 1024 * (b + u) <= size k) as Hs.
  { intros Ht HI. destruct (ma_small _ _ _ _ _ M Ht) as [_ ->]. pose proof (s_block _ _ HI _ _ Hb) as (? & ? & ? & _).
    assert (reserved = 5) by by vm_compute.
    unfold SLAB_SIZE, QAE_NUM_PAGES_PER_ALLOC, QAE_PAGE_SIZE. lia. }
  destruct q; [destruct Hc as (? & ? & _); by apply Hs|destruct Hc as (? & ?); by apply Hs|].
  destruct Hc as [_ Hbs]. rewrite Hbs in Hb. apply lookup_singleton_Some in Hb as [<- <-].
  destruct (ma_size _ _ _ _ _ M) as [Hs0 Hs1].
  assert (size k mod 4096 = 0) as Hm.
  { change 4096 with (2 ^ 12). apply (mod_pow2_le _ _ (shift (g_hugepages_enabled s))); [|done].
    by destruct (g_hugepages_enabled s). }
  apply Z.div_exact in Hm; [|done]. replace (size k) with (size k / 4096 * 4 * 1024) by lia.
  rewrite Z.div_mul by done. lia.
Qed.

Lemma block_inj s x ul ch B p k b u p' k' b' u' :
  wf s x ul ch B → block (mem s) x B p k b u → block (mem s) x B p' k' b' u' →
  addr k b = addr k' b' → p = p' ∧ b = b'.
Proof.
  intros W HB HB' He. pose proof (block_range _ _ _ _ _ _ _ _ _ W HB).
  pose proof (block_range _ _ _ _ _ _ _ _ _ W HB'). unfold addr in He.
  destruct HB as (Hp & _), HB' as (Hp' & _).
  assert (p = p') as <- by (eapply (slabs_disjoint _ _ _ _ _ _ _ _ _ (virt_addr k + 1024 * b) W); [done..|lia|lia]).
  split; [done|]. rewrite Hp in Hp'. injection Hp' as <-. lia.
Qed.

Lemma rel_alike m x B L p k k' :
  m !! p = Some k → alike k k' → rel m x B L → rel (<[p := k']> m) x B L.
Proof.
  intros Hp (Es & Et & Ep & Ev) [R1 R2]. split.
  - intros a n al Ha. destruct (R1 a n al Ha) as (p1 & k1 & b & u & (Hk1 & Hx & Hb) & -> & Hn & Hal).
    destruct (decide (p1 = p)) as [->|Hne].
    + rewrite Hp in Hk1. injection Hk1 as <-. exists p, k', b, u. unfold block, addr. rewrite lookup_insert_eq, Ep, Ev.
      done.
    + exists p1, k1, b, u. unfold block. by rewrite lookup_insert_ne.
  - intros p1 k1 b u (Hk1 & Hx & Hb). apply lookup_insert_Some in Hk1 as [[<- <-]|[_ Hk1]]; [|by apply (R2 p1 k1 b u)].
    unfold addr. rewrite Ev. by apply (R2 p k b u).
Qed.

(** A slab with no blocks can leave and join the lists, and be released. *)
Lemma rel_unlist m x B L : B x = ∅ → rel m 0 B L → (∀ p k, m !! p = Some k → p ≠ 0) → rel m x B L.
Proof.
  intros Hx [R1 R2] Hnz. split.
  - intros a n al Ha. destruct (R1 a n al Ha) as (p & k & b & u & (Hk & _ & Hb) & ?).
    exists p, k, b, u. split; [|done]. split; [done|]. split; [|done]. intros ->. by rewrite Hx, lookup_empty in Hb.
  - intros p k b u (Hk & _ & Hb). apply (R2 p k b u). split; [done|]. split; [by eapply Hnz|done].
Qed.


Lemma rel_delete m x B L : rel m x B L → (∀ p k, m !! p = Some k → p ≠ 0) → rel (delete x m) 0 B L.
Proof.
  intros [R1 R2] Hnz. split.
  - intros a n al Ha. destruct (R1 a n al Ha) as (p & k & b & u & (Hk & Hp & Hb) & ?).
    exists p, k, b, u. split; [|done]. split; [by rewrite lookup_delete_ne|]. split; [by eapply Hnz|done].
  - intros p k b u ([Hp Hk]%lookup_delete_Some & _ & Hb). by apply (R2 p k b u).
Qed.

Lemma rel_insert m x k B L : m !! x = None → (∀ p k, m !! p = Some k → p ≠ 0) → rel m 0 B L → rel (<[x := k]> m) x B L.
Proof.
  intros Hx Hnz [R1 R2]. split.
  - intros a n al Ha. destruct (R1 a n al Ha) as (p & k' & b & u & (Hk & Hp & Hb) & ?).
    assert (p ≠ x) by (intros ->; congruence).
    exists p, k', b, u. split; [|done]. split; [by rewrite lookup_insert_ne|done].
  - intros p k' b u (Hk & Hp & Hb). rewrite lookup_insert_ne in Hk by done.
    apply (R2 p k' b u). split; [done|]. split; [by eapply Hnz|done].
Qed.

(** A block more: in a slab that joins the lists with it, or in a listed one. *)
Lemma rel_alloc m x B L p k bs b u n al :
  rel m x B L → (p = x ∧ bs = ∅ ∨ x = 0 ∧ bs = B p) → m !! p = Some k → (∀ p k, m !! p = Some k → p ≠ 0) →
  bs !! b = None → n <= 1024 * u → (phy_addr k + 1024 * b) mod al = 0 → L !! addr k b = None →
  rel m 0 (fupd B p (<[b := u]> bs)) (<[addr k b := (n, al)]> L).
Proof.
  intros [R1 R2] Hor Hp Hnz Hb Hn Hal HL. split.
  - intros a n' al' [[<- [= <- <-]]|[Hne Ha]]%lookup_insert_Some.
    + exists p, k, b, u. split; [|done]. split; [done|]. split; [by eapply Hnz|]. by rewrite fupd_eq, lookup_insert_eq.
    + destruct (R1 a n' al' Ha) as (p' & k' & b' & u' & (Hk' & Hp' & Hb') & ?).
      exists p', k', b', u'. split; [|done]. split; [done|]. split; [by eapply Hnz|].
      destruct (decide (p' = p)) as [->|Hpp]; [|by rewrite fupd_ne].
      destruct Hor as [[-> ->]|[-> ->]]; [done|]. rewrite fupd_eq, lookup_insert_ne; [done|]. congruence.
  - intros p' k' b' u' (Hk' & Hp' & Hb'). destruct (decide (addr k b = addr k' b')) as [->|Hne].
    { rewrite lookup_insert_eq. by eexists. }
    rewrite lookup_insert_ne by done. apply (R2 p' k' b' u'). split; [done|].
    destruct (decide (p' = p)) as [->|Hpp].
    + rewrite Hp in Hk'. injection Hk' as <-. rewrite fupd_eq in Hb'.
      apply lookup_insert_Some in Hb' as [[<- _]|[_ Hb']]; [done|].
      destruct Hor as [[-> ->]|[-> ->]]; [by rewrite lookup_empty in Hb'|done].
    + rewrite fupd_ne in Hb' by done. split; [|done]. destruct Hor as [[-> _]|[-> _]]; done.
Qed.

(** A block less. *)
Lemma rel_free s ul ch B L p k b u :
  wf s 0 ul ch B → rel (mem s) 0 B L → block (mem s) 0 B p k b u →
  rel (mem s) 0 (fupd B p (delete b (B p))) (delete (addr k b) L).
Proof.
  intros W [R1 R2] HB. split.
  - intros a n al [Hne Ha]%lookup_delete_Some. destruct (R1 a n al Ha) as (p' & k' & b' & u' & (Hk' & Hp' & Hb') & -> & ?).
    exists p', k', b', u'. split; [|done]. split; [done|]. split; [done|].
    destruct (decide (p' = p)) as [->|Hpp]; [|by rewrite fupd_ne].
    destruct HB as (Hp & _). rewrite Hp in Hk'. injection Hk' as <-.
    rewrite fupd_eq, lookup_delete_ne; [done|]. congruence.
  - intros p' k' b' u' (Hk' & Hp' & Hb').
    assert (block (mem s) 0 B p' k' b' u' ∧ (p' = p → b ≠ b')) as [HB' Hne].
    { destruct (decide (p' = p)) as [->|Hpp].
      - rewrite fupd_eq in Hb'. apply lookup_delete_Some in Hb' as [? ?]. done.
      - rewrite fupd_ne in Hb' by done. done. }
    rewrite lookup_delete_ne; [by apply (R2 p' k' b' u')|]. intros He.
    destruct (block_inj _ _ _ _ _ _ _ _ _ _ _ _ _ W HB HB' He) as [-> ->]. by apply Hne.
Qed.

Lemma rel_relist m x B L : rel m x B L → (∀ p k, m !! p = Some k → p ≠ 0) → rel m 0 (fupd B x ∅) L.
Proof.
  intros [R1 R2] Hnz. split.
  - intros a n al Ha. destruct (R1 a n al Ha) as (p & k & b & u & (Hk & Hp & Hb) & ?).
    exists p, k, b, u. split; [|done]. split; [done|]. split; [by eapply Hnz|by rewrite fupd_ne].
  - intros p k b u (Hk & _ & Hb). apply (R2 p k b u). split; [done|].
    destruct (decide (p = x)) as [->|Hpx]; [|by rewrite fupd_ne in Hb].
    rewrite fupd_eq in Hb. by rewrite lookup_empty in Hb.
Qed.

(** ** Allocation in a slab *)

Lemma with_ctrl_alike cb k : alike k (with_ctrl cb k).
Proof. done. Qed.
Lemma with_allocations_alike v k : alike k (with_allocations v k).
Proof. done. Qed.

Lemma slab_inv_size cb bs : slab_inv cb bs → (base.size bs <= 2048)%nat.
Proof.
  intros HI. rewrite <- size_dom.
  assert (dom bs ⊆ (list_to_set (seqZ 0 2048) : gset Z)) as Hs.
  { intros b [n Hb]%elem_of_dom. pose proof (s_block _ _ HI _ _ Hb) as (? & ? & ? & _).
    assert (reserved = 5) by by vm_compute. apply elem_of_list_to_set, elem_of_seqZ. lia. }
  apply subseteq_size in Hs. rewrite size_list_to_set in Hs by apply NoDup_seqZ.
  by rewrite length_seqZ in Hs.
Qed.

(** Sizes for which the code's rounding does not overflow. *)
Definition size_ok (sz : Z) : Prop := 0 < sz < 2 ^ 64 - 8192.

(** The block [a] the slab [p] gives, or 0 when nothing changes. *)
Lemma slab_alloc_spec s p k sz al bs :
  mem s !! p = Some k → slab_inv (ctrl k) bs → size_ok sz → 0 <= al → 0 < p →
  slab_alloc p sz al s = Some (0, s) ∨
  ∃ b cb, slab_alloc p sz al s = Some (p + 1024 * b, set_mem (<[p := with_ctrl cb k]> (mem s)) s) ∧
    0 < p + 1024 * b ∧ bs !! b = None ∧ aligned al b ∧ sz <= 1024 * units sz ∧
    slab_inv cb (<[b := units sz]> bs).
Proof.
  intros Hp HI Hs Hal Hp0. unfold size_ok in Hs. unfold slab_alloc, mem_at. steps. rewrite Hp. steps.
  destruct (mem_alloc_spec (ctrl k) sz al (s_ok _ _ HI) ltac:(lia) Hal) as [(b & cb & Ha & _)|[Ha _]];
    unfold lift; rewrite Ha; (erewrite bind_Some by reflexivity); cbn beta iota; unfold put; steps.
  - right. destruct (alloc_keeps (ctrl k) bs sz al (1024 * b) cb HI ltac:(lia) Hal Ha) as (b' & Hb' & Hn & Hali & Hsz & HI').
    assert (b = b') as <- by lia. exists b, cb.
    pose proof (s_block _ _ HI' b (units sz) ltac:(apply lookup_insert_eq)) as (Hr & _).
    assert (reserved = 5) by by vm_compute. split_and!; try done. lia.
  - left. assert (with_ctrl (ctrl k) k = k) as -> by by destruct k. rewrite insert_id by done. by destruct s.
Qed.

Lemma phys_aligned s x ul ch B p k al b :
  wf s x ul ch B → mem s !! p = Some k → type k ≠ LARGE →
  (∃ i, 0 <= i <= 20 ∧ al = 2 ^ i) → aligned (al / UNIT_SIZE) b → (phy_addr k + 1024 * b) mod al = 0.
Proof.
  intros W Hp Ht (i & Hi & ->) Hal. pose proof (wf_mapped _ _ _ _ _ W p k Hp) as M.
  pose proof (pow2_pos i ltac:(lia)) as Hpos.
  assert (phy_addr k mod 2 ^ i = 0) as Hph.
  { apply (ma_align _ _ _ _ _ M); [lia|]. destruct (ma_small _ _ _ _ _ M Ht) as [_ ->].
    etransitivity; [apply (Z.pow_le_mono_r 2 i 20); lia|done]. }
  rewrite Z.add_mod, Hph by lia. rewrite Z.add_0_l, Z.mod_mod by lia.
  change UNIT_SIZE with (2 ^ 10) in Hal. destruct (decide (i < 10)) as [Hlt|Hge].
  - apply (mod_pow2_le _ i 10); [lia|]. change (2 ^ 10) with 1024. rewrite Z.mul_comm. by apply Z.mod_mul.
  - assert (2 ^ i / 2 ^ 10 = 2 ^ (i - 10)) as Hd by (symmetry; apply Z.pow_sub_r; lia).
    assert (2 ^ i = 1024 * 2 ^ (i - 10)) as Hm.
    { change 1024 with (2 ^ 10). rewrite <- Z.pow_add_r by lia. f_equal. lia. }
    rewrite Hd in Hal. destruct Hal as [Hal|Hal]; [pose proof (pow2_pos (i - 10) ltac:(lia)); lia|].
    rewrite Hm, Zmult_mod_distr_l, Hal. done.
Qed.

(** What is known of a process's heap between two steps; [e] and [d] as in
    [counted]. *)
Record good (s : state) (x : Z) (ul : queue → list Z) (ch : Z → list Z) (B : Z → blocks)
    (L : client) (e d : Z) : Prop := {
  g_wf : wf s x ul ch B;
  g_counted : counted ul (mem s) B e d;
  g_rel : rel (mem s) x B L;
}.

Lemma counted_0 ul m B e : counted ul m B e 0 → (∀ p k, m !! p = Some k → p ≠ 0) →
  (e = 0 ∨ B e ≠ ∅) → counted ul m B 0 0.
Proof.
  intros HC Hnz He q p k Hq Hp Ht. destruct (HC q p k Hq Hp Ht) as [Ha Hn].
  split; [destruct (decide (p = e)), (decide (p = 0)); lia|].
  intros HU _. destruct (decide (p = e)) as [->|Hpe]; [|by apply Hn].
  destruct He as [->|He]; [by destruct (Hnz _ _ Hp)|done].
Qed.

(** Only the blocks of the listed slabs count. *)
Lemma wf_blocks s x ul ch B B' :
  (∀ q p, p ∈ ul q → B' p = B p) → wf s x ul ch B → wf s x ul ch B'.
Proof.
  intros HB W. destruct W. split; try done. intros q p k Hq Hk. rewrite (HB q p Hq). by apply wf_content0.
Qed.

Lemma client_none s x ul ch B L p k b :
  wf s x ul ch B → rel (mem s) x B L → mem s !! p = Some k → 0 <= 1024 * b < size k →
  (p = x ∨ B p !! b = None) → L !! addr k b = None.
Proof.
  intros W [R1 _] Hp Hb Hor. apply eq_None_not_Some. intros [[n al] Ha].
  destruct (R1 _ _ _ Ha) as (p' & k' & b' & u & HB & He & _).
  pose proof (block_range _ _ _ _ _ _ _ _ _ W HB) as Hr. pose proof HB as (Hp' & Hx & Hb').
  unfold addr in He. assert (p' = p) as ->.
  { eapply (slabs_disjoint _ _ _ _ _ _ _ _ _ (virt_addr k + 1024 * b) W); [done..|lia|lia]. }
  destruct Hor as [->|Hn]; [done|]. rewrite Hp in Hp'. injection Hp' as <-.
  assert (b = b') as <- by lia. congruence.
Qed.

Lemma small_addr s x ul ch B p k :
  wf s x ul ch B → mem s !! p = Some k → type k ≠ LARGE → 0 < p ∧ virt_addr k = p ∧ size k = 2048 * 1024.
Proof.
  intros W Hp Ht. pose proof (wf_mapped _ _ _ _ _ W p k Hp) as M.
  destruct (ma_small _ _ _ _ _ M Ht) as [Hv ->]. destruct (ma_virt _ _ _ _ _ M) as (H1 & _).
  rewrite Hv in H1. done.
Qed.

Lemma block_in_slab cb bs b u : slab_inv cb bs → bs !! b = Some u → 0 <= 1024 * b < 2048 * 1024.
Proof.
  intros HI Hb. pose proof (s_block _ _ HI _ _ Hb) as (? & ? & ? & _).
  assert (reserved = 5) by by vm_compute. lia.
Qed.

(** A power of two below the size of a slab. *)
Definition small_align (al : Z) : Prop := ∃ i, 0 <= i <= 20 ∧ al = 2 ^ i.
Lemma small_align_pos al : small_align al → 0 < al.
Proof. intros (i & Hi & ->). apply pow2_pos. lia. Qed.
Lemma small_align_unit al : small_align al → 0 <= al / UNIT_SIZE.
Proof. intros Ha%small_align_pos. apply Z.div_pos; unfold UNIT_SIZE; lia. Qed.

(** A block of a slab in use. *)
Lemma used_alloc s ul ch B L p k b cb sz al :
  good s 0 ul ch B L 0 0 → p ∈ ul USED → mem s !! p = Some k → B p !! b = None →
  small_align al → aligned (al / UNIT_SIZE) b → sz <= 1024 * units sz →
  slab_inv cb (<[b := units sz]> (B p)) →
  let s' := set_mem (<[p := with_ctrl cb k]> (mem s)) s in
  good s' 0 ul ch (fupd B p (<[b := units sz]> (B p))) (<[p + 1024 * b := (sz, al)]> L) p 1 ∧
  L !! (p + 1024 * b) = None.
Proof.
  intros [W HC HR] Hu Hp Hb Hal Hali Hsz HI. cbv zeta.
  destruct (wf_content _ _ _ _ _ W USED p k Hu Hp) as [[Ht _] _].
  destruct (small_addr _ _ _ _ _ _ _ W Hp Ht) as (Hp0 & Hv & Hs).
  assert (p + 1024 * b = addr k b) as Ha by (unfold addr; by rewrite Hv). rewrite Ha.
  pose proof (block_in_slab _ _ _ _ HI (lookup_insert_eq _ _ _)) as Hin.
  assert (L !! addr k b = None) as HL.
  { eapply client_none; [done..| |by right]. rewrite Hs. done. }
  destruct (put_spec s 0 p k (with_ctrl cb k) ul ch B (<[b := units sz]> (B p)) W Hp (with_ctrl_alike _ _))
    as (s' & Hput & W' & Hm & _ & _ & ->).
  { intros q Hq. assert (q = USED) as -> by (eapply (wf_lists _ _ _ _ _ W); done). done. }
  split; [|done]. split; [done| |].
  - intros q p' k' Hq Hk' Ht'. fields. apply lookup_insert_Some in Hk' as [[<- <-]|[Hne Hk']].
    + destruct (HC q p k Hq Hp Ht) as [Hall _]. cbn [allocations with_ctrl].
      rewrite fupd_eq, (map_size_insert_None _ _ _ Hb), decide_True by done. split; [|done].
      destruct (decide (p = 0)); lia.
    + rewrite fupd_ne, decide_False by done. destruct (HC q p' k' Hq Hk' Ht') as [Hall Hn].
      split; [destruct (decide (p' = 0)); lia|]. intros HU _. apply Hn; [done|]. by eapply (wf_mem_nz _ _ _ _ _ _ _ W).
  - assert (∀ p k, <[p:=with_ctrl cb k]> (mem s) !! p = Some (with_ctrl cb k)) as _ by (intros; apply lookup_insert_eq).
    fields. eapply (rel_alike _ _ _ _ _ k) in HR; [|done|apply with_ctrl_alike].
    change (addr k b) with (addr (with_ctrl cb k) b).
    apply (rel_alloc _ _ _ _ p (with_ctrl cb k) _ _ _ _ _ HR); try done.
    + by right.
    + apply lookup_insert_eq.
    + intros p' k' Hk'. apply (wf_mem_nz _ _ _ _ _ p' k' W'). done.
    + change (phy_addr (with_ctrl cb k)) with (phy_addr k). by eapply (phys_aligned s 0 ul ch B p k).
Qed.

Lemma lookup_loop_spec s ul ch B L l ln sz node al :
  good s 0 ul ch B L 0 0 → size_ok sz → small_align al → (∀ p, p ∈ l → p ∈ ul USED) →
  lookup_loop l ln sz node (al / UNIT_SIZE) s = Some ((0, 0), s) ∨
  ∃ p a s' B', lookup_loop l ln sz node (al / UNIT_SIZE) s = Some ((p, a), s') ∧ p ∈ ul USED ∧
    good s' 0 ul ch B' (<[a := (sz, al)]> L) p 1 ∧ L !! a = None ∧ 0 < a ∧ same s s' ∧ B' p ≠ ∅.
Proof.
  intros HG Hsz Hal. pose proof HG as [W HC HR]. revert ln. induction l as [|p l IH]; intros ln Hl; [by left|].
  assert (p ∈ ul USED) as Hu by (apply Hl; left).
  destruct (wf_listed_mem _ _ _ _ _ _ _ W Hu) as (k & Hp & _ & Hp0).
  destruct (wf_content _ _ _ _ _ W USED p k Hu Hp) as [[Ht HI] _].
  destruct (small_addr _ _ _ _ _ _ _ W Hp Ht) as (Hpos & _).
  cbn [lookup_loop]. unfold mem_at. steps. rewrite Hp. steps.
  assert (∀ ln, lookup_loop l ln sz node (al / UNIT_SIZE) s = Some ((0, 0), s) ∨ _) as IH'
    by (intros ln'; apply (IH ln'); intros; apply Hl; by right).
  destruct (negb (g_strict_node s =? 0) && _); [apply IH'|].
  destruct (slab_alloc_spec s p k sz (al / UNIT_SIZE) (B p) Hp HI Hsz (small_align_unit _ Hal) Hpos)
    as [Ha|(b & cb & Ha & Hpos' & Hb & Hali & Hle & HI')]; rewrite (bind_Some _ _ _ _ _ Ha).
  - change (negb (0 =? 0)) with false. cbv iota. destruct (_ <=? _); [by left|apply IH'].
  - right. rewrite (proj2 (Z.eqb_neq _ _)) by lia. branch.
    destruct (used_alloc s ul ch B L p k b cb sz al HG Hu Hp Hb Hal Hali Hle HI') as [HG' HL].
    eexists _, _, _, _. split; [reflexivity|]. split; [done|]. split; [exact HG'|]. split; [done|].
    split; [lia|]. split; [by split|]. rewrite fupd_eq. apply insert_non_empty.
Qed.

(** A control block in which no unit is taken. *)
Definition clear_ctrl (cb : block_ctrl) : Prop :=
  bm_ok (bitmap cb) ∧ length (sizes cb) = 2048%nat ∧
  ∀ i, reserved <= i < 2048 → bits (bitmap cb) i = false.

Lemma slab_inv_clear cb : slab_inv cb ∅ → clear_ctrl cb.
Proof.
  intros HI. destruct (s_ok _ _ HI) as (Hok & Hbar & Hl). split; [done|]. split; [done|].
  assert (reserved = 5) as Hr by by vm_compute. intros i Hi.
  destruct (bits (bitmap cb) i) eqn:E; [|done]. rewrite Hr in Hi.
  apply (s_bits _ _ HI) in E as [Hi'|(b & n & Hb & _)]; [rewrite Hr in Hi'; lia| |lia].
  by rewrite lookup_empty in Hb.
Qed.

Lemma zero_ctrl_clear : clear_ctrl zero_ctrl.
Proof.
  split; [|split; [done|]].
  - split; [done|]. apply (Forall_replicate (λ w, 0 <= w < 2 ^ 64) 33). lia.
  - intros i Hi. unfold bits, aget. cbn [bitmap zero_ctrl].
    destruct (0 <=? i / 64); [|done]. destruct (replicate 33 0 !! Z.to_nat (i / 64)) as [w|] eqn:E; [|done].
    apply lookup_replicate in E as [-> _]. apply Z.bits_0.
Qed.

(** The first block of a slab that is in no list. *)
Lemma init_slab_and_alloc_spec s x k ul ch B L sz al :
  wf s x ul ch B → rel (mem s) x B L → x ≠ 0 → mem s !! x = Some k → type k ≠ LARGE → clear_ctrl (ctrl k) →
  translated (g_hugepages_enabled s) (g_page_table s) k → size_ok sz → small_align al →
  ∃ r s' k', init_slab_and_alloc x sz (al / UNIT_SIZE) s = Some (r, s') ∧ same s s' ∧
    mem s' = <[x := k']> (mem s) ∧ allocations k' = allocations k ∧ alike k k' ∧
    ((r = 0 ∧ wf s' x ul ch B ∧ rel (mem s') x B L) ∨
     (0 < r ∧ L !! r = None ∧ ∃ b u, wf s' 0 (fupd ul USED (x :: ul USED)) ch (fupd B x {[b := u]}) ∧
       rel (mem s') 0 (fupd B x {[b := u]}) (<[r := (sz, al)]> L))).
Proof.
  intros W HR Hx0 Hx Ht (Hok & Hlen & Hclr) Htr Hsz Hal.
  destruct (small_addr _ _ _ _ _ _ _ W Hx Ht) as (Hp0 & Hv & Hs).
  destruct (init_slab_inv (ctrl k) Hok Hlen Hclr) as (cb & Hi & HI).
  unfold init_slab_and_alloc, mem_at. steps. rewrite Hx. steps. rewrite Hs, Hi. steps.
  destruct (put_spec s x x k (with_ctrl cb k) ul ch B (B x) W Hx (with_ctrl_alike _ _))
    as (s1 & Hput & W1 & Hm1 & HS1 & Ept1 & Es1); [by intros q Hq%(wf_x _ _ _ _ _ W)|].
  rewrite (bind_Some _ _ _ _ _ Hput).
  assert (∀ q p, p ∈ ul q → p ≠ x) as Hux by (intros q p Hq ->; by apply (wf_x _ _ _ _ _ W q)).
  apply (wf_blocks _ _ _ _ _ B) in W1; [|intros q p Hq%Hux; by rewrite fupd_ne].
  assert (mem s1 !! x = Some (with_ctrl cb k)) as Hx1 by (rewrite Hm1; apply lookup_insert_eq).
  assert (rel (mem s1) x B L) as HR1 by (rewrite Hm1; by eapply rel_alike).
  destruct (slab_alloc_spec s1 x (with_ctrl cb k) sz (al / UNIT_SIZE) ∅ Hx1 HI Hsz (small_align_unit _ Hal) Hp0)
    as [Ha|(b & cb' & Ha & Hpos & _ & Hali & Hle & HI')]; rewrite (bind_Some _ _ _ _ _ Ha).
  { change (negb (0 =? 0)) with false. unfold when. steps. eexists _, _, (with_ctrl cb k).
    split; [reflexivity|]. split; [done|]. split; [done|]. split; [done|]. split; [done|]. by left. }
  destruct (put_spec s1 x x (with_ctrl cb k) (with_ctrl cb' (with_ctrl cb k)) ul ch B (B x) W1 Hx1 (with_ctrl_alike _ _))
    as (s2 & _ & W2 & Hm2 & HS2 & Ept2 & Es2); [by intros q Hq%(wf_x _ _ _ _ _ W)|].
  rewrite <- Es2. apply (wf_blocks _ _ _ _ _ B) in W2; [|intros q p Hq%Hux; by rewrite fupd_ne]. set (k2 := with_ctrl cb' (with_ctrl cb k)) in *.
  assert (mem s2 !! x = Some k2) as Hx2 by (rewrite Hm2; apply lookup_insert_eq).
  rewrite (proj2 (Z.eqb_neq _ _)) by lia. unfold when; branch.
  set (bs := {[b := units sz]} : blocks). change (<[b := units sz]> ∅) with bs in HI'.
  destruct (add_user_spec s2 x k2 USED (g_cache_size s2) ul ch B bs W2 Hx0 Hx2)
    as (s3 & Hadd & W3 & Hm3 & HS3 & Ept3).
  - done.
  - rewrite Ept2, Ept1, (sa_hp _ _ HS2), (sa_hp _ _ HS1). done.
  - rewrite decide_False by done. lia.
  - apply (wf_cache _ _ _ _ _ W2).
  - assert (set_g_cache_size (g_cache_size s2) s2 = s2) as E2 by by destruct s2.
    rewrite E2 in Hadd. rewrite (bind_Some _ _ _ _ _ Hadd). unfold ret.
    assert (mem s3 = <[x:=k2]> (mem s)) as Hm by (by rewrite Hm3, Hm2, Hm1, insert_insert_eq).
    assert (addr k2 b = x + 1024 * b) as Had by (unfold addr; by rewrite <- Hv).
    pose proof (block_in_slab _ _ b (units sz) HI' (lookup_singleton_eq _ _)) as Hin.
    assert (L !! (x + 1024 * b) = None) as HL.
    { rewrite <- Had. change (addr k2 b) with (addr k b).
      apply (client_none s x ul ch B L x k b W HR Hx); [by rewrite Hs|by left]. }
    eexists _, _, k2. split; [reflexivity|]. split; [by do 2 (etransitivity; [eassumption|])|].
    split; [done|]. split; [done|]. split; [done|]. right. split; [lia|]. split; [done|]. exists b, (units sz).
    fold bs. split; [exact W3|]. rewrite Hm, <- Had. unfold bs. rewrite <- insert_empty.
    apply (rel_alike _ _ _ _ x k k2) in HR; [|done|done].
    apply (rel_alloc _ _ _ _ x k2 ∅ _ _ _ _ HR); try done.
    + by left.
    + apply lookup_insert_eq.
    + intros p k' Hk'. rewrite <- Hm in Hk'. by apply (wf_mem_nz _ _ _ _ _ _ k' W3).
    + change (phy_addr k2) with (phy_addr k). by eapply (phys_aligned s x ul ch B x k).
    + by rewrite Had.
Qed.

Lemma pick_slab_spec m l strict node :
  (∀ p, p ∈ l → is_Some (m !! p)) →
  ∃ r, pick_slab m l strict node = Some r ∧ (r = 0 ∧ (node = NUMA_ANY_NODE → l = []) ∨ r ∈ l).
Proof.
  intros Hl. induction l as [|p l IH]; [exists 0; split; [done|by left]|]. cbn [pick_slab].
  destruct (Hl p ltac:(left)) as [k Hk]. rewrite Hk. cbn [mbind option_bind].
  destruct (Z.eqb_spec node NUMA_ANY_NODE) as [->|Hn]; cbn [negb andb].
  { exists p. split; [done|]. right. left. }
  destruct (_ && _); [|exists p; split; [done|]; right; left].
  destruct IH as (r & Hr & H1); [intros; apply Hl; by right|]. exists r. split; [done|].
  destruct H1 as [[-> _]|?]; [left; done|right; by right].
Qed.

Lemma pop_slab_spec s ul ch B node :
  wf s 0 ul ch B →
  ∃ r s', pop_slab node s = Some (r, s') ∧
    ((r = 0 ∧ s' = s ∧ (node = NUMA_ANY_NODE → ul CACHE = [])) ∨
     (r ∈ ul CACHE ∧ ∃ ul', wf s' r ul' ch B ∧ (∀ q p, p ∈ ul' q ↔ p ∈ ul q ∧ p ≠ r) ∧
        mem s' = mem s ∧ same s s' ∧ g_page_table s' = g_page_table s ∧
        ∃ xs ys, ul CACHE = xs ++ r :: ys ∧ ul' = fupd ul CACHE (xs ++ ys))).
Proof.
  intros W. unfold pop_slab. rewrite (bind_Some _ _ _ _ _ (elements_of_spec _ _ _ _ _ CACHE W)). steps.
  destruct (pick_slab_spec (mem s) (ul CACHE) (g_strict_node s) node) as (r & Hr & Hor).
  { intros p Hp. destruct (wf_listed_mem _ _ _ _ _ _ _ W Hp) as (k & Hk & _). by eexists. }
  rewrite Hr. steps. destruct Hor as [[-> Hn]|Hin].
  { eexists _, _. split; [reflexivity|]. left. done. }
  destruct (wf_listed_mem _ _ _ _ _ _ _ W Hin) as (k & Hk & _ & Hr0).
  rewrite (proj2 (Z.eqb_neq r 0)) by done. unfold mem_at. steps. rewrite Hk. steps.
  destruct (wf_content _ _ _ _ _ W CACHE r k Hin Hk) as [(Ht & _) _].
  destruct (ma_small _ _ _ _ _ (wf_mapped _ _ _ _ _ W r k Hk) Ht) as [_ Hs].
  assert (u64 (g_cache_size s - size k) = g_cache_size s - SLAB_SIZE) as ->.
  { rewrite Hs. apply wrap_small. destruct (wf_cache _ _ _ _ _ W) as [Hc Hm].
    apply list_elem_of_split in Hin as (xs & ys & Hl). rewrite Hl, length_app in Hc. cbn [length] in Hc.
    unfold SLAB_SIZE, QAE_NUM_PAGES_PER_ALLOC, QAE_PAGE_SIZE, g_max_cache in *. lia. }
  destruct (remove_user_spec s r CACHE (g_cache_size s - SLAB_SIZE) ul ch B W Hin) as
    (s' & ul' & Hrm & W' & Hul & Hm & HS & Et & _ & Hsp); [by rewrite decide_True|].
  rewrite (bind_Some _ _ _ _ _ Hrm). eexists _, _. split; [reflexivity|]. right. split; [done|]. by exists ul'.
Qed.

Lemma good_nz s x ul ch B L e d p k : good s x ul ch B L e d → mem s !! p = Some k → p ≠ 0.
Proof. intros [W _ _]. by eapply wf_mem_nz. Qed.

(** The counts after [x] got its first block. *)
Lemma counted_add ul m B x k b u d :
  counted ul m B 0 0 → (∀ q p, p ∈ ul q → p ≠ x ∧ p ≠ 0) → allocations k = 1 - d →
  counted (fupd ul USED (x :: ul USED)) (<[x := k]> m) (fupd B x {[b := u]}) x d.
Proof.
  intros HC Hx Ha q p k' Hq Hk' Ht.
  assert (p ∈ ul q ∨ p = x) as [Hp| ->].
  { destruct (decide (q = USED)) as [->|Hqn]; [|rewrite fupd_ne in Hq by done; by left].
    rewrite fupd_eq in Hq. apply elem_of_cons in Hq as [->|?]; [by right|by left]. }
  - destruct (Hx q p Hp) as [Hpx Hp0]. rewrite lookup_insert_ne in Hk' by done.
    rewrite fupd_ne, decide_False by done. destruct (HC q p k' Hp Hk' Ht) as [Hall Hn].
    split; [rewrite decide_False in Hall by done; lia|]. intros HU _. by apply Hn.
  - rewrite lookup_insert_eq in Hk'. injection Hk' as <-. rewrite fupd_eq, map_size_singleton, decide_True by done.
    split; [lia|done].
Qed.

Lemma counted_sub ul ul' m B x e d :
  counted ul m B e d → (∀ q p, p ∈ ul' q → p ∈ ul q) → (∀ q p, p ∈ ul' q → p ≠ x) → counted ul' (delete x m) B e d.
Proof.
  intros HC Hs Hx q p k Hq Hk Ht. apply lookup_delete_Some in Hk as [_ Hk]. apply (HC q p k); [by apply Hs|done|done].
Qed.

Lemma counted_mem ul m m' B e d :
  counted ul m B e d → (∀ q p, p ∈ ul q → m' !! p = m !! p) → counted ul m' B e d.
Proof. intros HC Hm q p k Hq Hk. apply (HC q p k); [done|]. by rewrite <- (Hm q p Hq). Qed.

Lemma heap_find_slab_spec s ul ch B L sz node al :
  good s 0 ul ch B L 0 0 → size_ok sz → small_align al →
  ∃ r a s', find_slab sz node (al / UNIT_SIZE) s = Some ((r, a), s') ∧ same s s' ∧
    ((r = 0 ∧ ∃ ul' ch', good s' 0 ul' ch' B L 0 0) ∨
     (r ≠ 0 ∧ 0 < a ∧ L !! a = None ∧ ∃ ul' B', r ∈ ul' USED ∧ B' r ≠ ∅ ∧ good s' 0 ul' ch B' (<[a := (sz, al)]> L) r 1)).
Proof.
  intros HG Hsz Hal. pose proof HG as [W HC HR]. unfold find_slab, userMemLookupBySize.
  rewrite bind_assoc, (bind_Some _ _ _ _ _ (elements_of_spec _ _ _ _ _ USED W)).
  destruct (lookup_loop_spec s ul ch B L (ul USED) 0 sz node al HG Hsz Hal ltac:(done))
    as [Hl|(p & a & s' & B' & Hl & Hp & HG' & HL & Ha & HS & Hne)]; rewrite (bind_Some _ _ _ _ _ Hl); cbn beta iota.
  2:{ destruct (wf_listed_mem _ _ _ _ _ _ _ W Hp) as (k & _ & _ & Hp0).
      rewrite (proj2 (Z.eqb_neq p 0)) by done. eexists _, _, _. split; [reflexivity|]. split; [done|]. right.
      split; [done|]. split; [done|]. split; [done|]. by exists ul, B'. }
  change (negb (0 =? 0)) with false; cbv iota.
  destruct (pop_slab_spec s ul ch B node W) as (r & s1 & Hpop & [(-> & -> & _)|(Hr & ul1 & W1 & Hul & Hm1 & HS1 & Et1 & _)]);
    rewrite (bind_Some _ _ _ _ _ Hpop).
  { eexists _, _, _. split; [reflexivity|]. split; [done|]. left. split; [done|]. by exists ul, ch. }
  destruct (wf_listed_mem _ _ _ _ _ _ _ W Hr) as (k & Hk & _ & Hr0).
  rewrite (proj2 (Z.eqb_neq r 0)) by done.
  destruct (wf_content _ _ _ _ _ W CACHE r k Hr Hk) as [(Ht & HI & Hbs) Htr]. rewrite Hbs in HI.
  assert (rel (mem s1) r B L) as HR1.
  { rewrite Hm1. apply rel_unlist; [done|done|]. intros p' k'. by eapply wf_mem_nz. }
  assert (mem s1 !! r = Some k) as Hk1 by by rewrite Hm1.
  destruct (init_slab_and_alloc_spec s1 r k ul1 ch B L sz al W1 HR1 Hr0 Hk1 Ht (slab_inv_clear _ HI))
    as (a & s2 & k' & Hi & HS2 & Hm2 & Hka & Hkk & Hor); [|done|done|].
  { by rewrite Et1, (sa_hp _ _ HS1). }
  rewrite (bind_Some _ _ _ _ _ Hi).
  assert (∀ q p, p ∈ ul1 q → p ≠ r ∧ p ≠ 0) as Hux.
  { intros q p [Hp ?]%Hul. split; [done|]. by eapply (family_elem _ _ _ _ _ (wf_lists _ _ _ _ _ W)). }
  assert (counted ul1 (mem s) B 0 0) as HC1.
  { intros q p k1 [Hq _]%Hul. by apply (HC q p k1). }
  destruct Hor as [(-> & W2 & HR2)|(Ha & HL & b & u & W2 & HR2)].
  - change (0 =? 0) with true; cbv iota.
    destruct (heap_free_slab_spec s2 r ul1 ch B W2 Hr0) as (s3 & ch' & Hf & W3 & Hm3 & HS3 & _).
    rewrite (bind_Some _ _ _ _ _ Hf). eexists _, _, _. split; [reflexivity|].
    split; [by do 2 (etransitivity; [eassumption|])|]. left. split; [done|]. exists ul1, ch'. split; [done| |].
    + rewrite Hm3, Hm2, delete_insert_eq, Hm1. apply (counted_sub ul1); [done|done|]. intros q p Hq. by apply (Hux q p).
    + rewrite Hm3. apply rel_delete; [done|]. intros p k1. by eapply wf_mem_nz.
  - rewrite (proj2 (Z.eqb_neq a 0)) by lia. eexists _, _, _. split; [reflexivity|].
    split; [by etransitivity|]. right. split; [done|]. split; [done|]. split; [done|].
    exists (fupd ul1 USED (r :: ul1 USED)), (fupd B r {[b := u]}). split; [rewrite fupd_eq; left|].
    split; [rewrite fupd_eq; apply map_non_empty_singleton|].
    split; [done| |done]. rewrite Hm2, Hm1. apply counted_add; [done|done|].
    rewrite Hka. destruct (HC CACHE r k Hr Hk Ht) as [-> _]. rewrite Hbs, map_size_empty.
    rewrite decide_False by done. done.
Qed.

(** ** A slab of its own *)

Lemma set_allocations_spec s x p k v ul ch B bs :
  wf s x ul ch B → mem s !! p = Some k → (∀ q, p ∈ ul q → content q k bs) →
  ∃ s', set_allocations v p s = Some ((), s') ∧ wf s' x ul ch (fupd B p bs) ∧
    mem s' = <[p := with_allocations v k]> (mem s) ∧ same s s' ∧ g_page_table s' = g_page_table s.
Proof.
  intros W Hp Hc. unfold set_allocations, mem_at. steps. rewrite Hp. steps.
  destruct (put_spec s x p k (with_allocations v k) ul ch B bs W Hp (with_allocations_alike _ _))
    as (s' & Hput & ? & ? & ? & ? & _); [|by exists s'].
  intros q Hq. specialize (Hc q Hq). by destruct q.
Qed.

(** The first part of [alloc_new]: nothing, or a slab that is in no list. *)
Lemma alloc_new_slab s ul ch B L sz node ty :
  good s 0 ul ch B L 0 0 → 0 <= fd s → slab_type (g_hugepages_enabled s) ty → (ty ≠ LARGE → sz = SLAB_SIZE) →
  (∃ s', alloc_slab sz node ty s = Some (0, s') ∧ same s s' ∧ good s' 0 ul ch B L 0 0) ∨
  ∃ r k s1 s', r ≠ 0 ∧ alloc_slab sz node ty s = Some (r, s1) ∧
    (∀ A (f : M state A), (store_slab r ;; set_allocations 1 r ;; f) s1 = f s') ∧ same s s' ∧
    mem s !! r = None ∧ mem s' = <[r := k]> (mem s) ∧ type k = ty ∧ sz <= size k ∧ ctrl k = zero_ctrl ∧
    allocations k = 1 ∧ translated (g_hugepages_enabled s') (g_page_table s') k ∧
    rel (mem s') r B L ∧ ∃ ch', wf s' r ul ch' B.
Proof.
  intros [W HC HR] Hfd Hty Hsz.
  destruct (alloc_slab_spec s ul ch B sz node ty W Hfd Hty Hsz) as (r & s1 & Ha & HS1 & Et1 & Hor).
  destruct Hor as [(-> & Hm & W1)|(Hr0 & Hn & k & ch' & Hm & Hk & Hle & Hct & W1)].
  { left. exists s1. split; [done|]. split; [done|]. split; [done| |]; by rewrite Hm. }
  right.
  assert (mem s1 !! r = Some k) as Hk1 by (rewrite Hm; apply lookup_insert_eq).
  destruct (store_slab_spec s1 r k ul ch' B W1 Hk1) as (s2 & Hst & W2 & Hm2 & HS2 & Htr).
  assert (mem s2 !! r = Some k) as Hk2 by by rewrite Hm2.
  destruct (set_allocations_spec s2 r r k 1 ul ch' B (B r) W2 Hk2) as (s3 & Hsa & W3 & Hm3 & HS3 & Et3);
    [by intros q Hq%(wf_x _ _ _ _ _ W2)|].
  assert (mem s3 = <[r := with_allocations 1 k]> (mem s)) as Hms by (by rewrite Hm3, Hm2, Hm, insert_insert_eq).
  exists r, (with_allocations 1 k), s1, s3. split_and!; try done.
  - intros A f. by rewrite (bind_Some _ _ _ _ _ Hst), (bind_Some _ _ _ _ _ Hsa).
  - by do 2 (etransitivity; [eassumption|]).
  - rewrite Et3, (sa_hp _ _ HS3). done.
  - rewrite Hms. apply rel_insert; [done| |done]. intros p k'. by eapply wf_mem_nz.
  - exists ch'. eapply wf_blocks, W3. intros q p Hq. rewrite fupd_ne; [done|].
    intros ->. by apply (wf_x _ _ _ _ _ W2 q).
Qed.

Definition alloc_result (s : state) (L : client) (sz al : Z) (r : Z) (s' : state) : Prop :=
  same s s' ∧ ∃ ul ch B,
    (r = 0 ∧ good s' 0 ul ch B L 0 0) ∨
    (0 < r ∧ L !! r = None ∧ good s' 0 ul ch B (<[r := (sz, al)]> L) 0 0).

Lemma counted_new ul m B x k d :
  counted ul m B 0 d → m !! x = None → (∀ q p, p ∈ ul q → is_Some (m !! p)) → counted ul (<[x := k]> m) B 0 d.
Proof.
  intros HC Hx Hm. eapply counted_mem; [done|]. intros q p Hq. apply lookup_insert_ne. intros <-.
  destruct (Hm q x Hq). congruence.
Qed.

Lemma alloc_new_small s ul ch B L sz node al :
  good s 0 ul ch B L 0 0 → 0 <= fd s → size_ok sz → small_align al →
  ∃ r s', alloc_new (SLAB_SIZE / UNIT_SIZE) sz node (if g_hugepages_enabled s then HUGE_PAGE else SMALL)
    (al / UNIT_SIZE) s = Some (r, s') ∧ alloc_result s L sz al r s'.
Proof.
  intros HG Hfd Hsz Hal. pose proof HG as [W HC HR]. set (ty := if g_hugepages_enabled s then HUGE_PAGE else SMALL).
  assert (ty ≠ LARGE) as Hty by (unfold ty; by destruct (g_hugepages_enabled s)).
  assert (slab_type (g_hugepages_enabled s) ty) as Hst
    by (unfold ty; destruct (g_hugepages_enabled s); [done|by left]).
  assert (∀ q p, p ∈ ul q → is_Some (mem s !! p)) as Hmem
    by (intros q p Hq; destruct (wf_listed_mem _ _ _ _ _ _ _ W Hq) as (? & ? & _); by eexists).
  unfold alloc_new. change (u64 (SLAB_SIZE / UNIT_SIZE * UNIT_SIZE)) with SLAB_SIZE.
  destruct (alloc_new_slab s ul ch B L SLAB_SIZE node ty HG Hfd Hst ltac:(done))
    as [(s1 & Ha & HS1 & HG1)|(r & k & s1 & s2 & Hr0 & Ha & Hst2 & HS2 & Hn & Hm2 & Ht & _ & Hct & Hall & Htr & HR2 & ch' & W2)];
    rewrite (bind_Some _ _ _ _ _ Ha).
  { change (0 =? 0) with true. cbv iota. eexists _, _. split; [reflexivity|]. split; [done|].
    exists ul, ch, B. by left. }
  rewrite (proj2 (Z.eqb_neq r 0)) by done. rewrite Hst2.
  assert (mem s2 !! r = Some k) as Hk2 by (rewrite Hm2; apply lookup_insert_eq).
  unfold mem_at. steps. rewrite Hk2. steps.
  rewrite (proj2 (Z.eqb_neq ty LARGE)) by done.
  rewrite <- Ht in Hty.
  destruct (small_addr _ _ _ _ _ _ _ W2 Hk2 Hty) as (_ & Hv & _).
  assert (virt_addr k mod QAE_PAGE_SIZE = 0) as ->.
  { destruct (ma_virt _ _ _ _ _ (wf_mapped _ _ _ _ _ W2 r k Hk2)) as (_ & Hmod & _).
    apply (mod_pow2_le _ 12 (shift (g_hugepages_enabled s2))); [|done]. by destruct (g_hugepages_enabled s2). }
  change (negb (0 =? 0)) with false; cbv iota.
  destruct (init_slab_and_alloc_spec s2 r k ul ch' B L sz al W2 HR2 Hr0 Hk2 Hty)
    as (a & s3 & k' & Hi & HS3 & Hm3 & Hka & _ & Hor); [by rewrite Hct; apply zero_ctrl_clear|done..|].
  rewrite (bind_Some _ _ _ _ _ Hi).
  assert (∀ q p, p ∈ ul q → p ≠ r ∧ p ≠ 0) as Hux.
  { intros q p Hq. split; [intros ->; by apply (wf_x _ _ _ _ _ W2 q)|].
    by eapply (family_elem _ _ _ _ _ (wf_lists _ _ _ _ _ W)). }
  destruct Hor as [(-> & W3 & HR3)|(Ha0 & HL & b & u & W3 & HR3)].
  - change (0 =? 0) with true; cbv iota.
    destruct (heap_free_slab_spec s3 r ul ch' B W3 Hr0) as (s4 & ch4 & Hf & W4 & Hm4 & HS4 & _).
    rewrite (bind_Some _ _ _ _ _ Hf). eexists _, _. split; [reflexivity|].
    split; [by do 2 (etransitivity; [eassumption|])|]. exists ul, ch4, B. left. split; [done|]. split; [done| |].
    + rewrite Hm4, Hm3, delete_insert_eq, Hm2, delete_insert_eq, delete_id by done. done.
    + rewrite Hm4. apply rel_delete; [done|]. intros p k1. by eapply wf_mem_nz.
  - rewrite (proj2 (Z.eqb_neq a 0)) by lia. eexists _, _. split; [reflexivity|]. split; [by etransitivity|].
    eexists _, _, _. right. split; [done|]. split; [done|]. split; [exact W3| |exact HR3].
    assert (counted (fupd ul USED (r :: ul USED)) (mem s3) (fupd B r {[b := u]}) r 0) as HC3.
    { rewrite Hm3. apply counted_add; [|done|by rewrite Hka].
      rewrite Hm2. by apply counted_new. }
    eapply counted_0; [exact HC3| |].
    + intros p k1. by eapply wf_mem_nz.
    + right. rewrite fupd_eq. apply map_non_empty_singleton.
Qed.

Lemma large_size s x ul ch B p k :
  wf s x ul ch B → mem s !! p = Some k → size k = 1024 * (size k / 1024) ∧ 0 < size k.
Proof.
  intros W Hp. destruct (ma_size _ _ _ _ _ (wf_mapped _ _ _ _ _ W p k Hp)) as [Hs Hm].
  split; [|done]. apply Z.div_exact; [done|]. change 1024 with (2 ^ 10).
  apply (mod_pow2_le _ 10 (shift (g_hugepages_enabled s))); [|done]. by destruct (g_hugepages_enabled s).
Qed.

Definition align_ok (al : Z) : Prop := ∃ i, 0 <= i <= 22 ∧ al = 2 ^ i.

Lemma alloc_new_large s ul ch B L sz node al :
  good s 0 ul ch B L 0 0 → 0 <= fd s → g_hugepages_enabled s = false → size_ok sz → align_ok al →
  ∃ r s', alloc_new (div_round_up (Z.max sz al) UNIT_SIZE) (Z.max sz al) node LARGE (al / UNIT_SIZE) s = Some (r, s') ∧
    alloc_result s L sz al r s'.
Proof.
  intros HG Hfd Hhp Hsz (i & Hi & Hal). pose proof HG as [W HC HR].
  assert (0 < al <= 2 ^ 22) as Hal2.
  { rewrite Hal. split; [apply pow2_pos; lia|apply Z.pow_le_mono_r; lia]. }
  unfold size_ok in Hsz. set (m := Z.max sz al). assert (0 < m < 2 ^ 64 - 8192) as Hm by lia.
  destruct (units_range m ltac:(lia)) as (Hu & Hu1 & Hum). unfold units in Hu, Hu1, Hum.
  assert (div_round_up m UNIT_SIZE * UNIT_SIZE < 2 ^ 64) as Hub.
  { rewrite Hu. unfold UNIT_SIZE. pose proof (Z.div_mod (m + 1023) 1024 ltac:(done)).
    pose proof (Z.mod_pos_bound (m + 1023) 1024 ltac:(done)). lia. }
  unfold alloc_new. rewrite (wrap_small 64) by (unfold UNIT_SIZE in *; lia).
  destruct (alloc_new_slab s ul ch B L (div_round_up m UNIT_SIZE * UNIT_SIZE) node LARGE HG Hfd)
    as [(s1 & Ha & HS1 & HG1)|(r & k & s1 & s2 & Hr0 & Ha & Hst2 & HS2 & Hn & Hm2 & Ht & Hle & _ & _ & Htr & HR2 & ch' & W2)];
    [rewrite Hhp; by right|done| |]; rewrite (bind_Some _ _ _ _ _ Ha).
  { change (0 =? 0) with true. cbv iota. eexists _, _. split; [reflexivity|]. split; [done|].
    exists ul, ch, B. by left. }
  rewrite (proj2 (Z.eqb_neq r 0)) by done. rewrite Hst2.
  assert (mem s2 !! r = Some k) as Hk2 by (rewrite Hm2; apply lookup_insert_eq).
  unfold mem_at. steps. rewrite Hk2. steps. change (LARGE =? LARGE) with true. cbv iota.
  destruct (large_size _ _ _ _ _ _ _ W2 Hk2) as [Hs Hs0].
  assert (m <= size k) as Hmk by (unfold UNIT_SIZE in *; lia).
  destruct (add_user_spec s2 r k BIG (g_cache_size s2) ul ch' B {[0 := size k / 1024]} W2 Hr0 Hk2)
    as (s3 & Hadd & W3 & Hm3 & HS3 & Et3); [done|done|rewrite decide_False by done; lia|apply (wf_cache _ _ _ _ _ W2)|].
  assert (set_g_cache_size (g_cache_size s2) s2 = s2) as E2 by by destruct s2.
  rewrite E2 in Hadd. rewrite (bind_Some _ _ _ _ _ Hadd).
  destruct (ma_virt _ _ _ _ _ (wf_mapped _ _ _ _ _ W2 r k Hk2)) as (Hv & _).
  assert (addr k 0 = virt_addr k) as Had by (unfold addr; lia).
  assert (L !! virt_addr k = None) as HL.
  { rewrite <- Had. apply (client_none s2 r ul ch' B L r k 0 W2 HR2 Hk2); [lia|by left]. }
  eexists _, _. split; [reflexivity|]. split; [by etransitivity|].
  exists (fupd ul BIG (r :: ul BIG)), ch', (fupd B r {[0 := size k / 1024]}). right. split; [done|]. split; [done|].
  split; [done| |].
  - intros q p k' Hq Hk' Ht'. rewrite Hm3, Hm2 in Hk'.
    apply lookup_insert_Some in Hk' as [[<- <-]|[Hne Hk']]; [done|].
    rewrite fupd_ne by done. apply (HC q p k'); [|done|done].
    destruct (decide (q = BIG)) as [->|Hqb]; [|by rewrite fupd_ne in Hq].
    rewrite fupd_eq in Hq. by apply elem_of_cons in Hq as [->|?].
  - rewrite Hm3, <- Had, <- insert_empty.
    apply (rel_alloc _ _ _ _ r k ∅ 0 (size k / 1024) _ _ HR2); try done.
    + by left.
    + intros p k'. by eapply wf_mem_nz.
    + lia.
    + rewrite Z.mul_0_r, Z.add_0_r, Hal. apply (ma_align _ _ _ _ _ (wf_mapped _ _ _ _ _ W2 r k Hk2)); [lia|].
      lia.
    + by rewrite Had.
Qed.

(** ** Opening the device *)

(** What a process knows between two calls: in a child that has not called yet
    ([pid] is still the parent's) only that nothing of the library is mapped. *)
Definition Inv (s : state) (L : client) : Prop :=
  modes s ∧
  (pid s = self s → ∃ ul ch B, good s 0 ul ch B L 0 0) ∧
  (pid s ≠ self s → mem s = ∅ ∧ ulinks s = ∅ ∧ hlinks s = ∅ ∧ maps s = ∅ ∧ L = ∅).

Lemma wf_empty s :
  mem s = ∅ → ulinks s = ∅ → hlinks s = ∅ → maps s = ∅ → kmem s = ∅ → (∀ k, chain s k = empty) →
  (∀ q, user_list s q = empty) → g_cache_size s = 0 → modes s →
  good s 0 (λ _, []) (λ _, []) (λ _, ∅) ∅ 0 0.
Proof.
  intros Em Eu Eh Ema Ek Eg El Ec Hmo. split.
  - split; rewrite ?Em, ?Eu, ?Eh, ?Ema, ?Ek, ?Ec; try done; try set_solver.
    + by apply family_empty.
    + intros p. rewrite lookup_empty. split; [by intros []|]. intros [[-> ?]|[q Hq]]; [done|set_solver].
    + by apply family_empty.
  - intros q p k Hq. set_solver.
  - rewrite Em. split; [done|]. intros p k b u (Hk & _). done.
Qed.

Lemma good_empty s ul ch B L e d : good s 0 ul ch B L e d → mem s = ∅ → L = ∅.
Proof.
  intros [_ _ [R1 _]] Hm. apply map_empty. intros a. apply eq_None_not_Some. intros [[n al] Ha].
  destruct (R1 a n al Ha) as (p & k & b & u & (Hk & _) & _). by rewrite Hm in Hk.
Qed.

(** [init_hugepages]: the modes are right again, whatever it returns. *)
Lemma init_hugepages_spec s :
  g_page_table s = Zeroed → (fptr_hpg s = true → ∃ n, (n < clock s)%nat ∧ some_hugepages n) →
  (fptr_hpg s = false → g_num_hugepages s = 0) →
  ∃ r n c h, init_hugepages s = Some (r, set_g_hugepages_enabled h (set_fptr_hpg h
    (set_g_num_hugepages n (set_clock c s)))) ∧
    modes (set_g_hugepages_enabled h (set_fptr_hpg h (set_g_num_hugepages n (set_clock c s)))).
Proof.
  intros Ht Hf Hn0. unfold init_hugepages, tick. steps.
  destruct (sys_num_hpt (clock s)) as [v|] eqn:E; steps.
  - set (g := clear (g_num_hugepages s) 0xffffffff .| u32 v).
    pose proof (wrap_range 32 v ltac:(done)) as Hv.
    assert (fptr_hpg s = false → g = u32 v) as Hg.
    { intros Hfp. unfold g. rewrite (Hn0 Hfp). done. }
    destruct (Z.eqb_spec g 0) as [Hg0|Hg0]; branch; steps; unfold ret.
    + assert (fptr_hpg s = false) as Hfp.
      { destruct (fptr_hpg s) eqn:Efp; [|done]. destruct (Hf eq_refl) as (n & Hn & Hs).
        destruct (num_law n (clock s) ltac:(lia) Hs) as (v' & Hv' & Hp). rewrite E in Hv'. injection Hv' as <-.
        apply Z.lor_eq_0_iff in Hg0 as [_ Hv0]. lia. }
      exists 0, g, (S (clock s)), false. split; [by rewrite <- Hfp; destruct s|]. split; fields; try done; by rewrite Ht.
    + exists 0, g, (S (clock s)), true. split; [reflexivity|]. split; fields; try done; [by rewrite Ht|].
      intros _. destruct (fptr_hpg s) eqn:Efp.
      * destruct (Hf eq_refl) as (n & ? & ?). exists n. split; [lia|done].
      * exists (clock s). split; [lia|]. exists v. split; [done|]. rewrite <- Hg by done.
        rewrite Hg in Hg0 |- * by done. lia.
  - change (negb (0 =? 0)) with false. cbv iota. steps. unfold ret.
    assert (fptr_hpg s = false) as Hfp.
    { destruct (fptr_hpg s) eqn:Efp; [|done]. destruct (Hf eq_refl) as (n & Hn & Hs).
      destruct (num_law n (clock s) ltac:(lia) Hs) as (v' & Hv' & _). congruence. }
    exists (- EIO), 0, (S (clock s)), false. split; [by rewrite <- Hfp; destruct s|]. by split; fields; try done; rewrite Ht.
Qed.

Lemma free_root_spec s : modes s → free_root (fptr_hpg s) (g_page_table s) = Some Zeroed.
Proof. intros [-> Hr _ _]. by destruct (g_hugepages_enabled s), (g_page_table s). Qed.

(** The state [qaeOpenFd] resets to. *)
Definition reset_state (b : Z) (s : state) : state :=
  set_pUserLargeMemList empty (set_pUserMemList empty (set_pUserCache empty
    (set_g_cache_size 0 (set_g_slab_list ∅ (set_g_page_table Zeroed (set_pid b s)))))).

Definition open_file : M state Z :=
  n <- tick ;; modify (set_kmem ∅) ;;
  match sys_open n with
  | None => modify (set_fd (-1)) ;; ret (- ENOENT)
  | Some f =>
    modify (set_fd f) ;; modify (λ s, set_files ({[f]} ∪ files s) s) ;;
    r <- init_hugepages ;;
    if negb (r =? 0) then ret (- EIO) else ret 0
  end.

Lemma open_file_spec s b f :
  mem s = ∅ → ulinks s = ∅ → hlinks s = ∅ → maps s = ∅ → modes s →
  ∃ r s', open_file (set_files f (reset_state b s)) = Some (r, s') ∧ pid s' = b ∧ self s' = self s ∧
    (r = 0 → 0 <= fd s') ∧ good s' 0 (λ _, []) (λ _, []) (λ _, ∅) ∅ 0 0.
Proof.
  intros Em Eu Eh Ema [M1 M2 M3 M4]. unfold open_file, tick, reset_state. steps.
  destruct (sys_open (clock s)) as [f'|] eqn:E; steps.
  - apply open_law in E. match goal with |- context [bind init_hugepages _ ?x] => set (s1 := x) end.
    destruct (init_hugepages_spec s1) as (r & n & c & h & Hi & Hmo); subst s1; fields; [done| |done|].
    { intros Hf. destruct (M4 Hf) as (n & ? & ?). exists n. split; [lia|done]. }
    rewrite (bind_Some _ _ _ _ _ Hi). destruct (negb (r =? 0)); unfold ret;
      (eexists _, _; split; [reflexivity|]; fields; split; [done|]; split; [done|]; split; [done|]);
      (apply wf_empty; try done; by intros []).
  - unfold ret. eexists _, _. split; [reflexivity|]. fields. split; [done|]. split; [done|].
    split; [done|]. apply wf_empty; try done; [by intros []|]. split; fields; try done.
    + by destruct (g_hugepages_enabled s).
    + intros Hf. destruct (M4 Hf) as (n & ? & ?). exists n. split; [lia|done].
Qed.

Lemma when_close b f s : ∃ fl, when b (close f) s = Some ((), set_files fl s).
Proof. destruct b; [eexists; reflexivity|]. exists (files s). by destruct s. Qed.

Lemma qaeOpenFd_spec s L :
  Inv s L →
  ∃ r s', qaeOpenFd s = Some (r, s') ∧ pid s' = self s' ∧ self s' = self s ∧ (r = 0 → 0 <= fd s') ∧
    (pid s = self s → 0 <= fd s → r = 0 ∧ s' = s) ∧ ∃ ul ch B, good s' 0 ul ch B L 0 0.
Proof.
  intros (Hmo & Hin & Hout). unfold qaeOpenFd, check_pid. steps.
  assert (∀ b s0, mem s = ∅ ∧ ulinks s = ∅ ∧ hlinks s = ∅ ∧ maps s = ∅ ∧ L = ∅ →
    s0 = set_pid (self s) s → b = true →
    ∃ r s', (if b then
        free_page_table_fptr ;; modify (set_g_page_table Zeroed) ;; modify (set_g_slab_list ∅) ;;
        modify (set_g_cache_size 0) ;; modify (set_pUserCache empty) ;; modify (set_pUserMemList empty) ;;
        modify (set_pUserLargeMemList empty) ;; when (0 <? fd s) (close (fd s)) ;; open_file
      else ret 0) s0 = Some (r, s') ∧ pid s' = self s ∧ self s' = self s ∧ (r = 0 → 0 <= fd s') ∧
      good s' 0 (λ _, []) (λ _, []) (λ _, ∅) L 0 0) as Hreset.
  { intros b s0 (Em & Eu & Eh & Ema & ->) -> ->. unfold free_page_table_fptr. steps.
    rewrite (free_root_spec s Hmo). steps.
    destruct (when_close (0 <? fd s) (fd s) (reset_state (self s) s)) as [f Hf].
    change (set_pUserLargeMemList empty _) with (reset_state (self s) s).
    rewrite (bind_Some _ _ _ _ _ Hf). by apply open_file_spec. }
  destruct (Z.eqb_spec (pid s) (self s)) as [Hp|Hp]; branch; steps.
  - destruct (Z.ltb_spec (fd s) 0) as [Hfd|Hfd]; cbn [orb].
    + destruct (Hin Hp) as (ul & ch & B & HG). pose proof HG as [W _ _].
      pose proof (wf_fd _ _ _ _ _ W Hfd) as Em.
      assert (L = ∅) as -> by by eapply good_empty.
      destruct (Hreset true s) as (r & s' & Hr & Hp' & Hs' & Hr0 & HG'); [|by rewrite <- Hp; destruct s|done|].
      { split_and!; try done; [apply dom_empty_iff_L; by rewrite (wf_ulinks _ _ _ _ _ W), Em|
          apply dom_empty_iff_L; by rewrite (wf_hlinks _ _ _ _ _ W), Em|].
        apply map_empty. intros a. apply eq_None_not_Some. intros [n Hn].
        destruct (wf_owned _ _ _ _ _ W a n Hn) as (p & k & Hk & _). by rewrite Em in Hk. }
      exists r, s'. split; [exact Hr|]. split; [congruence|]. split; [done|]. split; [done|].
      split; [intros _ ?; lia|by eauto].
    + unfold ret. exists 0, s. split; [done|]. split; [done|]. split; [done|]. split; [done|].
      split; [done|]. by apply Hin.
  - rewrite orb_true_r. destruct (Hreset true (set_pid (self s) s) (Hout Hp) eq_refl eq_refl) as (r & s' & Hr & Hp' & Hs' & Hr0 & HG').
    exists r, s'. split; [exact Hr|]. split; [congruence|]. split; [done|]. split; [done|].
    split; [done|by eauto].
Qed.

Lemma good_inv s ul ch B L : pid s = self s → good s 0 ul ch B L 0 0 → Inv s L.
Proof.
  intros Hp HG. split; [apply (wf_modes _ _ _ _ _ (g_wf _ _ _ _ _ _ _ _ HG))|].
  split; [eauto|]. intros ?. done.
Qed.

Lemma same_pid s s' : same s s' → pid s = self s → pid s' = self s'.
Proof. intros [_ -> -> _ _ _]. done. Qed.

Lemma pow2_check al : 0 < al <= 2 ^ 22 → al .& (al - 1) = 0 → align_ok al.
Proof.
  intros Hal Hl. exists (Z.log2 al). pose proof (Z.log2_spec al ltac:(lia)) as [Hlo Hhi].
  pose proof (Z.log2_nonneg al). split.
  - split; [done|]. apply Z.lt_succ_r, (Z.pow_lt_mono_r_iff 2); [done|lia|].
    apply (Z.le_lt_trans _ al); [done|]. apply (Z.le_lt_trans _ (2 ^ 22)); [lia|done].
  - destruct (decide (al = 2 ^ Z.log2 al)) as [|Hne]; [done|]. exfalso.
    assert (∀ x, 2 ^ Z.log2 al <= x < 2 ^ Z.succ (Z.log2 al) → Z.testbit x (Z.log2 al) = true) as Hb.
    { intros x Hx. rewrite <- (Z.log2_unique x (Z.log2 al)) by done. apply Z.bit_log2. pose proof (pow2_pos (Z.log2 al) ltac:(done)). lia. }
    assert (Z.testbit (al .& (al - 1)) (Z.log2 al) = true) as Ht by (rewrite Z.land_spec, !Hb by lia; done).
    by rewrite Hl, Z.bits_0 in Ht.
Qed.

Lemma alloc_addr_spec s L sz node al :
  Inv s L → size_ok sz → align_ok al →
  ∃ r s', alloc_addr sz node al s = Some (r, s') ∧ self s' = self s ∧
    ((r = 0 ∧ Inv s' L) ∨ (0 < r ∧ L !! r = None ∧ Inv s' (<[r := (sz, al)]> L))).
Proof.
  intros HI Hsz Hal. destruct (qaeOpenFd_spec s L HI) as (r0 & s1 & Ho & Hp1 & Hs1 & Hr0 & _ & ul & ch & B & HG).
  unfold alloc_addr. rewrite (bind_Some _ _ _ _ _ Ho). destruct (Z.eqb_spec r0 0) as [->|Hr]; branch.
  2:{ eexists _, _. split; [reflexivity|]. split; [done|]. left. split; [done|by eapply good_inv]. }
  specialize (Hr0 eq_refl). steps.
  assert (∀ sz al r s', alloc_result s1 L sz al r s' → self s' = self s ∧
    ((r = 0 ∧ Inv s' L) ∨ (0 < r ∧ L !! r = None ∧ Inv s' (<[r := (sz, al)]> L)))) as Hres.
  { intros sz' al' r s' (HS & ul' & ch' & B' & Hor). split; [by rewrite (sa_self _ _ HS)|].
    pose proof (same_pid _ _ HS Hp1). destruct Hor as [[-> HG']|(? & ? & HG')]; [left|right];
      (split; [done|]); [|split; [done|]]; by eapply good_inv. }
  destruct ((SLAB_SIZE / UNIT_SIZE <? _) || (SLAB_SIZE <=? al)) eqn:E.
  - destruct (g_hugepages_enabled s1) eqn:Ehp.
    { eexists _, _. split; [reflexivity|]. split; [done|]. left. split; [done|by eapply good_inv]. }
    destruct (alloc_new_large s1 ul ch B L sz node al HG Hr0 Ehp Hsz Hal) as (r & s2 & Ha & Hr).
    exists r, s2. split; [exact Ha|by apply Hres].
  - apply orb_false_iff in E as [_ Hlt]. apply Z.leb_gt in Hlt.
    assert (small_align al) as Hsm.
    { destruct Hal as (i & Hi & ->). exists i. split; [|done]. split; [lia|].
      apply Z.lt_succ_r, (Z.pow_lt_mono_r_iff 2); [done|lia|]. exact Hlt. }
    destruct (heap_find_slab_spec s1 ul ch B L sz node al HG Hsz Hsm) as (p & a & s2 & Hf & HS2 & Hor).
    rewrite (bind_Some _ _ _ _ _ Hf). cbn beta iota.
    destruct Hor as [(-> & ul' & ch' & HG2)|(Hp0 & Ha & HL & ul' & B' & Hu & Hne2 & HG2)].
    + change (negb (0 =? 0)) with false; cbv iota.
      replace (g_hugepages_enabled s1) with (g_hugepages_enabled s2) by apply (sa_hp _ _ HS2).
      destruct (alloc_new_small s2 ul' ch' B L sz node al HG2) as (r & s3 & Hn & HS3 & Hor3);
        [by rewrite (sa_fd _ _ HS2)|done..|].
      exists r, s3. split; [exact Hn|]. apply Hres. split; [by etransitivity|done].
    + rewrite (proj2 (Z.eqb_neq p 0)) by done. branch. pose proof HG2 as [W2 HC2 HR2].
      destruct (wf_listed_mem _ _ _ _ _ _ _ W2 Hu) as (k & Hk & _ & _).
      destruct (wf_content _ _ _ _ _ W2 USED p k Hu Hk) as [[Ht HI2] _].
      unfold mem_at. steps. rewrite Hk. steps.
      destruct (HC2 USED p k Hu Hk Ht) as [Hall _]. rewrite decide_True in Hall by done.
      set (v := u32 (allocations k + 1)).
      destruct (set_allocations_spec s2 0 p k v ul' ch B' (B' p) W2 Hk) as (s3 & Hsa & W3 & Hm3 & HS3 & _).
      { intros q Hq. assert (q = USED) as -> by (eapply (wf_lists _ _ _ _ _ W2); done). done. }
      rewrite (bind_Some _ _ _ _ _ Hsa). exists a, s3. split; [reflexivity|]. apply Hres.
      split; [by etransitivity|]. exists ul', ch, B'. right. split; [done|]. split; [done|]. split.
      * eapply wf_blocks, W3. intros q p' _. unfold fupd. by case_decide; subst.
      * eapply (counted_0 _ _ _ p); [|intros p' k'; by eapply wf_mem_nz|right].
        -- intros q p' k' Hq Hk' Ht'. rewrite Hm3 in Hk'. apply lookup_insert_Some in Hk' as [[<- <-]|[Hne Hk']].
           ++ cbn [allocations with_allocations]. rewrite decide_True by done. split; [|done].
              pose proof (slab_inv_size _ _ HI2). unfold v. rewrite wrap_small by lia. lia.
           ++ destruct (HC2 q p' k' Hq Hk' Ht') as [Ha' Hn']. rewrite decide_False in Ha' |- * by done. done.
        -- done.
      * rewrite Hm3. by eapply rel_alike.
Qed.

(** ** Release *)

Lemma slab_of_spec s x ul ch B l p k w :
  wf s x ul ch B → (∀ p, p ∈ l → is_Some (mem s !! p)) → p ∈ l → mem s !! p = Some k →
  virt_addr k <= w < virt_addr k + size k → slab_of (mem s) l w = Some p.
Proof.
  intros W Hl Hin Hk Hw. induction l as [|p' l IH]; [set_solver|]. cbn [slab_of].
  destruct (Hl p' ltac:(left)) as [k' Hk']. rewrite Hk'. cbn [mbind option_bind].
  destruct (ma_virt _ _ _ _ _ (wf_mapped _ _ _ _ _ W p' k' Hk')) as (Hv & _ & Hb).
  destruct (ma_virt _ _ _ _ _ (wf_mapped _ _ _ _ _ W p k Hk)) as (Hv' & _ & Hb').
  destruct (ma_size _ _ _ _ _ (wf_mapped _ _ _ _ _ W p' k' Hk')) as [Hsz _].
  destruct (decide (virt_addr k' <= w < virt_addr k' + size k')) as [Hw'|Hw'].
  - assert (p' = p) as -> by (by eapply slabs_disjoint). rewrite wrap_small by lia.
    rewrite (proj2 (Z.ltb_lt _ _)) by lia. done.
  - assert (p ≠ p') as Hne by (intros ->; rewrite Hk in Hk'; injection Hk' as <-; done).
    rewrite (proj2 (Z.ltb_ge _ _)).
    + apply IH; [intros; apply Hl; by right|]. apply elem_of_cons in Hin as [->|?]; done.
    + destruct (decide (virt_addr k' <= w)); [rewrite wrap_small by lia; lia|].
      unfold wrap.
      rewrite <- (Z.mod_add (w - virt_addr k') 1 (2 ^ 64)), Z.mod_small by lia. lia.
Qed.

(** The hash and the page table find the slab of every translated address. *)
Lemma find_slab_in_hash_spec s x ul ch B p k w :
  wf s x ul ch B → mem s !! p = Some k → translated (g_hugepages_enabled s) (g_page_table s) k →
  virt_addr k <= w < virt_addr k + size k → find_slab_in_hash w s = Some (p, s).
Proof.
  intros W Hp Ht Hw. destruct (translate _ _ _ _ _ _ _ _ W Hp Ht Hw) as [_ Hkey].
  unfold find_slab_in_hash. steps. rewrite Hkey. steps.
  rewrite (dlist_elements_spec _ _ _ (proj1 (wf_hash _ _ _ _ _ W) (get_key (phy_addr k)))). steps.
  unfold lift. rewrite (slab_of_spec s x ul ch B _ p k w W); [done| |..]; try done.
  - intros p' Hp'. apply (wf_chain _ _ _ _ _ W) in Hp' as (k' & Hk' & _). by eexists.
  - apply (wf_chain _ _ _ _ _ W). eauto.
Qed.

(** An empty slab goes to the cache or back to the system. *)
Lemma retire_spec s p ul ch B L :
  wf s p ul ch B → p ≠ 0 → rel (mem s) p B L → counted ul (mem s) B 0 0 →
  (∃ k, mem s !! p = Some k ∧ type k ≠ LARGE ∧ slab_inv (ctrl k) ∅ ∧ allocations k = 0 ∧
    translated (g_hugepages_enabled s) (g_page_table s) k) →
  ∃ s', (r <- push_slab p ;; when (negb (r =? 0)) (free_slab p) ;; ret 0) s = Some (0, s') ∧ same s s' ∧
    ∃ ul' ch' B', good s' 0 ul' ch' B' L 0 0.
Proof.
  intros W Hp0 HR HC (k & Hk & Ht & HI & Hall & Htr).
  destruct (wf_cache _ _ _ _ _ W) as [Hc Hcm].
  destruct (ma_small _ _ _ _ _ (wf_mapped _ _ _ _ _ W p k Hk) Ht) as [_ Hs].
  assert (∀ q p', p' ∈ ul q → p' ≠ p) as Hne by (intros q p' Hq ->; by apply (wf_x _ _ _ _ _ W q)).
  unfold push_slab, mem_at. steps. rewrite Hk. steps. rewrite Hs.
  rewrite wrap_small by (unfold g_max_cache, SLAB_SIZE, QAE_NUM_PAGES_PER_ALLOC, QAE_PAGE_SIZE in *; lia).
  destruct (Z.leb_spec (g_cache_size s + SLAB_SIZE) g_max_cache) as [Hle|Hgt]; steps.
  - destruct (add_user_spec s p k CACHE (g_cache_size s + SLAB_SIZE) ul ch B ∅ W Hp0 Hk) as
      (s' & Ha & W' & Hm & HS & _); [done|done|by rewrite decide_True|done|].
    rewrite (bind_Some _ _ _ _ _ Ha). steps. change (negb (0 =? 0)) with false. unfold when. steps.
    unfold ret. exists s'. split; [reflexivity|]. split; [done|]. eexists _, _, _. split; [exact W'| |].
    + rewrite Hm. intros q p' k' Hq Hk' Ht'. destruct (decide (p' = p)) as [->|Hpp].
      * rewrite Hk in Hk'. injection Hk' as <-. rewrite fupd_eq, map_size_empty, decide_False by done.
        split; [lia|]. intros -> _. exfalso. rewrite fupd_ne in Hq by done. by apply (Hne USED p).
      * rewrite fupd_ne by done. apply (HC q p' k'); [|done|done].
        destruct (decide (q = CACHE)) as [->|]; [|by rewrite fupd_ne in Hq].
        rewrite fupd_eq in Hq. by apply elem_of_cons in Hq as [->|?].
    + rewrite Hm. apply rel_relist; [done|]. intros p' k'. by eapply wf_mem_nz.
  - change (negb (- ENOMEM =? 0)) with true. unfold when.
    destruct (heap_free_slab_spec s p ul ch B W Hp0) as (s' & ch' & Hf & W' & Hm & HS & _).
    rewrite (bind_Some _ _ _ _ _ Hf). unfold ret. exists s'. split; [reflexivity|]. split; [done|].
    exists ul, ch', B. split; [done| |].
    + rewrite Hm. apply (counted_sub ul); [done|done|]. apply Hne.
    + rewrite Hm. apply rel_delete; [done|]. intros p' k'. by eapply wf_mem_nz.
Qed.

Lemma good_open s ul ch B L a : good s 0 ul ch B L 0 0 → is_Some (L !! a) → 0 <= fd s.
Proof.
  intros HG [x Ha]. destruct (decide (0 <= fd s)) as [|Hn]; [done|]. exfalso.
  rewrite (good_empty _ _ _ _ _ _ _ HG) in Ha; [done|].
  apply (wf_fd _ _ _ _ _ (g_wf _ _ _ _ _ _ _ _ HG)). lia.
Qed.

(** The part of [free_addr] on a large slab, ... *)
Lemma free_big s ul ch B L p :
  wf s 0 ul ch B → counted ul (mem s) B 0 0 → p ∈ ul BIG → rel (mem s) 0 (fupd B p ∅) L →
  ∃ s', (remove_user BIG p ;; free_slab p ;; ret 0) s = Some (0, s') ∧ same s s' ∧
    ∃ ul' ch' B', good s' 0 ul' ch' B' L 0 0.
Proof.
  intros W HC Hq HR. destruct (wf_listed_mem _ _ _ _ _ _ _ W Hq) as (k & Hk & _ & Hp0).
  destruct (remove_user_spec s p BIG (g_cache_size s) ul ch B W Hq) as
    (s1 & ul1 & Hrm & W1 & Hul & Hm1 & HS1 & _); [rewrite decide_False by done; lia|].
  assert (set_g_cache_size (g_cache_size s) s = s) as E by by destruct s.
  rewrite E in Hrm. rewrite (bind_Some _ _ _ _ _ Hrm).
  destruct (heap_free_slab_spec s1 p ul1 ch B W1 Hp0) as (s2 & ch2 & Hf & W2 & Hm2 & HS2 & _).
  rewrite (bind_Some _ _ _ _ _ Hf). unfold ret. exists s2. split; [reflexivity|].
  split; [by etransitivity|]. exists ul1, ch2, (fupd B p ∅).
  assert (∀ q p', p' ∈ ul1 q → p' ≠ p) as Hne by (by intros q p' [_ ?]%Hul).
  split.
  - eapply wf_blocks, W2. intros q p' Hp'%Hne. by apply fupd_ne.
  - intros q p' k' Hq' Hk' Ht. pose proof (Hne _ _ Hq'). rewrite fupd_ne by done.
    rewrite Hm2, Hm1, lookup_delete_ne in Hk' by done. apply (HC q p' k'); [by apply Hul|done|done].
  - rewrite Hm2, Hm1. apply rel_delete; [|intros p' k'; by eapply wf_mem_nz].
    apply rel_unlist; [by rewrite fupd_eq|done|intros p' k'; by eapply wf_mem_nz].
Qed.

(** ... and on a slab of blocks. *)
Lemma free_used s ul ch B L p k b u :
  wf s 0 ul ch B → counted ul (mem s) B 0 0 → p ∈ ul USED → mem s !! p = Some k → B p !! b = Some u →
  translated (g_hugepages_enabled s) (g_page_table s) k →
  rel (mem s) 0 (fupd B p (delete b (B p))) L →
  ∃ s', (cb <- lift (mem_free (ctrl k) (1024 * b)) ;;
    let allocs := u32 (allocations k - 1) in
    put p (with_allocations allocs (with_ctrl cb k)) ;;
    if negb (allocs =? 0) then ret 0 else
    remove_user USED p ;;
    r <- push_slab p ;; when (negb (r =? 0)) (free_slab p) ;; ret 0) s = Some (0, s') ∧ same s s' ∧
    ∃ ul' ch' B', good s' 0 ul' ch' B' L 0 0.
Proof.
  intros W HC Hq Hk Hb Htr HR. destruct (wf_listed_mem _ _ _ _ _ _ _ W Hq) as (_ & _ & _ & Hp0).
  destruct (wf_content _ _ _ _ _ W USED p k Hq Hk) as [[Ht HI] _].
  destruct (free_keeps _ _ _ _ HI Hb) as (cb & Hmf & HI'). rewrite Hmf. steps.
  destruct (HC USED p k Hq Hk Ht) as [Hall _]. rewrite decide_False in Hall by done.
  assert (base.size (delete b (B p)) = Nat.pred (base.size (B p))) as Hsz by (apply map_size_delete_Some; by eexists).
  pose proof (slab_inv_size _ _ HI) as Hmax. assert (base.size (B p) ≠ 0%nat) by (intros H0'%map_size_empty_iff; by rewrite H0' in Hb).
  set (bs := delete b (B p)) in *.
  assert (u32 (allocations k - 1) = Z.of_nat (base.size bs)) as ->.
  { rewrite wrap_small by lia. lia. }
  set (k' := with_allocations (Z.of_nat (base.size bs)) (with_ctrl cb k)).
  destruct (put_spec s 0 p k k' ul ch B bs W Hk ltac:(done)) as (s1 & Hput & W1 & Hm1 & HS1 & Et1 & _).
  { intros q Hq'. assert (q = USED) as -> by (eapply (wf_lists _ _ _ _ _ W); done). done. }
  rewrite (bind_Some _ _ _ _ _ Hput).
  assert (rel (mem s1) 0 (fupd B p bs) L) as HR1 by (rewrite Hm1; by eapply rel_alike).
  assert (counted ul (mem s1) (fupd B p bs) p 0) as HC1.
  { rewrite Hm1. intros q p' k1 Hq' Hk1 Ht1. apply lookup_insert_Some in Hk1 as [[<- <-]|[Hne Hk1]].
    - rewrite fupd_eq, decide_True by done. split; [cbn [allocations k' with_allocations]; lia|done].
    - rewrite fupd_ne by done. destruct (HC q p' k1 Hq' Hk1 Ht1) as [Ha Hn].
      pose proof (wf_mem_nz _ _ _ _ _ _ _ W Hk1). rewrite decide_False in Ha by done.
      split; [destruct (decide (p' = p)); lia|]. intros HU _. by apply Hn. }
  destruct (Z.eqb_spec (Z.of_nat (base.size bs)) 0) as [Hz|Hz]; branch.
  2:{ unfold ret. exists s1. split; [reflexivity|]. split; [done|]. exists ul, ch, (fupd B p bs).
      split; [done| |done]. eapply counted_0; [done|intros p' k1; by eapply wf_mem_nz|right].
      rewrite fupd_eq. intros He. by rewrite He, map_size_empty in Hz. }
  assert (bs = ∅) as He by (apply map_size_empty_inv; lia).
  destruct (remove_user_spec s1 p USED (g_cache_size s1) ul ch _ W1 Hq) as
    (s2 & ul2 & Hrm & W2 & Hul & Hm2 & HS2 & Et2 & _); [rewrite decide_False by done; lia|].
  assert (set_g_cache_size (g_cache_size s1) s1 = s1) as E by by destruct s1.
  rewrite E in Hrm. rewrite (bind_Some _ _ _ _ _ Hrm).
  destruct (retire_spec s2 p ul2 ch (fupd B p bs) L W2 Hp0) as (s3 & Hr & HS3 & HG3).
  - rewrite Hm2. apply rel_unlist; [by rewrite fupd_eq|done|intros p' k1; by eapply wf_mem_nz].
  - rewrite Hm2. intros q p' k1 Hq' Hk1 Ht1. apply Hul in Hq' as [Hq' Hne].
    destruct (HC1 q p' k1 Hq' Hk1 Ht1) as [Ha Hn]. rewrite decide_False in Ha by done.
    split; [destruct (decide (p' = 0)); lia|]. intros HU _. by apply Hn.
  - exists k'. split; [by rewrite Hm2, Hm1, lookup_insert_eq|]. split; [done|].
    split; [cbn [ctrl k' with_allocations with_ctrl]; by rewrite He in HI'|].
    split; [cbn [allocations k' with_allocations]; lia|].
    rewrite Et2, Et1, (sa_hp _ _ HS2), (sa_hp _ _ HS1). exact Htr.
  - exists s3. split; [exact Hr|]. split; [|done]. by do 2 (etransitivity; [eassumption|]).
Qed.

Lemma good_step {A} s (f : M state A) (r : A) L : pid s = self s →
  (∃ s', f s = Some (r, s') ∧ same s s' ∧ ∃ ul ch B, good s' 0 ul ch B L 0 0) →
  ∃ s', f s = Some (r, s') ∧ self s' = self s ∧ Inv s' L.
Proof.
  intros Hp (s' & Hrun & HS & ul & ch & B & HG). exists s'. split; [exact Hrun|].
  split; [apply (sa_self _ _ HS)|]. eapply good_inv, HG. by eapply same_pid.
Qed.

Lemma free_addr_spec s L a n al :
  Inv s L → L !! a = Some (n, al) →
  ∃ s', qaeMemFreeNUMA 0 a s = Some (0, s') ∧ self s' = self s ∧ Inv s' (delete a L).
Proof.
  intros HI Ha. pose proof HI as (Hmo & Hin & Hout).
  assert (pid s = self s) as Hp.
  { destruct (decide (pid s = self s)) as [|Hne]; [done|]. destruct (Hout Hne) as (_ & _ & _ & _ & ->). done. }
  destruct (Hin Hp) as (ul & ch & B & HG). pose proof HG as [W HC HR].
  assert (0 <= fd s) as Hfd by (eapply good_open; [exact HG|by eexists]).
  destruct (qaeOpenFd_spec s L HI) as (r & s0 & Ho & _ & _ & _ & Heq & _).
  destruct (Heq Hp Hfd) as [-> ->]. clear Heq.
  destruct (rel_client _ _ _ _ HR a n al Ha) as (p & k & b & u & HB & -> & _).
  pose proof (block_range _ _ _ _ _ _ _ _ _ W HB) as Hr.
  destruct (block_listed _ _ _ _ _ _ _ _ _ W HB) as (q & Hq & Hcont & Htr).
  pose proof (rel_free _ _ _ _ _ _ _ _ _ W HR HB) as HRf. pose proof HB as (Hk & Hp0 & Hb).
  pose proof (wf_mapped _ _ _ _ _ W p k Hk) as HM.
  destruct (ma_virt _ _ _ _ _ HM) as (Hv & _).
  assert (virt_addr k <= addr k b < virt_addr k + size k) as Hw by (unfold addr; lia).
  unfold qaeMemFreeNUMA. rewrite (proj2 (Z.eqb_neq (addr k b) 0)) by (unfold addr; lia).
  change (negb (0 =? 0)) with false. cbv iota. unfold free_addr. rewrite (bind_Some _ _ _ _ _ Ho). branch.
  change (0 =? 0) with true. branch.
  rewrite (bind_Some _ _ _ _ _ (find_slab_in_hash_spec _ _ _ _ _ _ _ _ W Hk Htr Hw)).
  rewrite (proj2 (Z.eqb_neq p 0)) by done. unfold mem_at. steps. rewrite Hk. steps.
  apply (good_step s _ 0 _ Hp).
  destruct (decide (type k = LARGE)) as [Hl|Hl].
  - rewrite Hl. change ((LARGE =? SMALL) || (LARGE =? HUGE_PAGE)) with false. cbv iota.
    assert (q = BIG) as -> by (destruct q; [by destruct Hcont|by destruct Hcont|done]).
    destruct Hcont as [_ Hbs]. rewrite Hbs in Hb, HRf. apply lookup_singleton_Some in Hb as [<- <-].
    rewrite delete_singleton_eq in HRf. by eapply free_big.
  - assert ((type k =? SMALL) || (type k =? HUGE_PAGE) = true) as ->.
    { rewrite (ma_type _ _ _ _ _ HM). destruct (g_hugepages_enabled s); [done|]. by rewrite decide_False. }
    assert (q = USED) as ->.
    { destruct q; [|done|by destruct Hcont]. destruct Hcont as (_ & _ & He). by rewrite He, lookup_empty in Hb. }
    assert (addr k b - p = 1024 * b) as ->.
    { unfold addr. destruct (ma_small _ _ _ _ _ HM Hl) as [-> _]. lia. }
    by eapply free_used.
Qed.

(** ** Closing

    [qaeMemDestroy] clears the page table first, and frees the slabs of two lists
    without taking them off.  Nothing it calls reads the table, or those lists
    but for the next link of the slab at hand; so it is followed on the state
    that still has them. *)

Definition overlay (l : links) (d1 d2 : dlist) (t : root) (s : state) : state :=
  set_ulinks l (set_pUserMemList d1 (set_pUserLargeMemList d2 (set_g_page_table t s))).

Lemma run_inv {A S} (r : A) (s s' : S) : Some (r, s) = Some (r, s') → s = s'.
Proof. by intros [= ->]. Qed.

Lemma pop_slab_table t s r s' node :
  pop_slab node s = Some (r, s') → pop_slab node (set_g_page_table t s) = Some (r, set_g_page_table t s').
Proof.
  unfold pop_slab, elements_of, remove_user, mem_at. steps.
  destruct (dlist_elements (ulinks s) (pUserCache s)) as [l|]; [|done]. steps.
  destruct (pick_slab (mem s) l (g_strict_node s) node) as [p|]; [|done]. steps.
  destruct (p =? 0); [by intros [= <- <-]|]. steps. destruct (mem s !! p) as [k|]; [|done]. steps.
  destruct (REMOVE_ELEMENT_FROM_LIST p (ulinks s) (pUserCache s)) as [[ls d]|]; [|done]. steps.
  by intros [= <- <-].
Qed.

Lemma free_slab_table t s x s' :
  free_slab x s = Some ((), s') → free_slab x (set_g_page_table t s) = Some ((), set_g_page_table t s').
Proof.
  unfold free_slab, del_slab_from_hash, mem_at. steps.
  destruct (mem s !! x) as [k|] eqn:E; [|done]. steps. unfold chain. fields.
  destruct (REMOVE_ELEMENT_FROM_LIST x (hlinks s) _) as [[ls d]|]; [|done]. steps. rewrite E. steps.
  unfold qae_munmap, when, hugepage_free_slab, ioctl_MEMFREE, close, modify, bind, ret.
  destruct (type k =? LARGE), (type k =? HUGE_PAGE); flat; by intros <-%run_inv.
Qed.

Lemma free_slab_overlay l d1 d2 t s x s' :
  free_slab x s = Some ((), s') → x ∉ dom (mem s') →
  ∃ l', free_slab x (overlay l d1 d2 t s) = Some ((), overlay l' d1 d2 t s') ∧
    (∀ y, y ∈ dom (mem s') → l' !! y = l !! y) ∧ dom l' ⊆ dom l ∖ {[x]}.
Proof.
  unfold free_slab, del_slab_from_hash, mem_at, overlay. steps.
  destruct (mem s !! x) as [k|] eqn:E; [|done]. steps. unfold chain. fields.
  destruct (REMOVE_ELEMENT_FROM_LIST x (hlinks s) _) as [[ls d]|]; [|done]. steps. rewrite E. steps.
  unfold qae_munmap, when, hugepage_free_slab, ioctl_MEMFREE, close, modify, bind, ret.
  set (v := virt_addr k) in *. clearbody v. destruct s.
  destruct (type k =? LARGE), (type k =? HUGE_PAGE); flat; intros <-%run_inv Hx; eexists; (split; [reflexivity|]); fields;
    rewrite !dom_delete_L in *; apply elem_of_dom_2 in E.
  1,2: split; [intros y Hy; rewrite !lookup_delete_ne by set_solver; done|set_solver].
  all: assert (v = x) as -> by (clear - E Hx; destruct (decide (x = v)); set_solver).
  all: split; [intros y Hy; rewrite !lookup_delete_ne by set_solver; done|set_solver].
Qed.

(** The slabs of list [xs], from [p] on. *)
Fixpoint nexts (l : links) (p : Z) (xs : list Z) : Prop :=
  match xs with
  | [] => p = 0
  | x :: xs => p = x ∧ x ≠ 0 ∧ ∃ k, l !! x = Some k ∧ nexts l (pNext k) xs
  end.

Lemma nexts_frame l l' p xs : (∀ x, x ∈ xs → l' !! x = l !! x) → nexts l p xs → nexts l' p xs.
Proof.
  revert p. induction xs as [|x xs IH]; intros p Hf; [done|]. intros (-> & Hx & k & Hk & Hn).
  split; [done|]. split; [done|]. exists k. rewrite Hf by left. split; [done|].
  apply IH; [|done]. intros y Hy. apply Hf. by right.
Qed.

Lemma dseg_nexts l p xs : dseg l p xs 0 → nexts l (List.hd 0 xs) xs.
Proof.
  revert p. induction xs as [|x xs IH]; intros p; [done|]. intros (Hx & Hl & Hs). cbn [nexts List.hd].
  split; [done|]. split; [done|]. eexists. split; [exact Hl|]. by eapply IH.
Qed.

Lemma remove_user_overlay l d1 d2 t q x s s' :
  q ≠ CACHE → remove_user q x s = Some ((), s') → overlay l d1 d2 t s' = overlay l d1 d2 t s.
Proof.
  intros Hq. unfold remove_user. steps.
  destruct (REMOVE_ELEMENT_FROM_LIST x (ulinks s) (user_list s q)) as [[ls d]|]; [|done]. steps.
  intros [= <-]. by destruct q.
Qed.

Lemma split_head (x : Z) xs as_ bs : NoDup (x :: xs) → x :: xs = as_ ++ x :: bs → as_ = [] ∧ bs = xs.
Proof.
  intros [Hx _]%NoDup_cons He. destruct as_ as [|y as_]; cbn [app] in He.
  - by injection He as ->.
  - injection He as -> ->. exfalso. apply Hx. set_solver.
Qed.

Lemma destroy_loop_spec fuel l d1 d2 t q : ∀ s p ul ch B,
  wf s 0 ul ch B → q ≠ CACHE → nexts l p (ul q) → (length (ul q) <= fuel)%nat → dom l ⊆ dom (mem s) →
  ∃ l' s' ul' ch', destroy_loop fuel p (overlay l d1 d2 t s) = Some ((), overlay l' d1 d2 t s') ∧
    wf s' 0 ul' ch' B ∧ ul' q = [] ∧ (∀ q', q' ≠ q → ul' q' = ul q') ∧ same s s' ∧
    (∀ y, y ∈ dom (mem s') → l' !! y = l !! y) ∧ dom l' ⊆ dom (mem s').
Proof.
  revert l. induction fuel as [|fuel IH]; intros l s p ul ch B W Hq Hn Hf Hd;
    (destruct (ul q) as [|x xs] eqn:E; [cbn [nexts] in Hn; subst p;
      exists l, s, ul, ch; split; [done|]; split_and!; done|]); cbn [length] in Hf; [lia|].
  destruct Hn as (-> & Hx0 & lk & Hlk & Hn). cbn [destroy_loop].
  rewrite (proj2 (Z.eqb_neq x 0)) by done. steps.
  change (ulinks (overlay l d1 d2 t s)) with l. rewrite Hlk. steps.
  assert (x ∈ ul q) as Hin by (rewrite E; left).
  destruct (remove_user_spec s x q (g_cache_size s) ul ch B W Hin) as
    (s1 & ul1 & Hrm & W1 & Hul & Hm1 & HS1 & Et1 & Ec1 & xs' & ys' & Hsp & Hul1); [rewrite decide_False by done; lia|].
  assert (set_g_cache_size (g_cache_size s) s = s) as Es by by destruct s. rewrite Es in Hrm.
  rewrite E in Hsp. apply split_head in Hsp as [-> ->];
    [|rewrite <- E; apply (proj1 (wf_lists _ _ _ _ _ W) q)]. cbn [app] in Hul1.
  rewrite <- (remove_user_overlay l d1 d2 t q x s s1 Hq Hrm).
  destruct (heap_free_slab_spec s1 x ul1 ch B W1 Hx0) as (s2 & ch2 & Hfr & W2 & Hm2 & HS2 & _).
  assert (x ∉ dom (mem s2)) as Hxd by (rewrite Hm2, dom_delete_L; set_solver).
  destruct (free_slab_overlay l d1 d2 t s1 x s2 Hfr Hxd) as (l2 & Hfo & Hl2 & Hd2).
  rewrite (bind_Some _ _ _ _ _ Hfo).
  destruct (IH l2 s2 (pNext lk) ul1 ch2 B W2 Hq) as (l3 & s3 & ul3 & ch3 & Hl3 & W3 & Hq3 & Hne3 & HS3 & Hf3 & Hd3).
  - rewrite Hul1, fupd_eq. eapply nexts_frame, Hn. intros y Hy. apply Hl2.
    apply elem_of_dom. apply (wf_listed _ _ _ _ _ W2). right. exists q. by rewrite Hul1, fupd_eq.
  - rewrite Hul1, fupd_eq. lia.
  - rewrite Hm2, dom_delete_L, Hm1. set_solver.
  - exists l3, s3, ul3, ch3. split; [exact Hl3|]. split; [done|]. split; [done|].
    split; [intros q' Hq'; rewrite Hne3 by done; by rewrite Hul1, fupd_ne|].
    split; [by do 2 (etransitivity; [eassumption|])|]. split; [|done].
    intros y Hy. rewrite Hf3 by done. apply Hl2.
    apply elem_of_dom. apply elem_of_dom in Hy as Hs. apply (wf_listed _ _ _ _ _ W3) in Hs as [[-> ?]|[q' Hq']]; [done|].
    apply (wf_listed _ _ _ _ _ W2). right. exists q'. destruct (decide (q' = q)) as [->|Hqq]; [by rewrite Hq3 in Hq'; apply not_elem_of_nil in Hq'|].
    by rewrite Hne3 in Hq'.
Qed.

(** The cache first. *)
Lemma reset_loop_spec fuel t : ∀ s ul ch B,
  wf s 0 ul ch B → (length (ul CACHE) <= fuel)%nat →
  ∃ s' ul' ch', reset_loop fuel (set_g_page_table t s) = Some ((), set_g_page_table t s') ∧
    wf s' 0 ul' ch' B ∧ ul' CACHE = [] ∧ (∀ q, q ≠ CACHE → ul' q = ul q) ∧ same s s'.
Proof.
  induction fuel as [|fuel IH]; intros s ul ch B W Hf; cbn [reset_loop];
    (destruct (pop_slab_spec s ul ch B NUMA_ANY_NODE W) as (r & s1 & Hpop & [(-> & -> & He)|
       (Hr & ul1 & W1 & _ & Hm1 & HS1 & _ & as_ & bs & Hs & Hul)]);
     rewrite (bind_Some _ _ _ _ _ (pop_slab_table t _ _ _ _ Hpop));
     [change (0 =? 0) with true; cbv iota; exists s, ul, ch; split; [done|]; split; [done|]; by split; [apply He|]|]).
  { rewrite Hs, length_app in Hf. cbn [length] in Hf. lia. }
  destruct (wf_listed_mem _ _ _ _ _ _ _ W Hr) as (_ & _ & _ & Hr0).
  rewrite (proj2 (Z.eqb_neq r 0)) by done.
  destruct (heap_free_slab_spec s1 r ul1 ch B W1 Hr0) as (s2 & ch2 & Hfr & W2 & Hm2 & HS2 & _).
  assert (r ∉ dom (mem s2)) as Hxd by (rewrite Hm2, dom_delete_L; set_solver).
  rewrite (bind_Some _ _ _ _ _ (free_slab_table t _ _ _ Hfr)).
  destruct (IH s2 ul1 ch2 B W2) as (s4 & ul4 & ch4 & Hl & W4 & He4 & Hne4 & HS4).
  { rewrite Hul, fupd_eq. rewrite Hs, length_app in Hf. cbn [length] in Hf. rewrite length_app. lia. }
  exists s4, ul4, ch4. split; [exact Hl|]. split; [done|]. split; [done|].
  split; [|by do 2 (etransitivity; [eassumption|])].
  intros q Hq. rewrite Hne4 by done. by rewrite Hul, fupd_ne.
Qed.
Lemma list_le_mem s x ul ch B q : wf s x ul ch B → (length (ul q) <= base.size (mem s))%nat.
Proof.
  intros W. pose proof (proj1 (wf_lists _ _ _ _ _ W) q) as [Hnd _].
  rewrite <- (size_list_to_set (C := gset Z) (ul q)) by done. rewrite <- size_dom.
  apply subseteq_size. intros p Hp%elem_of_list_to_set. apply elem_of_dom.
  apply (wf_listed _ _ _ _ _ W). eauto.
Qed.

Lemma is_list_nil_empty ls d : is_list ls d [] → d = empty.
Proof. intros (_ & _ & Hh & Ht). destruct d. cbn in *. by subst. Qed.

(** No slab is left when the lists are empty, and nothing is left for slabs. *)
Lemma wf_no_slabs s ul ch B :
  wf s 0 ul ch B → (∀ q, ul q = []) →
  mem s = ∅ ∧ ulinks s = ∅ ∧ hlinks s = ∅ ∧ maps s = ∅ ∧ kmem s = ∅ ∧ (∀ k, chain s k = empty) ∧
  g_cache_size s = 0.
Proof.
  intros W Hul. assert (mem s = ∅) as Em.
  { apply map_empty. intros p. apply eq_None_not_Some. intros Hs. apply (wf_listed _ _ _ _ _ W) in Hs as [[-> ?]|[q Hq]]; [done|].
    rewrite Hul in Hq. by apply not_elem_of_nil in Hq. }
  split_and!; [done|apply dom_empty_iff_L; by rewrite (wf_ulinks _ _ _ _ _ W), Em|
    apply dom_empty_iff_L; by rewrite (wf_hlinks _ _ _ _ _ W), Em| | | |].
  - apply map_empty. intros a. apply eq_None_not_Some. intros [n Hn].
    destruct (wf_owned _ _ _ _ _ W a n Hn) as (p & k & Hk & _). by rewrite Em in Hk.
  - apply map_empty. intros a. apply eq_None_not_Some. intros [n Hn].
    destruct (wf_kmem _ _ _ _ _ W a n Hn) as (p & k & Hk & _). by rewrite Em in Hk.
  - intros key. apply (is_list_nil_empty (hlinks s)).
    replace [] with (ch key); [apply (wf_hash _ _ _ _ _ W)|].
    destruct (ch key) as [|p l] eqn:E; [done|]. exfalso.
    assert (p ∈ ch key) as Hp by (rewrite E; left).
    apply (wf_chain _ _ _ _ _ W) in Hp as (k & Hk & _). by rewrite Em in Hk.
  - destruct (wf_cache _ _ _ _ _ W) as [-> _]. by rewrite Hul.
Qed.

Lemma destroyList_spec l d1 d2 t q s ul ch B :
  wf s 0 ul ch B → q ≠ CACHE → dom l ⊆ dom (mem s) →
  nexts l (head (user_list (overlay l d1 d2 t s) q)) (ul q) →
  ∃ l' s' ul' ch', destroyList q (overlay l d1 d2 t s) = Some ((), overlay l' d1 d2 t s') ∧
    wf s' 0 ul' ch' B ∧ ul' q = [] ∧ (∀ q', q' ≠ q → ul' q' = ul q') ∧ same s s' ∧
    (∀ y, y ∈ dom (mem s') → l' !! y = l !! y) ∧ dom l' ⊆ dom (mem s').
Proof.
  intros W Hq Hd Hn. unfold destroyList. steps.
  apply (destroy_loop_spec _ _ _ _ _ q s _ ul ch B W Hq Hn); [|done].
  apply Nat.le_le_succ_r. exact (list_le_mem _ _ _ _ _ q W).
Qed.

(** The three loops free every slab. *)
Lemma destroy_all s ul ch B :
  wf s 0 ul ch B →
  ∃ d1 d2 s', (reset_cache ;; destroyList USED ;; destroyList BIG) (set_g_page_table Zeroed s) =
      Some ((), overlay ∅ d1 d2 Zeroed s') ∧ same s s' ∧
    (∃ ul' ch', wf s' 0 ul' ch' B ∧ ∀ q, ul' q = []).
Proof.
  intros W. unfold reset_cache. steps.
  destruct (reset_loop_spec (base.size (mem s)) Zeroed s ul ch B W) as (s1 & ul1 & ch1 & Hr & W1 & He1 & Hne1 & HS1);
    [exact (list_le_mem _ _ _ _ _ CACHE W)|].
  rewrite (bind_Some _ _ _ _ _ Hr).
  set (l1 := ulinks s1). set (d1 := pUserMemList s1). set (d2 := pUserLargeMemList s1).
  assert (set_g_page_table Zeroed s1 = overlay l1 d1 d2 Zeroed s1) as -> by by destruct s1.
  assert (∀ q, nexts l1 (head (user_list s1 q)) (ul1 q)) as Hn.
  { intros q. destruct (proj1 (wf_lists _ _ _ _ _ W1) q) as (_ & Hs & -> & _). by eapply dseg_nexts. }
  destruct (destroyList_spec l1 d1 d2 Zeroed USED s1 ul1 ch1 B W1) as
    (l2 & s2 & ul2 & ch2 & H2 & W2 & He2 & Hne2 & HS2 & Hf2 & Hd2); [done| |apply (Hn USED)|].
  { unfold l1. by rewrite (wf_ulinks _ _ _ _ _ W1). }
  rewrite (bind_Some _ _ _ _ _ H2).
  destruct (destroyList_spec l2 d1 d2 Zeroed BIG s2 ul2 ch2 B W2) as
    (l3 & s3 & ul3 & ch3 & H3 & W3 & He3 & Hne3 & HS3 & Hf3 & Hd3); [done|done| |].
  { rewrite Hne2 by done. eapply nexts_frame, (Hn BIG). intros y Hy. apply Hf2. apply elem_of_dom.
    apply (wf_listed _ _ _ _ _ W2). right. exists BIG. by rewrite Hne2. }
  assert (∀ q, ul3 q = []) as Hall.
  { intros []; [rewrite Hne3, Hne2 by done; exact He1|by rewrite Hne3|done]. }
  destruct (wf_no_slabs _ _ _ _ W3 Hall) as (Em & _).
  assert (l3 = ∅) as -> by (apply dom_empty_iff_L; rewrite Em, dom_empty_L in Hd3; set_solver).
  exists d1, d2, s3. split; [exact H3|]. split; [by do 2 (etransitivity; [eassumption|])|]. by exists ul3, ch3.
Qed.

Lemma qaeMemDestroy_spec s L :
  Inv s L → pid s = self s →
  ∃ s', qaeMemDestroy 0 s = Some ((), s') ∧ self s' = self s ∧ Inv s' ∅ ∧
    mem s' = ∅ ∧ maps s' = ∅ ∧ kmem s' = ∅ ∧ (0 < fd s → fd s' = -1).
Proof.
  intros (Hmo & Hin & _) Hp. destruct (Hin Hp) as (ul & ch & B & [W _ _]).
  unfold qaeMemDestroy. change (negb (0 =? 0)) with false. cbv iota. unfold free_page_table_fptr. steps.
  rewrite (free_root_spec s Hmo). steps.
  destruct (destroy_all s ul ch B W) as (d1 & d2 & s3 & Hall & HS & ul3 & ch3 & W3 & Hnil).
  assert (∀ f : M state (), (reset_cache ;; destroyList USED ;; destroyList BIG ;; f) (set_g_page_table Zeroed s) =
    f (overlay ∅ d1 d2 Zeroed s3)) as ->.
  { intros f. unfold bind in *. destruct (reset_cache _) as [[[] s4]|]; [|done].
    destruct (destroyList USED s4) as [[[] s5]|]; [|done]. by rewrite Hall. }
  destruct (wf_no_slabs _ _ _ _ W3 Hnil) as (Em & Eu & Eh & Ema & Ek & Ech & Ec).
  unfold overlay. steps. rewrite (sa_fd _ _ HS).
  pose proof (same_pid _ _ HS Hp) as Hp3.
  assert (∀ s', modes s' → mem s' = ∅ → ulinks s' = ∅ → hlinks s' = ∅ → maps s' = ∅ → kmem s' = ∅ →
    (∀ k, chain s' k = empty) → (∀ q, user_list s' q = empty) → g_cache_size s' = 0 →
    pid s' = self s' → Inv s' ∅) as Hinv.
  { intros. eapply good_inv; [done|]. by apply wf_empty. }
  pose proof (wf_modes _ _ _ _ _ W3) as [M1 M2 M3 M4].
  destruct (0 <? fd s) eqn:Efd; unfold when, ioctl_RELEASE, close; steps; unfold modify, ret.
  - eexists. split; [reflexivity|]. fields. split; [by rewrite (sa_self _ _ HS)|]. split; [|done].
    apply Hinv; fields; try done; [|by intros []].
    split; fields; try done. by destruct (g_hugepages_enabled s3).
  - apply Z.ltb_ge in Efd. eexists. split; [reflexivity|]. fields. split; [by rewrite (sa_self _ _ HS)|].
    split; [|split_and!; try done; lia].
    apply Hinv; fields; try done; [|by intros []].
    split; fields; try done. by destruct (g_hugepages_enabled s3).
Qed.

End heap.

End UsdmHeapOps.
