(* ===== verification/UsdmHeapSpec.v ===== *)
(** * The user side of the memory driver: the heap it gives its clients

    What a process that allocates, frees, translates, forks and opens and closes
    the library can rely on, and what it cannot, from the specifications of the
    calls in [UsdmHeapOps]. *)

From S2P Require Import Prelude DList PageTable Slab UsdmHeap UsdmHeapInv UsdmHeapOps.
Import DList PageTable Slab UsdmHeap UsdmHeapInv UsdmHeapOps.

#[local] Open Scope Z_scope.
#[local] Open Scope qat_scope.

Module UsdmHeapSpec.

Section heap.
Context `{OSLaws}.

(** ** A process *)

Inductive op :=
  | Init | Alloc (sz node al : Z) | Free (a : Z) | VirtToPhys (a : Z) | Destroy | Fork (child : Z).

Definition step (o : op) : M state Z :=
  match o with
  | Init => qaeMemInit 0 0
  | Alloc sz node al => qaeMemAllocNUMA 0 0 sz node al
  | Free a => qaeMemFreeNUMA 0 a
  | VirtToPhys a => qaeVirtToPhysNUMA a
  | Destroy => qaeMemDestroy 0 ;; ret 0
  | Fork c => modify (fork c) ;; ret 0
  end.

(** The blocks the process has after a step that returned [r]. *)
Definition client_after (o : op) (r : Z) (L : client) : client :=
  match o with
  | Alloc sz _ al => if r =? 0 then L else <[r := (sz, al)]> L
  | Free a => delete a L
  | Destroy | Fork _ => ∅
  | Init | VirtToPhys _ => L
  end.

(** What is asked of a process: sizes the rounding does not overflow on, frees
    of what it got, and in a child no [Destroy] before another call; and of the
    system, that a child does not have the process id of an ancestor the library
    was used in. *)
Definition polite (s : state) (L : client) (o : op) : Prop :=
  match o with
  | Alloc sz _ al => 0 <= sz < 2 ^ 64 - 8192 ∧ 0 <= al
  | Free a => is_Some (L !! a)
  | Destroy => pid s = self s
  | Fork c => c ≠ pid s
  | Init | VirtToPhys _ => True
  end.

Inductive reach : state → client → Prop :=
  | reach_init me : me ≠ 0 → reach (init_state me) ∅
  | reach_step s L o r s' :
      reach s L → polite s L o → step o s = Some (r, s') → reach s' (client_after o r L).

Lemma alloc_call_spec s L sz node al :
  Inv s L → 0 <= sz < 2 ^ 64 - 8192 → 0 <= al →
  ∃ r s', qaeMemAllocNUMA 0 0 sz node al s = Some (r, s') ∧
    ((r = 0 ∧ Inv s' L) ∨ (0 < r ∧ L !! r = None ∧ Inv s' (<[r := (sz, al)]> L))).
Proof.
  intros HI Hsz Hal. unfold qaeMemAllocNUMA.
  assert (∃ r s', ret 0 s = Some (r, s') ∧
    ((r = 0 ∧ Inv s' L) ∨ (0 < r ∧ L !! r = None ∧ Inv s' (<[r := (sz, al)]> L)))) as H0'
    by (exists 0, s; split; [done|by left]).
  destruct (Z.eqb_spec sz 0) as [->|Hsz0]; [done|].
  destruct (Z.eqb_spec al 0) as [->|Hal0]; [done|]. destruct (Z.ltb_spec MAX_PHYS_ALIGN al); [done|].
  destruct (Z.eqb_spec (al .& (al - 1)) 0) as [Hl|]; [|done]. cbn [orb negb].
  change (negb (0 =? 0)) with false. cbv iota.
  assert (align_ok al) as Hok by (apply pow2_check; [unfold MAX_PHYS_ALIGN in *; lia|done]).
  destruct (alloc_addr_spec s L sz node al HI) as (r & s' & Ha & _ & Hor); [unfold size_ok; lia|done|].
  rewrite (bind_Some _ _ _ _ _ Ha). exists r, s'. by split.
Qed.

Lemma virt_total s L a : Inv s L → ∃ r, qaeVirtToPhysNUMA a s = Some (r, s).
Proof.
  intros (Hmo & _). destruct Hmo as [Hf Hr _ _]. unfold qaeVirtToPhysNUMA. steps. rewrite Hf. unfold lift, load_addr_fptr.
  destruct (g_hugepages_enabled s), (g_page_table s); try done; by eexists.
Qed.

(** Every step ends without a fault and keeps the invariant. *)
Lemma step_spec s L o :
  Inv s L → polite s L o →
  ∃ r s', step o s = Some (r, s') ∧ Inv s' (client_after o r L) ∧
    (r ≠ 0 → ∀ sz node al, o = Alloc sz node al → 0 < r ∧ L !! r = None) ∧
    (o = Destroy → mem s' = ∅ ∧ maps s' = ∅ ∧ kmem s' = ∅).
Proof.
  intros HI Hpol. destruct o as [|sz node al|a|a| |c]; cbn [step client_after polite] in *.
  - destruct (qaeOpenFd_spec s L HI) as (r & s' & Ho & Hp & _ & _ & _ & ul & ch & B & HG).
    unfold qaeMemInit. change (negb (0 =? 0)) with false. cbv iota. rewrite (bind_Some _ _ _ _ _ Ho).
    exists r, s'. split; [done|]. split; [by eapply good_inv|done].
  - destruct (alloc_call_spec s L sz node al HI ltac:(apply Hpol) ltac:(apply Hpol)) as (r & s' & Ha & Hor).
    exists r, s'. split; [done|]. destruct Hor as [[-> HI']|(Hr & HL & HI')]; [done|].
    rewrite (proj2 (Z.eqb_neq r 0)) by lia. split; [done|]. by split.
  - destruct Hpol as [[n al] Ha]. destruct (free_addr_spec s L a n al HI Ha) as (s' & Hf & _ & HI').
    exists 0, s'. done.
  - destruct (virt_total s L a HI) as [r Hr]. exists r, s. done.
  - destruct (qaeMemDestroy_spec s L HI Hpol) as (s' & Hd & _ & HI' & ? & ? & ? & _).
    rewrite (bind_Some _ _ _ _ _ Hd). exists 0, s'. done.
  - steps. unfold ret. exists 0, (fork c s). split; [done|]. split; [|done].
    destruct HI as ([M1 M2 M3 M4] & _). split; [by split|]. split; [|done].
    intros Hp. by destruct Hpol.
Qed.

Lemma heap_reach_inv s L : reach s L → Inv s L.
Proof.
  induction 1 as [me Hme|s L o r s' _ IH Hpol Hst].
  - split; [by split|]. split; [|done]. intros Hp. by destruct Hme.
  - destruct (step_spec s L o IH Hpol) as (r' & s1 & H1 & HI & _). rewrite Hst in H1. by injection H1 as <- <-.
Qed.

Lemma inv_client s L a x : Inv s L → L !! a = Some x → ∃ ul ch B, good s 0 ul ch B L 0 0.
Proof.
  intros (_ & Hin & Hout) Ha. destruct (decide (pid s = self s)) as [Hp|Hp]; [by apply Hin|].
  destruct (Hout Hp) as (_ & _ & _ & _ & ->). done.
Qed.

Lemma client_disjoint s ul ch B L a n al b m bl :
  wf s 0 ul ch B → rel (mem s) 0 B L → L !! a = Some (n, al) → L !! b = Some (m, bl) → a ≠ b →
  a + n <= b ∨ b + m <= a.
Proof.
  intros W HR Ha Hb Hne.
  destruct (rel_client _ _ _ _ HR _ _ _ Ha) as (p & k & i & u & HB & -> & Hn & _).
  destruct (rel_client _ _ _ _ HR _ _ _ Hb) as (p' & k' & i' & u' & HB' & -> & Hn' & _).
  pose proof (block_range _ _ _ _ _ _ _ _ _ W HB) as Hr. pose proof (block_range _ _ _ _ _ _ _ _ _ W HB') as Hr'.
  unfold addr in *. destruct (decide (p = p')) as [<-|Hpp].
  - destruct (block_listed _ _ _ _ _ _ _ _ _ W HB) as (q & _ & Hcont & _).
    destruct HB as (Hk & _ & Hi), HB' as (Hk' & _ & Hi'). rewrite Hk in Hk'. injection Hk' as <-.
    assert (slab_inv (ctrl k) (B p) → i + u <= i' ∨ i' + u' <= i) as Hd.
    { intros HI. pose proof (s_disjoint _ _ HI _ _ _ _ Hi Hi'). pose proof (s_disjoint _ _ HI _ _ _ _ Hi' Hi).
      assert (i ≠ i') by congruence. lia. }
    destruct q; [destruct Hcont as (_ & HI & _); specialize (Hd HI); lia|
                 destruct Hcont as (_ & HI); specialize (Hd HI); lia|].
    destruct Hcont as [_ Hbs]. rewrite Hbs in Hi, Hi'. apply lookup_singleton_Some in Hi as [<- _], Hi' as [<- _]. done.
  - destruct HB as (Hk & _ & _), HB' as (Hk' & _ & _).
    assert (virt_addr k ≠ virt_addr k') as Hv.
    { intros He. apply Hpp. apply (wf_owner _ _ _ _ _ W p k p' k' (virt_addr k)); [done..|apply owns_virt|].
      rewrite He. apply owns_virt. }
    destruct (wf_disjoint _ _ _ _ _ W _ _ _ _ (ma_region _ _ _ _ _ (wf_mapped _ _ _ _ _ W p k Hk))
      (ma_region _ _ _ _ _ (wf_mapped _ _ _ _ _ W p' k' Hk')) Hv); lia.
Qed.

Lemma client_translates s ul ch B L a n al :
  wf s 0 ul ch B → rel (mem s) 0 B L → L !! a = Some (n, al) →
  ∃ phys, phys mod al = 0 ∧ ∀ i, 0 <= i < n → qaeVirtToPhysNUMA (a + i) s = Some (phys + i, s).
Proof.
  intros W HR Ha. destruct (rel_client _ _ _ _ HR _ _ _ Ha) as (p & k & b & u & HB & -> & Hn & Hal).
  pose proof (block_range _ _ _ _ _ _ _ _ _ W HB) as Hr.
  destruct (block_listed _ _ _ _ _ _ _ _ _ W HB) as (q & _ & _ & Htr). destruct HB as (Hk & _ & _).
  exists (phy_addr k + 1024 * b). split; [done|]. intros i Hi. unfold qaeVirtToPhysNUMA. steps.
  destruct (translate s 0 ul ch B p k (addr k b + i) W Hk Htr) as [-> _]; [unfold addr; lia|].
  unfold lift. do 2 f_equal. unfold addr. lia.
Qed.

(** Without blocks, every slab is in the cache. *)
Lemma inv_cached s : Inv s ∅ → SLAB_SIZE * Z.of_nat (base.size (mem s)) <= g_max_cache.
Proof.
  intros (_ & Hin & Hout). destruct (decide (pid s = self s)) as [Hp|Hp].
  2:{ destruct (Hout Hp) as (-> & _). done. }
  destruct (Hin Hp) as (ul & ch & B & [W HC [_ HR]]).
  destruct (wf_cache _ _ _ _ _ W) as [Hc Hm]. rewrite Hc in Hm. etransitivity; [|exact Hm].
  apply Z.mul_le_mono_nonneg_l; [done|]. apply inj_le.
  assert (∀ p q, p ∈ ul q → q = CACHE) as Hall.
  { intros p q Hq. destruct (wf_listed_mem _ _ _ _ _ _ _ W Hq) as (k & Hk & _ & Hp0).
    assert (B p = ∅) as He.
    { apply map_empty. intros b. apply eq_None_not_Some. intros [u Hu].
      assert (is_Some ((∅ : client) !! addr k b)) as [? Hx] by (by apply (HR p k b u)). done. }
    destruct q; [done| |].
    - destruct (wf_content _ _ _ _ _ W USED p k Hq Hk) as [[Ht _] _].
      destruct (HC USED p k Hq Hk Ht) as [_ Hn]. by destruct (Hn eq_refl Hp0).
    - destruct (wf_content _ _ _ _ _ W BIG p k Hq Hk) as [[_ Hb] _]. rewrite He in Hb.
      symmetry in Hb. by apply map_non_empty_singleton in Hb. }
  rewrite <- size_dom. rewrite <- (size_list_to_set (C := gset Z) (ul CACHE)) by apply (wf_lists _ _ _ _ _ W).
  apply subseteq_size. intros p Hp'%elem_of_dom. apply elem_of_list_to_set.
  apply (wf_listed _ _ _ _ _ W) in Hp' as [[-> ?]|[q Hq]]; [done|]. by rewrite <- (Hall p q Hq).
Qed.

(** A list of the parent, in its child: gone if it has elements. *)
Lemma destroyList_child c s q : destroyList q (set_g_page_table Zeroed (fork c s)) =
  if head (user_list s q) =? 0 then Some ((), set_g_page_table Zeroed (fork c s)) else None.
Proof.
  unfold destroyList. steps.
  assert (user_list (set_g_page_table Zeroed (fork c s)) q = user_list s q) as -> by (by destruct q).
  cbn [destroy_loop]. by destruct (head (user_list s q) =? 0).
Qed.

Lemma reset_cache_child c s : reset_cache (set_g_page_table Zeroed (fork c s)) =
  if head (pUserCache s) =? 0 then Some ((), set_g_page_table Zeroed (fork c s)) else None.
Proof.
  unfold reset_cache. steps. change (base.size (mem (fork c s))) with 0%nat.
  cbn [reset_loop]. unfold pop_slab, elements_of, dlist_elements. steps.
  change (base.size (ulinks (fork c s))) with 0%nat. change (pUserCache (fork c s)) with (pUserCache s).
  cbn [walk]. by destruct (head (pUserCache s) =? 0).
Qed.

Lemma client_queue s L : Inv s L → L ≠ ∅ → ∃ q, q ≠ CACHE ∧ head (user_list s q) ≠ 0.
Proof.
  intros HI Hne. apply map_choose in Hne as (a & [n al] & Ha).
  destruct (inv_client _ _ _ _ HI Ha) as (ul & ch & B & [W _ HR]).
  destruct (rel_client _ _ _ _ HR _ _ _ Ha) as (p & k & b & u & HB & _).
  destruct (block_listed _ _ _ _ _ _ _ _ _ W HB) as (q & Hq & Hcont & _). exists q. split.
  - intros ->. destruct HB as (_ & _ & Hb), Hcont as (_ & _ & He). by rewrite He in Hb.
  - intros Hh. apply (is_list_nil _ _ _ (proj1 (wf_lists _ _ _ _ _ W) q)) in Hh. by rewrite Hh in Hq; apply not_elem_of_nil in Hq.
Qed.


(** Closing the library in a child.  The slabs are not mapped in a child, and
    [qaeMemDestroy], unlike every other call, does not compare the process ids:
    in the child of a process that has a block, before any other call, it uses
    an element that is not there. *)
Theorem qaeMemDestroy_child c s L :
  reach s L → L ≠ ∅ → c ≠ pid s → qaeMemDestroy 0 (fork c s) = None.
Proof.
  intros HI%heap_reach_inv Hne _. destruct (client_queue _ _ HI Hne) as (q & Hq & Hh).
  unfold qaeMemDestroy. change (negb (0 =? 0)) with false. cbv iota. unfold free_page_table_fptr. steps.
  destruct HI as (Hmo & _). change (fptr_hpg (fork c s)) with (fptr_hpg s).
  change (g_page_table (fork c s)) with (g_page_table s). rewrite (free_root_spec s Hmo). steps.
  unfold bind at 1. rewrite reset_cache_child. destruct (head (pUserCache s) =? 0); [|done].
  unfold bind at 1. rewrite destroyList_child. apply Z.eqb_neq in Hh.
  destruct q; [done|by rewrite Hh|]. destruct (head (user_list s USED) =? 0); [|done].
  unfold bind at 1. by rewrite destroyList_child, Hh.
Qed.

End heap.

(** ** A system, and a process in it *)

(** A region is free when no other one overlaps it. *)
Definition free_at (m : gmap Z Z) (a len : Z) : bool :=
  forallb (λ r, (a + len <=? r.1) || (r.1 + r.2 <=? a)) (map_to_list m).

Lemma free_at_spec m a len : free_at m a len = true → ∀ b n, m !! b = Some n → a + len <= b ∨ b + n <= a.
Proof.
  intros Hf b n Hb. unfold free_at in Hf. rewrite forallb_forall in Hf.
  specialize (Hf (b, n)). rewrite <- list_elem_of_In, elem_of_map_to_list in Hf. specialize (Hf Hb).
  cbn in Hf. apply orb_true_iff in Hf as [H%Z.leb_le|H%Z.leb_le]; lia.
Qed.

(** Every call of [mmap] gets a region of 16 MB of its own, every slab of the
    driver 64 MB; there are no huge pages. *)
Definition ex_mmap (n : nat) (m : gmap Z Z) (len : Z) : option Z :=
  let a := 0x7f0000000000 + 0x1000000 * Z.of_nat n in
  if (a + len <=? 2 ^ 47) && free_at m a len then Some a else None.
Definition ex_memalloc (n : nat) (k : gmap Z Z) (sz node ty : Z) : option (Z * Z) :=
  let phy := 2 ^ 32 + 2 ^ 26 * Z.of_nat n in
  if (0 <? sz) && (sz <=? 2 ^ 26) && (phy <=? 2 ^ 63) && bool_decide (k !! phy = None)
  then Some (phy, node) else None.

Definition ex_os : OS := {|
  sys_open n := Some 3;
  sys_mkstemp n := Some 4;
  sys_mmap := ex_mmap;
  sys_mmap_huge := ex_mmap;
  sys_madvise n := true;
  sys_mmap_table n := true;
  sys_pagemap n page := None;
  sys_memalloc := ex_memalloc;
  sys_num_hpt n := Some 0;
|}.

Lemma ex_mmap_ok n m len a : ex_mmap n m len = Some a → fresh_region m a len ∧ a mod HUGE = 0.
Proof.
  unfold ex_mmap. destruct (Z.leb_spec (0x7f0000000000 + 0x1000000 * Z.of_nat n + len) (2 ^ 47)); [|done].
  cbn [andb]. destruct (free_at _ _ _) eqn:E; [|done]. intros [= <-].
  assert (0x7f0000000000 + 0x1000000 * Z.of_nat n = (0x3f80000 + 8 * Z.of_nat n) * 0x200000) as Ha by lia.
  assert (0x7f0000000000 + 0x1000000 * Z.of_nat n = (0x7f0000000 + 4096 * Z.of_nat n) * 4096) as Hb by lia.
  split; [split_and!; [lia|rewrite Hb; by apply Z.mod_mul|done|by apply free_at_spec]|].
  rewrite Ha. by apply Z.mod_mul.
Qed.

#[local] Instance ex_laws : @OSLaws ex_os.
Proof.
  split; cbn.
  - intros n m len a H. exact (proj1 (ex_mmap_ok n m len a H)).
  - intros n m len a H. exact (ex_mmap_ok n m len a H).
  - done.
  - done.
  - intros n k sz node ty phy node'. unfold ex_memalloc.
    destruct (Z.ltb_spec 0 sz), (Z.leb_spec sz (2 ^ 26)), (Z.leb_spec (2 ^ 32 + 2 ^ 26 * Z.of_nat n) (2 ^ 63)),
      (bool_decide_reflect (k !! (2 ^ 32 + 2 ^ 26 * Z.of_nat n) = None)); try done. cbn [andb]. intros [= <- _].
    rewrite remap_round by (change (2 ^ 46) with (2 ^ 26 * 2 ^ 20); lia).
    assert ((sz + 4095) / 4096 * 4096 <= 2 ^ 26) as Hr.
    { assert ((sz + 4095) / 4096 < 16385) by (apply Z.div_lt_upper_bound; [done|]; lia).
      change (2 ^ 26) with (16384 * 4096). lia. }
    split_and!; try done; try lia. intros i Hi Hle.
    assert (i <= 26) by (apply (Z.pow_le_mono_r_iff 2); lia).
    apply (mod_pow2_le _ i 26); [lia|].
    replace (2 ^ 32 + 2 ^ 26 * Z.of_nat n) with ((64 + Z.of_nat n) * 2 ^ 26) by lia. by apply Z.mod_mul.
  - by intros n f [= <-].
  - intros n m Hnm (v & [= <-] & Hv). done.
Qed.

(** The state and the result of a call that returns. *)
Definition after {A} (f : M state A) (s : state) : state := match f s with Some (_, s') => s' | None => s end.
Lemma run {A} (f : M state A) s r : fst <$> f s = Some r → f s = Some (r, after f s).
Proof. unfold after. by destruct (f s) as [[]|]; intros [= <-]. Qed.

Definition ex_s0 : state := init_state 7.
Definition ex_s1 : state := after (@step ex_os (Alloc 3000 0 4096)) ex_s0.
Definition ex_s2 : state := after (@step ex_os (Alloc 0x300000 0 64)) ex_s1.
Definition ex_a1 : Z := 0x7f0003002000.

Lemma ex_step1 : fst <$> @step ex_os (Alloc 3000 0 4096) ex_s0 = Some ex_a1.
Proof. vm_compute. reflexivity. Qed.

Lemma ex_reach1 : @reach ex_os ex_s1 {[ex_a1 := (3000, 4096)]}.
Proof.
  refine (@reach_step ex_os ex_s0 ∅ (Alloc 3000 0 4096) ex_a1 ex_s1 _ _ _).
  - by apply reach_init.
  - done.
  - exact (run _ _ _ ex_step1).
Qed.


Theorem qaeMemDestroy_child_witness : @qaeMemDestroy 0 (fork 8 ex_s1) = None.
Proof. apply (@qaeMemDestroy_child ex_os ex_laws 8 ex_s1 _ ex_reach1); [done|]. vm_compute. discriminate. Defined.

(** ** What a process must not do *)

(** Misuse.  Freeing an address inside a block leaves the block but counts it
    as freed: the slab is taken as empty, and the next allocation returns the
    block again, which is still in use. *)
Theorem qaeMemFreeNUMA_inside :
  ∃ a n al s s1 s2, @reach ex_os s {[a := (n, al)]} ∧ @step ex_os (Free (a + 1)) s = Some (0, s1) ∧
    @step ex_os (Alloc n 0 al) s1 = Some (a, s2).
Proof.
  exists ex_a1, 3000, 4096, ex_s1, (after (@step ex_os (Free (ex_a1 + 1))) ex_s1),
    (after (@step ex_os (Alloc 3000 0 4096)) (after (@step ex_os (Free (ex_a1 + 1))) ex_s1)).
  split_and!; [exact ex_reach1| |]; apply run; vm_compute; reflexivity.
Qed.

(** Overflow.  A size so large that rounding it up to units wraps around is
    taken as none: the block an allocation of 2^64 - 1 bytes returns is the
    control block of the slab. *)
Theorem qaeMemAllocNUMA_wraps :
  ∃ p s, @step ex_os (Alloc (2 ^ 64 - 1) 0 64) ex_s0 = Some (p, s) ∧ p ≠ 0 ∧ is_Some (mem s !! p).
Proof.
  exists 0x7f0003000000, (after (@step ex_os (Alloc (2 ^ 64 - 1) 0 64)) ex_s0).
  split_and!; [apply run; vm_compute; reflexivity|done|vm_compute; by eexists].
Qed.

End UsdmHeapSpec.
