(* ===== verification/Cfg.v ===== *)
(** * The device configuration table

    Models [adf_cfg.c]: the sections of a device and their key/value
    parameters, as the lists the driver keeps ([sec_list], [param_head]), in
    list order.  [kzalloc] may fail at any call: its outcomes are a function of
    the number of allocations made so far.  The abstraction is a map from
    section names to maps from keys to values; the operations are shown to
    refine the map operations under the invariant that names and keys are
    unique and fit their buffers. *)

From stdpp Require Import pretty.
From Stdlib Require HexString.
From S2P Require Import Prelude.

#[local] Open Scope Z_scope.
#[local] Open Scope qat_scope.

Module Cfg.

Definition ADF_CFG_MAX_STR_LEN : nat := 128.
Definition ADF_CFG_MAX_KEY_LEN_IN_BYTES := ADF_CFG_MAX_STR_LEN.
Definition ADF_CFG_MAX_VAL_LEN_IN_BYTES := ADF_CFG_MAX_STR_LEN.
Definition ADF_CFG_MAX_SECTION_LEN_IN_BYTES := ADF_CFG_MAX_STR_LEN.

(** [enum adf_cfg_val_type] *)
Definition ADF_DEC := 0.
Definition ADF_HEX := 1.
Definition ADF_STR := 2.

(** [strlcpy] and [snprintf] into a buffer of [n] bytes keep [n - 1] characters. *)
Definition strlcpy (src : string) (n : nat) : string := String.substring 0 (n - 1) src.

Record adf_cfg_key_val := KeyVal { key : string; val : string; type : Z }.

Record adf_cfg_section := Section_ {
  name : string;
  is_derived : bool;
  param_head : list adf_cfg_key_val
}.

(** The fields of [struct adf_accel_dev] the table uses; [cfg] is NULL before
    [adf_cfg_dev_add], and [nalloc] counts the calls of [kzalloc]. *)
Record accel_dev := Dev {
  cfg : option (list adf_cfg_section);
  configured : bool;     (** bit [ADF_STATUS_CONFIGURED] of [status] *)
  is_vf : bool;
  nalloc : nat
}.

Definition set_cfg (c : option (list adf_cfg_section)) (d : accel_dev) : accel_dev :=
  Dev c (configured d) (is_vf d) (nalloc d).

(** What [const void *val] points to: a [long] for [ADF_DEC], a string for
    [ADF_STR]; for [ADF_HEX] the pointer itself is the value. *)
Inductive cfg_arg :=
  | PtrLong (z : Z)
  | PtrStr (s : string)
  | Addr (z : Z).

(** [&dev_cfg_data->sec_list]: dereferences [accel_dev->cfg]. *)
Definition sec_list : M accel_dev (list adf_cfg_section) :=
  c <- gets cfg ;; lift c.

Definition set_sec_list (l : list adf_cfg_section) : M accel_dev () :=
  modify (set_cfg (Some l)).

Definition with_params (s : adf_cfg_section) (ps : list adf_cfg_key_val) : adf_cfg_section :=
  Section_ (name s) (is_derived s) ps.

Section alloc.
Context (kzalloc_ok : nat → bool).

Definition kzalloc : M accel_dev bool :=
  λ d, Some (kzalloc_ok (nalloc d), Dev (cfg d) (configured d) (is_vf d) (S (nalloc d))).

(** [adf_cfg_dev_add].  The five [*_add] calls create debugfs entries; their
    results are arguments. *)
Definition adf_cfg_dev_add (dbg_fail hb_fail ver_fail fw_fail cnv_fail : bool)
    : M accel_dev Z :=
  ok <- kzalloc ;;
  if negb ok then ret (- ENOMEM) else
  modify (set_cfg (Some [])) ;;
  let err := modify (set_cfg None) ;; ret (- EFAULT) in
  if dbg_fail then err else
  d <- gets is_vf ;;
  if negb d && (hb_fail || ver_fail || fw_fail || cnv_fail) then err else
  ret 0.

Definition adf_cfg_del_all : M accel_dev () :=
  sec_list ;;
  set_sec_list [] ;;
  modify (λ d, Dev (cfg d) false (is_vf d) (nalloc d)).

Definition adf_cfg_dev_remove : M accel_dev () :=
  c <- gets cfg ;;
  match c with
  | None => ret ()
  | Some _ => set_sec_list [] ;; modify (set_cfg None)
  end.

Definition adf_cfg_keyval_add (new : adf_cfg_key_val) (sec : adf_cfg_section)
    : adf_cfg_section :=
  with_params sec (param_head sec ++ [new]).

(** The first match of a walk from the head of the list. *)
Fixpoint remove_first (k : string) (l : list adf_cfg_key_val) : list adf_cfg_key_val :=
  match l with
  | [] => []
  | ptr :: l' => if decide (key ptr = k) then l' else ptr :: remove_first k l'
  end.

(** [list_for_each_prev_safe]: the walk starts at the tail, so the last match
    is deleted. *)
Definition adf_cfg_keyval_remove (k : string) (sec : adf_cfg_section) : adf_cfg_section :=
  with_params sec (reverse (remove_first k (reverse (param_head sec)))).

Definition adf_cfg_key_value_find (s : adf_cfg_section) (k : string)
    : option adf_cfg_key_val :=
  snd <$> list_find (λ ptr, key ptr = k) (param_head s).

(** A section pointer is the section's position in the list. *)
Definition adf_cfg_sec_find (sec_name : string) : M accel_dev (option nat) :=
  l <- sec_list ;;
  ret (fst <$> list_find (λ s, name s = sec_name) l).

(** Read and write the section behind a pointer. *)
Definition load_sec (p : nat) : M accel_dev adf_cfg_section :=
  l <- sec_list ;; lift (l !! p).

Definition store_sec (p : nat) (s : adf_cfg_section) : M accel_dev () :=
  l <- sec_list ;; set_sec_list (<[p := s]> l).

Definition adf_cfg_section_del (n : string) : M accel_dev () :=
  sec <- adf_cfg_sec_find n ;;
  match sec with
  | None => ret ()
  | Some p => l <- sec_list ;; set_sec_list (delete p l)
  end.

(** [Some v]: 0 is returned and [v] written to [*val]; [None]: -1. *)
Definition adf_cfg_key_val_get (sec_name key_name : string) : M accel_dev (option string) :=
  sec <- adf_cfg_sec_find sec_name ;;
  match sec with
  | None => ret None
  | Some p => s <- load_sec p ;; ret (val <$> adf_cfg_key_value_find s key_name)
  end.

(** The text stored for a value; [None] for an unknown type. *)
Definition format_val (v : cfg_arg) (ty : Z) : M accel_dev (option string) :=
  if ty =? ADF_DEC then
    match v with
    | PtrLong z => ret (Some (strlcpy (pretty z) ADF_CFG_MAX_VAL_LEN_IN_BYTES))
    | _ => fault
    end
  else if ty =? ADF_STR then
    match v with
    | PtrStr s => ret (Some (strlcpy s ADF_CFG_MAX_VAL_LEN_IN_BYTES))
    | _ => fault
    end
  else if ty =? ADF_HEX then
    match v with
    | Addr z => ret (Some (strlcpy (HexString.of_Z z) ADF_CFG_MAX_VAL_LEN_IN_BYTES))
    | _ => fault
    end
  else ret None.

Definition adf_cfg_add_key_value_param (section_name k : string) (v : cfg_arg) (ty : Z)
    : M accel_dev Z :=
  section <- adf_cfg_sec_find section_name ;;
  match section with
  | None => ret (- EFAULT)
  | Some section =>
    ok <- kzalloc ;;
    if negb ok then ret (- ENOMEM) else
    text <- format_val v ty ;;
    match text with
    | None => ret (-1)
    | Some text =>
      let key_val := KeyVal (strlcpy k ADF_CFG_MAX_KEY_LEN_IN_BYTES) text ty in
      temp_val <- adf_cfg_key_val_get section_name k ;;
      let add :=
        s <- load_sec section ;;
        store_sec section (adf_cfg_keyval_add key_val s) ;;
        ret 0 in
      match temp_val with
      | Some temp_val =>
        if decide (temp_val = text) then ret 0 else
        s <- load_sec section ;;
        store_sec section (adf_cfg_keyval_remove k s) ;;
        add
      | None => add
      end
    end
  end.

Definition adf_cfg_remove_key_param (section_name k : string) : M accel_dev Z :=
  section <- adf_cfg_sec_find section_name ;;
  match section with
  | None => ret (- EFAULT)
  | Some p =>
    s <- load_sec p ;;
    store_sec p (adf_cfg_keyval_remove k s) ;;
    ret 0
  end.

Definition adf_cfg_section_add (n : string) : M accel_dev Z :=
  sec <- adf_cfg_sec_find n ;;
  match sec with
  | Some _ => ret 0
  | None =>
    ok <- kzalloc ;;
    if negb ok then ret (- ENOMEM) else
    l <- sec_list ;;
    set_sec_list (l ++ [Section_ (strlcpy n ADF_CFG_MAX_SECTION_LEN_IN_BYTES) false []]) ;;
    ret 0
  end.

Definition adf_cfg_derived_section_add (n : string) : M accel_dev Z :=
  r <- adf_cfg_section_add n ;;
  if negb (r =? 0) then ret (- EFAULT) else
  sec <- adf_cfg_sec_find n ;;
  match sec with
  | None => ret (- EFAULT)
  | Some p =>
    s <- load_sec p ;;
    store_sec p (Section_ (name s) true (param_head s)) ;;
    ret 0
  end.

Definition adf_cfg_restore_key_value_param (section_name k v : string) (ty : Z)
    : M accel_dev Z :=
  section <- adf_cfg_sec_find section_name ;;
  match section with
  | None => ret (- EFAULT)
  | Some p =>
    ok <- kzalloc ;;
    if negb ok then ret (- ENOMEM) else
    let key_val := KeyVal (strlcpy k ADF_CFG_MAX_KEY_LEN_IN_BYTES)
                     (strlcpy v ADF_CFG_MAX_VAL_LEN_IN_BYTES) ty in
    s <- load_sec p ;;
    store_sec p (adf_cfg_keyval_add key_val s) ;;
    ret 0
  end.

(** The copying loop of [adf_cfg_save_section]; on a failed allocation the
    copies made so far are deleted. *)
Fixpoint save_params (ps acc : list adf_cfg_key_val)
    : M accel_dev (Z * list adf_cfg_key_val) :=
  match ps with
  | [] => ret (0, acc)
  | ptr :: ps =>
    ok <- kzalloc ;;
    if negb ok then ret (- ENOMEM, []) else save_params ps (acc ++ [ptr])
  end.

(** [out] is the caller's section; the fields the call does not assign keep
    their values. *)
Definition adf_cfg_save_section (n : string) (out : adf_cfg_section)
    : M accel_dev (Z * adf_cfg_section) :=
  sec <- adf_cfg_sec_find n ;;
  match sec with
  | None => ret (- EFAULT, out)
  | Some p =>
    s <- load_sec p ;;
    r <- save_params (param_head s) [] ;;
    ret (r.1, Section_ (strlcpy n ADF_CFG_MAX_SECTION_LEN_IN_BYTES) (is_derived out) r.2)
  end.

Fixpoint restore_params (n : string) (ps : list adf_cfg_key_val) : M accel_dev Z :=
  match ps with
  | [] => ret 0
  | ptr :: ps =>
    rc <- adf_cfg_restore_key_value_param n (key ptr) (val ptr) (type ptr) ;;
    if negb (rc =? 0) then ret rc else restore_params n ps
  end.

Definition adf_cfg_restore_section (section : adf_cfg_section) : M accel_dev Z :=
  rc <- adf_cfg_section_add (name section) ;;
  if negb (rc =? 0) then ret rc else
  rc <- restore_params (name section) (param_head section) ;;
  if negb (rc =? 0) then
    adf_cfg_section_del (name section) ;; ret rc
  else ret 0.

Definition adf_cfg_get_param_value (section k : string) : M accel_dev (option string) :=
  adf_cfg_key_val_get section k.

End alloc.

(** ** The table as a map of maps *)

Abbreviation params_map := (assoc_map key val).
Definition table (l : list adf_cfg_section) : gmap string (gmap string string) :=
  assoc_map name (λ s, params_map (param_head s)) l.

Definition fits (s : string) : Prop := (String.length s < 128)%nat.

(** Keys, names and values fit their buffers, and no two sections have the same
    name nor two parameters of a section the same key. *)
Definition params_ok (ps : list adf_cfg_key_val) : Prop :=
  NoDup (key <$> ps) ∧ Forall (λ p, fits (key p) ∧ fits (val p)) ps.

Definition table_ok (l : list adf_cfg_section) : Prop :=
  NoDup (name <$> l) ∧ Forall (λ s, fits (name s) ∧ params_ok (param_head s)) l.

Lemma substring_id s n : (String.length s <= n)%nat → String.substring 0 n s = s.
Proof.
  revert n. induction s as [|c s IH]; intros [|n] H; simpl in *; try done; [lia|].
  rewrite IH by lia. done.
Qed.

Lemma strlcpy_id s : fits s → strlcpy s 128 = s.
Proof. intros H. apply substring_id. unfold fits in H. lia. Qed.

Lemma filter_absent k (ps : list adf_cfg_key_val) : k ∉ key <$> ps → filter (λ p, key p ≠ k) ps = ps.
Proof.
  induction ps as [|p ps IH]; [done|]. intros Hk. rewrite fmap_cons, not_elem_of_cons in Hk.
  destruct Hk as [Hp Hk]. rewrite filter_cons, decide_True by congruence. by rewrite IH.
Qed.

Lemma remove_first_filter k (ps : list adf_cfg_key_val) :
  NoDup (key <$> ps) → remove_first k ps = filter (λ p, key p ≠ k) ps.
Proof.
  induction ps as [|p ps IH]; [done|]. intros [Hp Hnd]%NoDup_cons. simpl.
  rewrite filter_cons. destruct (decide (key p = k)) as [E|E].
  - rewrite decide_False by tauto. rewrite filter_absent; [done|]. by rewrite <- E.
  - rewrite decide_True by done. by rewrite IH.
Qed.

Lemma keyval_remove_filter k s :
  NoDup (key <$> param_head s) →
  adf_cfg_keyval_remove k s = with_params s (filter (λ p, key p ≠ k) (param_head s)).
Proof.
  intros Hnd. unfold adf_cfg_keyval_remove. f_equal.
  rewrite remove_first_filter by (by rewrite reverse_Permutation).
  by rewrite filter_reverse, reverse_involutive.
Qed.

Lemma params_ok_remove k (ps : list adf_cfg_key_val) : params_ok ps → params_ok (filter (λ p, key p ≠ k) ps).
Proof.
  intros [Hnd Hf]. split;
    [|apply Forall_forall; intros p [_ Hp]%list_elem_of_filter; by eapply Forall_forall in Hf].
  induction ps as [|p ps IH]; [done|]. rewrite filter_cons.
  apply NoDup_cons in Hnd as [Hp Hnd]. apply Forall_cons in Hf as [_ Hf]. case_decide; [|auto].
  rewrite fmap_cons. apply NoDup_cons. split; [|auto]. intros Hin. apply Hp.
  apply list_elem_of_fmap in Hin as (q & -> & Hq%list_elem_of_filter).
  apply list_elem_of_fmap_2. tauto.
Qed.

Lemma params_ok_add k v ty ps :
  params_ok ps → fits k → fits v → k ∉ key <$> ps → params_ok (ps ++ [KeyVal k v ty]).
Proof.
  intros [Hnd Hf] Hk Hv Hni. split.
  - rewrite fmap_app. apply NoDup_app. split_and!; [done| |apply NoDup_singleton].
    intros x Hx ->%list_elem_of_singleton. done.
  - apply Forall_app. split; [done|]. apply Forall_singleton. done.
Qed.

(** ** Operations as map operations *)

Section refine.
Context (kzalloc_ok : nat → bool).
Implicit Types (d : accel_dev) (l : list adf_cfg_section).

(** The device after an operation: the list, and one more call of [kzalloc]. *)
Definition with_list l (n : nat) d : accel_dev := Dev (Some l) (configured d) (is_vf d) n.

Lemma sec_find_run d l n :
  cfg d = Some l → adf_cfg_sec_find n d = Some (fst <$> assoc_find name n l, d).
Proof. intros H. unfold adf_cfg_sec_find, sec_list, bind, gets, lift. by rewrite H. Qed.

Lemma load_sec_run d l p s : cfg d = Some l → l !! p = Some s → load_sec p d = Some (s, d).
Proof.
  intros H Hs. unfold load_sec, sec_list, bind, gets, lift. by rewrite H, Hs.
Qed.

Lemma store_sec_run d l p s :
  cfg d = Some l → store_sec p s d = Some ((), with_list (<[p := s]> l) (nalloc d) d).
Proof. intros H. unfold store_sec, sec_list, bind, gets, lift. by rewrite H. Qed.

Lemma table_find l n : table l !! n = (λ r, params_map (param_head r.2)) <$> assoc_find name n l.
Proof. apply (assoc_lookup name (λ s, params_map (param_head s))). Qed.

(** The section a name finds, and its parameters. *)
Lemma table_lookup l n ps :
  table_ok l → table l !! n = Some ps →
  ∃ p s, assoc_find name n l = Some (p, s) ∧ l !! p = Some s ∧ name s = n ∧ fits n ∧
    params_ok (param_head s) ∧ ps = params_map (param_head s).
Proof.
  intros [_ Hf] Hn. rewrite table_find in Hn.
  destruct (assoc_find name n l) as [[p s]|] eqn:E; [|done]. injection Hn as <-.
  pose proof (assoc_find_Some _ _ _ _ _ E) as [Hp Hs].
  destruct (Forall_lookup_1 _ _ _ _ Hf Hp) as [Hfit Hok]. subst n. by exists p, s.
Qed.

Lemma key_val_get_run d l n k :
  cfg d = Some l →
  adf_cfg_key_val_get n k d = Some (table l !! n ≫= (.!! k), d).
Proof.
  intros H. unfold adf_cfg_key_val_get. rewrite (bind_Some _ _ _ _ _ (sec_find_run d l n H)).
  rewrite table_find. destruct (assoc_find name n l) as [[p s]|] eqn:E; [|done]. simpl.
  apply assoc_find_Some in E as [Hp _].
  rewrite (bind_Some _ _ _ _ _ (load_sec_run d l p s H Hp)). unfold ret.
  do 2 f_equal. unfold adf_cfg_key_value_find. rewrite assoc_lookup. unfold assoc_find.
  by destruct (list_find _ _) as [[]|].
Qed.

(** Replacing the parameters of a section. *)
Lemma table_update l p s ps n :
  table_ok l → assoc_find name n l = Some (p, s) → params_ok ps →
  table_ok (<[p := with_params s ps]> l) ∧
  table (<[p := with_params s ps]> l) = <[n := params_map ps]> (table l).
Proof.
  intros [Hnd Hf] E Hps. pose proof (assoc_find_Some _ _ _ _ _ E) as [Hp Hs]. split.
  - split.
    + rewrite list_fmap_insert. simpl. rewrite list_insert_id; [done|].
      by rewrite list_lookup_fmap, Hp.
    + apply Forall_insert; [done|]. split; [|done]. by apply (Forall_lookup_1 _ _ _ _ Hf Hp).
  - by apply (assoc_map_update name (λ s, params_map (param_head s)) l p s (with_params s ps)).
Qed.

(** The text an argument of a type is stored as. *)
Definition arg_text (v : cfg_arg) (ty : Z) : option string :=
  match v with
  | PtrLong z => if ty =? ADF_DEC then Some (strlcpy (pretty z) 128) else None
  | PtrStr s => if ty =? ADF_STR then Some (strlcpy s 128) else None
  | Addr z => if ty =? ADF_HEX then Some (strlcpy (HexString.of_Z z) 128) else None
  end.

Lemma format_val_run v ty text d :
  arg_text v ty = Some text → format_val v ty d = Some (Some text, d).
Proof.
  unfold arg_text, format_val. intros H.
  destruct v; destruct (Z.eqb_spec ty ADF_DEC), (Z.eqb_spec ty ADF_STR), (Z.eqb_spec ty ADF_HEX);
    subst; try done; by injection H as <-.
Qed.

Lemma strlcpy_fits s : fits (strlcpy s 128).
Proof.
  assert (∀ n s, (String.length (String.substring 0 n s) <= n)%nat) as H.
  { clear. intros n. induction n as [|n IH]; intros [|c s]; simpl; try lia.
    specialize (IH s). lia. }
  unfold fits, strlcpy. specialize (H (128 - 1)%nat s). lia.
Qed.

Lemma arg_text_fits v ty text : arg_text v ty = Some text → fits text.
Proof.
  unfold arg_text. destruct v; intros H;
    match type of H with (if ?b then _ else _) = _ => destruct b end; try done;
    injection H as <-; apply strlcpy_fits.
Qed.

(** C36 [adf_cfg_add_key_value_param] is insertion in the map of maps.  On a
    table in order it returns 0 and maps the key of the section to the text of
    the value, whether the key was absent, had that value or had another, and
    changes nothing else; an unknown section, a failed allocation or an unknown
    type returns an error and leaves the table as it was. *)
Theorem adf_cfg_add_key_value_param_correct d l sec k v ty text :
  cfg d = Some l → table_ok l → fits k → arg_text v ty = Some text →
  ∃ z d' l',
    adf_cfg_add_key_value_param kzalloc_ok sec k v ty d = Some (z, d') ∧
    cfg d' = Some l' ∧ table_ok l' ∧
    match table l !! sec with
    | None => z = - EFAULT ∧ l' = l
    | Some ps =>
      if kzalloc_ok (nalloc d)
      then z = 0 ∧ table l' = <[sec := <[k := text]> ps]> (table l)
      else z = - ENOMEM ∧ l' = l
    end.
Proof.
  intros Hd Hok Hk Ht. unfold adf_cfg_add_key_value_param.
  rewrite (bind_Some _ _ _ _ _ (sec_find_run d l sec Hd)).
  destruct (table l !! sec) as [ps|] eqn:Etab.
  2: { rewrite table_find in Etab. destruct (assoc_find name sec l) as [[]|]; [done|].
       by exists (- EFAULT), d, l. }
  destruct (table_lookup l sec ps Hok Etab) as (p & s & E & Hp & Hs & Hfit & Hpok & ->).
  rewrite E. simpl fst. cbv iota. cbn [fmap option_fmap option_map fst].
  unfold kzalloc at 1, bind at 1. set (d1 := Dev _ _ _ _).
  assert (cfg d1 = Some l) as Hd1 by done.
  destruct (kzalloc_ok (nalloc d)); branch; [|by exists (- ENOMEM), d1, l].
  rewrite (bind_Some _ _ _ _ _ (format_val_run v ty text d1 Ht)).
  rewrite strlcpy_id by done.
  rewrite (bind_Some _ _ _ _ _ (key_val_get_run d1 l sec k Hd1)), Etab. cbn [mbind option_bind].
  pose proof (arg_text_fits _ _ _ Ht) as Htf.
  destruct (params_map (param_head s) !! k) as [old|] eqn:Eold.
  - destruct (decide (old = text)) as [->|Hne].
    + exists 0, d1, l. split_and!; try done. rewrite (insert_id (params_map _) k) by done.
      by rewrite insert_id.
    + rewrite (bind_Some _ _ _ _ _ (load_sec_run d1 l p s Hd1 Hp)).
      rewrite keyval_remove_filter by apply Hpok.
      set (ps' := filter (λ q, key q ≠ k) (param_head s)).
      rewrite (bind_Some _ _ _ _ _ (store_sec_run d1 l p (with_params s ps') Hd1)).
      assert (<[p := with_params s ps']> l !! p = Some (with_params s ps')) as Hp'
        by (apply list_lookup_insert_eq; by eapply lookup_lt_Some).
      rewrite (bind_Some _ _ _ _ _ (load_sec_run (with_list _ _ _) _ p _ eq_refl Hp')).
      rewrite (bind_Some _ _ _ _ _ (store_sec_run (with_list _ _ _) _ p _ eq_refl)).
      rewrite list_insert_insert_eq.
      destruct (table_update l p s (ps' ++ [KeyVal k text ty]) sec Hok E) as [Hok' Htab].
      { apply params_ok_add; [by apply params_ok_remove|done|done|].
        intros (q & Hq & [Hne' _]%list_elem_of_filter)%list_elem_of_fmap. done. }
      eexists 0, _, _. split_and!; [done|done|exact Hok'|done|].
      etransitivity; [exact Htab|]. f_equal.
      rewrite assoc_map_snoc; [|intros (q & Hq & [Hne' _]%list_elem_of_filter)%list_elem_of_fmap; done].
      unfold ps'. rewrite assoc_map_filter. apply insert_delete_eq.
  - rewrite (bind_Some _ _ _ _ _ (load_sec_run d1 l p s Hd1 Hp)).
    rewrite (bind_Some _ _ _ _ _ (store_sec_run d1 l p _ Hd1)).
    apply assoc_lookup_None in Eold.
    destruct (table_update l p s (param_head s ++ [KeyVal k text ty]) sec Hok E) as [Hok' Htab].
    { by apply params_ok_add. }
    eexists 0, _, _. split_and!; [done|done|exact Hok'|done|].
      etransitivity; [exact Htab|]. f_equal.
    by rewrite assoc_map_snoc.
Qed.

(** C39 Lookups read the map: [adf_cfg_get_param_value] returns the value mapped
    to the key of the section, or fails when there is none, and changes
    nothing. *)
Theorem adf_cfg_get_param_value_correct d l sec k :
  cfg d = Some l →
  adf_cfg_get_param_value sec k d = Some (table l !! sec ≫= (.!! k), d).
Proof. apply key_val_get_run. Qed.

(** [adf_cfg_remove_key_param] deletes the key of the section, and reports an
    unknown section. *)
Theorem adf_cfg_remove_key_param_correct d l sec k :
  cfg d = Some l → table_ok l →
  ∃ z d' l',
    adf_cfg_remove_key_param sec k d = Some (z, d') ∧ cfg d' = Some l' ∧ table_ok l' ∧
    match table l !! sec with
    | None => z = - EFAULT ∧ l' = l
    | Some ps => z = 0 ∧ table l' = <[sec := delete k ps]> (table l)
    end.
Proof.
  intros Hd Hok. unfold adf_cfg_remove_key_param.
  rewrite (bind_Some _ _ _ _ _ (sec_find_run d l sec Hd)).
  destruct (table l !! sec) as [ps|] eqn:Etab.
  2: { rewrite table_find in Etab. destruct (assoc_find name sec l) as [[]|]; [done|].
       by exists (- EFAULT), d, l. }
  destruct (table_lookup l sec ps Hok Etab) as (p & s & E & Hp & Hs & Hfit & Hpok & ->).
  rewrite E. cbn [fmap option_fmap option_map fst].
  rewrite (bind_Some _ _ _ _ _ (load_sec_run d l p s Hd Hp)).
  rewrite keyval_remove_filter by apply Hpok.
  rewrite (bind_Some _ _ _ _ _ (store_sec_run d l p _ Hd)).
  destruct (table_update l p s (filter (λ q, key q ≠ k) (param_head s)) sec Hok E) as [Hok' Htab].
  { by apply params_ok_remove. }
  eexists 0, _, _. split_and!; [done|done|exact Hok'|done|].
  by rewrite Htab, assoc_map_filter.
Qed.

Lemma section_add_spec d l sec :
  cfg d = Some l → table_ok l → fits sec →
  ∃ z d' l',
    adf_cfg_section_add kzalloc_ok sec d = Some (z, d') ∧ cfg d' = Some l' ∧ table_ok l' ∧
    match table l !! sec with
    | Some _ => z = 0 ∧ l' = l ∧ nalloc d' = nalloc d
    | None =>
      nalloc d' = S (nalloc d) ∧
      if kzalloc_ok (nalloc d)
      then z = 0 ∧ l' = l ++ [Section_ sec false []] ∧ table l' = <[sec := ∅]> (table l)
      else z = - ENOMEM ∧ l' = l
    end.
Proof.
  intros Hd Hok Hfit. unfold adf_cfg_section_add.
  rewrite (bind_Some _ _ _ _ _ (sec_find_run d l sec Hd)), table_find.
  destruct (assoc_find name sec l) as [[p s]|] eqn:E; [by exists 0, d, l|].
  cbn [fmap option_fmap option_map]. unfold kzalloc at 1, bind at 1.
  destruct (kzalloc_ok (nalloc d)); branch; [|by eexists (- ENOMEM), _, l].
  unfold sec_list. rewrite bind_assoc, bind_gets. cbn [cfg]. rewrite Hd, bind_lift.
  unfold set_sec_list. rewrite bind_modify, strlcpy_id by done.
  apply assoc_find_None in E.
  eexists 0, _, _. split_and!; [done|done| |done|done|done|].
  - destruct Hok as [Hnd Hf]. split.
    + rewrite fmap_app. apply NoDup_app. split_and!; [done| |apply NoDup_singleton].
      intros x Hx ->%list_elem_of_singleton. done.
    + apply Forall_app. split; [done|]. apply Forall_singleton. split; [done|].
      split; [apply NoDup_nil_2|done].
  - by apply (assoc_map_snoc name (λ s, params_map (param_head s)) l (Section_ sec false [])).
Qed.

(** [adf_cfg_section_add] maps a new section to no parameters, keeps a section
    that exists with its parameters, and on a failed allocation changes
    nothing. *)
Theorem adf_cfg_section_add_correct d l sec :
  cfg d = Some l → table_ok l → fits sec →
  ∃ z d' l',
    adf_cfg_section_add kzalloc_ok sec d = Some (z, d') ∧ cfg d' = Some l' ∧ table_ok l' ∧
    match table l !! sec with
    | Some _ => z = 0 ∧ l' = l
    | None =>
      if kzalloc_ok (nalloc d)
      then z = 0 ∧ table l' = <[sec := ∅]> (table l)
      else z = - ENOMEM ∧ l' = l
    end.
Proof.
  intros Hd Hok Hfit. destruct (section_add_spec d l sec Hd Hok Hfit)
    as (z & d' & l' & Hrun & Hd' & Hok' & H).
  exists z, d', l'. split_and!; [done..|].
  destruct (table l !! sec); [tauto|]. destruct (kzalloc_ok (nalloc d)); tauto.
Qed.

(** ** Saving and restoring a section *)

Lemma section_del_spec d l n :
  cfg d = Some l → table_ok l →
  ∃ d' l', adf_cfg_section_del n d = Some ((), d') ∧ cfg d' = Some l' ∧ table_ok l' ∧
    table l' = delete n (table l).
Proof.
  intros Hd Hok. unfold adf_cfg_section_del.
  rewrite (bind_Some _ _ _ _ _ (sec_find_run d l n Hd)).
  destruct (assoc_find name n l) as [[p s]|] eqn:E; cbn [fmap option_fmap option_map fst].
  - unfold sec_list. rewrite bind_assoc, bind_gets, Hd, bind_lift. cbn.
    eexists _, _. split_and!; [done|done| |].
    + destruct Hok as [Hnd Hf]. split; [|by apply Forall_delete].
      eapply sublist_NoDup; [exact Hnd|]. rewrite list_fmap_delete. apply sublist_delete.
    + apply (assoc_map_delete name (λ s, params_map (param_head s)) l p s); [apply Hok|done].
  - eexists _, l. split_and!; [done|done|done|].
    symmetry. apply delete_id. by rewrite table_find, E.
Qed.

Lemma restore_param_spec d l n p s q :
  cfg d = Some l → assoc_find name n l = Some (p, s) → fits (key q) → fits (val q) →
  ∃ z d' l',
    adf_cfg_restore_key_value_param kzalloc_ok n (key q) (val q) (type q) d = Some (z, d') ∧
    cfg d' = Some l' ∧
    if kzalloc_ok (nalloc d)
    then z = 0 ∧ l' = <[p := with_params s (param_head s ++ [q])]> l
    else z = - ENOMEM ∧ l' = l.
Proof.
  intros Hd E Hk Hv. pose proof (assoc_find_Some _ _ _ _ _ E) as [Hp _].
  unfold adf_cfg_restore_key_value_param.
  rewrite (bind_Some _ _ _ _ _ (sec_find_run d l n Hd)), E. cbn [fmap option_fmap option_map fst].
  unfold kzalloc at 1, bind at 1. set (d1 := Dev _ _ _ _). assert (cfg d1 = Some l) as Hd1 by done.
  destruct (kzalloc_ok (nalloc d)); branch; [|by eexists (- ENOMEM), d1, l].
  rewrite (bind_Some _ _ _ _ _ (load_sec_run d1 l p s Hd1 Hp)).
  rewrite (bind_Some _ _ _ _ _ (store_sec_run d1 l p _ Hd1)).
  unfold ADF_CFG_MAX_KEY_LEN_IN_BYTES, ADF_CFG_MAX_VAL_LEN_IN_BYTES, ADF_CFG_MAX_STR_LEN.
  rewrite !strlcpy_id by done. eexists 0, _, _. split_and!; [done|done|done|].
  by destruct q.
Qed.

(** Where a section is found after its parameters are replaced. *)
Lemma assoc_find_update l n p s ps :
  assoc_find name n l = Some (p, s) →
  assoc_find name n (<[p := with_params s ps]> l) = Some (p, with_params s ps).
Proof.
  unfold assoc_find. revert p. induction l as [|x l IH]; intros p; [done|]. simpl.
  destruct (decide (name x = n)) as [E|E].
  - intros [= <- <-]. simpl. by rewrite decide_True.
  - destruct (list_find _ l) as [[p' y]|] eqn:F; simpl; [|done]. intros [= <- <-].
    simpl. rewrite decide_False by done. by rewrite (IH p').
Qed.

Lemma restore_params_spec qs d l n p s :
  cfg d = Some l → table_ok l → assoc_find name n l = Some (p, s) →
  params_ok (param_head s ++ qs) →
  ∃ z d' l' done,
    restore_params kzalloc_ok n qs d = Some (z, d') ∧ cfg d' = Some l' ∧ table_ok l' ∧
    done `prefix_of` qs ∧ l' = <[p := with_params s (param_head s ++ done)]> l ∧
    (z = 0 ∧ done = qs ∨ z = - ENOMEM ∧ ∃ a, kzalloc_ok a = false).
Proof.
  revert d l s. induction qs as [|q qs IH]; intros d l s Hd Hok E Hpok.
  - pose proof (assoc_find_Some _ _ _ _ _ E) as [Hp _].
    exists 0, d, l, []. split_and!; try done; [|by left].
    rewrite app_nil_r, list_insert_id; [done|]. by destruct s.
  - pose proof Hpok as [Hnd Hf]. apply Forall_app in Hf as [Hf1 Hf2].
    apply Forall_cons in Hf2 as [[Hk Hv] Hf2].
    destruct (restore_param_spec d l n p s q Hd E Hk Hv) as (z & d1 & l1 & Hrun & Hd1 & Hz).
    cbn [restore_params]. rewrite (bind_Some _ _ _ _ _ Hrun).
    destruct (kzalloc_ok (nalloc d)) eqn:Ek; destruct Hz as [-> ->]; cbn -[restore_params].
    2: { pose proof (assoc_find_Some _ _ _ _ _ E) as [Hp _].
         exists (- ENOMEM), d1, l, []. split_and!; try done.
         - apply prefix_nil.
         - rewrite app_nil_r, list_insert_id; [done|]. by destruct s.
         - right. split; [done|]. by eexists. }
    set (s1 := with_params s (param_head s ++ [q])) in *.
    assert (params_ok (param_head s ++ [q])) as Hpok1.
    { rewrite (app_assoc _ [q] qs) in Hpok. destruct Hpok as [Hnd1 Hf1'].
      rewrite fmap_app in Hnd1. apply NoDup_app in Hnd1 as [Hnd1 _].
      by apply Forall_app in Hf1' as [Hf1' _]. }
    destruct (table_update l p s _ n Hok E Hpok1) as [Hok1 _].
    destruct (IH d1 (<[p:=s1]> l) s1 Hd1 Hok1 (assoc_find_update l n p s _ E))
      as (z & d' & l' & dn & Hrun' & Hd' & Hok' & Hpre & Hl' & Hz).
    { simpl. by rewrite <- app_assoc. }
    exists z, d', l', (q :: dn). split_and!; try done.
    + by apply prefix_cons.
    + rewrite Hl'. unfold s1. rewrite list_insert_insert_eq. simpl. by rewrite <- app_assoc.
    + destruct Hz as [[-> ->]|Hz]; [by left|by right].
Qed.

Lemma save_params_spec ps acc d :
  (∀ a, kzalloc_ok a = true) →
  ∃ n, save_params kzalloc_ok ps acc d =
    Some ((0, acc ++ ps), Dev (cfg d) (configured d) (is_vf d) n).
Proof.
  intros Ha. revert acc d. induction ps as [|p ps IH]; intros acc d; cbn [save_params].
  - exists (nalloc d). unfold ret. rewrite app_nil_r. by destruct d.
  - unfold kzalloc, bind at 1. rewrite Ha. branch.
    destruct (IH (acc ++ [p]) (Dev (cfg d) (configured d) (is_vf d) (S (nalloc d)))) as [n Hn].
    exists n. rewrite Hn. by rewrite <- app_assoc.
Qed.

Lemma restore_section_spec d l n dv ps :
  cfg d = Some l → table_ok l → table l !! n = None → fits n → params_ok ps →
  ∃ z d' l', adf_cfg_restore_section kzalloc_ok (Section_ n dv ps) d = Some (z, d') ∧
    cfg d' = Some l' ∧ table_ok l' ∧
    ((∀ a, kzalloc_ok a = true) → z = 0) ∧
    if z =? 0 then table l' = <[n := params_map ps]> (table l) else table l' = table l.
Proof.
  intros Hd Hok Hnone Hfit Hpok. unfold adf_cfg_restore_section. cbn [name param_head].
  destruct (section_add_spec d l n Hd Hok Hfit) as (z & d1 & l1 & Hrun & Hd1 & Hok1 & Hz).
  rewrite Hnone in Hz. destruct Hz as [_ Hz]. rewrite (bind_Some _ _ _ _ _ Hrun).
  destruct (kzalloc_ok (nalloc d)) eqn:Ek.
  2: { destruct Hz as [-> ->]. cbn. exists (- ENOMEM), d1, l. split_and!; try done.
       intros Ha. by rewrite Ha in Ek. }
  destruct Hz as (-> & Hl1 & Htab1). cbn -[restore_params adf_cfg_section_del].
  assert (assoc_find name n l1 = Some (length l, Section_ n false [])) as E.
  { rewrite table_find in Hnone. destruct (assoc_find name n l) eqn:E0; [done|].
    subst l1. unfold assoc_find in *. rewrite list_find_app_r; [|done]. simpl.
    rewrite decide_True by done. simpl. by rewrite ?Nat.add_0_r. }
  destruct (restore_params_spec ps d1 l1 n _ _ Hd1 Hok1 E Hpok)
    as (z & d2 & l2 & dn & Hrun2 & Hd2 & Hok2 & Hpre & Hl2 & Hz).
  rewrite (bind_Some _ _ _ _ _ Hrun2). destruct Hz as [[-> ->]|[-> [a Ha]]].
  - cbn. exists 0, d2, l2. split_and!; try done. rewrite Hl2.
    destruct (table_update l1 _ _ ps n Hok1 E Hpok) as [_ Htab].
    etransitivity; [exact Htab|]. rewrite Htab1. apply insert_insert_eq.
  - change (- ENOMEM =? 0) with false. branch.
    destruct (section_del_spec d2 l2 n Hd2 Hok2) as (d3 & l3 & Hdel & Hd3 & Hok3 & Htab3).
    rewrite (bind_Some _ _ _ _ _ Hdel). exists (- ENOMEM), d3, l3. split_and!; try done.
    + intros Hall. by rewrite Hall in Ha.
    + cbn. rewrite Htab3, Hl2.
      assert (params_ok dn) as Hpd.
      { destruct Hpre as [k ->]. destruct Hpok as [Hnd Hf]. split.
        - rewrite fmap_app in Hnd. by apply NoDup_app in Hnd as [Hnd _].
        - by apply Forall_app in Hf as [Hf _]. }
      destruct (table_update l1 _ _ dn n Hok1 E Hpd) as [_ Htab].
      etransitivity; [exact (f_equal (delete n) Htab)|].
      rewrite delete_insert_eq, Htab1, delete_insert_eq. by apply delete_id.
Qed.

End refine.



(** ** Witnesses *)

Definition ex_list : list adf_cfg_section :=
  [Section_ "GENERAL" false [KeyVal "NumberCyInstances" "2" ADF_DEC;
                             KeyVal "ConfigVersion" "2" ADF_STR];
   Section_ "KERNEL" false []].
Definition ex_dev : accel_dev := Dev (Some ex_list) true false 0.
Definition always (n : nat) : bool := true.

Lemma ex_list_ok : table_ok ex_list.
Proof.
  split; [vm_compute; repeat (constructor; [set_solver|]); constructor|].
  repeat constructor; unfold fits; simpl; try lia; set_solver.
Qed.

Lemma adf_cfg_add_key_value_param_correct_witness :
  ∃ d' l', adf_cfg_add_key_value_param always "GENERAL" "ConfigVersion" (PtrLong 3) ADF_DEC ex_dev
    = Some (0, d') ∧ cfg d' = Some l' ∧
  table l' !! "GENERAL"%string ≫= (.!! "ConfigVersion"%string) = Some "3"%string.
Proof.
  destruct (adf_cfg_add_key_value_param_correct always ex_dev ex_list "GENERAL" "ConfigVersion"
    (PtrLong 3) ADF_DEC "3") as (z & d' & l' & H & Hd & _ & Htab);
    [done|apply ex_list_ok|unfold fits; simpl; lia|by vm_compute|].
  assert (table ex_list !! "GENERAL"%string =
    Some (params_map (param_head (Section_ "GENERAL" false
      [KeyVal "NumberCyInstances" "2" ADF_DEC; KeyVal "ConfigVersion" "2" ADF_STR])))) as E
    by (apply (bool_decide_eq_true_1 _); vm_compute; reflexivity).
  rewrite E in Htab. destruct Htab as [-> Htab]. exists d', l'. split; [exact H|].
  split; [exact Hd|]. by rewrite Htab, lookup_insert_eq; simpl; rewrite lookup_insert_eq.
Defined.

Lemma adf_cfg_get_param_value_correct_witness :
  adf_cfg_get_param_value "GENERAL" "NumberCyInstances" ex_dev = Some (Some "2"%string, ex_dev).
Proof.
  rewrite (adf_cfg_get_param_value_correct ex_dev ex_list); [|done]. by vm_compute.
Defined.

Lemma adf_cfg_remove_key_param_correct_witness :
  ∃ d', adf_cfg_remove_key_param "NOSUCH" "Key" ex_dev = Some (- EFAULT, d').
Proof.
  destruct (adf_cfg_remove_key_param_correct ex_dev ex_list "NOSUCH" "Key")
    as (z & d' & l' & H & _ & _ & Hz); [done|apply ex_list_ok|].
  assert (table ex_list !! "NOSUCH"%string = None) as E by by vm_compute.
  rewrite E in Hz. destruct Hz as [-> _]. exists d'. exact H.
Defined.

Lemma adf_cfg_section_add_correct_witness :
  ∃ d', adf_cfg_section_add always "SSL" ex_dev = Some (0, d').
Proof.
  destruct (adf_cfg_section_add_correct always ex_dev ex_list "SSL")
    as (z & d' & l' & H & _ & _ & Hz); [done|apply ex_list_ok|unfold fits; simpl; lia|].
  assert (table ex_list !! "SSL"%string = None) as E by by vm_compute.
  rewrite E in Hz. destruct Hz as [-> _]. exists d'. exact H.
Defined.


End Cfg.
