(* ===== verification/Pfvf.v ===== *)
(** * PF/VF messages: the shared register

    Models the part of [adf_pf2vf_msg.c] both sides of the PF/VF channel use:
    the CRC-8 of the block messages, the collision protocol on the 32-bit
    register the physical function shares with each virtual function
    ([__adf_iov_putmsg], [adf_iov_put]), the registries of block providers and
    compatibility checkers.

    Both devices are in one state, since they share the registers.  What the
    rest of the system does while a side sleeps is a parameter, [sleep]; the
    mutex around the register means it never runs [__adf_iov_putmsg] of that
    side on that register.  Callbacks are function pointers, numbered here;
    what they compute is a parameter. *)

From S2P Require Import Prelude.

#[local] Open Scope Z_scope.
#[local] Open Scope qat_scope.

Module Pfvf.

(** ** Constants ([adf_pf2vf_msg.h]) *)

Definition ADF_PFVF_COMPATIBILITY_CAPABILITIES := 2.
Definition ADF_PFVF_COMPATIBILITY_FAST_ACK := 3.
Definition ADF_PFVF_COMPATIBILITY_VERSION := 3.

Definition ADF_PF2VF_INT := BIT 0.
Definition ADF_PF2VF_MSGORIGIN_SYSTEM := BIT 1.
Definition ADF_PF2VF_MSGTYPE_MASK := 0x3C.
Definition ADF_PF2VF_MSGTYPE_SHIFT := 2.
Definition ADF_PF2VF_MSGTYPE_RESTARTING := 1.
Definition ADF_PF2VF_MSGTYPE_VERSION_RESP := 2.
Definition ADF_PF2VF_MSGTYPE_BLOCK_RESP := 3.
Definition ADF_PF2VF_MSGTYPE_FATAL_ERROR := 4.
Definition ADF_PF2VF_IN_USE_BY_PF := 0x6AC20000.
Definition ADF_PF2VF_IN_USE_BY_PF_MASK := 0xFFFE0000.

Definition ADF_PF2VF_VERSION_RESP_VERS_MASK := 0x3FC0.
Definition ADF_PF2VF_VERSION_RESP_VERS_SHIFT := 6.
Definition ADF_PF2VF_VERSION_RESP_RESULT_MASK := 0xC000.
Definition ADF_PF2VF_VERSION_RESP_RESULT_SHIFT := 14.
Definition ADF_PF2VF_MINORVERSION_SHIFT := 6.
Definition ADF_PF2VF_MAJORVERSION_SHIFT := 10.
Definition ADF_PF2VF_VF_COMPATIBLE := 1.
Definition ADF_PF2VF_VF_INCOMPATIBLE := 2.
Definition ADF_PF2VF_VF_COMPAT_UNKNOWN := 3.

Definition ADF_VF2PF_MIN_SMALL_MESSAGE_TYPE := 0.
Definition ADF_VF2PF_MAX_SMALL_MESSAGE_TYPE := ADF_VF2PF_MIN_SMALL_MESSAGE_TYPE + 15.
Definition ADF_VF2PF_MIN_MEDIUM_MESSAGE_TYPE := ADF_VF2PF_MAX_SMALL_MESSAGE_TYPE + 1.
Definition ADF_VF2PF_MAX_MEDIUM_MESSAGE_TYPE := ADF_VF2PF_MIN_MEDIUM_MESSAGE_TYPE + 7.
Definition ADF_VF2PF_MIN_LARGE_MESSAGE_TYPE := ADF_VF2PF_MAX_MEDIUM_MESSAGE_TYPE + 1.
Definition ADF_VF2PF_MAX_LARGE_MESSAGE_TYPE := ADF_VF2PF_MIN_LARGE_MESSAGE_TYPE + 3.
Definition ADF_VF2PF_SMALL_PAYLOAD_SIZE := 30.
Definition ADF_VF2PF_MEDIUM_PAYLOAD_SIZE := 62.
Definition ADF_VF2PF_LARGE_PAYLOAD_SIZE := 126.

Definition ADF_VF2PF_BLOCK_REQ_TYPE_SHIFT := 22.
Definition ADF_VF2PF_LARGE_BLOCK_BYTE_NUM_SHIFT := 24.
Definition ADF_VF2PF_MEDIUM_BLOCK_BYTE_NUM_SHIFT := 25.
Definition ADF_VF2PF_SMALL_BLOCK_BYTE_NUM_SHIFT := 26.
Definition ADF_VF2PF_BLOCK_REQ_CRC_SHIFT := 31.
Definition ADF_VF2PF_LARGE_BLOCK_BYTE_NUM_MASK := 0x7F000000.
Definition ADF_VF2PF_MEDIUM_BLOCK_BYTE_NUM_MASK := 0x7E000000.
Definition ADF_VF2PF_SMALL_BLOCK_BYTE_NUM_MASK := 0x7C000000.
Definition ADF_VF2PF_LARGE_BLOCK_REQ_TYPE_MASK := 0xC00000.
Definition ADF_VF2PF_MEDIUM_BLOCK_REQ_TYPE_MASK := 0x1C00000.
Definition ADF_VF2PF_SMALL_BLOCK_REQ_TYPE_MASK := 0x3C00000.

Definition ADF_PF2VF_BLOCK_RESP_TYPE_DATA := 0.
Definition ADF_PF2VF_BLOCK_RESP_TYPE_CRC := 1.
Definition ADF_PF2VF_BLOCK_RESP_TYPE_ERROR := 2.
Definition ADF_PF2VF_BLOCK_RESP_TYPE_SHIFT := 6.
Definition ADF_PF2VF_BLOCK_RESP_DATA_SHIFT := 8.
Definition ADF_PF2VF_BLOCK_RESP_TYPE_MASK := 0xC0.
Definition ADF_PF2VF_BLOCK_RESP_DATA_MASK := 0xFF00.

Definition ADF_VF2PF_BLOCK_VERSION_BYTE := 0.
Definition ADF_VF2PF_BLOCK_LEN_BYTE := 1.
Definition ADF_VF2PF_BLOCK_DATA := 2.

Definition ADF_PF2VF_INVALID_BLOCK_TYPE := 0.
Definition ADF_PF2VF_INVALID_BYTE_NUM_REQ := 1.
Definition ADF_PF2VF_PAYLOAD_TRUNCATED := 2.
Definition ADF_PF2VF_UNSPECIFIED_ERROR := 3.

Definition ADF_VF2PF_IN_USE_BY_VF := 0x6AC2.
Definition ADF_VF2PF_IN_USE_BY_VF_MASK := 0xFFFE.
Definition ADF_VF2PF_INT := BIT 16.
Definition ADF_VF2PF_MSGORIGIN_SYSTEM := BIT 17.
Definition ADF_VF2PF_MSGTYPE_MASK := 0x3C0000.
Definition ADF_VF2PF_MSGTYPE_SHIFT := 18.
Definition ADF_VF2PF_MSGTYPE_INIT := 3.
Definition ADF_VF2PF_MSGTYPE_SHUTDOWN := 4.
Definition ADF_VF2PF_MSGTYPE_VERSION_REQ := 5.
Definition ADF_VF2PF_MSGTYPE_COMPAT_VER_REQ := 6.
Definition ADF_VF2PF_MSGTYPE_GET_LARGE_BLOCK_REQ := 7.
Definition ADF_VF2PF_MSGTYPE_GET_MEDIUM_BLOCK_REQ := 8.
Definition ADF_VF2PF_MSGTYPE_GET_SMALL_BLOCK_REQ := 9.

Definition ADF_VF2PF_BLOCK_MSG_CAP_SUMMARY := 2.
Definition ADF_VF2PF_COMPAT_VER_REQ_SHIFT := 22.

Definition ADF_IOV_MSG_ACK_DELAY_US := 5.
Definition ADF_IOV_MSG_ACK_MAX_DELAY_US := 2 * 1000 * 1000.
Definition ADF_IOV_MSG_MAX_RETRIES : nat := 3.
Definition ADF_IOV_MSG_RESP_RETRIES : nat := 5.
Definition ADF_CRC8_INIT_VALUE := 0xFF.
Definition ADF_PFVF_DATA_SHIFT := 8.
Definition ADF_PFVF_DATA_MASK := 0xFF.
Definition ADF_COMPAT_CHECKER_MAX := 8.

(** ** CRC-8 *)

Definition pfvf_crc8_table : list Z := [
  0x00; 0x97; 0xB9; 0x2E; 0xE5; 0x72; 0x5C; 0xCB; 0x5D; 0xCA; 0xE4; 0x73; 0xB8; 0x2F; 0x01; 0x96;
  0xBA; 0x2D; 0x03; 0x94; 0x5F; 0xC8; 0xE6; 0x71; 0xE7; 0x70; 0x5E; 0xC9; 0x02; 0x95; 0xBB; 0x2C;
  0xE3; 0x74; 0x5A; 0xCD; 0x06; 0x91; 0xBF; 0x28; 0xBE; 0x29; 0x07; 0x90; 0x5B; 0xCC; 0xE2; 0x75;
  0x59; 0xCE; 0xE0; 0x77; 0xBC; 0x2B; 0x05; 0x92; 0x04; 0x93; 0xBD; 0x2A; 0xE1; 0x76; 0x58; 0xCF;
  0x51; 0xC6; 0xE8; 0x7F; 0xB4; 0x23; 0x0D; 0x9A; 0x0C; 0x9B; 0xB5; 0x22; 0xE9; 0x7E; 0x50; 0xC7;
  0xEB; 0x7C; 0x52; 0xC5; 0x0E; 0x99; 0xB7; 0x20; 0xB6; 0x21; 0x0F; 0x98; 0x53; 0xC4; 0xEA; 0x7D;
  0xB2; 0x25; 0x0B; 0x9C; 0x57; 0xC0; 0xEE; 0x79; 0xEF; 0x78; 0x56; 0xC1; 0x0A; 0x9D; 0xB3; 0x24;
  0x08; 0x9F; 0xB1; 0x26; 0xED; 0x7A; 0x54; 0xC3; 0x55; 0xC2; 0xEC; 0x7B; 0xB0; 0x27; 0x09; 0x9E;
  0xA2; 0x35; 0x1B; 0x8C; 0x47; 0xD0; 0xFE; 0x69; 0xFF; 0x68; 0x46; 0xD1; 0x1A; 0x8D; 0xA3; 0x34;
  0x18; 0x8F; 0xA1; 0x36; 0xFD; 0x6A; 0x44; 0xD3; 0x45; 0xD2; 0xFC; 0x6B; 0xA0; 0x37; 0x19; 0x8E;
  0x41; 0xD6; 0xF8; 0x6F; 0xA4; 0x33; 0x1D; 0x8A; 0x1C; 0x8B; 0xA5; 0x32; 0xF9; 0x6E; 0x40; 0xD7;
  0xFB; 0x6C; 0x42; 0xD5; 0x1E; 0x89; 0xA7; 0x30; 0xA6; 0x31; 0x1F; 0x88; 0x43; 0xD4; 0xFA; 0x6D;
  0xF3; 0x64; 0x4A; 0xDD; 0x16; 0x81; 0xAF; 0x38; 0xAE; 0x39; 0x17; 0x80; 0x4B; 0xDC; 0xF2; 0x65;
  0x49; 0xDE; 0xF0; 0x67; 0xAC; 0x3B; 0x15; 0x82; 0x14; 0x83; 0xAD; 0x3A; 0xF1; 0x66; 0x48; 0xDF;
  0x10; 0x87; 0xA9; 0x3E; 0xF5; 0x62; 0x4C; 0xDB; 0x4D; 0xDA; 0xF4; 0x63; 0xA8; 0x3F; 0x11; 0x86;
  0xAA; 0x3D; 0x13; 0x84; 0x4F; 0xD8; 0xF6; 0x61; 0xF7; 0x60; 0x4E; 0xD9; 0x12; 0x85; 0xAB; 0x3C].

(** The loop over the first [len] bytes; [None] reads past the buffer. *)
Fixpoint crc_bytes (len : nat) (crc : Z) (buf : list Z) : option Z :=
  match len, buf with
  | O, _ => Some crc
  | S _, [] => None
  | S len, b :: buf =>
    crc ← aget pfvf_crc8_table (Z.lxor crc b .& 0xff);
    crc_bytes len crc buf
  end.

(** [len] is a [u8]. *)
Definition adf_pfvf_crc (start_crc : Z) (buf : list Z) (len : Z) : option Z :=
  crc_bytes (Z.to_nat (u8 len)) start_crc buf.

(** ** State *)

(** The counters of [struct pfvf_stats]. *)
Inductive counter :=
  | tx | rx | spurious | blk_tx | blk_rx | crc_err | busy | no_ack | collision
  | tx_timeout | rx_timeout | rx_rsp | retry | event_timeout.
#[export] Instance counter_eq_dec : EqDecision counter.
Proof. solve_decision. Defined.

Definition pfvf_stats := counter → Z.
Definition incr (c : counter) (st : pfvf_stats) : pfvf_stats :=
  λ c', if decide (c' = c) then u32 (st c + 1) else st c'.

(** [struct adf_accel_vf_info]; [irq_on]: whether this VF's interrupt is
    enabled ([enable_vf2pf_interrupts]). *)
Record adf_accel_vf_info := VfInfo {
  init : bool;
  compat_ver : Z;
  info_counters : pfvf_stats;
  irq_on : bool;
}.

(** [accel_dev->vf]; [iov_msg_completion] is the completion's count. *)
Record vf_data := VfData {
  compatible : Z;
  pf_version : Z;
  pf2vf_block_byte : Z;
  pf2vf_block_resp_type : Z;
  iov_msg_completion : nat;
  vf_counters : pfvf_stats;
}.

(** A checker is a function pointer: its number. *)
Record adf_accel_compat_manager := CompatManager {
  num_chker : Z;
  iov_compat_checkers : list (option nat);
}.

(** The fields of [struct adf_hw_device_data] the messages carry. *)
Record hw_data := HwData {
  extended_dc_capabilities : Z;
  accel_capabilities_mask : Z;
  clock_frequency : Z;
}.

(** The kinds of work a message queues. *)
Inductive work := VfStop | FatalError.

(** [struct adf_accel_dev], for a PF ([vf_info]) or a VF ([vf]). *)
Record accel_dev := Dev {
  hw_device : hw_data;
  cm : option adf_accel_compat_manager;
  pf_running : bool;              (* ADF_STATUS_PF_RUNNING *)
  vf_info : list adf_accel_vf_info;
  vf : vf_data;
  vintmsk : Z;                    (* the VF's interrupt mask CSR *)
  queued : list work;
}.

(** A PF, one of its VFs (number [vf_num]), the registers they share, and the
    PF's global table of providers. *)
Record sys := Sys {
  csrs : list Z;
  pf_dev : accel_dev;
  vf_dev : accel_dev;
  vf_num : Z;
  pf2vf_message_providers : list (option nat);
}.

Inductive side := PF | VF.

Definition get_dev (sd : side) (s : sys) : accel_dev :=
  match sd with PF => pf_dev s | VF => vf_dev s end.

Definition upd_dev (sd : side) (f : accel_dev → accel_dev) (s : sys) : sys :=
  match sd with
  | PF => Sys (csrs s) (f (pf_dev s)) (vf_dev s) (vf_num s) (pf2vf_message_providers s)
  | VF => Sys (csrs s) (pf_dev s) (f (vf_dev s)) (vf_num s) (pf2vf_message_providers s)
  end.

Definition set_csrs (l : list Z) (s : sys) : sys :=
  Sys l (pf_dev s) (vf_dev s) (vf_num s) (pf2vf_message_providers s).
Definition set_providers (l : list (option nat)) (s : sys) : sys :=
  Sys (csrs s) (pf_dev s) (vf_dev s) (vf_num s) l.

Definition set_hw (h : hw_data) (d : accel_dev) : accel_dev :=
  Dev h (cm d) (pf_running d) (vf_info d) (vf d) (vintmsk d) (queued d).
Definition set_cm (c : option adf_accel_compat_manager) (d : accel_dev) : accel_dev :=
  Dev (hw_device d) c (pf_running d) (vf_info d) (vf d) (vintmsk d) (queued d).
Definition set_pf_running (b : bool) (d : accel_dev) : accel_dev :=
  Dev (hw_device d) (cm d) b (vf_info d) (vf d) (vintmsk d) (queued d).
Definition set_vf_info (l : list adf_accel_vf_info) (d : accel_dev) : accel_dev :=
  Dev (hw_device d) (cm d) (pf_running d) l (vf d) (vintmsk d) (queued d).
Definition upd_vf (f : vf_data → vf_data) (d : accel_dev) : accel_dev :=
  Dev (hw_device d) (cm d) (pf_running d) (vf_info d) (f (vf d)) (vintmsk d) (queued d).
Definition set_vintmsk (m : Z) (d : accel_dev) : accel_dev :=
  Dev (hw_device d) (cm d) (pf_running d) (vf_info d) (vf d) m (queued d).
Definition queue_work (w : work) (d : accel_dev) : accel_dev :=
  Dev (hw_device d) (cm d) (pf_running d) (vf_info d) (vf d) (vintmsk d) (queued d ++ [w]).

(** The index of the register a side uses: the PF has one per VF, a VF sees
    only its own. *)
Definition reg (sd : side) (vf_nr : Z) : M sys Z :=
  match sd with PF => ret vf_nr | VF => gets vf_num end.

Definition csr_rd (sd : side) (vf_nr : Z) : M sys Z :=
  r <- reg sd vf_nr ;; l <- gets csrs ;; lift (aget l r).
Definition csr_wr (sd : side) (vf_nr v : Z) : M sys () :=
  r <- reg sd vf_nr ;; l <- gets csrs ;; l <- lift (aset l r v) ;; modify (set_csrs l).

(** [&accel_dev->pf.vf_info[vf_nr]], read and updated. *)
Definition info (vf_nr : Z) : M sys adf_accel_vf_info :=
  d <- gets pf_dev ;; lift (aget (vf_info d) vf_nr).
Definition upd_info (vf_nr : Z) (f : adf_accel_vf_info → adf_accel_vf_info) : M sys () :=
  i <- info vf_nr ;; d <- gets pf_dev ;;
  l <- lift (aset (vf_info d) vf_nr (f i)) ;; modify (upd_dev PF (set_vf_info l)).

Definition incr_vf (c : counter) (v : vf_data) : vf_data :=
  VfData (compatible v) (pf_version v) (pf2vf_block_byte v) (pf2vf_block_resp_type v)
    (iov_msg_completion v) (incr c (vf_counters v)).
Definition incr_info (c : counter) (i : adf_accel_vf_info) : adf_accel_vf_info :=
  VfInfo (init i) (compat_ver i) (incr c (info_counters i)) (irq_on i).

(** [pfvf_counters->c++] *)
Definition count (sd : side) (vf_nr : Z) (c : counter) : M sys () :=
  match sd with
  | VF => modify (upd_dev VF (upd_vf (incr_vf c)))
  | PF => upd_info vf_nr (incr_info c)
  end.

(** ** Sending *)

Section put.
Context (sleep : side → Z → M sys ()).

Definition local_in_use_mask (sd : side) : Z :=
  match sd with VF => ADF_VF2PF_IN_USE_BY_VF_MASK | PF => ADF_PF2VF_IN_USE_BY_PF_MASK end.
Definition local_in_use_pattern (sd : side) : Z :=
  match sd with VF => ADF_VF2PF_IN_USE_BY_VF | PF => ADF_PF2VF_IN_USE_BY_PF end.
Definition remote_in_use_mask (sd : side) : Z :=
  match sd with VF => ADF_PF2VF_IN_USE_BY_PF_MASK | PF => ADF_VF2PF_IN_USE_BY_VF_MASK end.
Definition remote_in_use_pattern (sd : side) : Z :=
  match sd with VF => ADF_PF2VF_IN_USE_BY_PF | PF => ADF_VF2PF_IN_USE_BY_VF end.
Definition int_bit (sd : side) : Z :=
  match sd with VF => ADF_VF2PF_INT | PF => ADF_PF2VF_INT end.

(** The [do] loop that waits for the acknowledgement: the last value read.
    [delay] doubles from 5 to the maximum in 19 rounds. *)
Definition ack_fuel : nat := 19.
Fixpoint ack_loop (fuel : nat) (sd : side) (vf_nr delay : Z) : M sys Z :=
  match fuel with
  | O => fault
  | S fuel =>
    sleep sd vf_nr ;;
    let delay := delay * 2 in
    val <- csr_rd sd vf_nr ;;
    if negb (val .& int_bit sd =? 0) && (delay <? ADF_IOV_MSG_ACK_MAX_DELAY_US)
    then ack_loop fuel sd vf_nr delay else ret val
  end.

(** The text from the test for a collision on. *)
Definition finish_put (sd : side) (vf_nr msg val r : Z) (is_notification : bool) : M sys Z :=
  if is_notification && negb (clear val (int_bit sd) =? msg) then
    count sd vf_nr collision ;; ret (- EAGAIN)
  else
    when (val .& local_in_use_mask sd =? local_in_use_pattern sd)
      (csr_wr sd vf_nr (clear val (local_in_use_mask sd))) ;;
    ret r.

Definition __adf_iov_putmsg (sd : side) (msg vf_nr : Z) (is_notification : bool) : M sys Z :=
  val <- csr_rd sd vf_nr ;;
  if val .& remote_in_use_mask sd =? remote_in_use_pattern sd then
    count sd vf_nr busy ;; ret (- EAGAIN)
  else
    let msg := clear msg (local_in_use_mask sd) .| local_in_use_pattern sd in
    csr_wr sd vf_nr (msg .| int_bit sd) ;;
    count sd vf_nr tx ;;
    val <- ack_loop ack_fuel sd vf_nr ADF_IOV_MSG_ACK_DELAY_US ;;
    if negb (val .& int_bit sd =? 0) then
      count sd vf_nr no_ack ;;
      finish_put sd vf_nr msg (clear val (int_bit sd)) (- EIO) is_notification
    else finish_put sd vf_nr msg val 0 is_notification.

(** The [do] loop of [adf_iov_put], with the attempts that remain. *)
Fixpoint put_loop (attempts : nat) (sd : side) (msg vf_nr : Z) (is_notification : bool) : M sys Z :=
  match attempts with
  | O => fault
  | S attempts =>
    r <- __adf_iov_putmsg sd msg vf_nr is_notification ;;
    when (r =? - EAGAIN) (sleep sd vf_nr) ;;
    if (r =? - EAGAIN) && (0 <? Z.of_nat attempts)
    then put_loop attempts sd msg vf_nr is_notification else ret r
  end.

Definition adf_iov_put (sd : side) (msg vf_nr : Z) (is_notification : bool) : M sys Z :=
  r <- put_loop ADF_IOV_MSG_MAX_RETRIES sd msg vf_nr is_notification ;;
  when (r =? - EAGAIN) (count sd vf_nr (if is_notification then event_timeout else tx_timeout)) ;;
  ret r.

Definition adf_iov_putmsg (sd : side) (msg vf_nr : Z) : M sys Z := adf_iov_put sd msg vf_nr false.
Definition adf_iov_notify (sd : side) (msg vf_nr : Z) : M sys Z := adf_iov_put sd msg vf_nr true.
End put.

Definition adf_enable_pf2vf_interrupts : M sys () := modify (upd_dev VF (set_vintmsk 0)).
Definition adf_disable_pf2vf_interrupts : M sys () := modify (upd_dev VF (set_vintmsk 2)).

(** ** Providers *)

Definition adf_iov_block_provider_register (msg_type : Z) (provider : nat) : M sys Z :=
  ps <- gets pf2vf_message_providers ;;
  if Z.of_nat (length ps) <=? msg_type then ret (- EINVAL) else
  p <- lift (aget ps msg_type) ;;
  match p with
  | Some _ => ret (- EINVAL)
  | None =>
    ps <- lift (aset ps msg_type (Some provider)) ;; modify (set_providers ps) ;; ret 0
  end.

(** Not checked: [msg_type] is in range. *)
Definition adf_iov_is_block_provider_registered (msg_type : Z) : M sys bool :=
  ps <- gets pf2vf_message_providers ;;
  p <- lift (aget ps msg_type) ;;
  ret (bool_decide (is_Some p)).

Definition adf_iov_block_provider_unregister (msg_type : Z) (provider : nat) : M sys Z :=
  ps <- gets pf2vf_message_providers ;;
  if Z.of_nat (length ps) <=? msg_type then ret (- EINVAL) else
  p <- lift (aget ps msg_type) ;;
  if decide (p = Some provider) then
    ps <- lift (aset ps msg_type None) ;; modify (set_providers ps) ;; ret 0
  else ret (- EINVAL).

(** ** Compatibility checkers *)

(** The [for] loop of [adf_iov_register_compat_checker]: the index it stops at
    with the table, or [None] when [cc] is registered already. *)
Fixpoint register_at (fuel : nat) (num : Z) (cc : nat) (l : list (option nat))
    : option (option (Z * list (option nat))) :=
  match fuel with
  | O => Some (Some (num, l))
  | S fuel =>
    c ← aget l num;
    match c with
    | Some c => if decide (cc = c) then Some None else register_at fuel (num + 1) cc l
    | None => l ← aset l num (Some cc); Some (Some (num, l))
    end
  end.

Definition adf_iov_register_compat_checker (sd : side) (cc : nat) : M sys Z :=
  d <- gets (get_dev sd) ;;
  match cm d with
  | None => ret (- ENOMEM)
  | Some m =>
    r <- lift (register_at 8 0 cc (iov_compat_checkers m)) ;;
    match r with
    | None => ret (- EFAULT)
    | Some (num, l) =>
      if ADF_COMPAT_CHECKER_MAX <=? num then ret (- EFAULT) else
      modify (upd_dev sd (set_cm (Some (CompatManager num l)))) ;; ret 0
    end
  end.

Definition adf_iov_unregister_compat_checker (sd : side) (cc : nat) : M sys Z :=
  d <- gets (get_dev sd) ;;
  match cm d with
  | None => ret (- ENOMEM)
  | Some m =>
    let num := num_chker m - 1 in
    if num <? 0 then ret (- EFAULT) else
    c <- lift (aget (iov_compat_checkers m) num) ;;
    if decide (c = Some cc) then
      l <- lift (aset (iov_compat_checkers m) num None) ;;
      modify (upd_dev sd (set_cm (Some (CompatManager (u8 (num_chker m - 1)) l)))) ;; ret 0
    else ret (- EFAULT)
  end.

(** [kzalloc_ok]: the allocation of a manager succeeds. *)
Definition adf_iov_init_compat_manager (kzalloc_ok : bool) (sd : side) : M sys Z :=
  d <- gets (get_dev sd) ;;
  let zeroed := CompatManager 0 (replicate 8 None) in
  match cm d with
  | None =>
    if kzalloc_ok then modify (upd_dev sd (set_cm (Some zeroed))) ;; ret 0 else ret (- ENOMEM)
  | Some _ => modify (upd_dev sd (set_cm (Some zeroed))) ;; ret 0
  end.

Definition adf_iov_shutdown_compat_manager (sd : side) : M sys Z :=
  modify (upd_dev sd (set_cm None)) ;; ret 0.

(** [run_checker c ver]: what checker [c] answers for version [ver]. *)
Fixpoint run_checkers (run_checker : nat → Z → Z) (n : nat) (l : list (option nat))
    (ver compatible : Z) : option Z :=
  match n, l with
  | O, _ => Some compatible
  | S _, [] | S _, None :: _ => None
  | S n, Some c :: l =>
    let compatible := run_checker c ver in
    if compatible =? ADF_PF2VF_VF_INCOMPATIBLE then Some compatible
    else run_checkers run_checker n l ver compatible
  end.

Definition adf_iov_compatibility_check (run_checker : nat → Z → Z) (sd : side) (ver : Z)
    : M sys Z :=
  d <- gets (get_dev sd) ;;
  match cm d with
  | None => ret ADF_PF2VF_VF_INCOMPATIBLE
  | Some m =>
    lift (run_checkers run_checker (Z.to_nat (num_chker m)) (iov_compat_checkers m) ver
            ADF_PF2VF_VF_COMPATIBLE)
  end.

(** ** The CRC *)

(** CRC-8 of polynomial [x^8 + x^7 + x^4 + x^2 + x + 1], a bit at a time, most
    significant bit first. *)
Definition crc8_bit (c : Z) : Z :=
  if Z.testbit c 7 then Z.lxor (u8 (Z.shiftl c 1)) 0x97 else Z.shiftl c 1.
Definition crc8_iter (c : Z) : Z := Nat.iter 8 crc8_bit c.
Definition crc8_byte (c b : Z) : Z := crc8_iter (Z.lxor c b).

Lemma all_bytes (f : Z → bool) :
  forallb f (seqZ 0 256) = true → ∀ z, byte_ok z → f z = true.
Proof.
  intros Hall z Hz. rewrite forallb_forall in Hall. apply Hall.
  apply list_elem_of_In, elem_of_seqZ. unfold byte_ok in Hz. lia.
Qed.

Lemma table_bits c :
  byte_ok c → aget pfvf_crc8_table c = Some (crc8_iter c) ∧ byte_ok (crc8_iter c).
Proof.
  intros Hc. apply (bool_decide_eq_true_1 _).
  refine (all_bytes (λ c, bool_decide
    (aget pfvf_crc8_table c = Some (crc8_iter c) ∧ byte_ok (crc8_iter c))) _ c Hc).
  vm_compute. reflexivity.
Qed.

(** The table is a permutation: [unstep] finds the position of an entry. *)
Definition unstep (c : Z) : Z :=
  default 0 ((λ r, Z.of_nat r.1) <$> list_find (λ x, x = c) pfvf_crc8_table).

Lemma unstep_spec c : byte_ok c → unstep (crc8_iter c) = c.
Proof.
  intros Hc. apply Z.eqb_eq.
  refine (all_bytes (λ c, unstep (crc8_iter c) =? c) _ c Hc). vm_compute. reflexivity.
Qed.

Lemma lxor_byte a b : byte_ok a → byte_ok b → byte_ok (Z.lxor a b).
Proof.
  unfold byte_ok. change 256 with (2 ^ 8). intros Ha Hb.
  assert (Z.lxor a b = wrap 8 (Z.lxor a b)) as ->; [|auto with qat].
  zbits. by rewrite (testbit_high a 8), (testbit_high b 8) by lia.
Qed.

Lemma land_ff a : byte_ok a → a .& 0xff = a.
Proof. intros. change 0xff with (Z.ones 8). rewrite Z.land_ones by lia. by apply Z.mod_small. Qed.

Lemma crc_step c b :
  byte_ok c → byte_ok b →
  aget pfvf_crc8_table (Z.lxor c b .& 0xff) = Some (crc8_byte c b) ∧ byte_ok (crc8_byte c b).
Proof. intros. rewrite land_ff by by apply lxor_byte. apply table_bits. by apply lxor_byte. Qed.

Lemma crc_bytes_spec buf c n :
  bytes_ok buf → byte_ok c → (n <= length buf)%nat →
  crc_bytes n c buf = Some (foldl crc8_byte c (take n buf)) ∧
  byte_ok (foldl crc8_byte c (take n buf)).
Proof.
  intros Hb. revert c n. induction Hb as [|b buf Hb _ IH]; intros c [|n] Hc Hn; simpl in *;
    [done|lia|done|].
  destruct (crc_step c b) as [-> Hs]; [done..|]. simpl. apply IH; [done|lia].
Qed.

Lemma crc_spec c buf len :
  bytes_ok buf → byte_ok c → 0 <= len < 256 → len <= Z.of_nat (length buf) →
  adf_pfvf_crc c buf len = Some (foldl crc8_byte c (take (Z.to_nat len) buf)) ∧
  byte_ok (foldl crc8_byte c (take (Z.to_nat len) buf)).
Proof.
  intros. unfold adf_pfvf_crc. rewrite wrap_small by done. apply crc_bytes_spec; [done..|lia].
Qed.

Lemma lxor_cancel_l a b c : Z.lxor a b = Z.lxor a c → b = c.
Proof.
  intros E. rewrite <- (Z.lxor_0_l b), <- (Z.lxor_0_l c), <- (Z.lxor_nilpotent a).
  by rewrite !Z.lxor_assoc, E.
Qed.

Lemma crc8_byte_inj c c' b b' :
  byte_ok c → byte_ok c' → byte_ok b → byte_ok b' →
  crc8_byte c b = crc8_byte c' b' → Z.lxor c b = Z.lxor c' b'.
Proof.
  intros. rewrite <- (unstep_spec (Z.lxor c b)), <- (unstep_spec (Z.lxor c' b'))
    by by apply lxor_byte. by f_equal.
Qed.

Lemma crc8_fold_ok l c : bytes_ok l → byte_ok c → byte_ok (foldl crc8_byte c l).
Proof.
  intros Hl. revert c. induction Hl; intros c Hc; simpl; [done|].
  by apply IHHl, crc_step.
Qed.

Lemma crc8_fold_inj l c c' :
  bytes_ok l → byte_ok c → byte_ok c' → foldl crc8_byte c l = foldl crc8_byte c' l → c = c'.
Proof.
  intros Hl. revert c c'. induction Hl as [|b l Hb Hl IH]; intros c c' Hc Hc'; simpl; [done|].
  intros E. apply IH in E; [|by apply crc_step..].
  apply crc8_byte_inj in E; [|done..]. rewrite !(Z.lxor_comm _ b) in E.
  by apply lxor_cancel_l in E.
Qed.

(** C40 The table-driven [adf_pfvf_crc] is CRC-8 with polynomial 0x97, computed
    on the first [len] bytes of the buffer. *)
Theorem adf_pfvf_crc_correct c buf len :
  bytes_ok buf → byte_ok c → 0 <= len < 256 → len <= Z.of_nat (length buf) →
  adf_pfvf_crc c buf len = Some (foldl crc8_byte c (take (Z.to_nat len) buf)).
Proof. intros. by apply crc_spec. Qed.

Lemma adf_pfvf_crc_correct_witness :
  adf_pfvf_crc 0xFF [3; 12; 7] 2 = Some (foldl crc8_byte 0xFF [3; 12]).
Proof.
  apply (adf_pfvf_crc_correct 0xFF [3; 12; 7] 2);
    [apply (bool_decide_eq_true_1 _); reflexivity| |simpl length..]; unfold byte_ok; lia.
Defined.

(** A corruption of a single byte is detected: two buffers that differ in
    exactly one of the [len] bytes have different CRCs. *)
Theorem adf_pfvf_crc_detects c buf i b len :
  bytes_ok buf → byte_ok c → byte_ok b → 0 <= len < 256 → len <= Z.of_nat (length buf) →
  (i < Z.to_nat len)%nat → buf !! i ≠ Some b →
  adf_pfvf_crc c (<[i := b]> buf) len ≠ adf_pfvf_crc c buf len.
Proof.
  intros Hb Hc Hb' Hlen Hl Hi Hne.
  assert (bytes_ok (<[i := b]> buf)) by by apply Forall_insert.
  rewrite (proj1 (crc_spec c buf len Hb Hc Hlen Hl)).
  rewrite (proj1 (crc_spec c (<[i := b]> buf) len ltac:(done) Hc Hlen
    ltac:(by rewrite length_insert))).
  destruct (lookup_lt_is_Some_2 buf i) as [x Hx]; [lia|].
  assert (byte_ok x) as Hxb by apply (Forall_lookup_1 _ _ _ _ Hb Hx).
  rewrite take_insert_lt by done.
  rewrite <- (list_insert_id (take (Z.to_nat len) buf) i x) by by rewrite lookup_take_lt.
  rewrite list_insert_insert_eq.
  set (l := take (Z.to_nat len) buf).
  assert (bytes_ok l) as Hlok by by apply Forall_take.
  assert (i < length l)%nat by (unfold l; rewrite length_take; lia).
  rewrite !insert_take_drop by done. rewrite !foldl_app. cbn [foldl].
  intros [= E]. apply crc8_fold_inj in E; [|by apply Forall_drop|by apply crc_step;
    [apply crc8_fold_ok; [apply Forall_take|]|]..].
  apply crc8_byte_inj, lxor_cancel_l in E; [congruence|..]; try done;
    by apply crc8_fold_ok; [apply Forall_take|].
Qed.

Lemma adf_pfvf_crc_detects_witness :
  adf_pfvf_crc 0xFF [3; 13; 7] 3 ≠ adf_pfvf_crc 0xFF [3; 12; 7] 3.
Proof.
  apply (adf_pfvf_crc_detects 0xFF [3; 12; 7] 1 13 3);
    [apply (bool_decide_eq_true_1 _); reflexivity|unfold byte_ok; lia..|lia|simpl; lia|
     apply Nat.ltb_lt; reflexivity|done].
Defined.

(** ** Reading, writing and counting *)

Definition idx (sd : side) (vf_nr : Z) (s : sys) : Z :=
  match sd with PF => vf_nr | VF => vf_num s end.

(** The register a side uses exists, and so does the PF's record of the VF. *)
Definition wf (sd : side) (vf_nr : Z) (s : sys) : Prop :=
  0 <= idx sd vf_nr s < Z.of_nat (length (csrs s)) ∧
  match sd with VF => True | PF => vf_nr < Z.of_nat (length (vf_info (pf_dev s))) end.

Definition csr_at (sd : side) (vf_nr : Z) (s : sys) : Z :=
  default 0 (aget (csrs s) (idx sd vf_nr s)).

(** All of the state but the registers, the counters and the PF's interrupt
    enables. *)
Record core := Core {
  c_pf : hw_data * option adf_accel_compat_manager * list (bool * Z);
  c_vf : hw_data * option adf_accel_compat_manager * bool * Z;
  c_msg : Z * Z * Z * Z * nat;
  c_num : Z;
  c_providers : list (option nat);
  c_queued : list work;
}.

Definition core_of (s : sys) : core :=
  Core (hw_device (pf_dev s), cm (pf_dev s), (λ i, (init i, compat_ver i)) <$> vf_info (pf_dev s))
    (hw_device (vf_dev s), cm (vf_dev s), pf_running (vf_dev s), vintmsk (vf_dev s))
    (let v := vf (vf_dev s) in (compatible v, pf_version v, pf2vf_block_byte v,
      pf2vf_block_resp_type v, iov_msg_completion v))
    (vf_num s) (pf2vf_message_providers s) (queued (vf_dev s)).

Lemma core_infos s s' :
  core_of s' = core_of s → length (vf_info (pf_dev s')) = length (vf_info (pf_dev s)).
Proof.
  intros E. rewrite <- !(length_fmap (λ i, (init i, compat_ver i))).
  by apply (f_equal (λ c, length (c_pf c).2)) in E.
Qed.

Lemma core_num s s' : core_of s' = core_of s → vf_num s' = vf_num s.
Proof. apply (f_equal c_num). Qed.

Lemma core_wf sd vf_nr s s' :
  core_of s' = core_of s → length (csrs s') = length (csrs s) → wf sd vf_nr s → wf sd vf_nr s'.
Proof.
  unfold wf, idx. intros E ->. rewrite (core_infos s s' E), (core_num s s' E). done.
Qed.

Lemma csr_rd_run sd vf_nr s : wf sd vf_nr s → csr_rd sd vf_nr s = Some (csr_at sd vf_nr s, s).
Proof.
  intros [Hi _]. apply aget_is_Some in Hi as [v Hv].
  unfold csr_rd, csr_at. rewrite Hv.
  destruct sd; unfold reg, idx in *; autorewrite with monad; rewrite Hv; done.
Qed.

Lemma csr_wr_run sd vf_nr v s :
  wf sd vf_nr s →
  ∃ s', csr_wr sd vf_nr v s = Some ((), s') ∧ core_of s' = core_of s ∧
        wf sd vf_nr s' ∧ csr_at sd vf_nr s' = v ∧ length (csrs s') = length (csrs s).
Proof.
  intros Hwf. pose proof Hwf as [Hi _].
  exists (set_csrs (<[Z.to_nat (idx sd vf_nr s) := v]> (csrs s)) s). split_and!.
  - unfold csr_wr. destruct sd; unfold reg, idx in *; autorewrite with monad;
      rewrite aset_in by done; autorewrite with monad; done.
  - done.
  - eapply core_wf; [..|exact Hwf]; [done|apply length_insert].
  - unfold csr_at. assert (idx sd vf_nr (set_csrs (<[Z.to_nat (idx sd vf_nr s):=v]> (csrs s)) s)
      = idx sd vf_nr s) as -> by by destruct sd.
    cbn [csrs set_csrs]. by rewrite (aget_aset_eq (csrs s) _ _ v (aset_in _ _ v Hi)).
  - apply length_insert.
Qed.

Lemma upd_info_run vf_nr f s i :
  aget (vf_info (pf_dev s)) vf_nr = Some i →
  upd_info vf_nr f s =
    Some ((), upd_dev PF (set_vf_info (<[Z.to_nat vf_nr := f i]> (vf_info (pf_dev s)))) s).
Proof.
  intros Hi. unfold upd_info, info. autorewrite with monad. rewrite Hi.
  autorewrite with monad. rewrite aset_in by by eapply aget_Some.
  by autorewrite with monad.
Qed.

Lemma infos_insert vf_nr f l i :
  aget l vf_nr = Some i → (init (f i), compat_ver (f i)) = (init i, compat_ver i) →
  (λ i, (init i, compat_ver i)) <$> <[Z.to_nat vf_nr := f i]> l =
  (λ i, (init i, compat_ver i)) <$> l.
Proof.
  intros Hi E. rewrite list_fmap_insert. cbn beta. rewrite E. apply list_insert_id.
  rewrite list_lookup_fmap. unfold aget in Hi. destruct (0 <=? vf_nr); [|done].
  by rewrite Hi.
Qed.

Lemma count_run sd vf_nr c s :
  wf sd vf_nr s →
  ∃ s', count sd vf_nr c s = Some ((), s') ∧ core_of s' = core_of s ∧ csrs s' = csrs s.
Proof.
  intros [Hi Hn]. destruct sd; unfold count.
  - destruct (aget_is_Some (vf_info (pf_dev s)) vf_nr) as [i Hinf]; [unfold idx in Hi; lia|].
    rewrite (upd_info_run _ _ _ _ Hinf). eexists; split_and!; [done| |done].
    unfold core_of. cbn. by rewrite (infos_insert _ (incr_info c)).
  - eexists; split_and!; done.
Qed.

Lemma csr_at_core sd vf_nr s s' :
  core_of s' = core_of s → csrs s' = csrs s → csr_at sd vf_nr s' = csr_at sd vf_nr s.
Proof. unfold csr_at, idx. intros E ->. by rewrite (core_num s s' E). Qed.

(** ** The collision protocol *)

(** The message with the sender's in-use pattern in the other half. *)
Definition framed (sd : side) (msg : Z) : Z :=
  clear msg (local_in_use_mask sd) .| local_in_use_pattern sd.

Lemma land_clear x m b : Z.ldiff m b = m → clear x b .& m = x .& m.
Proof.
  intros <-. unfold clear. apply Z.bits_inj'; intros i _. autorewrite with zbits.
  by destruct (Z.testbit x i), (Z.testbit m i), (Z.testbit b i).
Qed.

Lemma land_int_local sd x : clear x (int_bit sd) .& local_in_use_mask sd = x .& local_in_use_mask sd.
Proof. apply land_clear. by destruct sd. Qed.

Lemma clear_local sd x :
  clear x (local_in_use_mask sd) .& local_in_use_mask sd ≠ local_in_use_pattern sd.
Proof.
  assert (clear x (local_in_use_mask sd) .& local_in_use_mask sd = 0) as ->; [|by destruct sd].
  unfold clear. apply Z.bits_inj'; intros i _. autorewrite with zbits.
  by destruct (Z.testbit x i), (Z.testbit (local_in_use_mask sd) i).
Qed.

(** [sd] holds the register: its pattern is in it. *)
Definition held (sd : side) (v : Z) : Prop :=
  v .& local_in_use_mask sd = local_in_use_pattern sd.

Section contract.
Context (sleep : side → Z → M sys ()) (sd : side) (vf_nr : Z).
Context (sleep_ok : ∀ s, wf sd vf_nr s → ∃ s', sleep sd vf_nr s = Some ((), s') ∧ wf sd vf_nr s').

Definition slept (s s' : sys) : Prop := sleep sd vf_nr s = Some ((), s').

(** [msg] was put in the register and, after some sleep, acknowledged; for a
    notification it was still there. *)
Definition delivered (msg : Z) (is_notification : bool) : Prop :=
  ∃ n s1 s2, (0 < n <= ack_fuel)%nat ∧ csr_at sd vf_nr s1 = framed sd msg .| int_bit sd ∧
    nsteps slept n s1 s2 ∧ csr_at sd vf_nr s2 .& int_bit sd = 0 ∧
    (is_notification = true → clear (csr_at sd vf_nr s2) (int_bit sd) = framed sd msg).

Lemma ack_loop_spec fuel delay s :
  wf sd vf_nr s → 0 < delay → ADF_IOV_MSG_ACK_MAX_DELAY_US <= delay * 2 ^ Z.of_nat fuel →
  (0 < fuel)%nat →
  ∃ n s', ack_loop sleep fuel sd vf_nr delay s = Some (csr_at sd vf_nr s', s') ∧
    wf sd vf_nr s' ∧ (0 < n <= fuel)%nat ∧ nsteps slept n s s'.
Proof.
  revert delay s. induction fuel as [|fuel IH]; intros delay s Hwf Hd Hmax Hf; [lia|].
  destruct (sleep_ok s Hwf) as (s1 & Hs1 & Hwf1). cbn [ack_loop].
  rewrite (bind_Some _ _ _ _ _ Hs1), (bind_Some _ _ _ _ _ (csr_rd_run _ _ _ Hwf1)).
  destruct (_ && _) eqn:E.
  - apply andb_true_iff in E as [_ E%Z.ltb_lt].
    rewrite Nat2Z.inj_succ, Z.pow_succ_r in Hmax by lia.
    destruct (decide (fuel = O)) as [->|Hf0]; [change (2 ^ Z.of_nat 0) with 1 in Hmax; lia|].
    destruct (IH (delay * 2) s1) as (n & s2 & Hrun & Hwf2 & Hn & Hsteps); [done|lia..|].
    exists (S n), s2. split_and!; [done..|lia|lia|]. by eapply nsteps_l.
  - exists 1%nat, s1. split_and!; [done..|lia|lia|]. by apply nsteps_once.
Qed.

Lemma finish_put_spec msg val r is_notification s :
  wf sd vf_nr s → csr_at sd vf_nr s .& local_in_use_mask sd = val .& local_in_use_mask sd →
  ∃ r' s', finish_put sd vf_nr msg val r is_notification s = Some (r', s') ∧ wf sd vf_nr s' ∧
    if is_notification && negb (clear val (int_bit sd) =? msg) then r' = - EAGAIN
    else r' = r ∧ ¬ held sd (csr_at sd vf_nr s').
Proof.
  intros Hwf Hv. unfold finish_put. destruct (is_notification && _).
  - destruct (count_run sd vf_nr collision s Hwf) as (s' & Hc & Hcore & Hcsr).
    rewrite (bind_Some _ _ _ _ _ Hc). eexists _, s'. split_and!; [done| |done].
    eapply core_wf; [done|by rewrite Hcsr|done].
  - destruct (Z.eqb_spec (val .& local_in_use_mask sd) (local_in_use_pattern sd)) as [E|E].
    + destruct (csr_wr_run sd vf_nr (clear val (local_in_use_mask sd)) s Hwf)
        as (s' & Hw & Hcore & Hwf' & Hat & _).
      cbn [when]. rewrite (bind_Some _ _ _ _ _ Hw). eexists _, s'. split_and!; [done..|].
      unfold held. rewrite Hat. apply clear_local.
    + cbn [when]. autorewrite with monad. eexists _, s. split_and!; [done..|].
      unfold held. by rewrite Hv.
Qed.

(** What one attempt guarantees, by its result. *)
Definition put_post (msg : Z) (is_notification : bool) (r : Z) (s : sys) : Prop :=
  (r = 0 ∨ r = - EIO ∨ r = - EAGAIN) ∧
  (is_notification = false → r ≠ - EAGAIN → ¬ held sd (csr_at sd vf_nr s)) ∧
  (r = 0 → delivered msg is_notification).

Lemma putmsg_spec msg is_notification s :
  wf sd vf_nr s →
  ∃ r s', __adf_iov_putmsg sleep sd msg vf_nr is_notification s = Some (r, s') ∧
    wf sd vf_nr s' ∧ put_post msg is_notification r s'.
Proof.
  intros Hwf. unfold __adf_iov_putmsg. rewrite (bind_Some _ _ _ _ _ (csr_rd_run _ _ _ Hwf)).
  destruct (_ =? remote_in_use_pattern sd).
  { destruct (count_run sd vf_nr busy s Hwf) as (s' & Hc & Hcore & Hcsr).
    rewrite (bind_Some _ _ _ _ _ Hc). eexists _, s'. split_and!; [done| |].
    - eapply core_wf; [done|by rewrite Hcsr|done].
    - unfold put_post, EAGAIN. split_and!; [by auto|lia..]. }
  cbv zeta. change (clear msg _ .| _) with (framed sd msg).
  destruct (csr_wr_run sd vf_nr (framed sd msg .| int_bit sd) s Hwf)
    as (s1 & Hw & Hcore1 & Hwf1 & Hat1 & _).
  rewrite (bind_Some _ _ _ _ _ Hw).
  destruct (count_run sd vf_nr tx s1 Hwf1) as (s2 & Hc & Hcore2 & Hcsr2).
  rewrite (bind_Some _ _ _ _ _ Hc).
  assert (wf sd vf_nr s2) as Hwf2 by (eapply core_wf; [done|by rewrite Hcsr2|done]).
  destruct (ack_loop_spec ack_fuel ADF_IOV_MSG_ACK_DELAY_US s2 Hwf2)
    as (n & s3 & Hrun & Hwf3 & Hn & Hsteps); [done|done|unfold ack_fuel; lia|].
  rewrite (bind_Some _ _ _ _ _ Hrun).
  destruct (Z.eqb_spec (csr_at sd vf_nr s3 .& int_bit sd) 0) as [Hack|Hack]; branch.
  - destruct (finish_put_spec (framed sd msg) (csr_at sd vf_nr s3) 0 is_notification s3 Hwf3)
      as (r & s4 & Hf & Hwf4 & Hpost); [done|].
    exists r, s4. split_and!; [done..|]. unfold put_post.
    destruct is_notification; simpl in Hpost;
      [destruct (Z.eqb_spec (clear (csr_at sd vf_nr s3) (int_bit sd)) (framed sd msg));
         simpl in Hpost|].
    all: try (subst r; unfold EAGAIN; split_and!; [by auto|lia|lia]).
    all: destruct Hpost as [-> Hpost]; split_and!; [by auto|done|intros _].
    all: exists n, s2, s3; split_and!; [lia|lia| |done|done|done].
    all: by rewrite <- Hat1; apply csr_at_core.
  - destruct (count_run sd vf_nr no_ack s3 Hwf3) as (s4 & Hc4 & Hcore4 & Hcsr4).
    rewrite (bind_Some _ _ _ _ _ Hc4).
    destruct (finish_put_spec (framed sd msg) (clear (csr_at sd vf_nr s3) (int_bit sd)) (- EIO)
      is_notification s4) as (r & s5 & Hf & Hwf5 & Hpost).
    { eapply core_wf; [done|by rewrite Hcsr4|done]. }
    { by rewrite land_int_local, (csr_at_core _ _ s3 s4). }
    exists r, s5. split_and!; [done..|]. unfold put_post, EAGAIN, EIO in *.
    destruct (is_notification && _) eqn:E.
    + subst r. split_and!; [by auto|lia|lia].
    + destruct Hpost as [-> Hpost]. split_and!; [by auto|done|lia].
Qed.

Lemma put_loop_spec attempts msg is_notification s :
  wf sd vf_nr s → (0 < attempts)%nat →
  ∃ r s', put_loop sleep attempts sd msg vf_nr is_notification s = Some (r, s') ∧
    wf sd vf_nr s' ∧ put_post msg is_notification r s'.
Proof.
  revert s. induction attempts as [|attempts IH]; intros s Hwf Ha; [lia|].
  destruct (putmsg_spec msg is_notification s Hwf) as (r & s1 & Hrun & Hwf1 & Hpost).
  cbn [put_loop]. rewrite (bind_Some _ _ _ _ _ Hrun).
  destruct (Z.eqb_spec r (- EAGAIN)) as [->|Hr]; cbn [when andb].
  2: { autorewrite with monad. by exists r, s1. }
  destruct (sleep_ok s1 Hwf1) as (s2 & Hs2 & Hwf2). rewrite (bind_Some _ _ _ _ _ Hs2).
  destruct (Z.ltb_spec 0 (Z.of_nat attempts)).
  - apply IH; [done|lia].
  - eexists _, s2. split_and!; [done..|]. unfold put_post, EAGAIN. split_and!; [by auto|lia..].
Qed.
End contract.

(** A message the other side takes during the first sleep: it is sent at the
    first attempt, and the sender writes nothing more. *)
Lemma adf_iov_putmsg_taken sleep sd vf_nr msg s (Q : sys → Prop) :
  wf sd vf_nr s → csr_at sd vf_nr s .& remote_in_use_mask sd ≠ remote_in_use_pattern sd →
  (∀ s1, core_of s1 = core_of s → length (csrs s1) = length (csrs s) →
     csr_at sd vf_nr s1 = framed sd msg .| int_bit sd →
     ∃ s2, sleep sd vf_nr s1 = Some ((), s2) ∧ wf sd vf_nr s2 ∧
       csr_at sd vf_nr s2 .& int_bit sd = 0 ∧ ¬ held sd (csr_at sd vf_nr s2) ∧ Q s2) →
  ∃ s2, adf_iov_putmsg sleep sd msg vf_nr s = Some (0, s2) ∧ Q s2.
Proof.
  intros Hwf Hidle Hsleep. unfold adf_iov_putmsg, adf_iov_put.
  change ADF_IOV_MSG_MAX_RETRIES with 3%nat. cbn [put_loop]. unfold __adf_iov_putmsg.
  autorewrite with monad.
  rewrite (bind_Some _ _ _ _ _ (csr_rd_run _ _ _ Hwf)), (proj2 (Z.eqb_neq _ _) Hidle).
  autorewrite with monad. change (clear msg _ .| _) with (framed sd msg).
  destruct (csr_wr_run sd vf_nr (framed sd msg .| int_bit sd) s Hwf)
    as (s1 & Hw & Hcore1 & Hwf1 & Hat1 & Hl1).
  rewrite (bind_Some _ _ _ _ _ Hw). autorewrite with monad.
  destruct (count_run sd vf_nr tx s1 Hwf1) as (s2 & Hc & Hcore2 & Hcsr2).
  rewrite (bind_Some _ _ _ _ _ Hc). autorewrite with monad.
  destruct (Hsleep s2) as (s3 & Hs3 & Hwf3 & Hack & Hheld & HQ).
  { by rewrite Hcore2. }
  { by rewrite Hcsr2. }
  { rewrite <- Hat1. by apply csr_at_core. }
  change ack_fuel with (S 18). cbn [ack_loop]. autorewrite with monad.
  rewrite (bind_Some _ _ _ _ _ Hs3). autorewrite with monad.
  rewrite (bind_Some _ _ _ _ _ (csr_rd_run _ _ _ Hwf3)), Hack.
  cbn [Z.eqb negb andb]. autorewrite with monad. rewrite Hack. cbn [Z.eqb negb].
  unfold finish_put. cbn [andb]. rewrite (proj2 (Z.eqb_neq _ _) Hheld). cbn [when].
  autorewrite with monad. by exists s3.
Qed.


(** A far side that never lets go of the register. *)
Definition idle_sleep (sd : side) (vf_nr : Z) : M sys () := ret ().

(** While the other side holds the register nothing is written to it: the
    attempt is given up with -EAGAIN. *)
Theorem adf_iov_putmsg_busy sleep sd vf_nr msg is_notification s :
  wf sd vf_nr s → csr_at sd vf_nr s .& remote_in_use_mask sd = remote_in_use_pattern sd →
  ∃ s', __adf_iov_putmsg sleep sd msg vf_nr is_notification s = Some (- EAGAIN, s') ∧
        csrs s' = csrs s ∧ core_of s' = core_of s.
Proof.
  intros Hwf Hheld. unfold __adf_iov_putmsg.
  rewrite (bind_Some _ _ _ _ _ (csr_rd_run _ _ _ Hwf)), Hheld, Z.eqb_refl.
  destruct (count_run sd vf_nr busy s Hwf) as (s' & Hc & Hcore & Hcsr).
  rewrite (bind_Some _ _ _ _ _ Hc). by exists s'.
Qed.

(** ** Registered checkers *)

(** Checkers are not consulted as registered: [num_chker] is set to the
    index of the last one, so after the first registration the manager counts
    no checkers, finds every version compatible whatever the checker says, and
    refuses to unregister it. *)
Theorem adf_iov_register_compat_checker_unused run_checker sd cc ver s :
  cm (get_dev sd s) = Some (CompatManager 0 (replicate 8 None)) →
  ∃ s', adf_iov_register_compat_checker sd cc s = Some (0, s') ∧
    cm (get_dev sd s') = Some (CompatManager 0 (Some cc :: replicate 7 None)) ∧
    adf_iov_compatibility_check run_checker sd ver s' = Some (ADF_PF2VF_VF_COMPATIBLE, s') ∧
    adf_iov_unregister_compat_checker sd cc s' = Some (- EFAULT, s').
Proof.
  intros Hcm. unfold adf_iov_register_compat_checker. autorewrite with monad. rewrite Hcm.
  change (register_at 8 0 cc _) with
    (Some (Some (0, Some cc :: replicate 7 None)) : option (option (Z * list (option nat)))).
  autorewrite with monad. cbn [Z.leb Z.compare ADF_COMPAT_CHECKER_MAX].
  eexists. split; [done|].
  assert (∀ m, cm (get_dev sd (upd_dev sd (set_cm m) s)) = m) as Hget by by destruct sd.
  split; [by apply Hget|]. unfold adf_iov_compatibility_check, adf_iov_unregister_compat_checker.
  autorewrite with monad. rewrite Hget. done.
Qed.

(** ** A concrete channel *)

Definition no_counters : pfvf_stats := λ _, 0.
Definition ex_hw : hw_data := HwData 0x11 0x22334455 685000000.
Definition ex_vf : vf_data := VfData 0 3 0 0 0 no_counters.
Definition ex_pf_dev : accel_dev :=
  Dev ex_hw (Some (CompatManager 0 (replicate 8 None))) false
    [VfInfo false 3 no_counters true; VfInfo false 3 no_counters true] ex_vf 0 [].
Definition ex_vf_dev : accel_dev :=
  Dev (HwData 0 0 0) (Some (CompatManager 0 (replicate 8 None))) false [] ex_vf 0 [].
Definition ex_sys : sys := Sys [0; 0] ex_pf_dev ex_vf_dev 1 (replicate 28 None).

(** A far side that acknowledges at once and clears the register. *)
Definition ack_sleep (sd : side) (vf_nr : Z) : M sys () := csr_wr sd vf_nr 0.

Lemma ex_wf : wf PF 1 ex_sys.
Proof. unfold wf, idx. simpl. lia. Qed.


Lemma adf_iov_putmsg_busy_witness :
  let s := set_csrs [0; 0x6AC2] ex_sys in
  ∃ s', __adf_iov_putmsg idle_sleep PF 0x0E 1 false s = Some (- EAGAIN, s') ∧
        csrs s' = csrs s ∧ core_of s' = core_of s.
Proof.
  apply (adf_iov_putmsg_busy idle_sleep PF 1 0x0E false (set_csrs [0; 0x6AC2] ex_sys));
    [exact ex_wf|reflexivity].
Defined.

Lemma adf_iov_register_compat_checker_unused_witness :
  ∃ s', adf_iov_register_compat_checker PF 7 ex_sys = Some (0, s') ∧
    cm (get_dev PF s') = Some (CompatManager 0 (Some 7%nat :: replicate 7 None)) ∧
    adf_iov_compatibility_check (λ _ _, ADF_PF2VF_VF_INCOMPATIBLE) PF 0 s' =
      Some (ADF_PF2VF_VF_COMPATIBLE, s') ∧
    adf_iov_unregister_compat_checker PF 7 s' = Some (- EFAULT, s').
Proof.
  apply (adf_iov_register_compat_checker_unused (λ _ _, ADF_PF2VF_VF_INCOMPATIBLE) PF 7 0 ex_sys).
  reflexivity.
Defined.

End Pfvf.
