(* ===== verification/PfvfMsg.v ===== *)
(** * PF/VF messages: the requests, the handlers and the capabilities

    Models the handlers of both sides: the PF's [adf_vf2pf_req_hndl] with the
    block provider service behind it and the notifications
    ([adf_pf2vf_msg.c]), the VF's requests ([adf_vf2pf_msg.c]), its interrupt
    and tasklet ([adf_vf_isr.c]), and the exchange of capabilities
    ([adf_pf2vf_capabilities.c]).  The register and the sending of messages
    are those of [Pfvf]. *)

From S2P Require Import Prelude Pfvf.

#[local] Open Scope Z_scope.
#[local] Open Scope qat_scope.

Module PfvfMsg.
Import Pfvf.

(** ** Capabilities, the PF's block provider *)

Definition ADF_VF2PF_CAPABILITIES_V1_LENGTH := 4.
Definition ADF_VF2PF_CAPABILITIES_V2_VERSION := 2.
Definition ADF_VF2PF_CAPABILITIES_CAP_OFFSET := 4.
Definition ADF_VF2PF_CAPABILITIES_V2_LENGTH := 8.
Definition ADF_VF2PF_CAPABILITIES_V3_VERSION := 3.
Definition ADF_VF2PF_CAPABILITIES_FREQ_OFFSET := 8.
Definition ADF_VF2PF_CAPABILITIES_V3_LENGTH := 12.

(** The loop that splits a [u32] into four bytes. *)
Definition put_le32 (x : Z) : list Z :=
  (λ byte, Z.shiftr x (byte * ADF_PFVF_DATA_SHIFT) .& ADF_PFVF_DATA_MASK) <$> seqZ 0 4.

(** The buffer with its length and the block's version.  The bytes of the
    static buffer past [*length] are left out: a reader never gets to them. *)
Definition adf_pf_capabilities_msg_provider (hw : hw_data) : list Z * Z * Z :=
  let data := put_le32 (extended_dc_capabilities hw) ++ put_le32 (accel_capabilities_mask hw) in
  if negb (clock_frequency hw =? 0) then
    (data ++ put_le32 (clock_frequency hw),
     ADF_VF2PF_CAPABILITIES_V3_LENGTH, ADF_VF2PF_CAPABILITIES_V3_VERSION)
  else (data, ADF_VF2PF_CAPABILITIES_V2_LENGTH, ADF_VF2PF_CAPABILITIES_V2_VERSION).

Section handlers.
(** [run_provider p hw compat byte_num]: what provider [p] answers on a device
    with hardware data [hw], or [None] for an error; [run_checker c ver]: what
    checker [c] answers; [sleep]: see [Pfvf]; [kzalloc_ok]: whether allocations
    in interrupt context succeed. *)
Context (run_provider : nat → hw_data → Z → Z → option (list Z * Z * Z)).
Context (run_checker : nat → Z → Z).
Context (sleep : side → Z → M sys ()).
Context (kzalloc_ok : bool).

(** ** The PF's block service *)

(** The test for a payload that does not fit its message type. *)
Definition oversized (msg_type size : Z) : bool :=
  ((msg_type <=? ADF_VF2PF_MAX_SMALL_MESSAGE_TYPE) && (ADF_VF2PF_SMALL_PAYLOAD_SIZE <? size)) ||
  ((msg_type <=? ADF_VF2PF_MAX_MEDIUM_MESSAGE_TYPE) && (ADF_VF2PF_MEDIUM_PAYLOAD_SIZE <? size)) ||
  (ADF_VF2PF_LARGE_PAYLOAD_SIZE <? size).

(** The result and [*data]. *)
Definition adf_iov_block_get_data (msg_type byte_num compatibility : Z) (crc : bool)
    : M sys (Z * Z) :=
  ps <- gets pf2vf_message_providers ;;
  if Z.of_nat (length ps) <=? msg_type then ret (- EINVAL, ADF_PF2VF_INVALID_BLOCK_TYPE) else
  p <- lift (aget ps msg_type) ;;
  match p with
  | None => ret (- EINVAL, ADF_PF2VF_INVALID_BLOCK_TYPE)
  | Some p =>
    d <- gets pf_dev ;;
    match run_provider p (hw_device d) compatibility byte_num with
    | None => ret (- EINVAL, ADF_PF2VF_UNSPECIFIED_ERROR)
    | Some (buffer, size, msg_ver) =>
      if oversized msg_type size then ret (- EINVAL, ADF_PF2VF_PAYLOAD_TRUNCATED) else
      if size + ADF_VF2PF_BLOCK_DATA <=? byte_num
      then ret (- EINVAL, ADF_PF2VF_INVALID_BYTE_NUM_REQ) else
      if crc then
        crc8 <- lift (adf_pfvf_crc ADF_CRC8_INIT_VALUE [msg_ver] 1) ;;
        crc8 <- lift (adf_pfvf_crc crc8 [size] 1) ;;
        data <- lift (adf_pfvf_crc crc8 buffer (byte_num - 1)) ;;
        ret (0, data)
      else if byte_num =? 0 then ret (0, msg_ver)
      else if byte_num =? 1 then ret (0, size)
      else data <- lift (aget buffer (byte_num - 2)) ;; ret (0, data)
    end
  end.

(** ** The PF's handler of a message *)

Definition vf2pf_msgtype (msg : Z) : Z :=
  Z.shiftr (msg .& ADF_VF2PF_MSGTYPE_MASK) ADF_VF2PF_MSGTYPE_SHIFT.

(** The [switch] that takes a block request apart: [msg_type], [byte_num]. *)
Definition block_req (msg : Z) : Z * Z :=
  let fields type_mask byte_mask byte_shift min :=
    (u8 (u8 (Z.shiftr (msg .& type_mask) ADF_VF2PF_BLOCK_REQ_TYPE_SHIFT) + min),
     u8 (Z.shiftr (msg .& byte_mask) byte_shift)) in
  if vf2pf_msgtype msg =? ADF_VF2PF_MSGTYPE_GET_LARGE_BLOCK_REQ then
    fields ADF_VF2PF_LARGE_BLOCK_REQ_TYPE_MASK ADF_VF2PF_LARGE_BLOCK_BYTE_NUM_MASK
      ADF_VF2PF_LARGE_BLOCK_BYTE_NUM_SHIFT ADF_VF2PF_MIN_LARGE_MESSAGE_TYPE
  else if vf2pf_msgtype msg =? ADF_VF2PF_MSGTYPE_GET_MEDIUM_BLOCK_REQ then
    fields ADF_VF2PF_MEDIUM_BLOCK_REQ_TYPE_MASK ADF_VF2PF_MEDIUM_BLOCK_BYTE_NUM_MASK
      ADF_VF2PF_MEDIUM_BLOCK_BYTE_NUM_SHIFT ADF_VF2PF_MIN_MEDIUM_MESSAGE_TYPE
  else
    fields ADF_VF2PF_SMALL_BLOCK_REQ_TYPE_MASK ADF_VF2PF_SMALL_BLOCK_BYTE_NUM_MASK
      ADF_VF2PF_SMALL_BLOCK_BYTE_NUM_SHIFT ADF_VF2PF_MIN_SMALL_MESSAGE_TYPE.

Definition version_resp (version compat : Z) : Z :=
  ADF_PF2VF_MSGORIGIN_SYSTEM .|
  Z.shiftl ADF_PF2VF_MSGTYPE_VERSION_RESP ADF_PF2VF_MSGTYPE_SHIFT .|
  Z.shiftl version ADF_PF2VF_VERSION_RESP_VERS_SHIFT .|
  Z.shiftl compat ADF_PF2VF_VERSION_RESP_RESULT_SHIFT.

Definition block_resp (resp_type data : Z) : Z :=
  ADF_PF2VF_MSGORIGIN_SYSTEM .|
  Z.shiftl ADF_PF2VF_MSGTYPE_BLOCK_RESP ADF_PF2VF_MSGTYPE_SHIFT .|
  Z.shiftl resp_type ADF_PF2VF_BLOCK_RESP_TYPE_SHIFT .|
  Z.shiftl data ADF_PF2VF_BLOCK_RESP_DATA_SHIFT.

Definition set_compat_ver (v : Z) (i : adf_accel_vf_info) : adf_accel_vf_info :=
  VfInfo (init i) (u8 v) (info_counters i) (irq_on i).
Definition set_init (b : bool) (i : adf_accel_vf_info) : adf_accel_vf_info :=
  VfInfo b (compat_ver i) (info_counters i) (irq_on i).
Definition set_irq (b : bool) (i : adf_accel_vf_info) : adf_accel_vf_info :=
  VfInfo (init i) (compat_ver i) (info_counters i) b.

(** The [switch] on the message type: the response (0 for none) and
    [is_notification]. *)
Definition handle_req (vf_nr msg : Z) : M sys (Z * bool) :=
  let ty := vf2pf_msgtype msg in
  if ty =? ADF_VF2PF_MSGTYPE_COMPAT_VER_REQ then
    let vf_compat_ver := Z.shiftr msg ADF_VF2PF_COMPAT_VER_REQ_SHIFT in
    upd_info vf_nr (set_compat_ver vf_compat_ver) ;;
    compat <- (if vf_compat_ver <? ADF_PFVF_COMPATIBILITY_VERSION then
                 c <- adf_iov_compatibility_check run_checker PF (u8 vf_compat_ver) ;; ret (u8 c)
               else if vf_compat_ver =? ADF_PFVF_COMPATIBILITY_VERSION
               then ret ADF_PF2VF_VF_COMPATIBLE
               else ret ADF_PF2VF_VF_COMPAT_UNKNOWN) ;;
    ret (u32 (version_resp ADF_PFVF_COMPATIBILITY_VERSION compat), false)
  else if ty =? ADF_VF2PF_MSGTYPE_VERSION_REQ then
    upd_info vf_nr (set_compat_ver 0) ;;
    c <- adf_iov_compatibility_check run_checker PF 0 ;;
    ret (u32 (version_resp 0 (u8 c) .| Z.shiftl 1 ADF_PF2VF_MAJORVERSION_SHIFT
              .| Z.shiftl 1 ADF_PF2VF_MINORVERSION_SHIFT), false)
  else if ty =? ADF_VF2PF_MSGTYPE_INIT then
    upd_info vf_nr (set_init true) ;; ret (0, true)
  else if ty =? ADF_VF2PF_MSGTYPE_SHUTDOWN then
    upd_info vf_nr (set_init false) ;; ret (0, true)
  else if (ty =? ADF_VF2PF_MSGTYPE_GET_LARGE_BLOCK_REQ) ||
          (ty =? ADF_VF2PF_MSGTYPE_GET_MEDIUM_BLOCK_REQ) ||
          (ty =? ADF_VF2PF_MSGTYPE_GET_SMALL_BLOCK_REQ) then
    let '(msg_type, byte_num) := block_req msg in
    i <- info vf_nr ;;
    let crc := negb (Z.shiftr msg ADF_VF2PF_BLOCK_REQ_CRC_SHIFT =? 0) in
    when (negb crc && (byte_num =? 0)) (count PF vf_nr blk_tx) ;;
    let! (res, data) := adf_iov_block_get_data msg_type byte_num (compat_ver i) crc in
    let resp_type :=
      if negb (res =? 0) then ADF_PF2VF_BLOCK_RESP_TYPE_ERROR
      else if crc then ADF_PF2VF_BLOCK_RESP_TYPE_CRC else ADF_PF2VF_BLOCK_RESP_TYPE_DATA in
    ret (block_resp resp_type data, false)
  else ret (0, false).

Definition adf_vf2pf_req_hndl (vf_nr : Z) : M sys () :=
  msg <- csr_rd PF vf_nr ;;
  let out := upd_info vf_nr (set_irq true) in
  if msg .& ADF_VF2PF_INT =? 0 then count PF vf_nr spurious ;; out else
  count PF vf_nr rx ;;
  if msg .& ADF_VF2PF_MSGORIGIN_SYSTEM =? 0 then
    csr_wr PF vf_nr (clear msg ADF_VF2PF_INT) ;; out
  else
  let! (resp, is_notification) := handle_req vf_nr msg in
  let msg := clear msg ADF_VF2PF_INT in
  i <- info vf_nr ;;
  let msg := if (ADF_PFVF_COMPATIBILITY_FAST_ACK <=? compat_ver i) && negb is_notification
             then clear msg ADF_VF2PF_IN_USE_BY_VF_MASK else msg in
  csr_wr PF vf_nr msg ;;
  when (negb (resp =? 0)) (_r <- adf_iov_putmsg sleep PF resp vf_nr ;; ret ()) ;;
  out.

(** The two notification loops, over the PF's VFs. *)
Definition notify_all (num_vfs msg : Z) : M sys () :=
  foreach (seqZ 0 num_vfs) (λ vf_nr,
    i <- info vf_nr ;;
    when (init i) (_r <- adf_iov_notify sleep PF msg vf_nr ;; ret ())).

Definition adf_pf2vf_notify_restarting (num_vfs : Z) : M sys () :=
  notify_all num_vfs (ADF_PF2VF_MSGORIGIN_SYSTEM .|
    Z.shiftl ADF_PF2VF_MSGTYPE_RESTARTING ADF_PF2VF_MSGTYPE_SHIFT).
Definition adf_pf2vf_notify_fatal_error (num_vfs : Z) : M sys () :=
  notify_all num_vfs (ADF_PF2VF_MSGORIGIN_SYSTEM .|
    Z.shiftl ADF_PF2VF_MSGTYPE_FATAL_ERROR ADF_PF2VF_MSGTYPE_SHIFT).

(** ** The VF's interrupt *)

Definition set_version (ver compat : Z) (v : vf_data) : vf_data :=
  VfData compat ver (pf2vf_block_byte v) (pf2vf_block_resp_type v)
    (iov_msg_completion v) (vf_counters v).
Definition set_block (byte ty : Z) (v : vf_data) : vf_data :=
  VfData (compatible v) (pf_version v) byte ty (iov_msg_completion v) (vf_counters v).
Definition set_completion (n : nat) (v : vf_data) : vf_data :=
  VfData (compatible v) (pf_version v) (pf2vf_block_byte v) (pf2vf_block_resp_type v)
    n (vf_counters v).

Definition vf_modify (f : vf_data → vf_data) : M sys () := modify (upd_dev VF (upd_vf f)).
Definition complete : M sys () :=
  vf_modify (λ v, set_completion (S (iov_msg_completion v)) v).

(** The [switch] of the tasklet: [is_notification], or [None] where it jumps to
    the end without acknowledging the message. *)
Definition handle_resp (msg : Z) : M sys (option bool) :=
  let field mask shift := u8 (Z.shiftr (msg .& mask) shift) in
  let ty := Z.shiftr (msg .& ADF_PF2VF_MSGTYPE_MASK) ADF_PF2VF_MSGTYPE_SHIFT in
  if ty =? ADF_PF2VF_MSGTYPE_RESTARTING then
    modify (upd_dev VF (set_pf_running false)) ;;
    if negb kzalloc_ok then ret None else
    modify (upd_dev VF (queue_work VfStop)) ;; ret (Some true)
  else if ty =? ADF_PF2VF_MSGTYPE_VERSION_RESP then
    vf_modify (set_version
      (field ADF_PF2VF_VERSION_RESP_VERS_MASK ADF_PF2VF_VERSION_RESP_VERS_SHIFT)
      (field ADF_PF2VF_VERSION_RESP_RESULT_MASK ADF_PF2VF_VERSION_RESP_RESULT_SHIFT)) ;;
    complete ;; ret (Some false)
  else if ty =? ADF_PF2VF_MSGTYPE_BLOCK_RESP then
    vf_modify (set_block
      (field ADF_PF2VF_BLOCK_RESP_DATA_MASK ADF_PF2VF_BLOCK_RESP_DATA_SHIFT)
      (field ADF_PF2VF_BLOCK_RESP_TYPE_MASK ADF_PF2VF_BLOCK_RESP_TYPE_SHIFT)) ;;
    complete ;; ret (Some false)
  else if ty =? ADF_PF2VF_MSGTYPE_FATAL_ERROR then
    when kzalloc_ok (modify (upd_dev VF (queue_work FatalError))) ;; ret (Some true)
  else ret (Some false).

Definition adf_pf2vf_bh_handler : M sys () :=
  msg <- csr_rd VF 0 ;;
  let out := adf_enable_pf2vf_interrupts in
  if msg .& ADF_PF2VF_INT =? 0 then count VF 0 spurious ;; out else
  count VF 0 rx ;;
  if msg .& ADF_PF2VF_MSGORIGIN_SYSTEM =? 0 then
    csr_wr VF 0 (clear msg ADF_PF2VF_INT) ;; out
  else
  r <- handle_resp msg ;;
  match r with
  | None => out
  | Some is_notification =>
    let msg := clear msg ADF_PF2VF_INT in
    v <- gets (λ s, vf (vf_dev s)) ;;
    let msg := if (ADF_PFVF_COMPATIBILITY_FAST_ACK <=? pf_version v) && negb is_notification
               then clear msg ADF_PF2VF_IN_USE_BY_PF_MASK else msg in
    csr_wr VF 0 msg ;; out
  end.

Definition ADF_VINTSOU_BUN := BIT 0.
Definition ADF_VINTSOU_PF2VF := BIT 1.

(** [adf_isr] with [v_int] in the source register: the tasklets it schedules,
    that of the messages and that of the bank (whose interrupt it turns off). *)
Definition adf_isr (v_int num_ker_bundles : Z) : M sys (bool * bool) :=
  d <- gets vf_dev ;;
  let active := clear v_int (vintmsk d) in
  let pf2vf := negb (active .& ADF_VINTSOU_PF2VF =? 0) in
  when pf2vf adf_disable_pf2vf_interrupts ;;
  ret (pf2vf, (0 <? num_ker_bundles) && negb (active .& ADF_VINTSOU_BUN =? 0)).

(** ** The VF's requests *)

Definition adf_vf2pf_init : M sys Z :=
  r <- adf_iov_notify sleep VF (ADF_VF2PF_MSGORIGIN_SYSTEM .|
         Z.shiftl ADF_VF2PF_MSGTYPE_INIT ADF_VF2PF_MSGTYPE_SHIFT) 0 ;;
  if negb (r =? 0) then ret (- EFAULT) else
  modify (upd_dev VF (set_pf_running true)) ;; ret 0.

Definition adf_vf2pf_shutdown : M sys () :=
  d <- gets vf_dev ;;
  when (pf_running d)
    (_r <- adf_iov_notify sleep VF (ADF_VF2PF_MSGORIGIN_SYSTEM .|
       Z.shiftl ADF_VF2PF_MSGTYPE_SHUTDOWN ADF_VF2PF_MSGTYPE_SHIFT) 0 ;; ret ()).

(** [wait_for_completion_timeout]: whether a completion arrived. *)
Definition wait_for_completion_timeout : M sys bool :=
  v <- gets (λ s, vf (vf_dev s)) ;;
  when (Nat.eqb (iov_msg_completion v) 0) (sleep VF 0) ;;
  v <- gets (λ s, vf (vf_dev s)) ;;
  match iov_msg_completion v with
  | O => ret false
  | S n => vf_modify (set_completion n) ;; ret true
  end.

(** The [do] loop of [adf_iov_block_get_bc] and [adf_vf2pf_request_version]:
    [None] when the request could not be sent, otherwise whether a response
    was received. *)
Fixpoint request_loop (attempts : nat) (first : bool) (msg : Z) : M sys (option bool) :=
  match attempts with
  | O => ret (Some false)
  | S attempts =>
    when (negb first) (count VF 0 retry) ;;
    r <- adf_iov_putmsg sleep VF msg 0 ;;
    if negb (r =? 0) then ret None else
    received <- wait_for_completion_timeout ;;
    if received : bool then ret (Some true) else request_loop attempts false msg
  end.

(** The loop and the counting after it: [Some true] for a response. *)
Definition request (msg : Z) : M sys (option bool) :=
  r <- request_loop ADF_IOV_MSG_RESP_RETRIES true msg ;;
  match r with
  | None => ret None
  | Some received =>
    count VF 0 (if received : bool then rx_rsp else rx_timeout) ;; ret (Some received)
  end.

(** The message of a block request, or [None] for an index that is out of
    range.  An invalid type gives a message without a type. *)
Definition block_req_msg (msg_type msg_index : Z) (get_crc : bool) : option Z :=
  let msg := ADF_VF2PF_MSGORIGIN_SYSTEM .|
    (if get_crc then Z.shiftl 1 ADF_VF2PF_BLOCK_REQ_CRC_SHIFT else 0) in
  let build payload ty min byte_shift :=
    if payload + ADF_VF2PF_BLOCK_DATA <=? msg_index then None else
    Some (u32 (msg .| Z.shiftl ty ADF_VF2PF_MSGTYPE_SHIFT
               .| Z.shiftl (u8 (msg_type - min)) ADF_VF2PF_BLOCK_REQ_TYPE_SHIFT
               .| Z.shiftl msg_index byte_shift)) in
  if msg_type <=? ADF_VF2PF_MAX_SMALL_MESSAGE_TYPE then
    build ADF_VF2PF_SMALL_PAYLOAD_SIZE ADF_VF2PF_MSGTYPE_GET_SMALL_BLOCK_REQ 0
      ADF_VF2PF_SMALL_BLOCK_BYTE_NUM_SHIFT
  else if msg_type <=? ADF_VF2PF_MAX_MEDIUM_MESSAGE_TYPE then
    build ADF_VF2PF_MEDIUM_PAYLOAD_SIZE ADF_VF2PF_MSGTYPE_GET_MEDIUM_BLOCK_REQ
      ADF_VF2PF_MIN_MEDIUM_MESSAGE_TYPE ADF_VF2PF_MEDIUM_BLOCK_BYTE_NUM_SHIFT
  else if msg_type <=? ADF_VF2PF_MAX_LARGE_MESSAGE_TYPE then
    build ADF_VF2PF_LARGE_PAYLOAD_SIZE ADF_VF2PF_MSGTYPE_GET_LARGE_BLOCK_REQ
      ADF_VF2PF_MIN_LARGE_MESSAGE_TYPE ADF_VF2PF_LARGE_BLOCK_BYTE_NUM_SHIFT
  else Some msg.

(** The result, with [*data] when it is 0. *)
Definition adf_iov_block_get_bc (msg_type msg_index : Z) (get_crc : bool) : M sys (Z * Z) :=
  match block_req_msg msg_type msg_index get_crc with
  | None => ret (- EINVAL, 0)
  | Some msg =>
    r <- request msg ;;
    match r with
    | None | Some false => ret (- EIO, 0)
    | Some true =>
      v <- gets (λ s, vf (vf_dev s)) ;;
      if negb (pf2vf_block_resp_type v =?
               (if get_crc then ADF_PF2VF_BLOCK_RESP_TYPE_CRC
                else ADF_PF2VF_BLOCK_RESP_TYPE_DATA))
      then ret (- EIO, 0) else ret (0, pf2vf_block_byte v)
    end
  end.

Definition adf_iov_block_get_byte (msg_type msg_index : Z) : M sys (Z * Z) :=
  adf_iov_block_get_bc msg_type msg_index false.
Definition adf_iov_block_get_crc (msg_type msg_index : Z) : M sys (Z * Z) :=
  adf_iov_block_get_bc msg_type (u8 (msg_index - 1)) true.

(** The loop that reads the payload: [buffer] and the result. *)
Fixpoint get_payload (n : nat) (msg_type buf_index : Z) (buffer : list Z)
    : M sys (Z * list Z) :=
  match n with
  | O => ret (0, buffer)
  | S n =>
    let! (r, byte) := adf_iov_block_get_byte msg_type (u8 (buf_index + ADF_VF2PF_BLOCK_DATA)) in
    if negb (r =? 0) then ret (r, buffer) else
    buffer <- lift (aset buffer buf_index byte) ;;
    get_payload n msg_type (buf_index + 1) buffer
  end.

(** The caller's three results: [*block_version], [buffer], [*length]. *)
Definition adf_iov_block_get (msg_type version : Z) (buffer : list Z) (len : Z)
    : M sys (Z * (Z * list Z * Z)) :=
  let buf_size := len in
  if ADF_VF2PF_MAX_LARGE_MESSAGE_TYPE <? msg_type
  then ret (- EINVAL, (version, buffer, len)) else
  let! (r, v) := adf_iov_block_get_byte msg_type ADF_VF2PF_BLOCK_VERSION_BYTE in
  if negb (r =? 0) then ret (r, (version, buffer, len)) else
  let version := v in
  let! (r, v) := adf_iov_block_get_byte msg_type ADF_VF2PF_BLOCK_LEN_BYTE in
  if negb (r =? 0) then ret (r, (version, buffer, len)) else
  let len := v in
  let payload_len := if buf_size <? len then buf_size else len in
  let! (r, buffer) := get_payload (Z.to_nat payload_len) msg_type 0 buffer in
  if negb (r =? 0) then ret (r, (version, buffer, len)) else
  let! (r, remote_crc) :=
    adf_iov_block_get_crc msg_type (u8 (payload_len + ADF_VF2PF_BLOCK_DATA)) in
  if negb (r =? 0) then ret (r, (version, buffer, len)) else
  local_crc <- lift (adf_pfvf_crc ADF_CRC8_INIT_VALUE [version] 1) ;;
  local_crc <- lift (adf_pfvf_crc local_crc [len] 1) ;;
  local_crc <- lift (adf_pfvf_crc local_crc buffer payload_len) ;;
  if negb (local_crc =? remote_crc) then
    count VF 0 crc_err ;; ret (- EIO, (version, buffer, len))
  else
    count VF 0 blk_rx ;; ret (0, (version, buffer, payload_len)).

(** ** The version handshake *)

Definition adf_vf2pf_request_version : M sys Z :=
  let msg := ADF_VF2PF_MSGORIGIN_SYSTEM .|
    Z.shiftl ADF_VF2PF_MSGTYPE_COMPAT_VER_REQ ADF_VF2PF_MSGTYPE_SHIFT .|
    Z.shiftl ADF_PFVF_COMPATIBILITY_VERSION ADF_VF2PF_COMPAT_VER_REQ_SHIFT in
  r <- request msg ;;
  match r with
  | None | Some false => ret (- EIO)
  | Some true =>
    v <- gets (λ s, vf (vf_dev s)) ;;
    compat <- (if compatible v =? ADF_PF2VF_VF_COMPAT_UNKNOWN
               then adf_iov_compatibility_check run_checker VF (pf_version v)
               else ret (compatible v)) ;;
    ret (if compat =? ADF_PF2VF_VF_COMPATIBLE then 0 else - EFAULT)
  end.

(** [wq_ok]: the workqueue exists or could be allocated ([adf_init_vf_wq]). *)
Definition adf_enable_vf2pf_comms (wq_ok : bool) : M sys Z :=
  if negb wq_ok then ret (- ENOMEM) else
  adf_enable_pf2vf_interrupts ;;
  _r <- adf_iov_init_compat_manager kzalloc_ok VF ;;
  adf_vf2pf_request_version.

Definition adf_disable_vf2pf_comms : M sys Z := adf_iov_shutdown_compat_manager VF.
Definition adf_pf_enable_vf2pf_comms : M sys Z :=
  _r <- adf_iov_init_compat_manager kzalloc_ok PF ;; ret 0.
Definition adf_pf_disable_vf2pf_comms : M sys Z := adf_iov_shutdown_compat_manager PF.

(** ** Reading the capabilities *)

(** The loop that puts four bytes together: [data[index] << (byte * 8)]. *)
Definition get_le32 (data : list Z) (index : Z) : option Z :=
  foldl (λ acc byte, x ← acc; b ← aget data (index + byte);
           Some (u32 (x .| Z.shiftl b (byte * ADF_PFVF_DATA_SHIFT))))
    (Some 0) (seqZ 0 4).

(** [caps_provider]: the number of [adf_pf_capabilities_msg_provider]. *)
Definition caps_provider : nat := 0.

Definition set_hw_dev (sd : side) (h : hw_data) : M sys () := modify (upd_dev sd (set_hw h)).

Definition adf_pf_vf_capabilities_init (sd : side) : M sys Z :=
  match sd with
  | PF =>
    reg <- adf_iov_is_block_provider_registered ADF_VF2PF_BLOCK_MSG_CAP_SUMMARY ;;
    (if reg : bool then ret 0 else
     adf_iov_block_provider_register ADF_VF2PF_BLOCK_MSG_CAP_SUMMARY caps_provider) ;;
    ret 0
  | VF =>
    d <- gets vf_dev ;;
    let h := hw_device d in
    if ADF_PFVF_COMPATIBILITY_CAPABILITIES <=? pf_version (vf d) then
      let! (r, (version, data, len)) :=
        adf_iov_block_get ADF_VF2PF_BLOCK_MSG_CAP_SUMMARY ADF_VF2PF_CAPABILITIES_V2_VERSION
          (replicate 12 0) ADF_VF2PF_CAPABILITIES_V3_LENGTH in
      if negb (r =? 0) then ret (- EFAULT) else
      if len <? ADF_VF2PF_CAPABILITIES_V1_LENGTH then ret (- EFAULT) else
      ext <- lift (get_le32 data 0) ;;
      let h := HwData ext (accel_capabilities_mask h) (clock_frequency h) in
      set_hw_dev VF h ;;
      let! h := (if ADF_VF2PF_CAPABILITIES_V2_LENGTH <=? len then
                   caps <- lift (get_le32 data ADF_VF2PF_CAPABILITIES_CAP_OFFSET) ;;
                   let h := HwData ext caps (clock_frequency h) in
                   set_hw_dev VF h ;; ret h
                 else ret h) in
      (if ADF_VF2PF_CAPABILITIES_V3_LENGTH <=? len then
         freq <- lift (get_le32 data ADF_VF2PF_CAPABILITIES_FREQ_OFFSET) ;;
         set_hw_dev VF (HwData ext (accel_capabilities_mask h) freq)
       else ret ()) ;;
      ret 0
    else
      set_hw_dev VF (HwData 0 (accel_capabilities_mask h) (clock_frequency h)) ;; ret 0
  end.
End handlers.

End PfvfMsg.
