(* ===== verification/PfvfLink.v ===== *)
(** * PF/VF messages: both sides connected

    A PF and a VF that run the code of [PfvfMsg] over the register they share:
    while one sleeps in [__adf_iov_putmsg] the other takes its interrupt.  On
    this channel a request is answered at the first attempt, which gives the
    contracts of the protocol from end to end: what [adf_iov_block_get] reads
    is what the PF's provider wrote, the capabilities arrive unchanged and the
    two versions are agreed on. *)

From S2P Require Import Prelude Pfvf PfvfMsg.

#[local] Open Scope Z_scope.
#[local] Open Scope qat_scope.

Module PfvfLink.
Import Pfvf PfvfMsg.

Section link.
Context (run_provider : nat → hw_data → Z → Z → option (list Z * Z * Z)).
Context (run_checker : nat → Z → Z).

(** The VF's interrupt: asserted by bit 0 of the register. *)
Definition vf_irq : M sys () :=
  v <- csr_rd VF 0 ;;
  let! (tasklet, _) :=
    adf_isr (if v .& ADF_PF2VF_INT =? 0 then 0 else ADF_VINTSOU_PF2VF) 0 in
  when tasklet (adf_pf2vf_bh_handler true).

(** While the PF sleeps the VF takes its interrupt, and the other way round. *)
Definition pf_sleep (sd : side) (vf_nr : Z) : M sys () :=
  match sd with PF => vf_irq | VF => ret () end.

Definition pf_irq : M sys () :=
  n <- gets vf_num ;;
  v <- csr_rd PF n ;;
  when (negb (v .& ADF_VF2PF_INT =? 0)) (adf_vf2pf_req_hndl run_provider run_checker pf_sleep n).

Definition link_sleep (sd : side) (vf_nr : Z) : M sys () :=
  match sd with PF => vf_irq | VF => pf_irq end.

(** ** The state between messages *)

(** What an exchange leaves alone. *)
Record fixed := Fixed {
  f_pf : hw_data * option adf_accel_compat_manager * list (bool * Z);
  f_vf : hw_data * option adf_accel_compat_manager * bool * Z;
  f_num : Z;
  f_providers : list (option nat);
}.

Definition fixed_of (s : sys) : fixed :=
  Fixed (c_pf (core_of s)) (c_vf (core_of s)) (vf_num s) (pf2vf_message_providers s).

Definition vfd (s : sys) : vf_data := vf (vf_dev s).

(** The VF's register is free, its interrupt enabled and no response pending. *)
Definition ready (s : sys) : Prop :=
  wf PF (vf_num s) s ∧ ¬ held PF (csr_at VF 0 s) ∧ vintmsk (vf_dev s) = 0 ∧
  iov_msg_completion (vfd s) = O.

Lemma wf_vf s : wf PF (vf_num s) s → wf VF 0 s.
Proof. intros [? _]. done. Qed.

Lemma info_at s v cv :
  aget (c_pf (core_of s)).2 (vf_num s) = Some (v, cv) →
  ∃ i, aget (vf_info (pf_dev s)) (vf_num s) = Some i ∧ compat_ver i = cv.
Proof.
  unfold aget. cbn. destruct (0 <=? vf_num s); [|done].
  rewrite list_lookup_fmap. destruct (_ !! _) as [i|]; [|done]. cbn. intros [= _ <-]. by exists i.
Qed.

(** ** The VF takes a response *)

(** [resp] as the PF's handler builds it, with the fields [handle_resp] finds
    in it once it is framed. *)
Definition resp_msg (resp : Z) : bool :=
  let w := framed PF resp .| ADF_PF2VF_INT in
  let v := clear (clear w ADF_PF2VF_INT) ADF_PF2VF_IN_USE_BY_PF_MASK in
  negb (w .& ADF_PF2VF_INT =? 0) && negb (w .& ADF_PF2VF_MSGORIGIN_SYSTEM =? 0) &&
  (v .& ADF_PF2VF_INT =? 0) && (v .& ADF_VF2PF_INT =? 0) &&
  negb (v .& ADF_VF2PF_IN_USE_BY_VF_MASK =? ADF_VF2PF_IN_USE_BY_VF) && negb (resp =? 0).

(** The register once the VF has taken [resp]. *)
Definition acked (resp : Z) : Z :=
  clear (clear (framed PF resp .| ADF_PF2VF_INT) ADF_PF2VF_INT) ADF_PF2VF_IN_USE_BY_PF_MASK.

Lemma resp_facts resp :
  resp_msg resp = true →
  ((framed PF resp .| ADF_PF2VF_INT) .& ADF_PF2VF_INT =? 0) = false ∧
  ((framed PF resp .| ADF_PF2VF_INT) .& ADF_PF2VF_MSGORIGIN_SYSTEM =? 0) = false ∧
  acked resp .& int_bit PF = 0 ∧ acked resp .& int_bit VF = 0 ∧ ¬ held VF (acked resp) ∧
  (resp =? 0) = false.
Proof.
  unfold resp_msg. cbv zeta. rewrite !andb_true_iff, !negb_true_iff, !Z.eqb_eq.
  intros (((((? & ?) & ?) & ?) & Hh) & ?). split_and!; try done. by apply Z.eqb_neq.
Qed.

Definition msg5 (v : vf_data) : Z * Z * Z * Z * nat :=
  (compatible v, pf_version v, pf2vf_block_byte v, pf2vf_block_resp_type v, iov_msg_completion v).

(** The effect [g] of a response on [accel_dev->vf]. *)
Record taken (resp : Z) (g : vf_data → vf_data) (s : sys) : Prop := {
  taken_switch : ∀ s, handle_resp true (framed PF resp .| ADF_PF2VF_INT) s =
                      Some (Some false, upd_dev VF (upd_vf g) s);
  taken_counters : ∀ v v', msg5 v = msg5 v' → msg5 (g v) = msg5 (g v');
  taken_version : ADF_PFVF_COMPATIBILITY_FAST_ACK <= pf_version (g (vfd s));
}.

Lemma fixed_wf s s' :
  fixed_of s' = fixed_of s → length (csrs s') = length (csrs s) →
  wf PF (vf_num s) s → wf PF (vf_num s') s'.
Proof.
  intros E Hl [Hi Hn]. pose proof (f_equal f_num E) as En. cbn in En. rewrite En.
  split; cbn in *; [by rewrite Hl|].
  apply (f_equal (λ f, length (f_pf f).2)) in E. cbn in E. rewrite !length_fmap in E. lia.
Qed.

Lemma core_fixed s s' : core_of s' = core_of s → fixed_of s' = fixed_of s.
Proof.
  intros E. unfold fixed_of. rewrite E. f_equal.
  - by apply core_num.
  - by apply (f_equal c_providers) in E.
Qed.

Lemma core_msg5 s s' : core_of s' = core_of s → msg5 (vfd s') = msg5 (vfd s).
Proof. apply (f_equal c_msg). Qed.

Lemma msg5_version v v' : msg5 v = msg5 v' → pf_version v = pf_version v'.
Proof. by intros [= _ -> _ _ _]. Qed.

Lemma vf_irq_run resp g s :
  wf PF (vf_num s) s → vintmsk (vf_dev s) = 0 → resp_msg resp = true → taken resp g s →
  csr_at VF 0 s = framed PF resp .| ADF_PF2VF_INT →
  ∃ s', vf_irq s = Some ((), s') ∧ fixed_of s' = fixed_of s ∧
    length (csrs s') = length (csrs s) ∧ csr_at VF 0 s' = acked resp ∧
    msg5 (vfd s') = msg5 (g (vfd s)).
Proof.
  intros Hwf Hmask Hresp [Hsw Hcnt Hver] Hat. pose proof (resp_facts resp Hresp) as (Hint & Horig & _).
  unfold vf_irq. pose proof (wf_vf s Hwf) as Hv.
  rewrite (bind_Some _ _ _ _ _ (csr_rd_run _ _ _ Hv)), Hat, Hint.
  unfold adf_isr, adf_disable_pf2vf_interrupts. autorewrite with monad. rewrite Hmask.
  change (negb (clear ADF_VINTSOU_PF2VF 0 .& ADF_VINTSOU_PF2VF =? 0)) with true.
  cbn [when]. autorewrite with monad. set (s1 := upd_dev VF (set_vintmsk 2) s).
  assert (wf VF 0 s1) as Hv1 by done. assert (csr_at VF 0 s1 = csr_at VF 0 s) as Hat1 by done.
  unfold adf_pf2vf_bh_handler. cbv beta iota. cbn [when].
  rewrite (bind_Some _ _ _ _ _ (csr_rd_run _ _ _ Hv1)), Hat1, Hat, Hint, Horig.
  destruct (count_run VF 0 rx s1 Hv1) as (s2 & Hc & Hcore2 & Hcsr2).
  rewrite (bind_Some _ _ _ _ _ Hc), (bind_Some _ _ _ _ _ (Hsw s2)). autorewrite with monad.
  assert (msg5 (g (vfd s2)) = msg5 (g (vfd s))) as Hg
    by (apply Hcnt; by rewrite (core_msg5 s1 s2 Hcore2)).
  change (vf (vf_dev (upd_dev VF (upd_vf g) s2))) with (g (vfd s2)).
  rewrite (proj2 (Z.leb_le _ _)) by by rewrite (msg5_version _ _ Hg). cbn [negb andb].
  set (s3 := upd_dev VF (upd_vf g) s2).
  assert (wf VF 0 s3) as Hv3.
  { assert (wf VF 0 s2) as Hv2 by (eapply core_wf; [done|by rewrite Hcsr2|done]). done. }
  destruct (csr_wr_run VF 0 (acked resp) s3 Hv3) as (s4 & Hw & Hcore4 & Hwf4 & Hat4 & Hl4).
  change (clear (clear (framed PF resp .| ADF_PF2VF_INT) ADF_PF2VF_INT) ADF_PF2VF_IN_USE_BY_PF_MASK)
    with (acked resp).
  rewrite (bind_Some _ _ _ _ _ Hw). eexists. split; [done|].
  pose proof (core_fixed _ _ Hcore2) as F2. pose proof (core_fixed _ _ Hcore4) as F4.
  split_and!.
  - assert (∀ m s, fixed_of (upd_dev VF (set_vintmsk m) s) =
      let f := fixed_of s in Fixed (f_pf f) ((f_vf f).1, m) (f_num f) (f_providers f)) as HF by done.
    rewrite HF, F4. change (fixed_of s3) with (fixed_of s2). rewrite F2. unfold s1.
    rewrite HF. cbn. unfold fixed_of. cbn. by rewrite Hmask.
  - cbn. rewrite Hl4. unfold s3. cbn. by rewrite Hcsr2.
  - exact Hat4.
  - change (vfd (upd_dev VF (set_vintmsk 0) s4)) with (vfd s4).
    rewrite (core_msg5 _ _ Hcore4). exact Hg.
Qed.

(** ** The PF answers a request *)

(** What [handle_req] makes of the framed request [req]: the response, and the
    PF's data afterwards. *)
Definition answers (req resp : Z) (F : fixed) (s : sys) : Prop :=
  ∀ s1, core_of s1 = core_of s → length (csrs s1) = length (csrs s) →
  ∃ s2, handle_req run_provider run_checker (vf_num s) (framed VF req .| ADF_VF2PF_INT) s1 =
          Some ((resp, false), s2) ∧
        csrs s2 = csrs s1 ∧ fixed_of s2 = F ∧ msg5 (vfd s2) = msg5 (vfd s).

(** The data the exchange ends with: same registers' layout and VF, and the PF
    knows the VF for one that lets the receiver clear the register. *)
Definition after (F : fixed) (s : sys) : Prop :=
  f_num F = vf_num s ∧ f_vf F = f_vf (fixed_of s) ∧
  length (f_pf F).2 = length (vf_info (pf_dev s)) ∧
  ∃ v cv, aget (f_pf F).2 (vf_num s) = Some (v, cv) ∧ ADF_PFVF_COMPATIBILITY_FAST_ACK <= cv.

Definition req_msg (req : Z) : bool :=
  let w := framed VF req .| ADF_VF2PF_INT in
  negb (w .& ADF_VF2PF_INT =? 0) && negb (w .& ADF_VF2PF_MSGORIGIN_SYSTEM =? 0).

Lemma wf_fixed F s s' :
  after F s → fixed_of s' = F → length (csrs s') = length (csrs s) →
  wf PF (vf_num s) s → wf PF (vf_num s) s' ∧ vf_num s' = vf_num s.
Proof.
  intros (Hn & _ & Hl & _) HF Hlen [Hi Hinf]. subst F.
  split; [|done]. split; cbn in *; [by rewrite Hlen|].
  rewrite length_fmap in Hl. lia.
Qed.

Lemma upd_info_irq s i :
  aget (vf_info (pf_dev s)) (vf_num s) = Some i →
  ∃ s', upd_info (vf_num s) (set_irq true) s = Some ((), s') ∧ core_of s' = core_of s ∧
        csrs s' = csrs s.
Proof.
  intros Hi. rewrite (upd_info_run _ _ _ _ Hi). eexists. split_and!; [done| |done].
  unfold core_of. cbn. by rewrite (infos_insert _ (set_irq true) _ i).
Qed.

(** The PF's response, once its handler is done with the request. *)
Lemma pf_sends resp F g s s3 :
  wf PF (vf_num s) s → vintmsk (vf_dev s) = 0 → after F s → resp_msg resp = true →
  (∀ s1, msg5 (vfd s1) = msg5 (vfd s) → taken resp g s1) →
  fixed_of s3 = F → msg5 (vfd s3) = msg5 (vfd s) → length (csrs s3) = length (csrs s) →
  ¬ held VF (csr_at PF (vf_num s) s3) →
  ∃ s4, adf_iov_putmsg pf_sleep PF resp (vf_num s) s3 = Some (0, s4) ∧ fixed_of s4 = F ∧
    length (csrs s4) = length (csrs s) ∧ csr_at VF 0 s4 = acked resp ∧
    msg5 (vfd s4) = msg5 (g (vfd s)).
Proof.
  intros Hwf Hmask Haft Hresp Htk HF3 Hm3 Hl3 Hidle.
  destruct (wf_fixed F s s3) as [Hwf3 Hnum3]; [done..|].
  apply adf_iov_putmsg_taken; [done|done|]. intros s' Hcore' Hlen' Hat'.
  pose proof (core_fixed _ _ Hcore') as HF'. rewrite HF3 in HF'.
  pose proof (core_msg5 _ _ Hcore') as Hm'. rewrite Hm3 in Hm'. rewrite Hl3 in Hlen'.
  destruct (wf_fixed F s s') as [Hwf' Hnum']; [done..|].
  assert (csr_at VF 0 s' = csr_at PF (vf_num s) s') as HatV.
  { unfold csr_at, idx. by rewrite Hnum'. }
  destruct (vf_irq_run resp g s') as (s5 & Hirq & HF5 & Hl5 & Hat5 & Hm5).
  - by rewrite Hnum'.
  - rewrite <- Hmask. destruct Haft as (_ & Hfvf & _).
    apply (f_equal (λ F, (f_vf F).2)) in HF'. cbn in HF'. rewrite HF', Hfvf. done.
  - done.
  - by apply Htk.
  - by rewrite HatV, Hat'.
  - exists s5. split; [done|]. rewrite HF' in HF5. rewrite Hlen' in Hl5.
    destruct (wf_fixed F s s5) as [Hwf5 Hnum5]; [done..|].
    assert (csr_at PF (vf_num s) s5 = acked resp) as Hat5'.
    { rewrite <- Hat5. unfold csr_at, idx. by rewrite Hnum5. }
    split_and!; [done| | |done|done|done|].
    + rewrite Hat5'. by apply resp_facts.
    + rewrite Hat5'. exact (clear_local PF _).
    + rewrite Hm5. destruct (Htk s' Hm') as [_ Hcnt _]. by apply Hcnt.
Qed.

(** The compatibility version the PF reads when it acknowledges the request. *)
Lemma fixed_info F s s' :
  after F s → fixed_of s' = F → vf_num s' = vf_num s →
  ∃ i, aget (vf_info (pf_dev s')) (vf_num s) = Some i ∧
       ADF_PFVF_COMPATIBILITY_FAST_ACK <= compat_ver i.
Proof.
  intros (_ & _ & _ & v & cv & Hinfo & Hcv) HF Hnum.
  destruct (info_at s' v cv) as (i & Hi & Hicv).
  { rewrite Hnum, <- Hinfo, <- HF. done. }
  exists i. rewrite <- Hnum. by rewrite Hicv.
Qed.

Lemma pf_irq_run req resp F g s :
  wf PF (vf_num s) s → vintmsk (vf_dev s) = 0 →
  csr_at VF 0 s = framed VF req .| ADF_VF2PF_INT → req_msg req = true →
  answers req resp F s → after F s → resp_msg resp = true →
  (∀ s1, msg5 (vfd s1) = msg5 (vfd s) → taken resp g s1) →
  ∃ s', pf_irq s = Some ((), s') ∧ fixed_of s' = F ∧ length (csrs s') = length (csrs s) ∧
    csr_at VF 0 s' = acked resp ∧ msg5 (vfd s') = msg5 (g (vfd s)).
Proof.
  intros Hwf Hmask Hat Hreq Hans Haft Hresp Htk. pose proof Hreq as Hreq'.
  apply andb_true_iff in Hreq' as [Hint%negb_true_iff Horig%negb_true_iff].
  assert (csr_at PF (vf_num s) s = csr_at VF 0 s) as HatPF by done.
  unfold pf_irq. autorewrite with monad.
  rewrite (bind_Some _ _ _ _ _ (csr_rd_run _ _ _ Hwf)), HatPF, Hat, Hint. cbn [negb when].
  unfold adf_vf2pf_req_hndl.
  rewrite (bind_Some _ _ _ _ _ (csr_rd_run _ _ _ Hwf)), HatPF, Hat, Hint, Horig.
  destruct (count_run PF (vf_num s) rx s Hwf) as (s1 & Hc1 & Hcore1 & Hcsr1).
  rewrite (bind_Some _ _ _ _ _ Hc1).
  destruct (Hans s1 Hcore1 ltac:(by rewrite Hcsr1)) as (s2 & Hh & Hcsr2 & HF2 & Hm2). rewrite Hcsr1 in Hcsr2.
  rewrite (bind_Some _ _ _ _ _ Hh). cbv beta iota.
  destruct (wf_fixed F s s2) as [Hwf2 Hnum2]; [done..|by rewrite Hcsr2|done|].
  destruct (fixed_info F s s2) as (i & Hi & Hcv); [done..|].
  unfold info at 1. autorewrite with monad. rewrite Hi. autorewrite with monad.
  rewrite (proj2 (Z.leb_le _ _)) by done. cbn [negb andb].
  destruct (csr_wr_run PF (vf_num s) (clear (clear (framed VF req .| ADF_VF2PF_INT) ADF_VF2PF_INT)
    ADF_VF2PF_IN_USE_BY_VF_MASK) s2 Hwf2) as (s3 & Hw & Hcore3 & _ & Hat3 & Hl3).
  rewrite (bind_Some _ _ _ _ _ Hw).
  assert (resp =? 0 = false) as -> by by apply resp_facts.
  cbn [negb when].
  destruct (pf_sends resp F g s s3) as (s4 & Hput & HF4 & Hl4 & Hat4 & Hm4); try done.
  { by rewrite (core_fixed _ _ Hcore3). }
  { by rewrite (core_msg5 _ _ Hcore3). }
  { by rewrite Hl3, Hcsr2. }
  { rewrite Hat3. exact (clear_local VF _). }
  rewrite bind_assoc, (bind_Some _ _ _ _ _ Hput). autorewrite with monad.
  destruct (wf_fixed F s s4) as [_ Hnum4]; [done..|].
  destruct (fixed_info F s s4) as (i4 & Hi4 & _); [done..|].
  rewrite <- Hnum4 in Hi4 |- *.
  destruct (upd_info_irq s4 i4 Hi4) as (s5 & Hirq & Hcore5 & Hcsr5).
  exists s5. split; [done|]. split_and!.
  - by rewrite (core_fixed _ _ Hcore5).
  - by rewrite Hcsr5.
  - by rewrite (csr_at_core _ _ s4).
  - by rewrite (core_msg5 _ _ Hcore5).
Qed.

(** ** A request and its response *)

Definition completed (g : vf_data → vf_data) (v : vf_data) : vf_data :=
  set_completion (S (iov_msg_completion v)) (g v).

Lemma after_core F s s' : core_of s' = core_of s → after F s → after F s'.
Proof.
  intros E. unfold after. rewrite (core_num _ _ E), (core_infos _ _ E), (core_fixed _ _ E). done.
Qed.

Lemma wait_run sleep n s :
  iov_msg_completion (vfd s) = S n →
  wait_for_completion_timeout sleep s = Some (true, upd_dev VF (upd_vf (set_completion n)) s).
Proof.
  unfold vfd. intros E. unfold wait_for_completion_timeout. autorewrite with monad.
  rewrite E. cbn [Nat.eqb when]. autorewrite with monad. by rewrite E.
Qed.

Lemma request_loop_first sleep n req s s1 s2 :
  adf_iov_putmsg sleep VF req 0 s = Some (0, s1) →
  wait_for_completion_timeout sleep s1 = Some (true, s2) →
  request_loop sleep (S n) true req s = Some (Some true, s2).
Proof.
  intros H1 H2. cbn [request_loop negb when]. autorewrite with monad.
  rewrite (bind_Some _ _ _ _ _ H1). cbn [Z.eqb negb]. by rewrite (bind_Some _ _ _ _ _ H2).
Qed.

(** The VF sends a request on a free channel: it is answered while it sleeps. *)
Lemma vf_sends req resp F g s :
  ready s → req_msg req = true → answers req resp F s → after F s → resp_msg resp = true →
  (∀ s1, msg5 (vfd s1) = msg5 (vfd s) → taken resp g s1) →
  ∃ s', adf_iov_putmsg link_sleep VF req 0 s = Some (0, s') ∧ fixed_of s' = F ∧
    length (csrs s') = length (csrs s) ∧ csr_at VF 0 s' = acked resp ∧
    msg5 (vfd s') = msg5 (g (vfd s)).
Proof.
  intros (Hwf & Hidle & Hmask & Hdone) Hreq Hans Haft Hresp Htk.
  apply adf_iov_putmsg_taken; [by apply wf_vf|exact Hidle|].
  intros s1 Hcore Hlen Hat1. pose proof (core_fixed _ _ Hcore) as HFs.
  pose proof (core_num _ _ Hcore) as Hnum. pose proof (core_msg5 _ _ Hcore) as Hm1.
  destruct (pf_irq_run req resp F g s1) as (s2 & Hirq & HF2 & Hl2 & Hat2 & Hm2); try done.
  - by eapply fixed_wf.
  - rewrite <- Hmask. by apply (f_equal (λ F, (f_vf F).2)) in HFs.
  - intros s2 Hcore2 Hlen2. rewrite Hnum, Hm1. apply Hans; [by rewrite Hcore2|by rewrite Hlen2].
  - by eapply after_core.
  - intros s2 Hm2. apply Htk. by rewrite Hm2.
  - rewrite Hlen in Hl2. exists s2.
    destruct (wf_fixed F s s2) as [Hwf2 Hnum2]; [done..|].
    split_and!; [done|rewrite <- Hnum2 in Hwf2; by apply wf_vf| | |done..|].
    + rewrite Hat2. by apply resp_facts.
    + rewrite Hat2. by apply resp_facts.
    + rewrite Hm2. destruct (Htk s ltac:(done)) as [_ Hcnt _]. by apply Hcnt.
Qed.

(** On a free channel a request is answered at the first attempt, and leaves
    the channel free. *)
Lemma request_run req resp F g s :
  ready s → req_msg req = true → answers req resp F s → after F s → resp_msg resp = true →
  (∀ v, iov_msg_completion (g v) = iov_msg_completion v) →
  (∀ s1, msg5 (vfd s1) = msg5 (vfd s) → taken resp (completed g) s1) →
  ∃ s', request link_sleep req s = Some (Some true, s') ∧ ready s' ∧ fixed_of s' = F ∧
    msg5 (vfd s') = msg5 (g (vfd s)).
Proof.
  intros Hready Hreq Hans Haft Hresp Hg Htk.
  destruct (vf_sends req resp F (completed g) s) as (s1 & Hput & HF & Hl & Hat & Hm);
    [done..|].
  destruct Hready as (Hwf & Hidle & Hmask & Hdone).
  destruct (wf_fixed F s s1) as [Hwf1 Hnum1]; [done..|].
  assert (iov_msg_completion (vfd s1) = 1%nat) as Hc1.
  { apply (f_equal snd) in Hm. cbn in Hm. by rewrite Hm, Hdone. }
  pose proof (request_loop_first link_sleep 4 req s _ _ Hput (wait_run link_sleep 0 s1 Hc1)) as Hloop.
  set (s2 := upd_dev VF (upd_vf (set_completion 0)) s1) in *.
  destruct (count_run VF 0 rx_rsp s2) as (s3 & Hc & Hcore3 & Hcsr3).
  { rewrite <- Hnum1 in Hwf1. by apply wf_vf in Hwf1. }
  unfold request. change ADF_IOV_MSG_RESP_RETRIES with 5%nat.
  rewrite (bind_Some _ _ _ _ _ Hloop), (bind_Some _ _ _ _ _ Hc).
  exists s3. pose proof (core_fixed _ _ Hcore3) as HF3. change (fixed_of s2) with (fixed_of s1) in HF3.
  rewrite HF in HF3. pose proof (core_msg5 _ _ Hcore3) as Hm3.
  assert (length (csrs s3) = length (csrs s)) as Hl3 by (rewrite Hcsr3; done).
  destruct (wf_fixed F s s3) as [Hwf3 Hnum3]; [done..|].
  split_and!; [done| |done|].
  - split_and!.
    + by rewrite Hnum3.
    + rewrite (csr_at_core VF 0 s2 s3) by done. change (csr_at VF 0 s2) with (csr_at VF 0 s1).
      rewrite Hat. exact (clear_local PF _).
    + destruct Haft as (_ & Hfvf & _). rewrite <- Hmask.
      apply (f_equal (λ F, (f_vf F).2)) in HF3. cbn in HF3. by rewrite HF3, Hfvf.
    + apply (f_equal snd) in Hm3. exact Hm3.
  - rewrite Hm3. change (vfd s2) with (set_completion 0 (vfd s1)).
    injection Hm as E1 E2 E3 E4 _. unfold msg5. cbn. rewrite E1, E2, E3, E4, Hg, Hdone. done.
Qed.

(** ** Block messages *)

(** The largest payload of a message type. *)
Definition payload_limit (msg_type : Z) : Z :=
  if msg_type <=? ADF_VF2PF_MAX_SMALL_MESSAGE_TYPE then ADF_VF2PF_SMALL_PAYLOAD_SIZE
  else if msg_type <=? ADF_VF2PF_MAX_MEDIUM_MESSAGE_TYPE then ADF_VF2PF_MEDIUM_PAYLOAD_SIZE
  else ADF_VF2PF_LARGE_PAYLOAD_SIZE.

(** The PF decodes the framed request to what the VF encoded. *)
Definition request_decodes (msg_type index : Z) (crc : bool) : bool :=
  match block_req_msg msg_type index crc with
  | None => false
  | Some req =>
    let w := framed VF req .| ADF_VF2PF_INT in
    req_msg req &&
    ((vf2pf_msgtype w =? ADF_VF2PF_MSGTYPE_GET_LARGE_BLOCK_REQ) ||
     (vf2pf_msgtype w =? ADF_VF2PF_MSGTYPE_GET_MEDIUM_BLOCK_REQ) ||
     (vf2pf_msgtype w =? ADF_VF2PF_MSGTYPE_GET_SMALL_BLOCK_REQ)) &&
    bool_decide (block_req w = (msg_type, index)) &&
    Bool.eqb (negb (Z.shiftr w ADF_VF2PF_BLOCK_REQ_CRC_SHIFT =? 0)) crc
  end.

Lemma request_decodes_ok msg_type index crc :
  0 <= msg_type <= ADF_VF2PF_MAX_LARGE_MESSAGE_TYPE →
  0 <= index < payload_limit msg_type + ADF_VF2PF_BLOCK_DATA →
  request_decodes msg_type index crc = true.
Proof.
  intros Ht Hi.
  assert (forallb (λ t, forallb (λ i, request_decodes t i true && request_decodes t i false)
    (seqZ 0 (payload_limit t + ADF_VF2PF_BLOCK_DATA))) (seqZ 0 28) = true) as H
    by (vm_compute; reflexivity).
  rewrite forallb_forall in H. specialize (H msg_type). rewrite forallb_forall in H.
  assert (request_decodes msg_type index true && request_decodes msg_type index false = true)
    as [? ?]%andb_true_iff.
  { apply H; apply list_elem_of_In, elem_of_seqZ; [|lia].
    change ADF_VF2PF_MAX_LARGE_MESSAGE_TYPE with 27 in Ht. lia. }
  by destruct crc.
Qed.

(** The VF decodes the framed response to what the PF encoded. *)
Definition response_decodes (ty data : Z) : bool :=
  let resp := block_resp ty data in
  let w := framed PF resp .| ADF_PF2VF_INT in
  resp_msg resp &&
  (Z.shiftr (w .& ADF_PF2VF_MSGTYPE_MASK) ADF_PF2VF_MSGTYPE_SHIFT =?
     ADF_PF2VF_MSGTYPE_BLOCK_RESP) &&
  (u8 (Z.shiftr (w .& ADF_PF2VF_BLOCK_RESP_DATA_MASK) ADF_PF2VF_BLOCK_RESP_DATA_SHIFT) =? data) &&
  (u8 (Z.shiftr (w .& ADF_PF2VF_BLOCK_RESP_TYPE_MASK) ADF_PF2VF_BLOCK_RESP_TYPE_SHIFT) =? ty).

Lemma response_decodes_ok ty data : 0 <= ty < 3 → byte_ok data → response_decodes ty data = true.
Proof.
  intros Ht Hd.
  refine (all_bytes (λ d, response_decodes ty d) _ data Hd).
  assert (ty = 0 ∨ ty = 1 ∨ ty = 2) as [-> | [-> | ->]] by lia; vm_compute; reflexivity.
Qed.

Lemma block_resp_taken ty data s :
  0 <= ty < 3 → byte_ok data → ADF_PFVF_COMPATIBILITY_FAST_ACK <= pf_version (vfd s) →
  resp_msg (block_resp ty data) = true ∧
  taken (block_resp ty data) (completed (set_block data ty)) s.
Proof.
  intros Ht Hd Hver. pose proof (response_decodes_ok ty data Ht Hd) as H.
  unfold response_decodes in H. cbv zeta in H. rewrite !andb_true_iff, !Z.eqb_eq in H.
  destruct H as (((Hmsg & Hty) & Hdata) & Htype). split; [done|]. split; [| |done].
  - intros s1. unfold handle_resp. cbv zeta. rewrite Hty, Hdata, Htype.
    cbn [Z.eqb Pos.eqb ADF_PF2VF_MSGTYPE_BLOCK_RESP ADF_PF2VF_MSGTYPE_RESTARTING
      ADF_PF2VF_MSGTYPE_VERSION_RESP]. done.
  - intros v v' [= E1 E2 E3 E4 E5]. unfold msg5. cbn. by rewrite E1, E2, E5.
Qed.

(** A provider is registered for [msg_type], and whatever it is asked answers
    with version [ver] and the payload [buf], of a size its type allows. *)
Record provides (F : fixed) (msg_type ver : Z) (buf : list Z) : Prop := {
  pv_type : 0 <= msg_type <= ADF_VF2PF_MAX_LARGE_MESSAGE_TYPE;
  pv_provider : ∃ p, aget (f_providers F) msg_type = Some (Some p) ∧
    ∀ compat n, run_provider p (f_pf F).1.1 compat n = Some (buf, Z.of_nat (length buf), ver);
  pv_size : Z.of_nat (length buf) <= payload_limit msg_type;
  pv_buf : bytes_ok buf;
  pv_ver : byte_ok ver;
}.

(** What a block request reads: a byte of the block, or the CRC of what comes
    before it. *)
Definition block_byte (ver : Z) (buf : list Z) (index : Z) : Z :=
  default 0 (aget (ver :: Z.of_nat (length buf) :: buf) index).
Definition block_crc (ver : Z) (buf : list Z) (n : nat) : Z :=
  foldl crc8_byte ADF_CRC8_INIT_VALUE (ver :: Z.of_nat (length buf) :: take n buf).
Definition block_data (ver : Z) (buf : list Z) (index : Z) (crc : bool) : Z :=
  if crc then block_crc ver buf (Z.to_nat (index - 1)) else block_byte ver buf index.

Lemma payload_limit_byte msg_type : 30 <= payload_limit msg_type <= 126.
Proof. unfold payload_limit. repeat case_match; split; apply Z.leb_le; reflexivity. Qed.

Lemma oversized_limit msg_type size :
  0 <= msg_type → size <= payload_limit msg_type → oversized msg_type size = false.
Proof.
  unfold oversized, payload_limit. intros Ht.
  destruct (Z.leb_spec msg_type ADF_VF2PF_MAX_SMALL_MESSAGE_TYPE) as [H1|H1],
    (Z.leb_spec msg_type ADF_VF2PF_MAX_MEDIUM_MESSAGE_TYPE) as [H2|H2]; intros Hs;
    cbn [andb orb]; rewrite ?orb_false_iff, ?Z.ltb_ge;
    change ADF_VF2PF_MAX_SMALL_MESSAGE_TYPE with 15 in *;
    change ADF_VF2PF_MAX_MEDIUM_MESSAGE_TYPE with 23 in *;
    change ADF_VF2PF_SMALL_PAYLOAD_SIZE with 30 in *;
    change ADF_VF2PF_MEDIUM_PAYLOAD_SIZE with 62 in *;
    change ADF_VF2PF_LARGE_PAYLOAD_SIZE with 126 in *; lia.
Qed.

Lemma crc_block ver buf n :
  byte_ok ver → bytes_ok buf → Z.of_nat (length buf) <= 126 → (n <= length buf)%nat →
  ∃ c1 c2, adf_pfvf_crc ADF_CRC8_INIT_VALUE [ver] 1 = Some c1 ∧
    adf_pfvf_crc c1 [Z.of_nat (length buf)] 1 = Some c2 ∧ byte_ok c2 ∧
    foldl crc8_byte c2 (take n buf) = block_crc ver buf n.
Proof.
  intros Hv Hb Hs Hn.
  assert (byte_ok (Z.of_nat (length buf))) as Hl by (unfold byte_ok; lia).
  assert (byte_ok ADF_CRC8_INIT_VALUE) as Hi by (unfold byte_ok, ADF_CRC8_INIT_VALUE; lia).
  destruct (crc_spec ADF_CRC8_INIT_VALUE [ver] 1) as [-> H1]; [by apply Forall_singleton|done|lia|
    simpl; lia|].
  destruct (crc_spec (foldl crc8_byte ADF_CRC8_INIT_VALUE (take (Z.to_nat 1) [ver]))
    [Z.of_nat (length buf)] 1) as [E2 H2]; [by apply Forall_singleton|done|lia|simpl; lia|].
  eexists _, _. split_and!; [done|exact E2|done|done].
Qed.

Lemma get_data_run F msg_type ver buf index compat crc s :
  fixed_of s = F → provides F msg_type ver buf →
  Zb crc <= index < Z.of_nat (length buf) + ADF_VF2PF_BLOCK_DATA →
  adf_iov_block_get_data run_provider msg_type index compat crc s =
    Some ((0, block_data ver buf index crc), s).
Proof.
  intros HF [Ht (p & Hp & Hrun) Hsize Hbuf Hver] Hi. rewrite <- HF in Hp, Hrun. cbn in Hp, Hrun.
  pose proof (payload_limit_byte msg_type).
  change ADF_VF2PF_BLOCK_DATA with 2 in *. unfold adf_iov_block_get_data.
  autorewrite with monad. pose proof (aget_Some _ _ _ Hp).
  rewrite (proj2 (Z.leb_gt _ _)) by lia. rewrite Hp. autorewrite with monad.
  rewrite Hrun, oversized_limit by lia. change ADF_VF2PF_BLOCK_DATA with 2.
  rewrite (proj2 (Z.leb_gt _ _)) by lia.
  unfold block_data. destruct crc; cbn [Zb] in Hi.
  - destruct (crc_block ver buf (Z.to_nat (index - 1))) as (c1 & c2 & H1 & H2 & Hc2 & H3);
      [done|done|lia|lia|].
    rewrite H1. autorewrite with monad. rewrite H2. autorewrite with monad.
    destruct (crc_spec c2 buf (index - 1)) as [-> _]; [done|done|lia|lia|].
    autorewrite with monad. by rewrite H3.
  - unfold block_byte. destruct (Z.eqb_spec index 0) as [->|]; [done|].
    destruct (Z.eqb_spec index 1) as [->|]; [done|].
    destruct (aget_is_Some buf (index - 2)) as [x Hx]; [lia|]. rewrite Hx. autorewrite with monad.
    unfold aget in *. rewrite (proj2 (Z.leb_le 0 index)) by lia.
    rewrite (proj2 (Z.leb_le 0 (index - 2))) in Hx by lia.
    replace (Z.to_nat index) with (S (S (Z.to_nat (index - 2)))) by lia.
    assert ((ver :: Z.of_nat (length buf) :: buf) !! S (S (Z.to_nat (index - 2))) = Some x) as ->
      by exact Hx. done.
Qed.

Lemma block_data_byte ver buf index crc :
  byte_ok ver → bytes_ok buf → Z.of_nat (length buf) <= 126 →
  byte_ok (block_data ver buf index crc).
Proof.
  intros Hv Hb Hs.
  assert (byte_ok (Z.of_nat (length buf))) as Hl by (unfold byte_ok; lia).
  unfold block_data. destruct crc.
  - apply crc8_fold_ok; [|unfold byte_ok, ADF_CRC8_INIT_VALUE; lia].
    apply Forall_cons_2; [done|]. apply Forall_cons_2; [done|]. by apply Forall_take.
  - unfold block_byte. destruct (aget _ index) as [x|] eqn:E; [|by unfold byte_ok; simpl; lia].
    unfold aget in E. destruct (0 <=? index); [|done].
    refine (Forall_lookup_1 byte_ok _ _ _ _ E).
    apply Forall_cons_2; [done|]. by apply Forall_cons_2.
Qed.

(** A free channel between two sides that know each other, with fixed data [F]. *)
Definition linked (F : fixed) (s : sys) : Prop :=
  ready s ∧ fixed_of s = F ∧
  (∃ v cv, aget (f_pf F).2 (f_num F) = Some (v, cv) ∧ ADF_PFVF_COMPATIBILITY_FAST_ACK <= cv) ∧
  ADF_PFVF_COMPATIBILITY_FAST_ACK <= pf_version (vfd s).

Lemma linked_after F s : linked F s → after F s.
Proof.
  intros (_ & <- & Hcv & _). unfold after. cbn in *. by rewrite length_fmap.
Qed.

Lemma linked_core F s s' :
  core_of s' = core_of s → csrs s' = csrs s → linked F s → linked F s'.
Proof.
  intros Hcore Hcsr ((Hwf & Hidle & Hmask & Hdone) & HF & Hcv & Hver).
  pose proof (core_fixed _ _ Hcore) as HFs. pose proof (core_msg5 _ _ Hcore) as Hm.
  split_and!; [split_and!|by rewrite HFs|done|].
  - eapply fixed_wf; [done|by rewrite Hcsr|done].
  - by rewrite (csr_at_core _ _ s).
  - rewrite <- Hmask. by apply (f_equal (λ F, (f_vf F).2)) in HFs.
  - rewrite <- Hdone. by apply (f_equal snd) in Hm.
  - by rewrite (msg5_version _ _ Hm).
Qed.

Definition resp_type_of (crc : bool) : Z :=
  if crc then ADF_PF2VF_BLOCK_RESP_TYPE_CRC else ADF_PF2VF_BLOCK_RESP_TYPE_DATA.

Lemma answers_block F msg_type ver buf index crc req s :
  linked F s → wf PF (vf_num s) s → provides F msg_type ver buf →
  Zb crc <= index < Z.of_nat (length buf) + ADF_VF2PF_BLOCK_DATA →
  block_req_msg msg_type index crc = Some req →
  req_msg req = true ∧
  answers req (block_resp (resp_type_of crc) (block_data ver buf index crc)) F s.
Proof.
  intros Hlink Hwf Hpv Hi Hreq. pose proof (pv_type _ _ _ _ Hpv) as Ht.
  pose proof (pv_size _ _ _ _ Hpv) as Hsz.
  pose proof (request_decodes_ok msg_type index crc Ht ltac:(destruct crc; cbn [Zb] in Hi; lia)) as H.
  unfold request_decodes in H. rewrite Hreq in H. cbv zeta in H.
  rewrite !andb_true_iff, bool_decide_eq_true, Bool.eqb_true_iff in H.
  destruct H as (((Hmsg & Hty) & Hdec) & Hcrc). split; [done|].
  intros s1 Hcore Hlen. pose proof (core_num _ _ Hcore) as Hnum.
  assert (wf PF (vf_num s) s1) as Hwf1 by (by eapply core_wf).
  unfold handle_req. cbv zeta. rewrite Hty, Hdec, Hcrc.
  assert (∀ n, (n =? ADF_VF2PF_MSGTYPE_GET_LARGE_BLOCK_REQ)
      || (n =? ADF_VF2PF_MSGTYPE_GET_MEDIUM_BLOCK_REQ)
      || (n =? ADF_VF2PF_MSGTYPE_GET_SMALL_BLOCK_REQ) = true →
    (n =? ADF_VF2PF_MSGTYPE_COMPAT_VER_REQ) = false ∧ (n =? ADF_VF2PF_MSGTYPE_VERSION_REQ) = false ∧
    (n =? ADF_VF2PF_MSGTYPE_INIT) = false ∧ (n =? ADF_VF2PF_MSGTYPE_SHUTDOWN) = false) as Hothers.
  { intros n. rewrite !orb_true_iff, !Z.eqb_eq. by intros [[-> | ->] | ->]. }
  destruct (Hothers _ Hty) as (-> & -> & -> & ->).
  destruct (fixed_info F s s1) as (i & Hinfo & _);
    [by apply linked_after|by rewrite (core_fixed _ _ Hcore); apply Hlink|done|].
  unfold info. autorewrite with monad. rewrite Hinfo. autorewrite with monad.
  assert (∃ s2, when (negb crc && (index =? 0)) (count PF (vf_num s) blk_tx) s1 = Some ((), s2) ∧
    core_of s2 = core_of s1 ∧ csrs s2 = csrs s1) as (s2 & Hc & Hcore2 & Hcsr2).
  { destruct (negb crc && (index =? 0)); [by apply count_run|by exists s1]. }
  rewrite (bind_Some _ _ _ _ _ Hc).
  assert (fixed_of s2 = F) as HF2.
  { rewrite (core_fixed _ _ Hcore2), (core_fixed _ _ Hcore). apply Hlink. }
  rewrite (bind_Some _ _ _ _ _ (get_data_run F msg_type ver buf index _ crc s2 HF2 Hpv Hi)).
  cbn [Z.eqb negb]. exists s2. split_and!; [by destruct crc|done|done|].
  by rewrite (core_msg5 _ _ Hcore2), (core_msg5 _ _ Hcore).
Qed.

(** A block request on the linked channel. *)
Lemma get_bc_run F msg_type ver buf index crc s :
  linked F s → provides F msg_type ver buf →
  Zb crc <= index < Z.of_nat (length buf) + ADF_VF2PF_BLOCK_DATA →
  ∃ s', adf_iov_block_get_bc link_sleep msg_type index crc s =
          Some ((0, block_data ver buf index crc), s') ∧ linked F s'.
Proof.
  intros Hlink Hpv Hi. pose proof (pv_type _ _ _ _ Hpv) as Ht.
  pose proof (pv_size _ _ _ _ Hpv) as Hsz. pose proof (payload_limit_byte msg_type).
  pose proof (block_data_byte ver buf index crc (pv_ver _ _ _ _ Hpv) (pv_buf _ _ _ _ Hpv)
    ltac:(lia)) as Hbyte.
  pose proof (request_decodes_ok msg_type index crc Ht ltac:(destruct crc; cbn [Zb] in Hi; lia)) as H0.
  unfold adf_iov_block_get_bc. unfold request_decodes in H0.
  destruct (block_req_msg msg_type index crc) as [req|] eqn:Hreq; [clear H0|done].
  pose proof Hlink as (Hready & HF & Hcv & Hver).
  destruct (answers_block F msg_type ver buf index crc req s) as [Hmsg Hans]; [done|apply Hready|done..|].
  assert (0 <= resp_type_of crc < 3) as Hty by by destruct crc.
  destruct (request_run req _ F (set_block (block_data ver buf index crc) (resp_type_of crc)) s
    Hready Hmsg Hans (linked_after F s Hlink)) as (s1 & Hrun & Hready1 & HF1 & Hm1).
  - by eapply block_resp_taken.
  - done.
  - intros s1 Hm1. apply block_resp_taken; [done..|]. by rewrite (msg5_version _ _ Hm1).
  - rewrite (bind_Some _ _ _ _ _ Hrun). autorewrite with monad.
    injection Hm1 as E1 E2 E3 E4 _. change (vf (vf_dev s1)) with (vfd s1). rewrite E3, E4.
    change (if crc then ADF_PF2VF_BLOCK_RESP_TYPE_CRC else ADF_PF2VF_BLOCK_RESP_TYPE_DATA)
      with (resp_type_of crc).
    cbn [pf2vf_block_resp_type pf2vf_block_byte set_block]. rewrite Z.eqb_refl. cbn [negb].
    exists s1. split; [done|]. split_and!; [done..|]. by rewrite E2.
Qed.

(** ** A whole block *)

Lemma crc_bytes_app n c l r :
  n = length l → crc_bytes n c (l ++ r) = crc_bytes n c l.
Proof.
  intros ->. revert c. induction l as [|b l IH]; intros c; simpl; [by destruct r|].
  destruct (aget _ _); simpl; [apply IH|done].
Qed.

(** Reading byte by byte, the buffer ahead of [k] holds the payload. *)
Lemma get_payload_run F msg_type ver buf buffer n k s :
  linked F s → provides F msg_type ver buf →
  (k + n <= length buf)%nat → (k + n <= length buffer)%nat →
  ∃ s', get_payload link_sleep n msg_type (Z.of_nat k) (take k buf ++ drop k buffer) s =
          Some ((0, take (k + n) buf ++ drop (k + n) buffer), s') ∧ linked F s'.
Proof.
  revert k s. induction n as [|n IH]; intros k s Hlink Hpv Hk Hl; cbn [get_payload].
  { rewrite Nat.add_0_r. by exists s. }
  pose proof (pv_size _ _ _ _ Hpv). pose proof (payload_limit_byte msg_type).
  change ADF_VF2PF_BLOCK_DATA with 2. rewrite (wrap_small 8) by lia.
  destruct (get_bc_run F msg_type ver buf (Z.of_nat k + 2) false s) as (s1 & Hrun & Hlink1);
    [done..|cbn [Zb]; change ADF_VF2PF_BLOCK_DATA with 2; lia|].
  unfold adf_iov_block_get_byte. rewrite (bind_Some _ _ _ _ _ Hrun). cbn [Z.eqb negb].
  destruct (lookup_lt_is_Some_2 buf k) as [x Hx]; [lia|].
  assert (block_data ver buf (Z.of_nat k + 2) false = x) as ->.
  { unfold block_data, block_byte, aget. rewrite (proj2 (Z.leb_le _ _)) by lia.
    replace (Z.to_nat (Z.of_nat k + 2)) with (S (S k)) by lia.
    assert ((ver :: Z.of_nat (length buf) :: buf) !! S (S k) = Some x) as -> by exact Hx. done. }
  assert (aset (take k buf ++ drop k buffer) (Z.of_nat k) x =
    Some (take (S k) buf ++ drop (S k) buffer)) as ->.
  { rewrite aset_in by (rewrite length_app, length_take, length_drop; lia). rewrite Nat2Z.id.
    rewrite insert_app_r_alt by (rewrite length_take; lia).
    rewrite length_take, Nat.min_l, Nat.sub_diag by lia.
    destruct (drop k buffer) as [|y l] eqn:E.
    { apply (f_equal length) in E. rewrite length_drop in E. simpl in E. lia. }
    rewrite (take_S_r buf k x Hx), <- app_assoc. f_equal. f_equal. simpl. f_equal.
    by rewrite <- Nat.add_1_r, <- drop_drop, E. }
  autorewrite with monad. replace (Z.of_nat k + 1) with (Z.of_nat (S k)) by lia.
  destruct (IH (S k) s1) as (s2 & Hrun2 & Hlink2); [done|done|lia|lia|].
  exists s2. rewrite Hrun2. replace (S k + n)%nat with (k + S n)%nat by lia. done.
Qed.

(** The CRC of the caller's side. *)
Lemma local_crc F msg_type ver buf buffer n :
  provides F msg_type ver buf → (n <= length buf)%nat →
  ∃ c1 c2, adf_pfvf_crc ADF_CRC8_INIT_VALUE [ver] 1 = Some c1 ∧
    adf_pfvf_crc c1 [Z.of_nat (length buf)] 1 = Some c2 ∧
    adf_pfvf_crc c2 (take n buf ++ buffer) (Z.of_nat n) = Some (block_crc ver buf n).
Proof.
  intros [Ht _ Hsz Hbuf Hver] Hn. pose proof (payload_limit_byte msg_type).
  destruct (crc_block ver buf n) as (c1 & c2 & H1 & H2 & Hc2 & H3); [done|done|lia|done|].
  exists c1, c2. split_and!; [done..|]. rewrite <- H3. unfold adf_pfvf_crc.
  rewrite wrap_small, Nat2Z.id by lia. rewrite crc_bytes_app by (rewrite length_take; lia).
  destruct (crc_bytes_spec (take n buf) c2 n) as [-> _];
    [by apply Forall_take|done|rewrite length_take; lia|]. by rewrite take_take, Nat.min_id.
Qed.

Lemma block_get_run F msg_type ver buf v0 buffer len s :
  linked F s → provides F msg_type ver buf → 0 <= len < 256 → len <= Z.of_nat (length buffer) →
  let n := Nat.min (Z.to_nat len) (length buf) in
  ∃ s', adf_iov_block_get link_sleep msg_type v0 buffer len s =
          Some ((0, (ver, take n buf ++ drop n buffer, Z.of_nat n)), s') ∧ linked F s'.
Proof.
  intros Hlink Hpv Hlen Hbuffer n. pose proof (pv_type _ _ _ _ Hpv) as Ht.
  pose proof (pv_size _ _ _ _ Hpv). pose proof (payload_limit_byte msg_type).
  unfold adf_iov_block_get. rewrite (proj2 (Z.ltb_ge _ _)) by lia.
  destruct (get_bc_run F msg_type ver buf 0 false s) as (s1 & H1 & Hlink1);
    [done..|cbn [Zb]; change ADF_VF2PF_BLOCK_DATA with 2; lia|].
  change ADF_VF2PF_BLOCK_VERSION_BYTE with 0. change ADF_VF2PF_BLOCK_LEN_BYTE with 1.
  change (block_data ver buf 0 false) with ver in H1.
  unfold adf_iov_block_get_byte at 1 2. rewrite (bind_Some _ _ _ _ _ H1). cbn [Z.eqb negb].
  destruct (get_bc_run F msg_type ver buf 1 false s1) as (s2 & H2 & Hlink2);
    [done..|cbn [Zb]; change ADF_VF2PF_BLOCK_DATA with 2; lia|].
  change (block_data ver buf 1 false) with (Z.of_nat (length buf)) in H2.
  rewrite (bind_Some _ _ _ _ _ H2). cbn [Z.eqb negb].
  assert ((if len <? Z.of_nat (length buf) then len else Z.of_nat (length buf)) = Z.of_nat n) as ->
    by (unfold n; destruct (Z.ltb_spec len (Z.of_nat (length buf))); lia).
  rewrite Nat2Z.id.
  destruct (get_payload_run F msg_type ver buf buffer n 0 s2) as (s3 & H3 & Hlink3);
    [done|done|unfold n; lia|unfold n; lia|].
  cbn [take drop app Z.of_nat Nat.add] in H3. rewrite (bind_Some _ _ _ _ _ H3). cbn [Z.eqb negb].
  change ADF_VF2PF_BLOCK_DATA with 2.
  unfold adf_iov_block_get_crc. rewrite !(wrap_small 8) by (rewrite ?wrap_small; unfold n; lia).
  destruct (get_bc_run F msg_type ver buf (Z.of_nat n + 2 - 1) true s3) as (s4 & H4 & Hlink4);
    [done..|cbn [Zb]; change ADF_VF2PF_BLOCK_DATA with 2; unfold n; lia|].
  rewrite (bind_Some _ _ _ _ _ H4). cbn [Z.eqb negb]. unfold block_data.
  destruct (local_crc F msg_type ver buf (drop n buffer) n) as (c1 & c2 & Hc1 & Hc2 & Hc3);
    [done|unfold n; lia|].
  rewrite Hc1. autorewrite with monad. rewrite Hc2. autorewrite with monad. rewrite Hc3.
  autorewrite with monad. replace (Z.to_nat (Z.of_nat n + 2 - 1 - 1)) with n by lia.
  rewrite Z.eqb_refl. cbn [negb].
  assert (wf VF 0 s4) as Hwf4 by (apply wf_vf, Hlink4).
  destruct (count_run VF 0 blk_rx s4 Hwf4) as (s5 & Hc & Hcore5 & Hcsr5).
  rewrite (bind_Some _ _ _ _ _ Hc). exists s5. split; [done|]. by eapply linked_core.
Qed.

(** ** The handshake *)

Definition version_req : Z :=
  ADF_VF2PF_MSGORIGIN_SYSTEM .|
  Z.shiftl ADF_VF2PF_MSGTYPE_COMPAT_VER_REQ ADF_VF2PF_MSGTYPE_SHIFT .|
  Z.shiftl ADF_PFVF_COMPATIBILITY_VERSION ADF_VF2PF_COMPAT_VER_REQ_SHIFT.

Definition version_ok_resp : Z :=
  u32 (version_resp ADF_PFVF_COMPATIBILITY_VERSION ADF_PF2VF_VF_COMPATIBLE).

(** [F] once the PF has stored the VF's version. *)
Definition met (F : fixed) (v : bool) : fixed :=
  Fixed ((f_pf F).1, <[Z.to_nat (f_num F) := (v, ADF_PFVF_COMPATIBILITY_VERSION)]> (f_pf F).2)
    (f_vf F) (f_num F) (f_providers F).

Lemma answers_version s i :
  wf PF (vf_num s) s → aget (vf_info (pf_dev s)) (vf_num s) = Some i →
  answers version_req version_ok_resp (met (fixed_of s) (init i)) s ∧
  after (met (fixed_of s) (init i)) s.
Proof.
  intros Hwf Hi. split.
  - intros s1 Hcore Hlen. pose proof (core_num _ _ Hcore) as Hnum.
    unfold handle_req. cbv zeta.
    change (vf2pf_msgtype (framed VF version_req .| ADF_VF2PF_INT)) with
      ADF_VF2PF_MSGTYPE_COMPAT_VER_REQ. rewrite Z.eqb_refl.
    change (Z.shiftr (framed VF version_req .| ADF_VF2PF_INT) ADF_VF2PF_COMPAT_VER_REQ_SHIFT) with
      ADF_PFVF_COMPATIBILITY_VERSION. rewrite Z.ltb_irrefl, Z.eqb_refl.
    assert (∃ i1, aget (vf_info (pf_dev s1)) (vf_num s) = Some i1 ∧ init i1 = init i)
      as (i1 & Hi1 & Hinit).
    { pose proof (f_equal (λ c, (c_pf c).2 !! Z.to_nat (vf_num s)) Hcore) as E.
      unfold aget in *. destruct (0 <=? vf_num s); [|done]. cbn in E.
      rewrite !list_lookup_fmap, Hi in E.
      destruct (vf_info (pf_dev s1) !! Z.to_nat (vf_num s)) as [i1|]; [|done].
      exists i1. split; [done|]. by injection E. }
    rewrite (bind_Some _ _ _ _ _ (upd_info_run _ (set_compat_ver ADF_PFVF_COMPATIBILITY_VERSION)
      _ _ Hi1)). autorewrite with monad. eexists.
    split_and!; [reflexivity|done| |by rewrite <- (core_msg5 _ _ Hcore)].
    rewrite <- (core_fixed _ _ Hcore), <- Hnum, <- Hinit. unfold met, fixed_of. cbn.
    by rewrite list_fmap_insert.
  - destruct Hwf as [Hr Hn]. unfold after, met. cbn. rewrite length_insert, length_fmap.
    split_and!; [done..|]. exists (init i), ADF_PFVF_COMPATIBILITY_VERSION.
    split; [|done]. unfold aget in *. cbn in Hr. rewrite (proj2 (Z.leb_le _ _)) by lia.
    apply list_lookup_insert_eq. rewrite length_fmap. lia.
Qed.

Lemma version_taken s :
  resp_msg version_ok_resp = true ∧
  taken version_ok_resp (completed (set_version ADF_PFVF_COMPATIBILITY_VERSION
    ADF_PF2VF_VF_COMPATIBLE)) s.
Proof.
  split; [reflexivity|]. split; [reflexivity| |reflexivity].
  intros v v' [= E1 E2 E3 E4 E5]. unfold msg5. cbn. by rewrite E3, E4, E5.
Qed.

(** The state the VF starts from: nothing is in the register and no response
    pending. *)
Definition fresh (s : sys) : Prop :=
  wf PF (vf_num s) s ∧ ¬ held PF (csr_at VF 0 s) ∧ iov_msg_completion (vfd s) = O.

(** What the handshake leaves alone: the devices' data and the providers. *)
Definition same_data (s s' : sys) : Prop :=
  hw_device (pf_dev s') = hw_device (pf_dev s) ∧ hw_device (vf_dev s') = hw_device (vf_dev s) ∧
  pf2vf_message_providers s' = pf2vf_message_providers s ∧ vf_num s' = vf_num s.

Lemma request_version_run s :
  ready s →
  ∃ s', adf_vf2pf_request_version run_checker link_sleep s = Some (0, s') ∧
    linked (fixed_of s') s' ∧ same_data s s' ∧
    compatible (vfd s') = ADF_PF2VF_VF_COMPATIBLE ∧
    pf_version (vfd s') = ADF_PFVF_COMPATIBILITY_VERSION ∧
    ∃ i, aget (vf_info (pf_dev s')) (vf_num s) = Some i ∧
         compat_ver i = ADF_PFVF_COMPATIBILITY_VERSION.
Proof.
  intros Hready. pose proof Hready as (Hwf & _ & _ & _).
  destruct (aget_is_Some (vf_info (pf_dev s)) (vf_num s)) as [i Hi].
  { destruct Hwf as [Hr Hn]. cbn in Hr. lia. }
  destruct (answers_version s i Hwf Hi) as [Hans Haft].
  destruct (request_run version_req version_ok_resp _ (set_version ADF_PFVF_COMPATIBILITY_VERSION
    ADF_PF2VF_VF_COMPATIBLE) s Hready eq_refl Hans Haft) as (s1 & Hrun & Hready1 & HF1 & Hm1);
    [by apply (version_taken s)|done|intros; by apply version_taken|].
  unfold adf_vf2pf_request_version. change (_ .| _ .| _) with version_req.
  rewrite (bind_Some _ _ _ _ _ Hrun). autorewrite with monad.
  injection Hm1 as E1 E2 _ _ _. change (vf (vf_dev s1)) with (vfd s1). rewrite E1.
  cbn [compatible set_version]. cbn [Z.eqb Pos.eqb ADF_PF2VF_VF_COMPATIBLE
    ADF_PF2VF_VF_COMPAT_UNKNOWN]. autorewrite with monad. exists s1. split; [done|].
  destruct Haft as (Hn & _ & _ & v & cv & Hinfo & _). rewrite <- HF1 in Hinfo, Hn.
  destruct (info_at s1 v cv) as (i1 & Hi1 & Hcv1).
  { cbn in Hinfo, Hn. by rewrite Hn. }
  assert (cv = ADF_PFVF_COMPATIBILITY_VERSION) as ->.
  { rewrite HF1 in Hinfo. unfold met, aget in Hinfo. cbn in Hinfo.
    destruct Hwf as [Hr Hnn]. cbn in Hr. rewrite (proj2 (Z.leb_le _ _)) in Hinfo by lia.
    rewrite list_lookup_insert_eq in Hinfo by (rewrite length_fmap; lia). congruence. }
  cbn in Hn. split_and!.
  - split_and!; [done|done| |by rewrite E2].
    exists v, ADF_PFVF_COMPATIBILITY_VERSION. cbn in *. rewrite Hn. done.
  - injection HF1 as H1 H2 H3 H4. unfold same_data. by rewrite ?H1, ?H2, ?H3, ?H4.
  - by rewrite E1.
  - by rewrite E2.
  - exists i1. rewrite <- Hn. done.
Qed.

Lemma set_cm_id m s : cm (vf_dev s) = m → upd_dev VF (set_cm m) s = s.
Proof. destruct s as [? ? [] ? ?]. by intros <-. Qed.

Lemma enable_comms_run kzalloc_ok s :
  fresh s →
  ∃ s', adf_enable_vf2pf_comms run_checker link_sleep kzalloc_ok true s = Some (0, s') ∧
    linked (fixed_of s') s' ∧ same_data s s' ∧
    compatible (vfd s') = ADF_PF2VF_VF_COMPATIBLE ∧
    pf_version (vfd s') = ADF_PFVF_COMPATIBILITY_VERSION ∧
    ∃ i, aget (vf_info (pf_dev s')) (vf_num s) = Some i ∧
         compat_ver i = ADF_PFVF_COMPATIBILITY_VERSION.
Proof.
  intros (Hwf & Hidle & Hdone). unfold adf_enable_vf2pf_comms. cbn [negb].
  unfold adf_enable_pf2vf_interrupts. autorewrite with monad.
  set (s1 := upd_dev VF (set_vintmsk 0) s).
  assert (∃ z m, adf_iov_init_compat_manager kzalloc_ok VF s1 =
    Some (z, upd_dev VF (set_cm m) s1)) as (z & m & Hcm).
  { unfold adf_iov_init_compat_manager. autorewrite with monad.
    destruct (cm (get_dev VF s1)) eqn:E; [by eexists _, _; reflexivity|].
    destruct kzalloc_ok; [by eexists _, _; reflexivity|]. exists (- ENOMEM), None.
    by rewrite (set_cm_id None). }
  rewrite (bind_Some _ _ _ _ _ Hcm). by apply (request_version_run (upd_dev VF (set_cm m) s1)).
Qed.

(** The handshake: a VF that enables its channel ends up compatible with
    the PF, each knowing the other's version, and the channel linked (free, and
    fast acknowledgement agreed on both sides). *)
Theorem adf_enable_vf2pf_comms_agrees kzalloc_ok s :
  fresh s →
  ∃ s', adf_enable_vf2pf_comms run_checker link_sleep kzalloc_ok true s = Some (0, s') ∧
    linked (fixed_of s') s' ∧ same_data s s' ∧
    compatible (vfd s') = ADF_PF2VF_VF_COMPATIBLE ∧
    pf_version (vfd s') = ADF_PFVF_COMPATIBILITY_VERSION ∧
    ∃ i, aget (vf_info (pf_dev s')) (vf_num s) = Some i ∧
         compat_ver i = ADF_PFVF_COMPATIBILITY_VERSION.
Proof. apply enable_comms_run. Qed.

(** C17 A block from end to end: on a linked channel [adf_iov_block_get] fails
    for no message type and no caller's buffer; it returns the provider's
    version, as much of its payload as the buffer takes, and its length, and
    leaves the rest of the buffer and the link as they were. *)
Theorem adf_iov_block_get_correct F msg_type ver buf v0 buffer len s :
  linked F s → provides F msg_type ver buf → 0 <= len < 256 → len <= Z.of_nat (length buffer) →
  let n := Nat.min (Z.to_nat len) (length buf) in
  ∃ s', adf_iov_block_get link_sleep msg_type v0 buffer len s =
          Some ((0, (ver, take n buf ++ drop n buffer, Z.of_nat n)), s') ∧ linked F s'.
Proof. apply block_get_run. Qed.

(** ** The capabilities *)

Definition byte_of (x k : Z) : Z := Z.shiftr x (k * 8) .& 0xFF.

Lemma byte_of_ok x k : byte_ok (byte_of x k).
Proof. unfold byte_ok, byte_of. change 256 with (2 ^ 8). apply land_range_r; lia. Qed.

Lemma put_le32_bytes x : put_le32 x = [byte_of x 0; byte_of x 1; byte_of x 2; byte_of x 3].
Proof. done. Qed.

Lemma put_le32_ok x : bytes_ok (put_le32 x).
Proof. rewrite put_le32_bytes. repeat constructor; apply byte_of_ok. Qed.

Lemma join_bytes x :
  0 <= x < 2 ^ 32 →
  u32 (u32 (u32 (u32 (0 .| Z.shiftl (byte_of x 0) 0) .| Z.shiftl (byte_of x 1) 8)
    .| Z.shiftl (byte_of x 2) 16) .| Z.shiftl (byte_of x 3) 24) = x.
Proof.
  intros Hx. unfold byte_of. change 0xFF with (Z.ones 8).
  zbits; rewrite ?andb_true_r, ?andb_false_r, ?orb_false_r; try done;
    try (f_equal; lia); try (symmetry; apply (testbit_high x 32); lia);
    try (rewrite Z.testbit_neg_r by lia; done);
    rewrite Z.shiftr_spec by lia; f_equal; lia.
Qed.

Lemma get_le32_put data pre x post :
  data = pre ++ put_le32 x ++ post → 0 <= x < 2 ^ 32 →
  get_le32 data (Z.of_nat (length pre)) = Some x.
Proof.
  intros -> Hx. unfold get_le32. change (seqZ 0 4) with [0; 1; 2; 3]. cbn [foldl mbind option_bind].
  assert (∀ k z b, z = Z.of_nat k → put_le32 x !! k = Some b →
    aget (pre ++ put_le32 x ++ post) (Z.of_nat (length pre) + z) = Some b) as Hget.
  { intros k z b -> Hk. unfold aget. rewrite (proj2 (Z.leb_le _ _)) by lia.
    replace (Z.to_nat (Z.of_nat (length pre) + Z.of_nat k)) with (length pre + k)%nat by lia.
    rewrite lookup_app_r by lia. replace (length pre + k - length pre)%nat with k by lia.
    by apply lookup_app_l_Some. }
  rewrite (Hget 0%nat 0 _ eq_refl eq_refl). cbn [mbind option_bind].
  rewrite (Hget 1%nat 1 _ eq_refl eq_refl). cbn [mbind option_bind].
  rewrite (Hget 2%nat 2 _ eq_refl eq_refl). cbn [mbind option_bind].
  rewrite (Hget 3%nat 3 _ eq_refl eq_refl). cbn [mbind option_bind].
  f_equal. by apply join_bytes.
Qed.

(** The capabilities block of a PF with hardware data [hw]. *)
Lemma caps_provides F hw :
  aget (f_providers F) ADF_VF2PF_BLOCK_MSG_CAP_SUMMARY = Some (Some caps_provider) →
  (f_pf F).1.1 = hw →
  (∀ compat n, run_provider caps_provider hw compat n =
     Some (adf_pf_capabilities_msg_provider hw)) →
  let '(buf, size, ver) := adf_pf_capabilities_msg_provider hw in
  provides F ADF_VF2PF_BLOCK_MSG_CAP_SUMMARY ver buf ∧ size = Z.of_nat (length buf).
Proof.
  intros Hp Hhw Hrun. unfold adf_pf_capabilities_msg_provider in *.
  destruct (clock_frequency hw =? 0); cbn [negb] in *; cbv zeta in *;
    (split; [|reflexivity]); split;
    try (split; apply Z.leb_le; reflexivity); try apply (bool_decide_eq_true_1 _), eq_refl.
  all: try (exists caps_provider; split; [done|]; intros; rewrite Hhw; apply Hrun).
  all: try (apply Z.leb_le; reflexivity).
  all: repeat apply Forall_app_2; apply put_le32_ok.
Qed.

Definition hw_ok (h : hw_data) : Prop :=
  0 <= extended_dc_capabilities h < 2 ^ 32 ∧ 0 <= accel_capabilities_mask h < 2 ^ 32 ∧
  0 <= clock_frequency h < 2 ^ 32.

(** What a VF with data [h] knows after the exchange with a PF with data [hw]. *)
Definition learnt (hw h : hw_data) : hw_data :=
  HwData (extended_dc_capabilities hw) (accel_capabilities_mask hw)
    (if clock_frequency hw =? 0 then clock_frequency h else clock_frequency hw).

Lemma vf_capabilities_run F hw s :
  linked F s → hw_ok hw → (f_pf F).1.1 = hw →
  aget (f_providers F) ADF_VF2PF_BLOCK_MSG_CAP_SUMMARY = Some (Some caps_provider) →
  (∀ compat n, run_provider caps_provider hw compat n =
     Some (adf_pf_capabilities_msg_provider hw)) →
  ∃ s', adf_pf_vf_capabilities_init link_sleep VF s = Some (0, s') ∧
        hw_device (vf_dev s') = learnt hw (hw_device (vf_dev s)).
Proof.
  intros Hlink (H1 & H2 & H3) Hhw Hp Hrun. pose proof Hlink as (_ & HF & _ & Hver).
  pose proof (caps_provides F hw Hp Hhw Hrun) as Hpv.
  unfold adf_pf_vf_capabilities_init. autorewrite with monad.
  change (vf (vf_dev s)) with (vfd s). rewrite (proj2 (Z.leb_le _ _)).
  2: { etrans; [|exact Hver]. by apply Z.leb_le. }
  unfold learnt. destruct hw as [ext caps freq]. cbn in H1, H2, H3.
  set (h := hw_device (vf_dev s)).
  unfold adf_pf_capabilities_msg_provider in Hpv. cbn [clock_frequency extended_dc_capabilities
    accel_capabilities_mask] in Hpv |- *.
  destruct (Z.eqb_spec freq 0) as [->|Hfreq]; cbn [negb] in Hpv; destruct Hpv as [Hpv _].
  - destruct (block_get_run _ _ _ _ ADF_VF2PF_CAPABILITIES_V2_VERSION (replicate 12 0)
      ADF_VF2PF_CAPABILITIES_V3_LENGTH s Hlink Hpv) as (s1 & Hget & Hlink1); [done|done|].
    rewrite (bind_Some _ _ _ _ _ Hget).
    set (data := take _ _ ++ _).
    assert (get_le32 data 0 = Some ext) as E1.
    { by apply (get_le32_put data [] ext (put_le32 caps ++ replicate 4 0)). }
    assert (get_le32 data ADF_VF2PF_CAPABILITIES_CAP_OFFSET = Some caps) as E2.
    { by apply (get_le32_put data (put_le32 ext) caps (replicate 4 0)). }
    change (Z.of_nat (Nat.min _ _)) with 8. cbn [Z.eqb negb]. change (8 <? _) with false.
    change (_ <=? 8) with true at 1. change (_ <=? 8) with false.
    rewrite E1. autorewrite with monad. rewrite E2. by eexists.
  - destruct (block_get_run _ _ _ _ ADF_VF2PF_CAPABILITIES_V2_VERSION (replicate 12 0)
      ADF_VF2PF_CAPABILITIES_V3_LENGTH s Hlink Hpv) as (s1 & Hget & Hlink1); [done|done|].
    rewrite (bind_Some _ _ _ _ _ Hget).
    set (data := take _ _ ++ _).
    assert (get_le32 data 0 = Some ext) as E1.
    { by apply (get_le32_put data [] ext (put_le32 caps ++ put_le32 freq)). }
    assert (get_le32 data ADF_VF2PF_CAPABILITIES_CAP_OFFSET = Some caps) as E2.
    { by apply (get_le32_put data (put_le32 ext) caps (put_le32 freq)). }
    assert (get_le32 data ADF_VF2PF_CAPABILITIES_FREQ_OFFSET = Some freq) as E3.
    { by apply (get_le32_put data (put_le32 ext ++ put_le32 caps) freq []). }
    change (Z.of_nat (Nat.min _ _)) with 12. cbn [Z.eqb negb]. change (12 <? _) with false.
    change (_ <=? 12) with true.
    rewrite E1. autorewrite with monad. rewrite E2. autorewrite with monad. rewrite E3.
    by eexists.
Qed.

(** C20 The capabilities, from the PF's registration to the VF's data: the PF
    registers its provider, the VF enables the channel and asks; it ends up
    with the PF's capabilities (its own clock frequency kept when the PF's is
    not known). *)
Theorem capabilities_exchanged kzalloc_ok s :
  fresh s → hw_ok (hw_device (pf_dev s)) →
  length (pf2vf_message_providers s) = 28%nat →
  aget (pf2vf_message_providers s) ADF_VF2PF_BLOCK_MSG_CAP_SUMMARY = Some None →
  (∀ hw compat n, run_provider caps_provider hw compat n =
     Some (adf_pf_capabilities_msg_provider hw)) →
  ∃ s1 s2 s3,
    adf_pf_vf_capabilities_init link_sleep PF s = Some (0, s1) ∧
    adf_enable_vf2pf_comms run_checker link_sleep kzalloc_ok true s1 = Some (0, s2) ∧
    adf_pf_vf_capabilities_init link_sleep VF s2 = Some (0, s3) ∧
    hw_device (vf_dev s3) = learnt (hw_device (pf_dev s)) (hw_device (vf_dev s)).
Proof.
  intros Hfresh Hhw Hlen Hnone Hrun.
  set (ps := <[2%nat := Some caps_provider]> (pf2vf_message_providers s)).
  assert (adf_pf_vf_capabilities_init link_sleep PF s = Some (0, set_providers ps s)) as H1.
  { unfold adf_pf_vf_capabilities_init, adf_iov_is_block_provider_registered,
      adf_iov_block_provider_register. autorewrite with monad. rewrite Hnone.
    autorewrite with monad. change (bool_decide (is_Some None)) with false. cbv iota.
    autorewrite with monad. rewrite Hlen. change (Z.of_nat 28 <=? _) with false. cbv iota.
    rewrite Hnone. autorewrite with monad. rewrite aset_in by (rewrite Hlen; done).
    by autorewrite with monad. }
  destruct (enable_comms_run kzalloc_ok (set_providers ps s)) as (s2 & H2 & Hlink & Hdata & _);
    [exact Hfresh|].
  destruct Hdata as (Hpf & Hvf & Hps & _). cbn in Hpf, Hvf, Hps.
  destruct (vf_capabilities_run (fixed_of s2) (hw_device (pf_dev s)) s2) as (s3 & H3 & Hlearnt).
  - done.
  - done.
  - by cbn.
  - cbn. rewrite Hps. unfold ps. apply (list_lookup_insert_eq _ 2). lia.
  - done.
  - exists (set_providers ps s), s2, s3. split_and!; [done..|]. by rewrite Hlearnt, Hvf.
Qed.

End link.

(** ** The channel of [Pfvf] *)

Definition ex_provider (p : nat) (hw : hw_data) (compat n : Z) : option (list Z * Z * Z) :=
  Some (adf_pf_capabilities_msg_provider hw).
Definition ex_checker (c : nat) (ver : Z) : Z := ADF_PF2VF_VF_COMPATIBLE.

(** [ex_sys] with the capabilities provider registered. *)
Definition ex_linked : sys := set_providers (<[2%nat := Some caps_provider]> (replicate 28 None)) ex_sys.

Lemma ex_fresh : fresh ex_sys.
Proof. split_and!; [exact ex_wf|discriminate|reflexivity]. Qed.

Lemma adf_enable_vf2pf_comms_agrees_witness :
  ∃ s', adf_enable_vf2pf_comms ex_checker (link_sleep ex_provider ex_checker) true true ex_sys =
      Some (0, s') ∧
    linked (fixed_of s') s' ∧ same_data ex_sys s' ∧
    compatible (vfd s') = ADF_PF2VF_VF_COMPATIBLE ∧
    pf_version (vfd s') = ADF_PFVF_COMPATIBILITY_VERSION ∧
    ∃ i, aget (vf_info (pf_dev s')) (vf_num ex_sys) = Some i ∧
         compat_ver i = ADF_PFVF_COMPATIBILITY_VERSION.
Proof. apply (adf_enable_vf2pf_comms_agrees ex_provider ex_checker true ex_sys), ex_fresh. Defined.

Lemma ex_linked_ok : linked (fixed_of ex_linked) ex_linked.
Proof.
  split_and!; [split_and!; [exact ex_wf|discriminate|done|done]|done| |done].
  exists false, 3. split; [reflexivity|done].
Qed.

Definition ex_caps : list Z := put_le32 0x11 ++ put_le32 0x22334455 ++ put_le32 685000000.

Lemma ex_provides : provides ex_provider (fixed_of ex_linked) 2 3 ex_caps.
Proof.
  split; [split; apply Z.leb_le; reflexivity| |apply Z.leb_le; reflexivity| |].
  - exists caps_provider. split; [reflexivity|]. intros. reflexivity.
  - repeat apply Forall_app_2; apply put_le32_ok.
  - apply (bool_decide_eq_true_1 _), eq_refl.
Qed.

Lemma adf_iov_block_get_correct_witness :
  ∃ s', adf_iov_block_get (link_sleep ex_provider ex_checker) 2 0 (replicate 12 0) 10 ex_linked =
      Some ((0, (3, take 10 ex_caps ++ drop 10 (replicate 12 0), 10)), s') ∧
    linked (fixed_of ex_linked) s'.
Proof.
  apply (adf_iov_block_get_correct ex_provider ex_checker (fixed_of ex_linked) 2 3 ex_caps 0
    (replicate 12 0) 10 ex_linked);
    [exact ex_linked_ok|exact ex_provides|lia|apply Z.leb_le; reflexivity].
Defined.

Lemma capabilities_exchanged_witness :
  ∃ s1 s2 s3,
    adf_pf_vf_capabilities_init (link_sleep ex_provider ex_checker) PF ex_sys = Some (0, s1) ∧
    adf_enable_vf2pf_comms ex_checker (link_sleep ex_provider ex_checker) true true s1 =
      Some (0, s2) ∧
    adf_pf_vf_capabilities_init (link_sleep ex_provider ex_checker) VF s2 = Some (0, s3) ∧
    hw_device (vf_dev s3) = HwData 0x11 0x22334455 685000000.
Proof.
  apply (capabilities_exchanged ex_provider ex_checker true ex_sys); [exact ex_fresh| |reflexivity..].
  split_and!; apply (bool_decide_eq_true_1 _); reflexivity.
Defined.

End PfvfLink.
