(* ===== verification/DevMgr.v ===== *)
(** * The device table

    Models [adf_dev_mgr.c]: the table of acceleration devices, the map from
    the ids a user sees ("fake" ids) to the ids given at probe time ("real"
    ids), and the reference counts.  Devices are objects behind pointers,
    [devs]; the two lists are the kernel lists of the file. *)

From S2P Require Import Prelude.

#[local] Open Scope Z_scope.
#[local] Open Scope qat_scope.

Module DevMgr.

Definition ADF_MAX_DEVICES := 32 * 32.
Definition ADF_CFG_ALL_DEVICES := 0xFFFE.
Definition NO_BDF := 2 ^ 32 - 1.     (* ~0, and -1 compared to a u32 *)

(** The fields of [struct adf_accel_dev] the file uses: the identity of
    [pci_dev] with its bus and [devfn], the device class, and the state. *)
Record accel_dev := Dev {
  is_vf : bool;
  pci_dev : nat;
  bus : Z;
  devfn : Z;
  dev_class : nat;
  instance_id : Z;
  accel_id : Z;
  ref_count : Z;
  restarting : bool;
  started : bool;
}.

Record vf_id_map := IdMap { bdf : Z; id : Z; fake_id : Z; attached : bool }.

(** The file's static variables, and the devices. *)
Record state := State {
  accel_table : list nat;
  vfs_table : list vf_id_map;
  num_devices : Z;
  id_map : list bool;
  devs : gmap nat accel_dev;
}.

Definition set_accel_table l s := State l (vfs_table s) (num_devices s) (id_map s) (devs s).
Definition set_vfs_table l s := State (accel_table s) l (num_devices s) (id_map s) (devs s).
Definition set_num_devices n s := State (accel_table s) (vfs_table s) n (id_map s) (devs s).
Definition set_id_map m s := State (accel_table s) (vfs_table s) (num_devices s) m (devs s).
Definition set_devs d s := State (accel_table s) (vfs_table s) (num_devices s) (id_map s) d.

Definition with_accel_id i d := Dev (is_vf d) (pci_dev d) (bus d) (devfn d) (dev_class d)
  (instance_id d) i (ref_count d) (restarting d) (started d).
Definition with_ref_count r d := Dev (is_vf d) (pci_dev d) (bus d) (devfn d) (dev_class d)
  (instance_id d) (accel_id d) r (restarting d) (started d).
Definition with_instance i d := Dev (is_vf d) (pci_dev d) (bus d) (devfn d) (dev_class d)
  i (accel_id d) (ref_count d) (restarting d) (started d).

Definition dev (p : nat) : M state accel_dev := d <- gets devs ;; lift (d !! p).
Definition upd_dev (p : nat) (f : accel_dev → accel_dev) : M state () :=
  d <- dev p ;; modify (λ s, set_devs (<[p := f d]> (devs s)) s).

Definition PCI_SLOT (devfn : Z) : Z := Z.shiftr devfn 3 .& 0x1f.
Definition PCI_FUNC (devfn : Z) : Z := devfn .& 0x07.

Definition adf_get_vf_id (vf : accel_dev) : Z :=
  7 * (PCI_SLOT (devfn vf) - 1) + PCI_FUNC (devfn vf) + (PCI_SLOT (devfn vf) - 1).
Definition adf_get_vf_num (vf : accel_dev) : Z := Z.shiftl (bus vf) 8 .| adf_get_vf_id vf.

(** The position of the first entry with the [bdf]. *)
Definition adf_find_vf (b : Z) (l : list vf_id_map) : option nat :=
  fst <$> list_find (λ ptr, bdf ptr = b) l.

(** The real id, or -1. *)
Definition adf_get_vf_real_id (fake : Z) (l : list vf_id_map) : Z :=
  match list_find (λ ptr, fake_id ptr = fake) l with Some (_, ptr) => id ptr | None => -1 end.

(** The loop of [adf_clean_vf_map]: the entries kept. *)
Fixpoint clean_loop (vf : bool) (l : list vf_id_map) : M state (list vf_id_map) :=
  match l with
  | [] => ret []
  | map :: l =>
    when (negb (bdf map =? NO_BDF))
      (m <- gets id_map ;; m <- lift (aset m (id map) false) ;; modify (set_id_map m) ;;
       modify (λ s, set_num_devices (u32 (num_devices s - 1)) s)) ;;
    rest <- clean_loop vf l ;;
    ret (if vf && (bdf map =? NO_BDF) then map :: rest else rest)
  end.

Definition adf_clean_vf_map (vf : bool) : M state () :=
  l <- gets vfs_table ;; kept <- clean_loop vf l ;; modify (set_vfs_table kept).

(** The loop of [adf_devmgr_update_class_index], with the counter [i]. *)
Fixpoint class_loop (class : nat) (instances : Z) (l : list nat) (i : Z) : M state () :=
  match l with
  | [] => ret ()
  | ptr :: l =>
    d <- dev ptr ;;
    let same := bool_decide (dev_class d = class) in
    when same (upd_dev ptr (with_instance i)) ;;
    let i := if same then i + 1 else i in
    if i =? instances then ret () else class_loop class instances l i
  end.

Definition adf_devmgr_update_class_index (class : nat) (instances : Z) : M state () :=
  l <- gets accel_table ;; class_loop class instances l 0.

Definition adf_find_free_id : M state Z :=
  m <- gets id_map ;;
  match list_find (λ used, used = false) m with
  | Some (i, _) => modify (set_id_map (<[i := true]> m)) ;; ret (Z.of_nat i)
  | None => ret (ADF_MAX_DEVICES + 1)
  end.

Definition bump (n : Z) (m : vf_id_map) : vf_id_map :=
  IdMap (bdf m) (id m) (u32 (fake_id m + n)) (attached m).

(** [fake_id += n] and [attached = att] for the entry at [i], then
    [fake_id += n] in the [while] loop over the entries after it. *)
Definition shift_fakes (n : Z) (att : bool) (i : nat) (l : list vf_id_map)
    : option (list vf_id_map) :=
  map ← l !! i;
  Some (take i l ++ IdMap (bdf map) (id map) (u32 (fake_id map + n)) att
        :: (bump n <$> drop (S i) l)).

(** [pf]: whether a PF is given; [kzalloc_ok]: whether the map's allocation
    succeeds. *)
Definition adf_devmgr_add_dev (kzalloc_ok : bool) (p : nat) (pf : bool) : M state Z :=
  n <- gets num_devices ;;
  if n =? ADF_MAX_DEVICES then ret (- EFAULT) else
  upd_dev p (with_ref_count 0) ;;
  d <- dev p ;;
  let push_dev := modify (λ s, set_accel_table (accel_table s ++ [p]) s) in
  let push_map m := modify (λ s, set_vfs_table (vfs_table s ++ [m]) s) in
  let count := modify (λ s, set_num_devices (u32 (num_devices s + 1)) s) in
  if negb (is_vf d) || (is_vf d && negb pf) then
    t <- gets accel_table ;;
    if decide (p ∈ t) then ret (- EEXIST) else
    push_dev ;;
    i <- adf_find_free_id ;; upd_dev p (with_accel_id i) ;;
    if ADF_MAX_DEVICES <? i then ret (- EFAULT) else
    count ;;
    if negb kzalloc_ok then ret (- ENOMEM) else
    push_map (IdMap NO_BDF i i true) ;; ret 0
  else
    l <- gets vfs_table ;;
    match adf_find_vf (u32 (adf_get_vf_num d)) l with
    | Some m =>
      map <- lift (l !! m) ;;
      upd_dev p (with_accel_id (id map)) ;;
      push_dev ;;
      l <- lift (shift_fakes 1 true m l) ;; modify (set_vfs_table l) ;; ret 0
    | None =>
      if negb kzalloc_ok then ret (- ENOMEM) else
      i <- adf_find_free_id ;; upd_dev p (with_accel_id i) ;;
      if ADF_MAX_DEVICES <? i then ret (- EFAULT) else
      count ;; push_dev ;;
      push_map (IdMap (u32 (adf_get_vf_num d)) i i true) ;; ret 0
    end.

(** [list_del]: the list without [p]. *)
Definition list_del (p : nat) (l : list nat) : list nat := filter (λ q, q ≠ p) l.

Definition adf_devmgr_rm_dev (p : nat) (pf : bool) : M state () :=
  d <- dev p ;;
  (if negb (is_vf d) || (is_vf d && negb pf) then
     m <- gets id_map ;; m <- lift (aset m (accel_id d) false) ;; modify (set_id_map m) ;;
     modify (λ s, set_num_devices (u32 (num_devices s - 1)) s)
   else
     l <- gets vfs_table ;;
     match adf_find_vf (u32 (adf_get_vf_num d)) l with
     | None => ret ()
     | Some m => l <- lift (shift_fakes (-1) false m l) ;; modify (set_vfs_table l)
     end) ;;
  modify (λ s, set_accel_table (list_del p (accel_table s)) s).

Definition adf_devmgr_get_first : M state (option nat) :=
  l <- gets accel_table ;; ret (head l).

(** The first device of the table a test holds for. *)
Fixpoint find_dev (test : accel_dev → bool) (l : list nat) : M state (option nat) :=
  match l with
  | [] => ret None
  | ptr :: l => d <- dev ptr ;; if test d then ret (Some ptr) else find_dev test l
  end.

Definition adf_devmgr_pci_to_accel_dev (pci : nat) : M state (option nat) :=
  l <- gets accel_table ;; find_dev (λ d, bool_decide (pci_dev d = pci)) l.

Definition adf_devmgr_get_dev_by_id (i : Z) : M state (option nat) :=
  v <- gets vfs_table ;;
  let real_id := adf_get_vf_real_id i v in
  if real_id <? 0 then ret None else
  l <- gets accel_table ;; find_dev (λ d, accel_id d =? real_id) l.

(** The result and [*id]. *)
Definition adf_devmgr_verify_id (i : Z) : M state (Z * Z) :=
  if i =? ADF_CFG_ALL_DEVICES then ret (0, i) else
  r <- adf_devmgr_get_dev_by_id i ;;
  match r with
  | None => ret (- ENODEV, i)
  | Some p => d <- dev p ;; ret (0, accel_id d)
  end.

Definition adf_get_num_dettached_vfs : M state Z :=
  l <- gets vfs_table ;;
  ret (Z.of_nat (length (filter (λ m, bdf m ≠ NO_BDF ∧ attached m = false) l))).

Definition adf_devmgr_get_num_dev : M state Z :=
  n <- gets num_devices ;; d <- adf_get_num_dettached_vfs ;; ret (u32 (n - d)).

Definition adf_dev_in_use (p : nat) : M state bool :=
  d <- dev p ;; ret (negb (ref_count d =? 0)).

(** [module_get_ok]: whether [try_module_get] succeeds; the result, and whether
    it was called. *)
Definition adf_dev_get (module_get_ok : bool) (p : nat) : M state (Z * bool) :=
  upd_dev p (λ d, with_ref_count (s32 (ref_count d + 1)) d) ;;
  d <- dev p ;;
  if ref_count d =? 1 then ret (if module_get_ok then 0 else - EFAULT, true) else ret (0, false).

(** Whether [module_put] is called. *)
Definition adf_dev_put (p : nat) : M state bool :=
  upd_dev p (λ d, with_ref_count (s32 (ref_count d - 1)) d) ;;
  d <- dev p ;; ret (ref_count d =? 0).

Definition adf_devmgr_in_reset (p : nat) : M state bool := d <- dev p ;; ret (restarting d).
Definition adf_dev_started (p : nat) : M state bool := d <- dev p ;; ret (started d).

(** ** Ids a user sees *)

Definition n_detached (l : list vf_id_map) : Z :=
  Z.of_nat (length (filter (λ m, attached m = false) l)).
Definition attached_ids (l : list vf_id_map) : list Z := id <$> filter (λ m, attached m = true) l.

(** Real ids count the entries from [i] on; a fake id is what is left of the
    real one when the [det] detached entries before it, and the entry itself if
    it is detached, are taken off. *)
Fixpoint fakes_ok (i det : Z) (l : list vf_id_map) : Prop :=
  match l with
  | [] => True
  | m :: l =>
    let det := det + Zb (negb (attached m)) in
    id m = i ∧ fake_id m = u32 (i - det) ∧ fakes_ok (i + 1) det l
  end.

Lemma n_detached_cons m l : n_detached (m :: l) = Zb (negb (attached m)) + n_detached l.
Proof.
  unfold n_detached. rewrite filter_cons. destruct (attached m); case_decide; try done.
  cbn [length negb Zb]. lia.
Qed.

Lemma fakes_app i det l k :
  fakes_ok i det (l ++ k) ↔
  fakes_ok i det l ∧ fakes_ok (i + Z.of_nat (length l)) (det + n_detached l) k.
Proof.
  revert i det. induction l as [|m l IH]; intros i det; simpl.
  - change (n_detached []) with 0. rewrite !Z.add_0_r. tauto.
  - rewrite IH, n_detached_cons.
    replace (i + Z.of_nat (S (length l))) with (i + 1 + Z.of_nat (length l)) by lia.
    rewrite Z.add_assoc. tauto.
Qed.

Lemma u32_add_l a n : u32 (u32 a + n) = u32 (a + n).
Proof. apply Zplus_mod_idemp_l. Qed.

Lemma fakes_bump n i det l : fakes_ok i det l → fakes_ok i (det - n) (bump n <$> l).
Proof.
  revert i det. induction l as [|m l IH]; intros i det; simpl; [done|].
  intros (Hid & Hf & Hl). split_and!; [done| |].
  - rewrite Hf, u32_add_l. f_equal. lia.
  - replace (det - n + Zb (negb (attached m))) with (det + Zb (negb (attached m)) - n) by lia.
    by apply IH.
Qed.

Lemma attached_bump n l : attached_ids (bump n <$> l) = attached_ids l.
Proof.
  unfold attached_ids. induction l as [|m l IH]; [done|].
  rewrite fmap_cons, !filter_cons. cbn. case_decide; cbn; by rewrite IH.
Qed.

Lemma attached_app l k : attached_ids (l ++ k) = attached_ids l ++ attached_ids k.
Proof. unfold attached_ids. by rewrite filter_app, fmap_app. Qed.

Lemma attached_cons m l :
  attached_ids (m :: l) = (if attached m then [id m] else []) ++ attached_ids l.
Proof. unfold attached_ids. rewrite filter_cons. by destruct (attached m); case_decide. Qed.

(** Attaching ([n = 1]) or detaching ([n = -1]) the entry at [i]. *)
Lemma shift_fakes_ok att i l m :
  fakes_ok 0 0 l → l !! i = Some m → attached m = negb att →
  ∃ l', shift_fakes (if att then 1 else -1) att i l = Some l' ∧ fakes_ok 0 0 l' ∧
    length l' = length l ∧ bdf <$> l' = bdf <$> l ∧ id <$> l' = id <$> l ∧
    (if att then attached_ids l' ≡ₚ id m :: attached_ids l
     else attached_ids l ≡ₚ id m :: attached_ids l') ∧
    (∀ x, x ∈ l' → attached x = false → bdf x = bdf m ∨ ∃ y, y ∈ l ∧ attached y = false ∧ bdf x = bdf y).
Proof.
  intros Hok Hm Hatt. unfold shift_fakes. rewrite Hm. cbn [mbind option_bind].
  destruct (list_elem_of_split_length _ _ _ Hm) as (l1 & l2 & -> & ->).
  rewrite take_app_length.
  assert (drop (S (length l1)) (l1 ++ m :: l2) = l2) as ->.
  { change (m :: l2) with ([m] ++ l2). rewrite app_assoc. apply drop_app_length'.
    rewrite length_app. simpl. lia. }
  eexists. split; [done|].
  set (n := if att then 1 else -1). apply fakes_app in Hok as [H1 (Hid & Hf & H2)].
  split_and!.
  - apply fakes_app. split; [done|]. cbn [fakes_ok id fake_id attached].
    split_and!; [done| |].
    + rewrite Hf, u32_add_l, Hatt. f_equal. unfold n. destruct att; cbn [negb Zb]; lia.
    + apply (fakes_bump n) in H2. rewrite Hatt in H2.
      assert (0 + n_detached l1 + Zb (negb (negb att)) - n = 0 + n_detached l1 + Zb (negb att)) as E
        by (unfold n; destruct att; cbn [negb Zb]; lia).
      by rewrite E in H2.
  - rewrite !length_app. cbn [length]. by rewrite length_fmap.
  - rewrite !fmap_app, !fmap_cons, <- list_fmap_compose. done.
  - rewrite !fmap_app, !fmap_cons, <- list_fmap_compose. done.
  - rewrite !attached_app, !attached_cons, attached_bump, Hatt.
    cbn [attached id]. destruct att; cbn [negb app]; symmetry; apply Permutation_middle.
  - intros x Hx Ha. apply elem_of_app in Hx as [Hx|Hx]; [right; exists x; set_solver|].
    apply elem_of_cons in Hx as [->|Hx]; [by left|].
    apply list_elem_of_fmap in Hx as (y & -> & Hy). right. exists y. set_solver.
Qed.

(** The [j]-th attached entry has fake id [j], and no entry before it has. *)
Lemma real_id_nth l i det f :
  fakes_ok i det l → 0 <= i - det → 0 <= f - (i - det) → i + Z.of_nat (length l) < 2 ^ 31 →
  f < 2 ^ 32 - 1 →
  adf_get_vf_real_id f l = default (-1) (attached_ids l !! Z.to_nat (f - (i - det))).
Proof.
  unfold adf_get_vf_real_id. revert i det. induction l as [|m l IH]; intros i det Hok Hp Hf Hn Hmax.
  { done. }
  destruct Hok as (Hid & Hfk & Hok). rewrite attached_cons. cbn [list_find].
  cbn [length] in Hn. destruct (attached m) eqn:Ea; cbn [negb Zb app] in *.
  - rewrite Z.add_0_r in *. rewrite wrap_small in Hfk by lia. case_decide as E.
    + replace (f - (i - det)) with 0 by lia. done.
    + specialize (IH (i + 1) det Hok ltac:(lia) ltac:(lia) ltac:(lia) Hmax).
      replace (Z.to_nat (f - (i - det))) with (S (Z.to_nat (f - (i + 1 - det)))) by lia.
      assert (∀ k, (id m :: attached_ids l) !! S k = attached_ids l !! k) as -> by done.
      rewrite <- IH. by destruct (list_find _ l) as [[]|].
  - specialize (IH (i + 1) (det + 1) Hok ltac:(lia) ltac:(lia) ltac:(lia) Hmax).
    replace (i + 1 - (det + 1)) with (i - det) in IH by lia.
    case_decide as E; [|rewrite <- IH; by destruct (list_find _ l) as [[]|]].
    exfalso. destruct (decide (i - det = 0)) as [E0|E0].
    + replace (i - (det + 1)) with (-1) in Hfk by lia. change (u32 (-1)) with (2 ^ 32 - 1) in Hfk. lia.
    + rewrite wrap_small in Hfk by lia. lia.
Qed.

(** ** The invariant of the table *)

Definition vf_bdf (d : accel_dev) : Z := u32 (adf_get_vf_num d).

Definition table_ids (s : state) : list (option Z) :=
  (λ p, accel_id <$> devs s !! p) <$> accel_table s.

Record inv (s : state) : Prop := {
  i_fakes : fakes_ok 0 0 (vfs_table s);
  i_num : num_devices s = Z.of_nat (length (vfs_table s));
  i_max : (length (vfs_table s) <= 1024)%nat;
  i_map : id_map s = replicate (length (vfs_table s)) true
                     ++ replicate (1024 - length (vfs_table s)) false;
  (* the devices of the table are those of the attached entries *)
  i_devs : table_ids s ≡ₚ Some <$> attached_ids (vfs_table s);
  i_vf : ∀ p d, p ∈ accel_table s → devs s !! p = Some d → is_vf d = true →
    vf_bdf d ≠ NO_BDF ∧ ∃ m e, adf_find_vf (vf_bdf d) (vfs_table s) = Some m ∧
      vfs_table s !! m = Some e ∧ id e = accel_id d;
  i_bdf : ∀ e, e ∈ vfs_table s → attached e = false → bdf e ≠ NO_BDF;
}.

Lemma fakes_id i det l k m : fakes_ok i det l → l !! k = Some m → id m = i + Z.of_nat k.
Proof.
  revert i det k. induction l as [|x l IH]; intros i det k; [done|].
  intros (Hid & _ & Hl). destruct k as [|k]; cbn.
  - intros [= <-]. lia.
  - intros Hk. rewrite (IH _ _ _ Hl Hk). lia.
Qed.

Lemma ids_seq i det l : fakes_ok i det l → id <$> l = seqZ i (Z.of_nat (length l)).
Proof.
  revert i det. induction l as [|m l IH]; intros i det; [done|].
  intros (Hid & _ & Hl). rewrite fmap_cons, (IH _ _ Hl), Hid. cbn [length].
  rewrite (seqZ_cons i) by lia. do 2 f_equal; lia.
Qed.

Lemma attached_NoDup l : fakes_ok 0 0 l → NoDup (attached_ids l).
Proof.
  intros Hok. unfold attached_ids. eapply sublist_NoDup; [|apply fmap_sublist, sublist_filter].
  rewrite (ids_seq _ _ _ Hok). apply NoDup_seqZ.
Qed.

Lemma attached_entry l m e :
  fakes_ok 0 0 l → l !! m = Some e → id e ∈ attached_ids l → attached e = true.
Proof.
  intros Hok Hm (e' & E & [Ha He']%list_elem_of_filter)%list_elem_of_fmap.
  apply list_elem_of_lookup in He' as [k Hk].
  rewrite (fakes_id _ _ _ _ _ Hok Hm), (fakes_id _ _ _ _ _ Hok Hk) in E.
  assert (m = k) as -> by lia. congruence.
Qed.

Lemma find_vf_bdf b l l' : bdf <$> l' = bdf <$> l → adf_find_vf b l' = adf_find_vf b l.
Proof.
  unfold adf_find_vf. revert l'. induction l as [|x l IH]; intros [|y l']; try done.
  cbn. intros [= E1 E2]. rewrite E1. case_decide; [done|].
  specialize (IH l' E2). destruct (list_find _ l) as [[]|], (list_find _ l') as [[]|]; cbn in *;
    congruence.
Qed.

Lemma find_vf_Some b l m :
  adf_find_vf b l = Some m → ∃ e, l !! m = Some e ∧ bdf e = b.
Proof.
  unfold adf_find_vf. destruct (list_find _ l) as [[k x]|] eqn:E; [|done].
  intros [= <-]. apply list_find_Some in E as (? & ? & _). by exists x.
Qed.

Lemma find_vf_app b l k m : adf_find_vf b l = Some m → adf_find_vf b (l ++ k) = Some m.
Proof.
  unfold adf_find_vf. destruct (list_find _ l) as [[i x]|] eqn:E; [|done].
  intros [= <-]. by rewrite (list_find_app_l _ _ _ _ _ E).
Qed.

Lemma find_vf_last b l e :
  adf_find_vf b l = None → bdf e = b → adf_find_vf b (l ++ [e]) = Some (length l).
Proof.
  unfold adf_find_vf. destruct (list_find _ l) as [[]|] eqn:E; [done|]. intros _ Hb.
  rewrite list_find_app_r by done. cbn. rewrite decide_True by done. done.
Qed.

(** The table is left alone by a change to a device that is not in it. *)
Lemma table_ids_insert s p d l l' :
  p ∉ accel_table s →
  table_ids (State (accel_table s) l (num_devices s) l' (<[p := d]> (devs s))) = table_ids s.
Proof.
  intros Hp. unfold table_ids. cbn. apply list_fmap_ext. intros i q Hq.
  rewrite lookup_insert_ne; [done|]. intros ->. apply Hp, list_elem_of_lookup. by exists i.
Qed.

(** A device with a new entry at the end. *)
Lemma inv_push s p d b :
  inv s → p ∉ accel_table s → (∀ e, e ∈ vfs_table s → attached e = true) →
  num_devices s < ADF_MAX_DEVICES → accel_id d = num_devices s →
  (is_vf d = true → b = vf_bdf d ∧ b ≠ NO_BDF ∧ adf_find_vf b (vfs_table s) = None) →
  inv (State (accel_table s ++ [p]) (vfs_table s ++ [IdMap b (num_devices s) (num_devices s) true])
    (u32 (num_devices s + 1)) (<[length (vfs_table s) := true]> (id_map s)) (<[p := d]> (devs s))).
Proof.
  intros [Hf Hn Hmax Hmap Hdevs Hvf Hbdf] Hp Hatt Hroom Hid Hb.
  change ADF_MAX_DEVICES with 1024 in Hroom. rewrite Hn in *.
  set (n := length (vfs_table s)) in *.
  assert (n_detached (vfs_table s) = 0) as Hdet.
  { clear -Hatt. induction (vfs_table s) as [|x l IH]; [done|].
    rewrite n_detached_cons, IH by set_solver. by rewrite Hatt by set_solver. }
  split; cbn [accel_table vfs_table num_devices id_map devs].
  - apply fakes_app. split; [done|]. cbn. rewrite Hdet, Z.add_0_r, Z.sub_0_r.
    rewrite wrap_small by lia. done.
  - rewrite length_app, wrap_small by lia. simpl. lia.
  - rewrite length_app. simpl. lia.
  - rewrite length_app, Hmap. fold n. cbn [length].
    rewrite insert_app_r_alt by (rewrite length_replicate; lia).
    rewrite length_replicate, Nat.sub_diag.
    replace (1024 - n)%nat with (S (1024 - (n + 1))) by lia. cbn [replicate].
    rewrite (replicate_add n 1), <- app_assoc. done.
  - unfold table_ids. cbn. rewrite fmap_app, attached_app, fmap_app. cbn.
    rewrite lookup_insert_eq. cbn. rewrite Hid. apply Permutation_app_tail.
    rewrite <- Hdevs. by rewrite <- (table_ids_insert s p d (vfs_table s) (id_map s)).
  - intros q e Hq He Hvfe. apply elem_of_app in Hq as [Hq|Hq%list_elem_of_singleton].
    + rewrite lookup_insert_ne in He by (intros ->; done).
      destruct (Hvf q e Hq He Hvfe) as (? & m & x & Hm & Hx & Hxe). split; [done|].
      exists m, x. split_and!; [by apply find_vf_app|by apply lookup_app_l_Some|done].
    + subst q. rewrite lookup_insert_eq in He. injection He as <-.
      destruct (Hb Hvfe) as (-> & Hne & Hfind). split; [done|]. eexists n, _.
      split_and!; [by apply find_vf_last|by apply list_lookup_middle|done].
  - intros e [He|He%list_elem_of_singleton]%elem_of_app Ha; [by apply Hbdf|by subst e].
Qed.

Lemma entry_id (l l' : list vf_id_map) (m : nat) e :
  id <$> l' = id <$> l → l !! m = Some e → ∃ e', l' !! m = Some e' ∧ id e' = id e.
Proof.
  intros E Hm. apply (f_equal (.!! m)) in E. rewrite !list_lookup_fmap, Hm in E.
  destruct (l' !! m) as [e'|]; [|done]. injection E as E. by exists e'.
Qed.

Lemma list_del_notin p (l : list nat) : p ∉ l → list_del p l = l.
Proof.
  intros Hp. unfold list_del. induction l as [|q l IH]; [done|].
  rewrite filter_cons_True, IH by set_solver. done.
Qed.

Lemma list_del_perm p (l : list nat) : NoDup l → p ∈ l → l ≡ₚ p :: list_del p l.
Proof.
  induction 1 as [|q l Hq _ IH]; [set_solver|]. unfold list_del. rewrite filter_cons.
  intros [<-|Hp]%elem_of_cons.
  - rewrite decide_False by naive_solver. change (filter _ l) with (list_del p l).
    by rewrite list_del_notin.
  - rewrite decide_True by (intros ->; done). change (filter _ l) with (list_del p l).
    rewrite (IH Hp) at 1. apply Permutation_swap.
Qed.

Lemma table_NoDup s : inv s → NoDup (accel_table s).
Proof.
  intros [Hf _ _ _ Hdevs _ _]. apply (NoDup_fmap_1 (λ p, accel_id <$> devs s !! p)).
  change (NoDup (table_ids s)). rewrite Hdevs. apply NoDup_fmap_2; [apply _|].
  by apply attached_NoDup.
Qed.

(** A device of the table is that of an attached entry. *)
Lemma table_attached s p d :
  inv s → p ∈ accel_table s → devs s !! p = Some d → accel_id d ∈ attached_ids (vfs_table s).
Proof.
  intros [_ _ _ _ Hdevs _ _] Hp Hd.
  assert (Some (accel_id d) ∈ table_ids s) as H.
  { apply list_elem_of_fmap. exists p. by rewrite Hd. }
  rewrite Hdevs in H. by apply list_elem_of_fmap in H as (? & [= ->] & ?).
Qed.

(** A detached VF comes back. *)
Lemma inv_attach s p d m e :
  inv s → p ∉ accel_table s → adf_find_vf (vf_bdf d) (vfs_table s) = Some m →
  vfs_table s !! m = Some e → attached e = false → accel_id d = id e →
  ∃ l', shift_fakes 1 true m (vfs_table s) = Some l' ∧
    inv (State (accel_table s ++ [p]) l' (num_devices s) (id_map s) (<[p := d]> (devs s))).
Proof.
  intros [Hf Hn Hmax Hmap Hdevs Hvf Hbdf] Hp Hfind Hm Ha Hid.
  destruct (shift_fakes_ok true m (vfs_table s) e Hf Hm Ha)
    as (l' & Hl' & Hf' & Hlen & Eb & Ei & Hatt & Hdet).
  exists l'. split; [done|].
  assert (vf_bdf d ≠ NO_BDF) as Hne.
  { destruct (find_vf_Some _ _ _ Hfind) as (e' & He' & <-). apply Hbdf; [|congruence].
    by eapply list_elem_of_lookup_2. }
  assert (∀ q x, adf_find_vf (vf_bdf x) (vfs_table s) = Some q → ∀ y, vfs_table s !! q = Some y →
    id y = accel_id x → ∃ k z, adf_find_vf (vf_bdf x) l' = Some k ∧ l' !! k = Some z ∧
    id z = accel_id x) as Hkeep.
  { intros q x Hq y Hy Hyx. destruct (entry_id _ _ _ _ Ei Hy) as (z & Hz & Hzy).
    exists q, z. rewrite (find_vf_bdf _ _ _ Eb). by rewrite Hzy. }
  split; cbn [accel_table vfs_table num_devices id_map devs].
  - done.
  - by rewrite Hlen.
  - by rewrite Hlen.
  - by rewrite Hlen.
  - unfold table_ids. cbn. rewrite fmap_app. cbn. rewrite lookup_insert_eq. cbn.
    rewrite Hatt, Hid, fmap_cons, <- Permutation_cons_append. constructor. rewrite <- Hdevs.
    by rewrite <- (table_ids_insert s p d (vfs_table s) (id_map s)).
  - intros q x [Hq|Hq%list_elem_of_singleton]%elem_of_app Hx Hxv.
    + rewrite lookup_insert_ne in Hx by (intros ->; done).
      destruct (Hvf q x Hq Hx Hxv) as (? & k & y & Hk & Hy & Hyx). split; [done|]. by eapply Hkeep.
    + subst q. rewrite lookup_insert_eq in Hx. injection Hx as <-. split; [done|].
      by eapply Hkeep.
  - intros x Hx Hxa. destruct (Hdet x Hx Hxa) as [->|(y & Hy & Hya & ->)].
    + destruct (find_vf_Some _ _ _ Hfind) as (e' & He' & Eb'). assert (e' = e) as -> by congruence.
      by rewrite Eb'.
    + by apply Hbdf.
Qed.

(** A VF of the table goes. *)
Lemma inv_detach s p d :
  inv s → p ∈ accel_table s → devs s !! p = Some d → is_vf d = true →
  ∃ m l', adf_find_vf (vf_bdf d) (vfs_table s) = Some m ∧
    shift_fakes (-1) false m (vfs_table s) = Some l' ∧
    inv (State (list_del p (accel_table s)) l' (num_devices s) (id_map s) (devs s)).
Proof.
  intros Hinv Hp Hd Hv. pose proof (table_NoDup s Hinv) as Hnd.
  pose proof (table_attached s p d Hinv Hp Hd) as Hin.
  destruct Hinv as [Hf Hn Hmax Hmap Hdevs Hvf Hbdf].
  destruct (Hvf p d Hp Hd Hv) as (Hne & m & e & Hfind & Hm & Hid). rewrite <- Hid in Hin.
  pose proof (attached_entry _ _ _ Hf Hm Hin) as Ha.
  destruct (shift_fakes_ok false m (vfs_table s) e Hf Hm Ha)
    as (l' & Hl' & Hf' & Hlen & Eb & Ei & Hatt & Hdet).
  exists m, l'. split_and!; [done..|]. split; cbn [accel_table vfs_table num_devices id_map devs].
  - done.
  - by rewrite Hlen.
  - by rewrite Hlen.
  - by rewrite Hlen.
  - apply (Permutation_cons_inv (a := Some (accel_id d))). rewrite <- Hid at 2.
    rewrite <- (fmap_cons Some), <- Hatt, <- Hdevs. unfold table_ids. cbn.
    rewrite (list_del_perm p (accel_table s)) at 2 by done. rewrite fmap_cons, Hd. done.
  - intros q x [Hqp Hq]%list_elem_of_filter Hx Hxv.
    destruct (Hvf q x Hq Hx Hxv) as (? & k & y & Hk & Hy & Hyx). split; [done|].
    destruct (entry_id _ _ _ _ Ei Hy) as (z & Hz & Hzy). exists k, z.
    rewrite (find_vf_bdf _ _ _ Eb). by rewrite Hzy.
  - intros x Hx Hxa. destruct (Hdet x Hx Hxa) as [->|(y & Hy & Hya & ->)]; [|by apply Hbdf].
    destruct (find_vf_Some _ _ _ Hfind) as (e' & He' & Eb'). assert (e' = e) as -> by congruence.
    by rewrite Eb'.
Qed.

(** ** The host's table over time *)

(** A device the table can take: a known VF that is detached, or a new device
    while no VF is detached and there is room. *)
Definition addable (p : nat) (d : accel_dev) (s : state) : Prop :=
  p ∉ accel_table s ∧ devs s !! p = Some d ∧ (is_vf d = true → vf_bdf d ≠ NO_BDF) ∧
  match (if is_vf d then adf_find_vf (vf_bdf d) (vfs_table s) else None) with
  | Some m => ∃ e, vfs_table s !! m = Some e ∧ attached e = false
  | None => (∀ e, e ∈ vfs_table s → attached e = true) ∧ num_devices s < ADF_MAX_DEVICES
  end.

Inductive step : state → state → Prop :=
  | step_add p d s s' :
    addable p d s → adf_devmgr_add_dev true p (is_vf d) s = Some (0, s') → step s s'
  | step_rm p d s s' :
    p ∈ accel_table s → devs s !! p = Some d → is_vf d = true →
    adf_devmgr_rm_dev p true s = Some ((), s') → step s s'.

Definition start (d : gmap nat accel_dev) : state := State [] [] 0 (replicate 1024 false) d.

Inductive reach : state → Prop :=
  | reach_start d : reach (start d)
  | reach_step s s' : reach s → step s s' → reach s'.

Lemma upd_dev_run p f s d :
  devs s !! p = Some d → upd_dev p f s = Some ((), set_devs (<[p := f d]> (devs s)) s).
Proof. intros Hd. unfold upd_dev, dev. autorewrite with monad. rewrite Hd. done. Qed.

Lemma dev_run p s d : devs s !! p = Some d → dev p s = Some (d, s).
Proof. intros Hd. unfold dev. autorewrite with monad. by rewrite Hd. Qed.

Lemma find_free_run s s1 :
  inv s → num_devices s < ADF_MAX_DEVICES → id_map s1 = id_map s →
  adf_find_free_id s1 =
    Some (num_devices s, set_id_map (<[length (vfs_table s) := true]> (id_map s)) s1).
Proof.
  intros [_ Hn _ Hmap _ _ _] Hroom E. change ADF_MAX_DEVICES with 1024 in Hroom.
  unfold adf_find_free_id. autorewrite with monad. rewrite E.
  assert (list_find (λ used, used = false) (id_map s) = Some (length (vfs_table s), false)) as ->.
  { rewrite Hmap, list_find_app_r.
    - replace (1024 - length (vfs_table s))%nat with (S (1023 - length (vfs_table s))) by lia.
      cbn. rewrite length_replicate. do 2 f_equal; lia.
    - apply list_find_None, Forall_replicate. done. }
  autorewrite with monad. by rewrite Hn.
Qed.

(** The state [inv_push] describes. *)
Definition pushed (p : nat) (d : accel_dev) (b : Z) (s : state) : state :=
  State (accel_table s ++ [p]) (vfs_table s ++ [IdMap b (num_devices s) (num_devices s) true])
    (u32 (num_devices s + 1)) (<[length (vfs_table s) := true]> (id_map s)) (<[p := d]> (devs s)).

Lemma add_new p d s :
  inv s → addable p d s →
  (if is_vf d then adf_find_vf (vf_bdf d) (vfs_table s) else None) = None →
  adf_devmgr_add_dev true p (is_vf d) s =
    Some (0, pushed p (with_accel_id (num_devices s) (with_ref_count 0 d))
               (if is_vf d then vf_bdf d else NO_BDF) s).
Proof.
  intros Hinv (Hp & Hd & _ & Hadd) Hnew. rewrite Hnew in Hadd. destruct Hadd as [Hatt Hroom].
  unfold adf_devmgr_add_dev. autorewrite with monad.
  rewrite (proj2 (Z.eqb_neq _ _)) by lia.
  rewrite (bind_Some _ _ _ _ _ (upd_dev_run p _ s d Hd)).
  set (s1 := set_devs _ s). assert (devs s1 !! p = Some (with_ref_count 0 d)) as Hd1
    by apply lookup_insert_eq.
  rewrite (bind_Some _ _ _ _ _ (dev_run p s1 _ Hd1)). cbn [is_vf with_ref_count].
  destruct (is_vf d) eqn:Hv; cbn [negb orb andb]; autorewrite with monad.
  - change (u32 (adf_get_vf_num (with_ref_count 0 d))) with (vf_bdf d).
    change (vfs_table s1) with (vfs_table s). rewrite Hnew. cbn [negb].
    rewrite (bind_Some _ _ _ _ _ (find_free_run s s1 Hinv Hroom eq_refl)).
    set (s2 := set_id_map _ s1).
    rewrite (bind_Some _ _ _ _ _ (upd_dev_run p _ s2 _ Hd1)).
    rewrite (proj2 (Z.ltb_ge _ _)) by lia. autorewrite with monad.
    unfold ret, pushed. do 2 f_equal. unfold s2, s1. cbn. by rewrite insert_insert_eq.
  - rewrite decide_False by done. autorewrite with monad.
    rewrite (bind_Some _ _ _ _ _ (find_free_run s (set_accel_table (accel_table s1 ++ [p]) s1)
      Hinv Hroom eq_refl)).
    set (s2 := set_id_map _ _).
    rewrite (bind_Some _ _ _ _ _ (upd_dev_run p _ s2 _ Hd1)).
    rewrite (proj2 (Z.ltb_ge _ _)) by lia. autorewrite with monad. cbn [negb].
    autorewrite with monad.
    unfold ret, pushed. do 2 f_equal. unfold s2, s1. cbn. by rewrite insert_insert_eq.
Qed.

Lemma add_known p d s m e :
  inv s → addable p d s → is_vf d = true → adf_find_vf (vf_bdf d) (vfs_table s) = Some m →
  vfs_table s !! m = Some e →
  ∀ l', shift_fakes 1 true m (vfs_table s) = Some l' →
  adf_devmgr_add_dev true p true s = if num_devices s =? ADF_MAX_DEVICES then Some (- EFAULT, s) else
    Some (0, State (accel_table s ++ [p]) l' (num_devices s) (id_map s)
               (<[p := with_accel_id (id e) (with_ref_count 0 d)]> (devs s))).
Proof.
  intros Hinv (Hp & Hd & _ & _) Hv Hfind Hm l' Hl'.
  unfold adf_devmgr_add_dev. autorewrite with monad.
  destruct (num_devices s =? ADF_MAX_DEVICES); [done|].
  rewrite (bind_Some _ _ _ _ _ (upd_dev_run p _ s d Hd)).
  set (s1 := set_devs _ s). assert (devs s1 !! p = Some (with_ref_count 0 d)) as Hd1
    by apply lookup_insert_eq.
  rewrite (bind_Some _ _ _ _ _ (dev_run p s1 _ Hd1)). cbn [is_vf with_ref_count]. rewrite Hv.
  cbn [negb orb andb]. autorewrite with monad.
  change (u32 (adf_get_vf_num (with_ref_count 0 d))) with (vf_bdf d).
  change (vfs_table s1) with (vfs_table s). rewrite Hfind, Hm. autorewrite with monad.
  rewrite (bind_Some _ _ _ _ _ (upd_dev_run p _ s1 _ Hd1)). autorewrite with monad.
  rewrite Hl'. autorewrite with monad. unfold ret. do 2 f_equal. unfold s1. cbn.
  by rewrite insert_insert_eq.
Qed.

(** Adding a device succeeds and keeps the invariant; the one exception is a
    known VF while all 1024 ids are given. *)
Lemma add_inv p d s :
  inv s → addable p d s → num_devices s < ADF_MAX_DEVICES →
  ∃ s', adf_devmgr_add_dev true p (is_vf d) s = Some (0, s') ∧ inv s'.
Proof.
  intros Hinv Hadd Hroom. pose proof Hadd as (Hp & Hd & Hb & Hcase).
  destruct (if is_vf d then _ else _) as [m|] eqn:Hfind.
  - destruct (is_vf d) eqn:Hv; [|done]. destruct Hcase as (e & Hm & Ha).
    destruct (inv_attach s p (with_accel_id (id e) (with_ref_count 0 d)) m e)
      as (l' & Hl' & Hinv'); [done..|].
    rewrite (add_known p d s m e) with (l' := l') by done.
    rewrite (proj2 (Z.eqb_neq _ _)) by lia. by eexists.
  - eexists. split; [by apply add_new|]. apply inv_push; try done.
    + by apply Hcase.
    + intros Hv. change (vf_bdf (with_accel_id _ _)) with (vf_bdf d).
      change (is_vf (with_accel_id _ _)) with (is_vf d) in Hv. rewrite Hv in *.
      split_and!; [done|by apply Hb|done].
Qed.

Lemma rm_inv p d s :
  inv s → p ∈ accel_table s → devs s !! p = Some d → is_vf d = true →
  ∃ s', adf_devmgr_rm_dev p true s = Some ((), s') ∧ inv s'.
Proof.
  intros Hinv Hp Hd Hv. destruct (inv_detach s p d Hinv Hp Hd Hv) as (m & l' & Hfind & Hl' & Hinv').
  eexists. split; [|exact Hinv']. unfold adf_devmgr_rm_dev.
  rewrite (bind_Some _ _ _ _ _ (dev_run p s d Hd)), Hv. cbn [negb orb andb].
  autorewrite with monad. fold (vf_bdf d). rewrite Hfind. autorewrite with monad.
  by rewrite Hl'.
Qed.

Lemma start_inv d : inv (start d).
Proof. split; try done; simpl; lia || set_solver. Qed.

Lemma reach_inv s : reach s → inv s.
Proof.
  induction 1 as [d|s s' _ Hinv Hstep]; [apply start_inv|].
  destruct Hstep as [p d s s' Hadd Hrun|p d s s' Hp Hd Hv Hrun].
  - destruct (add_inv p d s Hinv Hadd) as (s2 & Hrun2 & Hinv2).
    { destruct (decide (num_devices s = ADF_MAX_DEVICES)) as [E|E].
      - exfalso. unfold adf_devmgr_add_dev in Hrun. autorewrite with monad in Hrun.
        by rewrite E, Z.eqb_refl in Hrun.
      - destruct Hinv as [_ Hn Hmax _ _ _ _]. change ADF_MAX_DEVICES with 1024 in *. lia. }
    congruence.
  - destruct (rm_inv p d s Hinv Hp Hd Hv) as (s2 & Hrun2 & Hinv2). congruence.
Qed.

(** The device with an id that is in the table is found. *)
Lemma find_dev_id s (i : Z) (l : list nat) :
  (∀ p, p ∈ l → is_Some (devs s !! p)) →
  Some i ∈ (λ p, accel_id <$> devs s !! p) <$> l →
  ∃ p d, find_dev (λ d, accel_id d =? i) l s = Some (Some p, s) ∧ p ∈ l ∧
         devs s !! p = Some d ∧ accel_id d = i.
Proof.
  induction l as [|q l IH]; intros Hl Hi; [set_solver|].
  destruct (Hl q) as [x Hx]; [set_solver|]. cbn [find_dev].
  rewrite (bind_Some _ _ _ _ _ (dev_run q s x Hx)).
  destruct (Z.eqb_spec (accel_id x) i) as [E|E].
  - exists q, x. split_and!; [done|set_solver|done..].
  - rewrite fmap_cons, Hx in Hi. apply elem_of_cons in Hi as [[= Hi]|Hi]; [congruence|].
    destruct IH as (p & d & Hrun & Hp & Hd); [set_solver|done|]. exists p, d. set_solver.
Qed.

Definition nth_attached (s : state) (f : Z) : option Z := attached_ids (vfs_table s) !! Z.to_nat f.

Lemma get_dev_run s f :
  inv s → 0 <= f < 2 ^ 32 - 1 →
  match nth_attached s f with
  | Some i => ∃ p d, adf_devmgr_get_dev_by_id f s = Some (Some p, s) ∧ p ∈ accel_table s ∧
                     devs s !! p = Some d ∧ accel_id d = i
  | None => adf_devmgr_get_dev_by_id f s = Some (None, s)
  end.
Proof.
  intros Hinv Hf. pose proof Hinv as [Hfk Hn Hmax _ Hdevs _ _].
  unfold adf_devmgr_get_dev_by_id. autorewrite with monad.
  rewrite (real_id_nth _ 0 0 f Hfk) by lia. rewrite !Z.sub_0_r.
  unfold nth_attached. destruct (_ !! Z.to_nat f) as [i|] eqn:Hi; [|done].
  change (default (-1) (Some i)) with i.
  assert (i ∈ attached_ids (vfs_table s)) as Hin by by eapply list_elem_of_lookup_2.
  assert (0 <= i) as Hi0.
  { apply list_elem_of_fmap in Hin as (e & -> & [_ He]%list_elem_of_filter).
    apply list_elem_of_lookup in He as [k Hk]. rewrite (fakes_id _ _ _ _ _ Hfk Hk). lia. }
  rewrite (proj2 (Z.ltb_ge _ _)) by lia. autorewrite with monad. apply find_dev_id.
  - intros p Hp. destruct (devs s !! p) as [d|] eqn:Hd; [done|]. exfalso.
    assert (None ∈ table_ids s) as H.
    { apply list_elem_of_fmap. exists p. by rewrite Hd. }
    rewrite Hdevs in H. by apply list_elem_of_fmap in H as (? & ? & ?).
  - change (Some i ∈ table_ids s). rewrite Hdevs. by apply list_elem_of_fmap_2.
Qed.

Lemma attached_length l : n_detached l + Z.of_nat (length (attached_ids l)) = Z.of_nat (length l).
Proof.
  induction l as [|m l IH]; [done|]. rewrite n_detached_cons, attached_cons, length_app.
  destruct (attached m); cbn [negb Zb length]; lia.
Qed.

Lemma num_dev_run s :
  inv s → adf_devmgr_get_num_dev s = Some (Z.of_nat (length (accel_table s)), s).
Proof.
  intros [_ Hn Hmax _ Hdevs _ Hbdf]. unfold adf_devmgr_get_num_dev, adf_get_num_dettached_vfs.
  autorewrite with monad. unfold ret. do 2 f_equal.
  assert (filter (λ m, bdf m ≠ NO_BDF ∧ attached m = false) (vfs_table s) =
    filter (λ m, attached m = false) (vfs_table s)) as ->.
  { clear -Hbdf. induction (vfs_table s) as [|m l IH]; [done|]. rewrite !filter_cons.
    rewrite IH by set_solver. do 2 case_decide; try done.
    - naive_solver.
    - exfalso. apply H. split; [|done]. by apply Hbdf; [set_solver|]. }
  apply Permutation_length in Hdevs. unfold table_ids in Hdevs. rewrite !length_fmap in Hdevs.
  pose proof (attached_length (vfs_table s)) as H. unfold n_detached in H.
  rewrite Hn, wrap_small by lia. unfold attached_ids in *. rewrite length_fmap in *. lia.
Qed.


(** When the allocation of its map entry fails, a PF is refused with -ENOMEM
    but left in the table, with its id and the device count taken (its driver
    then frees the device); a VF of a host is refused with nothing changed. *)
Theorem adf_devmgr_add_dev_enomem p d s :
  inv s → addable p d s →
  (if is_vf d then adf_find_vf (vf_bdf d) (vfs_table s) else None) = None →
  ∃ s', adf_devmgr_add_dev false p (is_vf d) s = Some (- ENOMEM, s') ∧
    vfs_table s' = vfs_table s ∧
    if is_vf d then accel_table s' = accel_table s ∧ num_devices s' = num_devices s
    else accel_table s' = accel_table s ++ [p] ∧ num_devices s' = num_devices s + 1.
Proof.
  intros Hinv (Hp & Hd & _ & Hadd) Hnew. rewrite Hnew in Hadd. destruct Hadd as [Hatt Hroom].
  unfold adf_devmgr_add_dev. autorewrite with monad.
  rewrite (proj2 (Z.eqb_neq _ _)) by lia.
  rewrite (bind_Some _ _ _ _ _ (upd_dev_run p _ s d Hd)).
  set (s1 := set_devs _ s). assert (devs s1 !! p = Some (with_ref_count 0 d)) as Hd1
    by apply lookup_insert_eq.
  rewrite (bind_Some _ _ _ _ _ (dev_run p s1 _ Hd1)). cbn [is_vf with_ref_count].
  destruct (is_vf d) eqn:Hv; cbn [negb orb andb]; autorewrite with monad.
  - change (u32 (adf_get_vf_num (with_ref_count 0 d))) with (vf_bdf d).
    change (vfs_table s1) with (vfs_table s). rewrite Hnew. cbn [negb]. by eexists.
  - rewrite decide_False by done. autorewrite with monad.
    rewrite (bind_Some _ _ _ _ _ (find_free_run s (set_accel_table (accel_table s1 ++ [p]) s1)
      Hinv Hroom eq_refl)).
    set (s2 := set_id_map _ _).
    rewrite (bind_Some _ _ _ _ _ (upd_dev_run p _ s2 _ Hd1)).
    rewrite (proj2 (Z.ltb_ge _ _)) by lia. autorewrite with monad. cbn [negb].
    eexists. split; [reflexivity|]. split; [done|]. split; [done|]. cbn.
    rewrite wrap_small; [done|]. destruct Hinv as [_ Hn _ _ _ _ _].
    change ADF_MAX_DEVICES with 1024 in Hroom. lia.
Qed.

(** ** A host with a PF and three VFs *)

Definition ex_device (vf : bool) (n : nat) : accel_dev :=
  Dev vf n 3 (8 + Z.of_nat n) 0 0 0 0 false true.
Definition ex_devs : gmap nat accel_dev :=
  list_to_map [(0%nat, ex_device false 0); (1%nat, ex_device true 1);
               (2%nat, ex_device true 2); (3%nat, ex_device true 3)].

Definition ex_start : state := start ex_devs.
Definition after (m : M state Z) (s : state) : state := (default (0, s) (m s)).2.
Definition ex_s1 : state := after (adf_devmgr_add_dev true 0 false) ex_start.
Definition ex_s2 : state := after (adf_devmgr_add_dev true 1 true) ex_s1.
Definition ex_s3 : state := after (adf_devmgr_add_dev true 2 true) ex_s2.
Definition ex_s4 : state := after (adf_devmgr_rm_dev 1 true ;; ret 0) ex_s3.

Lemma ex_reach : reach ex_s4.
Proof.
  assert (reach ex_s1) as H1.
  { apply (reach_step ex_start); [apply reach_start|].
    apply (step_add 0 (ex_device false 0)); [|vm_compute; reflexivity].
    split_and!; [set_solver|reflexivity|done|]. split; [set_solver|reflexivity]. }
  assert (reach ex_s2) as H2.
  { apply (reach_step ex_s1); [done|].
    apply (step_add 1 (ex_device true 1)); [|vm_compute; reflexivity].
    split_and!; [apply (bool_decide_eq_true_1 _); vm_compute; reflexivity|reflexivity|done|].
    split; [apply Forall_forall, (bool_decide_eq_true_1 _); vm_compute; reflexivity|
      vm_compute; reflexivity]. }
  assert (reach ex_s3) as H3.
  { apply (reach_step ex_s2); [done|].
    apply (step_add 2 (ex_device true 2)); [|vm_compute; reflexivity].
    split_and!; [apply (bool_decide_eq_true_1 _); vm_compute; reflexivity|reflexivity|done|].
    split; [apply Forall_forall, (bool_decide_eq_true_1 _); vm_compute; reflexivity|
      vm_compute; reflexivity]. }
  apply (reach_step ex_s3); [done|].
  apply (step_rm 1 (default (ex_device true 1) (devs ex_s3 !! 1%nat)));
    [apply (bool_decide_eq_true_1 _); vm_compute; reflexivity|vm_compute; reflexivity..].
Qed.


Lemma adf_devmgr_add_dev_enomem_witness :
  ∃ s', adf_devmgr_add_dev false 0 false ex_start = Some (- ENOMEM, s') ∧
    vfs_table s' = [] ∧ accel_table s' = [0%nat] ∧ num_devices s' = 1.
Proof.
  apply (adf_devmgr_add_dev_enomem 0 (ex_device false 0) ex_start);
    [apply start_inv| |reflexivity].
  split_and!; [set_solver|reflexivity|done|]. split; [set_solver|reflexivity].
Defined.

(** A VF that is new while another is detached gets its real id for fake id:
    the ids then have a gap, and one of the devices counted is not found. *)
Example new_vf_gap :
  let s := after (adf_devmgr_add_dev true 3 true) ex_s4 in
  (fst <$> adf_devmgr_get_num_dev s) = Some 3 ∧ (fst <$> adf_devmgr_get_dev_by_id 2 s) = Some None.
Proof. split; vm_compute; reflexivity. Qed.

End DevMgr.
