(* ===== verification/BufferDesc.v ===== *)
(** * Buffer descriptors

    Models [lac_buffer_desc.c]: the descriptor of a buffer list that is written
    for the hardware into the list's metadata area, the checks and sizes of
    client buffer lists, and the zeroing of part of one.  Memory the
    descriptors are written to is a map from addresses to the values stored
    there, a field at a time; address translation, [virt2phys], is the
    client's. *)

From S2P Require Import Prelude.

#[local] Open Scope Z_scope.
#[local] Open Scope qat_scope.

Module BufferDesc.

Definition INVALID_PHYSICAL_ADDRESS := 0.
Definition ICP_DESCRIPTOR_ALIGNMENT_BYTES := 8.
Definition LAC_NO_ALIGNMENT_SHIFT := 0.

Definition LAC_ALIGN_POW2_ROUNDUP (num align : Z) : Z := clear (u64 (num + align - 1)) (align - 1).
Definition LAC_ADDRESS_ALIGNED (address alignment : Z) : bool :=
  address .& (Z.shiftl 1 alignment - 1) =? 0.

(** [CpaFlatBuffer] and [CpaBufferList]; a pointer is its address, 0 for NULL,
    except that [pBuffers] is the array it points to, [None] for NULL. *)
Record CpaFlatBuffer := FlatBuffer { dataLenInBytes : Z; pData : Z }.
Record CpaBufferList := BufferList {
  numBuffers : Z;
  pBuffers : option (list CpaFlatBuffer);
  pPrivateMetaData : Z;
}.

(** The buffers that can be read through [pBuffers]. *)
Definition bufs_of (l : CpaBufferList) : list CpaFlatBuffer := default [] (pBuffers l).

(** ** Descriptors in memory *)

Abbreviation memory := (gmap Z Z).
Definition store (a v : Z) : M memory () := modify (<[a := v]>).

(** Offsets of the fields of [icp_buffer_list_desc_t] and of
    [icp_flat_buffer_desc_t], and the size of the latter. *)
Definition off_numBuffers := 8.
Definition off_phyBuffers := 16.
Definition off_dataLenInBytes := 0.
Definition off_phyBuffer := 8.
Definition sizeof_flat_desc := 16.

Section write.
Context (virt2phys : Z → Z).

(** The [while] loop over the buffers, with the descriptor to write and the
    sum of the lengths; [None]: an address has no translation. *)
Fixpoint desc_loop (isPhysicalAddress : bool) (num : nat) (bufs : list CpaFlatBuffer)
    (pDesc total : Z) : M memory (option Z) :=
  match num, bufs with
  | O, _ => ret (Some total)
  | S _, [] => fault
  | S num, b :: bufs =>
    store (pDesc + off_dataLenInBytes) (dataLenInBytes b) ;;
    let total := u64 (total + dataLenInBytes b) in
    let phy := if isPhysicalAddress then pData b else virt2phys (pData b) in
    store (pDesc + off_phyBuffer) phy ;;
    if negb isPhysicalAddress && (phy =? INVALID_PHYSICAL_ADDRESS) then ret None else
    desc_loop isPhysicalAddress num bufs (pDesc + sizeof_flat_desc) total
  end.

(** The virtual address of the descriptor: the metadata area moved up to
    where its physical address is aligned. *)
Definition desc_addr (l : CpaBufferList) (bufListDescPhyAddr : Z) : Z :=
  pPrivateMetaData l +
    (LAC_ALIGN_POW2_ROUNDUP bufListDescPhyAddr ICP_DESCRIPTOR_ALIGNMENT_BYTES - bufListDescPhyAddr).

(** The text the two writers share: with [null_for_zero], an empty list gets
    one empty descriptor.  The result: the status and, after a success,
    [*pBufListAlignedPhyAddr] and the total length. *)
Definition write_list (null_for_zero : bool) (l : CpaBufferList) (isPhysicalAddress : bool)
    : M memory (Z * option (Z * Z)) :=
  let bufListDescPhyAddr := virt2phys (pPrivateMetaData l) in
  if bufListDescPhyAddr =? INVALID_PHYSICAL_ADDRESS then ret (CPA_STATUS_FAIL, None) else
  let bufListAlignedPhyAddr :=
    LAC_ALIGN_POW2_ROUNDUP bufListDescPhyAddr ICP_DESCRIPTOR_ALIGNMENT_BYTES in
  let pDesc := desc_addr l bufListDescPhyAddr in
  let pFlat := pDesc + off_phyBuffers in
  store (pDesc + off_numBuffers) (numBuffers l) ;;
  when (null_for_zero && (numBuffers l =? 0))
    (store (pDesc + off_numBuffers) 1 ;;
     store (pFlat + off_dataLenInBytes) 0 ;; store (pFlat + off_phyBuffer) 0) ;;
  r <- desc_loop isPhysicalAddress (Z.to_nat (numBuffers l)) (bufs_of l) pFlat 0 ;;
  match r with
  | None => ret (CPA_STATUS_FAIL, None)
  | Some total => ret (CPA_STATUS_SUCCESS, Some (bufListAlignedPhyAddr, total))
  end.

Definition LacBuffDesc_BufferListDescWrite (l : CpaBufferList) (isPhysicalAddress : bool)
    : M memory (Z * option Z) :=
  let! (st, r) := write_list true l isPhysicalAddress in ret (st, fst <$> r).

Definition LacBuffDesc_BufferListDescWriteAndGetSize (l : CpaBufferList)
    (isPhysicalAddress : bool) : M memory (Z * option (Z * Z)) :=
  write_list false l isPhysicalAddress.
End write.

(** ** Checks and sizes

    The status, and [*pPktSize] after the call. *)

Definition misaligned (b : CpaFlatBuffer) (alignmentShiftExpected : Z) : bool :=
  negb (alignmentShiftExpected =? LAC_NO_ALIGNMENT_SHIFT) &&
  negb (LAC_ADDRESS_ALIGNED (pData b) alignmentShiftExpected).

Definition LacBuffDesc_FlatBufferVerify (b : CpaFlatBuffer) (pktSize shift : Z) : Z * Z :=
  if pData b =? 0 then (CPA_STATUS_INVALID_PARAM, pktSize) else
  if dataLenInBytes b =? 0 then (CPA_STATUS_INVALID_PARAM, pktSize) else
  if misaligned b shift then (CPA_STATUS_INVALID_PARAM, pktSize) else
  (CPA_STATUS_SUCCESS, u64 (pktSize + dataLenInBytes b)).

Definition LacBuffDesc_FlatBufferVerifyNull (b : CpaFlatBuffer) (pktSize shift : Z) : Z * Z :=
  if negb (dataLenInBytes b =? 0) && (pData b =? 0) then (CPA_STATUS_INVALID_PARAM, pktSize) else
  if misaligned b shift then (CPA_STATUS_INVALID_PARAM, pktSize) else
  (CPA_STATUS_SUCCESS, u64 (pktSize + dataLenInBytes b)).

(** The [while] loop of both list checks; [None] reads past [pBuffers]. *)
Fixpoint verify_loop (verify : CpaFlatBuffer → Z → Z → Z * Z) (num : nat)
    (bufs : list CpaFlatBuffer) (pktSize shift : Z) : option (Z * Z) :=
  match num, bufs with
  | O, _ => Some (CPA_STATUS_SUCCESS, pktSize)
  | S _, [] => None
  | S num, b :: bufs =>
    let '(status, pktSize) := verify b pktSize shift in
    if status =? CPA_STATUS_SUCCESS then verify_loop verify num bufs pktSize shift
    else Some (status, pktSize)
  end.

Definition list_verify (verify : CpaFlatBuffer → Z → Z → Z * Z) (l : CpaBufferList)
    (pktSize shift : Z) : option (Z * Z) :=
  match pBuffers l with None => Some (CPA_STATUS_INVALID_PARAM, pktSize) | Some bufs =>
  if pPrivateMetaData l =? 0 then Some (CPA_STATUS_INVALID_PARAM, pktSize) else
  if numBuffers l =? 0 then Some (CPA_STATUS_INVALID_PARAM, pktSize) else
  verify_loop verify (Z.to_nat (numBuffers l)) bufs 0 shift
  end.

Definition LacBuffDesc_BufferListVerify := list_verify LacBuffDesc_FlatBufferVerify.
Definition LacBuffDesc_BufferListVerifyNull := list_verify LacBuffDesc_FlatBufferVerifyNull.

Fixpoint total_size (num : nat) (bufs : list CpaFlatBuffer) (pktSize : Z) : option Z :=
  match num, bufs with
  | O, _ => Some pktSize
  | S _, [] => None
  | S num, b :: bufs => total_size num bufs (u64 (pktSize + dataLenInBytes b))
  end.
Definition LacBuffDesc_BufferListTotalSizeGet (l : CpaBufferList) : option Z :=
  total_size (Z.to_nat (numBuffers l)) (bufs_of l) 0.

(** ** Zeroing

    The contents of the buffers, each of [dataLenInBytes] bytes. *)

(** [osalMemSet(b + offset, 0, len)] *)
Definition memzero (b : list Z) (offset len : Z) : option (list Z) :=
  if (0 <=? offset) && (0 <=? len) && (offset + len <=? Z.of_nat (length b)) then
    Some (take (Z.to_nat offset) b ++ replicate (Z.to_nat len) 0
          ++ drop (Z.to_nat (offset + len)) b)
  else None.

(** The [while] loop; [None] runs past the last buffer or past the end of one. *)
Fixpoint zero_loop (bufs : list (list Z)) (offset sizeLeftToZero : Z) : option (list (list Z)) :=
  if negb (0 <? sizeLeftToZero) then Some bufs else
  match bufs with
  | [] => None
  | b :: bufs =>
    let currentBufferSize := Z.of_nat (length b) in
    if currentBufferSize <=? offset then
      rest ← zero_loop bufs (u32 (offset - currentBufferSize)) sizeLeftToZero; Some (b :: rest)
    else
      let zeroLen :=
        if currentBufferSize <=? sizeLeftToZero then u32 (currentBufferSize - offset)
        else if currentBufferSize <=? u32 (sizeLeftToZero + offset)
        then u32 (currentBufferSize - offset) else sizeLeftToZero in
      b ← memzero b offset zeroLen;
      rest ← zero_loop bufs 0 (u32 (sizeLeftToZero - zeroLen)); Some (b :: rest)
  end.

Definition LacBuffDesc_BufferListZeroFromOffset (bufs : list (list Z)) (offset lenToZero : Z)
    : option (list (list Z)) := zero_loop bufs offset lenToZero.

(** ** Zeroing is a fill of the buffers taken together *)

Definition fill (l : list Z) (offset len : nat) : list Z :=
  take offset l ++ replicate len 0 ++ drop (offset + len) l.

Lemma fill_0 l offset : (offset <= length l)%nat → fill l offset 0 = l.
Proof. intros. unfold fill. cbn. rewrite Nat.add_0_r. apply take_drop. Qed.

Lemma fill_skip b l offset len :
  (length b <= offset)%nat → fill (b ++ l) offset len = b ++ fill l (offset - length b) len.
Proof.
  intros. unfold fill. rewrite take_app_ge, drop_app_ge by lia.
  replace (offset + len - length b)%nat with (offset - length b + len)%nat by lia.
  by rewrite <- app_assoc.
Qed.

Lemma fill_split b l offset k len :
  (offset + k <= length b)%nat → (len = 0 ∨ offset + k = length b)%nat → (len <= length l)%nat →
  fill (b ++ l) offset (k + len) = fill b offset k ++ fill l 0 len.
Proof.
  intros Hk Hlen Hl. unfold fill at 1 2. rewrite take_app_le by lia.
  rewrite replicate_add, <- !app_assoc. do 2 f_equal. destruct Hlen as [->|E].
  - rewrite !Nat.add_0_r, drop_app_le by lia. cbn. by rewrite fill_0 by lia.
  - unfold fill. cbn [take app Nat.add].
    rewrite drop_app_ge, (drop_ge b) by lia. rewrite take_0. cbn [app]. do 2 f_equal. lia.
Qed.

Lemma memzero_fill b offset len :
  0 <= offset → 0 <= len → offset + len <= Z.of_nat (length b) →
  memzero b offset len = Some (fill b (Z.to_nat offset) (Z.to_nat len)).
Proof.
  intros. unfold memzero, fill. rewrite !(proj2 (Z.leb_le _ _)) by lia. cbn [andb].
  by rewrite Z2Nat.inj_add by lia.
Qed.

Lemma length_fill l offset len : (offset + len <= length l)%nat → length (fill l offset len) = length l.
Proof.
  intros. unfold fill. rewrite !length_app, length_take, length_replicate, length_drop. lia.
Qed.

Lemma zero_loop_spec bufs offset left :
  Forall (λ b, Z.of_nat (length b) < 2 ^ 32) bufs → 0 <= offset → 0 <= left →
  offset + left < 2 ^ 32 → offset + left <= Z.of_nat (length (mjoin bufs)) →
  ∃ bufs', zero_loop bufs offset left = Some bufs' ∧ length <$> bufs' = length <$> bufs ∧
    mjoin bufs' = fill (mjoin bufs) (Z.to_nat offset) (Z.to_nat left).
Proof.
  intros Hb. revert offset left. induction Hb as [|b bufs Hb _ IH]; intros offset left Ho Hl Hmax Hlen;
    cbn [zero_loop].
  - cbn in Hlen. assert (offset = 0) as -> by lia. assert (left = 0) as -> by lia. by exists [].
  - change (mjoin (b :: bufs)) with (b ++ mjoin bufs) in *. rewrite length_app in Hlen.
    destruct (Z.ltb_spec 0 left) as [Hpos|Hzero]; cbn [negb].
    2: { assert (left = 0) as -> by lia. exists (b :: bufs). split_and!; [done..|].
         rewrite fill_0; [done|]. rewrite length_app. lia. }
    destruct (Z.leb_spec (Z.of_nat (length b)) offset) as [Hskip|Hhere].
    + rewrite (wrap_small 32) by lia.
      destruct (IH (offset - Z.of_nat (length b)) left) as (bufs' & -> & Hlens & Hfill); [lia..|].
      exists (b :: bufs'). split_and!; [done|by rewrite !fmap_cons, Hlens|].
      change (mjoin (b :: bufs')) with (b ++ mjoin bufs'). rewrite Hfill, fill_skip by lia.
      do 2 f_equal. lia.
    + set (zeroLen := if _ <=? left then _ else _).
      assert (zeroLen = Z.min left (Z.of_nat (length b) - offset)) as ->.
      { unfold zeroLen. rewrite (wrap_small 32 (left + offset)), (wrap_small 32) by lia.
        repeat case_match; lia. }
      set (k := Z.min left _). rewrite memzero_fill by lia. cbn [mbind option_bind].
      rewrite (wrap_small 32) by lia.
      destruct (IH 0 (left - k)) as (bufs' & -> & Hlens & Hfill); [lia..|]. cbn [mbind option_bind].
      eexists. split; [done|]. split.
      * rewrite !fmap_cons, Hlens, length_fill by lia. done.
      * change (mjoin (?b :: ?l)) with (b ++ mjoin l). rewrite Hfill.
        replace (Z.to_nat left) with (Z.to_nat k + Z.to_nat (left - k))%nat by lia.
        rewrite fill_split; [done|lia..].
Qed.

(** C34 [LacBuffDesc_BufferListZeroFromOffset] zeroes the bytes [offset] to
    [offset + lenToZero] of the buffers taken as one string, and no other byte,
    when the range lies in them and its end fits 32 bits. *)
Theorem LacBuffDesc_BufferListZeroFromOffset_correct bufs offset lenToZero :
  Forall (λ b, Z.of_nat (length b) < 2 ^ 32) bufs → 0 <= offset → 0 <= lenToZero →
  offset + lenToZero < 2 ^ 32 → offset + lenToZero <= Z.of_nat (length (mjoin bufs)) →
  ∃ bufs', LacBuffDesc_BufferListZeroFromOffset bufs offset lenToZero = Some bufs' ∧
    length <$> bufs' = length <$> bufs ∧
    mjoin bufs' = fill (mjoin bufs) (Z.to_nat offset) (Z.to_nat lenToZero).
Proof. apply zero_loop_spec. Qed.

Lemma LacBuffDesc_BufferListZeroFromOffset_correct_witness :
  ∃ bufs', LacBuffDesc_BufferListZeroFromOffset [[1; 2; 3]; [4; 5]; [6; 7; 8]] 1 5 = Some bufs' ∧
    length <$> bufs' = [3; 2; 3]%nat ∧ mjoin bufs' = [1; 0; 0; 0; 0; 0; 7; 8].
Proof.
  apply (LacBuffDesc_BufferListZeroFromOffset_correct [[1; 2; 3]; [4; 5]; [6; 7; 8]] 1 5);
    [repeat constructor| | | |simpl length]; lia.
Defined.

(** The end of the range is computed in 32 bits: in a buffer of more than 2 GB
    the wrapped end hides that the range leaves the buffer. *)
Lemma zero_wraps b bufs offset left :
  Z.of_nat (length b) < 2 ^ 32 → 0 <= offset < Z.of_nat (length b) → 0 < left < Z.of_nat (length b) →
  2 ^ 32 <= offset + left → offset + left - 2 ^ 32 < Z.of_nat (length b) →
  LacBuffDesc_BufferListZeroFromOffset (b :: bufs) offset left = None.
Proof.
  intros Hb Ho Hl Hover Hwrap. unfold LacBuffDesc_BufferListZeroFromOffset. cbn [zero_loop].
  rewrite (proj2 (Z.ltb_lt 0 left)) by lia. cbn [negb].
  rewrite !(proj2 (Z.leb_gt _ _)); [|unfold wrap|..]; try lia.
  - unfold memzero. rewrite (proj2 (Z.leb_gt (offset + left) _)) by lia.
    by rewrite andb_false_r.
  - rewrite <- (Z.mod_unique _ _ 1 (offset + left - 2 ^ 32)) by lia. lia.
Qed.

(** ** The descriptor of a list *)

Section descriptor.
Context (virt2phys : Z → Z).

Definition phys_of (isPhysicalAddress : bool) (b : CpaFlatBuffer) : Z :=
  if isPhysicalAddress then pData b else virt2phys (pData b).

Definition translated (isPhysicalAddress : bool) (bufs : list CpaFlatBuffer) : bool :=
  isPhysicalAddress ||
  forallb (λ b, negb (virt2phys (pData b) =? INVALID_PHYSICAL_ADDRESS)) bufs.

Definition total_len (bufs : list CpaFlatBuffer) : Z := foldr Z.add 0 (dataLenInBytes <$> bufs).

(** Descriptor [k] of the array at [pFlat] describes [b]. *)
Definition described (isPhysicalAddress : bool) (m : memory) (pFlat : Z) (k : nat)
    (b : CpaFlatBuffer) : Prop :=
  m !! (pFlat + sizeof_flat_desc * Z.of_nat k + off_dataLenInBytes) = Some (dataLenInBytes b) ∧
  m !! (pFlat + sizeof_flat_desc * Z.of_nat k + off_phyBuffer) = Some (phys_of isPhysicalAddress b).

Lemma desc_loop_spec isPhys bufs pDesc total m :
  ∃ m', desc_loop virt2phys isPhys (length bufs) bufs pDesc total m =
          Some (if translated isPhys bufs then Some (fold_left (λ t b, u64 (t + dataLenInBytes b)) bufs total)
                else None, m') ∧
    (translated isPhys bufs = true →
     ∀ k b, bufs !! k = Some b → described isPhys m' pDesc k b) ∧
    ∀ a, a < pDesc ∨ pDesc + sizeof_flat_desc * Z.of_nat (length bufs) <= a → m' !! a = m !! a.
Proof.
  revert pDesc total m. induction bufs as [|b bufs IH]; intros pDesc total m.
  { exists m. split_and!; [by destruct isPhys|done..]. }
  cbn [length desc_loop]. unfold store. autorewrite with monad.
  set (m1 := <[pDesc + off_phyBuffer := _]> _).
  assert (translated isPhys (b :: bufs) =
    (isPhys || negb (virt2phys (pData b) =? INVALID_PHYSICAL_ADDRESS)) && translated isPhys bufs) as ->.
  { unfold translated. cbn. by destruct isPhys. }
  assert (∀ a, a < pDesc ∨ pDesc + 16 <= a → m1 !! a = m !! a) as Hm1.
  { intros a Ha. unfold m1, off_phyBuffer, off_dataLenInBytes.
    by rewrite !lookup_insert_ne by lia. }
  destruct (negb isPhys && _) eqn:Efail.
  - assert (isPhys || negb (virt2phys (pData b) =? INVALID_PHYSICAL_ADDRESS) = false) as ->
      by (destruct isPhys; [done|]; cbn [negb andb orb] in *; by rewrite Efail).
    exists m1. split_and!; [done..|]. unfold sizeof_flat_desc. intros a Ha. apply Hm1. lia.
  - assert (isPhys || negb (virt2phys (pData b) =? INVALID_PHYSICAL_ADDRESS) = true) as ->
      by (destruct isPhys; [done|]; cbn [negb andb orb] in *; by rewrite Efail).
    cbn [andb]. destruct (IH (pDesc + sizeof_flat_desc) (u64 (total + dataLenInBytes b)) m1)
      as (m2 & Hrun & Hdesc & Hframe).
    exists m2. split_and!; [exact Hrun| |].
    + intros Ht [|k] x Hx; cbn in Hx.
      * injection Hx as <-. unfold described, sizeof_flat_desc in *. cbn.
        rewrite !Z.add_0_r. unfold off_dataLenInBytes, off_phyBuffer in *.
        rewrite !Hframe by lia. unfold m1. rewrite lookup_insert_eq. rewrite lookup_insert_ne by lia.
        rewrite Z.add_0_r, lookup_insert_eq. done.
      * specialize (Hdesc Ht k x Hx). unfold described, sizeof_flat_desc in *.
        replace (pDesc + 16 * Z.of_nat (S k)) with (pDesc + 16 + 16 * Z.of_nat k) by lia. done.
    + intros a Ha. unfold sizeof_flat_desc in *. rewrite Hframe by lia. apply Hm1. lia.
Qed.

Lemma fold_u64 bufs total :
  fold_left (λ t b, u64 (t + dataLenInBytes b)) bufs (u64 total) = u64 (total + total_len bufs).
Proof.
  revert total. induction bufs as [|b bufs IH]; intros total; cbn.
  - by rewrite Z.add_0_r.
  - unfold wrap in *. rewrite Zplus_mod_idemp_l, IH. f_equal. unfold total_len. cbn. lia.
Qed.

Lemma align_spec p :
  0 <= p → p + 7 < 2 ^ 64 →
  let a := LAC_ALIGN_POW2_ROUNDUP p ICP_DESCRIPTOR_ALIGNMENT_BYTES in
  a mod 8 = 0 ∧ p <= a < p + 8.
Proof.
  intros Hp Hmax. unfold LAC_ALIGN_POW2_ROUNDUP, ICP_DESCRIPTOR_ALIGNMENT_BYTES, clear.
  rewrite wrap_small by lia. change (8 - 1) with (Z.ones 3).
  rewrite Z.ldiff_ones_r, Z.shiftl_mul_pow2, Z.shiftr_div_pow2 by lia. change (2 ^ 3) with 8.
  split; [apply Z.mod_mul; lia|]. pose proof (Z.div_mod (p + 8 - 1) 8).
  pose proof (Z.mod_pos_bound (p + 8 - 1) 8). lia.
Qed.

(** What [write_list] leaves in memory at the descriptor [d]. *)
Definition written (isPhysicalAddress : bool) (l : CpaBufferList) (n : Z) (d : Z) (m m' : memory)
    : Prop :=
  m' !! (d + off_numBuffers) = Some n ∧
  (∀ k b, bufs_of l !! k = Some b → described isPhysicalAddress m' (d + off_phyBuffers) k b) ∧
  ∀ a, a < d + off_numBuffers ∨ d + off_phyBuffers + sizeof_flat_desc * Z.max 1 n <= a →
       m' !! a = m !! a.

Lemma write_list_spec nz isPhys l m :
  numBuffers l = Z.of_nat (length (bufs_of l)) →
  virt2phys (pPrivateMetaData l) ≠ INVALID_PHYSICAL_ADDRESS →
  let p := virt2phys (pPrivateMetaData l) in
  let a := LAC_ALIGN_POW2_ROUNDUP p ICP_DESCRIPTOR_ALIGNMENT_BYTES in
  let d := desc_addr l p in
  let null := nz && (numBuffers l =? 0) in
  ∃ m', write_list virt2phys nz l isPhys m =
    Some (if translated isPhys (bufs_of l)
          then (CPA_STATUS_SUCCESS, Some (a, u64 (total_len (bufs_of l))))
          else (CPA_STATUS_FAIL, None), m') ∧
    (translated isPhys (bufs_of l) = true →
     written isPhys l (if null then 1 else numBuffers l) d m m' ∧
     (null = true → described true m' (d + off_phyBuffers) 0 (FlatBuffer 0 0))).
Proof.
  intros Hn Hp p a d null. unfold write_list. fold p. rewrite (proj2 (Z.eqb_neq _ _)) by done.
  unfold store. autorewrite with monad. fold a d null.
  set (m1 := <[d + off_numBuffers := _]> m).
  assert (∃ m2, when null (modify (<[d + off_numBuffers := 1]>) ;;
      modify (<[d + off_phyBuffers + off_dataLenInBytes := 0]>) ;;
      modify (<[d + off_phyBuffers + off_phyBuffer := 0]>))%qat m1 = Some ((), m2) ∧
    m2 !! (d + off_numBuffers) = Some (if null then 1 else numBuffers l) ∧
    (null = true → described true m2 (d + off_phyBuffers) 0 (FlatBuffer 0 0)) ∧
    ∀ x, x < d + off_numBuffers ∨ d + off_phyBuffers + sizeof_flat_desc <= x → m2 !! x = m !! x)
    as (m2 & Hnull & Hnum & Hdesc0 & Hframe).
  { unfold described, off_numBuffers, off_phyBuffers, off_phyBuffer, off_dataLenInBytes,
      sizeof_flat_desc in *. destruct null; cbn [when].
    - eexists. split; [done|]. split_and!.
      + by rewrite !lookup_insert_ne, lookup_insert_eq by lia.
      + intros _. cbn. rewrite !Z.add_0_r. split; [|apply lookup_insert_eq].
        by rewrite lookup_insert_ne, lookup_insert_eq by lia.
      + intros x Hx. unfold m1. by rewrite !lookup_insert_ne by lia.
    - exists m1. split_and!; [done|apply lookup_insert_eq|done|].
      intros x Hx. unfold m1. by rewrite lookup_insert_ne by lia. }
  rewrite (bind_Some _ _ _ _ _ Hnull). rewrite Hn, Nat2Z.id.
  destruct (desc_loop_spec isPhys (bufs_of l) (d + off_phyBuffers) 0 m2) as (m3 & Hrun & Hd & Hf).
  rewrite (bind_Some _ _ _ _ _ Hrun). exists m3. change 0 with (u64 0). rewrite fold_u64, Z.add_0_l.
  split; [by destruct (translated isPhys (bufs_of l))|]. intros Ht. split; [split_and!|].
  - rewrite Hf by (unfold off_numBuffers, off_phyBuffers; lia). by rewrite <- Hn.
  - by apply Hd.
  - intros x Hx. unfold sizeof_flat_desc, off_numBuffers, off_phyBuffers in *.
    rewrite <- Hn in Hx. assert (Z.max 1 (if null then 1 else numBuffers l) = Z.max 1 (numBuffers l)) as E.
    { unfold null. destruct nz, (Z.eqb_spec (numBuffers l) 0); cbn [andb]; lia. }
    rewrite E in Hx. rewrite Hf by lia. apply Hframe. lia.
  - intros Hnl. assert (bufs_of l = []) as E.
    { unfold null in Hnl. apply andb_true_iff in Hnl as [_ H%Z.eqb_eq].
      apply nil_length_inv. lia. }
    specialize (Hdesc0 Hnl). unfold described in *. rewrite !Hf; [done|..];
      rewrite E; cbn [length]; unfold sizeof_flat_desc, off_phyBuffer, off_dataLenInBytes; lia.
Qed.
End descriptor.


Definition ex_list : CpaBufferList := BufferList 2 (Some [FlatBuffer 100 0x1000; FlatBuffer 50 0x2000]) 0x500A.
Definition ex_phys (v : Z) : Z := v + 0x70000001.


End BufferDesc.
