(* ===== verification/HeaderFooter.v ===== *)
(** * Compression headers and footers

    Models [dc_header_footer.c]: the gzip (RFC 1952) or zlib (RFC 1950) header
    and footer put around the deflate data of a session.  A buffer is its
    bytes; parameter checking is a build option, [param_check]. *)

From S2P Require Import Prelude.

#[local] Open Scope Z_scope.
#[local] Open Scope qat_scope.
#[local] Ltac Zify.zify_post_hook ::= Z.div_mod_to_equations.

Module HeaderFooter.

Definition DC_ZLIB_HEADER_SIZE := 2.
Definition DC_GZIP_HEADER_SIZE := 10.
Definition DC_ZLIB_FOOTER_SIZE := 4.
Definition DC_GZIP_FOOTER_SIZE := 8.
Definition DC_GZIP_ID1 := 0x1f.
Definition DC_GZIP_ID2 := 0x8b.
Definition DC_GZIP_FILESYSTYPE := 0x03.
Definition DC_ZLIB_WINDOWSIZE_OFFSET := 4.
Definition DC_ZLIB_FLEVEL_OFFSET := 6.
Definition DC_ZLIB_HEADER_OFFSET := 31.
Definition DC_ZLIB_LEVEL_0 := 0.
Definition DC_ZLIB_LEVEL_1 := 1.
Definition DC_ZLIB_LEVEL_2 := 2.
Definition DC_ZLIB_LEVEL_3 := 3.
Definition DC_ZLIB_CM_DEFLATE := 8.
Definition DC_32K_WINDOW_SIZE := 7.
Definition DC_GZIP_FAST_COMP := 4.
Definition DC_GZIP_MAX_COMP := 2.

(** [CpaDcSessionDir], [CpaDcCompType], [CpaDcChecksum]; a compression level
    [CPA_DC_L1] ... is its number. *)
Inductive CpaDcSessionDir := CPA_DC_DIR_COMPRESS | CPA_DC_DIR_DECOMPRESS | CPA_DC_DIR_COMBINED.
Inductive CpaDcCompType := CPA_DC_LZS | CPA_DC_ELZS | CPA_DC_LZSS | CPA_DC_DEFLATE.
Inductive CpaDcChecksum :=
  | CPA_DC_NONE | CPA_DC_CRC32 | CPA_DC_ADLER32 | CPA_DC_CRC32_ADLER32.
Definition CPA_DC_L1 := 1.
Definition CPA_DC_L2 := 2.
Definition CPA_DC_L3 := 3.

(** The fields of [dc_session_desc_t] and of [CpaDcRqResults] used here. *)
Record session := Session {
  sessDirection : CpaDcSessionDir;
  compType : CpaDcCompType;
  checksumType : CpaDcChecksum;
  compLevel : Z;
  cumulativeConsumedBytes : Z;
}.
Record CpaDcRqResults := Results { checksum : Z; produced : Z }.

(** [pDest[i] = l[i]] from [i = 0] on; [None] writes past the buffer. *)
Fixpoint put_bytes (l : list Z) (i : Z) (pDest : list Z) : option (list Z) :=
  match l with
  | [] => Some pDest
  | b :: l => pDest ← aset pDest i (u8 b); put_bytes l (i + 1) pDest
  end.

Definition zlib_level (level : Z) : Z :=
  if level =? CPA_DC_L1 then DC_ZLIB_LEVEL_0 else
  if level =? CPA_DC_L2 then DC_ZLIB_LEVEL_1 else
  if level =? CPA_DC_L3 then DC_ZLIB_LEVEL_2 else DC_ZLIB_LEVEL_3.

(** The 16-bit header of zlib. *)
Definition zlib_header (level : Z) : Z :=
  let header := u16 (Z.shiftl (DC_ZLIB_CM_DEFLATE +
    Z.shiftl DC_32K_WINDOW_SIZE DC_ZLIB_WINDOWSIZE_OFFSET) LAC_NUM_BITS_IN_BYTE) in
  let header := u16 (header .| Z.shiftl (zlib_level level) DC_ZLIB_FLEVEL_OFFSET) in
  u16 (header + (DC_ZLIB_HEADER_OFFSET - header mod DC_ZLIB_HEADER_OFFSET)).

(** A pointer is [None] when it is [NULL]; the session handle, whose descriptor
    the caller keeps, and the destination buffer with its data are one pointer
    each.  Reading or writing behind [NULL] is [None], as is writing past the
    buffer.  The result is the status and what the pointers then point to. *)
Definition is_null {A} (p : option A) : bool := match p with None => true | Some _ => false end.

Definition decompress_only (s : session) : bool :=
  match sessDirection s with CPA_DC_DIR_DECOMPRESS => true | _ => false end.

Definition cpaDcGenerateHeader (param_check : bool) (pSessionHandle : option session)
    (pDestBuff : option (list Z)) (count : option Z)
    : option (Z * (option (list Z) * option Z)) :=
  let invalid := Some (CPA_STATUS_INVALID_PARAM, (pDestBuff, count)) in
  let too_small d n := param_check && (Z.of_nat (length d) <? n) in
  let done d n := _ ← count; Some (CPA_STATUS_SUCCESS, (d, Some n)) in
  if param_check && (is_null pSessionHandle || is_null pDestBuff || is_null count) then invalid else
  s ← pSessionHandle;
  if param_check && decompress_only s then invalid else
  match compType s, checksumType s with
  | CPA_DC_DEFLATE, CPA_DC_CRC32 =>
    pDest ← pDestBuff;
    if too_small pDest DC_GZIP_HEADER_SIZE then invalid else
    d ← put_bytes [DC_GZIP_ID1; DC_GZIP_ID2; 0x08; 0; 0; 0; 0; 0;
                   if compLevel s =? CPA_DC_L1 then DC_GZIP_FAST_COMP else DC_GZIP_MAX_COMP;
                   DC_GZIP_FILESYSTYPE] 0 pDest;
    done (Some d) DC_GZIP_HEADER_SIZE
  | CPA_DC_DEFLATE, CPA_DC_ADLER32 =>
    pDest ← pDestBuff;
    if too_small pDest DC_ZLIB_HEADER_SIZE then invalid else
    let header := zlib_header (compLevel s) in
    d ← put_bytes [Z.shiftr header LAC_NUM_BITS_IN_BYTE; header] 0 pDest;
    done (Some d) DC_ZLIB_HEADER_SIZE
  | _, _ => done pDestBuff 0
  end.

Definition cpaDcGenerateFooter (param_check : bool) (pSessionHandle : option session)
    (pDestBuff : option (list Z)) (pRes : option CpaDcRqResults)
    : option (Z * (option (list Z) * option CpaDcRqResults)) :=
  let invalid := Some (CPA_STATUS_INVALID_PARAM, (pDestBuff, pRes)) in
  let too_small d n := param_check && (Z.of_nat (length d) <? n) in
  let byte x k := Z.shiftr x (k * LAC_NUM_BITS_IN_BYTE) in
  let done d r n :=
    Some (CPA_STATUS_SUCCESS, (Some d, Some (Results (checksum r) (u32 (produced r + n))))) in
  if param_check && (is_null pSessionHandle || is_null pDestBuff || is_null pRes) then invalid else
  s ← pSessionHandle;
  if param_check && decompress_only s then invalid else
  match compType s, checksumType s with
  | CPA_DC_DEFLATE, CPA_DC_CRC32 =>
    pDest ← pDestBuff; r ← pRes;
    let crc32 := checksum r in
    let total := cumulativeConsumedBytes s in
    if too_small pDest DC_GZIP_FOOTER_SIZE then invalid else
    d ← put_bytes [byte crc32 0; byte crc32 1; byte crc32 2; byte crc32 3;
                   byte total 0; byte total 1; byte total 2; byte total 3] 0 pDest;
    done d r DC_GZIP_FOOTER_SIZE
  | CPA_DC_DEFLATE, CPA_DC_ADLER32 =>
    pDest ← pDestBuff; r ← pRes;
    let adler32 := checksum r in
    if too_small pDest DC_ZLIB_FOOTER_SIZE then invalid else
    d ← put_bytes [byte adler32 3; byte adler32 2; byte adler32 1; byte adler32 0] 0 pDest;
    done d r DC_ZLIB_FOOTER_SIZE
  | _, _ => Some (CPA_STATUS_SUCCESS, (pDestBuff, pRes))
  end.

(** ** Writing bytes *)

Lemma put_bytes_app l pre d :
  (length l <= length d)%nat →
  put_bytes l (Z.of_nat (length pre)) (pre ++ d) = Some (pre ++ (u8 <$> l) ++ drop (length l) d).
Proof.
  revert pre d. induction l as [|b l IH]; intros pre d Hd; cbn [put_bytes]; [done|].
  destruct d as [|x d]; cbn [length] in Hd; [lia|].
  rewrite aset_in by (rewrite length_app; cbn [length]; lia). rewrite Nat2Z.id.
  rewrite insert_app_r_alt, Nat.sub_diag by lia. cbn [mbind option_bind].
  change (<[0%nat := u8 b]> (x :: d)) with (u8 b :: d).
  assert (pre ++ u8 b :: d = (pre ++ [u8 b]) ++ d) as -> by by rewrite <- app_assoc.
  replace (Z.of_nat (length pre) + 1) with (Z.of_nat (length (pre ++ [u8 b])))
    by (rewrite length_app; cbn [length]; lia).
  rewrite IH by lia. by rewrite <- app_assoc.
Qed.

Lemma put_bytes_fits l d :
  (length l <= length d)%nat → put_bytes l 0 d = Some ((u8 <$> l) ++ drop (length l) d).
Proof. apply (put_bytes_app l []). Qed.

Lemma put_bytes_overrun l i d :
  0 <= i → Z.of_nat (length d) < i + Z.of_nat (length l) → i <= Z.of_nat (length d) →
  put_bytes l i d = None.
Proof.
  revert i d. induction l as [|b l IH]; intros i d Hi Hover Hle; cbn [put_bytes length] in *; [lia|].
  destruct (aset d i (u8 b)) as [d'|] eqn:E; [|done]. cbn [mbind option_bind].
  pose proof (aset_length _ _ _ _ E). apply aset_Some in E as [? _]. apply IH; lia.
Qed.

(** ** The formats *)

(** A gzip header without optional fields. *)
Definition gzip_header_ok (h : list Z) (level : Z) : Prop :=
  h = [0x1f; 0x8b; 8; 0; 0; 0; 0; 0; if level =? CPA_DC_L1 then 4 else 2; 3].

(** CM, CINFO, FDICT and FLEVEL of a zlib header, and its check. *)
Definition zlib_header_ok (h : list Z) (level : Z) : Prop :=
  ∃ cmf flg, h = [cmf; flg] ∧ byte_ok cmf ∧ byte_ok flg ∧
    cmf .& 15 = 8 ∧ Z.shiftr cmf 4 = 7 ∧ Z.testbit flg 5 = false ∧
    Z.shiftr flg 6 = zlib_level level ∧ (cmf * 256 + flg) mod 31 = 0.

Lemma zlib_header_spec level :
  zlib_header_ok (u8 <$> [Z.shiftr (zlib_header level) 8; zlib_header level]) level.
Proof.
  unfold zlib_header_ok, zlib_header, zlib_level.
  repeat (destruct (level =? _); [eexists _, _; split; [done|]; by vm_compute|]).
  eexists _, _; split; [done|]; by vm_compute.
Qed.

(** The size of the header, and of the footer, of a session. *)
Definition header_size (s : session) : nat :=
  match compType s, checksumType s with
  | CPA_DC_DEFLATE, CPA_DC_CRC32 => 10
  | CPA_DC_DEFLATE, CPA_DC_ADLER32 => 2
  | _, _ => 0
  end.
Definition footer_size (s : session) : nat :=
  match compType s, checksumType s with
  | CPA_DC_DEFLATE, CPA_DC_CRC32 => 8
  | CPA_DC_DEFLATE, CPA_DC_ADLER32 => 4
  | _, _ => 0
  end.

(** What the header [h] of a session has to be. *)
Definition header_ok (s : session) (h : list Z) : Prop :=
  match compType s, checksumType s with
  | CPA_DC_DEFLATE, CPA_DC_CRC32 => gzip_header_ok h (compLevel s)
  | CPA_DC_DEFLATE, CPA_DC_ADLER32 => zlib_header_ok h (compLevel s)
  | _, _ => h = []
  end.

(** What the footer is: read back, CRC-32 and length of the input modulo 2^32
    in little-endian order, or Adler-32 in big-endian order. *)
Definition footer_ok (s : session) (crc : Z) (f : list Z) : Prop :=
  match compType s, checksumType s with
  | CPA_DC_DEFLATE, CPA_DC_CRC32 =>
    bytes_ok f ∧ le_val (take 4 f) = crc ∧
    le_val (drop 4 f) = cumulativeConsumedBytes s mod 2 ^ 32
  | CPA_DC_DEFLATE, CPA_DC_ADLER32 => bytes_ok f ∧ be_val f = crc
  | _, _ => f = []
  end.

(** A session that only decompresses is refused and so is a buffer that is too
    small, if parameters are checked; if they are not the buffer is overrun. *)
Definition refused (param_check : bool) (s : session) (size : nat) (d : list Z) : bool :=
  param_check && (decompress_only s || (length d <? size)%nat).

Lemma too_small_nat (d : list Z) n : (Z.of_nat (length d) <? Z.of_nat n) = (length d <? n)%nat.
Proof. destruct (Nat.ltb_spec (length d) n); [apply Z.ltb_lt|apply Z.ltb_ge]; lia. Qed.

Lemma refused_size c (a b : bool) : c && a = false → c && (a || b) = c && b.
Proof. by destruct c, a. Qed.

(** How the writing of [l] ends, by the room there is. *)
Lemma put_bytes_room l d :
  put_bytes l 0 d =
  if (length d <? length l)%nat then None else Some ((u8 <$> l) ++ drop (length l) d).
Proof.
  destruct (Nat.ltb_spec (length d) (length l)).
  - apply put_bytes_overrun; lia.
  - by apply put_bytes_fits.
Qed.

(** A session without a header: nothing is written. *)
Ltac generate_none :=
  rewrite Bool.andb_comm; cbn [Nat.ltb Nat.leb andb length mbind option_bind];
  exists []; rewrite ?drop_0.

(** [cpaDcGenerateHeader] writes a valid gzip or zlib header, by the
    session's checksum, at the start of the buffer, returns its size and
    leaves the rest of the buffer alone; refusals and overruns are exactly
    those described by [refused]. *)
Theorem cpaDcGenerateHeader_correct param_check s d count :
  let generate := cpaDcGenerateHeader param_check (Some s) (Some d) (Some count) in
  if refused param_check s (header_size s) d then
    generate = Some (CPA_STATUS_INVALID_PARAM, (Some d, Some count))
  else if (length d <? header_size s)%nat then generate = None
  else ∃ h, length h = header_size s ∧ header_ok s h ∧
       generate = Some (CPA_STATUS_SUCCESS,
         (Some (h ++ drop (header_size s) d), Some (Z.of_nat (header_size s)))).
Proof.
  intros generate. subst generate. unfold refused, cpaDcGenerateHeader, header_size, header_ok; cbn [is_null orb andb mbind option_bind].
  rewrite Bool.andb_false_r. change DC_GZIP_HEADER_SIZE with (Z.of_nat 10).
  change DC_ZLIB_HEADER_SIZE with (Z.of_nat 2).
  destruct (param_check && decompress_only s) eqn:E.
  { by apply andb_true_iff in E as [-> ->]. }
  rewrite !too_small_nat, !put_bytes_room, !(refused_size _ _ _ E).
  destruct (compType s); [by generate_none..|]. destruct (checksumType s); [by generate_none| | |by generate_none].
  all: match goal with |- if ?c then _ else _ => destruct c; [done|] end; cbn [length].
  all: match goal with |- context [(?m <? ?n)%nat] => destruct (m <? n)%nat; [done|] end.
  all: cbn [mbind option_bind].
  - eexists; split; [|split; [|done]]; [done|]. unfold gzip_header_ok. by destruct (_ =? _).
  - eexists; split; [|split; [|done]]; [done|]. apply zlib_header_spec.
Qed.

(** Four bytes of a word, in either order. *)
Lemma le_val_bytes x : 0 <= x →
  le_val (u8 <$> [Z.shiftr x 0; Z.shiftr x 8; Z.shiftr x 16; Z.shiftr x 24]) = x mod 2 ^ 32.
Proof.
  intros Hx. cbn [fmap list_fmap le_val]. unfold u8, wrap. rewrite !Z.shiftr_div_pow2 by lia.
  change (2 ^ 0) with 1. change (2 ^ 8) with 256. change (2 ^ 16) with 65536.
  change (2 ^ 24) with 16777216. change (2 ^ 32) with 4294967296. lia.
Qed.

Lemma be_val_bytes x : 0 <= x →
  be_val (u8 <$> [Z.shiftr x 24; Z.shiftr x 16; Z.shiftr x 8; Z.shiftr x 0]) = x mod 2 ^ 32.
Proof.
  intros Hx. rewrite <- le_val_bytes by done. unfold be_val.
  cbn [fmap list_fmap le_val foldl]. lia.
Qed.

Lemma u8_bytes_ok l : bytes_ok (u8 <$> l).
Proof. apply Forall_fmap, Forall_true. intros x. by apply (wrap_range 8). Qed.

(** [cpaDcGenerateFooter] writes the trailer of the format at the start of
    the buffer -- it reads back as the checksum, and for gzip the number of
    bytes consumed modulo 2^32 -- and counts its size in [produced]; refusals
    and overruns are as for the header. *)
Theorem cpaDcGenerateFooter_correct param_check s d r
    (Hsum : 0 <= checksum r < 2 ^ 32) (Htotal : 0 <= cumulativeConsumedBytes s) :
  let generate := cpaDcGenerateFooter param_check (Some s) (Some d) (Some r) in
  if refused param_check s (footer_size s) d then
    generate = Some (CPA_STATUS_INVALID_PARAM, (Some d, Some r))
  else if (length d <? footer_size s)%nat then generate = None
  else ∃ f r', length f = footer_size s ∧ footer_ok s (checksum r) f ∧
       checksum r' = checksum r ∧
       (footer_size s ≠ 0%nat → produced r' = u32 (produced r + Z.of_nat (footer_size s))) ∧
       (footer_size s = 0%nat → r' = r) ∧
       generate = Some (CPA_STATUS_SUCCESS, (Some (f ++ drop (footer_size s) d), Some r')).
Proof.
  intros generate. subst generate.
  unfold refused, cpaDcGenerateFooter, footer_size, footer_ok; cbn [is_null orb andb mbind option_bind].
  rewrite Bool.andb_false_r. change DC_GZIP_FOOTER_SIZE with (Z.of_nat 8).
  change DC_ZLIB_FOOTER_SIZE with (Z.of_nat 4).
  destruct (param_check && decompress_only s) eqn:E.
  { by apply andb_true_iff in E as [-> ->]. }
  rewrite !too_small_nat, !put_bytes_room, !(refused_size _ _ _ E).
  destruct (compType s); [by generate_none; exists r..|].
  destruct (checksumType s); [by generate_none; exists r| | |by generate_none; exists r].
  all: match goal with |- if ?c then _ else _ => destruct c; [done|] end; cbn [length].
  all: match goal with |- context [(?m <? ?n)%nat] => destruct (m <? n)%nat; [done|] end.
  all: cbn [mbind option_bind]; eexists _, (Results _ _).
  all: split; [|split; [|split; [|split; [|split; [|reflexivity]]]]]; [done| |done|done|done].
  - split; [apply u8_bytes_ok|]. split; [|by apply le_val_bytes].
    etransitivity; [apply le_val_bytes; lia|]. by apply Z.mod_small.
  - split; [apply u8_bytes_ok|]. etransitivity; [apply be_val_bytes; lia|]. by apply Z.mod_small.
Qed.

Definition a_session : session := Session CPA_DC_DIR_COMPRESS CPA_DC_DEFLATE CPA_DC_CRC32 2 (2 ^ 32 + 7).

Lemma cpaDcGenerateFooter_correct_witness :
  ∃ f r', length f = 8%nat ∧ footer_ok a_session 0x12345678 f ∧
    cpaDcGenerateFooter true (Some a_session) (Some (repeat 0 9)) (Some (Results 0x12345678 100)) =
    Some (CPA_STATUS_SUCCESS, (Some (f ++ [0]), Some r')) ∧ produced r' = 108.
Proof.
  destruct (cpaDcGenerateFooter_correct true a_session (repeat 0 9) (Results 0x12345678 100))
    as (f & r' & Hf & Hok & _ & Hp & _ & E); [split; vm_compute; congruence|vm_compute; congruence|].
  exists f, r'. split; [exact Hf|]. split; [exact Hok|]. split; [exact E|].
  rewrite Hp; [reflexivity|discriminate].
Defined.

End HeaderFooter.
