(* ===== verification/LockFreeStack.v ===== *)
(** * The lock-free stack of the memory pools

    Models [lac_lock_free_stack.h] and the two calls of [lac_mem_pools.c] that
    run concurrently, [Lac_MemPoolEntryAlloc] and [Lac_MemPoolEntryFree], one
    access to shared memory at a time.  The top of the stack is a 64-bit word
    of a 48-bit pointer and a 16-bit counter, changed by compare-and-swap.

    Shown here: the steps of any number of threads refine pops and pushes of a
    list, no entry is given out twice, as long as fewer than 65536 operations
    complete while one thread is between its read of the top and its
    compare-and-swap; what happens otherwise; and that some thread always makes
    progress. *)

From S2P Require Import Prelude.

#[local] Open Scope Z_scope.
#[local] Open Scope qat_scope.

Module LockFreeStack.

(** [lac_mem_blk_t], the header before each entry. *)
Record lac_mem_blk := Blk {
  pNext : Z; physDataPtr : Z; pMemAllocPtr : Z; isInUse : bool; pPoolID : Z;
}.
Definition sizeof_lac_mem_blk := 40.
Definition set_pNext v k := Blk v (physDataPtr k) (pMemAllocPtr k) (isInUse k) (pPoolID k).
Definition set_isInUse v k := Blk (pNext k) (physDataPtr k) (pMemAllocPtr k) v (pPoolID k).

(** [pointer_t]: two bit fields of one word. *)
Record pointer := Pointer { ctr : Z; ptr : Z }.
#[export] Instance pointer_eq_dec : EqDecision pointer.
Proof. solve_decision. Defined.

Abbreviation u48 := (wrap 48).
Definition s64 (z : Z) : Z := if u64 z <? 2 ^ 63 then u64 z else u64 z - 2 ^ 64.

(** [CPA_STATUS_RETRY] as a pointer. *)
Definition CPA_STATUS_RETRY := u64 (-2).

(** Where a thread is in its call; [Idle r] after a call that returned [r]. *)
Inductive pc :=
  | Idle (r : Z)
  (* Lac_MemPoolEntryAlloc *)
  | PopRead
  | PopNext (old_top : pointer)
  | PopCas (old_top new_top : pointer)
  | AllocSub (b : Z)
  | AllocUse (b : Z)
  (* Lac_MemPoolEntryFree *)
  | FreeUse (b : Z)
  | PushRead (b : Z)
  | PushNext (b : Z) (old_top : pointer)
  | PushCas (b : Z) (old_top : pointer)
  | FreeAdd (b : Z).

(** A pool, the threads that use it, and the entries the clients have. *)
Record pool := Pool {
  top : pointer; blks : gmap Z lac_mem_blk; availBlks : Z; pcs : list pc; held : gset Z;
}.
Definition set_top v s := Pool v (blks s) (availBlks s) (pcs s) (held s).
Definition set_blks v s := Pool (top s) v (availBlks s) (pcs s) (held s).
Definition set_availBlks v s := Pool (top s) (blks s) v (pcs s) (held s).
Definition set_pcs v s := Pool (top s) (blks s) (availBlks s) v (held s).
Definition set_held v s := Pool (top s) (blks s) (availBlks s) (pcs s) v.

Section stack.
(** Whether the code is compiled for the kernel. *)
Variable kernel : bool.

Definition PTR (addr48 : Z) : Z :=
  if kernel then u64 (Z.shiftr (s64 (u64 (Z.shiftl addr48 16))) 16) else addr48.

(** The new top of a pop and a push. *)
Definition next_top (old : pointer) (p : Z) : pointer := Pointer (u16 (ctr old + 1)) (u48 p).

(** The next access of a thread; [None] is a fault. *)
Definition advance (c : pc) (s : pool) : option (pc * pool) :=
  match c with
  | Idle _ => None
  | PopRead => Some (PopNext (top s), s)
  | PopNext old =>
    if PTR (ptr old) =? 0 then Some (Idle CPA_STATUS_RETRY, s) else
    k ← blks s !! PTR (ptr old);
    Some (PopCas old (next_top old (pNext k)), s)
  | PopCas old new =>
    if decide (top s = old) then Some (AllocSub (PTR (ptr old)), set_top new s) else Some (PopRead, s)
  | AllocSub b => Some (AllocUse b, set_availBlks (u64 (availBlks s - 1)) s)
  | AllocUse b =>
    k ← blks s !! b;
    Some (Idle (b + sizeof_lac_mem_blk),
          set_held ({[b]} ∪ held s) (set_blks (<[b := set_isInUse true k]> (blks s)) s))
  | FreeUse b =>
    k ← blks s !! b; Some (PushRead b, set_blks (<[b := set_isInUse false k]> (blks s)) s)
  | PushRead b => Some (PushNext b (top s), s)
  | PushNext b old =>
    k ← blks s !! b;
    Some (PushCas b old, set_blks (<[b := set_pNext (PTR (ptr old)) k]> (blks s)) s)
  | PushCas b old =>
    if decide (top s = old) then Some (FreeAdd b, set_top (next_top old b) s) else Some (PushRead b, s)
  | FreeAdd b => Some (Idle 0, set_availBlks (u64 (availBlks s + 1)) s)
  end.

Definition step (i : nat) (s : pool) : option pool :=
  c ← pcs s !! i; '(c', s') ← advance c s; Some (set_pcs (<[i := c']> (pcs s)) s').

(** A call by an idle thread; [pEntry] is one the clients have. *)
Definition call_alloc (i : nat) (s : pool) : option pool :=
  match pcs s !! i with Some (Idle _) => Some (set_pcs (<[i := PopRead]> (pcs s)) s) | _ => None end.
Definition call_free (i : nat) (pEntry : Z) (s : pool) : option pool :=
  let b := pEntry - sizeof_lac_mem_blk in
  match pcs s !! i with
  | Some (Idle _) =>
    if decide (b ∈ held s) then Some (set_pcs (<[i := FreeUse b]> (pcs s)) (set_held (held s ∖ {[b]}) s)) else None
  | _ => None
  end.

Definition Lac_MemPoolAvailableEntries (s : pool) : Z := u32 (availBlks s).

(** Whether the thread's next access is a compare-and-swap that succeeds. *)
Definition wins (c : pc) (s : pool) : bool :=
  match c with PopCas old _ | PushCas _ old => bool_decide (top s = old) | _ => false end.

(** The entries on the stack, from the top. *)
Fixpoint walk (fuel : nat) (m : gmap Z lac_mem_blk) (p : Z) : option (list Z) :=
  if p =? 0 then Some [] else
  match fuel with
  | O => None
  | S fuel => k ← m !! p; l ← walk fuel m (pNext k); Some (p :: l)
  end.
Definition entries (s : pool) : option (list Z) := walk (size (blks s)) (blks s) (PTR (ptr (top s))).

(** ** Progress

    A run of steps, with the number of compare-and-swaps that succeeded. *)
Fixpoint run (sch : list nat) (s : pool) : option (pool * nat) :=
  match sch with
  | [] => Some (s, O)
  | i :: sch =>
    c ← pcs s !! i; s' ← step i s; '(s'', w) ← run sch s';
    Some (s'', ((if wins c s then 1 else 0) + w)%nat)
  end.

(** The steps a thread can take while the top stays as it is. *)
Definition rank (t : pointer) (c : pc) : nat :=
  match c with
  | Idle _ => 0
  | PopRead => 2
  | PopNext old => if decide (t = old) then 1 else 4
  | PopCas old _ => if decide (t = old) then 0 else 3
  | AllocSub _ => 2
  | AllocUse _ => 1
  | FreeUse _ => 3
  | PushRead _ => 2
  | PushNext _ old => if decide (t = old) then 1 else 4
  | PushCas _ old => if decide (t = old) then 0 else 3
  | FreeAdd _ => 1
  end%nat.
Definition potential (s : pool) : nat := list_sum (map (rank (top s)) (pcs s)).

Lemma rank_le t c : (rank t c <= 4)%nat.
Proof. destruct c; cbn [rank]; try case_decide; lia. Qed.

Lemma ranks_le t l : (list_sum (map (rank t) l) <= 4 * length l)%nat.
Proof. induction l as [|c l IH]; [done|].
  unfold list_sum in *. cbn [map fold_right length] in *. pose proof (rank_le t c). lia. Qed.

Lemma list_sum_insert (f : pc → nat) l i c c' : l !! i = Some c →
  (list_sum (map f (<[i := c']> l)) + f c = list_sum (map f l) + f c')%nat.
Proof.
  unfold list_sum. revert i. induction l as [|d l IH]; intros [|i] Hi; [done..| |].
  - injection Hi as ->. change (<[O := c']> (c :: l)) with (c' :: l). cbn [map fold_right]. lia.
  - specialize (IH i Hi). change (<[S i := c']> (d :: l)) with (d :: <[i := c']> l).
    cbn [map fold_right] in *. lia.
Qed.

Lemma step_Some i s s' : step i s = Some s' →
  ∃ c c' s1, pcs s !! i = Some c ∧ advance c s = Some (c', s1) ∧ s' = set_pcs (<[i := c']> (pcs s)) s1.
Proof.
  unfold step. destruct (pcs s !! i) as [c|] eqn:E; [|done]. cbn [mbind option_bind].
  destruct (advance c s) as [[c' s1]|] eqn:E'; [|done]. intros [= <-]. by exists c, c', s1.
Qed.

(** A step that does not change the top brings the thread closer to its
    compare-and-swap. *)
Lemma advance_rank c s c' s1 : advance c s = Some (c', s1) → wins c s = false →
  top s1 = top s ∧ (rank (top s) c' < rank (top s) c)%nat.
Proof.
  unfold advance. destruct c as [r| |old|old new|b|b|b|b|b old|b old|b]; intros H Hw; cbn [wins] in Hw.
  - done.
  - injection H as <- <-. cbn. rewrite decide_True by done. split; [done|lia].
  - destruct (PTR (ptr old) =? 0); [injection H as <- <-; cbn; case_decide; split; auto; lia|].
    destruct (blks s !! _); [|done]. injection H as <- <-. cbn. case_decide; split; auto; lia.
  - apply bool_decide_eq_false in Hw. rewrite decide_False in H by done. injection H as <- <-.
    cbn. rewrite decide_False by done. split; [done|lia].
  - injection H as <- <-. cbn. split; [done|lia].
  - destruct (blks s !! b); [|done]. injection H as <- <-. cbn. split; [done|lia].
  - destruct (blks s !! b); [|done]. injection H as <- <-. cbn. split; [done|lia].
  - injection H as <- <-. cbn. rewrite decide_True by done. split; [done|lia].
  - destruct (blks s !! b); [|done]. injection H as <- <-. cbn. case_decide; split; auto; lia.
  - apply bool_decide_eq_false in Hw. rewrite decide_False in H by done. injection H as <- <-.
    cbn. rewrite decide_False by done. split; [done|lia].
  - injection H as <- <-. cbn. split; [done|lia].
Qed.

Lemma run_bound sch : ∀ s s' w, run sch s = Some (s', w) →
  (length sch <= potential s + w * (4 * length (pcs s) + 1))%nat.
Proof.
  induction sch as [|i sch IH]; intros s s' w H; [cbn; lia|]. cbn [run] in H.
  destruct (pcs s !! i) as [c|] eqn:Ec; [|done]. cbn [mbind option_bind] in H.
  destruct (step i s) as [s1|] eqn:Es; [|done]. cbn [mbind option_bind] in H.
  destruct (run sch s1) as [[s2 w']|] eqn:Er; [|done]. injection H as <- <-.
  apply IH in Er. destruct (step_Some _ _ _ Es) as (c0 & c' & s0 & Ec0 & Ha & ->). rewrite Ec in Ec0.
  injection Ec0 as <-. cbn [set_pcs pcs length] in *. rewrite length_insert in Er.
  unfold potential in *. cbn [set_pcs top pcs] in Er. destruct (wins c s) eqn:Hw.
  - pose proof (ranks_le (top s0) (<[i := c']> (pcs s))) as Hr. rewrite length_insert in Hr. lia.
  - destruct (advance_rank _ _ _ _ Ha Hw) as [Ht Hlt]. rewrite Ht in Er.
    pose proof (list_sum_insert (rank (top s)) _ _ _ c' Ec). lia.
Qed.

(** C15 Lock freedom.  In every run without new calls, of any number of threads
    in any order, compare-and-swaps succeed at least every so many steps: a run
    in which [w] of them do is no longer than [(w + 1) * (4 n + 1)] for [n]
    threads. *)
Theorem lock_free sch s s' w :
  run sch s = Some (s', w) → (length sch <= (w + 1) * (4 * length (pcs s) + 1))%nat.
Proof.
  intros H%run_bound. pose proof (ranks_le (top s) (pcs s)). unfold potential in H. lia.
Qed.

(** ** Executions

    [ver] counts the compare-and-swaps that succeeded and [seen i] what it was
    when thread [i] last read the top. *)
Record ghost := Ghost { st : pool; ver : Z; seen : nat → Z }.

Inductive event := CallAlloc | CallFree (pEntry : Z) | Access.
#[export] Instance event_eq_dec : EqDecision event.
Proof. solve_decision. Defined.

Definition reads (c : pc) : bool := match c with PopRead | PushRead _ => true | _ => false end.

Definition gstep (i : nat) (e : event) (g : ghost) : option ghost :=
  match e with
  | CallAlloc => s ← call_alloc i (st g); Some (Ghost s (ver g) (seen g))
  | CallFree p => s ← call_free i p (st g); Some (Ghost s (ver g) (seen g))
  | Access =>
    c ← pcs (st g) !! i; s ← step i (st g);
    Some (Ghost s (if wins c (st g) then ver g + 1 else ver g)
      (if reads c then fupd (seen g) i (ver g) else seen g))
  end.

(** A compare-and-swap that succeeds does so before 65536 others have since the
    thread read the top. *)
Definition timely (i : nat) (g : ghost) : Prop :=
  ∀ c, pcs (st g) !! i = Some c → wins c (st g) = true → ver g - seen g i < 2 ^ 16.

(** The linked list of the entries [xs]. *)
Fixpoint is_stack (m : gmap Z lac_mem_blk) (p : Z) (xs : list Z) : Prop :=
  match xs with
  | [] => p = 0
  | x :: xs => p = x ∧ x ≠ 0 ∧ ∃ k, m !! x = Some k ∧ is_stack m (pNext k) xs
  end.

(** Addresses the 48 bits stand for: user space, or canonical ones of the kernel. *)
Definition canonical (b : Z) : Prop := b ≠ 0 ∧ PTR (u48 b) = b.

Definition idle (c : pc) : Prop := match c with Idle _ => True | _ => False end.

(** A pool as [Lac_MemPoolCreate] leaves it. *)
Record ready (s : pool) (xs : list Z) : Prop := {
  r_stack : is_stack (blks s) (PTR (ptr (top s))) xs;
  r_ctr : 0 <= ctr (top s) < 2 ^ 16;
  r_all : xs ≡ₚ elements (dom (blks s));
  r_blks b k : blks s !! b = Some k → isInUse k = false ∧ canonical b;
  r_avail : availBlks s = u64 (Z.of_nat (length xs));
  r_idle : Forall idle (pcs s);
  r_held : held s = ∅;
}.

Inductive reach (s0 : pool) : ghost → Prop :=
  | reach_init : reach s0 (Ghost s0 (ctr (top s0)) (λ _, 0))
  | reach_step g i e g' : reach s0 g → (e = Access → timely i g) → gstep i e g = Some g' → reach s0 g'.

(** ** The invariant *)

Definition in_use (m : gmap Z lac_mem_blk) (b : Z) (u : bool) : Prop := ∃ k, m !! b = Some k ∧ isInUse k = u.

(** The entry a thread has to itself. *)
Definition owned (c : pc) : list Z :=
  match c with
  | AllocSub b | AllocUse b | FreeUse b | PushRead b | PushNext b _ | PushCas b _ => [b]
  | _ => []
  end.

(** By how much [availBlks] is more than the entries on the stack. *)
Definition debt (c : pc) : Z := match c with AllocSub _ => 1 | FreeAdd _ => -1 | _ => 0 end.
Definition debts (l : list pc) : Z := foldr (λ c n, debt c + n) 0 l.

(** The top a thread read when [v] operations were complete. *)
Record snap (t : pointer) (m : gmap Z lac_mem_blk) (vr v : Z) (old : pointer) : Prop := {
  snap_ver : 0 <= v <= vr;
  snap_ctr : ctr old = u16 v;
  snap_now : v = vr → old = t;
  snap_dom : PTR (ptr old) = 0 ∨ PTR (ptr old) ∈ dom m;
}.

Definition pc_ok (t : pointer) (m : gmap Z lac_mem_blk) (vr v : Z) (c : pc) : Prop :=
  match c with
  | Idle _ | PopRead | FreeAdd _ => True
  | PopNext old => snap t m vr v old
  | PopCas old new => snap t m vr v old ∧ PTR (ptr old) ≠ 0 ∧
      (v = vr → ∃ k, m !! PTR (ptr old) = Some k ∧ new = next_top old (pNext k))
  | AllocSub b | AllocUse b | PushRead b => in_use m b false
  | FreeUse b => in_use m b true
  | PushNext b old => snap t m vr v old ∧ in_use m b false
  | PushCas b old => snap t m vr v old ∧ ∃ k, m !! b = Some k ∧ pNext k = PTR (ptr old) ∧ isInUse k = false
  end.

Record Inv (g : ghost) (xs : list Z) : Prop := {
  i_stack : is_stack (blks (st g)) (PTR (ptr (top (st g)))) xs;
  i_ver : 0 <= ver g;
  i_ctr : ctr (top (st g)) = u16 (ver g);
  i_own : xs ++ elements (held (st g)) ++ (pcs (st g) ≫= owned) ≡ₚ elements (dom (blks (st g)));
  i_canon b : b ∈ dom (blks (st g)) → canonical b;
  i_free b : b ∈ xs → in_use (blks (st g)) b false;
  i_held b : b ∈ held (st g) → in_use (blks (st g)) b true;
  i_avail : availBlks (st g) = u64 (Z.of_nat (length xs) + debts (pcs (st g)));
  i_pcs i c : pcs (st g) !! i = Some c → pc_ok (top (st g)) (blks (st g)) (ver g) (seen g i) c;
}.

Lemma PTR_0 : PTR 0 = 0.
Proof. unfold PTR. by destruct kernel. Qed.

Lemma is_stack_frame m m' p xs : (∀ x, x ∈ xs → ∃ k k', m !! x = Some k ∧ m' !! x = Some k' ∧ pNext k' = pNext k) →
  is_stack m p xs → is_stack m' p xs.
Proof.
  revert p. induction xs as [|x xs IH]; intros p Hf; [done|]. intros (-> & Hx & k & Hk & Hs).
  destruct (Hf x) as (k0 & k' & Hk0 & Hk' & Hn); [by left|]. rewrite Hk in Hk0. injection Hk0 as <-.
  split; [done|]. split; [done|]. exists k'. split; [done|]. rewrite Hn. apply IH; [|done].
  intros y Hy. apply Hf. by right.
Qed.

Lemma is_stack_same m m' p xs : (∀ x, x ∈ xs → m' !! x = m !! x) → is_stack m p xs → is_stack m' p xs.
Proof.
  revert p. induction xs as [|x xs IH]; intros p Hf; [done|]. intros (-> & Hx & k & Hk & Hs).
  split; [done|]. split; [done|]. exists k. rewrite Hf by by left. split; [done|].
  apply IH; [|done]. intros y Hy. apply Hf. by right.
Qed.

Lemma is_stack_walk m p xs fuel : is_stack m p xs → (length xs <= fuel)%nat → walk fuel m p = Some xs.
Proof.
  revert p fuel. induction xs as [|x xs IH]; intros p fuel.
  - intros -> _. by destruct fuel.
  - intros (-> & Hx & k & Hk & Hs) Hf. destruct fuel as [|fuel]; cbn [length] in Hf; [lia|].
    cbn [walk]. apply Z.eqb_neq in Hx as ->. rewrite Hk. cbn. rewrite (IH (pNext k) fuel Hs); [done|lia].
Qed.

Lemma inv_entries g xs : Inv g xs → entries (st g) = Some xs.
Proof.
  intros I. apply is_stack_walk; [apply (i_stack _ _ I)|]. pose proof (i_own _ _ I) as Ho.
  apply Permutation_length in Ho. rewrite length_app in Ho.
  change (length (elements (dom (blks (st g))))) with (size (dom (blks (st g)))) in Ho. rewrite size_dom in Ho. lia.
Qed.

(** ** What belongs to whom *)

Lemma list_delete_insert {A} (l : list A) i x : delete i (<[i := x]> l) = delete i l.
Proof. revert i. induction l as [|y l IH]; intros [|i]; [done..|]. cbn. f_equal. apply IH. Qed.

(** The entries of the threads but [i]. *)
Definition others (l : list pc) (i : nat) : list Z := delete i l ≫= owned.

Lemma owned_split l i c : l !! i = Some c → l ≫= owned ≡ₚ owned c ++ others l i.
Proof. intros H. rewrite (delete_Permutation l i c H) at 1. done. Qed.

Lemma pcs_owned_insert l i c c' : l !! i = Some c → <[i := c']> l ≫= owned ≡ₚ owned c' ++ others l i.
Proof.
  intros H. rewrite (owned_split _ i c'); [|apply list_lookup_insert_eq; by eapply lookup_lt_Some].
  unfold others. by rewrite list_delete_insert.
Qed.

Lemma debts_insert l i c c' : l !! i = Some c → debts (<[i := c']> l) = debts l - debt c + debt c'.
Proof.
  revert i. induction l as [|d l IH]; intros [|i] H; [done..| |].
  - injection H as ->. change (<[O := c']> (c :: l)) with (c' :: l). cbn. lia.
  - change (<[S i := c']> (d :: l)) with (d :: <[i := c']> l). cbn [debts foldr].
    fold (debts (<[i := c']> l)) (debts l). rewrite (IH i H). lia.
Qed.

Lemma others_elem l i j c b : l !! j = Some c → j ≠ i → b ∈ owned c → b ∈ others l i.
Proof.
  intros H Hne Hb. unfold others. apply list_elem_of_bind. exists c. split; [done|].
  destruct (decide (j < i)%nat).
  - apply list_elem_of_lookup. exists j. by rewrite list_lookup_delete_lt.
  - apply list_elem_of_lookup. exists (Nat.pred j). rewrite list_lookup_delete_ge by lia.
    by replace (S (Nat.pred j)) with j by lia.
Qed.

Lemma inv_nodup g xs i c : Inv g xs → pcs (st g) !! i = Some c →
  NoDup (xs ++ elements (held (st g)) ++ owned c ++ others (pcs (st g)) i).
Proof.
  intros I Hc. rewrite <- (owned_split _ i c Hc). rewrite (i_own _ _ I). apply NoDup_elements.
Qed.

(** A thread's own entry is nobody else's. *)
Lemma inv_own g xs i c b : Inv g xs → pcs (st g) !! i = Some c → b ∈ owned c →
  b ∉ xs ∧ b ∉ held (st g) ∧ b ∈ dom (blks (st g)) ∧
  (∀ j c', pcs (st g) !! j = Some c' → j ≠ i → b ∉ owned c').
Proof.
  intros I Hc Hb. pose proof (inv_nodup _ _ _ _ I Hc) as Hn.
  apply NoDup_app in Hn as (_ & Hx & Hn). apply NoDup_app in Hn as (_ & Hh & Hn).
  apply NoDup_app in Hn as (_ & Ho & _). split_and!.
  - intros Hbx. apply (Hx b Hbx). rewrite !elem_of_app. auto.
  - intros Hbh. apply (Hh b); [by apply elem_of_elements|]. rewrite elem_of_app. auto.
  - apply elem_of_elements. rewrite <- (i_own _ _ I), !elem_of_app. right. right.
    apply list_elem_of_bind. exists c. split; [done|]. by eapply list_elem_of_lookup_2.
  - intros j c' Hj Hne Hb'. apply (Ho b Hb). by eapply others_elem.
Qed.

(** The other threads do not notice a step that changes only the entries a thread
    owns, nor a compare-and-swap. *)
Lemma snap_frame t m m' vr v old : dom m' = dom m → snap t m vr v old → snap t m' vr v old.
Proof. intros Hd [? ? ? ?]. split; [done..|]. by rewrite Hd. Qed.

Lemma pc_ok_frame t m m' vr v c : dom m' = dom m → (∀ b, b ∈ owned c → m' !! b = m !! b) →
  (∀ old new, c = PopCas old new → v = vr → m' !! PTR (ptr old) = m !! PTR (ptr old)) →
  pc_ok t m vr v c → pc_ok t m' vr v c.
Proof.
  intros Hd Ho Hp. unfold pc_ok, in_use. destruct c as [r| |old|old new|b|b|b|b|b old|b old|b]; try done.
  - by apply snap_frame.
  - intros (Hs & Hnz & Hk). split; [by eapply snap_frame|]. split; [done|]. intros Hv.
    rewrite (Hp _ _ eq_refl Hv). auto.
  - by rewrite Ho by by left.
  - by rewrite Ho by by left.
  - by rewrite Ho by by left.
  - by rewrite Ho by by left.
  - rewrite Ho by by left. intros [? ?]. split; [by eapply snap_frame|done].
  - rewrite Ho by by left. intros [? ?]. split; [by eapply snap_frame|done].
Qed.

Lemma snap_win t t' m vr v old : snap t m vr v old → snap t' m (vr + 1) v old.
Proof. intros [? ? ? ?]. split; [lia|done|lia|done]. Qed.

Lemma pc_ok_win t t' m vr v c : pc_ok t m vr v c → pc_ok t' m (vr + 1) v c.
Proof.
  unfold pc_ok. destruct c as [r| |old|old new|b|b|b|b|b old|b old|b]; try done.
  - apply snap_win.
  - intros (Hs & Hnz & _). split; [by eapply snap_win|]. split; [done|]. destruct Hs. lia.
  - intros [? ?]. split; [by eapply snap_win|done].
  - intros [? ?]. split; [by eapply snap_win|done].
Qed.

(** ** Steps keep the invariant *)

(** A step of thread [i] that changes neither the top nor the stack. *)
Lemma inv_upd g xs i c c' s1 seen' :
  Inv g xs → pcs (st g) !! i = Some c → top s1 = top (st g) →
  dom (blks s1) = dom (blks (st g)) →
  (∀ b, b ∉ owned c → blks s1 !! b = blks (st g) !! b) →
  elements (held s1) ++ owned c' ≡ₚ elements (held (st g)) ++ owned c →
  (∀ b, b ∈ held s1 → b ∈ held (st g) ∨ in_use (blks s1) b true) →
  availBlks s1 = u64 (availBlks (st g) + (debt c' - debt c)) →
  (∀ j, j ≠ i → seen' j = seen g j) →
  pc_ok (top (st g)) (blks s1) (ver g) (seen' i) c' →
  Inv (Ghost (set_pcs (<[i := c']> (pcs (st g))) s1) (ver g) seen') xs.
Proof.
  intros I Hc Ht Hd Hb Hown Hheld Hav Hseen Hpc.
  assert (∀ b, b ∈ owned c → b ∉ xs ∧ b ∉ held (st g) ∧ b ∈ dom (blks (st g))) as Hx.
  { intros b Hb'. destruct (inv_own _ _ _ _ _ I Hc Hb') as (? & ? & ? & _). done. }
  assert (∀ b, b ∈ xs → blks s1 !! b = blks (st g) !! b) as Hxs.
  { intros b Hbx. apply Hb. intros Hbo. by destruct (Hx b Hbo). }
  split; cbn [st ver seen set_pcs top blks availBlks pcs held]; rewrite ?Ht, ?Hd.
  - eapply is_stack_same, (i_stack _ _ I). done.
  - apply (i_ver _ _ I).
  - apply (i_ctr _ _ I).
  - rewrite (pcs_owned_insert _ _ _ c' Hc), (app_assoc (elements (held s1))), Hown, <- (i_own _ _ I).
    by rewrite (owned_split _ _ _ Hc), <- app_assoc.
  - apply (i_canon _ _ I).
  - intros b Hbx. destruct (i_free _ _ I b Hbx) as (k & Hk & ?). exists k. by rewrite Hxs.
  - intros b Hbh. destruct (Hheld b Hbh) as [Hh|]; [|done]. destruct (i_held _ _ I b Hh) as (k & Hk & ?).
    exists k. rewrite Hb; [done|]. intros Hbo. by destruct (Hx b Hbo) as (_ & ? & _).
  - rewrite Hav, (debts_insert _ _ _ c' Hc), (i_avail _ _ I).
    rewrite (wrap_add 64 _ _ (debt c' - debt c) (wrap_wrap 64 _ ltac:(done))). f_equal. lia.
  - intros j d Hj. destruct (decide (j = i)) as [->|Hne].
    + rewrite list_lookup_insert_eq in Hj by (by eapply lookup_lt_Some). by injection Hj as <-.
    + rewrite list_lookup_insert_ne in Hj by done. rewrite Hseen by done.
      pose proof (i_pcs _ _ I j d Hj) as Hok. eapply pc_ok_frame, Hok; [done| |].
      * intros b Hbd. apply Hb. intros Hbo.
        destruct (inv_own _ _ _ _ _ I Hc Hbo) as (_ & _ & _ & Hoth). by destruct (Hoth j d Hj Hne).
      * intros old new -> Hv. apply Hb. intros Hbo. destruct Hok as (Hs & Hnz & _).
        rewrite (snap_now _ _ _ _ _ Hs Hv) in *. destruct (Hx _ Hbo) as (Hnx & _).
        pose proof (i_stack _ _ I) as Hst. destruct xs as [|x xs]; [by cbn in Hst|].
        destruct Hst as (He & _). apply Hnx. rewrite He. by left.
Qed.

(** A compare-and-swap of thread [i] that succeeds. *)
Lemma inv_win g xs i c c' t' xs' :
  Inv g xs → pcs (st g) !! i = Some c →
  xs' ++ owned c' ≡ₚ xs ++ owned c →
  is_stack (blks (st g)) (PTR (ptr t')) xs' → ctr t' = u16 (ver g + 1) →
  (∀ b, b ∈ xs' → in_use (blks (st g)) b false) →
  Z.of_nat (length xs') + debt c' = Z.of_nat (length xs) + debt c →
  pc_ok t' (blks (st g)) (ver g + 1) (seen g i) c' →
  Inv (Ghost (set_pcs (<[i := c']> (pcs (st g))) (set_top t' (st g))) (ver g + 1) (seen g)) xs'.
Proof.
  intros I Hc Hown Hst Hctr Hfree Hlen Hpc.
  split; cbn [st ver seen set_pcs set_top top blks availBlks pcs held].
  - done.
  - pose proof (i_ver _ _ I). lia.
  - done.
  - rewrite (pcs_owned_insert _ _ _ c' Hc), <- (i_own _ _ I), (owned_split _ _ _ Hc).
    rewrite (Permutation_app_swap_app (elements _) (owned c')), (Permutation_app_swap_app (elements _) (owned c)).
    by rewrite !(app_assoc xs), !(app_assoc xs'), Hown.
  - apply (i_canon _ _ I).
  - done.
  - apply (i_held _ _ I).
  - rewrite (i_avail _ _ I), (debts_insert _ _ _ c' Hc). f_equal. lia.
  - intros j d Hj. destruct (decide (j = i)) as [->|Hne].
    + rewrite list_lookup_insert_eq in Hj by (by eapply lookup_lt_Some). by injection Hj as <-.
    + rewrite list_lookup_insert_ne in Hj by done. eapply pc_ok_win, (i_pcs _ _ I j d Hj).
Qed.

(** The word a successful compare-and-swap found is the one the thread read. *)
Lemma snap_current g xs i old : Inv g xs → snap (top (st g)) (blks (st g)) (ver g) (seen g i) old →
  top (st g) = old → ver g - seen g i < 2 ^ 16 → seen g i = ver g.
Proof.
  intros I [Hv Hc _ _] He Hd. pose proof (i_ctr _ _ I) as Ht. rewrite He, Hc in Ht. unfold wrap in Ht.
  assert ((ver g - seen g i) mod 2 ^ 16 = 0) as Hm by (rewrite Zminus_mod, Ht, Z.sub_diag; done).
  rewrite Z.mod_small in Hm by lia. lia.
Qed.

Lemma top_dom g xs : Inv g xs → PTR (ptr (top (st g))) = 0 ∨ PTR (ptr (top (st g))) ∈ dom (blks (st g)).
Proof.
  intros I. pose proof (i_stack _ _ I) as Hst. destruct xs as [|x xs]; [by left|]. right.
  destruct Hst as (-> & _ & k & Hk & _). by eapply elem_of_dom_2.
Qed.

Lemma snap_top g xs : Inv g xs → snap (top (st g)) (blks (st g)) (ver g) (ver g) (top (st g)).
Proof. intros I. pose proof (i_ver _ _ I). split; [lia|apply (i_ctr _ _ I)|done|by eapply top_dom]. Qed.

Lemma in_use_insert m b k u : in_use (<[b := set_isInUse u k]> m) b u.
Proof. exists (set_isInUse u k). split; [apply lookup_insert_eq|done]. Qed.

(** What a step does to the stack: a pop when the compare-and-swap of an
    allocation succeeds, a push when that of a release does. *)
Definition moves (c c' : pc) (xs xs' : list Z) : Prop :=
  match c, c' with
  | PopCas _ _, AllocSub b => xs = b :: xs'
  | PushCas b _, FreeAdd _ => xs' = b :: xs
  | _, _ => xs' = xs
  end.

Lemma pop_win g xs i old new :
  Inv g xs → pcs (st g) !! i = Some (PopCas old new) → timely i g → top (st g) = old →
  ∃ x xs', xs = x :: xs' ∧ PTR (ptr old) = x ∧
    Inv (Ghost (set_pcs (<[i := AllocSub x]> (pcs (st g))) (set_top new (st g))) (ver g + 1) (seen g)) xs'.
Proof.
  intros I Hc Htm He. pose proof (i_pcs _ _ I i _ Hc) as (Hs & Hnz & Hk).
  assert (seen g i = ver g) as Hv.
  { eapply snap_current; [done..|]. apply (Htm _ Hc). cbn. by apply bool_decide_eq_true. }
  destruct (Hk Hv) as (k & Hk' & Hnew). pose proof (i_stack _ _ I) as Hst. rewrite He in Hst.
  destruct xs as [|x xs']; [done|]. destruct Hst as (Hp & Hx0 & k0 & Hk0 & Hst).
  rewrite Hp, Hk0 in Hk'. injection Hk' as <-. exists x, xs'. split; [done|]. split; [done|].
  eapply inv_win; try done.
  - cbn [owned]. by rewrite app_nil_r, Permutation_app_comm.
  - rewrite Hnew. cbn [next_top ptr]. destruct xs' as [|y ys].
    + cbn in Hst. rewrite Hst. apply PTR_0.
    + pose proof Hst as (Hy & _ & k1 & Hk1 & _). destruct (i_canon _ _ I y) as [_ Hcan]; [by eapply elem_of_dom_2|].
      rewrite Hy in Hst |- *. by rewrite Hcan.
  - rewrite Hnew. cbn [next_top ctr]. rewrite (snap_ctr _ _ _ _ _ Hs), Hv.
    apply (wrap_add 16). by apply wrap_wrap.
  - intros b Hb. apply (i_free _ _ I). by right.
  - cbn [debt length]. lia.
  - cbn [pc_ok]. apply (i_free _ _ I). by left.
Qed.

Lemma push_win g xs i b old :
  Inv g xs → pcs (st g) !! i = Some (PushCas b old) → timely i g → top (st g) = old →
  Inv (Ghost (set_pcs (<[i := FreeAdd b]> (pcs (st g))) (set_top (next_top old b) (st g))) (ver g + 1) (seen g)) (b :: xs).
Proof.
  intros I Hc Htm He. pose proof (i_pcs _ _ I i _ Hc) as (Hs & k & Hk & Hn & Hu).
  assert (seen g i = ver g) as Hv.
  { eapply snap_current; [done..|]. apply (Htm _ Hc). cbn. by apply bool_decide_eq_true. }
  destruct (i_canon _ _ I b) as [Hb0 Hcan]; [by eapply elem_of_dom_2|].
  eapply inv_win; try done.
  - cbn [owned]. by rewrite app_nil_r, Permutation_app_comm.
  - cbn [next_top ptr is_stack]. rewrite Hcan. split; [done|]. split; [done|]. exists k. split; [done|].
    rewrite Hn, <- He. apply (i_stack _ _ I).
  - cbn [next_top ctr]. rewrite (snap_ctr _ _ _ _ _ Hs), Hv. apply (wrap_add 16). by apply wrap_wrap.
  - intros b' [->|Hb']%elem_of_cons; [by exists k|by apply (i_free _ _ I)].
  - cbn [debt length]. lia.
Qed.

Lemma stack_inv_same g xs i c c' seen' :
  Inv g xs → pcs (st g) !! i = Some c → owned c' = owned c → debt c' = debt c →
  (∀ j, j ≠ i → seen' j = seen g j) → pc_ok (top (st g)) (blks (st g)) (ver g) (seen' i) c' →
  Inv (Ghost (set_pcs (<[i := c']> (pcs (st g))) (st g)) (ver g) seen') xs.
Proof.
  intros I Hc Ho Hd Hs Hok. eapply inv_upd; try done; [by rewrite Ho|auto|].
  rewrite Hd, Z.sub_diag, Z.add_0_r, (i_avail _ _ I). symmetry. by apply wrap_wrap.
Qed.

(** A step that writes the header of the thread's own entry. *)
Lemma inv_header g xs i c c' b k :
  Inv g xs → pcs (st g) !! i = Some c → owned c = [b] → b ∈ dom (blks (st g)) →
  owned c' = [b] → debt c' = debt c →
  pc_ok (top (st g)) (<[b := k]> (blks (st g))) (ver g) (seen g i) c' →
  Inv (Ghost (set_pcs (<[i := c']> (pcs (st g))) (set_blks (<[b := k]> (blks (st g))) (st g))) (ver g) (seen g)) xs.
Proof.
  intros I Hc Ho Hb Ho' Hd Hok.
  eapply (inv_upd _ _ _ _ _ (set_blks (<[b := k]> (blks (st g))) (st g))); cbn [set_blks top blks held availBlks]; try done.
  - rewrite dom_insert_L. set_solver.
  - intros b' Hb'. rewrite Ho, list_elem_of_singleton in Hb'. by rewrite lookup_insert_ne.
  - by rewrite Ho, Ho'.
  - auto.
  - rewrite Hd, Z.sub_diag, Z.add_0_r, (i_avail _ _ I). symmetry. by apply wrap_wrap.
Qed.

(** A step to the counter. *)
Lemma inv_count g xs i c c' d :
  Inv g xs → pcs (st g) !! i = Some c → owned c' = owned c → debt c' - debt c = d →
  pc_ok (top (st g)) (blks (st g)) (ver g) (seen g i) c' →
  Inv (Ghost (set_pcs (<[i := c']> (pcs (st g))) (set_availBlks (u64 (availBlks (st g) + d)) (st g))) (ver g) (seen g)) xs.
Proof.
  intros I Hc Ho Hd Hok.
  eapply (inv_upd _ _ _ _ _ (set_availBlks (u64 (availBlks (st g) + d)) (st g))); cbn [set_availBlks top blks held availBlks]; try done.
  - by rewrite Ho.
  - auto.
  - by rewrite Hd.
Qed.

(** The entry goes to the client. *)
Lemma inv_hand_out g xs i b k :
  Inv g xs → pcs (st g) !! i = Some (AllocUse b) → blks (st g) !! b = Some k →
  Inv (Ghost (set_pcs (<[i := Idle (b + sizeof_lac_mem_blk)]> (pcs (st g)))
    (set_held ({[b]} ∪ held (st g)) (set_blks (<[b := set_isInUse true k]> (blks (st g))) (st g)))) (ver g) (seen g)) xs.
Proof.
  intros I Hc Hk. destruct (inv_own _ _ _ _ b I Hc) as (_ & Hh & Hb & _); [by left|].
  eapply (inv_upd _ _ _ _ _ (set_held ({[b]} ∪ held (st g)) (set_blks (<[b := set_isInUse true k]> (blks (st g))) (st g)))); cbn [set_held set_blks top blks held availBlks]; try done.
  - rewrite dom_insert_L. set_solver.
  - intros b' Hb'. cbn [owned] in Hb'. rewrite list_elem_of_singleton in Hb'. by rewrite lookup_insert_ne.
  - cbn [owned]. rewrite elements_union_singleton by done. by rewrite app_nil_r, Permutation_app_comm.
  - intros b' [->%elem_of_singleton|?]%elem_of_union; [right; apply in_use_insert|by left].
  - cbn [debt]. rewrite Z.add_0_r, (i_avail _ _ I). symmetry. by apply wrap_wrap.
Qed.

(** Every access is possible, keeps the invariant and pops, pushes or leaves the
    stack alone; a thread reads an empty top just when the stack is empty. *)
Lemma access_inv g xs i c : Inv g xs → pcs (st g) !! i = Some c → ¬ idle c → timely i g →
  ∃ g' c' xs', gstep i Access g = Some g' ∧ pcs (st g') !! i = Some c' ∧ moves c c' xs xs' ∧ Inv g' xs'.
Proof.
  intros I Hc Hi Htm. pose proof (i_pcs _ _ I i c Hc) as Hok.
  assert (∀ c' s1, advance c (st g) = Some (c', s1) →
    gstep i Access g = Some (Ghost (set_pcs (<[i := c']> (pcs (st g))) s1)
      (if wins c (st g) then ver g + 1 else ver g) (if reads c then fupd (seen g) i (ver g) else seen g)) ∧
    <[i := c']> (pcs (st g)) !! i = Some c') as Hg.
  { intros c' s1 Ha. split; [unfold gstep, step; rewrite Hc; cbn [mbind option_bind]; by rewrite Ha|].
    apply list_lookup_insert_eq. by eapply lookup_lt_Some. }
  pose proof (snap_top _ _ I) as Htop.
  assert (∀ b, owned c = [b] → b ∈ dom (blks (st g))) as Hown.
  { intros b Hb. destruct (inv_own _ _ _ _ b I Hc) as (_ & _ & ? & _); [rewrite Hb; by left|done]. }
  destruct c as [r| |old|old new|b|b|b|b|b old|b old|b]; cbn [advance wins reads pc_ok] in *; [by destruct Hi|..].
  - destruct (Hg _ _ eq_refl) as [-> H]. eexists _, _, xs. split_and!; [done|exact H|done|].
    eapply stack_inv_same; try done; [intros; by apply fupd_ne|]. cbn [pc_ok]. by rewrite fupd_eq.
  - destruct (Z.eqb_spec (PTR (ptr old)) 0) as [Hz|Hnz].
    + destruct (Hg _ _ eq_refl) as [-> H]. eexists _, _, xs. split_and!; [done|exact H|done|]. by eapply stack_inv_same.
    + destruct (snap_dom _ _ _ _ _ Hok) as [|[k Hk]%elem_of_dom]; [done|]. rewrite Hk in Hg.
      destruct (Hg _ _ eq_refl) as [-> H]. eexists _, _, xs. split_and!; [done|exact H|done|].
      eapply stack_inv_same; try done. cbn [pc_ok]. split; [done|]. split; [done|]. intros _. by exists k.
  - destruct (decide (top (st g) = old)) as [He|Hne].
    + destruct (pop_win _ _ _ _ _ I Hc Htm He) as (x & xs' & -> & Hp & I'). rewrite bool_decide_eq_true_2 in Hg by done.
      destruct (Hg _ _ eq_refl) as [-> H]. rewrite Hp in *. eexists _, _, xs'. split_and!; [done|exact H|done|exact I'].
    + rewrite bool_decide_eq_false_2 in Hg by done. destruct (Hg _ _ eq_refl) as [-> H].
      eexists _, _, xs. split_and!; [done|exact H|done|]. by eapply stack_inv_same.
  - destruct (Hg _ _ eq_refl) as [-> H]. eexists _, _, xs. split_and!; [done|exact H|done|]. by eapply (inv_count _ _ _ _ _ (-1)).
  - destruct Hok as (k & Hk & Hu). rewrite Hk in Hg. destruct (Hg _ _ eq_refl) as [-> H].
    eexists _, _, xs. split_and!; [done|exact H|done|]. by eapply inv_hand_out.
  - destruct Hok as (k & Hk & Hu). rewrite Hk in Hg. destruct (Hg _ _ eq_refl) as [-> H].
    eexists _, _, xs. split_and!; [done|exact H|done|]. eapply inv_header; try done; [by apply Hown|apply in_use_insert].
  - destruct (Hg _ _ eq_refl) as [-> H]. eexists _, _, xs. split_and!; [done|exact H|done|].
    eapply stack_inv_same; try done; [intros; by apply fupd_ne|]. cbn [pc_ok]. by rewrite fupd_eq.
  - destruct Hok as (Hs & k & Hk & Hu). rewrite Hk in Hg. destruct (Hg _ _ eq_refl) as [-> H].
    eexists _, _, xs. split_and!; [done|exact H|done|]. eapply inv_header; try done; [by apply Hown|].
    split; [eapply snap_frame, Hs; rewrite dom_insert_L; pose proof (Hown b eq_refl); set_solver|].
    eexists. split; [apply lookup_insert_eq|done].
  - destruct (decide (top (st g) = old)) as [He|Hne].
    + rewrite bool_decide_eq_true_2 in Hg by done. destruct (Hg _ _ eq_refl) as [-> H].
      eexists _, _, (b :: xs). split_and!; [done|exact H|done|]. by apply push_win.
    + rewrite bool_decide_eq_false_2 in Hg by done. destruct (Hg _ _ eq_refl) as [-> H].
      eexists _, _, xs. split_and!; [done|exact H|done|]. eapply stack_inv_same; try done.
      destruct Hok as (_ & k & Hk & _ & Hu). by exists k.
  - destruct (Hg _ _ eq_refl) as [-> H]. eexists _, _, xs. split_and!; [done|exact H|done|]. by eapply inv_count.
Qed.

Lemma inv_call g xs i e g' : Inv g xs → e ≠ Access → gstep i e g = Some g' →
  Inv g' xs ∧ ∃ r c', pcs (st g) !! i = Some (Idle r) ∧ pcs (st g') !! i = Some c' ∧
    (c' = PopRead ∨ ∃ b, c' = FreeUse b).
Proof.
  intros I He. destruct e as [|p|]; [| |done]; cbn [gstep]; unfold call_alloc, call_free.
  - destruct (pcs (st g) !! i) as [[r| | | | | | | | | |]|] eqn:Hc; try done. intros [= <-]. split.
    + by eapply stack_inv_same.
    + exists r, PopRead. split_and!; [done| |by left]. apply list_lookup_insert_eq. by eapply lookup_lt_Some.
  - destruct (pcs (st g) !! i) as [[r| | | | | | | | | |]|] eqn:Hc; try done.
    set (b := p - sizeof_lac_mem_blk). destruct (decide (b ∈ held (st g))) as [Hb|]; [|done]. intros [= <-]. split.
    + eapply (inv_upd _ _ _ _ _ (set_held (held (st g) ∖ {[b]}) (st g))); cbn [set_held top blks held availBlks]; try done.
      * cbn [owned]. rewrite app_nil_r, Permutation_app_comm. cbn [app].
        rewrite <- (elements_union_singleton (held (st g) ∖ {[b]}) b) by set_solver.
        by rewrite <- union_difference_singleton_L.
      * set_solver.
      * cbn [debt]. rewrite Z.add_0_r, (i_avail _ _ I). symmetry. by apply wrap_wrap.
      * apply (i_held _ _ I b Hb).
    + exists r, (FreeUse b). split_and!; [done| |right; by eexists]. apply list_lookup_insert_eq. by eapply lookup_lt_Some.
Qed.

Lemma ready_inv s xs : ready s xs → Inv (Ghost s (ctr (top s)) (λ _, 0)) xs.
Proof.
  intros R. destruct R as [Hst Hctr Hall Hblks Hav Hidle Hheld].
  assert (∀ l, Forall idle l → l ≫= owned = [] ∧ debts l = 0) as Hid.
  { induction 1 as [|c l Hc _ [IH1 IH2]]; [done|]. by destruct c. }
  destruct (Hid _ Hidle) as [Ho Hdb].
  split; cbn [st ver seen]; rewrite ?Hheld; try done; try lia.
  - symmetry. by apply wrap_small.
  - rewrite Ho, elements_empty. by rewrite app_nil_r, <- Hall.
  - intros b [k Hk]%elem_of_dom. by destruct (Hblks b k Hk).
  - intros b Hb. rewrite Hall in Hb. apply elem_of_elements, elem_of_dom in Hb as [k Hk]. exists k.
    split; [done|]. by destruct (Hblks b k Hk).
  - by rewrite Hdb, Z.add_0_r.
  - intros i c Hi. rewrite Forall_lookup in Hidle. by destruct c; try destruct (Hidle _ _ Hi).
Qed.

Lemma advance_dom c s c' s1 : advance c s = Some (c', s1) → dom (blks s1) = dom (blks s).
Proof.
  assert (∀ b k, blks s !! b = Some k → ∀ k', dom (<[b := k']> (blks s)) = dom (blks s)) as Hd.
  { intros b k Hk k'. apply elem_of_dom_2 in Hk. rewrite dom_insert_L. set_solver. }
  unfold advance. destruct c as [r| |old|old new|b|b|b|b|b old|b old|b]; intros H.
  4,10: by destruct (decide _); injection H as <- <-.
  3: destruct (_ =? 0); [by injection H as <- <-|].
  all: try done; try (by injection H as <- <-).
  all: match type of H with context [?m !! ?b] => destruct (m !! b) eqn:E; [|done] end.
  all: injection H as <- <-; try done; cbn [set_blks set_held blks]; by eapply Hd.
Qed.

Lemma gstep_dom i e g g' : gstep i e g = Some g' → dom (blks (st g')) = dom (blks (st g)).
Proof.
  destruct e as [|p|]; cbn [gstep]; unfold call_alloc, call_free.
  1,2: destruct (pcs (st g) !! i) as [[r| | | | | | | | | |]|]; try done.
  - by intros [= <-].
  - case_decide; [|done]. by intros [= <-].
  - destruct (pcs (st g) !! i) as [c|] eqn:Hc; [|done]. cbn [mbind option_bind].
    destruct (step i (st g)) as [s|] eqn:Hs; [|done]. intros [= <-].
    destruct (step_Some _ _ _ Hs) as (c0 & c' & s1 & _ & Ha & ->). by apply advance_dom in Ha.
Qed.

(** One event, with what it does to the stack. *)
Lemma gstep_inv g xs i e g' : Inv g xs → (e = Access → timely i g) → gstep i e g = Some g' →
  ∃ c c' xs', pcs (st g) !! i = Some c ∧ pcs (st g') !! i = Some c' ∧ moves c c' xs xs' ∧ Inv g' xs'.
Proof.
  intros I Htm Hg. destruct (decide (e = Access)) as [->|He].
  - assert (∃ c, pcs (st g) !! i = Some c ∧ ¬ idle c) as (c & Hc & Hi).
    { cbn [gstep] in Hg. unfold step in Hg. destruct (pcs (st g) !! i) as [c|]; [|done].
      exists c. split; [done|]. intros Hi. by destruct c. }
    destruct (access_inv _ _ _ _ I Hc Hi (Htm eq_refl)) as (g1 & c' & xs' & Hg1 & Hc' & Hm & I').
    rewrite Hg in Hg1. injection Hg1 as <-. by exists c, c', xs'.
  - destruct (inv_call _ _ _ _ _ I He Hg) as (I' & r & c' & Hc & Hc' & Hor).
    exists (Idle r), c', xs. split_and!; [done|done| |done]. by destruct Hor as [->|[b ->]].
Qed.

Lemma stack_reach_inv s0 xs0 g : ready s0 xs0 → reach s0 g → (∃ xs, Inv g xs) ∧ dom (blks (st g)) = dom (blks s0).
Proof.
  intros R. induction 1 as [|g i e g' _ [[xs I] Hd] Htm Hg].
  - split; [|done]. eexists. by apply ready_inv.
  - destruct (gstep_inv _ _ _ _ _ I Htm Hg) as (_ & _ & xs' & _ & _ & _ & I'). split; [by exists xs'|].
    by rewrite (gstep_dom _ _ _ _ Hg).
Qed.

(** C14 The pool.  In every state that any number of allocating and releasing
    threads reach, each compare-and-swap being in time: no access faults; every
    entry is in exactly one place, the stack, a client or a call under way;
    [isInUse] tells the entries of clients from those on the stack; and when no
    call is under way [availBlks] is the number of entries on the stack. *)
Theorem pool_safe s0 xs0 g :
  ready s0 xs0 → reach s0 g →
  (∀ i c, pcs (st g) !! i = Some c → ¬ idle c → timely i g → is_Some (gstep i Access g)) ∧
  ∃ xs, entries (st g) = Some xs ∧
    xs ++ elements (held (st g)) ++ (pcs (st g) ≫= owned) ≡ₚ xs0 ∧
    (∀ b, b ∈ xs → in_use (blks (st g)) b false) ∧ (∀ b, b ∈ held (st g) → in_use (blks (st g)) b true) ∧
    (Forall idle (pcs (st g)) → availBlks (st g) = u64 (Z.of_nat (length xs))).
Proof.
  intros R Hr. destruct (stack_reach_inv _ _ _ R Hr) as [[xs I] Hd]. split.
  - intros i c Hc Hi Htm. destruct (access_inv _ _ _ _ I Hc Hi Htm) as (g' & _ & _ & -> & _). by eexists.
  - exists xs. split_and!; [by apply inv_entries| |apply (i_free _ _ I)|apply (i_held _ _ I)|].
    + by rewrite (i_own _ _ I), Hd, (r_all _ _ R).
    + intros Hid. rewrite (i_avail _ _ I). f_equal.
      assert (debts (pcs (st g)) = 0) as ->; [|lia].
      induction Hid as [|c l Hc _ IH]; [done|]. by destruct c.
Qed.

(** C13 Linearizability.  The stack is a list that changes at the successful
    compare-and-swaps only: that of an allocation takes the first entry, the one
    it returns, that of a release puts the entry released in front; and a thread
    that reads an empty top, to return [CPA_STATUS_RETRY], does so when the list
    is empty. *)
Theorem lock_free_stack_refines s0 xs0 g i e g' :
  ready s0 xs0 → reach s0 g → (e = Access → timely i g) → gstep i e g = Some g' →
  ∃ xs xs' c c', entries (st g) = Some xs ∧ entries (st g') = Some xs' ∧
    pcs (st g) !! i = Some c ∧ pcs (st g') !! i = Some c' ∧ moves c c' xs xs' ∧
    (PTR (ptr (top (st g))) = 0 ↔ xs = []).
Proof.
  intros R Hr Htm Hg. destruct (stack_reach_inv _ _ _ R Hr) as [[xs I] _].
  destruct (gstep_inv _ _ _ _ _ I Htm Hg) as (c & c' & xs' & Hc & Hc' & Hm & I').
  exists xs, xs', c, c'. split_and!; try done; [by apply inv_entries..|].
  pose proof (i_stack _ _ I) as Hst. destruct xs as [|x xs]; [done|].
  destruct Hst as (-> & Hx & _). done.
Qed.

(** ** Traces *)

Definition pstep (e : nat * event) (s : pool) : option pool :=
  match e.2 with CallAlloc => call_alloc e.1 s | CallFree p => call_free e.1 p s | Access => step e.1 s end.
Fixpoint exec (tr : list (nat * event)) (s : pool) : option pool :=
  match tr with [] => Some s | e :: tr => s' ← pstep e s; exec tr s' end.

Lemma exec_app tr tr' s : exec (tr ++ tr') s = s' ← exec tr s; exec tr' s'.
Proof.
  revert s. induction tr as [|e tr IH]; intros s; [done|]. cbn [app exec].
  destruct (pstep e s) as [s'|]; [apply IH|done].
Qed.

Definition timely_b (i : nat) (g : ghost) : bool :=
  match pcs (st g) !! i with
  | Some c => negb (wins c (st g)) || (ver g - seen g i <? 2 ^ 16)
  | None => true
  end.
Lemma timely_b_spec i g : timely_b i g = true → timely i g.
Proof.
  unfold timely_b, timely. intros H c Hc Hw. rewrite Hc, Hw in H. cbn in H. lia.
Qed.

Fixpoint gexec (tr : list (nat * event)) (g : ghost) : option ghost :=
  match tr with
  | [] => Some g
  | (i, e) :: tr => if timely_b i g then g' ← gstep i e g; gexec tr g' else None
  end.
Lemma gexec_reach s0 tr g g' : reach s0 g → gexec tr g = Some g' → reach s0 g'.
Proof.
  revert g. induction tr as [|[i e] tr IH]; intros g Hr H; [by injection H as <-|]. cbn [gexec] in H.
  destruct (timely_b i g) eqn:Ht; [|done]. destruct (gstep i e g) as [g1|] eqn:Hg; [|done].
  apply (IH g1); [|done]. eapply reach_step; [done| |done]. intros _. by apply timely_b_spec.
Qed.

(** A call of a thread that runs alone. *)
Definition alloc_by (i : nat) : list (nat * event) := (i, CallAlloc) :: replicate 5 (i, Access).
Definition free_by (i : nat) (b : Z) : list (nat * event) :=
  (i, CallFree (b + sizeof_lac_mem_blk)) :: replicate 5 (i, Access).

Lemma exec_cons e tr s s' : pstep e s = Some s' → exec (e :: tr) s = exec tr s'.
Proof. cbn [exec]. by intros ->. Qed.

Lemma exec_access i tr t m a l h c c' s' :
  l !! i = Some c → advance c (Pool t m a l h) = Some (c', s') →
  exec ((i, Access) :: tr) (Pool t m a l h) = exec tr (Pool (top s') (blks s') (availBlks s') (<[i := c']> l) (held s')).
Proof.
  intros Hl Ha. apply exec_cons. unfold pstep, step. cbn [fst snd pcs]. rewrite Hl. cbn [mbind option_bind].
  by rewrite Ha.
Qed.

Ltac access :=
  erewrite exec_access; [|by apply list_lookup_insert_eq|cbn [advance top blks availBlks pcs held]];
  cbn [set_top set_blks set_availBlks set_held top blks availBlks pcs held]; rewrite ?list_insert_insert_eq.

Lemma alloc_solo i s r b k :
  pcs s !! i = Some (Idle r) → PTR (ptr (top s)) = b → b ≠ 0 → blks s !! b = Some k →
  exec (alloc_by i) s = Some (Pool (next_top (top s) (pNext k)) (<[b := set_isInUse true k]> (blks s))
    (u64 (availBlks s - 1)) (<[i := Idle (b + sizeof_lac_mem_blk)]> (pcs s)) ({[b]} ∪ held s)).
Proof.
  destruct s as [t m a l h]. cbn [top blks availBlks pcs held]. intros Hi Ht Hb Hk.
  pose proof (lookup_lt_Some _ _ _ Hi) as Hlt. unfold alloc_by. cbn [replicate].
  erewrite exec_cons; [|unfold pstep, call_alloc; cbn [fst snd pcs]; rewrite Hi; done].
  unfold set_pcs. cbn [top blks availBlks pcs held].
  access; [|done]. access; [|apply Z.eqb_neq in Hb; rewrite Ht, Hb, Hk; done].
  access; [|rewrite decide_True by done; done]. access; [|done]. access; [|rewrite Ht, Hk; done].
  done.
Qed.

Lemma free_solo i s r b k :
  pcs s !! i = Some (Idle r) → b ∈ held s → blks s !! b = Some k →
  exec (free_by i b) s = Some (Pool (next_top (top s) b)
    (<[b := set_pNext (PTR (ptr (top s))) (set_isInUse false k)]> (blks s))
    (u64 (availBlks s + 1)) (<[i := Idle 0]> (pcs s)) (held s ∖ {[b]})).
Proof.
  destruct s as [t m a l h]. cbn [top blks availBlks pcs held]. intros Hi Hb Hk.
  pose proof (lookup_lt_Some _ _ _ Hi) as Hlt. unfold free_by. cbn [replicate].
  erewrite exec_cons; [|unfold pstep, call_free; cbn [fst snd pcs held]; rewrite Hi;
    replace (b + sizeof_lac_mem_blk - sizeof_lac_mem_blk) with b by lia; rewrite decide_True by done; done].
  unfold set_pcs, set_held. cbn [top blks availBlks pcs held].
  access; [|rewrite Hk; done]. access; [|done]. access; [|rewrite lookup_insert_eq; done].
  access; [|rewrite decide_True by done; done]. access; [|done]. by rewrite insert_insert_eq.
Qed.

End stack.

(** ** Three entries and two threads *)

Definition ex_A := 0x1040.
Definition ex_B := 0x2040.
Definition ex_C := 0x3040.
Definition ex_blk n u := Blk n 0 0 u 7.
Definition ex_pool : pool :=
  Pool (Pointer 0 ex_A) {[ex_A := ex_blk ex_B false; ex_B := ex_blk ex_C false; ex_C := ex_blk 0 false]} 3
    [Idle 0; Idle 0] ∅.

Lemma ex_stack_ready : ready false ex_pool [ex_A; ex_B; ex_C].
Proof.
  split.
  - vm_compute. split_and!; try done. eexists. split_and!; try done. eexists. split_and!; try done. by eexists.
  - done.
  - vm_compute. solve_Permutation.
  - intros b k. cbn [ex_pool blks]. rewrite !lookup_insert_Some, lookup_singleton_Some.
    intros [[<- <-]|[_ [[<- <-]|[_ [<- <-]]]]]; done.
  - done.
  - by repeat constructor.
  - done.
Qed.

(** Thread 0 has read the top and the next entry; thread 1 has taken an entry. *)
Definition ex_g1 : ghost :=
  default (Ghost ex_pool 0 (λ _, 0))
    (gexec false ([(0%nat, CallAlloc); (0%nat, Access); (0%nat, Access)] ++ alloc_by 1) (Ghost ex_pool 0 (λ _, 0))).

Lemma ex_stack_reach : reach false ex_pool ex_g1.
Proof.
  eapply (gexec_reach _ _ ([(0%nat, CallAlloc); (0%nat, Access); (0%nat, Access)] ++ alloc_by 1)).
  - apply reach_init.
  - vm_compute. reflexivity.
Qed.

Theorem pool_safe_witness :
  (∀ i c, pcs (st ex_g1) !! i = Some c → ¬ idle c → timely i ex_g1 → is_Some (gstep false i Access ex_g1)) ∧
  ex_A ∈ held (st ex_g1).
Proof.
  split; [exact (proj1 (pool_safe false ex_pool _ ex_g1 ex_stack_ready ex_stack_reach))|]. vm_compute. done.
Defined.

Theorem lock_free_stack_refines_witness : ∃ g' xs xs' c c',
  gstep false 0 Access ex_g1 = Some g' ∧ entries false (st ex_g1) = Some xs ∧ entries false (st g') = Some xs' ∧
  pcs (st ex_g1) !! 0%nat = Some c ∧ pcs (st g') !! 0%nat = Some c' ∧ moves c c' xs xs'.
Proof.
  destruct (gstep false 0 Access ex_g1) as [g'|] eqn:E; [|by vm_compute in E].
  destruct (lock_free_stack_refines false ex_pool _ ex_g1 0 Access g' ex_stack_ready ex_stack_reach) as (xs & xs' & c & c' & H);
    [intros _; apply timely_b_spec; reflexivity|exact E|].
  exists g', xs, xs', c, c'. split_and!; try apply H. reflexivity.
Defined.


(** Both threads try to take an entry; one compare-and-swap fails. *)
Definition ex_racing : pool :=
  default ex_pool (exec false [(0%nat, CallAlloc); (1%nat, CallAlloc)] ex_pool).
Definition ex_race : list nat := [0; 0; 1; 1; 0; 1; 1; 1; 1; 1; 1; 0; 0]%nat.

Theorem lock_free_witness :
  snd <$> run false ex_race ex_racing = Some 2%nat ∧ (length ex_race <= (2 + 1) * (4 * 2 + 1))%nat.
Proof.
  split; [by vm_compute|].
  destruct (run false ex_race ex_racing) as [[s' w]|] eqn:E; [|by vm_compute in E].
  assert (w = 2%nat) as -> by (vm_compute in E; by injection E as _ <-).
  exact (lock_free false ex_race ex_racing s' 2 E).
Defined.

(** ** When a thread is too late

    Thread 0 has read the top [A] and the next entry [B]; then thread 1 takes
    [A], [B] and [C], gives [A] back and takes and returns it until the counter
    has gone round. *)

Definition aba_state (c : Z) : pool :=
  Pool (Pointer c ex_A) {[ex_A := ex_blk 0 false; ex_B := ex_blk ex_C true; ex_C := ex_blk 0 true]} 1
    [PopCas (Pointer 0 ex_A) (Pointer 1 ex_B); Idle 0] {[ex_B; ex_C]}.

Definition aba_prefix : list (nat * event) :=
  [(0%nat, CallAlloc); (0%nat, Access); (0%nat, Access)] ++ alloc_by 1 ++ alloc_by 1 ++ alloc_by 1 ++ free_by 1 ex_A.
Definition aba_cycle : list (nat * event) := alloc_by 1 ++ free_by 1 ex_A.
Definition cycles (n : nat) : list (nat * event) := concat (replicate n aba_cycle).

Lemma aba_start : exec false aba_prefix ex_pool = Some (aba_state 4).
Proof. vm_compute. reflexivity. Qed.

Lemma aba_turn c : exec false aba_cycle (aba_state c) = Some (aba_state (u16 (u16 (c + 1) + 1))).
Proof.
  unfold aba_cycle. rewrite exec_app.
  rewrite (alloc_solo false 1 (aba_state c) 0 ex_A (ex_blk 0 false)) by done. cbn [mbind option_bind].
  erewrite (free_solo false 1 _ (ex_A + sizeof_lac_mem_blk) ex_A (ex_blk 0 true)); [|done|done|done].
  cbn [top blks availBlks pcs held aba_state]. unfold aba_state. do 2 f_equal.
Qed.

Lemma aba_cycles n c : 0 <= c < 2 ^ 16 → exec false (cycles n) (aba_state c) = Some (aba_state (u16 (c + 2 * Z.of_nat n))).
Proof.
  revert c. induction n as [|n IH]; intros c Hc.
  - cbn. rewrite Z.add_0_r. by rewrite wrap_small.
  - unfold cycles. cbn [replicate concat]. rewrite exec_app, aba_turn. cbn [mbind option_bind].
    fold (cycles n). rewrite IH by by apply wrap_range. do 2 f_equal.
    rewrite (wrap_add 16 _ (u16 (c + 1) + 1)) by by apply wrap_wrap.
    rewrite <- Z.add_assoc, (wrap_add 16 _ (c + 1)) by by apply wrap_wrap. f_equal. lia.
Qed.

(** The 16 bits of the counter are not enough for a thread that is held up
    while 65536 operations complete: its compare-and-swap succeeds on a stack
    that has changed, and the next allocation returns an entry that a client
    has. *)
Theorem pop_reuses_entry :
  ∃ tr s1 s2 b, exec false tr ex_pool = Some s1 ∧ b ∈ held s1 ∧
    exec false (replicate 3 (0%nat, Access) ++ alloc_by 0) s1 = Some s2 ∧
    pcs s2 !! 0%nat = Some (Idle (b + sizeof_lac_mem_blk)).
Proof.
  exists (aba_prefix ++ cycles 32766), (aba_state 0).
  destruct (exec false (replicate 3 (0%nat, Access) ++ alloc_by 0) (aba_state 0)) as [s2|] eqn:E; [|by vm_compute in E].
  exists s2, ex_B. split_and!.
  - rewrite exec_app, aba_start. cbn [mbind option_bind]. rewrite aba_cycles by done. done.
  - done.
  - done.
  - vm_compute in E. by injection E as <-.
Qed.

(** [availBlks] is counted after the stack has changed: while a release has
    pushed its entry but not counted it yet, taking the entry makes
    [Lac_MemPoolAvailableEntries] of an empty pool 2^32 - 1. *)
Theorem available_entries_wrap :
  ∃ s0 xs0 g, ready false s0 xs0 ∧ reach false s0 g ∧ entries false (st g) = Some [] ∧
    Lac_MemPoolAvailableEntries (st g) = 2 ^ 32 - 1.
Proof.
  pose (tr := alloc_by 0 ++ alloc_by 0 ++ alloc_by 0 ++ take 5 (free_by 0 ex_A) ++ take 5 (alloc_by 1)).
  destruct (gexec false tr (Ghost ex_pool 0 (λ _, 0))) as [g|] eqn:E; [|by vm_compute in E].
  exists ex_pool, [ex_A; ex_B; ex_C], g. split_and!; [apply ex_stack_ready| | |].
  - eapply gexec_reach, E. apply reach_init.
  - vm_compute in E. by injection E as <-.
  - vm_compute in E. by injection E as <-.
Qed.

End LockFreeStack.
