(* ===== verification/ContigMem.v ===== *)
(** * Contiguous memory, as the access layer sees it

    The interface between the access layer and the memory driver: what
    [LAC_OS_CAMALLOC], [LAC_OS_CAFREE] and [LAC_OS_VIRT_TO_PHYS_INTERNAL] of
    [lac_mem.h] promise their users.  Clients ([MemPool]) are verified against
    it; [MemPoolUsdm] gives the user-space heap of [UsdmHeap] as the
    implementation. *)

From S2P Require Import Prelude.

#[local] Open Scope Z_scope.
#[local] Open Scope qat_scope.

Module ContigMem.

(** The three calls; an allocation that fails returns 0. *)
Class ContigMem := {
  cm_state : Type;
  cm_alloc (size node alignment : Z) : M cm_state Z;
  cm_free (a : Z) : M cm_state ();
  cm_phys (a : Z) : M cm_state Z;
}.

(** The size and alignment of each allocated block, by its address. *)
Abbreviation regions := (gmap Z (Z * Z)).

(** The calls do not fault on a heap in a good state that has these blocks: new
    blocks are apart from the old ones, only blocks can be freed, and a block is
    physically contiguous and aligned. *)
Class ContigMemLaws `{ContigMem} := {
  cm_inv : cm_state → regions → Prop;
  cm_alloc_law s L size node al :
    cm_inv s L → 0 <= size < 2 ^ 32 → 0 <= al < 2 ^ 32 →
    ∃ a s', cm_alloc size node al s = Some (a, s') ∧
      ((a = 0 ∧ cm_inv s' L) ∨ (a ≠ 0 ∧ L !! a = None ∧ cm_inv s' (<[a := (size, al)]> L)));
  cm_free_law s L a r : cm_inv s L → L !! a = Some r → ∃ s', cm_free a s = Some ((), s') ∧ cm_inv s' (delete a L);
  cm_range_law s L a n al : cm_inv s L → L !! a = Some (n, al) → 0 < a ∧ a + n <= 2 ^ 47;
  cm_disjoint_law s L a n al b m bl :
    cm_inv s L → L !! a = Some (n, al) → L !! b = Some (m, bl) → a ≠ b → a + n <= b ∨ b + m <= a;
  cm_phys_law s L a n al : cm_inv s L → L !! a = Some (n, al) →
    ∃ phys, phys mod al = 0 ∧ ∀ i, 0 <= i < n → cm_phys (a + i) s = Some (phys + i, s);
}.

End ContigMem.
