(* ===== verification/MemPool.v ===== *)
(** * Memory pools of the access layer

    Models [lac_mem_pools.c]: the table of pools, creating and destroying a
    pool, and its entries over the stack of [LockFreeStack], here for one thread
    at a time.  Memory comes from [ContigMem].

    The fields of a pool header that [Lac_MemPoolCreate] has not written yet
    have no value: reading one is a fault. *)

From S2P Require Import Prelude ContigMem LockFreeStack.
Import ContigMem LockFreeStack.

#[local] Open Scope Z_scope.
#[local] Open Scope qat_scope.

Module MemPool.

Definition CPA_STATUS_RESOURCE := -3.
Definition LAC_MEM_POOLS_NUM_SUPPORTED := 32000.
Definition LAC_MEM_POOLS_NAME_SIZE := 16%nat.
Definition highest_bit_of_lac_mem_blk_t := Z.log2 sizeof_lac_mem_blk.

(** [trackBlks]: the array, not all of it written yet. *)
Inductive track := NoTrack | Track (array : Z) (l : list (option Z)).

(** [lac_mem_pool_hdr_t] *)
Record hdr := Hdr {
  stack : pointer; poolName : string;
  numElementsInPool : option Z; blkSizeInBytes : option Z; blkAlignmentInBytes : option Z;
  trackBlks : track; avail : Z;
}.
Definition with_stack v h := Hdr v (poolName h) (numElementsInPool h) (blkSizeInBytes h) (blkAlignmentInBytes h) (trackBlks h) (avail h).
Definition with_avail v h := Hdr (stack h) (poolName h) (numElementsInPool h) (blkSizeInBytes h) (blkAlignmentInBytes h) (trackBlks h) v.
Definition with_track v h := Hdr (stack h) (poolName h) (numElementsInPool h) (blkSizeInBytes h) (blkAlignmentInBytes h) v (avail h).
Definition with_details n sz al h := Hdr (stack h) (poolName h) (Some n) (Some sz) (Some al) (trackBlks h) (avail h).

(** The OS's [malloc], given what is allocated, by the number of calls so far. *)
Class Malloc := sys_malloc : nat → gset Z → option Z.
Class MallocLaws `{Malloc} :=
  malloc_law n h p : sys_malloc n h = Some p → p ≠ 0 ∧ p ∉ h.

Section pools.
Context `{ContigMem, Malloc}.

Record state := State {
  os : cm_state;
  lac_mem_pools : gmap Z Z;  (* a missing entry is NULL *)
  hdrs : gmap Z hdr;
  mblks : gmap Z lac_mem_blk;  (* the headers before the entries *)
  heap : gset Z;  (* what malloc gave *)
  clock : nat;
}.
Definition set_os v s := State v (lac_mem_pools s) (hdrs s) (mblks s) (heap s) (clock s).
Definition set_pools v s := State (os s) v (hdrs s) (mblks s) (heap s) (clock s).
Definition set_hdrs v s := State (os s) (lac_mem_pools s) v (mblks s) (heap s) (clock s).
Definition set_mblks v s := State (os s) (lac_mem_pools s) (hdrs s) v (heap s) (clock s).
Definition set_heap v s := State (os s) (lac_mem_pools s) (hdrs s) (mblks s) v (clock s).
Definition set_clock v s := State (os s) (lac_mem_pools s) (hdrs s) (mblks s) (heap s) v.

Definition on_os {A} (f : M cm_state A) : M state A :=
  λ s, '(a, o) ← f (os s); Some (a, set_os o s).

(** The macros of [lac_mem.h]; an allocation that fails is 0.  What was in freed
    memory is gone. *)
Definition LAC_OS_MALLOC : M state Z :=
  n <- gets clock ;; modify (set_clock (S n)) ;; h <- gets heap ;;
  match sys_malloc n h with
  | None => ret 0
  | Some p => modify (set_heap ({[p]} ∪ h)) ;; ret p
  end.
Definition LAC_OS_FREE (p : Z) : M state () :=
  h <- gets heap ;;
  if decide (p ∈ h)
  then modify (set_heap (h ∖ {[p]})) ;; modify (λ s, set_hdrs (delete p (hdrs s)) s)
  else fault.
Definition LAC_OS_CAMALLOC (size alignment node : Z) : M state Z := on_os (cm_alloc size node alignment).
Definition LAC_OS_CAFREE (a : Z) : M state () :=
  on_os (cm_free a) ;; modify (λ s, set_mblks (filter (λ x, pMemAllocPtr x.2 ≠ a) (mblks s)) s).

Definition hdr_at (p : Z) : M state hdr := h <- gets hdrs ;; lift (h !! p).
Definition put_hdr (p : Z) (h : hdr) : M state () := modify (λ s, set_hdrs (<[p := h]> (hdrs s)) s).
Definition blk_at (b : Z) : M state lac_mem_blk := m <- gets mblks ;; lift (m !! b).
Definition put_blk (b : Z) (k : lac_mem_blk) : M state () := modify (λ s, set_mblks (<[b := k]> (mblks s)) s).

(** [pop] and [push] when no other thread is using the stack. *)
Definition pop (p : Z) : M state Z :=
  h <- hdr_at p ;;
  let next := PTR false (ptr (stack h)) in
  if next =? 0 then ret 0 else
  k <- blk_at next ;; put_hdr p (with_stack (next_top (stack h) (pNext k)) h) ;; ret next.
Definition push (p val : Z) : M state () :=
  h <- hdr_at p ;; k <- blk_at val ;;
  put_blk val (set_pNext (PTR false (ptr (stack h))) k) ;;
  put_hdr p (with_stack (next_top (stack h) val) h).

Definition add_avail (d p : Z) : M state () := h <- hdr_at p ;; put_hdr p (with_avail (u64 (avail h + d)) h).

Definition Lac_MemPoolGetElementRealSize (blkSize blkAlignment : Z) : Z :=
  let addSize := if sizeof_lac_mem_blk <=? blkAlignment then blkAlignment
                 else Z.shiftl 1 (highest_bit_of_lac_mem_blk_t + 1) in
  u32 (blkSize + addSize).

Definition Lac_MemPoolEntryAlloc (p : Z) : M state Z :=
  b <- pop p ;;
  if b =? 0 then ret CPA_STATUS_RETRY else
  add_avail (-1) p ;;
  k <- blk_at b ;; put_blk b (set_isInUse true k) ;; ret (b + sizeof_lac_mem_blk).

Definition Lac_MemPoolEntryFree (pEntry : Z) : M state () :=
  let b := pEntry - sizeof_lac_mem_blk in
  k <- blk_at b ;; put_blk b (set_isInUse false k) ;;
  push (pPoolID k) b ;; add_avail 1 (pPoolID k).

Definition Lac_MemPoolAvailable (p : Z) : M state Z :=
  if p =? 0 then ret 0 else h <- hdr_at p ;; ret (u32 (avail h)).

(** The loop over the stack; at most as many rounds as there are headers. *)
Fixpoint free_stacked (fuel : nat) (p pCurrentBlk : Z) : M state () :=
  if pCurrentBlk =? 0 then ret () else
  match fuel with
  | O => fault
  | S fuel =>
    k <- blk_at pCurrentBlk ;;
    let pFreePtr := pMemAllocPtr k in
    next <- pop p ;; LAC_OS_CAFREE pFreePtr ;; free_stacked fuel p next
  end.

(** The entry of an array; one that was not written has no value. *)
Definition tracked_at (l : list (option Z)) (i : nat) : M state Z := b <- lift (l !! i) ;; lift b.

Fixpoint free_tracked (n count : nat) (l : list (option Z)) : M state () :=
  match n with
  | O => ret ()
  | S n =>
    b <- tracked_at l count ;; k <- blk_at b ;;
    LAC_OS_CAFREE (pMemAllocPtr k) ;; free_tracked n (S count) l
  end.

Definition Lac_MemPoolCleanUpInternal (p : Z) : M state () :=
  h <- hdr_at p ;;
  match trackBlks h with
  | NoTrack => pCurrentBlk <- pop p ;; m <- gets mblks ;; free_stacked (S (size m)) p pCurrentBlk
  | Track array l =>
    n <- lift (numElementsInPool h) ;;
    free_tracked (Z.to_nat n) 0 l ;; LAC_OS_FREE array
  end ;;
  LAC_OS_FREE p.

(** The first free place of the table; [None] when there is none. *)
Fixpoint find_slot (fuel : nat) (m : gmap Z Z) (poolSearch : Z) : option (option Z) :=
  if decide (m !! poolSearch = None) then Some (Some poolSearch) else
  match fuel with
  | O => None
  | S fuel =>
    if poolSearch + 1 =? LAC_MEM_POOLS_NUM_SUPPORTED then Some None else find_slot fuel m (poolSearch + 1)
  end.

(** The part of the loop after an allocation that succeeded. *)
Definition add_block (counter : nat) (p addSize pMemBlk : Z) : M state () :=
  physAddr <- on_os (cm_phys (pMemBlk + addSize)) ;;
  let pMemBlkCurrent := pMemBlk + addSize - sizeof_lac_mem_blk in
  put_blk pMemBlkCurrent (Blk 0 physAddr pMemBlk false p) ;;
  push p pMemBlkCurrent ;;
  h <- hdr_at p ;;
  match trackBlks h with
  | NoTrack => ret ()
  | Track array l =>
    l <- lift (aset l (Z.of_nat counter) (Some pMemBlkCurrent)) ;; put_hdr p (with_track (Track array l) h)
  end ;;
  add_avail 1 p.

(** The loop that allocates the entries; false when it has cleaned up. *)
Fixpoint create_loop (n counter : nat) (p slot blkSize blkAlignment node : Z) : M state bool :=
  match n with
  | O => ret true
  | S n =>
    let realSize := Lac_MemPoolGetElementRealSize blkSize blkAlignment in
    let addSize := u32 (realSize - blkSize) in
    pMemBlk <- LAC_OS_CAMALLOC realSize blkAlignment node ;;
    if pMemBlk =? 0 then
      Lac_MemPoolCleanUpInternal p ;; modify (λ s, set_pools (delete slot (lac_mem_pools s)) s) ;; ret false
    else
    add_block counter p addSize pMemBlk ;;
    create_loop n (S counter) p slot blkSize blkAlignment node
  end.

(** A header that has just been allocated. *)
Definition new_hdr (name : string) (t : track) : hdr :=
  Hdr (Pointer 0 0) (String.substring 0 (LAC_MEM_POOLS_NAME_SIZE - 1) name) None None None t 0.

(** The creation from the allocation of the entries on. *)
Definition fill_pool (p slot : Z) (name : string) (t : track) (num blkSize blkAlignment node : Z) : M state (Z * Z) :=
  put_hdr p (new_hdr name t) ;;
  ok <- create_loop (Z.to_nat num) 0 p slot blkSize blkAlignment node ;;
  if negb ok then ret (CPA_STATUS_RESOURCE, 0) else
  h <- hdr_at p ;; put_hdr p (with_details num blkSize blkAlignment h) ;;
  ret (CPA_STATUS_SUCCESS, p).

(** The status and [*pPoolID], 0 when it is not set. *)
Definition Lac_MemPoolCreate (id_is_null : bool) (name : option string) (num blkSize blkAlignment : Z)
    (trackMemory : bool) (node : Z) : M state (Z * Z) :=
  if id_is_null then ret (CPA_STATUS_INVALID_PARAM, 0) else
  m <- gets lac_mem_pools ;;
  slot <- lift (find_slot (Z.to_nat LAC_MEM_POOLS_NUM_SUPPORTED) m 0) ;;
  match slot with
  | None => ret (CPA_STATUS_FAIL, 0)
  | Some slot =>
    p <- LAC_OS_MALLOC ;;
    if p =? 0 then ret (CPA_STATUS_RESOURCE, 0) else
    modify (set_pools (<[slot := p]> m)) ;;
    match name with
    | None => LAC_OS_FREE p ;; modify (set_pools m) ;; ret (CPA_STATUS_INVALID_PARAM, 0)
    | Some name =>
      array <- (if trackMemory then LAC_OS_MALLOC else ret 0) ;;
      if trackMemory && (array =? 0) then
        LAC_OS_FREE p ;; modify (set_pools m) ;; ret (CPA_STATUS_RESOURCE, 0)
      else
      fill_pool p slot name
        (if trackMemory then Track array (replicate (Z.to_nat (u32 (8 * num) / 8)) None) else NoTrack)
        num blkSize blkAlignment node
    end
  end.

(** Where the pool is in the table. *)
Fixpoint find_pool (fuel : nat) (m : gmap Z Z) (p poolSearch : Z) : option (option Z) :=
  if decide (m !! poolSearch = Some p) then Some (Some poolSearch) else
  match fuel with
  | O => None
  | S fuel =>
    if poolSearch + 1 =? LAC_MEM_POOLS_NUM_SUPPORTED then Some None else find_pool fuel m p (poolSearch + 1)
  end.

Definition Lac_MemPoolDestroy (p : Z) : M state () :=
  if p =? 0 then ret () else
  m <- gets lac_mem_pools ;;
  slot <- lift (find_pool (Z.to_nat LAC_MEM_POOLS_NUM_SUPPORTED) m p 0) ;;
  match slot with
  | None => ret ()
  | Some slot => modify (set_pools (delete slot m)) ;; Lac_MemPoolCleanUpInternal p
  end.

(** The loop of [Lac_MemPoolInitSymCookiesPhyAddr] and its like, for what [f] does
    to an entry. *)
Fixpoint init_stacked (fuel : nat) (f : Z → M state ()) (b : Z) : M state () :=
  if b =? 0 then ret () else
  match fuel with
  | O => fault
  | S fuel => k <- blk_at b ;; f (b + sizeof_lac_mem_blk) ;; init_stacked fuel f (pNext k)
  end.
Fixpoint init_tracked (n count : nat) (f : Z → M state ()) (l : list (option Z)) : M state () :=
  match n with
  | O => ret ()
  | S n => b <- tracked_at l count ;; f (b + sizeof_lac_mem_blk) ;; init_tracked n (S count) f l
  end.
Definition Lac_MemPoolInitCookies (f : Z → M state ()) (p : Z) : M state Z :=
  if p =? 0 then ret CPA_STATUS_FAIL else
  h <- hdr_at p ;;
  match trackBlks h with
  | NoTrack => m <- gets mblks ;; init_stacked (S (size m)) f (PTR false (ptr (stack h)))
  | Track _ l => n <- lift (numElementsInPool h) ;; init_tracked (Z.to_nat n) 0 f l
  end ;;
  ret CPA_STATUS_SUCCESS.

End pools.

(** ** Laws *)

Section laws.
Context `{ContigMemLaws, MallocLaws}.
(** The size and alignment of the entries of the pool. *)
Variables sz al : Z.

Definition addSize : Z := if sizeof_lac_mem_blk <=? al then al else 64.
Definition real : Z := sz + addSize.
(** The header of the entry in region [a]. *)
Definition hd (a : Z) : Z := a + addSize - sizeof_lac_mem_blk.

Lemma addSize_ge : sizeof_lac_mem_blk <= addSize.
Proof. unfold addSize, sizeof_lac_mem_blk. destruct (Z.leb_spec 40 al); lia. Qed.

Lemma real_size : 0 <= sz → 0 <= al → sz + addSize < 2 ^ 32 →
  Lac_MemPoolGetElementRealSize sz al = real ∧ u32 (real - sz) = addSize.
Proof.
  intros Hs Ha Hr. pose proof addSize_ge as Hg. unfold sizeof_lac_mem_blk in Hg. unfold real. split.
  - unfold Lac_MemPoolGetElementRealSize, addSize in *.
    change (Z.shiftl 1 (highest_bit_of_lac_mem_blk_t + 1)) with 64. apply wrap_small.
    destruct (sizeof_lac_mem_blk <=? al); lia.
  - replace (sz + addSize - sz) with addSize by lia. apply wrap_small. lia.
Qed.

(** The regions of the entries [l]. *)
Definition regs (l : list Z) : regions := list_to_map ((λ a, (a, (real, al))) <$> l).

Lemma regs_cons a l : regs (a :: l) = <[a := (real, al)]> (regs l).
Proof. done. Qed.
Lemma regs_lookup l a r : regs l !! a = Some r → r = (real, al) ∧ a ∈ l.
Proof.
  induction l as [|b l IH]; [done|]. rewrite regs_cons, lookup_insert_Some. intros [[-> <-]|[_ Hl]].
  - split; [done|by left].
  - destruct (IH Hl). split; [done|by right].
Qed.
Lemma regs_elem l a : a ∈ l → regs l !! a = Some (real, al).
Proof.
  induction l as [|b l IH]; intros Ha; [by apply not_elem_of_nil in Ha|]. rewrite regs_cons.
  destruct (decide (a = b)) as [->|Hne]; [apply lookup_insert_eq|]. rewrite lookup_insert_ne by done.
  apply IH. by apply elem_of_cons in Ha as [|].
Qed.
Lemma regs_perm l l' : l ≡ₚ l' → regs l = regs l'.
Proof.
  intros Hp. apply map_eq. intros a. destruct (regs l' !! a) as [r|] eqn:E.
  - apply regs_lookup in E as [-> Ha]. apply regs_elem. by rewrite Hp.
  - apply eq_None_not_Some. intros [r Hr]. apply regs_lookup in Hr as [_ Ha]. rewrite Hp in Ha.
    by rewrite (regs_elem _ _ Ha) in E.
Qed.
Lemma regs_delete a l L0 : a ∉ l → L0 !! a = None → delete a (regs (a :: l) ∪ L0) = regs l ∪ L0.
Proof.
  intros Ha HL. rewrite regs_cons, <- insert_union_l, delete_insert_id; [done|].
  apply lookup_union_None. split; [|done]. apply eq_None_not_Some. intros [r Hr].
  by apply regs_lookup in Hr as [_ ?].
Qed.

(** Every header is inside its region. *)
Definition blks_ok (m : gmap Z lac_mem_blk) (L : regions) : Prop :=
  ∀ b k, m !! b = Some k → ∃ n a, L !! pMemAllocPtr k = Some (n, a) ∧
    pMemAllocPtr k <= b ∧ b + sizeof_lac_mem_blk <= pMemAllocPtr k + n.

(** The header of region [a] in pool [p]. *)
Record blk_of (m : gmap Z lac_mem_blk) (p a : Z) (u : bool) (k : lac_mem_blk) : Prop := {
  bo_at : m !! hd a = Some k;
  bo_alloc : pMemAllocPtr k = a;
  bo_pool : pPoolID k = p;
  bo_use : isInUse k = u;
  bo_phys : physDataPtr k mod al = 0;
}.

Definition tracks (t : track) (l : list Z) : Prop :=
  match t with NoTrack => True | Track array xs => xs = Some <$> (hd <$> l) end.

(** Pool [p] with the entries of the regions [fr] free, in the order of the
    stack, and those of [out] in use, over the regions [L0]. *)
Record pool_at (s : state) (p : Z) (h : hdr) (fr out : list Z) (L0 : regions) : Prop := {
  pa_hdr : hdrs s !! p = Some h;
  pa_heap : p ∈ heap s ∧ p ≠ 0;
  pa_stack : is_stack (mblks s) (PTR false (ptr (stack h))) (hd <$> fr);
  pa_free a : a ∈ fr → ∃ k, blk_of (mblks s) p a false k;
  pa_out a : a ∈ out → ∃ k, blk_of (mblks s) p a true k;
  pa_avail : avail h = u64 (Z.of_nat (length fr));
  pa_nodup : NoDup (fr ++ out);
  pa_new a : a ∈ fr ++ out → L0 !! a = None;
  pa_os : cm_inv (os s) (regs (fr ++ out) ∪ L0);
}.

Lemma pa_range s p h fr out L0 a : sizeof_lac_mem_blk <= addSize → 0 <= sz → pool_at s p h fr out L0 → a ∈ fr ++ out →
  0 < hd a ∧ hd a < 2 ^ 48 ∧ PTR false (u48 (hd a)) = hd a.
Proof.
  intros Hg Hs P Ha. assert ((regs (fr ++ out) ∪ L0) !! a = Some (real, al)) as Hl.
  { apply lookup_union_Some_l. by apply regs_elem. }
  destruct (cm_range_law _ _ _ _ _ (pa_os _ _ _ _ _ _ P) Hl) as [? Hr]. unfold real in Hr.
  assert (0 < hd a ∧ hd a < 2 ^ 48) as [? ?] by (unfold hd, sizeof_lac_mem_blk in *; lia).
  split_and!; try done. unfold PTR. apply wrap_small. lia.
Qed.

(** ** The stack *)

Lemma pop_cons s p h x xs :
  hdrs s !! p = Some h → is_stack (mblks s) (PTR false (ptr (stack h))) (x :: xs) →
  (∀ y, y ∈ xs → PTR false (u48 y) = y) →
  ∃ h', pop p s = Some (x, set_hdrs (<[p := h']> (hdrs s)) s) ∧
    is_stack (mblks s) (PTR false (ptr (stack h'))) xs ∧ h' = with_stack (stack h') h.
Proof.
  intros Hh (Hp & Hx & k & Hk & Hs) Hr. exists (with_stack (next_top (stack h) (pNext k)) h).
  unfold pop, hdr_at. autorewrite with monad. rewrite Hh. autorewrite with monad. rewrite Hp.
  apply Z.eqb_neq in Hx as ->. unfold blk_at. autorewrite with monad. rewrite Hk. autorewrite with monad.
  unfold put_hdr. autorewrite with monad. split; [done|]. split; [|done].
  cbn [with_stack stack next_top ptr]. destruct xs as [|y ys].
  - cbn in Hs. by rewrite Hs.
  - pose proof Hs as (Hy & _). rewrite Hy in Hs |- *. by rewrite (Hr y) by by left.
Qed.

Lemma pop_nil s p h :
  hdrs s !! p = Some h → PTR false (ptr (stack h)) = 0 → pop p s = Some (0, s).
Proof.
  intros Hh Hp. unfold pop, hdr_at. autorewrite with monad. rewrite Hh. autorewrite with monad. by rewrite Hp.
Qed.

Lemma push_spec s p h b k xs :
  hdrs s !! p = Some h → mblks s !! b = Some k → b ≠ 0 → b ∉ xs → PTR false (u48 b) = b →
  is_stack (mblks s) (PTR false (ptr (stack h))) xs →
  ∃ h' k', push p b s = Some ((), set_hdrs (<[p := h']> (hdrs s)) (set_mblks (<[b := k']> (mblks s)) s)) ∧
    is_stack (<[b := k']> (mblks s)) (PTR false (ptr (stack h'))) (b :: xs) ∧
    h' = with_stack (stack h') h ∧ k' = set_pNext (pNext k') k.
Proof.
  intros Hh Hk Hb0 Hb Hc Hs. exists (with_stack (next_top (stack h) b) h), (set_pNext (PTR false (ptr (stack h))) k).
  unfold push, hdr_at, blk_at, put_blk, put_hdr. autorewrite with monad. rewrite Hh. autorewrite with monad.
  rewrite Hk. autorewrite with monad. split; [done|]. split; [|done].
  cbn [with_stack stack next_top ptr is_stack]. rewrite Hc. split; [done|]. split; [done|].
  eexists. rewrite lookup_insert_eq. split; [done|]. cbn [set_pNext pNext].
  eapply is_stack_same, Hs. intros x Hx. rewrite lookup_insert_ne; [done|]. by intros ->.
Qed.

(** ** Cleaning up *)

Lemma cafree_spec s L0 a l :
  cm_inv (os s) (regs (a :: l) ∪ L0) → a ∉ l → L0 !! a = None →
  ∃ o, LAC_OS_CAFREE a s = Some ((), set_mblks (filter (λ x, pMemAllocPtr x.2 ≠ a) (mblks s)) (set_os o s)) ∧
    cm_inv o (regs l ∪ L0).
Proof.
  intros HI Ha HL. assert ((regs (a :: l) ∪ L0) !! a = Some (real, al)) as Hl.
  { apply lookup_union_Some_l, regs_elem. by left. }
  destruct (cm_free_law _ _ _ _ HI Hl) as (o & Hf & HI'). rewrite regs_delete in HI' by done.
  exists o. split; [|done]. unfold LAC_OS_CAFREE, on_os, bind. rewrite Hf. done.
Qed.

Lemma filter_cons_ptr (m : gmap Z lac_mem_blk) a l :
  filter (λ x, pMemAllocPtr x.2 ∉ l) (filter (λ x, pMemAllocPtr x.2 ≠ a) m) =
  filter (λ x, pMemAllocPtr x.2 ∉ a :: l) m.
Proof.
  apply map_eq. intros b. apply option_eq. intros k. rewrite !map_lookup_filter_Some. cbn [snd].
  rewrite not_elem_of_cons. naive_solver.
Qed.

Lemma filter_ptr_lookup (m : gmap Z lac_mem_blk) a b k :
  m !! b = Some k → pMemAllocPtr k ≠ a → filter (λ x, pMemAllocPtr x.2 ≠ a) m !! b = Some k.
Proof. intros Hk Ha. by apply map_lookup_filter_Some. Qed.

Lemma free_stacked_spec p L0 fr : ∀ fuel s h a,
  hdrs s !! p = Some h → is_stack (mblks s) (PTR false (ptr (stack h))) (hd <$> fr) →
  (∀ x, x ∈ a :: fr → ∃ k, mblks s !! hd x = Some k ∧ pMemAllocPtr k = x) →
  (∀ x, x ∈ a :: fr → hd x ≠ 0 ∧ PTR false (u48 (hd x)) = hd x) →
  NoDup (a :: fr) → (∀ x, x ∈ a :: fr → L0 !! x = None) →
  cm_inv (os s) (regs (a :: fr) ∪ L0) → (length fr < fuel)%nat →
  ∃ o h', free_stacked fuel p (hd a) s =
      Some ((), set_hdrs (<[p := h']> (hdrs s)) (set_mblks (filter (λ x, pMemAllocPtr x.2 ∉ a :: fr) (mblks s)) (set_os o s))) ∧
    cm_inv o L0.
Proof.
  induction fr as [|y fr IH]; intros fuel s h a Hh Hs Hk Hc Hnd HL HI Hf;
    (destruct fuel as [|fuel]; cbn [length] in Hf; [lia|]);
    destruct (Hk a) as (k & Hka & Hpa); [by left| |by left|];
    destruct (Hc a) as [Ha0 _]; [by left| |by left|];
    apply NoDup_cons in Hnd as [Hna Hnd];
    cbn [free_stacked]; apply Z.eqb_neq in Ha0 as ->;
    unfold blk_at; autorewrite with monad; rewrite Hka; autorewrite with monad; rewrite Hpa.
  - cbn [fmap list_fmap is_stack] in Hs. rewrite (bind_Some _ _ _ _ _ (pop_nil _ _ _ Hh Hs)).
    destruct (cafree_spec s L0 a [] HI Hna (HL a ltac:(by left))) as (o & Hfr & HI').
    rewrite (bind_Some _ _ _ _ _ Hfr). exists o, h. destruct fuel as [|fuel]; cbn [free_stacked].
    all: rewrite Z.eqb_refl; split; [|by change (regs []) with (∅ : regions) in HI'; rewrite (left_id_L ∅ (∪)) in HI'].
    all: unfold ret; do 2 f_equal; unfold set_hdrs, set_mblks, set_os; cbn; rewrite insert_id by done; f_equal.
    all: apply map_eq; intros b; apply option_eq; intros k'; rewrite !map_lookup_filter_Some; cbn [snd].
    all: rewrite list_elem_of_singleton; done.
  - destruct (pop_cons s p h (hd y) (fmap (M:=list) hd fr) Hh Hs) as (h1 & Hp & Hs1 & Hh1).
    { intros z (x & -> & Hx)%list_elem_of_fmap. apply Hc. by right; right. }
    rewrite (bind_Some _ _ _ _ _ Hp). set (s1 := set_hdrs _ s).
    destruct (cafree_spec s1 L0 a (y :: fr) HI Hna (HL a ltac:(by left))) as (o & Hfr & HI').
    rewrite (bind_Some _ _ _ _ _ Hfr). set (s2 := set_mblks _ (set_os o s1)).
    assert (∀ x, x ∈ y :: fr → ∃ k', mblks s2 !! hd x = Some k' ∧ pMemAllocPtr k' = x) as Hk2.
    { intros x Hx. destruct (Hk x) as (k' & Hk' & Hp'); [by right|]. exists k'. split; [|done].
      apply filter_ptr_lookup; [done|]. rewrite Hp'. by intros ->. }
    destruct (IH fuel s2 h1 y) as (o' & h' & Hrun & HI''); try done.
    + apply lookup_insert_eq.
    + eapply is_stack_same, Hs1. intros z (x & -> & Hx)%list_elem_of_fmap.
      destruct (Hk x) as (k' & Hk' & Hp'); [by right; right|]. rewrite Hk'.
      apply filter_ptr_lookup; [done|]. rewrite Hp'. intros ->. apply Hna. by right.
    + intros x Hx. apply Hc. by right.
    + intros x Hx. apply HL. by right.
    + lia.
    + exists o', h'. split; [|done]. rewrite Hrun. unfold s2, s1. cbn. do 2 f_equal.
      unfold set_hdrs, set_mblks, set_os. cbn. by rewrite insert_insert_eq, filter_cons_ptr.
Qed.

Lemma free_tracked_spec L0 l rest : ∀ pre s,
  l = Some <$> (hd <$> pre ++ rest) →
  (∀ x, x ∈ rest → ∃ k, mblks s !! hd x = Some k ∧ pMemAllocPtr k = x) →
  NoDup rest → (∀ x, x ∈ rest → L0 !! x = None) → cm_inv (os s) (regs rest ∪ L0) →
  ∃ o, free_tracked (length rest) (length pre) l s =
      Some ((), set_mblks (filter (λ x, pMemAllocPtr x.2 ∉ rest) (mblks s)) (set_os o s)) ∧ cm_inv o L0.
Proof.
  induction rest as [|a rest IH]; intros pre s Hl Hk Hnd HL HI; cbn [length free_tracked].
  - exists (os s). change (regs []) with (∅ : regions) in HI. rewrite (left_id_L ∅ (∪)) in HI. split; [|done].
    unfold ret. do 2 f_equal. destruct s. unfold set_mblks, set_os. cbn. f_equal.
    symmetry. apply map_filter_id. intros b k _. apply not_elem_of_nil.
  - apply NoDup_cons in Hnd as [Hna Hnd]. destruct (Hk a) as (k & Hka & Hpa); [by left|].
    assert (l !! length pre = Some (Some (hd a))) as Hi.
    { rewrite Hl, !list_lookup_fmap, lookup_app_r, Nat.sub_diag by done. done. }
    unfold tracked_at. autorewrite with monad. rewrite Hi. autorewrite with monad.
    unfold blk_at. autorewrite with monad. rewrite Hka. autorewrite with monad. rewrite Hpa.
    destruct (cafree_spec s L0 a rest HI Hna (HL a ltac:(by left))) as (o & Hfr & HI').
    rewrite (bind_Some _ _ _ _ _ Hfr). set (s2 := set_mblks _ (set_os o s)).
    destruct (IH (pre ++ [a]) s2) as (o' & Hrun & HI''); try done.
    + by rewrite <- app_assoc.
    + intros x Hx. destruct (Hk x) as (k' & Hk' & Hp'); [by right|]. exists k'. split; [|done].
      apply filter_ptr_lookup; [done|]. rewrite Hp'. by intros ->.
    + intros x Hx. apply HL. by right.
    + rewrite length_app in Hrun. cbn [length] in Hrun. rewrite Nat.add_1_r in Hrun. exists o'. split; [|done].
      rewrite Hrun. unfold s2. cbn. do 2 f_equal. unfold set_mblks, set_os. cbn. by rewrite filter_cons_ptr.
Qed.

(** What cleaning up needs to know of the track array. *)
Definition track_ok (s : state) (p : Z) (h : hdr) (fr out : list Z) : Prop :=
  match trackBlks h with
  | NoTrack => out = []
  | Track array l => ∃ all, all ≡ₚ fr ++ out ∧ l = Some <$> (hd <$> all) ∧
      numElementsInPool h = Some (Z.of_nat (length all)) ∧ array ∈ heap s ∧ array ≠ p ∧ hdrs s !! array = None
  end.
Definition arrays (h : hdr) : gset Z := match trackBlks h with NoTrack => ∅ | Track array _ => {[array]} end.

Lemma pool_blocks s p h fr out L0 x : pool_at s p h fr out L0 → x ∈ fr ++ out →
  ∃ k u, blk_of (mblks s) p x u k.
Proof.
  intros P [Hx|Hx]%elem_of_app; [destruct (pa_free _ _ _ _ _ _ P x Hx) as [k ?]|destruct (pa_out _ _ _ _ _ _ P x Hx) as [k ?]];
    eauto.
Qed.

Lemma free_spec s p : p ∈ heap s →
  LAC_OS_FREE p s = Some ((), set_hdrs (delete p (hdrs s)) (set_heap (heap s ∖ {[p]}) s)).
Proof. intros Hp. unfold LAC_OS_FREE. autorewrite with monad. rewrite decide_True by done. autorewrite with monad. done. Qed.

Lemma filter_perm (m : gmap Z lac_mem_blk) l l' : l ≡ₚ l' →
  filter (λ x, pMemAllocPtr x.2 ∉ l) m = filter (λ x, pMemAllocPtr x.2 ∉ l') m.
Proof.
  intros Hl. apply map_eq. intros b. apply option_eq. intros k. rewrite !map_lookup_filter_Some. cbn [snd].
  by rewrite Hl.
Qed.

Lemma stack_size s p h fr out L0 : pool_at s p h fr out L0 → (length fr <= base.size (mblks s))%nat.
Proof.
  intros P. assert (NoDup (hd <$> fr)) as Hn.
  { apply NoDup_fmap_2; [intros x y; unfold hd; lia|]. by apply (NoDup_app fr out), (pa_nodup _ _ _ _ _ _ P). }
  rewrite <- (length_fmap hd fr), <- size_dom.
  rewrite <- (size_list_to_set (C := gset Z) (hd <$> fr)) by done. apply subseteq_size.
  intros b (x & -> & Hx)%elem_of_list_to_set%list_elem_of_fmap.
  destruct (pa_free _ _ _ _ _ _ P x Hx) as (k & Hk). eapply elem_of_dom_2, (bo_at _ _ _ _ _ Hk).
Qed.

(** Cleaning up gives every region back and leaves nothing of the pool. *)
Lemma cleanup_spec s p h fr out L0 : 0 <= sz → pool_at s p h fr out L0 → track_ok s p h fr out →
  ∃ o, Lac_MemPoolCleanUpInternal p s = Some ((), State o (lac_mem_pools s) (delete p (hdrs s))
      (filter (λ x, pMemAllocPtr x.2 ∉ fr ++ out) (mblks s)) (heap s ∖ arrays h ∖ {[p]}) (clock s)) ∧ cm_inv o L0.
Proof.
  intros Hsz P T. pose proof (pa_hdr _ _ _ _ _ _ P) as Hh. destruct (pa_heap _ _ _ _ _ _ P) as [Hp _].
  pose proof (pa_nodup _ _ _ _ _ _ P) as Hnd.
  unfold Lac_MemPoolCleanUpInternal, hdr_at. autorewrite with monad. rewrite Hh. autorewrite with monad.
  unfold track_ok, arrays in *. destruct (trackBlks h) as [|array l].
  - subst out. rewrite app_nil_r in *. autorewrite with monad. destruct fr as [|a fr].
    + rewrite (bind_Some _ _ _ _ _ (pop_nil _ _ _ Hh (pa_stack _ _ _ _ _ _ P))). autorewrite with monad.
      cbn [free_stacked]. rewrite Z.eqb_refl. autorewrite with monad. rewrite free_spec by done.
      exists (os s). pose proof (pa_os _ _ _ _ _ _ P) as HI. change (regs ([] ++ [])) with (∅ : regions) in HI.
      rewrite (left_id_L ∅ (∪)) in HI. split; [|done]. destruct s. unfold set_hdrs, set_heap. cbn.
      rewrite difference_empty_L. do 3 f_equal.
      symmetry. apply map_filter_id. intros b k _. apply not_elem_of_nil.
    + assert (∀ x, x ∈ a :: fr → hd x ≠ 0 ∧ PTR false (u48 (hd x)) = hd x) as Hr.
      { intros x Hx. destruct (pa_range _ _ _ _ _ _ x addSize_ge Hsz P) as (? & ? & ?); [by rewrite app_nil_r|].
        split; [lia|done]. }
      destruct (pop_cons s p h (hd a) (fmap (M:=list) hd fr) Hh (pa_stack _ _ _ _ _ _ P)) as (h1 & Hpop & Hs1 & Hh1).
      { intros z (x & -> & Hx)%list_elem_of_fmap. apply Hr. by right. }
      rewrite (bind_Some _ _ _ _ _ Hpop). autorewrite with monad.
      pose proof (pa_os _ _ _ _ _ _ P) as HI. rewrite app_nil_r in HI.
      destruct (free_stacked_spec p L0 fr (S (base.size (mblks s))) (set_hdrs (<[p := h1]> (hdrs s)) s) h1 a)
        as (o & h' & Hrun & HI'); try done.
      * apply lookup_insert_eq.
      * intros x Hx. destruct (pa_free _ _ _ _ _ _ P x Hx) as (k & [? ? _ _ _]). by exists k.
      * intros x Hx. apply (pa_new _ _ _ _ _ _ P). by rewrite app_nil_r.
      * pose proof (stack_size _ _ _ _ _ _ P) as Hl. cbn [length] in Hl. lia.
      * rewrite (bind_Some _ _ _ _ _ Hrun). rewrite free_spec by done. exists o. split; [|done].
        unfold set_hdrs, set_heap, set_mblks, set_os. cbn. by rewrite difference_empty_L, !delete_insert_eq.
  - destruct T as (all & Hall & Hl & Hn & Har & Hne & Hnh). rewrite Hn. autorewrite with monad.
    rewrite Nat2Z.id. destruct (free_tracked_spec L0 l all [] s) as (o & Hrun & HI'); try done.
    + intros x Hx. rewrite Hall in Hx. destruct (pool_blocks _ _ _ _ _ _ x P Hx) as (k & u & [? ? _ _ _]). by exists k.
    + by rewrite Hall.
    + intros x Hx. rewrite Hall in Hx. by apply (pa_new _ _ _ _ _ _ P).
    + rewrite (regs_perm _ _ Hall). apply (pa_os _ _ _ _ _ _ P).
    + rewrite (bind_Some _ _ _ _ _ Hrun), (bind_Some _ _ _ _ _ (free_spec (set_mblks _ (set_os o s)) array Har)).
      rewrite free_spec by (cbn; set_solver). exists o. split; [|done].
      unfold set_hdrs, set_heap, set_mblks, set_os. cbn. rewrite (filter_perm _ _ _ Hall).
      by rewrite (delete_id (hdrs s) array).
Qed.

(** ** Entries *)

Lemma hd_inj a b : hd a = hd b → a = b.
Proof. unfold hd. lia. Qed.

(** What a call on an entry leaves alone. *)
Record frame (s s' : state) (p : Z) (h h' : hdr) (a : Z) : Prop := {
  fr_pools : lac_mem_pools s' = lac_mem_pools s;
  fr_heap : heap s' = heap s;
  fr_os : os s' = os s;
  fr_clock : clock s' = clock s;
  fr_hdrs : hdrs s' = <[p := h']> (hdrs s);
  fr_num : numElementsInPool h' = numElementsInPool h;
  fr_track : trackBlks h' = trackBlks h;
  fr_blk : ∃ k k', mblks s !! hd a = Some k ∧ pMemAllocPtr k = a ∧ pMemAllocPtr k' = a ∧ mblks s' = <[hd a := k']> (mblks s);
}.

(** A step of entry [a] between the free and the used ones. *)
Lemma pool_upd s s' p h h' a k u fr out fr' out' L0 :
  pool_at s p h fr out L0 → fr' ++ out' ≡ₚ fr ++ out →
  hdrs s' !! p = Some h' → heap s' = heap s → os s' = os s → mblks s' = <[hd a := k]> (mblks s) →
  is_stack (mblks s') (PTR false (ptr (stack h'))) (hd <$> fr') →
  blk_of (mblks s') p a u k → (a ∈ fr' → u = false) → (a ∈ out' → u = true) →
  (∀ x, x ≠ a → x ∈ fr' → x ∈ fr) → (∀ x, x ≠ a → x ∈ out' → x ∈ out) →
  avail h' = u64 (Z.of_nat (length fr')) → pool_at s' p h' fr' out' L0.
Proof.
  intros P Hperm Hh Hhp Ho Hm Hst Hb Hf Hu Hfr Hout Hav.
  assert (∀ x v k', x ≠ a → blk_of (mblks s) p x v k' → blk_of (mblks s') p x v k') as Hne.
  { intros x v k' Hx [? ? ? ? ?]. split; [|done..]. rewrite Hm, lookup_insert_ne; [done|].
    intros He%hd_inj. by subst. }
  split; rewrite ?Hhp, ?Ho; try done.
  - apply (pa_heap _ _ _ _ _ _ P).
  - intros x Hx. destruct (decide (x = a)) as [->|Hxa]; [exists k; by rewrite <- Hf|].
    destruct (pa_free _ _ _ _ _ _ P x (Hfr x Hxa Hx)) as (k' & Hk'). exists k'. by apply Hne.
  - intros x Hx. destruct (decide (x = a)) as [->|Hxa]; [exists k; by rewrite <- Hu|].
    destruct (pa_out _ _ _ _ _ _ P x (Hout x Hxa Hx)) as (k' & Hk'). exists k'. by apply Hne.
  - rewrite Hperm. apply (pa_nodup _ _ _ _ _ _ P).
  - intros x Hx. rewrite Hperm in Hx. by apply (pa_new _ _ _ _ _ _ P).
  - rewrite (regs_perm _ _ Hperm). apply (pa_os _ _ _ _ _ _ P).
Qed.

Lemma entry_alloc_spec s p h a fr out L0 :
  0 <= sz → pool_at s p h (a :: fr) out L0 →
  ∃ s' h', Lac_MemPoolEntryAlloc p s = Some (hd a + sizeof_lac_mem_blk, s') ∧
    pool_at s' p h' fr (a :: out) L0 ∧ frame s s' p h h' a.
Proof.
  intros Hsz P. pose proof (pa_hdr _ _ _ _ _ _ P) as Hh. destruct (pa_free _ _ _ _ _ _ P a) as (k & Hk); [by left|].
  destruct (pa_range _ _ _ _ _ _ a addSize_ge Hsz P) as (Hpos & _ & _); [by left|].
  destruct (pop_cons s p h (hd a) (fmap (M:=list) hd fr) Hh (pa_stack _ _ _ _ _ _ P)) as (h1 & Hpop & Hs1 & Hh1).
  { intros y (x & -> & Hx)%list_elem_of_fmap. apply (pa_range _ _ _ _ _ _ x addSize_ge Hsz P). right. set_solver. }
  unfold Lac_MemPoolEntryAlloc. rewrite (bind_Some _ _ _ _ _ Hpop).
  rewrite (proj2 (Z.eqb_neq (hd a) 0)) by lia.
  unfold add_avail, hdr_at, put_hdr, blk_at, put_blk. autorewrite with monad. cbn [set_hdrs hdrs].
  rewrite lookup_insert_eq. autorewrite with monad. cbn [set_hdrs mblks hdrs].
  rewrite (bo_at _ _ _ _ _ Hk). autorewrite with monad. unfold ret.
  set (h2 := with_avail (u64 (avail h1 + -1)) h1). set (k2 := set_isInUse true k).
  eexists _, h2. split; [reflexivity|]. split.
  - eapply (pool_upd s _ p h h2 a k2 true); try done.
    + cbn [app]. by rewrite Permutation_middle.
    + cbn [set_hdrs set_mblks hdrs]. apply lookup_insert_eq.
    + cbn [set_hdrs set_mblks mblks]. eapply is_stack_frame, Hs1.
      intros y (x & -> & Hx)%list_elem_of_fmap. destruct (pa_free _ _ _ _ _ _ P x) as (k' & [Hk' _ _ _ _]); [by right|].
      exists k'. rewrite lookup_insert_ne; [eauto|]. intros <-%hd_inj.
      pose proof (pa_nodup _ _ _ _ _ _ P) as Hn. apply NoDup_cons in Hn as [Hn _]. apply Hn, elem_of_app. by left.
    + destruct Hk. split; try done. cbn [set_hdrs set_mblks mblks]. apply lookup_insert_eq.
    + intros Ha. pose proof (pa_nodup _ _ _ _ _ _ P) as Hn. apply NoDup_cons in Hn as [Hn _]. set_solver.
    + set_solver.
    + set_solver.
    + unfold h2. cbn [with_avail avail]. rewrite Hh1. cbn [with_stack avail]. rewrite (pa_avail _ _ _ _ _ _ P).
      rewrite (wrap_add 64 _ _ (-1) (wrap_wrap 64 _ ltac:(done))). f_equal. cbn [length]. lia.
  - split; cbn [set_hdrs set_mblks lac_mem_pools heap os hdrs mblks]; try done; try (unfold h2; by rewrite Hh1).
    + by rewrite insert_insert_eq.
    + destruct Hk. by exists k, k2.
Qed.

Lemma entry_alloc_empty s p h out L0 :
  pool_at s p h [] out L0 → Lac_MemPoolEntryAlloc p s = Some (LockFreeStack.CPA_STATUS_RETRY, s).
Proof.
  intros P. unfold Lac_MemPoolEntryAlloc.
  by rewrite (bind_Some _ _ _ _ _ (pop_nil _ _ _ (pa_hdr _ _ _ _ _ _ P) (pa_stack _ _ _ _ _ _ P))).
Qed.

Lemma entry_free_spec s p h a fr out L0 :
  0 <= sz → pool_at s p h fr (a :: out) L0 →
  ∃ s' h', Lac_MemPoolEntryFree (hd a + sizeof_lac_mem_blk) s = Some ((), s') ∧
    pool_at s' p h' (a :: fr) out L0 ∧ frame s s' p h h' a.
Proof.
  intros Hsz P. pose proof (pa_hdr _ _ _ _ _ _ P) as Hh. destruct (pa_out _ _ _ _ _ _ P a) as (k & Hk); [by left|].
  destruct (pa_range _ _ _ _ _ _ a addSize_ge Hsz P) as (Hpos & _ & Hcan); [set_solver|].
  assert (a ∉ fr) as Hafr.
  { pose proof (pa_nodup _ _ _ _ _ _ P) as Hn. apply NoDup_app in Hn as (_ & Hn & _). intros Ha. apply (Hn a Ha). by left. }
  unfold Lac_MemPoolEntryFree. replace (hd a + sizeof_lac_mem_blk - sizeof_lac_mem_blk) with (hd a) by lia.
  unfold blk_at, put_blk. autorewrite with monad. rewrite (bo_at _ _ _ _ _ Hk). autorewrite with monad.
  rewrite (bo_pool _ _ _ _ _ Hk). set (k1 := set_isInUse false k). set (s1 := set_mblks _ s).
  destruct (push_spec s1 p h (hd a) k1 (fmap (M:=list) hd fr)) as (h1 & k2 & Hpush & Hst & Hh1 & Hk2); try done.
  - apply lookup_insert_eq.
  - lia.
  - intros (x & He%hd_inj & Hx)%list_elem_of_fmap. by subst.
  - eapply is_stack_frame, (pa_stack _ _ _ _ _ _ P). intros y (x & -> & Hx)%list_elem_of_fmap.
    destruct (pa_free _ _ _ _ _ _ P x Hx) as (k' & [Hk' _ _ _ _]). exists k', k'. split; [done|]. split; [|done].
    cbn. rewrite lookup_insert_ne; [done|]. by intros <-%hd_inj.
  - rewrite (bind_Some _ _ _ _ _ Hpush). unfold add_avail, hdr_at, put_hdr. autorewrite with monad.
    unfold s1 in *. cbn [set_hdrs set_mblks hdrs mblks] in *. rewrite lookup_insert_eq. autorewrite with monad.
    set (h2 := with_avail (u64 (avail h1 + 1)) h1).
    eexists _, h2. split; [reflexivity|]. rewrite insert_insert_eq in Hst. split.
    + eapply (pool_upd s _ p h h2 a k2 false); try done.
      * cbn [app]. by rewrite Permutation_middle.
      * cbn [set_hdrs set_mblks hdrs]. apply lookup_insert_eq.
      * cbn [set_hdrs set_mblks mblks]. by rewrite insert_insert_eq.
      * cbn [set_hdrs set_mblks mblks]. by rewrite insert_insert_eq.
      * rewrite Hk2. destruct Hk. split; try done. cbn [set_hdrs set_mblks mblks]. rewrite insert_insert_eq, lookup_insert_eq.
        by rewrite Hk2.
      * pose proof (pa_nodup _ _ _ _ _ _ P) as Hn. apply NoDup_app in Hn as (_ & _ & Hn).
        apply NoDup_cons in Hn as [Hn _]. done.
      * set_solver.
      * set_solver.
      * unfold h2. cbn [with_avail avail]. rewrite Hh1. cbn [with_stack avail]. rewrite (pa_avail _ _ _ _ _ _ P).
        rewrite (wrap_add 64 _ _ 1 (wrap_wrap 64 _ ltac:(done))). f_equal. cbn [length]. lia.
    + split; cbn [set_hdrs set_mblks lac_mem_pools heap os hdrs mblks]; try done; try (unfold h2; by rewrite Hh1).
      * by rewrite insert_insert_eq.
      * rewrite insert_insert_eq. destruct Hk. exists k, k2. split_and!; try done. by rewrite Hk2.
Qed.

(** ** Creating a pool *)

Lemma blks_ok_fresh m L a n al' b k o :
  cm_inv o (<[a := (n, al')]> L) → blks_ok m L → L !! a = None → m !! b = Some k →
  pMemAllocPtr k ≠ a ∧ (b + sizeof_lac_mem_blk <= a ∨ a + n <= b).
Proof.
  intros HI HB Ha Hb. destruct (HB b k Hb) as (n' & a' & Hl & Hlo & Hhi).
  assert (pMemAllocPtr k ≠ a) as Hne by (intros He; by rewrite He, Ha in Hl). split; [done|].
  destruct (cm_disjoint_law o _ a n al' (pMemAllocPtr k) n' a' HI) as [Hd|Hd].
  - apply lookup_insert_eq.
  - by rewrite lookup_insert_ne.
  - done.
  - right. lia.
  - left. lia.
Qed.

(** How far the track array is filled: entries [fr], latest first, of [n] more. *)
Definition tracking (t : track) (fr : list Z) (n : nat) : Prop :=
  match t with
  | NoTrack => True
  | Track _ l => l = (Some <$> (hd <$> reverse fr)) ++ replicate n None
  end.

(** A pool that is being filled; [m0] are the headers of the other ones. *)
Record filling (s : state) (p : Z) (h : hdr) (fr : list Z) (L0 : regions) (m0 : gmap Z lac_mem_blk) (n : nat) : Prop := {
  fl_pool : pool_at s p h fr [] L0;
  fl_blks : blks_ok (mblks s) (regs fr ∪ L0);
  fl_rest : filter (λ x, pMemAllocPtr x.2 ∉ fr) (mblks s) = m0;
  fl_num : numElementsInPool h = None;
  fl_track : tracking (trackBlks h) fr n;
}.

(** The entry after [fr] goes to its place in the track array. *)
Lemma track_next fr r a : (1 <= r)%nat →
  aset ((Some <$> (hd <$> reverse fr)) ++ replicate r None) (Z.of_nat (length fr)) (Some (hd a)) =
  Some ((Some <$> (hd <$> reverse (a :: fr))) ++ replicate (pred r) None).
Proof.
  intros Hr. destruct r as [|r]; [lia|]. rewrite aset_in.
  2:{ rewrite length_app, !length_fmap, length_reverse, length_replicate. lia. }
  rewrite Nat2Z.id. f_equal. rewrite insert_app_r_alt by (rewrite !length_fmap, length_reverse; lia).
  rewrite !length_fmap, length_reverse, Nat.sub_diag. cbn [replicate insert list_insert Nat.pred].
  rewrite reverse_cons, !fmap_app, <- app_assoc. done.
Qed.

Lemma filter_insert_ptr (m : gmap Z lac_mem_blk) a fr k b :
  m !! b = None → pMemAllocPtr k = a → (∀ b' k', m !! b' = Some k' → pMemAllocPtr k' ≠ a) →
  filter (λ x, pMemAllocPtr x.2 ∉ a :: fr) (<[b := k]> m) = filter (λ x, pMemAllocPtr x.2 ∉ fr) m.
Proof.
  intros Hb Hk Hm. rewrite map_filter_insert_False by (cbn; rewrite Hk, not_elem_of_cons; naive_solver).
  rewrite delete_id by done. apply map_eq. intros b'. apply option_eq. intros k'.
  rewrite !map_lookup_filter_Some. cbn [snd]. rewrite not_elem_of_cons. naive_solver.
Qed.

(** The header after a track entry has been written. *)
Definition track_set (fr : list Z) (a : Z) (t : track) : track :=
  match t with
  | NoTrack => NoTrack
  | Track array l => Track array ((Some <$> (hd <$> reverse (a :: fr))) ++ replicate (pred (length l - length fr)) None)
  end.

Lemma tracking_set t fr a n : tracking t fr (S n) → tracking (track_set fr a t) (a :: fr) n ∧
  ∀ (p : Z) (h : hdr) s, hdrs s !! p = Some h → trackBlks h = t →
    match trackBlks h with
    | NoTrack => ret ()
    | Track array l =>
      l <- lift (aset l (Z.of_nat (length fr)) (Some (hd a))) ;; put_hdr p (with_track (Track array l) h)
    end s = Some ((), set_hdrs (<[p := with_track (track_set fr a t) h]> (hdrs s)) s).
Proof.
  intros Ht. destruct t as [|array l]; cbn [tracking track_set] in *.
  - split; [done|]. intros p h s Hh Hth. rewrite Hth. unfold ret. do 2 f_equal. destruct s, h. unfold set_hdrs, with_track. cbn in *.
    subst. by rewrite insert_id.
  - subst l. assert (length ((Some <$> (hd <$> reverse fr)) ++ replicate (S n) None) - length fr = S n)%nat as ->.
    { rewrite length_app, !length_fmap, length_reverse, length_replicate. lia. }
    split; [done|]. intros p h s Hh Hth. rewrite Hth, track_next by lia. by autorewrite with monad.
Qed.

(** The state after the loop has added an entry for region [a]. *)
Lemma filling_next s s' p h h' k fr L0 m0 n a o :
  0 <= sz → filling s p h fr L0 m0 (S n) →
  cm_inv o (<[a := (real, al)]> (regs fr ∪ L0)) → (regs fr ∪ L0) !! a = None →
  mblks s !! hd a = None → (∀ b' k', mblks s !! b' = Some k' → pMemAllocPtr k' ≠ a) →
  os s' = o → heap s' = heap s → hdrs s' = <[p := h']> (hdrs s) → mblks s' = <[hd a := k]> (mblks s) →
  blk_of (mblks s') p a false k →
  is_stack (mblks s') (PTR false (ptr (stack h'))) (hd <$> a :: fr) →
  avail h' = u64 (avail h + 1) → numElementsInPool h' = None → tracking (trackBlks h') (a :: fr) n →
  filling s' p h' (a :: fr) L0 m0 n.
Proof.
  intros Hsz [P HB Hrest Hnum Htr] HI Hfresh Hnone Hnew Ho Hhp Hh' Hm Hk Hst Hav Hnum' Htr'.
  apply lookup_union_None in Hfresh as [Hfr HL0]. assert (a ∉ fr) as Hafr.
  { intros Ha. by rewrite (regs_elem _ _ Ha) in Hfr. }
  split; [split| | | |]; rewrite ?Ho, ?Hhp, ?app_nil_r; try done.
  - by rewrite Hh', lookup_insert_eq.
  - apply (pa_heap _ _ _ _ _ _ P).
  - intros x [->|Hx]%elem_of_cons; [by exists k|]. destruct (pa_free _ _ _ _ _ _ P x Hx) as (k' & [? ? ? ? ?]).
    exists k'. split; try done. rewrite Hm, lookup_insert_ne; [done|]. by intros <-%hd_inj.
  - intros x Hx. by apply not_elem_of_nil in Hx.
  - rewrite Hav, (pa_avail _ _ _ _ _ _ P), (wrap_add 64 _ _ 1 (wrap_wrap 64 _ ltac:(done))). f_equal. cbn [length]. lia.
  - pose proof (pa_nodup _ _ _ _ _ _ P) as Hn. rewrite app_nil_r in Hn. by apply NoDup_cons.
  - intros x [->|Hx]%elem_of_cons; [done|]. apply (pa_new _ _ _ _ _ _ P). by rewrite app_nil_r.
  - rewrite regs_cons, <- insert_union_l. done.
  - rewrite Hm, regs_cons, <- insert_union_l. intros b k'. rewrite lookup_insert_Some. intros [[<- <-]|[_ Hb]].
    + rewrite (bo_alloc _ _ _ _ _ Hk). exists real, al. rewrite lookup_insert_eq. split; [done|].
      pose proof addSize_ge. unfold hd, real.
      lia.
    + destruct (HB b k' Hb) as (n' & a' & Hl & ? & ?). exists n', a'. split; [|done].
      rewrite lookup_insert_ne; [done|]. intros He. by apply (Hnew b k' Hb).
  - rewrite Hm. rewrite filter_insert_ptr; try done. apply (bo_alloc _ _ _ _ _ Hk).
Qed.

Lemma add_block_spec s p h fr L0 m0 n a phys o :
  0 < sz → addSize mod al = 0 → al ≠ 0 → filling s p h fr L0 m0 (S n) →
  cm_inv o (<[a := (real, al)]> (regs fr ∪ L0)) → (regs fr ∪ L0) !! a = None →
  phys mod al = 0 → (∀ i, 0 <= i < real → cm_phys (a + i) o = Some (phys + i, o)) →
  ∃ s' h', add_block (length fr) p addSize a (set_os o s) = Some ((), s') ∧ filling s' p h' (a :: fr) L0 m0 n ∧
    lac_mem_pools s' = lac_mem_pools s ∧ hdrs s' = <[p := h']> (hdrs s) ∧ heap s' = heap s ∧ clock s' = clock s ∧
    arrays h' = arrays h.
Proof.
  intros Hsz Hmod Hal0 HF HI Hfresh Hph Hphys. pose proof HF as [P HB Hrest Hnum Htr].
  pose proof (pa_hdr _ _ _ _ _ _ P) as Hh. pose proof addSize_ge as Hg.
  pose proof (cm_range_law _ _ a real al HI (lookup_insert_eq _ _ _)) as [Ha1 Ha2].
  assert (0 < hd a ∧ PTR false (u48 (hd a)) = hd a) as [Hpos Hcan].
  { unfold hd, real, sizeof_lac_mem_blk in *. split; [lia|]. unfold PTR. apply wrap_small. lia. }
  assert (∀ b k, mblks s !! b = Some k → pMemAllocPtr k ≠ a ∧ b ≠ hd a) as Hnew.
  { intros b k Hb. destruct (blks_ok_fresh _ _ _ _ _ _ _ _ HI HB Hfresh Hb) as [Hp Hor]. split; [done|].
    unfold hd, real, sizeof_lac_mem_blk in *. lia. }
  assert (mblks s !! hd a = None) as Hnone.
  { apply eq_None_not_Some. intros [k Hk]. by destruct (Hnew _ _ Hk). }
  assert (hd a ∉ hd <$> fr) as Hafr.
  { intros (x & He & Hx)%list_elem_of_fmap. destruct (pa_free _ _ _ _ _ _ P x Hx) as (k & [Hk _ _ _ _]).
    rewrite <- He, Hnone in Hk. done. }
  destruct (tracking_set _ fr a n Htr) as [Htr' Hset].
  unfold add_block, on_os. unfold bind at 1. cbn [set_os os].
  rewrite Hphys by (unfold real, sizeof_lac_mem_blk in *; lia). cbn [mbind option_bind].
  fold (hd a). unfold put_blk. autorewrite with monad. set (k := Blk 0 (phys + addSize) a false p). set (s1 := set_mblks _ _).
  destruct (push_spec s1 p h (hd a) k (fmap (M:=list) hd fr)) as (h1 & k2 & Hpush & Hst & Hh1 & Hk2); try done; [apply lookup_insert_eq|lia| |].
  { eapply is_stack_same, (pa_stack _ _ _ _ _ _ P). intros y Hy. cbn. rewrite lookup_insert_ne; [done|]. by intros <-. }
  rewrite (bind_Some _ _ _ _ _ Hpush). unfold s1 in *. cbn [set_mblks set_os mblks hdrs] in *.
  rewrite insert_insert_eq in Hst |- *. unfold hdr_at. autorewrite with monad. cbn [set_hdrs set_mblks set_os hdrs].
  rewrite lookup_insert_eq. autorewrite with monad.
  set (s2 := set_hdrs (<[p := h1]> (hdrs s)) _).
  rewrite (bind_Some _ _ _ _ _ (Hset p h1 s2 (lookup_insert_eq _ _ _) ltac:(by rewrite Hh1))).
  unfold add_avail, hdr_at, put_hdr. autorewrite with monad. cbn [set_hdrs hdrs]. rewrite lookup_insert_eq.
  autorewrite with monad. eexists _, _. split; [reflexivity|].
  unfold s2. cbn [set_hdrs set_mblks set_os lac_mem_pools hdrs heap clock mblks os]. rewrite !insert_insert_eq.
  split; [|split_and!; try done; rewrite Hh1; unfold arrays; cbn [with_avail with_track with_stack trackBlks]; by destruct (trackBlks h)].
  eapply (filling_next s _ p h _ k2); try done; cbn [set_hdrs set_mblks set_os mblks hdrs with_avail with_track avail numElementsInPool trackBlks].
  - lia.
  - intros b k' Hb. by destruct (Hnew b k' Hb).
  - rewrite Hk2. split; try done; [rewrite lookup_insert_eq; by rewrite Hk2|]. unfold k. cbn [set_pNext physDataPtr].
    by rewrite Zplus_mod, Hph, Hmod.
  - by rewrite Hh1.
  - by rewrite Hh1.
Qed.

Lemma filling_os s p h fr L0 m0 n o :
  filling s p h fr L0 m0 n → cm_inv o (regs fr ∪ L0) → filling (set_os o s) p h fr L0 m0 n.
Proof.
  intros [[? ? ? ? ? ? ? ? ?] ? ? ? ?] HI. split; try done. split; try done. by rewrite app_nil_r.
Qed.

Section loop.
Variables (p slot node : Z) (L0 : regions) (m0 : gmap Z lac_mem_blk).
Hypotheses (Hsz : 0 < sz) (Hal : 0 < al < 2 ^ 32) (Hmod : addSize mod al = 0) (Hreal : sz + addSize < 2 ^ 32).

Lemma create_loop_spec n : ∀ s h fr,
  filling s p h fr L0 m0 n →
  match create_loop n (length fr) p slot sz al node s with
  | Some (true, s') => ∃ h' fr', filling s' p h' fr' L0 m0 0 ∧ length fr' = (length fr + n)%nat ∧
      lac_mem_pools s' = lac_mem_pools s ∧ hdrs s' = <[p := h']> (hdrs s) ∧ heap s' = heap s ∧ clock s' = clock s ∧
      arrays h' = arrays h
  | Some (false, s') => arrays h = ∅ ∧ cm_inv (os s') L0 ∧ mblks s' = m0 ∧
      lac_mem_pools s' = delete slot (lac_mem_pools s) ∧ hdrs s' = delete p (hdrs s) ∧
      heap s' = heap s ∖ {[p]} ∧ clock s' = clock s
  | None => arrays h ≠ ∅
  end.
Proof.
  induction n as [|n IH]; intros s h fr HF; cbn [create_loop].
  { unfold ret. exists h, fr. pose proof (pa_hdr _ _ _ _ _ _ (fl_pool _ _ _ _ _ _ _ HF)). split_and!; try done.
    by rewrite insert_id. }
  destruct (real_size) as [-> ->]; [lia|lia|lia|].
  pose proof addSize_ge as Hg. unfold sizeof_lac_mem_blk in Hg.
  pose proof (pa_os _ _ _ _ _ _ (fl_pool _ _ _ _ _ _ _ HF)) as HI. rewrite app_nil_r in HI.
  destruct (cm_alloc_law _ _ real node al HI) as (a & o & Ha & Hor); [unfold real; lia|lia|].
  unfold LAC_OS_CAMALLOC, on_os. unfold bind at 1. rewrite Ha. cbn [mbind option_bind].
  destruct Hor as [[-> HI']|(Ha0 & Hfresh & HI')].
  - rewrite Z.eqb_refl. pose proof (filling_os _ _ _ _ _ _ _ _ HF HI') as [P _ Hrest Hnum _].
    destruct (trackBlks h) as [|array l] eqn:Et.
    + destruct (cleanup_spec _ _ _ _ _ _ ltac:(lia) P) as (o' & Hrun & HI''); [unfold track_ok; by rewrite Et|].
      rewrite (bind_Some _ _ _ _ _ Hrun). autorewrite with monad. unfold ret. cbn.
      unfold arrays. rewrite Et. split_and!; try done; [by rewrite app_nil_r|set_solver].
    + unfold Lac_MemPoolCleanUpInternal, hdr_at. autorewrite with monad.
      rewrite (pa_hdr _ _ _ _ _ _ P). autorewrite with monad. rewrite Et, Hnum. unfold arrays. rewrite Et.
      cbn. set_solver.
  - apply Z.eqb_neq in Ha0 as ->. destruct (cm_phys_law _ _ a real al HI' (lookup_insert_eq _ _ _)) as (phys & Hph & Hphys).
    destruct (add_block_spec s p h fr L0 m0 n a phys o Hsz Hmod ltac:(lia) HF HI' Hfresh Hph Hphys)
      as (s1 & h1 & Hadd & HF1 & Hp1 & Hh1 & Hhp1 & Hc1 & Har1).
    rewrite (bind_Some _ _ _ _ _ Hadd). specialize (IH s1 h1 (a :: fr) HF1). cbn [length] in IH.
    rewrite Har1, Hp1, Hh1, Hhp1, Hc1 in IH.
    destruct (create_loop n (S (length fr)) p slot sz al node s1) as [[[] s2]|]; [|by rewrite delete_insert_eq in IH|done].
    destruct IH as (h' & fr' & HF' & Hl & ? & Hh' & ?). exists h', fr'. rewrite insert_insert_eq in Hh'.
    split; [done|]. split; [lia|]. done.
Qed.

End loop.

(** ** The table of pools *)

Lemma find_slot_spec fuel m : ∀ i, 0 <= i < LAC_MEM_POOLS_NUM_SUPPORTED →
  (Z.to_nat (LAC_MEM_POOLS_NUM_SUPPORTED - i) <= fuel)%nat →
  match find_slot fuel m i with
  | Some (Some j) => i <= j < LAC_MEM_POOLS_NUM_SUPPORTED ∧ m !! j = None
  | Some None => ∀ j, i <= j < LAC_MEM_POOLS_NUM_SUPPORTED → is_Some (m !! j)
  | None => False
  end.
Proof.
  induction fuel as [|fuel IH]; intros i Hi Hf; [lia|]. cbn [find_slot]. case_decide as E; [split; [lia|done]|].
  apply not_eq_None_Some in E. destruct (Z.eqb_spec (i + 1) LAC_MEM_POOLS_NUM_SUPPORTED) as [He|Hne].
  - intros j Hj. by replace j with i by lia.
  - specialize (IH (i + 1)). destruct (find_slot fuel m (i + 1)) as [[j|]|]; [| |apply IH; lia].
    + destruct IH as [? ?]; [lia|lia|]. split; [lia|done].
    + intros j Hj. destruct (decide (j = i)) as [->|]; [done|]. apply IH; lia.
Qed.

Lemma find_pool_spec fuel m p slot : ∀ i, 0 <= i <= slot → slot < LAC_MEM_POOLS_NUM_SUPPORTED →
  (Z.to_nat (slot - i) <= fuel)%nat → m !! slot = Some p → (∀ j, m !! j = Some p → j = slot) →
  find_pool fuel m p i = Some (Some slot).
Proof.
  induction fuel as [|fuel IH]; intros i Hi Hs Hf Hm Hu; cbn [find_pool]; case_decide as E.
  1,3: by rewrite (Hu i E).
  - by replace i with slot in E by lia.
  - assert (i ≠ slot) by (intros ->; done).
    rewrite (proj2 (Z.eqb_neq _ _)) by lia. apply IH; try done; lia.
Qed.

(** ** Whole pools *)

(** What holds between the calls: the heap has [L0] besides the pools. *)
Record world (s : state) (L0 : regions) : Prop := {
  w_os : cm_inv (os s) L0;
  w_blks : blks_ok (mblks s) L0;
  w_hdrs p h : hdrs s !! p = Some h → p ∈ heap s;
  w_table j p : lac_mem_pools s !! j = Some p → p ∈ heap s;
}.

(** The part of the creation after the pool's header has been allocated. *)
Lemma fill_start s L0 p t name n :
  world s L0 → p ∈ heap s → p ≠ 0 → hdrs s !! p = None → 0 <= n →
  tracking t [] (Z.to_nat n) →
  filling (set_hdrs (<[p := new_hdr name t]> (hdrs s)) s) p (new_hdr name t) [] L0 (mblks s) (Z.to_nat n).
Proof.
  intros [HI HB _ _] Hp Hp0 Hh Hn Ht. split; [split| | | |]; cbn [set_hdrs hdrs heap mblks os stack app] in *; try done.
  - apply lookup_insert_eq.
  - intros a Ha. by apply not_elem_of_nil in Ha.
  - intros a Ha. by apply not_elem_of_nil in Ha.
  - apply NoDup_nil_2.
  - intros a Ha. by apply not_elem_of_nil in Ha.
  - change (regs []) with (∅ : regions). by rewrite (left_id_L ∅ (∪)).
  - change (regs []) with (∅ : regions). by rewrite (left_id_L ∅ (∪)).
  - apply map_filter_id. intros b k _. apply not_elem_of_nil.
Qed.

(** Powers of two up to 2^31: what [ICP_PARAM_CHECK] asks of an alignment. *)
Definition align_ok : Prop := ∃ i, 0 <= i < 32 ∧ al = 2 ^ i.

Lemma pool_align_spec : align_ok → 0 < al < 2 ^ 32 ∧ addSize mod al = 0.
Proof.
  intros (i & Hi & He). unfold addSize, sizeof_lac_mem_blk. rewrite He. assert (0 < 2 ^ i < 2 ^ 32) as Hp.
  { split; [apply Z.pow_pos_nonneg; lia|apply Z.pow_lt_mono_r; lia]. }
  split; [done|]. destruct (Z.leb_spec 40 (2 ^ i)) as [Hl|Hl]; [by rewrite Z.mod_same by lia|].
  assert (i < 6) by (apply (Z.pow_lt_mono_r_iff 2); lia).
  change 64 with (2 ^ 6). replace 6 with (6 - i + i) by lia. rewrite Z.pow_add_r by lia. apply Z.mod_mul. lia.
Qed.

(** Whether the pool tracks its entries. *)
Definition is_tracked (t : track) : bool := match t with NoTrack => false | Track _ _ => true end.

(** A created pool [p] at [slot] of the table, in the world [s0]. *)
Record created (tr : bool) (s0 s : state) (p slot num : Z) (h : hdr) (fr out : list Z) (L0 : regions) : Prop := {
  cr_pool : pool_at s p h fr out L0;
  cr_count : Z.of_nat (length (fr ++ out)) = num;
  cr_slot : 0 <= slot < LAC_MEM_POOLS_NUM_SUPPORTED ∧ lac_mem_pools s0 !! slot = None;
  cr_table : lac_mem_pools s = <[slot := p]> (lac_mem_pools s0);
  cr_hdrs : hdrs s = <[p := h]> (hdrs s0);
  cr_heap : heap s = {[p]} ∪ arrays h ∪ heap s0 ∧ p ∉ heap s0 ∧ (∀ q, q ∈ arrays h → q ∉ heap s0 ∧ q ≠ p);
  cr_rest : filter (λ x, pMemAllocPtr x.2 ∉ fr ++ out) (mblks s) = mblks s0;
  cr_tracked : is_tracked (trackBlks h) = tr;
  cr_num : numElementsInPool h = Some num;
  cr_track : match trackBlks h with
             | NoTrack => True
             | Track array l => ∃ all, all ≡ₚ fr ++ out ∧ l = Some <$> (hd <$> all)
             end;
}.

(** The array a pool tracks its entries in. *)
Lemma tracking_full t fr : tracking t fr 0 →
  match t with NoTrack => True | Track array l => ∃ all, all ≡ₚ fr ∧ l = Some <$> (hd <$> all) end.
Proof.
  destruct t as [|array l]; [done|]. intros ->. exists (reverse fr).
  split; [by rewrite reverse_Permutation|by rewrite app_nil_r].
Qed.

Lemma malloc_spec s : ∃ p s', LAC_OS_MALLOC s = Some (p, s') ∧
  ((p = 0 ∧ s' = set_clock (S (clock s)) s) ∨
   (p ≠ 0 ∧ p ∉ heap s ∧ s' = set_heap ({[p]} ∪ heap s) (set_clock (S (clock s)) s))).
Proof.
  unfold LAC_OS_MALLOC. autorewrite with monad. cbn [set_clock heap]. destruct (sys_malloc (clock s) (heap s)) as [p|] eqn:E.
  - autorewrite with monad. apply malloc_law in E as [? ?]. eexists _, _. split; [reflexivity|]. right. done.
  - eexists _, _. split; [reflexivity|]. by left.
Qed.

Definition failed (s0 s : state) (L0 : regions) : Prop :=
  lac_mem_pools s = lac_mem_pools s0 ∧ hdrs s = hdrs s0 ∧ mblks s = mblks s0 ∧ cm_inv (os s) L0.

(** The end of the creation: the loop, and what depends on its result. *)
Lemma create_rest s0 s p slot num node t name L0 :
  world s0 L0 → 0 < sz → align_ok → sz + addSize < 2 ^ 32 → 0 <= num →
  0 <= slot < LAC_MEM_POOLS_NUM_SUPPORTED → lac_mem_pools s0 !! slot = None →
  p ≠ 0 → p ∉ heap s0 → tracking t [] (Z.to_nat num) →
  let h0 := new_hdr name t in
  (∀ q, q ∈ arrays h0 → q ∉ heap s0 ∧ q ≠ p) →
  heap s = {[p]} ∪ arrays h0 ∪ heap s0 → lac_mem_pools s = <[slot := p]> (lac_mem_pools s0) →
  hdrs s = hdrs s0 → mblks s = mblks s0 → os s = os s0 →
  match fill_pool p slot name t num sz al node s with
  | Some ((st, id), s') =>
    (st = CPA_STATUS_SUCCESS ∧ id = p ∧ ∃ h fr, created (is_tracked t) s0 s' p slot num h fr [] L0) ∨
    (st = CPA_STATUS_RESOURCE ∧ id = 0 ∧ failed s0 s' L0 ∧ heap s' = heap s0)
  | None => arrays h0 ≠ ∅
  end.
Proof.
  intros W Hsz Hal Hreal Hnum Hslot Hfree Hp0 Hp Ht h0 Har Hheap Hpools Hhdrs Hblks Hos.
  destruct (pool_align_spec Hal) as [Halr Hmod].
  assert (hdrs s !! p = None) as Hnone.
  { rewrite Hhdrs. apply eq_None_not_Some. intros [h Hh]. by apply (w_hdrs _ _ W) in Hh. }
  unfold fill_pool. fold h0. unfold put_hdr at 1. autorewrite with monad. rewrite Hhdrs in *. rewrite <- Hhdrs.
  assert (filling (set_hdrs (<[p := h0]> (hdrs s)) s) p h0 [] L0 (mblks s0) (Z.to_nat num)) as HF.
  { rewrite <- Hblks. apply fill_start; try done; [|rewrite Hheap; set_solver|by rewrite Hhdrs].
    destruct W as [W1 W2 W3 W4]. split; rewrite ?Hos, ?Hblks, ?Hhdrs, ?Hpools; try done.
    - intros q h Hh. rewrite Hheap. apply W3 in Hh. set_solver.
    - intros j q. rewrite lookup_insert_Some, Hheap. intros [[_ <-]|[_ Hj]]; [set_solver|]. apply W4 in Hj. set_solver. }
  pose proof (create_loop_spec p slot node L0 (mblks s0) Hsz Halr Hmod Hreal _ _ _ _ HF) as Hl. cbn [length] in Hl.
  unfold bind at 1. destruct (create_loop _ 0 p slot sz al node _) as [[[] s']|]; [| |exact Hl].
  - destruct Hl as (h & fr & HF' & Hlen & Hp' & Hh' & Hhp' & _ & Har').
    change (negb true) with false. cbv iota. unfold hdr_at, put_hdr. autorewrite with monad.
    rewrite (pa_hdr _ _ _ _ _ _ (fl_pool _ _ _ _ _ _ _ HF')). autorewrite with monad. unfold ret.
    left. split; [done|]. split; [done|]. exists (with_details num sz al h), fr.
    destruct HF' as [[? ? ? ? ? ? ? ? ?] ? Hrest ? Htr]. cbn [set_hdrs set_heap heap lac_mem_pools hdrs mblks] in *.
    split; rewrite ?app_nil_r in *; cbn [set_hdrs heap lac_mem_pools hdrs mblks with_details numElementsInPool trackBlks]; try done.
    + split; cbn [set_hdrs hdrs heap mblks os]; rewrite ?app_nil_r; try done. apply lookup_insert_eq.
    + rewrite Hlen. lia.
    + by rewrite Hp'.
    + rewrite Hh'. rewrite Hhdrs. by rewrite !insert_insert_eq.
    + rewrite Hhp', Hheap. change (arrays (with_details num sz al h)) with (arrays h). rewrite Har'. done.
    + unfold arrays in Har'. cbn [h0 new_hdr trackBlks] in Har'. clear - Har'. destruct (trackBlks h), t; cbn in *; try done; set_solver.
    + by apply tracking_full.
  - destruct Hl as (Har0 & HI & Hm & Hp' & Hh' & Hhp' & _). change (negb false) with true. cbv iota. unfold ret. right.
    cbn [set_hdrs set_heap heap lac_mem_pools hdrs mblks] in *. unfold ret. split; [done|]. split; [done|].
    rewrite Har0 in *. split.
    + split_and!; try done.
      * rewrite Hp', Hpools. by apply delete_insert_id.
      * rewrite Hh', delete_insert_eq, Hhdrs. apply delete_id. congruence.
    + rewrite Hhp', Hheap. set_solver.
Qed.

Lemma create_spec s0 name num track node L0 :
  world s0 L0 → 0 < sz → align_ok → sz + addSize < 2 ^ 32 → 0 <= num < 2 ^ 29 →
  match Lac_MemPoolCreate false (Some name) num sz al track node s0 with
  | Some ((st, id), s) =>
    (st = CPA_STATUS_SUCCESS ∧ ∃ slot h fr, created track s0 s id slot num h fr [] L0) ∨
    (st ≠ CPA_STATUS_SUCCESS ∧ id = 0 ∧ failed s0 s L0 ∧ heap s = heap s0)
  | None => track = true
  end.
Proof.
  intros W Hsz Hal Hreal Hnum. unfold Lac_MemPoolCreate. cbv iota. autorewrite with monad.
  pose proof (find_slot_spec (Z.to_nat LAC_MEM_POOLS_NUM_SUPPORTED) (lac_mem_pools s0) 0) as Hs.
  destruct (find_slot _ _ 0) as [[slot|]|]; [| |by exfalso; apply Hs].
  2:{ autorewrite with monad. unfold ret. right. destruct W. done. }
  destruct Hs as [Hslot Hfree]; [done|lia|]. autorewrite with monad.
  destruct (malloc_spec s0) as (p & s1 & Hm & [[-> ->]|(Hp0 & Hp & ->)]); rewrite (bind_Some _ _ _ _ _ Hm).
  { rewrite Z.eqb_refl. unfold ret. right. destruct W. done. }
  rewrite (proj2 (Z.eqb_neq p 0)) by done. autorewrite with monad. set (s1 := set_pools _ _).
  destruct track; cbn [andb].
  - destruct (malloc_spec s1) as (q & s2 & Hm' & [[-> ->]|(Hq0 & Hq & ->)]); rewrite (bind_Some _ _ _ _ _ Hm').
    + rewrite Z.eqb_refl. rewrite (bind_Some _ _ _ _ _ (free_spec (set_clock (S (clock s1)) s1) p ltac:(cbn; set_solver))).
      autorewrite with monad. unfold ret. right. split; [done|]. split; [done|]. destruct W as [W1 W2 W3 W4].
      split; [split_and!; try done|]; cbn; [|set_solver].
      apply delete_id. apply eq_None_not_Some. intros [h Hh]. by apply W3 in Hh.
    + rewrite (proj2 (Z.eqb_neq q 0)) by done. cbn [heap set_heap s1 set_pools] in Hq.
      pose proof (create_rest s0 (set_heap ({[q]} ∪ heap s1) (set_clock (S (clock s1)) s1)) p slot num node
        (Track q (replicate (Z.to_nat (u32 (8 * num) / 8)) None)) name L0) as HP.
      specialize (HP W Hsz Hal Hreal ltac:(lia) Hslot Hfree Hp0 Hp).
      destruct (fill_pool _ _ _ _ _ _ _ _ _) as [[[st id] s]|]; [|done].
      destruct HP as [(-> & -> & h & fr & Hc)|(-> & -> & Hf & Hh)]; try done; cbn.
      * rewrite wrap_small by lia. replace (8 * num) with (num * 8) by lia. by rewrite Z.div_mul.
      * set_solver.
      * set_solver.
      * left. split; [done|]. by exists slot, h, fr.
      * by right.
  - autorewrite with monad. cbn [andb].
    pose proof (create_rest s0 s1 p slot num node NoTrack name L0) as HP.
    specialize (HP W Hsz Hal Hreal ltac:(lia) Hslot Hfree Hp0 Hp I).
    destruct (fill_pool _ _ _ _ _ _ _ _ _) as [[[st id] s]|]; [|by exfalso; apply HP; cbn; set_solver].
    destruct HP as [(-> & -> & h & fr & Hc)|(-> & -> & Hf & Hh)]; try done; cbn.
    + set_solver.
    + left. split; [done|]. by exists slot, h, fr.
    + by right.
Qed.

Lemma filter_insert_same (m : gmap Z lac_mem_blk) b k k' a (l : list Z) :
  m !! b = Some k → pMemAllocPtr k = a → pMemAllocPtr k' = a → a ∈ l →
  filter (λ x, pMemAllocPtr x.2 ∉ l) (<[b := k']> m) = filter (λ x, pMemAllocPtr x.2 ∉ l) m.
Proof.
  intros Hk Ha Ha' Hl. apply map_eq. intros x. apply option_eq. intros v. rewrite !map_lookup_filter_Some. cbn [snd].
  destruct (decide (x = b)) as [->|Hne]; [|by rewrite lookup_insert_ne]. rewrite lookup_insert_eq, Hk.
  split; intros [[= <-] Hn]; exfalso; apply Hn; congruence.
Qed.

Lemma created_step tr s0 s s' p slot num h h' a fr out fr' out' L0 :
  created tr s0 s p slot num h fr out L0 → pool_at s' p h' fr' out' L0 → frame s s' p h h' a →
  a ∈ fr ++ out → fr' ++ out' ≡ₚ fr ++ out → created tr s0 s' p slot num h' fr' out' L0.
Proof.
  intros [HP Hcnt Hslot Htab Hh Hhp Hrest Htd Hnum Htr] P' [F1 F2 F3 F4 F5 F6 F7 (k & k' & Hk & Hka & Hka' & F8)] Ha Hperm.
  assert (arrays h' = arrays h) as Har by (unfold arrays; by rewrite F7).
  split; rewrite ?F1, ?F2, ?F6, ?F7, ?Har, ?Hperm; try done.
  - by rewrite F5, Hh, insert_insert_eq.
  - rewrite F8, (filter_perm _ _ _ Hperm). by rewrite (filter_insert_same _ _ k k' a).
  - destruct (trackBlks h); [done|]. destruct Htr as (all & Hall & ?). exists all. split; [by rewrite Hperm|done].
Qed.

Lemma pool_at_perm s p h fr out out' L0 : out ≡ₚ out' → pool_at s p h fr out L0 → pool_at s p h fr out' L0.
Proof.
  intros Hp [? ? ? ? Ho ? ? ? ?]. split; try done.
  - intros a Ha. apply Ho. by rewrite Hp.
  - by rewrite <- Hp.
  - intros a. rewrite <- Hp. auto.
  - rewrite <- (regs_perm (fr ++ out)); [done|by rewrite Hp].
Qed.

Lemma created_perm tr s0 s p slot num h fr out out' L0 :
  out ≡ₚ out' → created tr s0 s p slot num h fr out L0 → created tr s0 s p slot num h fr out' L0.
Proof.
  intros Hp [HP Hcnt Hslot Htab Hh Hhp Hrest Htd Hnum Htr]. split; try done.
  - by eapply pool_at_perm.
  - by rewrite <- Hp.
  - rewrite <- Hrest. apply filter_perm. by rewrite Hp.
  - destruct (trackBlks h); [done|]. destruct Htr as (all & Hall & ?). exists all. split; [by rewrite Hall, Hp|done].
Qed.

(** The entry in region [a]. *)
Definition entry (a : Z) : Z := a + addSize.
Lemma entry_hd a : hd a + sizeof_lac_mem_blk = entry a.
Proof. unfold hd, entry. lia. Qed.

(** Calls on the entries of pool [p]: from the entries [es] in use in [s] to
    [es'] in [s']. *)
Inductive uses (p : Z) : list Z → state → list Z → state → Prop :=
  | uses_none es s : uses p es s es s
  | uses_alloc es s es1 s1 e s2 :
      uses p es s es1 s1 → Lac_MemPoolEntryAlloc p s1 = Some (e, s2) →
      e ≠ LockFreeStack.CPA_STATUS_RETRY → uses p es s (e :: es1) s2
  | uses_retry es s es1 s1 s2 :
      uses p es s es1 s1 → Lac_MemPoolEntryAlloc p s1 = Some (LockFreeStack.CPA_STATUS_RETRY, s2) → uses p es s es1 s2
  | uses_free es s es1 s1 e es2 s2 :
      uses p es s es1 s1 → es1 ≡ₚ e :: es2 → Lac_MemPoolEntryFree e s1 = Some ((), s2) → uses p es s es2 s2.

Lemma entry_not_retry s p h fr out L0 a : 0 <= sz → pool_at s p h fr out L0 → a ∈ fr ++ out →
  entry a ≠ LockFreeStack.CPA_STATUS_RETRY.
Proof.
  intros Hsz P Ha. destruct (pa_range _ _ _ _ _ _ a addSize_ge Hsz P Ha) as (_ & Hr & _).
  rewrite <- entry_hd. change LockFreeStack.CPA_STATUS_RETRY with (2 ^ 64 - 2). unfold sizeof_lac_mem_blk. lia.
Qed.

Lemma uses_inv tr s0 p slot num L0 s es s' es' :
  0 <= sz → uses p es s es' s' →
  (∃ h fr out, created tr s0 s p slot num h fr out L0 ∧ es = entry <$> out) →
  ∃ h fr out, created tr s0 s' p slot num h fr out L0 ∧ es' = entry <$> out.
Proof.
  intros Hsz. induction 1 as [es s|es s es1 s1 e s2 _ IH He Hr|es s es1 s1 s2 _ IH He|es s es1 s1 e es2 s2 _ IH Hp He];
    intros Hc; [done|..]; destruct (IH Hc) as (h & fr & out & C & ->); pose proof (cr_pool _ _ _ _ _ _ _ _ _ _ C) as P.
  - destruct fr as [|a fr]; [rewrite (entry_alloc_empty _ _ _ _ _ P) in He; by injection He as <- <-|].
    destruct (entry_alloc_spec _ _ _ _ _ _ _ Hsz P) as (s3 & h' & He' & P' & F). rewrite He in He'.
    injection He' as -> ->. exists h', fr, (a :: out). rewrite entry_hd. split; [|done].
    eapply created_step; [done..|by left|]. cbn [app]. by rewrite Permutation_middle.
  - destruct fr as [|a fr]; [rewrite (entry_alloc_empty _ _ _ _ _ P) in He; injection He as <-; by exists h, [], out|].
    exfalso. destruct (entry_alloc_spec _ _ _ _ _ _ _ Hsz P) as (s3 & h' & He' & _). rewrite He in He'.
    injection He' as He' _. rewrite entry_hd in He'. symmetry in He'. revert He'.
    by apply (entry_not_retry _ _ _ _ _ _ a Hsz P), list_elem_of_here.
  - assert (e ∈ entry <$> out) as (a & -> & Ha)%list_elem_of_fmap by (rewrite Hp; left).
    apply elem_of_Permutation in Ha as (out' & Hout). rewrite Hout in Hp. cbn [fmap list_fmap] in Hp.
    apply Permutation_cons_inv in Hp. symmetry in Hp. apply Permutation_map_inv in Hp as (out2 & -> & Hp2).
    apply (created_perm _ _ _ _ _ _ _ _ _ (a :: out2)) in C; [|by rewrite Hout, Hp2].
    pose proof (cr_pool _ _ _ _ _ _ _ _ _ _ C) as P2.
    destruct (entry_free_spec _ _ _ _ _ _ _ Hsz P2) as (s3 & h' & He' & P' & F). rewrite entry_hd, He in He'.
    injection He' as ->. exists h', (a :: fr), out2. split; [|done].
    eapply created_step; [done..|set_solver|]. cbn [app]. by rewrite Permutation_middle.
Qed.

Lemma destroy_spec tr s0 s p slot num h fr out L0 :
  0 <= sz → world s0 L0 → created tr s0 s p slot num h fr out L0 → (tr = false → out = []) →
  ∃ s', Lac_MemPoolDestroy p s = Some ((), s') ∧ lac_mem_pools s' = lac_mem_pools s0 ∧ hdrs s' = hdrs s0 ∧
    mblks s' = mblks s0 ∧ heap s' = heap s0 ∧ cm_inv (os s') L0.
Proof.
  intros Hsz W [P Hcnt [Hslot Hfree] Htab Hh (Hhp & Hp & Har) Hrest Htd Hnum Htr] Hout.
  destruct (pa_heap _ _ _ _ _ _ P) as [_ Hp0]. pose proof W as [W1 W2 W3 W4].
  unfold Lac_MemPoolDestroy. rewrite (proj2 (Z.eqb_neq p 0)) by done. autorewrite with monad.
  rewrite (find_pool_spec _ _ p slot 0); try lia.
  2:{ by rewrite Htab, lookup_insert_eq. }
  2:{ intros j. rewrite Htab, lookup_insert_Some. intros [[<- _]|[_ Hj]]; [done|]. by apply W4 in Hj. }
  autorewrite with monad. set (s1 := set_pools _ s).
  assert (pool_at s1 p h fr out L0) as P1 by (destruct P; by split).
  destruct (cleanup_spec s1 p h fr out L0 Hsz P1) as (o & Hrun & HI).
  { unfold track_ok. unfold arrays in Har, Hhp. destruct (trackBlks h) as [|array l]; [by apply Hout; rewrite <- Htd|]. destruct Htr as (all & Hall & Hl).
    exists all. split; [done|]. split; [done|]. split; [by rewrite Hnum, <- Hcnt, Hall|].
    destruct (Har array) as [Ha1 Ha2]; [set_solver|]. unfold s1. cbn [set_pools heap hdrs].
    split; [rewrite Hhp; set_solver|]. split; [done|]. rewrite Hh, lookup_insert_ne by done.
    apply eq_None_not_Some. intros [h' Hh']. by apply W3 in Hh'. }
  eexists. split; [exact Hrun|]. cbn. split_and!; try done.
  - rewrite Htab. by apply delete_insert_id.
  - rewrite Hh. apply delete_insert_id. apply eq_None_not_Some. intros [h' Hh']. by apply W3 in Hh'.
  - rewrite Hhp. assert (∀ q, q ∈ arrays h → q ∉ heap s0) as Har' by (intros q Hq; by apply Har).
    clear - Hp Har'. set_solver.
Qed.

(** ** Initialising the entries *)

(** What [f] does to an entry does not touch the headers or the pools. *)
Definition entry_only (f : Z → M state ()) (g : Z → state → state) : Prop :=
  ∀ e s, f e s = Some ((), g e s) ∧ mblks (g e s) = mblks s ∧ hdrs (g e s) = hdrs s.

Definition init_all (g : Z → state → state) (l : list Z) (s : state) : state := foldl (λ s a, g (entry a) s) s l.

Lemma init_stacked_spec f g fr : entry_only f g → ∀ fuel b s,
  is_stack (mblks s) b (hd <$> fr) → (length fr < fuel)%nat → init_stacked fuel f b s = Some ((), init_all g fr s).
Proof.
  intros Hf. induction fr as [|a fr IH]; intros [|fuel] b s Hs Hl; cbn [length] in Hl; try lia.
  - cbn in Hs. subst b. done.
  - destruct Hs as (-> & Ha & k & Hk & Hs). cbn [init_stacked]. apply Z.eqb_neq in Ha as ->.
    unfold blk_at. autorewrite with monad. rewrite Hk. autorewrite with monad. rewrite entry_hd.
    destruct (Hf (entry a) s) as (Hrun & Hm & _). rewrite (bind_Some _ _ _ _ _ Hrun). apply IH; [by rewrite Hm|lia].
Qed.

Lemma init_tracked_spec f g rest : entry_only f g → ∀ pre s,
  init_tracked (length rest) (length pre) f (Some <$> (hd <$> pre ++ rest)) s = Some ((), init_all g rest s).
Proof.
  intros Hf. induction rest as [|a rest IH]; intros pre s; [done|]. cbn [length init_tracked].
  unfold tracked_at. autorewrite with monad.
  rewrite !list_lookup_fmap, lookup_app_r, Nat.sub_diag by done. cbn [lookup list_lookup fmap option_fmap option_map].
  autorewrite with monad. rewrite entry_hd.
  destruct (Hf (entry a) s) as (Hrun & Hm & _). rewrite (bind_Some _ _ _ _ _ Hrun).
  specialize (IH (pre ++ [a]) (g (entry a) s)). rewrite <- app_assoc, length_app in IH. cbn [length] in IH.
  by rewrite Nat.add_1_r in IH.
Qed.

(** The [Init] functions visit every free entry once, and of a pool that tracks
    its entries every entry. *)
Lemma init_cookies_spec f g tr s0 s p slot num h fr out L0 :
  entry_only f g → created tr s0 s p slot num h fr out L0 →
  ∃ l, Lac_MemPoolInitCookies f p s = Some (CPA_STATUS_SUCCESS, init_all g l s) ∧
    l ≡ₚ if tr then fr ++ out else fr.
Proof.
  intros Hf [P Hcnt Hslot Htab Hh Hhp Hrest Htd Hnum Htr]. destruct (pa_heap _ _ _ _ _ _ P) as [_ Hp0].
  unfold Lac_MemPoolInitCookies. rewrite (proj2 (Z.eqb_neq p 0)) by done.
  unfold hdr_at. autorewrite with monad. rewrite (pa_hdr _ _ _ _ _ _ P). autorewrite with monad.
  destruct (trackBlks h) as [|array l]; cbn in Htd; subst tr; autorewrite with monad.
  - pose proof (stack_size _ _ _ _ _ _ P) as Hl. exists fr. split; [|done].
    rewrite (bind_Some _ _ _ _ _ (init_stacked_spec f g fr Hf (S (base.size (mblks s))) _ s (pa_stack _ _ _ _ _ _ P) ltac:(lia))).
    done.
  - destruct Htr as (all & Hall & ->). exists all. split; [|done]. rewrite Hnum. autorewrite with monad.
    rewrite <- Hcnt, Nat2Z.id, <- Hall. rewrite (bind_Some _ _ _ _ _ (init_tracked_spec f g all Hf [] s)). done.
Qed.

End laws.


(** C16 The life of a pool.  From its creation on, with any calls on its entries in
    between: allocating an entry returns one that no client has, at an address
    whose physical address is aligned as asked for, or [CPA_STATUS_RETRY] when
    all are in use; releasing an entry that is in use succeeds; and destroying
    the pool, when every entry has been released or the pool tracks its entries,
    gives all memory back and leaves the table of pools, the other pools and the
    heap as they were before the creation. *)
Theorem mem_pool_lifecycle `{ContigMemLaws, MallocLaws} sz al s0 name num track node L0 id s1 es s :
  world s0 L0 → 0 < sz → align_ok al → sz + addSize al < 2 ^ 32 → 0 <= num < 2 ^ 29 →
  Lac_MemPoolCreate false (Some name) num sz al track node s0 = Some ((CPA_STATUS_SUCCESS, id), s1) →
  uses id [] s1 es s →
  (∃ e s', Lac_MemPoolEntryAlloc id s = Some (e, s') ∧
     ((e = LockFreeStack.CPA_STATUS_RETRY ∧ Z.of_nat (length es) = num) ∨
      (e ∉ es ∧ Z.of_nat (length es) < num ∧
       ∃ k, mblks s !! (e - sizeof_lac_mem_blk) = Some k ∧ physDataPtr k mod al = 0))) ∧
  (∀ e, e ∈ es → ∃ s', Lac_MemPoolEntryFree e s = Some ((), s')) ∧
  (track = true ∨ es = [] → ∃ s', Lac_MemPoolDestroy id s = Some ((), s') ∧
     lac_mem_pools s' = lac_mem_pools s0 ∧ hdrs s' = hdrs s0 ∧ mblks s' = mblks s0 ∧ heap s' = heap s0 ∧
     cm_inv (os s') L0).
Proof.
  intros W Hsz Hal Hreal Hnum Hc Hu. pose proof (create_spec sz al s0 name num track node L0 W Hsz Hal Hreal Hnum) as Hs.
  rewrite Hc in Hs. destruct Hs as [(_ & slot & h1 & fr1 & C1)|[? _]]; [|done].
  destruct (uses_inv sz al track s0 id slot num L0 s1 [] s es ltac:(lia) Hu) as (h & fr & out & C & ->).
  { by exists h1, fr1, []. }
  pose proof (cr_pool _ _ _ _ _ _ _ _ _ _ _ _ C) as P. pose proof (cr_count _ _ _ _ _ _ _ _ _ _ _ _ C) as Hcnt.
  rewrite length_app in Hcnt. rewrite length_fmap. split_and!.
  - destruct fr as [|a fr].
    + eexists _, s. split; [by eapply entry_alloc_empty|]. left. split; [done|]. cbn [length] in Hcnt. lia.
    + destruct (entry_alloc_spec sz al _ _ _ _ _ _ _ ltac:(lia) P) as (s' & h' & He & P' & F).
      eexists _, s'. split; [exact He|]. right. rewrite entry_hd. split_and!.
      * intros (b & Hb & Hbo)%list_elem_of_fmap. assert (a = b) as -> by (unfold entry in Hb; lia).
        pose proof (pa_nodup _ _ _ _ _ _ _ _ P) as Hn. apply NoDup_cons in Hn as [Hn _].
        by apply Hn, elem_of_app; right.
      * cbn [length] in Hcnt. lia.
      * destruct (pa_free _ _ _ _ _ _ _ _ P a) as (k & [Hk _ _ _ Hph]); [by left|]. exists k.
        rewrite <- entry_hd, Z.add_simpl_r. done.
  - intros e (a & -> & (out' & Ho)%elem_of_Permutation)%list_elem_of_fmap.
    destruct (entry_free_spec sz al s id h a fr out' L0 ltac:(lia)) as (s' & h' & He & _).
    { by eapply pool_at_perm. }
    exists s'. by rewrite <- entry_hd.
  - intros Hor. eapply (destroy_spec sz al track); [lia|done|exact C|]. intros ->. destruct Hor as [|Ho]; [done|].
    by apply fmap_nil_inv in Ho.
Qed.

End MemPool.
