(* ===== verification/MemPoolUsdm.v ===== *)
(** * Memory pools on the user-space heap

    The heap of the memory driver ([UsdmHeap]) keeps what [ContigMem] promises
    the access layer, so that the pools of [MemPool] can be built on it. *)

From S2P Require Import Prelude DList PageTable Slab UsdmHeap UsdmHeapInv UsdmHeapOps UsdmHeapSpec.
From S2P Require Import ContigMem LockFreeStack MemPool.
Import UsdmHeap UsdmHeapInv UsdmHeapOps UsdmHeapSpec ContigMem MemPool.

#[local] Open Scope Z_scope.
#[local] Open Scope qat_scope.

Module MemPoolUsdm.

Section usdm.
Context `{OSLaws}.

(** In user space the macros of [lac_mem.h] are the calls of the driver's library. *)
#[export] Instance usdm_contig : ContigMem := {|
  cm_state := UsdmHeap.state;
  cm_alloc size node alignment := qaeMemAllocNUMA 0 0 size node alignment;
  cm_free a := qaeMemFreeNUMA 0 a ;; ret ();
  cm_phys a := qaeVirtToPhysNUMA a;
|}.

Lemma client_range s L a n al : UsdmHeapOps.Inv s L → L !! a = Some (n, al) → 0 < a ∧ a + n <= 2 ^ 47.
Proof.
  intros HI Ha. destruct (inv_client _ _ _ _ HI Ha) as (ul & ch & B & [W _ HR]).
  destruct (rel_client _ _ _ _ HR _ _ _ Ha) as (p & k & b & u & HB & -> & Hn & _).
  pose proof (block_range _ _ _ _ _ _ _ _ _ W HB) as Hr. destruct HB as (Hk & _ & _).
  destruct (wf_maps _ _ _ _ _ W _ _ (ma_region _ _ _ _ _ (wf_mapped _ _ _ _ _ W p k Hk))) as (? & ? & ?).
  unfold addr. lia.
Qed.

#[export] Instance usdm_laws : ContigMemLaws.
Proof.
  refine {| cm_inv := UsdmHeapOps.Inv |}.
  - intros s L size node al HI Hs Ha.
    destruct (alloc_call_spec s L size node al HI) as (a & s' & Hrun & Hor); [lia|lia|].
    exists a, s'. split; [exact Hrun|]. destruct Hor as [?|(? & ? & ?)]; [by left|right]. split; [lia|done].
  - intros s L a [n al] HI Ha. destruct (free_addr_spec s L a n al HI Ha) as (s' & Hrun & _ & HI').
    exists s'. cbn. by rewrite (bind_Some _ _ _ _ _ Hrun).
  - apply client_range.
  - intros s L a n al b m bl HI Ha Hb. destruct (inv_client _ _ _ _ HI Ha) as (ul & ch & B & [W _ HR]).
    by eapply client_disjoint.
  - intros s L a n al HI Ha. destruct (inv_client _ _ _ _ HI Ha) as (ul & ch & B & [W _ HR]).
    by eapply client_translates.
Defined.

End usdm.

(** ** A pool of three entries *)

#[local] Existing Instance ex_os.
#[local] Existing Instance ex_laws.

Definition ex_malloc : Malloc := λ n h, let p := 0x55550000 + 0x100 * Z.of_nat n in if decide (p ∈ h) then None else Some p.
#[local] Existing Instance ex_malloc.
#[local] Instance ex_malloc_laws : MallocLaws.
Proof. intros n h p. unfold sys_malloc, ex_malloc. case_decide; [done|]. intros [= <-]. split; [lia|done]. Qed.

Definition ex_s0 : MemPool.state := MemPool.State ex_s0 ∅ ∅ ∅ ∅ 0.

Lemma ex_world : world ex_s0 ∅.
Proof. split; [|done..]. apply heap_reach_inv. by apply reach_init. Qed.

(** The state after a call. *)
Definition mafter {A} (f : M MemPool.state A) (s : MemPool.state) : MemPool.state :=
  match f s with Some (_, s') => s' | None => s end.
Lemma mrun {A} (f : M MemPool.state A) s r : fst <$> f s = Some r → f s = Some (r, mafter f s).
Proof. unfold mafter. by destruct (f s) as [[]|]; intros [= <-]. Qed.

Definition ex_id : Z := 0x55550000.
Definition ex_s1 := mafter (Lac_MemPoolCreate false (Some "sym"%string) 3 200 64 true 0) ex_s0.

Lemma ex_creates : fst <$> Lac_MemPoolCreate false (Some "sym"%string) 3 200 64 true 0 ex_s0 = Some (CPA_STATUS_SUCCESS, ex_id).
Proof. vm_compute. reflexivity. Qed.
Lemma ex_create :
  Lac_MemPoolCreate false (Some "sym"%string) 3 200 64 true 0 ex_s0 = Some ((CPA_STATUS_SUCCESS, ex_id), ex_s1).
Proof. exact (mrun _ _ _ ex_creates). Qed.

Definition ex_e : Z := default 0 (fst <$> Lac_MemPoolEntryAlloc ex_id ex_s1).
Definition ex_s2 := mafter (Lac_MemPoolEntryAlloc ex_id) ex_s1.

Lemma ex_allocs : fst <$> Lac_MemPoolEntryAlloc ex_id ex_s1 = Some ex_e.
Proof. vm_compute. reflexivity. Qed.

Lemma ex_uses : uses ex_id [] ex_s1 [ex_e] ex_s2.
Proof.
  eapply uses_alloc; [apply uses_none| |].
  - exact (mrun _ _ _ ex_allocs).
  - vm_compute. discriminate.
Qed.

Lemma ex_align : align_ok 64.
Proof. by exists 6. Qed.

Theorem mem_pool_lifecycle_witness :
  (∃ s', Lac_MemPoolEntryFree ex_e ex_s2 = Some ((), s')) ∧
  ∃ s', Lac_MemPoolDestroy ex_id ex_s2 = Some ((), s') ∧ heap s' = ∅ ∧ UsdmHeapOps.Inv (os s') ∅.
Proof.
  destruct (mem_pool_lifecycle 200 64 ex_s0 "sym" 3 true 0 ∅ ex_id ex_s1 [ex_e] ex_s2 ex_world
    ltac:(done) ex_align ltac:(done) ltac:(done) ex_create ex_uses) as (_ & Hf & Hd).
  split; [apply Hf; by left|]. destruct Hd as (s' & Hrun & _ & _ & _ & Hh & HI); [by left|].
  exists s'. split; [exact Hrun|]. split; [exact Hh|exact HI].
Defined.


(** A pool that tracks its entries and cannot get memory for one: cleaning up
    reads [numElementsInPool], which only a successful creation writes.  Without
    tracking the same creation fails as it should. *)
Theorem Lac_MemPoolCreate_uninitialised :
  world ex_s0 ∅ ∧
  fst <$> Lac_MemPoolCreate false (Some "sym"%string) 1 (2 ^ 27) 64 true 0 ex_s0 = None ∧
  fst <$> Lac_MemPoolCreate false (Some "sym"%string) 1 (2 ^ 27) 64 false 0 ex_s0 = Some (CPA_STATUS_RESOURCE, 0).
Proof. split; [exact ex_world|]. split; vm_compute; reflexivity. Qed.

End MemPoolUsdm.
