(* ===== verification/SymCipher.v ===== *)
(** * Symmetric ciphers: algorithms, checks and message fields

    Models what [lac_sym_cipher.c], [lac_sym_qat_cipher.c], [lac_sym_qat.c] and
    [lac_sym_partial.c] compute from the parameters of a session or a request
    alone: the classes and sizes of the algorithms, the checks of the set-up
    data and of a request, the ARC4 key schedule, the state machine of partial
    packets and the command flags of the firmware request. *)

From S2P Require Import Prelude.

#[local] Open Scope Z_scope.
#[local] Open Scope qat_scope.

Module SymCipher.

(** ** The data types of the API *)

Inductive CpaCySymPacketType :=
  | CPA_CY_SYM_PACKET_TYPE_FULL
  | CPA_CY_SYM_PACKET_TYPE_PARTIAL
  | CPA_CY_SYM_PACKET_TYPE_LAST_PARTIAL.
#[export] Instance packet_type_eq_dec : EqDecision CpaCySymPacketType.
Proof. solve_decision. Defined.

Inductive CpaCySymOp :=
  | CPA_CY_SYM_OP_NONE | CPA_CY_SYM_OP_CIPHER | CPA_CY_SYM_OP_HASH
  | CPA_CY_SYM_OP_ALGORITHM_CHAINING.
#[export] Instance sym_op_eq_dec : EqDecision CpaCySymOp.
Proof. solve_decision. Defined.

Inductive CpaCySymCipherAlgorithm :=
  | CPA_CY_SYM_CIPHER_NULL | CPA_CY_SYM_CIPHER_ARC4
  | CPA_CY_SYM_CIPHER_AES_ECB | CPA_CY_SYM_CIPHER_AES_CBC | CPA_CY_SYM_CIPHER_AES_CTR
  | CPA_CY_SYM_CIPHER_AES_CCM | CPA_CY_SYM_CIPHER_AES_GCM
  | CPA_CY_SYM_CIPHER_DES_ECB | CPA_CY_SYM_CIPHER_DES_CBC
  | CPA_CY_SYM_CIPHER_3DES_ECB | CPA_CY_SYM_CIPHER_3DES_CBC | CPA_CY_SYM_CIPHER_3DES_CTR
  | CPA_CY_SYM_CIPHER_KASUMI_F8 | CPA_CY_SYM_CIPHER_SNOW3G_UEA2 | CPA_CY_SYM_CIPHER_AES_F8
  | CPA_CY_SYM_CIPHER_AES_XTS | CPA_CY_SYM_CIPHER_ZUC_EEA3.
#[export] Instance cipher_eq_dec : EqDecision CpaCySymCipherAlgorithm.
Proof. solve_decision. Defined.

(** ** Classes of algorithms *)

Definition LAC_CIPHER_IS_AES (algo : CpaCySymCipherAlgorithm) : bool :=
  match algo with
  | CPA_CY_SYM_CIPHER_AES_ECB | CPA_CY_SYM_CIPHER_AES_CBC | CPA_CY_SYM_CIPHER_AES_CTR
  | CPA_CY_SYM_CIPHER_AES_CCM | CPA_CY_SYM_CIPHER_AES_GCM | CPA_CY_SYM_CIPHER_AES_XTS => true
  | _ => false
  end.
Definition LAC_CIPHER_IS_DES (algo : CpaCySymCipherAlgorithm) : bool :=
  match algo with CPA_CY_SYM_CIPHER_DES_ECB | CPA_CY_SYM_CIPHER_DES_CBC => true | _ => false end.
Definition LAC_CIPHER_IS_TRIPLE_DES (algo : CpaCySymCipherAlgorithm) : bool :=
  match algo with
  | CPA_CY_SYM_CIPHER_3DES_ECB | CPA_CY_SYM_CIPHER_3DES_CBC | CPA_CY_SYM_CIPHER_3DES_CTR => true
  | _ => false
  end.
Definition LAC_CIPHER_IS_KASUMI algo := bool_decide (algo = CPA_CY_SYM_CIPHER_KASUMI_F8).
Definition LAC_CIPHER_IS_SNOW3G_UEA2 algo := bool_decide (algo = CPA_CY_SYM_CIPHER_SNOW3G_UEA2).
Definition LAC_CIPHER_IS_ARC4 algo := bool_decide (algo = CPA_CY_SYM_CIPHER_ARC4).
Definition LAC_CIPHER_IS_ZUC_EEA3 algo := bool_decide (algo = CPA_CY_SYM_CIPHER_ZUC_EEA3).
Definition LAC_CIPHER_IS_NULL algo := bool_decide (algo = CPA_CY_SYM_CIPHER_NULL).
Definition LAC_CIPHER_IS_CCM algo := bool_decide (algo = CPA_CY_SYM_CIPHER_AES_CCM).
Definition LAC_CIPHER_IS_GCM algo := bool_decide (algo = CPA_CY_SYM_CIPHER_AES_GCM).
Definition LAC_CIPHER_IS_AES_F8 algo := bool_decide (algo = CPA_CY_SYM_CIPHER_AES_F8).
Definition LAC_CIPHER_IS_XTS_MODE algo := bool_decide (algo = CPA_CY_SYM_CIPHER_AES_XTS).
Definition LAC_CIPHER_IS_CTR_MODE (algo : CpaCySymCipherAlgorithm) : bool :=
  bool_decide (algo = CPA_CY_SYM_CIPHER_AES_CTR) || bool_decide (algo = CPA_CY_SYM_CIPHER_3DES_CTR)
  || LAC_CIPHER_IS_CCM algo || LAC_CIPHER_IS_GCM algo.
Definition LAC_CIPHER_IS_ECB_MODE (algo : CpaCySymCipherAlgorithm) : bool :=
  match algo with
  | CPA_CY_SYM_CIPHER_AES_ECB | CPA_CY_SYM_CIPHER_DES_ECB | CPA_CY_SYM_CIPHER_3DES_ECB
  | CPA_CY_SYM_CIPHER_NULL | CPA_CY_SYM_CIPHER_SNOW3G_UEA2 => true
  | _ => false
  end.
Definition LAC_CIPHER_IS_F8_MODE (algo : CpaCySymCipherAlgorithm) : bool :=
  LAC_CIPHER_IS_KASUMI algo || LAC_CIPHER_IS_AES_F8 algo.
Definition LAC_CIPHER_IS_CBC_MODE (algo : CpaCySymCipherAlgorithm) : bool :=
  match algo with
  | CPA_CY_SYM_CIPHER_AES_CBC | CPA_CY_SYM_CIPHER_DES_CBC | CPA_CY_SYM_CIPHER_3DES_CBC => true
  | _ => false
  end.

(** ** Sizes *)

Definition LAC_CIPHER_ARC4_BLOCK_LEN_BYTES := 8.
Definition LAC_CIPHER_ARC4_KEY_MATRIX_LEN_BYTES := 256.
Definition LAC_CIPHER_ARC4_STATE_LEN_BYTES := 264.
Definition LAC_CIPHER_KASUMI_F8_IV_LENGTH := 8.
Definition LAC_CIPHER_IV_SIZE_GCM_12 := 12.
Definition LAC_CIPHER_NULL_BLOCK_LEN_BYTES := 8.
Definition ICP_QAT_HW_DES_BLK_SZ := 8.
Definition ICP_QAT_HW_3DES_BLK_SZ := 8.
Definition ICP_QAT_HW_AES_BLK_SZ := 16.
Definition ICP_QAT_HW_KASUMI_BLK_SZ := 8.
Definition ICP_QAT_HW_SNOW_3G_BLK_SZ := 8.
Definition ICP_QAT_HW_ZUC_3G_BLK_SZ := 8.
Definition ICP_QAT_HW_DES_KEY_SZ := 8.
Definition ICP_QAT_HW_3DES_KEY_SZ := 24.
Definition ICP_QAT_HW_AES_128_KEY_SZ := 16.
Definition ICP_QAT_HW_AES_192_KEY_SZ := 24.
Definition ICP_QAT_HW_AES_256_KEY_SZ := 32.
Definition QAT_CIPHER_MODE_F8_KEY_SZ_MULT := 2.
Definition QAT_CIPHER_MODE_XTS_KEY_SZ_MULT := 2.
Definition ICP_QAT_HW_KASUMI_KEY_SZ := 16.
Definition ICP_QAT_HW_KASUMI_F8_KEY_SZ := ICP_QAT_HW_KASUMI_KEY_SZ * QAT_CIPHER_MODE_F8_KEY_SZ_MULT.
Definition ICP_QAT_HW_ARC4_KEY_SZ := 256.
Definition ICP_QAT_HW_SNOW_3G_UEA2_KEY_SZ := 16.
Definition ICP_QAT_HW_SNOW_3G_UEA2_IV_SZ := 16.
Definition ICP_QAT_HW_ZUC_3G_EEA3_KEY_SZ := 16.
Definition ICP_QAT_HW_ZUC_3G_EEA3_IV_SZ := 16.
Definition ICP_QAT_HW_MODE_F8_NUM_REG_TO_CLEAR := 2.

Definition LAC_BYTES_TO_QUADWORDS (x : Z) : Z := Z.shiftr x 3.
Definition LAC_QUADWORDS_TO_BYTES (x : Z) : Z := Z.shiftl x 3.

Definition LacSymQat_CipherBlockSizeBytesGet (cipherAlgorithm : CpaCySymCipherAlgorithm) : Z :=
  if LAC_CIPHER_IS_ARC4 cipherAlgorithm then LAC_CIPHER_ARC4_BLOCK_LEN_BYTES
  else if LAC_CIPHER_IS_AES cipherAlgorithm || LAC_CIPHER_IS_AES_F8 cipherAlgorithm
  then ICP_QAT_HW_AES_BLK_SZ
  else if LAC_CIPHER_IS_DES cipherAlgorithm then ICP_QAT_HW_DES_BLK_SZ
  else if LAC_CIPHER_IS_TRIPLE_DES cipherAlgorithm then ICP_QAT_HW_3DES_BLK_SZ
  else if LAC_CIPHER_IS_KASUMI cipherAlgorithm then ICP_QAT_HW_KASUMI_BLK_SZ
  else if LAC_CIPHER_IS_SNOW3G_UEA2 cipherAlgorithm then ICP_QAT_HW_SNOW_3G_BLK_SZ
  else if LAC_CIPHER_IS_ZUC_EEA3 cipherAlgorithm then ICP_QAT_HW_ZUC_3G_BLK_SZ
  else if LAC_CIPHER_IS_NULL cipherAlgorithm then LAC_CIPHER_NULL_BLOCK_LEN_BYTES
  else 0.

Definition LacSymQat_CipherIvSizeBytesGet (cipherAlgorithm : CpaCySymCipherAlgorithm) : Z :=
  if LAC_CIPHER_IS_ARC4 cipherAlgorithm then LAC_CIPHER_ARC4_STATE_LEN_BYTES
  else if LAC_CIPHER_IS_KASUMI cipherAlgorithm then ICP_QAT_HW_KASUMI_BLK_SZ
  else if LAC_CIPHER_IS_SNOW3G_UEA2 cipherAlgorithm then ICP_QAT_HW_SNOW_3G_UEA2_IV_SZ
  else if LAC_CIPHER_IS_ZUC_EEA3 cipherAlgorithm then ICP_QAT_HW_ZUC_3G_EEA3_IV_SZ
  else if LAC_CIPHER_IS_ECB_MODE cipherAlgorithm then 0
  else LacSymQat_CipherBlockSizeBytesGet cipherAlgorithm.

(** The key and state sizes of the control block, in quad-words. *)
Definition LacSymQat_CipherCtrlBlockWrite (cipherAlgorithm : CpaCySymCipherAlgorithm)
    (targetKeyLenInBytes : Z) : Z * Z * Z :=
  let '(cipher_key_sz, cipher_padding_sz) :=
    if LAC_CIPHER_IS_ARC4 cipherAlgorithm || LAC_CIPHER_IS_NULL cipherAlgorithm then (0, 0)
    else if LAC_CIPHER_IS_KASUMI cipherAlgorithm then
      (LAC_BYTES_TO_QUADWORDS ICP_QAT_HW_KASUMI_F8_KEY_SZ, ICP_QAT_HW_MODE_F8_NUM_REG_TO_CLEAR)
    else if LAC_CIPHER_IS_SNOW3G_UEA2 cipherAlgorithm then
      (LAC_BYTES_TO_QUADWORDS (ICP_QAT_HW_SNOW_3G_UEA2_KEY_SZ + ICP_QAT_HW_SNOW_3G_UEA2_IV_SZ), 0)
    else if LAC_CIPHER_IS_AES_F8 cipherAlgorithm then
      (LAC_BYTES_TO_QUADWORDS targetKeyLenInBytes, 2 * ICP_QAT_HW_MODE_F8_NUM_REG_TO_CLEAR)
    else if LAC_CIPHER_IS_ZUC_EEA3 cipherAlgorithm then
      (LAC_BYTES_TO_QUADWORDS (ICP_QAT_HW_ZUC_3G_EEA3_KEY_SZ + ICP_QAT_HW_ZUC_3G_EEA3_IV_SZ), 0)
    else (LAC_BYTES_TO_QUADWORDS targetKeyLenInBytes, 0) in
  (u8 cipher_key_sz, u8 cipher_padding_sz,
   u8 (LAC_BYTES_TO_QUADWORDS (LacSymQat_CipherIvSizeBytesGet cipherAlgorithm))).

(** ** Checks *)

Record CpaCySymCipherSetupData := CipherSetupData {
  cipherAlgorithm : CpaCySymCipherAlgorithm;
  cipherKeyLenInBytes : Z;
  pCipherKey : Z;
}.

Definition LacCipher_SessionSetupDataCheck (d : CpaCySymCipherSetupData) : Z :=
  let alg := cipherAlgorithm d in
  let len := cipherKeyLenInBytes d in
  let unless (bad : bool) := if bad then CPA_STATUS_INVALID_PARAM else CPA_STATUS_SUCCESS in
  if LAC_CIPHER_IS_NULL alg then CPA_STATUS_SUCCESS else
  if pCipherKey d =? 0 then CPA_STATUS_INVALID_PARAM else
  if LAC_CIPHER_IS_ARC4 alg then unless (ICP_QAT_HW_ARC4_KEY_SZ <? len)
  else if LAC_CIPHER_IS_CCM alg then unless (negb (len =? ICP_QAT_HW_AES_128_KEY_SZ))
  else if LAC_CIPHER_IS_XTS_MODE alg then
    unless (negb (len =? ICP_QAT_HW_AES_128_KEY_SZ * QAT_CIPHER_MODE_XTS_KEY_SZ_MULT)
            && negb (len =? ICP_QAT_HW_AES_256_KEY_SZ * QAT_CIPHER_MODE_XTS_KEY_SZ_MULT))
  else if LAC_CIPHER_IS_AES alg then
    unless (negb (len =? ICP_QAT_HW_AES_128_KEY_SZ) && negb (len =? ICP_QAT_HW_AES_192_KEY_SZ)
            && negb (len =? ICP_QAT_HW_AES_256_KEY_SZ))
  else if LAC_CIPHER_IS_AES_F8 alg then
    unless (negb (len =? ICP_QAT_HW_AES_128_KEY_SZ * QAT_CIPHER_MODE_F8_KEY_SZ_MULT)
            && negb (len =? ICP_QAT_HW_AES_192_KEY_SZ * QAT_CIPHER_MODE_F8_KEY_SZ_MULT)
            && negb (len =? ICP_QAT_HW_AES_256_KEY_SZ * QAT_CIPHER_MODE_F8_KEY_SZ_MULT))
  else if LAC_CIPHER_IS_DES alg then unless (negb (len =? ICP_QAT_HW_DES_KEY_SZ))
  else if LAC_CIPHER_IS_TRIPLE_DES alg then unless (negb (len =? ICP_QAT_HW_3DES_KEY_SZ))
  else if LAC_CIPHER_IS_KASUMI alg then unless (negb (len =? ICP_QAT_HW_KASUMI_KEY_SZ))
  else if LAC_CIPHER_IS_SNOW3G_UEA2 alg then unless (negb (len =? ICP_QAT_HW_SNOW_3G_UEA2_KEY_SZ))
  else if LAC_CIPHER_IS_ZUC_EEA3 alg then unless (negb (len =? ICP_QAT_HW_ZUC_3G_EEA3_KEY_SZ))
  else CPA_STATUS_INVALID_PARAM.

(** The fields of a request that the cipher code reads; pointers are addresses,
    0 for NULL. *)
Record CpaCySymOpData := OpData {
  packetType : CpaCySymPacketType;
  pIv : Z;
  ivLenInBytes : Z;
  cryptoStartSrcOffsetInBytes : Z;
  messageLenToCipherInBytes : Z;
  pDigestResult : Z;
}.

Definition LacCipher_PerformParamCheck (algorithm : CpaCySymCipherAlgorithm)
    (pOpData : CpaCySymOpData) (packetLen : Z) : Z :=
  let len := messageLenToCipherInBytes pOpData in
  if packetLen <? u32 (len + cryptoStartSrcOffsetInBytes pOpData) then CPA_STATUS_INVALID_PARAM else
  if LAC_CIPHER_IS_XTS_MODE algorithm &&
     (bool_decide (packetType pOpData = CPA_CY_SYM_PACKET_TYPE_FULL)
      || bool_decide (packetType pOpData = CPA_CY_SYM_PACKET_TYPE_LAST_PARTIAL)) then
    if len <? ICP_QAT_HW_AES_BLK_SZ then CPA_STATUS_INVALID_PARAM else CPA_STATUS_SUCCESS
  else if negb (LAC_CIPHER_IS_ARC4 algorithm || LAC_CIPHER_IS_CTR_MODE algorithm
                || LAC_CIPHER_IS_F8_MODE algorithm || LAC_CIPHER_IS_SNOW3G_UEA2 algorithm
                || LAC_CIPHER_IS_XTS_MODE algorithm || LAC_CIPHER_IS_ZUC_EEA3 algorithm) then
    if negb (len .& (LacSymQat_CipherBlockSizeBytesGet algorithm - 1) =? 0)
    then CPA_STATUS_INVALID_PARAM else CPA_STATUS_SUCCESS
  else CPA_STATUS_SUCCESS.

(** ** Partial packets *)

Definition LacSym_PartialPacketStateCheck (packetType partialState : CpaCySymPacketType) : Z :=
  if (bool_decide (CPA_CY_SYM_PACKET_TYPE_FULL = partialState)
      && bool_decide (CPA_CY_SYM_PACKET_TYPE_PARTIAL = packetType))
     || (bool_decide (CPA_CY_SYM_PACKET_TYPE_PARTIAL = partialState)
         && (bool_decide (CPA_CY_SYM_PACKET_TYPE_PARTIAL = packetType)
             || bool_decide (CPA_CY_SYM_PACKET_TYPE_LAST_PARTIAL = packetType)))
  then CPA_STATUS_SUCCESS else CPA_STATUS_INVALID_PARAM.

Definition LacSym_PartialPacketStateUpdate (packetType partialState : CpaCySymPacketType)
    : CpaCySymPacketType :=
  if bool_decide (CPA_CY_SYM_PACKET_TYPE_FULL = partialState) then CPA_CY_SYM_PACKET_TYPE_PARTIAL
  else if bool_decide (CPA_CY_SYM_PACKET_TYPE_LAST_PARTIAL = packetType)
  then CPA_CY_SYM_PACKET_TYPE_FULL else partialState.

Definition ICP_QAT_FW_LA_PARTIAL_NONE := 0.
Definition ICP_QAT_FW_LA_PARTIAL_START := 1.
Definition ICP_QAT_FW_LA_PARTIAL_MID := 3.
Definition ICP_QAT_FW_LA_PARTIAL_END := 2.

Definition LacSymQat_packetTypeGet (packetType packetState : CpaCySymPacketType) : Z :=
  match packetType with
  | CPA_CY_SYM_PACKET_TYPE_PARTIAL =>
    if bool_decide (CPA_CY_SYM_PACKET_TYPE_FULL = packetState)
    then ICP_QAT_FW_LA_PARTIAL_START else ICP_QAT_FW_LA_PARTIAL_MID
  | CPA_CY_SYM_PACKET_TYPE_LAST_PARTIAL => ICP_QAT_FW_LA_PARTIAL_END
  | CPA_CY_SYM_PACKET_TYPE_FULL => ICP_QAT_FW_LA_PARTIAL_NONE
  end.

(** ** Command flags *)

(** On a 16-bit word. *)
Definition QAT_FIELD_SET (flags val bitpos mask : Z) : Z :=
  u16 (clear flags (Z.shiftl mask bitpos) .| Z.shiftl (val .& mask) bitpos).
Definition QAT_FIELD_GET (flags bitpos mask : Z) : Z := Z.shiftr flags bitpos .& mask.

Definition ICP_QAT_FW_LA_PARTIAL_SET flags val := QAT_FIELD_SET flags val 0 0x3.
Definition ICP_QAT_FW_LA_PARTIAL_GET flags := QAT_FIELD_GET flags 0 0x3.
Definition ICP_QAT_FW_LA_CIPH_IV_FLD_FLAG_SET flags val := QAT_FIELD_SET flags val 2 0x1.
Definition ICP_QAT_FW_LA_CIPH_IV_FLD_FLAG_GET flags := QAT_FIELD_GET flags 2 0x1.
Definition ICP_QAT_FW_LA_UPDATE_STATE_SET flags val := QAT_FIELD_SET flags val 4 0x1.
Definition ICP_QAT_FW_LA_UPDATE_STATE_GET flags := QAT_FIELD_GET flags 4 0x1.
Definition ICP_QAT_FW_LA_RET_AUTH_SET flags val := QAT_FIELD_SET flags val 5 0x1.
Definition ICP_QAT_FW_LA_CMP_AUTH_SET flags val := QAT_FIELD_SET flags val 6 0x1.
Definition ICP_QAT_FW_LA_GCM_IV_LEN_FLAG_SET flags val := QAT_FIELD_SET flags val 11 0x1.

Definition ICP_QAT_FW_LA_NO_UPDATE_STATE := 0.
Definition ICP_QAT_FW_LA_UPDATE_STATE := 1.
Definition ICP_QAT_FW_LA_NO_RET_AUTH_RES := 0.
Definition ICP_QAT_FW_LA_RET_AUTH_RES := 1.
Definition ICP_QAT_FW_LA_NO_CMP_AUTH_RES := 0.
Definition ICP_QAT_FW_LA_GCM_IV_LEN_12_OCTETS := 1.
Definition ICP_QAT_FW_LA_GCM_IV_LEN_NOT_12_OCTETS := 0.
Definition ICP_QAT_FW_CIPH_IV_64BIT_PTR := 0.
Definition ICP_QAT_FW_CIPH_IV_16BYTE_DATA := 1.
Definition ICP_QAT_FW_LA_CMD_CIPHER := 0.
Definition ICP_QAT_FW_LA_CMD_AUTH := 1.

Definition LacSymQat_LaSetDefaultFlags (laCmdFlags : Z) (symOp : CpaCySymOp) : Z :=
  let f := ICP_QAT_FW_LA_PARTIAL_SET laCmdFlags ICP_QAT_FW_LA_PARTIAL_NONE in
  let f := ICP_QAT_FW_LA_UPDATE_STATE_SET f ICP_QAT_FW_LA_NO_UPDATE_STATE in
  let f := ICP_QAT_FW_LA_RET_AUTH_SET f
    (if negb (bool_decide (symOp = CPA_CY_SYM_OP_CIPHER))
     then ICP_QAT_FW_LA_RET_AUTH_RES else ICP_QAT_FW_LA_NO_RET_AUTH_RES) in
  let f := ICP_QAT_FW_LA_CMP_AUTH_SET f ICP_QAT_FW_LA_NO_CMP_AUTH_RES in
  ICP_QAT_FW_LA_GCM_IV_LEN_FLAG_SET f ICP_QAT_FW_LA_GCM_IV_LEN_NOT_12_OCTETS.

Definition LacSymQat_LaPacketCommandFlagSet (qatPacketType laCmdId : Z)
    (cipherAlgorithm : CpaCySymCipherAlgorithm) (laCommandFlags ivLenInBytes : Z) : Z :=
  let f := ICP_QAT_FW_LA_PARTIAL_SET laCommandFlags qatPacketType in
  let f :=
    if (negb (laCmdId =? ICP_QAT_FW_LA_CMD_AUTH) && LAC_CIPHER_IS_ECB_MODE cipherAlgorithm)
       || (ICP_QAT_FW_LA_PARTIAL_NONE =? qatPacketType)
       || (ICP_QAT_FW_LA_PARTIAL_END =? qatPacketType)
    then ICP_QAT_FW_LA_UPDATE_STATE_SET f ICP_QAT_FW_LA_NO_UPDATE_STATE
    else
      let f := ICP_QAT_FW_LA_UPDATE_STATE_SET f ICP_QAT_FW_LA_UPDATE_STATE in
      if laCmdId =? ICP_QAT_FW_LA_CMD_AUTH then
        ICP_QAT_FW_LA_CMP_AUTH_SET (ICP_QAT_FW_LA_RET_AUTH_SET f ICP_QAT_FW_LA_NO_RET_AUTH_RES)
          ICP_QAT_FW_LA_NO_CMP_AUTH_RES
      else f in
  if LAC_CIPHER_IS_GCM cipherAlgorithm && (LAC_CIPHER_IV_SIZE_GCM_12 =? ivLenInBytes)
  then ICP_QAT_FW_LA_GCM_IV_LEN_FLAG_SET f ICP_QAT_FW_LA_GCM_IV_LEN_12_OCTETS else f.

(** ** The ARC4 key schedule *)

(** The second [for] loop, with [n] rounds left; [None] reads past the key. *)
Fixpoint arc4_loop (n : nat) (pKey : list Z) (keyLenInBytes i j k : Z) (st : list Z)
    : option (list Z) :=
  match n with
  | O => Some st
  | S n =>
    let k := if keyLenInBytes <=? k then u32 (k - keyLenInBytes) else k in
    s_i ← st !! Z.to_nat i;
    key_k ← pKey !! Z.to_nat k;
    let j := u32 (j + s_i + key_k) in
    let j := if LAC_CIPHER_ARC4_KEY_MATRIX_LEN_BYTES <=? j
             then j mod LAC_CIPHER_ARC4_KEY_MATRIX_LEN_BYTES else j in
    s_j ← st !! Z.to_nat j;
    arc4_loop n pKey keyLenInBytes (i + 1) j (u32 (k + 1))
      (<[Z.to_nat j := s_i]> (<[Z.to_nat i := s_j]> st))
  end.

(** The 264 bytes of the state; the last six are not written. *)
Definition LacSymQat_CipherArc4StateInit (pKey : list Z) (keyLenInBytes : Z)
    (pArc4CipherState : list Z) : option (list Z) :=
  let st := u8 <$> seqZ 0 LAC_CIPHER_ARC4_KEY_MATRIX_LEN_BYTES in
  if decide (length pArc4CipherState < 258)%nat then None else
  st ← arc4_loop 256 pKey keyLenInBytes 0 0 0
         (st ++ drop 256 pArc4CipherState);
  Some (<[257%nat := 0]> (<[256%nat := 0]> st)).
(** ** Fields of the flags word *)

Create Rewrite HintDb la_flags.

Lemma field_get_set f v p w :
  0 <= p → 0 <= w → p + w <= 16 →
  QAT_FIELD_GET (QAT_FIELD_SET f v p (Z.ones w)) p (Z.ones w) = v .& Z.ones w.
Proof.
  intros. unfold QAT_FIELD_GET, QAT_FIELD_SET. zbits.
  replace (i + p - p) with i by lia. by destruct (Z.testbit v i).
Qed.

Lemma field_get_other f v p w p' w' :
  0 <= p → 0 <= w → 0 <= p' → 0 <= w' → p' + w' <= 16 → p' + w' <= p ∨ p + w <= p' →
  QAT_FIELD_GET (QAT_FIELD_SET f v p (Z.ones w)) p' (Z.ones w') = QAT_FIELD_GET f p' (Z.ones w').
Proof.
  intros. unfold QAT_FIELD_GET, QAT_FIELD_SET. zbits.
Qed.

Lemma field_set_range f v p m : 0 <= QAT_FIELD_SET f v p m < 2 ^ 16.
Proof. apply wrap_range. lia. Qed.

(** The fields the model reads, after each of the updates. *)
Section la_flags.
Local Ltac other p w p' w' := intros; apply (field_get_other _ _ p w p' w'); lia.

Lemma partial_get_set f v : 0 <= v < 4 → ICP_QAT_FW_LA_PARTIAL_GET (ICP_QAT_FW_LA_PARTIAL_SET f v) = v.
Proof.
  intros. etransitivity; [apply (field_get_set f v 0 2); lia|].
  rewrite Z.land_ones by lia. by apply Z.mod_small.
Qed.
Lemma partial_get_update f v :
  ICP_QAT_FW_LA_PARTIAL_GET (ICP_QAT_FW_LA_UPDATE_STATE_SET f v) = ICP_QAT_FW_LA_PARTIAL_GET f.
Proof. other 4 1 0 2. Qed.
Lemma partial_get_iv_fld f v :
  ICP_QAT_FW_LA_PARTIAL_GET (ICP_QAT_FW_LA_CIPH_IV_FLD_FLAG_SET f v) = ICP_QAT_FW_LA_PARTIAL_GET f.
Proof. other 2 1 0 2. Qed.
Lemma partial_get_gcm f v :
  ICP_QAT_FW_LA_PARTIAL_GET (ICP_QAT_FW_LA_GCM_IV_LEN_FLAG_SET f v) = ICP_QAT_FW_LA_PARTIAL_GET f.
Proof. other 11 1 0 2. Qed.

Lemma bit_get_set f v p : 0 <= p < 16 → 0 <= v < 2 → QAT_FIELD_GET (QAT_FIELD_SET f v p 0x1) p 0x1 = v.
Proof.
  intros. etransitivity; [apply (field_get_set f v p 1); lia|].
  rewrite Z.land_ones by lia. by apply Z.mod_small.
Qed.
Lemma update_get_set f v :
  0 <= v < 2 → ICP_QAT_FW_LA_UPDATE_STATE_GET (ICP_QAT_FW_LA_UPDATE_STATE_SET f v) = v.
Proof. by apply bit_get_set. Qed.
Lemma update_get_iv_fld f v :
  ICP_QAT_FW_LA_UPDATE_STATE_GET (ICP_QAT_FW_LA_CIPH_IV_FLD_FLAG_SET f v) = ICP_QAT_FW_LA_UPDATE_STATE_GET f.
Proof. other 2 1 4 1. Qed.
Lemma update_get_gcm f v :
  ICP_QAT_FW_LA_UPDATE_STATE_GET (ICP_QAT_FW_LA_GCM_IV_LEN_FLAG_SET f v) = ICP_QAT_FW_LA_UPDATE_STATE_GET f.
Proof. other 11 1 4 1. Qed.
Lemma iv_fld_get_set f v :
  0 <= v < 2 → ICP_QAT_FW_LA_CIPH_IV_FLD_FLAG_GET (ICP_QAT_FW_LA_CIPH_IV_FLD_FLAG_SET f v) = v.
Proof. by apply bit_get_set. Qed.
End la_flags.

#[export] Hint Rewrite partial_get_update partial_get_iv_fld partial_get_gcm
  update_get_iv_fld update_get_gcm : la_flags.
#[export] Hint Rewrite partial_get_set update_get_set iv_fld_get_set using lia : la_flags.

Lemma packet_flags packetType partialState alg flags ivLen :
  let t := LacSymQat_packetTypeGet packetType partialState in
  let f := LacSymQat_LaPacketCommandFlagSet t ICP_QAT_FW_LA_CMD_CIPHER alg flags ivLen in
  ICP_QAT_FW_LA_PARTIAL_GET f = t ∧
  ICP_QAT_FW_LA_UPDATE_STATE_GET f =
    (if bool_decide (packetType = CPA_CY_SYM_PACKET_TYPE_PARTIAL) && negb (LAC_CIPHER_IS_ECB_MODE alg)
     then ICP_QAT_FW_LA_UPDATE_STATE else ICP_QAT_FW_LA_NO_UPDATE_STATE).
Proof.
  unfold LacSymQat_LaPacketCommandFlagSet, LacSymQat_packetTypeGet, ICP_QAT_FW_LA_UPDATE_STATE,
    ICP_QAT_FW_LA_NO_UPDATE_STATE, ICP_QAT_FW_LA_PARTIAL_NONE, ICP_QAT_FW_LA_PARTIAL_START,
    ICP_QAT_FW_LA_PARTIAL_MID, ICP_QAT_FW_LA_PARTIAL_END.
  destruct packetType, (bool_decide (CPA_CY_SYM_PACKET_TYPE_FULL = partialState)),
    (LAC_CIPHER_IS_ECB_MODE alg), (LAC_CIPHER_IS_GCM alg && (LAC_CIPHER_IV_SIZE_GCM_12 =? ivLen));
    cbn -[ICP_QAT_FW_LA_PARTIAL_GET ICP_QAT_FW_LA_PARTIAL_SET ICP_QAT_FW_LA_UPDATE_STATE_SET
          ICP_QAT_FW_LA_UPDATE_STATE_GET ICP_QAT_FW_LA_GCM_IV_LEN_FLAG_SET];
    by autorewrite with la_flags.
Qed.

(** The command flags of a request carry its packet type, and the firmware
    is asked to write the state back exactly for the first and the middle
    packets of a stream of a cipher that has a state. *)
Theorem LacSymQat_LaPacketCommandFlagSet_correct packetType partialState alg flags ivLen :
  let t := LacSymQat_packetTypeGet packetType partialState in
  let f := LacSymQat_LaPacketCommandFlagSet t ICP_QAT_FW_LA_CMD_CIPHER alg flags ivLen in
  ICP_QAT_FW_LA_PARTIAL_GET f = t ∧
  ICP_QAT_FW_LA_UPDATE_STATE_GET f =
    (if bool_decide (packetType = CPA_CY_SYM_PACKET_TYPE_PARTIAL) && negb (LAC_CIPHER_IS_ECB_MODE alg)
     then ICP_QAT_FW_LA_UPDATE_STATE else ICP_QAT_FW_LA_NO_UPDATE_STATE).
Proof. apply packet_flags. Qed.

(** ** ARC4's key schedule against its textbook definition *)

Definition swap (i j : nat) (s : list Z) : list Z := <[j := s !!! i]> (<[i := s !!! j]> s).

(** A round of the schedule on the permutation and its index [j]. *)
Definition ksa_round (key : list Z) (acc : list Z * Z) (i : nat) : list Z * Z :=
  let j := (acc.2 + acc.1 !!! i + key !!! (i `mod` length key)%nat) mod 256 in
  (swap i (Z.to_nat j) acc.1, j).
Definition ksa (key : list Z) : list Z :=
  (foldl (ksa_round key) (seqZ 0 256, 0) (seq 0 256)).1.

Lemma swap_Permutation i j s : (i < length s)%nat → (j < length s)%nat → swap i j s ≡ₚ s.
Proof.
  intros Hi Hj. unfold swap.
  apply Permutation_insert_swap; by apply list_lookup_lookup_total_lt.
Qed.

Lemma bytes_permutation s : s ≡ₚ seqZ 0 256 → length s = 256%nat ∧ bytes_ok s.
Proof.
  intros Hs. split; [by rewrite Hs|]. rewrite Hs. apply Forall_forall. intros x Hx%elem_of_seqZ.
  unfold byte_ok. lia.
Qed.

Lemma swap_app i j s t :
  (i < length s)%nat → (j < length s)%nat →
  <[j := s !!! i]> (<[i := s !!! j]> (s ++ t)) = swap i j s ++ t.
Proof. intros. rewrite insert_app_l, insert_app_l by (rewrite ?length_insert; lia). done. Qed.

Lemma arc4_loop_spec key t : bytes_ok key → (0 < length key)%nat → Z.of_nat (length key) < 2 ^ 31 →
  ∀ n i s j k,
  s ≡ₚ seqZ 0 256 → 0 <= j < 256 → (i + n = 256)%nat →
  k = Z.of_nat (i `mod` length key) ∨ (k = Z.of_nat (length key) ∧ (i `mod` length key = 0)%nat) →
  arc4_loop n key (Z.of_nat (length key)) (Z.of_nat i) j k (s ++ t) =
    Some ((foldl (ksa_round key) (s, j) (seq i n)).1 ++ t) ∧
  (foldl (ksa_round key) (s, j) (seq i n)).1 ≡ₚ seqZ 0 256.
Proof.
  intros Hkey Hlen Hmax. induction n as [|n IH]; intros i s j k Hs Hj Hin Hk; [done|].
  destruct (bytes_permutation s Hs) as [Hl Hb].
  pose proof (Nat.mod_upper_bound i (length key) ltac:(lia)) as Hmod.
  set (k1 := if Z.of_nat (length key) <=? k then u32 (k - Z.of_nat (length key)) else k).
  assert (k1 = Z.of_nat (i `mod` length key)) as Ek.
  { unfold k1. destruct Hk as [->|[-> E]].
    - rewrite (proj2 (Z.leb_gt _ _)) by lia. done.
    - rewrite (proj2 (Z.leb_le _ _)), E by lia. by rewrite Z.sub_diag. }
  cbn [arc4_loop seq foldl]. fold k1. rewrite Ek, !Nat2Z.id.
  rewrite lookup_app_l by lia. rewrite (list_lookup_lookup_total_lt s i) by lia.
  rewrite (list_lookup_lookup_total_lt key) by lia. cbn [mbind option_bind].
  assert (∀ l m, bytes_ok l → (m < length l)%nat → 0 <= l !!! m < 256) as Hbyte.
  { intros l m Hok Hm. apply (Forall_lookup_1 _ _ m (l !!! m) Hok).
    by apply list_lookup_lookup_total_lt. }
  pose proof (Hbyte s i Hb ltac:(lia)). pose proof (Hbyte key (i `mod` length key)%nat Hkey ltac:(lia)).
  rewrite (wrap_small 32) by lia. set (x := j + _ + _) in *.
  assert ((if LAC_CIPHER_ARC4_KEY_MATRIX_LEN_BYTES <=? x
           then x mod LAC_CIPHER_ARC4_KEY_MATRIX_LEN_BYTES else x) = x mod 256) as ->.
  { unfold LAC_CIPHER_ARC4_KEY_MATRIX_LEN_BYTES. destruct (Z.leb_spec 256 x); [done|].
    rewrite Z.mod_small; lia. }
  pose proof (Z.mod_pos_bound x 256). rewrite lookup_app_l by lia.
  rewrite (list_lookup_lookup_total_lt s (Z.to_nat (x mod 256))) by lia.
  cbn [mbind option_bind]. rewrite swap_app by lia.
  replace (Z.of_nat i + 1) with (Z.of_nat (S i)) by lia.
  rewrite (wrap_small 32) by lia.
  change (ksa_round key (s, j) i) with (swap i (Z.to_nat (x mod 256)) s, x mod 256).
  apply IH; [by rewrite swap_Permutation by lia|lia..|].
  destruct (decide (S (i `mod` length key) = length key)) as [E|E].
  - right. split; [lia|]. rewrite <- Nat.add_1_l, Nat.Div0.add_mod.
    destruct (decide (length key = 1%nat)) as [E1|]; [by rewrite E1, !Nat.mod_1_r|].
    rewrite (Nat.mod_small 1) by lia. replace (1 + _)%nat with (length key) by lia.
    apply Nat.Div0.mod_same.
  - left. rewrite <- Nat.add_1_l, Nat.Div0.add_mod, (Nat.mod_small 1) by lia.
    rewrite (Nat.mod_small (1 + _)) by lia. lia.
Qed.

Lemma arc4_ksa key t : bytes_ok key → (0 < length key)%nat → Z.of_nat (length key) < 2 ^ 31 →
  arc4_loop 256 key (Z.of_nat (length key)) 0 0 0 (seqZ 0 256 ++ t) = Some (ksa key ++ t) ∧
  ksa key ≡ₚ seqZ 0 256.
Proof.
  intros Hkey Hlen Hmax. unfold ksa.
  apply (arc4_loop_spec key t Hkey Hlen Hmax 256 0 (seqZ 0 256) 0 0); [done|lia|done|].
  left. by rewrite Nat.Div0.mod_0_l.
Qed.

(** [LacSymQat_CipherArc4StateInit] computes the ARC4 key schedule, a
    permutation of the bytes, followed by the two indices, both zero; it leaves
    the padding of the state alone and reads no byte outside the key. *)
Theorem LacSymQat_CipherArc4StateInit_correct key state :
  bytes_ok key → 0 < Z.of_nat (length key) <= ICP_QAT_HW_ARC4_KEY_SZ →
  length state = Z.to_nat LAC_CIPHER_ARC4_STATE_LEN_BYTES →
  LacSymQat_CipherArc4StateInit key (Z.of_nat (length key)) state =
    Some (ksa key ++ [0; 0] ++ drop 258 state) ∧
  ksa key ≡ₚ seqZ 0 256.
Proof.
  intros Hkey Hlen Hstate. unfold ICP_QAT_HW_ARC4_KEY_SZ in Hlen. change (length state = 264%nat) in Hstate.
  destruct (arc4_ksa key (drop 256 state) Hkey ltac:(lia) ltac:(lia)) as [E Hp].
  split; [|done]. unfold LacSymQat_CipherArc4StateInit.
  destruct (decide _) as [|_]; [lia|].
  change (u8 <$> seqZ 0 LAC_CIPHER_ARC4_KEY_MATRIX_LEN_BYTES) with (seqZ 0 256). rewrite E.
  cbn [mbind option_bind]. f_equal.
  assert (length (ksa key) = 256%nat) as Hk by (by rewrite Hp).
  destruct (drop 256 state) as [|a [|b tl]] eqn:Ed;
    [apply (f_equal length) in Ed; rewrite length_drop in Ed; cbn in Ed; lia..|].
  replace (drop 258 state) with tl by (change 258%nat with (256 + 2)%nat; by rewrite <- drop_drop, Ed).
  by rewrite !insert_app_r_alt, !Hk by lia.
Qed.

Lemma LacSymQat_CipherArc4StateInit_correct_witness :
  LacSymQat_CipherArc4StateInit [75; 101; 121] 3 (replicate 264 7) =
    Some (ksa [75; 101; 121] ++ [0; 0; 7; 7; 7; 7; 7; 7]) ∧ ksa [75; 101; 121] ≡ₚ seqZ 0 256.
Proof.
  apply (LacSymQat_CipherArc4StateInit_correct [75; 101; 121] (replicate 264 7));
    [repeat constructor; unfold byte_ok; lia|unfold ICP_QAT_HW_ARC4_KEY_SZ; simpl; lia|done].
Defined.

(** A key length of 0 is accepted for ARC4, and the schedule then reads 256
    bytes wherever the key pointer points. *)
Lemma arc4_empty_key p state :
  p ≠ 0 → length state = 264%nat →
  LacCipher_SessionSetupDataCheck (CipherSetupData CPA_CY_SYM_CIPHER_ARC4 0 p) = CPA_STATUS_SUCCESS ∧
  LacSymQat_CipherArc4StateInit [] 0 state = None.
Proof.
  intros Hp Hl. unfold LacCipher_SessionSetupDataCheck. cbn [cipherAlgorithm cipherKeyLenInBytes pCipherKey].
  rewrite (proj2 (Z.eqb_neq p 0)) by done. split; [done|].
  unfold LacSymQat_CipherArc4StateInit. rewrite Hl. cbn [decide]. done.
Qed.

(** ** The check of a request *)

(** The modes that cipher whole blocks only. *)
Definition block_mode (alg : CpaCySymCipherAlgorithm) : bool :=
  LAC_CIPHER_IS_CBC_MODE alg ||
  match alg with
  | CPA_CY_SYM_CIPHER_NULL | CPA_CY_SYM_CIPHER_AES_ECB | CPA_CY_SYM_CIPHER_DES_ECB
  | CPA_CY_SYM_CIPHER_3DES_ECB => true
  | _ => false
  end.

Definition needs_block (alg : CpaCySymCipherAlgorithm) (t : CpaCySymPacketType) : bool :=
  LAC_CIPHER_IS_XTS_MODE alg && negb (bool_decide (t = CPA_CY_SYM_PACKET_TYPE_PARTIAL)).

(** What the check demands of lengths, besides the region lying in the packet. *)
Definition length_ok (alg : CpaCySymCipherAlgorithm) (t : CpaCySymPacketType) (len : Z) : Prop :=
  (needs_block alg t → ICP_QAT_HW_AES_BLK_SZ <= len) ∧
  (block_mode alg → len mod LacSymQat_CipherBlockSizeBytesGet alg = 0).

Lemma param_check_lengths alg op packetLen :
  u32 (messageLenToCipherInBytes op + cryptoStartSrcOffsetInBytes op) <= packetLen →
  LacCipher_PerformParamCheck alg op packetLen = CPA_STATUS_SUCCESS ↔
    length_ok alg (packetType op) (messageLenToCipherInBytes op).
Proof.
  intros Hin. unfold LacCipher_PerformParamCheck, length_ok. rewrite (proj2 (Z.ltb_ge _ _)) by done.
  set (len := messageLenToCipherInBytes op).
  assert (∀ n, 0 <= n → len .& (2 ^ n - 1) = len mod 2 ^ n) as Hmask.
  { intros n Hn. rewrite Z.sub_1_r, <- Z.ones_equiv. by apply Z.land_ones. }
  pose proof (Hmask 3 ltac:(lia)) as H8. pose proof (Hmask 4 ltac:(lia)) as H16.
  change (2 ^ 3) with 8 in H8. change (2 ^ 4) with 16 in H16.
  change (8 - 1) with 7 in H8. change (16 - 1) with 15 in H16. clearbody len.
  destruct alg; destruct (packetType op); cbv -[Z.land Z.modulo Z.ltb Z.eqb Z.le iff]; rewrite ?H8, ?H16;
    try (destruct (Z.ltb_spec len 16)); try (destruct (Z.eqb_spec (len mod 8) 0));
    try (destruct (Z.eqb_spec (len mod 16) 0)); intuition lia.
Qed.

(** [LacCipher_PerformParamCheck] accepts a request exactly when the region
    to cipher lies in the packet and its length suits the algorithm -- as long
    as the end of the region fits 32 bits. *)
Theorem LacCipher_PerformParamCheck_correct alg op packetLen :
  0 <= messageLenToCipherInBytes op → 0 <= cryptoStartSrcOffsetInBytes op →
  messageLenToCipherInBytes op + cryptoStartSrcOffsetInBytes op < 2 ^ 32 →
  LacCipher_PerformParamCheck alg op packetLen = CPA_STATUS_SUCCESS ↔
    cryptoStartSrcOffsetInBytes op + messageLenToCipherInBytes op <= packetLen ∧
    length_ok alg (packetType op) (messageLenToCipherInBytes op).
Proof.
  intros Hl Ho Hsum. destruct (Z.leb_spec (cryptoStartSrcOffsetInBytes op + messageLenToCipherInBytes op) packetLen)
    as [Hin|Hout].
  - rewrite param_check_lengths by (rewrite (wrap_small 32); lia). naive_solver.
  - unfold LacCipher_PerformParamCheck. rewrite (wrap_small 32), (proj2 (Z.ltb_lt _ _)) by lia.
    split; [done|lia].
Qed.

Lemma LacCipher_PerformParamCheck_correct_witness :
  let op := OpData CPA_CY_SYM_PACKET_TYPE_FULL 0x1000 16 8 32 0 in
  LacCipher_PerformParamCheck CPA_CY_SYM_CIPHER_AES_CBC op 40 = CPA_STATUS_SUCCESS ↔
    8 + 32 <= 40 ∧ length_ok CPA_CY_SYM_CIPHER_AES_CBC CPA_CY_SYM_PACKET_TYPE_FULL 32.
Proof.
  apply (LacCipher_PerformParamCheck_correct CPA_CY_SYM_CIPHER_AES_CBC
           (OpData CPA_CY_SYM_PACKET_TYPE_FULL 0x1000 16 8 32 0) 40); simpl; lia.
Defined.

(** The end of the region is computed in 32 bits although the packet length
    has 64: for a length and an offset whose sum wraps, the check accepts a
    region that leaves the packet, by up to 4 GB. *)
Theorem LacCipher_PerformParamCheck_wraps alg op packetLen :
  0 <= messageLenToCipherInBytes op < 2 ^ 32 → 0 <= cryptoStartSrcOffsetInBytes op < 2 ^ 32 →
  2 ^ 32 <= messageLenToCipherInBytes op + cryptoStartSrcOffsetInBytes op <= 2 ^ 32 + packetLen →
  length_ok alg (packetType op) (messageLenToCipherInBytes op) →
  LacCipher_PerformParamCheck alg op packetLen = CPA_STATUS_SUCCESS.
Proof.
  intros Hl Ho Hsum Hok. apply param_check_lengths; [|done].
  unfold wrap. rewrite <- (Z.mod_unique _ (2 ^ 32) 1 (messageLenToCipherInBytes op + cryptoStartSrcOffsetInBytes op - 2 ^ 32)); lia.
Qed.

Lemma LacCipher_PerformParamCheck_wraps_witness :
  LacCipher_PerformParamCheck CPA_CY_SYM_CIPHER_AES_CTR
    (OpData CPA_CY_SYM_PACKET_TYPE_FULL 0x1000 16 64 (2 ^ 32 - 32) 0) 32 = CPA_STATUS_SUCCESS.
Proof.
  apply (LacCipher_PerformParamCheck_wraps CPA_CY_SYM_CIPHER_AES_CTR
           (OpData CPA_CY_SYM_PACKET_TYPE_FULL 0x1000 16 64 (2 ^ 32 - 32) 0) 32);
    [simpl; lia|simpl; lia|simpl; lia|split; intros []].
Defined.

End SymCipher.
