(* ===== verification/SymQueue.v ===== *)
(** * The request queue of a symmetric session

    Models [lac_sym_queue.c] and [lac_sym_cb.c] for sessions of the traditional
    API: sending a request of a session or queueing it behind a partial one, the
    callback of a response, and the sending of queued requests that the callback
    of a partial request does.

    The state is the part of [lac_session_desc_t] that changes, the cookies of
    the requests by their addresses, linked through [pNext], and the buffers
    that are copied between, by their addresses.  Outcomes of the transport
    layer and of the cookie pool are lists of what the next calls return.
    Statistics are left out, as with [DISABLE_STATS]. *)

From S2P Require Import Prelude.
From S2P Require Import BufferDesc.
From S2P Require Import SymCipher.

#[local] Open Scope Z_scope.
#[local] Open Scope qat_scope.

Module SymQueue.
Export BufferDesc SymCipher.

Definition CPA_STATUS_RETRY := -2.
Definition CPA_STATUS_RESOURCE := -3.
Definition DEQUEUE_MSGPUT_MAX_RETRIES := 10000.

(** ** Data *)

(** [icp_qat_fw_la_bulk_req_t]: the fields that differ between the requests of
    a session; the union of the IV pointer and the IV itself is a sum. *)
Record icp_qat_fw_la_bulk_req := Req {
  serv_specif_flags : Z;
  opaque_data : Z;
  src_data_addr : Z;
  dest_data_addr : Z;
  cipher_offset : Z;
  cipher_length : Z;
  cipher_IV : Z + list Z;
  req_key_sz : Z;
}.

(** [lac_sym_bulk_cookie_t] *)
Record lac_sym_bulk_cookie := Cookie {
  pCallbackTag : Z;
  qatMsg : icp_qat_fw_la_bulk_req;
  pOpData : CpaCySymOpData;
  updateSessionIvOnSend : bool;
  updateUserIvOnRecieve : bool;
  updateKeySizeOnRecieve : bool;
  pDstBuffer : CpaBufferList;
  pNext : Z;
}.
Definition set_pNext v c := Cookie (pCallbackTag c) (qatMsg c) (pOpData c) (updateSessionIvOnSend c)
  (updateUserIvOnRecieve c) (updateKeySizeOnRecieve c) (pDstBuffer c) v.

(** [lac_session_desc_t]: what the initialisation fixes, the two buffers it
    contains by their addresses, ... *)
Record session_desc := SessionDesc {
  symOperation : CpaCySymOp;
  cipherAlgorithm : CpaCySymCipherAlgorithm;
  cipherKeyLenInBytes : Z;
  hashResultSize : Z;
  digestVerify : bool;
  digestIsAppended : bool;
  reqCacheHdr_flags : Z;
  reqCacheFtr_state_sz : Z;
  cipherPartialOpState : Z;
  cipherARC4InitialState : Z;
}.

(** ... and what changes; [cipher_key_sz] is the field of [reqCacheFtr]. *)
Record session := Session {
  partialState : CpaCySymPacketType;
  cipher_key_sz : Z;
  pRequestQueueHead : Z;
  pRequestQueueTail : Z;
  nonBlockingOpsInProgress : bool;
  pendingCbCount : Z;
  accessReaders : Z;
}.
Definition set_partialState v s := Session v (cipher_key_sz s) (pRequestQueueHead s)
  (pRequestQueueTail s) (nonBlockingOpsInProgress s) (pendingCbCount s) (accessReaders s).
Definition set_cipher_key_sz v s := Session (partialState s) v (pRequestQueueHead s)
  (pRequestQueueTail s) (nonBlockingOpsInProgress s) (pendingCbCount s) (accessReaders s).
Definition set_head v s := Session (partialState s) (cipher_key_sz s) v
  (pRequestQueueTail s) (nonBlockingOpsInProgress s) (pendingCbCount s) (accessReaders s).
Definition set_tail v s := Session (partialState s) (cipher_key_sz s) (pRequestQueueHead s)
  v (nonBlockingOpsInProgress s) (pendingCbCount s) (accessReaders s).
Definition set_nonBlocking v s := Session (partialState s) (cipher_key_sz s) (pRequestQueueHead s)
  (pRequestQueueTail s) v (pendingCbCount s) (accessReaders s).
Definition set_pendingCbCount v s := Session (partialState s) (cipher_key_sz s) (pRequestQueueHead s)
  (pRequestQueueTail s) (nonBlockingOpsInProgress s) v (accessReaders s).
Definition set_accessReaders v s := Session (partialState s) (cipher_key_sz s) (pRequestQueueHead s)
  (pRequestQueueTail s) (nonBlockingOpsInProgress s) (pendingCbCount s) v.

(** A call of the client's callback, with its arguments. *)
Record call := Call {
  call_tag : Z; call_status : Z; call_op : CpaCySymOp; call_data : CpaCySymOpData;
  call_dst : CpaBufferList; call_verify : bool;
}.

Record state := State {
  sess : session;
  cookies : gmap Z lac_sym_bulk_cookie;
  mem : gmap Z (list Z);
  descs : memory;
  ring : list icp_qat_fw_la_bulk_req;
  puts : list Z;
  allocs : list Z;
  calls : list call;
}.
Definition set_sess v s := State v (cookies s) (mem s) (descs s) (ring s) (puts s) (allocs s) (calls s).
Definition set_cookies v s := State (sess s) v (mem s) (descs s) (ring s) (puts s) (allocs s) (calls s).
Definition set_mem v s := State (sess s) (cookies s) v (descs s) (ring s) (puts s) (allocs s) (calls s).
Definition set_descs v s := State (sess s) (cookies s) (mem s) v (ring s) (puts s) (allocs s) (calls s).
Definition set_ring v s := State (sess s) (cookies s) (mem s) (descs s) v (puts s) (allocs s) (calls s).
Definition set_puts v s := State (sess s) (cookies s) (mem s) (descs s) (ring s) v (allocs s) (calls s).
Definition set_allocs v s := State (sess s) (cookies s) (mem s) (descs s) (ring s) (puts s) v (calls s).
Definition set_calls v s := State (sess s) (cookies s) (mem s) (descs s) (ring s) (puts s) (allocs s) v.

Definition in_sess (f : session → session) : M state () := modify (λ s, set_sess (f (sess s)) s).
Definition cookie_at (p : Z) : M state lac_sym_bulk_cookie :=
  c <- gets (λ s, cookies s !! p) ;; lift c.
Definition put_cookie (p : Z) (c : lac_sym_bulk_cookie) : M state () :=
  modify (λ s, set_cookies (<[p := c]> (cookies s)) s).

(** [memcpy(dst, src, n)] from the start of one buffer to the start of
    another. *)
Definition memcpy (dst src n : Z) : M state () :=
  d <- gets (λ s, mem s !! dst) ;; d <- lift d ;;
  b <- gets (λ s, mem s !! src) ;; b <- lift b ;;
  if (0 <=? n) && (n <=? Z.of_nat (length b)) && (n <=? Z.of_nat (length d)) then
    modify (λ s, set_mem (<[dst := take (Z.to_nat n) b ++ drop (Z.to_nat n) d]> (mem s)) s)
  else fault.

(** [icp_adf_transPutMsg]: a message it accepts is on the ring. *)
Definition icp_adf_transPutMsg (m : icp_qat_fw_la_bulk_req) : M state Z :=
  st <- gets (λ s, default CPA_STATUS_SUCCESS (head (puts s))) ;;
  modify (λ s, set_puts (tail (puts s)) s) ;;
  when (st =? CPA_STATUS_SUCCESS) (modify (λ s, set_ring (ring s ++ [m]) s)) ;;
  ret st.

Definition is_full (c : lac_sym_bulk_cookie) : bool :=
  bool_decide (CPA_CY_SYM_PACKET_TYPE_FULL = packetType (pOpData c)).

Section queue.
Context (D : session_desc).

(** Both places that send do this first. *)
Definition update_session_iv (c : lac_sym_bulk_cookie) : M state () :=
  when (updateSessionIvOnSend c)
    (if LAC_CIPHER_IS_ARC4 (cipherAlgorithm D)
     then memcpy (cipherPartialOpState D) (cipherARC4InitialState D) LAC_CIPHER_ARC4_STATE_LEN_BYTES
     else memcpy (cipherPartialOpState D) (pIv (pOpData c)) (ivLenInBytes (pOpData c))).

(** ** Sending a request *)

(** What is tested before and after the lock is taken. *)
Definition must_queue (s : state) : bool :=
  negb (nonBlockingOpsInProgress (sess s)) || negb (pRequestQueueTail (sess s) =? 0).

Definition enqueue (pRequest : Z) : M state () :=
  t <- gets (λ s, pRequestQueueTail (sess s)) ;;
  (if negb (t =? 0) then (c <- cookie_at t ;; put_cookie t (set_pNext pRequest c))
   else in_sess (set_head pRequest)) ;;
  in_sess (set_tail pRequest).

Definition LacSymQueue_RequestSend (pRequest : Z) : M state Z :=
  q <- gets must_queue ;;
  enqueued <- (if q then
    q <- gets must_queue ;;
    if q then (enqueue pRequest ;; ret true) else ret false
   else ret false) ;;
  if enqueued then ret CPA_STATUS_SUCCESS else
  c <- cookie_at pRequest ;;
  when (negb (is_full c)) (in_sess (set_nonBlocking false)) ;;
  update_session_iv c ;;
  status <- icp_adf_transPutMsg (qatMsg c) ;;
  when (negb (status =? CPA_STATUS_SUCCESS) && negb (is_full c)) (in_sess (set_nonBlocking true)) ;;
  ret status.

(** ** Sending queued requests *)

(** The [do] loop: the status and the number of tries. *)
Fixpoint put_loop (fuel : nat) (m : icp_qat_fw_la_bulk_req) (retries : Z) : M state (Z * Z) :=
  match fuel with
  | O => fault
  | S fuel =>
    status <- icp_adf_transPutMsg m ;;
    let retries := u32 (retries + 1) in
    if negb (status =? CPA_STATUS_SUCCESS) && (retries <? DEQUEUE_MSGPUT_MAX_RETRIES)
    then put_loop fuel m retries else ret (status, retries)
  end.
Definition put_fuel : nat := Z.to_nat DEQUEUE_MSGPUT_MAX_RETRIES.

(** The [while] loop: the status, and whether it was left by [goto cleanup]. *)
Fixpoint dequeue_loop (fuel : nat) (status : Z) : M state (Z * bool) :=
  h <- gets (λ s, pRequestQueueHead (sess s)) ;;
  nb <- gets (λ s, nonBlockingOpsInProgress (sess s)) ;;
  if negb (negb (h =? 0) && nb) then ret (status, false) else
  match fuel with
  | O => fault
  | S fuel =>
    c <- cookie_at h ;;
    when (negb (is_full c)) (in_sess (set_nonBlocking false)) ;;
    update_session_iv c ;;
    let! (status, retries) := put_loop put_fuel (qatMsg c) 0 in
    if negb (status =? CPA_STATUS_SUCCESS) || (DEQUEUE_MSGPUT_MAX_RETRIES <=? retries)
    then ret (status, true)
    else
      c <- cookie_at h ;;
      in_sess (set_head (pNext c)) ;;
      dequeue_loop fuel status
  end.

Definition LacSymCb_PendingReqsDequeue : M state Z :=
  in_sess (set_nonBlocking true) ;;
  n <- gets (λ s, size (cookies s)) ;;
  let! (status, cleanup) := dequeue_loop n CPA_STATUS_SUCCESS in
  if cleanup : bool then ret status else
  h <- gets (λ s, pRequestQueueHead (sess s)) ;;
  when (h =? 0) (in_sess (set_tail 0)) ;;
  ret status.

(** ** The callback of a response *)

(** [memset(p, 0, n)] *)
Definition memset0 (p n : Z) : M state () :=
  b <- gets (λ s, mem s !! p) ;; b <- lift b ;; b <- lift (memzero b 0 n) ;;
  modify (λ s, set_mem (<[p := b]> (mem s)) s).

(** [LacBuffDesc_BufferListZeroFromOffset] on the buffers of a list. *)
Definition zero_buffers (l : CpaBufferList) (offset len : Z) : M state () :=
  bs <- gets (λ s, mapM (λ b, mem s !! pData b) (bufs_of l)) ;; bs <- lift bs ;;
  bs <- lift (LacBuffDesc_BufferListZeroFromOffset bs offset len) ;;
  modify (λ s, set_mem (foldr (λ '(b, v) m, <[pData b := v]> m) (mem s) (zip (bufs_of l) bs)) s).

Definition LacSymCb_CleanUserData (l : CpaBufferList) (op : CpaCySymOpData) (isCCM : bool)
    : M state () :=
  let authTagLen := hashResultSize D in
  zero_buffers l (cryptoStartSrcOffsetInBytes op)
    (if isCCM then u32 (messageLenToCipherInBytes op + authTagLen) else messageLenToCipherInBytes op) ;;
  when (negb (digestIsAppended D) && negb (pDigestResult op =? 0)) (memset0 (pDigestResult op) authTagLen).

(** The key length of the prepared request. *)
Definition LacSymQat_CipherXTSModeUpdateKeyLen (newKeySizeInBytes : Z) : M state () :=
  in_sess (set_cipher_key_sz (u8 (LAC_BYTES_TO_QUADWORDS newKeySizeInBytes))).

Definition is_cipher_or_chain : bool :=
  bool_decide (symOperation D = CPA_CY_SYM_OP_CIPHER)
  || bool_decide (symOperation D = CPA_CY_SYM_OP_ALGORITHM_CHAINING).

(** The IV and key updates of the responses to partial requests. *)
Definition partial_updates (c : lac_sym_bulk_cookie) : M state () :=
  match packetType (pOpData c) with
  | CPA_CY_SYM_PACKET_TYPE_PARTIAL =>
    when is_cipher_or_chain
      (when (updateUserIvOnRecieve c)
         (memcpy (pIv (pOpData c)) (cipherPartialOpState D) (ivLenInBytes (pOpData c))) ;;
       when (updateKeySizeOnRecieve c && LAC_CIPHER_IS_XTS_MODE (cipherAlgorithm D))
         (LacSymQat_CipherXTSModeUpdateKeyLen (cipherKeyLenInBytes D / 2)))
  | CPA_CY_SYM_PACKET_TYPE_LAST_PARTIAL =>
    when (is_cipher_or_chain && LAC_CIPHER_IS_XTS_MODE (cipherAlgorithm D))
      (LacSymQat_CipherXTSModeUpdateKeyLen (cipherKeyLenInBytes D))
  | CPA_CY_SYM_PACKET_TYPE_FULL => ret ()
  end.

Definition Lac_MemPoolEntryFree (p : Z) : M state () :=
  modify (λ s, set_cookies (delete p (cookies s)) s).

Definition LacSymCb_ProcessCallbackInternal (pCookie : Z) (qatRespStatusOkFlag : bool) (status : Z)
    : M state () :=
  c <- cookie_at pCookie ;;
  let op := pOpData c in
  let final := negb (bool_decide (packetType op = CPA_CY_SYM_PACKET_TYPE_PARTIAL)) in
  status <- (if negb (bool_decide (CPA_CY_SYM_OP_CIPHER = symOperation D)) && digestVerify D && final then
     when (negb qatRespStatusOkFlag)
       (if LAC_CIPHER_IS_CCM (cipherAlgorithm D) then LacSymCb_CleanUserData (pDstBuffer c) op true
        else when (LAC_CIPHER_IS_GCM (cipherAlgorithm D))
               (LacSymCb_CleanUserData (pDstBuffer c) op false)) ;;
     ret status
   else ret (if (status =? CPA_STATUS_SUCCESS) && negb qatRespStatusOkFlag then CPA_STATUS_FAIL else status)) ;;
  partial_updates c ;;
  let! (ok, status) :=
    (if negb (is_full c) && qatRespStatusOkFlag then
       dequeueStatus <- LacSymCb_PendingReqsDequeue ;;
       if negb (dequeueStatus =? CPA_STATUS_SUCCESS)
       then ret (false, if status =? CPA_STATUS_SUCCESS then dequeueStatus else status)
       else ret (qatRespStatusOkFlag, status)
     else ret (qatRespStatusOkFlag, status)) in
  Lac_MemPoolEntryFree pCookie ;;
  modify (λ s, set_calls
    (calls s ++ [Call (pCallbackTag c) status (symOperation D) op (pDstBuffer c) ok]) s) ;;
  in_sess (λ x, set_pendingCbCount (pendingCbCount x - 1) x).

Definition ICP_QAT_FW_COMN_STATUS_FLAG_OK := 0.
Definition ICP_QAT_FW_COMN_RESP_CRYPTO_STAT_GET (status : Z) : Z := QAT_FIELD_GET status 7 0x1.

Definition LacSymCb_ProcessCallback (pOpaqueData cmnRespFlags : Z) : M state () :=
  let qatRespStatusOkFlag :=
    ICP_QAT_FW_COMN_STATUS_FLAG_OK =? ICP_QAT_FW_COMN_RESP_CRYPTO_STAT_GET cmnRespFlags in
  LacSymCb_ProcessCallbackInternal pOpaqueData qatRespStatusOkFlag CPA_STATUS_SUCCESS.

End queue.

(** ** Copies as functions of the memory *)

Definition copy (m : gmap Z (list Z)) (dst src n : Z) : option (gmap Z (list Z)) :=
  d ← m !! dst; b ← m !! src;
  if (0 <=? n) && (n <=? Z.of_nat (length b)) && (n <=? Z.of_nat (length d))
  then Some (<[dst := take (Z.to_nat n) b ++ drop (Z.to_nat n) d]> m) else None.

Lemma memcpy_eq dst src n s :
  memcpy dst src n s = m ← copy (mem s) dst src n; Some ((), set_mem m s).
Proof.
  unfold memcpy, copy, bind, gets, lift. destruct (mem s !! dst); [|done]. cbn.
  destruct (mem s !! src); [|done]. cbn. by case_match.
Qed.

Lemma copy_Some m dst src n d b :
  m !! dst = Some d → m !! src = Some b → 0 <= n <= Z.of_nat (length b) → n <= Z.of_nat (length d) →
  copy m dst src n = Some (<[dst := take (Z.to_nat n) b ++ drop (Z.to_nat n) d]> m).
Proof.
  intros Hd Hb Hn Hn'. unfold copy. rewrite Hd, Hb. cbn [mbind option_bind].
  by rewrite !(proj2 (Z.leb_le _ _)) by lia.
Qed.

Section facts.
Context (D : session_desc).

Definition session_iv (c : lac_sym_bulk_cookie) (m : gmap Z (list Z)) : option (gmap Z (list Z)) :=
  if updateSessionIvOnSend c then
    if LAC_CIPHER_IS_ARC4 (cipherAlgorithm D)
    then copy m (cipherPartialOpState D) (cipherARC4InitialState D) LAC_CIPHER_ARC4_STATE_LEN_BYTES
    else copy m (cipherPartialOpState D) (pIv (pOpData c)) (ivLenInBytes (pOpData c))
  else Some m.

Lemma update_session_iv_eq c s :
  update_session_iv D c s = m ← session_iv c (mem s); Some ((), set_mem m s).
Proof.
  unfold update_session_iv, session_iv. destruct (updateSessionIvOnSend c); cbn [when].
  - case_match; apply memcpy_eq.
  - by destruct s.
Qed.

(** ** Queues as linked lists *)

Fixpoint linked (m : gmap Z lac_sym_bulk_cookie) (p : Z) (l : list Z) : Prop :=
  match l with
  | [] => p = 0
  | a :: l => p = a ∧ a ≠ 0 ∧ ∃ c, m !! a = Some c ∧ linked m (pNext c) l
  end.

(** The queue of a session, oldest request first. *)
Definition queue_of (s : state) (l : list Z) : Prop :=
  linked (cookies s) (pRequestQueueHead (sess s)) l ∧
  pRequestQueueTail (sess s) = default 0 (last l) ∧ NoDup l.

Lemma linked_frame m m' p l :
  (∀ a, a ∈ l → m' !! a = m !! a) → linked m p l → linked m' p l.
Proof.
  revert p. induction l as [|a l IH]; intros p H; cbn [linked]; [done|].
  intros (-> & Ha & c & Hc & Hl). split_and!; [done..|]. exists c.
  split; [rewrite H by left; done|]. apply IH; [|done]. intros b Hb. apply H. by right.
Qed.

Lemma linked_nonzero m p l a : linked m p l → a ∈ l → a ≠ 0.
Proof.
  revert p. induction l as [|b l IH]; intros p; [by intros _ ?%not_elem_of_nil|].
  intros (-> & Hb & c & _ & Hl) [->|Ha]%elem_of_cons; [done|eauto].
Qed.

Lemma linked_in_dom m p l a : linked m p l → a ∈ l → is_Some (m !! a).
Proof.
  revert p. induction l as [|b l IH]; intros p; [by intros _ ?%not_elem_of_nil|].
  intros (-> & Hb & c & Hc & Hl) [->|Ha]%elem_of_cons; eauto.
Qed.

(** Linking a new last element. *)
Lemma linked_snoc m p l t ct q :
  linked m p (l ++ [t]) → NoDup (l ++ [t]) → m !! t = Some ct → q ≠ 0 → q ∉ l ++ [t] →
  is_Some (m !! q) → (∀ c, m !! q = Some c → pNext c = 0) →
  linked (<[t := set_pNext q ct]> m) p ((l ++ [t]) ++ [q]).
Proof.
  intros Hl Hnd Ht Hq Hqin [cq Hcq] Hqn. revert p Hl Hnd.
  induction l as [|a l IH]; cbn [app linked]; intros p.
  - intros (-> & Ht0 & c & Hc & Hn) _. split_and!; [done..|].
    eexists. rewrite lookup_insert_eq. split; [done|]. cbn. split_and!; [done..|]. exists cq.
    rewrite lookup_insert_ne by (intros ->; set_solver). split; [done|]. by apply Hqn.
  - intros (-> & Ha & c & Hc & Hl) [Hal Hnd]%NoDup_cons. split_and!; [done..|].
    exists c. rewrite lookup_insert_ne by (intros ->; set_solver). split; [done|].
    apply IH; [set_solver|done..].
Qed.

(** ** The transport's outcomes *)

(** No request is refused so often that the retries run out. *)
Definition patient (puts : list Z) : Prop :=
  ∀ l1 l2 l3, puts = l1 ++ l2 ++ l3 → Forall (λ st, st ≠ CPA_STATUS_SUCCESS) l2 →
    Z.of_nat (length l2) < DEQUEUE_MSGPUT_MAX_RETRIES - 1.

Lemma patient_app l1 l2 : patient (l1 ++ l2) → patient l2.
Proof. intros H a b c E. apply (H (l1 ++ a) b c). by rewrite E, <- app_assoc. Qed.

Lemma patient_nil : patient [].
Proof.
  intros l1 l2 l3 E%(f_equal length) _. rewrite !length_app in E.
  unfold DEQUEUE_MSGPUT_MAX_RETRIES. cbn [length] in E. lia.
Qed.

Lemma put_success m s :
  default CPA_STATUS_SUCCESS (head (puts s)) = CPA_STATUS_SUCCESS →
  icp_adf_transPutMsg m s = Some (CPA_STATUS_SUCCESS, set_ring (ring s ++ [m]) (set_puts (tail (puts s)) s)).
Proof. intros H. unfold icp_adf_transPutMsg. autorewrite with monad. by rewrite H. Qed.

Lemma put_failure m s st :
  head (puts s) = Some st → st ≠ CPA_STATUS_SUCCESS →
  icp_adf_transPutMsg m s = Some (st, set_puts (tail (puts s)) s).
Proof.
  intros H Hst. unfold icp_adf_transPutMsg. autorewrite with monad. rewrite H. cbn [default].
  rewrite (proj2 (Z.eqb_neq st _)) by done. done.
Qed.

(** The retry loop when the transport refuses [fails] times and then accepts. *)
Lemma put_loop_fails m : ∀ fails fuel r s rest,
  Forall (λ st, st ≠ CPA_STATUS_SUCCESS) fails → puts s = fails ++ rest →
  default CPA_STATUS_SUCCESS (head rest) = CPA_STATUS_SUCCESS →
  0 <= r → r + Z.of_nat (length fails) < DEQUEUE_MSGPUT_MAX_RETRIES →
  (length fails < fuel)%nat →
  put_loop fuel m r s =
    Some ((CPA_STATUS_SUCCESS, r + Z.of_nat (length fails) + 1),
          set_ring (ring s ++ [m]) (set_puts (tail rest) s)).
Proof.
  unfold DEQUEUE_MSGPUT_MAX_RETRIES.
  induction fails as [|st fails IH]; intros fuel r s rest Hf Hp Hrest Hr Hmax Hfuel;
    (destruct fuel as [|fuel]; [cbn in Hfuel; lia|]); cbn [put_loop].
  - cbn [app] in Hp. rewrite (bind_Some _ _ _ _ _ (put_success m s ltac:(by rewrite Hp))).
    cbn [negb andb Z.eqb CPA_STATUS_SUCCESS length] in *. rewrite (wrap_small 32) by lia.
    by rewrite Hp, Z.add_0_r.
  - apply Forall_cons in Hf as [Hst Hf]. cbn [length] in *.
    rewrite (bind_Some _ _ _ _ _ (put_failure m s st ltac:(by rewrite Hp) Hst)).
    rewrite (proj2 (Z.eqb_neq st _)), (wrap_small 32) by (done || lia). cbn [negb andb].
    unfold DEQUEUE_MSGPUT_MAX_RETRIES. rewrite (proj2 (Z.ltb_lt _ _)) by lia.
    erewrite (IH fuel (r + 1) _ rest); [|done|by cbn; rewrite Hp|done|lia..].
    cbn [ring set_puts]. by replace (r + 1 + Z.of_nat (length fails) + 1)
      with (r + Z.of_nat (S (length fails)) + 1) by lia.
Qed.

(** Splitting off the refusals at the front. *)
Lemma refusals (ps : list Z) :
  ∃ fails rest, ps = fails ++ rest ∧ Forall (λ st, st ≠ CPA_STATUS_SUCCESS) fails ∧
    default CPA_STATUS_SUCCESS (head rest) = CPA_STATUS_SUCCESS.
Proof.
  induction ps as [|st ps (fails & rest & -> & Hf & Hr)]; [by exists [], []|].
  destruct (decide (st = CPA_STATUS_SUCCESS)) as [->|]; [by exists [], (CPA_STATUS_SUCCESS :: fails ++ rest)|].
  exists (st :: fails), rest. split_and!; [done|by constructor|done].
Qed.

Lemma put_loop_patient m s :
  patient (puts s) →
  ∃ r ps, put_loop put_fuel m 0 s = Some ((CPA_STATUS_SUCCESS, r), set_ring (ring s ++ [m]) (set_puts ps s)) ∧
    r < DEQUEUE_MSGPUT_MAX_RETRIES ∧ patient ps.
Proof.
  intros Hp. destruct (refusals (puts s)) as (fails & rest & E & Hf & Hr).
  pose proof (Hp [] fails rest E Hf) as Hn.
  unfold DEQUEUE_MSGPUT_MAX_RETRIES in *. eexists _, _. split.
  - apply put_loop_fails with (fails := fails); try done; unfold put_fuel, DEQUEUE_MSGPUT_MAX_RETRIES; lia.
  - split; [lia|]. rewrite E in Hp. apply patient_app in Hp. destruct rest as [|st rest]; [apply patient_nil|].
    by apply (patient_app [st]).
Qed.

(** ** Sending queued requests *)

(** What the loop does to the session for one request it sends. *)
Definition sent_state (c : lac_sym_bulk_cookie) (m : gmap Z (list Z)) (ps : list Z) (s : state) : state :=
  set_puts ps (set_ring (ring s ++ [qatMsg c]) (set_mem m (set_sess
    (set_head (pNext c) (set_nonBlocking (is_full c) (sess s))) s))).

Lemma dequeue_step fuel status s h c m :
  pRequestQueueHead (sess s) = h → h ≠ 0 → nonBlockingOpsInProgress (sess s) = true →
  cookies s !! h = Some c → session_iv c (mem s) = Some m → patient (puts s) →
  ∃ ps, patient ps ∧
    dequeue_loop D (S fuel) status s =
      dequeue_loop D fuel CPA_STATUS_SUCCESS (sent_state c m ps s).
Proof.
  intros Hh H0 Hnb Hc Hm Hp. cbn [dequeue_loop]. rewrite !bind_gets, Hh, Hnb.
  rewrite (proj2 (Z.eqb_neq h 0)) by done. cbn [negb andb].
  unfold cookie_at. rewrite bind_assoc, bind_gets, Hc, bind_lift.
  assert (when (negb (is_full c)) (in_sess (set_nonBlocking false)) s =
          Some ((), set_sess (set_nonBlocking (is_full c) (sess s)) s)) as E1.
  { destruct (is_full c); cbn [negb when]; [|done].
    unfold ret. do 2 f_equal. destruct s as [[]]. cbn in Hnb |- *. by subst. }
  rewrite (bind_Some _ _ _ _ _ E1), (bind_Some _ _ _ () (set_mem m (set_sess (set_nonBlocking (is_full c) (sess s)) s)));
    [|rewrite update_session_iv_eq; cbn [mem set_sess]; by rewrite Hm].
  match goal with |- context [bind (put_loop _ _ _) _ ?s1] =>
    destruct (put_loop_patient (qatMsg c) s1) as (r & ps & E2 & Hr & Hps); [done|] end.
  exists ps. split; [done|]. rewrite (bind_Some _ _ _ _ _ E2).
  cbn [negb Z.eqb CPA_STATUS_SUCCESS orb]. rewrite (proj2 (Z.leb_gt _ _)) by done.
  rewrite bind_assoc, bind_gets. cbn [cookies set_ring set_puts set_mem set_sess]. rewrite Hc, bind_lift.
  unfold in_sess. rewrite bind_modify. f_equal.
Qed.

(** A cookie that can be sent when it is first in the queue. *)
Definition sendable (s : state) (a : Z) : Prop :=
  ∃ c, cookies s !! a = Some c ∧ (is_full c → updateSessionIvOnSend c = false) ∧
    is_Some (session_iv c (mem s)).

(** Up to which request a queue is sent: the first one that is not full. *)
Definition sent_prefix (ck : gmap Z lac_sym_bulk_cookie) (q1 q2 : list Z) : Prop :=
  (Forall (λ a, ∃ c, ck !! a = Some c ∧ is_full c) q1 ∧ q2 = []) ∨
  ∃ q0 a c, q1 = q0 ++ [a] ∧ Forall (λ a, ∃ c, ck !! a = Some c ∧ is_full c) q0 ∧
    ck !! a = Some c ∧ is_full c = false.

(** The messages of a list of cookies. *)
Definition msgs (ck : gmap Z lac_sym_bulk_cookie) (l : list Z) : list icp_qat_fw_la_bulk_req :=
  omap (λ a, qatMsg <$> ck !! a) l.

(** The memory after the session's IV has been set for the last request. *)
Definition iv_after (ck : gmap Z lac_sym_bulk_cookie) (q1 : list Z) (m m' : gmap Z (list Z)) : Prop :=
  match last q1 with
  | Some a => ∃ c, ck !! a = Some c ∧ session_iv c m = Some m'
  | None => m' = m
  end.

Definition all_full (ck : gmap Z lac_sym_bulk_cookie) (q : list Z) : bool :=
  forallb (λ a, match ck !! a with Some c => is_full c | None => true end) q.

Definition drained (q1 q2 : list Z) (m : gmap Z (list Z)) (ps : list Z) (s : state) : state :=
  set_puts ps (set_ring (ring s ++ msgs (cookies s) q1) (set_mem m (set_sess
    (set_head (default 0 (head q2)) (set_nonBlocking (all_full (cookies s) q1) (sess s))) s))).

Lemma linked_head m p l : linked m p l → p = default 0 (head l).
Proof. destruct l; cbn; naive_solver. Qed.

Lemma dequeue_loop_spec : ∀ q fuel s,
  (length q <= fuel)%nat → linked (cookies s) (pRequestQueueHead (sess s)) q →
  nonBlockingOpsInProgress (sess s) = true → Forall (sendable s) q → patient (puts s) →
  ∃ q1 q2 m ps, q = q1 ++ q2 ∧ sent_prefix (cookies s) q1 q2 ∧
    iv_after (cookies s) q1 (mem s) m ∧ patient ps ∧
    dequeue_loop D fuel CPA_STATUS_SUCCESS s = Some ((CPA_STATUS_SUCCESS, false), drained q1 q2 m ps s).
Proof.
  induction q as [|a q IH]; intros fuel s Hf Hl Hnb Hsend Hp.
  - exists [], [], (mem s), (puts s). split_and!; [done|left; by split|done|done|].
    cbn [linked] in Hl.
    destruct fuel; cbn [dequeue_loop]; rewrite !bind_gets, Hl; cbn [Z.eqb negb andb];
      unfold ret, drained; cbn [msgs omap list_omap all_full forallb head default];
      rewrite app_nil_r; do 2 f_equal; destruct s as [[]]; cbn in *; by subst.
  - destruct fuel as [|fuel]; cbn [length] in Hf; [lia|]. cbn [linked] in Hl.
    destruct Hl as (Hh & Ha & c & Hc & Hl). apply Forall_cons in Hsend as [(c' & Hc' & Hnoiv & [m Hm]) Hsend].
    assert (c' = c) as -> by congruence.
    destruct (dequeue_step fuel CPA_STATUS_SUCCESS s a c m) as (ps & Hps & ->); [done..|].
    destruct (is_full c) eqn:Efull.
    + assert (m = mem s) as ->.
      { unfold session_iv in Hm. rewrite Hnoiv in Hm by done. congruence. }
      destruct (IH fuel (sent_state c (mem s) ps s)) as (q1 & q2 & m & ps' & -> & Hpre & Hiv & Hps' & ->);
        [lia|done|done|done|done|].
      exists (a :: q1), q2, m, ps'. split_and!; [done| | |done|].
      * destruct Hpre as [[Hall ->]|(q0 & b & d & -> & Hall & Hd & Hdf)].
        -- left. split; [|done]. constructor; [|done]. exists c. by rewrite Efull.
        -- right. exists (a :: q0), b, d. split_and!; [done| |done|done].
           constructor; [|done]. exists c. by rewrite Efull.
      * unfold iv_after in *. destruct q1 as [|b q1]; [|done]. cbn in Hiv |- *. subst m.
        exists c. by split.
      * unfold drained, sent_state. cbn [ring set_ring set_puts set_mem set_sess cookies sess].
        assert (msgs (cookies s) (a :: q1) = qatMsg c :: msgs (cookies s) q1) as ->
          by (unfold msgs; cbn; by rewrite Hc).
        assert (all_full (cookies s) (a :: q1) = all_full (cookies s) q1) as ->
          by (cbn [all_full forallb]; by rewrite Hc, Efull).
        by rewrite <- app_assoc.
    + exists [a], q, m, ps. split_and!; [done| | |done|].
      * right. exists [], a, c. done.
      * unfold iv_after. cbn. exists c. by split.
      * assert (nonBlockingOpsInProgress (sess (sent_state c m ps s)) = false) as E
          by (cbn; by rewrite Efull).
        assert (∀ n, dequeue_loop D n CPA_STATUS_SUCCESS (sent_state c m ps s) =
                  Some ((CPA_STATUS_SUCCESS, false), sent_state c m ps s)) as ->.
        { intros []; cbn [dequeue_loop]; by rewrite !bind_gets, E, andb_false_r. }
        unfold drained, sent_state. cbn [all_full forallb]. rewrite Hc, Efull, (linked_head _ _ _ Hl).
        unfold msgs. cbn. by rewrite Hc.
Qed.

Lemma linked_split m p q1 q2 :
  linked m p (q1 ++ q2) →
  linked m (default 0 (head q2)) q2.
Proof.
  revert p. induction q1 as [|a q1 IH]; cbn [app linked]; intros p H.
  - by rewrite <- (linked_head _ _ _ H).
  - destruct H as (_ & _ & c & _ & H). eauto.
Qed.

Lemma NoDup_linked_size m p q : linked m p q → NoDup q → (length q <= size m)%nat.
Proof.
  intros Hl Hnd. rewrite <- size_dom.
  assert (list_to_set q ⊆ dom m) as Hsub.
  { intros a Ha%elem_of_list_to_set. apply elem_of_dom. by apply (linked_in_dom m p q). }
  apply subseteq_size in Hsub. by rewrite size_list_to_set in Hsub.
Qed.

(** The state after a successful call: the queue's first requests, up to a
    partial one, are on the ring. *)
Definition dequeued (q1 q2 : list Z) (m : gmap Z (list Z)) (ps : list Z) (s : state) : state :=
  set_puts ps (set_ring (ring s ++ msgs (cookies s) q1) (set_mem m (set_sess
    (set_tail (default 0 (last q2)) (set_head (default 0 (head q2))
      (set_nonBlocking (all_full (cookies s) q1) (sess s)))) s))).

Lemma PendingReqsDequeue_spec s q :
  queue_of s q → Forall (sendable s) q → patient (puts s) →
  ∃ q1 q2 m ps, q = q1 ++ q2 ∧ sent_prefix (cookies s) q1 q2 ∧
    iv_after (cookies s) q1 (mem s) m ∧ patient ps ∧
    let s' := dequeued q1 q2 m ps s in
    LacSymCb_PendingReqsDequeue D s = Some (CPA_STATUS_SUCCESS, s') ∧ queue_of s' q2.
Proof.
  intros (Hl & Ht & Hnd) Hsend Hp. unfold LacSymCb_PendingReqsDequeue, in_sess.
  rewrite bind_modify, bind_gets.
  set (s1 := set_sess (set_nonBlocking true (sess s)) s).
  destruct (dequeue_loop_spec q (size (cookies s1)) s1) as (q1 & q2 & m & ps & -> & Hpre & Hiv & Hps & E);
    [by apply (NoDup_linked_size _ (pRequestQueueHead (sess s)))|done|done|done|done|].
  exists q1, q2, m, ps. do 4 (split; [done|]). split.
  - rewrite (bind_Some _ _ _ _ _ E). rewrite bind_gets.
    unfold drained, dequeued, s1. cbn [sess set_puts set_ring set_mem set_sess set_head pRequestQueueHead].
    destruct q2 as [|b q2]; [done|]. change (default 0 (head (b :: q2))) with b.
    assert (b ≠ 0) as Hb by (eapply linked_nonzero; [exact Hl|set_solver]).
    rewrite (proj2 (Z.eqb_neq b 0)) by done. cbn [when]. rewrite bind_ret.
    assert (default 0 (last (b :: q2)) = pRequestQueueTail (sess s)) as ->; [|by destruct s as [[]]].
    rewrite Ht, last_app. by destruct (last (b :: q2)) eqn:El; [|apply last_None in El].
  - unfold queue_of, dequeued. cbn.
    split_and!; [by eapply linked_split|done|by apply NoDup_app in Hnd as (_ & _ & ?)].
Qed.

(** [LacSymCb_PendingReqsDequeue] sends the queued requests in their order
    until the queue is empty or a partial one has been sent, which blocks the
    session again; before a first partial packet is sent its IV is copied to
    the session.  The condition is that the transport takes each request
    within the retries. *)
Theorem LacSymCb_PendingReqsDequeue_correct s q :
  queue_of s q → Forall (sendable s) q → patient (puts s) →
  ∃ q1 q2 m ps, q = q1 ++ q2 ∧ sent_prefix (cookies s) q1 q2 ∧
    iv_after (cookies s) q1 (mem s) m ∧ patient ps ∧
    let s' := dequeued q1 q2 m ps s in
    LacSymCb_PendingReqsDequeue D s = Some (CPA_STATUS_SUCCESS, s') ∧ queue_of s' q2.
Proof. apply PendingReqsDequeue_spec. Qed.

(** ** Sending a request *)

Definition enqueued (p : Z) (q : list Z) (ck : gmap Z lac_sym_bulk_cookie) (s : state) : state :=
  set_cookies ck (set_sess (set_tail p (set_head (default p (head q)) (sess s))) s).

Lemma enqueue_spec s q p c :
  queue_of s q → p ≠ 0 → p ∉ q → cookies s !! p = Some c → pNext c = 0 →
  ∃ ck, enqueue p s = Some ((), enqueued p q ck s) ∧
    (∀ a, ∃ n, ck !! a = set_pNext n <$> cookies s !! a) ∧ queue_of (enqueued p q ck s) (q ++ [p]).
Proof.
  intros (Hl & Ht & Hnd) Hp Hpq Hc Hn. unfold enqueue. rewrite bind_gets, Ht.
  destruct (last q) as [t|] eqn:El.
  - change (default 0 (Some t)) with t. apply last_Some in El as [q0 ->].
    assert (t ≠ 0) as Ht0 by (eapply linked_nonzero; [exact Hl|set_solver]).
    destruct (linked_in_dom _ _ _ t Hl ltac:(set_solver)) as [ct Hct].
    exists (<[t := set_pNext p ct]> (cookies s)).
    assert (default p (head (q0 ++ [t])) = pRequestQueueHead (sess s)) as Eh.
    { rewrite (linked_head _ _ _ Hl). by destruct q0. }
    unfold enqueued. rewrite Eh. split_and!.
    + rewrite (proj2 (Z.eqb_neq t 0)) by done. unfold cookie_at, bind, gets, lift. cbn. rewrite Hct.
      by destruct s as [[]].
    + intros a. destruct (decide (a = t)) as [->|].
      * exists p. by rewrite lookup_insert_eq, Hct.
      * rewrite lookup_insert_ne by done. destruct (cookies s !! a) as [ca|] eqn:Ea; [|by exists 0].
        exists (pNext ca). by destruct ca.
    + unfold queue_of. cbn. rewrite last_snoc. split_and!; [|done|].
      * apply linked_snoc; [done..|by eexists|]. intros c'. rewrite Hc. by intros [= <-].
      * apply NoDup_app. split_and!; [done| |apply NoDup_singleton]. set_solver.
  - apply last_None in El as ->. cbn [linked] in Hl. exists (cookies s). unfold enqueued. split_and!.
    + unfold bind, in_sess, modify. by destruct s as [[]].
    + intros a. destruct (cookies s !! a) as [ca|] eqn:Ea; [|by exists 0].
      exists (pNext ca). by destruct ca.
    + unfold queue_of. cbn. split; [|split; [done|apply NoDup_singleton]]. do 2 (split; [done|]). by exists c.
Qed.

(** When a partial request is under way, or requests wait, a request is added
    at the end of the queue and nothing is sent. *)
Lemma RequestSend_enqueues s q p c :
  queue_of s q → must_queue s = true → p ≠ 0 → p ∉ q → cookies s !! p = Some c → pNext c = 0 →
  ∃ ck, LacSymQueue_RequestSend D p s = Some (CPA_STATUS_SUCCESS, enqueued p q ck s) ∧
    (∀ a, ∃ n, ck !! a = set_pNext n <$> cookies s !! a) ∧ queue_of (enqueued p q ck s) (q ++ [p]).
Proof.
  intros Hqueue Hq Hp Hpq Hc Hn. destruct (enqueue_spec s q p c) as (ck & E & Hck); [done..|].
  exists ck. split; [|done]. unfold LacSymQueue_RequestSend. rewrite bind_gets, Hq. cbv iota.
  rewrite (bind_Some _ _ s true (enqueued p q ck s)); [done|].
  rewrite bind_gets, Hq. by rewrite (bind_Some _ _ _ _ _ E).
Qed.

(** Otherwise it is put on the ring; a partial request blocks the session if
    the transport takes it. *)
Lemma RequestSend_sends s p c m st :
  must_queue s = false → cookies s !! p = Some c → session_iv c (mem s) = Some m →
  default CPA_STATUS_SUCCESS (head (puts s)) = st →
  LacSymQueue_RequestSend D p s =
    Some (st, if st =? CPA_STATUS_SUCCESS
      then set_ring (ring s ++ [qatMsg c]) (set_puts (tail (puts s)) (set_mem m
             (set_sess (set_nonBlocking (is_full c) (sess s)) s)))
      else set_puts (tail (puts s)) (set_mem m s)).
Proof.
  intros Hq Hc Hm Hst. assert (nonBlockingOpsInProgress (sess s) = true) as Hnb.
  { unfold must_queue in Hq. apply orb_false_iff in Hq as [Hq _]. by apply negb_false_iff in Hq. }
  unfold LacSymQueue_RequestSend. rewrite bind_gets, Hq. cbv iota. rewrite bind_ret. cbv iota.
  unfold cookie_at. rewrite bind_assoc, bind_gets, Hc, bind_lift.
  assert (when (negb (is_full c)) (in_sess (set_nonBlocking false)) s =
          Some ((), set_sess (set_nonBlocking (is_full c) (sess s)) s)) as E1.
  { destruct (is_full c); cbn [negb when]; [|done].
    unfold ret. do 2 f_equal. destruct s as [[]]. cbn in Hnb |- *. by subst. }
  rewrite (bind_Some _ _ _ _ _ E1),
    (bind_Some _ _ _ () (set_mem m (set_sess (set_nonBlocking (is_full c) (sess s)) s)));
    [|rewrite update_session_iv_eq; cbn [mem set_sess]; by rewrite Hm].
  clear E1 Hm. unfold icp_adf_transPutMsg, bind, gets, modify, in_sess, when, ret. cbn. rewrite Hst. clear Hst.
  destruct (st =? CPA_STATUS_SUCCESS) eqn:E; cbn; rewrite ?E; cbn; [done|].
  destruct (is_full c); cbn; destruct s as [[]]; cbn in Hnb |- *; by subst.
Qed.

(** When the transport accepts a queued request at the very last try, the
    request is on the ring but stays first in the queue, and the call reports
    success: the request will be sent a second time. *)
Theorem PendingReqsDequeue_sends_twice s a q c m fails rest :
  queue_of s (a :: q) → cookies s !! a = Some c → session_iv c (mem s) = Some m →
  puts s = fails ++ CPA_STATUS_SUCCESS :: rest → Forall (λ st, st ≠ CPA_STATUS_SUCCESS) fails →
  Z.of_nat (length fails) = DEQUEUE_MSGPUT_MAX_RETRIES - 1 →
  ∃ s', LacSymCb_PendingReqsDequeue D s = Some (CPA_STATUS_SUCCESS, s') ∧
    ring s' = ring s ++ [qatMsg c] ∧ queue_of s' (a :: q) ∧ cookies s' !! a = Some c.
Proof.
  intros (Hl & Ht & Hnd) Hc Hm Hp Hf Hn. cbn [linked] in Hl.
  destruct Hl as (Hh & Ha & c' & Hc' & Hl). assert (c' = c) as -> by congruence.
  set (s1 := set_sess (set_nonBlocking (is_full c) (sess s)) s).
  set (s2 := set_ring (ring s ++ [qatMsg c]) (set_puts rest (set_mem m s1))).
  exists s2. split.
  - unfold LacSymCb_PendingReqsDequeue, in_sess. rewrite bind_modify, bind_gets.
    assert (0 < size (cookies s))%nat as Hsize.
    { apply Nat.neq_0_lt_0, map_size_non_empty_iff. intros E. by rewrite E in Hc. }
    cbn [cookies set_sess]. destruct (size (cookies s)) as [|n]; [lia|].
    assert (dequeue_loop D (S n) CPA_STATUS_SUCCESS (set_sess (set_nonBlocking true (sess s)) s) =
      Some ((CPA_STATUS_SUCCESS, true), s2)) as E; [|by rewrite (bind_Some _ _ _ _ _ E)].
    cbn [dequeue_loop]. rewrite !bind_gets. cbn [sess set_sess set_nonBlocking pRequestQueueHead
      nonBlockingOpsInProgress]. rewrite Hh, (proj2 (Z.eqb_neq a 0)) by done. cbn [negb andb].
    unfold cookie_at. rewrite bind_assoc, bind_gets. cbn [cookies set_sess]. rewrite Hc, bind_lift.
    rewrite (bind_Some _ _ _ () s1);
      [|unfold s1, in_sess, modify; destruct (is_full c); cbn; by destruct s as [[]]].
    rewrite (bind_Some _ _ _ () (set_mem m s1)) by (by rewrite update_session_iv_eq; cbn; rewrite Hm).
    unfold DEQUEUE_MSGPUT_MAX_RETRIES in Hn.
    erewrite bind_Some; [|apply (put_loop_fails (qatMsg c) fails put_fuel 0 _ (CPA_STATUS_SUCCESS :: rest));
      [done|done|done|done|unfold DEQUEUE_MSGPUT_MAX_RETRIES; lia|unfold put_fuel, DEQUEUE_MSGPUT_MAX_RETRIES; lia]].
    cbn [negb Z.eqb CPA_STATUS_SUCCESS orb]. unfold DEQUEUE_MSGPUT_MAX_RETRIES.
    rewrite (proj2 (Z.leb_le _ _)) by lia. done.
  - split; [done|]. split; [|done]. split; [|done]. do 2 (split; [done|]). by exists c.
Qed.

(** A response with an error to a partial request. *)
Definition error_seen (c : lac_sym_bulk_cookie) (p : Z) (m : gmap Z (list Z)) (s : state) : state :=
  set_sess (set_pendingCbCount (pendingCbCount (sess s) - 1) (sess s))
    (set_calls (calls s ++ [Call (pCallbackTag c) CPA_STATUS_FAIL (symOperation D) (pOpData c) (pDstBuffer c) false])
      (set_cookies (delete p (cookies s)) (set_mem m s))).

(** A response with an error to a partial request completes it with a
    failure, but the queue is not looked at and the session stays blocked: from
    then on every request of the session is queued -- the client is told
    success -- and none is sent. *)
Theorem error_response_blocks s q p c m flags :
  queue_of s q → cookies s !! p = Some c → p ∉ q →
  symOperation D = CPA_CY_SYM_OP_CIPHER → LAC_CIPHER_IS_XTS_MODE (cipherAlgorithm D) = false →
  packetType (pOpData c) = CPA_CY_SYM_PACKET_TYPE_PARTIAL →
  (if updateUserIvOnRecieve c then copy (mem s) (pIv (pOpData c)) (cipherPartialOpState D) (ivLenInBytes (pOpData c))
   else Some (mem s)) = Some m →
  ICP_QAT_FW_COMN_RESP_CRYPTO_STAT_GET flags ≠ ICP_QAT_FW_COMN_STATUS_FLAG_OK →
  nonBlockingOpsInProgress (sess s) = false →
  let s' := error_seen c p m s in
  LacSymCb_ProcessCallback D p flags s = Some ((), s') ∧ ring s' = ring s ∧ queue_of s' q ∧
  (∀ p' c', p' ≠ 0 → p' ∉ q → cookies s' !! p' = Some c' → pNext c' = 0 →
     ∃ s'', LacSymQueue_RequestSend D p' s' = Some (CPA_STATUS_SUCCESS, s'') ∧ ring s'' = ring s ∧
       queue_of s'' (q ++ [p']) ∧ nonBlockingOpsInProgress (sess s'') = false).
Proof.
  intros Hq Hc Hpq Hop Hxts Hpt Hm Hflags Hnb s'.
  assert (queue_of s' q) as Hq'.
  { destruct Hq as (Hl & Ht & Hnd). split; [|by split]. apply (linked_frame (cookies s)); [|done].
    intros a Ha. cbn. rewrite lookup_delete_ne; [done|]. by intros ->. }
  split; [|split; [done|split; [done|]]].
  - unfold LacSymCb_ProcessCallback, LacSymCb_ProcessCallbackInternal.
    rewrite (proj2 (Z.eqb_neq ICP_QAT_FW_COMN_STATUS_FLAG_OK _)) by congruence.
    rewrite (bind_Some _ _ s c s) by (unfold cookie_at, bind, gets, lift; by rewrite Hc).
    rewrite Hop, bool_decide_eq_true_2 by done. cbn [negb andb]. rewrite bind_ret.
    rewrite (bind_Some _ _ s () (set_mem m s)).
    + rewrite andb_false_r, bind_ret. cbn [mbind option_bind].
      unfold Lac_MemPoolEntryFree, in_sess, s', error_seen. by rewrite !bind_modify, Hop.
    + unfold partial_updates. rewrite Hpt. unfold is_cipher_or_chain.
      rewrite Hop, bool_decide_eq_true_2, Hxts, andb_false_r by done. cbn [orb when].
      destruct (updateUserIvOnRecieve c); cbn [when].
      * unfold bind. rewrite memcpy_eq, Hm. done.
      * rewrite bind_ret. injection Hm as <-. by destruct s.
  - intros p' c' Hp' Hnin Hc' Hn.
    assert (must_queue s' = true) as Hmq by (unfold must_queue; cbn; by rewrite Hnb).
    destruct (RequestSend_enqueues s' q p' c' Hq' Hmq Hp' Hnin Hc' Hn) as (ck & E & _ & Hq2).
    exists (enqueued p' q ck s'). by split.
Qed.

(** ** Failed verification *)

Lemma write_back_lookup (l : list CpaFlatBuffer) : ∀ bs (m : gmap Z (list Z)),
  NoDup (pData <$> l) → length bs = length l →
  let m' := foldr (λ '(b, v) m, <[pData b := v]> m) m (zip l bs) in
  mapM (λ b, m' !! pData b) l = Some bs ∧ (∀ a, a ∉ pData <$> l → m' !! a = m !! a).
Proof.
  induction l as [|b l IH]; intros [|v bs] m Hnd Hlen; try discriminate Hlen; [done|].
  cbn in Hnd, Hlen. apply NoDup_cons in Hnd as [Hb Hnd]. destruct (IH bs m Hnd ltac:(lia)) as [Hm Hother].
  cbv zeta in *. cbn [zip zip_with foldr]. set (m1 := foldr _ m _) in *.
  split.
  - cbn [mapM]. rewrite lookup_insert_eq. cbn [mbind option_bind].
    rewrite (Forall_mapM_ext _ (λ b', m1 !! pData b')); [by rewrite Hm|].
    apply Forall_forall. intros b' Hb'. apply lookup_insert_ne. intros E. apply Hb. rewrite E.
    by apply list_elem_of_fmap_2.
  - intros a Ha. cbn in Ha. apply not_elem_of_cons in Ha as [Hab Ha].
    rewrite lookup_insert_ne by done. by apply Hother.
Qed.

(** What the clean-up of a failed verification does to the memory: [n] bytes of
    the buffers from [off] on, and the digest when it has a buffer of its own. *)
Definition cleaned (l : CpaBufferList) (op : CpaCySymOpData) (bs : list (list Z)) (n : Z)
    (m m' : gmap Z (list Z)) : Prop :=
  (∃ bs', mapM (λ b, m' !! pData b) (bufs_of l) = Some bs' ∧
     mjoin bs' = fill (mjoin bs) (Z.to_nat (cryptoStartSrcOffsetInBytes op)) (Z.to_nat n)) ∧
  (digestIsAppended D = false → pDigestResult op ≠ 0 →
     ∃ d, m' !! pDigestResult op = Some d ∧
       take (Z.to_nat (hashResultSize D)) d = replicate (Z.to_nat (hashResultSize D)) 0) ∧
  (∀ a, a ∉ pData <$> bufs_of l → a ≠ pDigestResult op → m' !! a = m !! a).

(** The buffers it needs: separate ones, which contain the region and the
    digest. *)
Record cleanable (l : CpaBufferList) (op : CpaCySymOpData) (bs : list (list Z)) (n : Z)
    (m : gmap Z (list Z)) : Prop := {
  cl_distinct : NoDup (pData <$> bufs_of l);
  cl_contents : mapM (λ b, m !! pData b) (bufs_of l) = Some bs;
  cl_sizes : Forall (λ b, Z.of_nat (length b) < 2 ^ 32) bs;
  cl_range : 0 <= cryptoStartSrcOffsetInBytes op ∧ 0 <= n ∧
    cryptoStartSrcOffsetInBytes op + n < 2 ^ 32 ∧
    cryptoStartSrcOffsetInBytes op + n <= Z.of_nat (length (mjoin bs));
  cl_digest : digestIsAppended D = false → pDigestResult op ≠ 0 →
    pDigestResult op ∉ pData <$> bufs_of l ∧
    ∃ d, m !! pDigestResult op = Some d ∧ 0 <= hashResultSize D <= Z.of_nat (length d);
}.

Lemma CleanUserData_spec l op (isCCM : bool) bs s :
  let n := messageLenToCipherInBytes op + (if isCCM then hashResultSize D else 0) in
  cleanable l op bs n (mem s) →
  ∃ m', LacSymCb_CleanUserData D l op isCCM s = Some ((), set_mem m' s) ∧ cleaned l op bs n (mem s) m'.
Proof.
  intros n [Hnd Hbs Hlen32 (Hoff & Hn & Hmax & Hfit) Hdig].
  destruct (zero_loop_spec bs (cryptoStartSrcOffsetInBytes op) n) as (bs' & Hz & Hlens & Hfill); [done..|].
  assert (length bs' = length (bufs_of l)) as Hl.
  { apply (f_equal length) in Hlens. rewrite !length_fmap in Hlens. rewrite Hlens.
    by apply length_mapM in Hbs. }
  destruct (write_back_lookup (bufs_of l) bs' (mem s) Hnd Hl) as [Hm Hother].
  set (m' := foldr _ _ _) in *.
  assert (zero_buffers l (cryptoStartSrcOffsetInBytes op)
    (if isCCM then u32 (messageLenToCipherInBytes op + hashResultSize D)
     else messageLenToCipherInBytes op) s = Some ((), set_mem m' s)) as E.
  { assert ((if isCCM then u32 (messageLenToCipherInBytes op + hashResultSize D)
             else messageLenToCipherInBytes op) = n) as ->.
    { unfold n in *. destruct isCCM; [apply wrap_small|]; lia. }
    unfold zero_buffers, bind, gets, lift, modify, LacBuffDesc_BufferListZeroFromOffset.
    by rewrite Hbs, Hz. }
  unfold LacSymCb_CleanUserData. rewrite (bind_Some _ _ _ _ _ E).
  destruct (negb (digestIsAppended D) && negb (pDigestResult op =? 0)) eqn:Ed; cbn [when].
  - apply andb_true_iff in Ed as [Ha%negb_true_iff Hp%negb_true_iff%Z.eqb_neq].
    destruct (Hdig Ha Hp) as (Hnotin & d & Hd & Hsz).
    set (d' := fill d 0 (Z.to_nat (hashResultSize D))).
    exists (<[pDigestResult op := d']> m'). unfold memset0, bind, gets, lift. cbn [mem set_mem].
    rewrite Hother, Hd by done. rewrite memzero_fill by lia. split; [done|]. split; [|split].
    + exists bs'. split; [|done]. rewrite (Forall_mapM_ext _ (λ b, m' !! pData b)); [done|].
      apply Forall_forall. intros b Hb. apply lookup_insert_ne. intros Heq. apply Hnotin. rewrite Heq.
      by apply list_elem_of_fmap_2.
    + intros _ _. exists d'. rewrite lookup_insert_eq. split; [done|]. unfold d', fill. rewrite take_0. cbn [app].
      rewrite take_app_length'; [done|]. by rewrite length_replicate.
    + intros a Hb Hne. rewrite lookup_insert_ne by done. by apply Hother.
  - exists m'. split; [done|]. split; [by exists bs'|]. split; [|intros; by apply Hother].
    intros Ha Hp. rewrite Ha in Ed. cbn in Ed. apply negb_false_iff, Z.eqb_eq in Ed. done.
Qed.

(** When the digest of an authenticated decryption does not match, the client
    gets none of the deciphered data: before its callback is called -- with
    status success and a negative result of the verification -- the region, for
    CCM with the digest behind it, and the digest buffer are zeroed. *)
Theorem callback_clears_unverified s p c bs :
  cookies s !! p = Some c →
  symOperation D = CPA_CY_SYM_OP_ALGORITHM_CHAINING → digestVerify D = true →
  packetType (pOpData c) ≠ CPA_CY_SYM_PACKET_TYPE_PARTIAL →
  LAC_CIPHER_IS_CCM (cipherAlgorithm D) || LAC_CIPHER_IS_GCM (cipherAlgorithm D) = true →
  let n := messageLenToCipherInBytes (pOpData c) +
    (if LAC_CIPHER_IS_CCM (cipherAlgorithm D) then hashResultSize D else 0) in
  cleanable (pDstBuffer c) (pOpData c) bs n (mem s) →
  ∃ s', LacSymCb_ProcessCallbackInternal D p false CPA_STATUS_SUCCESS s = Some ((), s') ∧
    cleaned (pDstBuffer c) (pOpData c) bs n (mem s) (mem s') ∧
    calls s' = calls s ++
      [Call (pCallbackTag c) CPA_STATUS_SUCCESS (symOperation D) (pOpData c) (pDstBuffer c) false].
Proof.
  intros Hc Hop Hv Hpt Halg n Hcl.
  destruct (CleanUserData_spec _ _ (LAC_CIPHER_IS_CCM (cipherAlgorithm D)) bs s Hcl) as (m' & Hclean & Hm').
  exists (set_sess (set_pendingCbCount (pendingCbCount (sess s) - 1) (sess s))
    (set_calls (calls s ++ [Call (pCallbackTag c) CPA_STATUS_SUCCESS (symOperation D) (pOpData c) (pDstBuffer c) false])
      (set_cookies (delete p (cookies s)) (set_mem m' s)))).
  split; [|by split]. unfold LacSymCb_ProcessCallbackInternal.
  rewrite (bind_Some _ _ s c s) by (unfold cookie_at, bind, gets, lift; by rewrite Hc).
  rewrite Hv, Hop, (bool_decide_eq_false_2 (packetType _ = _)),
    (bool_decide_eq_false_2 (CPA_CY_SYM_OP_CIPHER = _)) by done. cbn [negb andb].
  rewrite (bind_Some _ _ s CPA_STATUS_SUCCESS (set_mem m' s)).
  - assert (partial_updates D c (set_mem m' s) = Some ((), set_mem m' s)) as E.
    { unfold partial_updates. destruct (packetType (pOpData c)); [done..|].
      assert (LAC_CIPHER_IS_XTS_MODE (cipherAlgorithm D) = false) as ->
        by (by destruct (cipherAlgorithm D)).
      by rewrite andb_false_r. }
    rewrite (bind_Some _ _ _ _ _ E), andb_false_r, bind_ret.
    unfold Lac_MemPoolEntryFree, in_sess. by rewrite !bind_modify.
  - cbn [negb when]. destruct (LAC_CIPHER_IS_CCM (cipherAlgorithm D)) eqn:Eccm.
    + by rewrite (bind_Some _ _ _ _ _ Hclean).
    + cbn [orb] in Halg. rewrite Halg. cbn [when]. by rewrite (bind_Some _ _ _ _ _ Hclean).
Qed.

End facts.

(** ** Examples *)

Module Witness.

Definition D (op : CpaCySymOp) (alg : CpaCySymCipherAlgorithm) : session_desc :=
  SessionDesc op alg 16 4 true false 0 2 0x1000 0x2000.
Definition cbc : session_desc := D CPA_CY_SYM_OP_CIPHER CPA_CY_SYM_CIPHER_AES_CBC.
Definition gcm : session_desc := D CPA_CY_SYM_OP_ALGORITHM_CHAINING CPA_CY_SYM_CIPHER_AES_GCM.

Definition cookie (t : CpaCySymPacketType) (tag next : Z) : lac_sym_bulk_cookie :=
  Cookie tag (Req 0 tag 0 0 0 0 (inl 0) 2) (OpData t 0x3000 16 1 5 0x5000) false false false
    (BufferList 2 (Some [FlatBuffer 4 0x6000; FlatBuffer 4 0x7000]) 0x8000) next.

(** Two queued requests, a full one and a partial one. *)
Definition queued (ps : list Z) : state :=
  State (Session CPA_CY_SYM_PACKET_TYPE_PARTIAL 2 0x100 0x200 false 2 0)
    {[ 0x100 := cookie CPA_CY_SYM_PACKET_TYPE_FULL 1 0x200; 0x200 := cookie CPA_CY_SYM_PACKET_TYPE_PARTIAL 2 0;
       0x300 := cookie CPA_CY_SYM_PACKET_TYPE_PARTIAL 3 0; 0x400 := cookie CPA_CY_SYM_PACKET_TYPE_PARTIAL 4 0 ]}
    {[ 0x1000 := replicate 264 0; 0x3000 := seqZ 0 16; 0x5000 := [7; 7; 7; 7]; 0x6000 := [1; 2; 3; 4];
       0x7000 := [5; 6; 7; 8] ]}
    ∅ [] ps [] [].

Lemma queued_queue ps : queue_of (queued ps) [0x100; 0x200].
Proof.
  split; [|split; [done|by apply (bool_decide_unpack _); vm_compute]]. split; [done|]. split; [done|].
  eexists. split; [reflexivity|]. split; [done|]. split; [done|]. by eexists.
Qed.

Lemma queued_sendable ps : Forall (sendable cbc (queued ps)) [0x100; 0x200].
Proof. repeat constructor; eexists; (split; [reflexivity|]); by split; [|eexists]. Qed.

End Witness.

Lemma LacSymCb_PendingReqsDequeue_correct_witness :
  queue_of (Witness.queued []) [0x100; 0x200] ∧
  ∃ q1 q2 m ps, [0x100; 0x200] = q1 ++ q2 ∧ sent_prefix (cookies (Witness.queued [])) q1 q2 ∧
    iv_after Witness.cbc (cookies (Witness.queued [])) q1 (mem (Witness.queued [])) m ∧ patient ps ∧
    let s' := dequeued q1 q2 m ps (Witness.queued []) in
    LacSymCb_PendingReqsDequeue Witness.cbc (Witness.queued []) = Some (CPA_STATUS_SUCCESS, s') ∧ queue_of s' q2.
Proof.
  split; [apply Witness.queued_queue|].
  apply (LacSymCb_PendingReqsDequeue_correct Witness.cbc (Witness.queued []) [0x100; 0x200]);
    [apply Witness.queued_queue|apply Witness.queued_sendable|apply patient_nil].
Defined.

Lemma PendingReqsDequeue_sends_twice_witness :
  let s := Witness.queued (replicate 9999 CPA_STATUS_RETRY ++ [CPA_STATUS_SUCCESS]) in
  ∃ s', LacSymCb_PendingReqsDequeue Witness.cbc s = Some (CPA_STATUS_SUCCESS, s') ∧
    ring s' = [Req 0 1 0 0 0 0 (inl 0) 2] ∧ queue_of s' [0x100; 0x200].
Proof.
  intros s.
  destruct (PendingReqsDequeue_sends_twice Witness.cbc s 0x100 [0x200]
    (Witness.cookie CPA_CY_SYM_PACKET_TYPE_FULL 1 0x200) (mem s) (replicate 9999 CPA_STATUS_RETRY) [])
    as (s' & E & Hr & Hq & _); [apply Witness.queued_queue|reflexivity..| | |].
  - apply Forall_replicate. done.
  - by rewrite length_replicate.
  - exists s'. split; [exact E|]. split; [exact Hr|exact Hq].
Defined.

Lemma error_response_blocks_witness :
  let s := Witness.queued [] in
  let c := Witness.cookie CPA_CY_SYM_PACKET_TYPE_PARTIAL 3 0 in
  queue_of s [0x100; 0x200] ∧ cookies s !! 0x300 = Some c ∧
  LacSymCb_ProcessCallback Witness.cbc 0x300 0x80 s = Some ((), error_seen Witness.cbc c 0x300 (mem s) s).
Proof.
  intros s c. split; [apply Witness.queued_queue|]. split; [reflexivity|].
  apply (error_response_blocks Witness.cbc s [0x100; 0x200] 0x300 c (mem s) 0x80);
    [apply Witness.queued_queue|reflexivity|by apply (bool_decide_unpack _); vm_compute|reflexivity..|done|done].
Defined.

Lemma callback_clears_unverified_witness :
  let s := Witness.queued [] in
  let c := Witness.cookie CPA_CY_SYM_PACKET_TYPE_FULL 1 0x200 in
  cleanable Witness.gcm (pDstBuffer c) (pOpData c) [[1; 2; 3; 4]; [5; 6; 7; 8]] 5 (mem s) ∧
  ∃ s', LacSymCb_ProcessCallbackInternal Witness.gcm 0x100 false CPA_STATUS_SUCCESS s = Some ((), s') ∧
    calls s' = [Call 1 CPA_STATUS_SUCCESS CPA_CY_SYM_OP_ALGORITHM_CHAINING (pOpData c) (pDstBuffer c) false].
Proof.
  intros s c.
  assert (cleanable Witness.gcm (pDstBuffer c) (pOpData c) [[1; 2; 3; 4]; [5; 6; 7; 8]] 5 (mem s)) as Hcl.
  { split; [by apply (bool_decide_unpack _); vm_compute|reflexivity|by repeat constructor| |].
    - cbn. lia.
    - intros _ _. split; [by apply (bool_decide_unpack _); vm_compute|]. by eexists. }
  split; [done|].
  destruct (callback_clears_unverified Witness.gcm s 0x100 c [[1; 2; 3; 4]; [5; 6; 7; 8]]) as (s' & E & _ & Hcalls);
    [reflexivity|reflexivity|reflexivity|done|reflexivity|exact Hcl|].
  by exists s'.
Defined.

End SymQueue.
