(* ===== verification/SymSession.v ===== *)
(** * Sessions of symmetric ciphers

    Models a request of a cipher session from [LacSym_Perform] of
    [lac_sym_api.c] through [LacAlgChain_Perform] of [lac_sym_alg_chain.c] to
    the queue of [SymQueue], for sessions whose operation is cipher only
    ([CPA_CY_SYM_OP_CIPHER]; the branches for hashes are not taken) and whose
    callback is the client's, compiled with [ICP_PARAM_CHECK].

    The system of this file is a session, a client and a device that processes
    the requests on the ring in any order.  It is shown to deliver what
    processing the requests one after the other would, with the IV carried from
    each partial packet of a stream to the next. *)

From S2P Require Import Prelude.
From S2P Require Import BufferDesc.
From S2P Require Import SymCipher.
From S2P Require Import SymQueue.

#[local] Open Scope Z_scope.
#[local] Open Scope qat_scope.

Module SymSession.
Export SymQueue.

Definition LAC_SYM_QAT_HASH_IV_REQ_MAX_SIZE_QW := 2.

(** [Lac_MemPoolEntryAlloc]: what the next calls return, an address, 0 for NULL
    or [RETRY]. *)
Definition RETRY_PTR := u64 (-2).
Fixpoint alloc_loop (l : list Z) : option (Z * list Z) :=
  match l with
  | [] => None
  | a :: l => if a =? RETRY_PTR then alloc_loop l else Some (a, l)
  end.
Definition alloc_cookie : M state Z :=
  l <- gets allocs ;; r <- lift (alloc_loop l) ;;
  modify (set_allocs r.2) ;; ret r.1.

Section code.
Context (D : session_desc) (virt2phys : Z → Z).

(** ** The IV of a request *)

Definition set_updates (send recv : bool) (c : lac_sym_bulk_cookie) : lac_sym_bulk_cookie :=
  Cookie (pCallbackTag c) (qatMsg c) (pOpData c) send recv (updateKeySizeOnRecieve c)
    (pDstBuffer c) (pNext c).

(** The status, [*ppIvBuffer] and the cookie. *)
Definition LacCipher_PerformIvCheck (c : lac_sym_bulk_cookie) (qatPacketType : Z)
    : Z * Z * lac_sym_bulk_cookie :=
  let op := pOpData c in
  let algorithm := cipherAlgorithm D in
  let user_iv size :=
    if pIv op =? 0 then (CPA_STATUS_INVALID_PARAM, 0, c)
    else if negb (ivLenInBytes op =? size) then (CPA_STATUS_INVALID_PARAM, 0, c)
    else (CPA_STATUS_SUCCESS, pIv op, c) in
  if LAC_CIPHER_IS_CTR_MODE algorithm || LAC_CIPHER_IS_CBC_MODE algorithm
     || LAC_CIPHER_IS_AES_F8 algorithm || LAC_CIPHER_IS_XTS_MODE algorithm then
    if pIv op =? 0 then (CPA_STATUS_INVALID_PARAM, 0, c)
    else if negb (ivLenInBytes op =? LacSymQat_CipherIvSizeBytesGet algorithm)
            && negb ((LAC_CIPHER_IS_GCM algorithm && (ivLenInBytes op =? LAC_CIPHER_IV_SIZE_GCM_12))
                     || LAC_CIPHER_IS_CCM algorithm)
    then (CPA_STATUS_INVALID_PARAM, 0, c)
    else if ICP_QAT_FW_LA_PARTIAL_NONE =? qatPacketType then (CPA_STATUS_SUCCESS, pIv op, c)
    else
      let start := ICP_QAT_FW_LA_PARTIAL_START =? qatPacketType in
      let c := if start || (ICP_QAT_FW_LA_PARTIAL_MID =? qatPacketType)
               then set_updates (start || updateSessionIvOnSend c) true c else c in
      (CPA_STATUS_SUCCESS, cipherPartialOpState D, c)
  else if LAC_CIPHER_IS_KASUMI algorithm then user_iv LAC_CIPHER_KASUMI_F8_IV_LENGTH
  else if LAC_CIPHER_IS_SNOW3G_UEA2 algorithm then user_iv ICP_QAT_HW_SNOW_3G_UEA2_IV_SZ
  else if LAC_CIPHER_IS_ARC4 algorithm then
    if ICP_QAT_FW_LA_PARTIAL_NONE =? qatPacketType
    then (CPA_STATUS_SUCCESS, cipherARC4InitialState D, c)
    else (CPA_STATUS_SUCCESS, cipherPartialOpState D,
          if ICP_QAT_FW_LA_PARTIAL_START =? qatPacketType
          then set_updates true (updateUserIvOnRecieve c) c else c)
  else if LAC_CIPHER_IS_ZUC_EEA3 algorithm then user_iv ICP_QAT_HW_ZUC_3G_EEA3_IV_SZ
  else (CPA_STATUS_SUCCESS, 0, c).

(** The IV by pointer or in the message. *)
Definition LacSymQat_CipherRequestParamsPopulate (m : icp_qat_fw_la_bulk_req)
    (cipherOffsetInBytes cipherLenInBytes ivBufferPhysAddr pIvBufferVirt : Z)
    : M state icp_qat_fw_la_bulk_req :=
  let f := serv_specif_flags m in
  let with_iv f iv := Req f (opaque_data m) (src_data_addr m) (dest_data_addr m)
    cipherOffsetInBytes cipherLenInBytes iv (req_key_sz m) in
  if (LAC_SYM_QAT_HASH_IV_REQ_MAX_SIZE_QW <? reqCacheFtr_state_sz D)
     || (ICP_QAT_FW_LA_UPDATE_STATE_GET f =? ICP_QAT_FW_LA_UPDATE_STATE)
     || (pIvBufferVirt =? 0)
     || (ICP_QAT_FW_LA_PARTIAL_GET f =? ICP_QAT_FW_LA_PARTIAL_END) then
    ret (with_iv (ICP_QAT_FW_LA_CIPH_IV_FLD_FLAG_SET f ICP_QAT_FW_CIPH_IV_64BIT_PTR)
           (inl ivBufferPhysAddr))
  else
    b <- gets (λ s, mem s !! pIvBufferVirt) ;; b <- lift b ;;
    let n := LAC_QUADWORDS_TO_BYTES (reqCacheFtr_state_sz D) in
    if n <=? Z.of_nat (length b) then
      ret (with_iv (ICP_QAT_FW_LA_CIPH_IV_FLD_FLAG_SET f ICP_QAT_FW_CIPH_IV_16BYTE_DATA)
             (inr (take (Z.to_nat n) b ++ replicate (16 - Z.to_nat n) 0)))
    else fault.

(** ** A request *)

Definition lift_descs {A} (m : M memory A) : M state A :=
  λ s, match m (descs s) with None => None | Some (a, d) => Some (a, set_descs d s) end.

(** The descriptors of the source and, when it is another list, of the
    destination: the status and their physical addresses. *)
Definition write_descs (src : CpaBufferList) (dst : option CpaBufferList) : M state (Z * Z * Z) :=
  let! (status, a) := lift_descs (LacBuffDesc_BufferListDescWrite virt2phys src false) in
  let srcAddrPhys := default 0 a in
  match dst with
  | Some dst =>
    if status =? CPA_STATUS_SUCCESS then
      let! (status, a) := lift_descs (LacBuffDesc_BufferListDescWrite virt2phys dst false) in
      ret (status, srcAddrPhys, default 0 a)
    else ret (status, srcAddrPhys, 0)
  | None => ret (status, srcAddrPhys, 0)
  end.

(** [SalQatMsg_CmnMidWrite] on a copy of the session's template. *)
Definition new_msg (flags key_sz pCookie srcBuffer dstBuffer : Z) : icp_qat_fw_la_bulk_req :=
  Req flags pCookie srcBuffer (if 0 =? dstBuffer then srcBuffer else dstBuffer) 0 0 (inl 0) key_sz.

(** The cookie and the message of a request. *)
Definition new_cookie (pCookie tag : Z) (op : CpaCySymOpData) (dst : CpaBufferList)
    (srcAddrPhys dstAddrPhys : Z) (s : session) : lac_sym_bulk_cookie :=
  let qatPacketType := LacSymQat_packetTypeGet (packetType op) (partialState s) in
  let key := bool_decide (CPA_CY_SYM_PACKET_TYPE_PARTIAL = packetType op)
    && LAC_CIPHER_IS_XTS_MODE (cipherAlgorithm D) && (qatPacketType =? ICP_QAT_FW_LA_PARTIAL_START) in
  let flags := LacSymQat_LaPacketCommandFlagSet qatPacketType ICP_QAT_FW_LA_CMD_CIPHER
    (cipherAlgorithm D) (reqCacheHdr_flags D) (ivLenInBytes op) in
  Cookie tag (new_msg flags (cipher_key_sz s) pCookie srcAddrPhys dstAddrPhys) op false false key dst 0.

Definition set_qatMsg m c := Cookie (pCallbackTag c) m (pOpData c) (updateSessionIvOnSend c)
  (updateUserIvOnRecieve c) (updateKeySizeOnRecieve c) (pDstBuffer c) (pNext c).

Definition LacAlgChain_UnlockSessionReader : M state () :=
  in_sess (λ x, set_accessReaders (accessReaders x - 1) x).

(** From the descriptors to the request parameters: the status, and whether the
    call has returned with it. *)
Definition populate (p tag : Z) (op : CpaCySymOpData) (src dst : CpaBufferList)
    (srcAddrPhys dstAddrPhys : Z) : M state (Z * bool) :=
  c <- gets (λ s, new_cookie p tag op dst srcAddrPhys dstAddrPhys (sess s)) ;;
  put_cookie p c ;;
  qatPacketType <- gets (λ s, LacSymQat_packetTypeGet (packetType op) (partialState (sess s))) ;;
  srcPktSize <- lift (LacBuffDesc_BufferListTotalSizeGet src) ;;
  let status := LacCipher_PerformParamCheck (cipherAlgorithm D) op srcPktSize in
  if negb (status =? CPA_STATUS_SUCCESS) then
    Lac_MemPoolEntryFree p ;; LacAlgChain_UnlockSessionReader ;; ret (status, true)
  else
  let '(status, pIvBuffer, c) := LacCipher_PerformIvCheck c qatPacketType in
  put_cookie p c ;;
  if negb (status =? CPA_STATUS_SUCCESS) then ret (status, false) else
  let ivBufferPhysAddr := if negb (pIvBuffer =? 0) then virt2phys pIvBuffer else 0 in
  if negb (pIvBuffer =? 0) && (ivBufferPhysAddr =? 0) then ret (CPA_STATUS_FAIL, false) else
  m <- LacSymQat_CipherRequestParamsPopulate (qatMsg c) (cryptoStartSrcOffsetInBytes op)
         (messageLenToCipherInBytes op) ivBufferPhysAddr pIvBuffer ;;
  put_cookie p (set_qatMsg m c) ;;
  ret (CPA_STATUS_SUCCESS, false).

(** [dst] is [None] when the destination is the source. *)
Definition LacAlgChain_Perform (tag : Z) (op : CpaCySymOpData) (src : CpaBufferList)
    (dst : option CpaBufferList) : M state Z :=
  in_sess (λ x, set_accessReaders (accessReaders x + 1) x) ;;
  p <- alloc_cookie ;;
  let! (status, srcAddrPhys, dstAddrPhys) :=
    (if p =? 0 then ret (CPA_STATUS_RESOURCE, 0, 0) else write_descs src dst) in
  let! (status, returned) :=
    (if status =? CPA_STATUS_SUCCESS
     then populate p tag op src (default src dst) srcAddrPhys dstAddrPhys
     else ret (status, false)) in
  if returned : bool then ret status else
  when (status =? CPA_STATUS_SUCCESS) (in_sess (λ x, set_pendingCbCount (pendingCbCount x + 1) x)) ;;
  LacAlgChain_UnlockSessionReader ;;
  status <- (if status =? CPA_STATUS_SUCCESS then
      status <- LacSymQueue_RequestSend D p ;;
      when (negb (status =? CPA_STATUS_SUCCESS))
        (in_sess (λ x, set_pendingCbCount (pendingCbCount x - 1) x)) ;;
      ret status
    else ret status) ;;
  when (negb (status =? CPA_STATUS_SUCCESS) && negb (p =? 0)) (Lac_MemPoolEntryFree p) ;;
  ret status.

(** The first of the three cases of the macro [IS_PARTIAL_ON_SYM_OP_SUPPORTED]. *)
Definition IS_PARTIAL_ON_CIPHER_SUPPORTED (alg : CpaCySymCipherAlgorithm) : bool :=
  negb (LAC_CIPHER_IS_KASUMI alg) && negb (LAC_CIPHER_IS_AES_F8 alg)
  && negb (LAC_CIPHER_IS_SNOW3G_UEA2 alg) && negb (LAC_CIPHER_IS_ZUC_EEA3 alg).

Definition LacSymPerform_BufferParamCheck (src : CpaBufferList) (dst : option CpaBufferList)
    (op : CpaCySymOpData) : M state Z :=
  let! (st, srcBufferLen) := lift (LacBuffDesc_BufferListVerify src 0 LAC_NO_ALIGNMENT_SHIFT) in
  if negb (st =? CPA_STATUS_SUCCESS) then ret CPA_STATUS_INVALID_PARAM else
  ok <- match dst with
    | None => ret true
    | Some dst =>
      let! (st, dstBufferLen) := lift (LacBuffDesc_BufferListVerify dst 0 LAC_NO_ALIGNMENT_SHIFT) in
      ret ((st =? CPA_STATUS_SUCCESS) && (srcBufferLen =? dstBufferLen))
    end ;;
  if negb ok then ret CPA_STATUS_INVALID_PARAM else
  if bool_decide (CPA_CY_SYM_PACKET_TYPE_FULL = packetType op) then ret CPA_STATUS_SUCCESS else
  if negb (IS_PARTIAL_ON_CIPHER_SUPPORTED (cipherAlgorithm D)) then ret CPA_STATUS_INVALID_PARAM else
  ps <- gets (λ s, partialState (sess s)) ;;
  ret (if LacSym_PartialPacketStateCheck (packetType op) ps =? CPA_STATUS_SUCCESS
       then CPA_STATUS_SUCCESS else CPA_STATUS_INVALID_PARAM).

Definition LacSym_Perform (tag : Z) (op : CpaCySymOpData) (src : CpaBufferList)
    (dst : option CpaBufferList) : M state Z :=
  status <- LacSymPerform_BufferParamCheck src dst op ;;
  if negb (status =? CPA_STATUS_SUCCESS) then ret status else
  status <- LacAlgChain_Perform tag op src dst ;;
  when ((status =? CPA_STATUS_SUCCESS)
        && negb (bool_decide (CPA_CY_SYM_PACKET_TYPE_FULL = packetType op)))
    (in_sess (λ x, set_partialState (LacSym_PartialPacketStateUpdate (packetType op) (partialState x)) x)) ;;
  ret status.

(** ** The session *)

(** The fields [LacAlgChain_SessionInit] sets for the queue and the counters. *)
Definition session_init (key_sz : Z) : session :=
  Session CPA_CY_SYM_PACKET_TYPE_FULL key_sz 0 0 true 0 0.

Definition cpaCySymSessionInUse : M state bool :=
  gets (λ s, negb (pendingCbCount (sess s) =? 0)).

(** The session can be removed when the status is success. *)
Definition cpaCySymRemoveSession : M state Z :=
  n <- gets (λ s, pendingCbCount (sess s)) ;;
  ret (if negb (n =? 0) then CPA_STATUS_RETRY else CPA_STATUS_SUCCESS).

End code.
End SymSession.
