(* ===== verification/SymSystem.v ===== *)
(** * A symmetric session, its client and the device

    The system of which [SymSystemInv] shows that it works: a session of
    [SymSession], a client that submits requests, and a device that takes the
    requests on the ring in any order, computes them and answers them in any
    order.  The device's engine and the address translation are parameters.
    [spec_out] is what processing the accepted requests one after the other
    computes. *)

From S2P Require Import Prelude.
From S2P Require Import BufferDesc.
From S2P Require Import SymCipher.
From S2P Require Import SymQueue.
From S2P Require Import SymSession.

#[local] Open Scope Z_scope.
#[local] Open Scope qat_scope.

Module SymSystem.
Export SymSession.

(** ** The system

    A client submits requests and gets its callback called, the device takes
    requests from the ring in any order and answers them in any order. *)

(** What the device computes from: the data's place, the region, the key size. *)
Record job := Job { j_src : Z; j_dst : Z; j_off : Z; j_len : Z; j_key : Z }.

(** A request a client has submitted, with the contents of its IV buffer. *)
Record request := Request {
  r_tag : Z; r_op : CpaCySymOpData; r_src : CpaBufferList; r_dst : option CpaBufferList;
  r_iv : list Z;
}.

Section system.
Context (D : session_desc) (virt2phys : Z → Z).
Context {Out : Type} (engine : job → list Z → list Z * Out).

(** The state the requests of the client leave out: those accepted, what the
    device has computed for each, by its place on the ring, and the places of
    those whose callback has been called. *)
Record sys := Sys { st : state; subs : list request; outs : gmap nat Out; handled : list nat }.

Definition iv_size : nat := Z.to_nat (LAC_QUADWORDS_TO_BYTES (reqCacheFtr_state_sz D)).

Definition msg_job (m : icp_qat_fw_la_bulk_req) : job :=
  Job (src_data_addr m) (dest_data_addr m) (cipher_offset m) (cipher_length m) (req_key_sz m).

(** The device reads the IV from the message or from the buffer at [a], computes
    and, when the flags say so, writes the new IV back. *)
Definition device (m : icp_qat_fw_la_bulk_req) (a : Z) (mm : gmap Z (list Z))
    : option (Out * gmap Z (list Z)) :=
  match cipher_IV m with
  | inr data => Some ((engine (msg_job m) (take iv_size data)).2, mm)
  | inl ptr =>
    if ptr =? 0 then Some ((engine (msg_job m) []).2, mm)
    else if virt2phys a =? ptr then
      b ← mm !! a;
      let '(iv, o) := engine (msg_job m) (take iv_size b) in
      Some (o, if ICP_QAT_FW_LA_UPDATE_STATE_GET (serv_specif_flags m) =? ICP_QAT_FW_LA_UPDATE_STATE
               then <[a := iv ++ drop iv_size b]> mm else mm)
    else None
  end.

Inductive event :=
  | Submit (r_tag : Z) (op : CpaCySymOpData) (src : CpaBufferList) (dst : option CpaBufferList)
           (als ps : list Z)
  | Device (k : nat) (a : Z)
  | Response (k : nat) (cmnRespFlags : Z) (ps : list Z).

Definition exec (e : event) (s : sys) : option sys :=
  match e with
  | Submit tag op src dst als ps =>
    '(status, s') ← LacSym_Perform D virt2phys tag op src dst (set_allocs als (set_puts ps (st s)));
    let iv := default [] (mem (st s) !! pIv op) in
    Some (Sys s' (if status =? CPA_STATUS_SUCCESS then subs s ++ [Request tag op src dst iv] else subs s)
              (outs s) (handled s))
  | Device k a =>
    m ← ring (st s) !! k;
    if decide (k ∈ dom (outs s)) then None else
    '(o, mm) ← device m a (mem (st s));
    Some (Sys (set_mem mm (st s)) (subs s) (<[k := o]> (outs s)) (handled s))
  | Response k flags ps =>
    m ← ring (st s) !! k;
    if decide (k ∈ dom (outs s) ∧ k ∉ handled s) then
      '(_, s') ← LacSymCb_ProcessCallback D (opaque_data m) flags (set_puts ps (st s));
      Some (Sys s' (subs s) (outs s) (handled s ++ [k]))
    else None
  end.

(** ** What sequential processing would compute *)

Context (key0 : Z) (arc4 : list Z).

Definition desc_phys (l : CpaBufferList) : option Z :=
  if virt2phys (pPrivateMetaData l) =? INVALID_PHYSICAL_ADDRESS then None
  else if translated virt2phys false (bufs_of l)
  then Some (LAC_ALIGN_POW2_ROUNDUP (virt2phys (pPrivateMetaData l)) ICP_DESCRIPTOR_ALIGNMENT_BYTES)
  else None.

Definition request_job (r : request) : job :=
  let src := default 0 (desc_phys (r_src r)) in
  let dst := default 0 (r_dst r ≫= desc_phys) in
  Job src (if 0 =? dst then src else dst) (cryptoStartSrcOffsetInBytes (r_op r))
    (messageLenToCipherInBytes (r_op r)) key0.

(** The state between requests: whether a stream of partial packets is open,
    and its IV. *)
Abbreviation spec_state := (CpaCySymPacketType * list Z)%type.

Definition own_iv (r : request) : list Z :=
  take iv_size (if LAC_CIPHER_IS_ARC4 (cipherAlgorithm D) then arc4 else r_iv r).

Definition starts (acc : spec_state) (r : request) : bool :=
  bool_decide (packetType (r_op r) = CPA_CY_SYM_PACKET_TYPE_PARTIAL)
  && bool_decide (acc.1 = CPA_CY_SYM_PACKET_TYPE_FULL).

(** The IV a request is processed with: its own for a full packet and for the
    first of a stream, the one the packet before left otherwise. *)
Definition iv_for (acc : spec_state) (r : request) : list Z :=
  if bool_decide (packetType (r_op r) = CPA_CY_SYM_PACKET_TYPE_FULL) || starts acc r
  then own_iv r else acc.2.

Definition spec_step (acc : spec_state) (r : request) : spec_state :=
  match packetType (r_op r) with
  | CPA_CY_SYM_PACKET_TYPE_FULL => acc
  | CPA_CY_SYM_PACKET_TYPE_PARTIAL =>
    (CPA_CY_SYM_PACKET_TYPE_PARTIAL, (engine (request_job r) (iv_for acc r)).1)
  | CPA_CY_SYM_PACKET_TYPE_LAST_PARTIAL => (CPA_CY_SYM_PACKET_TYPE_FULL, acc.2)
  end.

Definition spec_run (l : list request) : spec_state :=
  foldl spec_step (CPA_CY_SYM_PACKET_TYPE_FULL, []) l.

(** What the [k]-th of a list of requests computes. *)
Definition spec_out (l : list request) (k : nat) : option Out :=
  (λ r, (engine (request_job r) (iv_for (spec_run (take k l)) r)).2) <$> l !! k.

(** ** What is asked of the client and the environment *)

Definition stateful (alg : CpaCySymCipherAlgorithm) : bool :=
  LAC_CIPHER_IS_CTR_MODE alg || LAC_CIPHER_IS_CBC_MODE alg || LAC_CIPHER_IS_AES_F8 alg.

(** A buffer list whose array has its [numBuffers] entries. *)
Definition list_ok (l : CpaBufferList) : Prop := numBuffers l = Z.of_nat (length (bufs_of l)).

(** A request whose callback has not been called. *)
Definition outstanding (s : sys) (r : request) : Prop :=
  ∃ k, subs s !! k = Some r ∧ k ∉ handled s.

(** The IV buffer of a request is readable and none of the session's; when it is
    the first of a stream, no outstanding request writes its IV there. *)
Definition iv_buffer_ok (op : CpaCySymOpData) (s : sys) : Prop :=
  pIv op ≠ 0 →
  pIv op ≠ cipherPartialOpState D ∧ pIv op ≠ cipherARC4InitialState D ∧
  (∃ b, mem (st s) !! pIv op = Some b ∧ 0 <= ivLenInBytes op <= Z.of_nat (length b)) ∧
  (packetType op = CPA_CY_SYM_PACKET_TYPE_PARTIAL →
   partialState (sess (st s)) = CPA_CY_SYM_PACKET_TYPE_FULL →
   ∀ r, outstanding s r → pIv (r_op r) ≠ pIv op).

Definition allowed (e : event) (s : sys) : Prop :=
  match e with
  | Submit _ op src dst als _ =>
    list_ok src ∧ (∀ d, dst = Some d → list_ok d) ∧ iv_buffer_ok op s ∧
    ∃ p rest, alloc_loop als = Some (p, rest) ∧ p ∉ dom (cookies (st s))
  | Device k a =>
    k ∉ dom (outs s) ∧ ∃ m, ring (st s) !! k = Some m ∧
      ∀ ptr, cipher_IV m = inl ptr → ptr ≠ 0 → virt2phys a = ptr
  | Response k flags ps =>
    k ∈ dom (outs s) ∧ k ∉ handled s ∧ patient ps ∧
    ICP_QAT_FW_COMN_RESP_CRYPTO_STAT_GET flags = ICP_QAT_FW_COMN_STATUS_FLAG_OK
  end.

(** A cipher session after its initialisation. *)
Definition start (s : sys) : Prop :=
  sess (st s) = session_init key0 ∧ cookies (st s) = ∅ ∧ ring (st s) = [] ∧ calls (st s) = [] ∧
  subs s = [] ∧ outs s = ∅ ∧ handled s = [] ∧
  (∃ b, mem (st s) !! cipherPartialOpState D = Some b ∧
    length b = Z.to_nat LAC_CIPHER_ARC4_STATE_LEN_BYTES) ∧
  mem (st s) !! cipherARC4InitialState D = Some arc4.

Inductive reach : sys → Prop :=
  | reach_start s : start s → reach s
  | reach_step s e s' : reach s → allowed e s → exec e s = Some s' → reach s'.

(** The sessions considered: cipher only, so neither CCM nor GCM; not XTS. *)
Record session_ok : Prop := {
  so_op : symOperation D = CPA_CY_SYM_OP_CIPHER;
  so_alg : LAC_CIPHER_IS_CCM (cipherAlgorithm D) = false ∧ LAC_CIPHER_IS_GCM (cipherAlgorithm D) = false ∧
    LAC_CIPHER_IS_XTS_MODE (cipherAlgorithm D) = false;
  so_sz : reqCacheFtr_state_sz D =
    LAC_BYTES_TO_QUADWORDS (LacSymQat_CipherIvSizeBytesGet (cipherAlgorithm D));
  so_buffers : cipherPartialOpState D ≠ 0 ∧ cipherARC4InitialState D ≠ 0 ∧
    cipherPartialOpState D ≠ cipherARC4InitialState D;
  so_arc4 : length arc4 = Z.to_nat LAC_CIPHER_ARC4_STATE_LEN_BYTES;
  so_virt2phys : ∀ a b, virt2phys a = virt2phys b → virt2phys a ≠ 0 → a = b;
  so_engine : ∀ j iv, length (engine j iv).1 = length iv;
}.

End system.

End SymSystem.
