(* ===== verification/SymSystemInv.v ===== *)
(** * The invariant of a symmetric session

    Every state the system of [SymSystem] reaches satisfies [inv]: the accepted
    requests are the messages on the ring followed by the queue, each request
    whose callback has not been called has its cookie, the session's IV buffer
    holds the IV the next packet of the stream needs, and the session is blocked
    while a partial request is under way.  It is split into [core], on the part
    of the state that sending, the device and the callback change, and
    [simple]. *)

From S2P Require Import Prelude.
From S2P Require Import BufferDesc.
From S2P Require Import SymCipher.
From S2P Require Import SymQueue.
From S2P Require Import SymSession.
From S2P Require Import SymSystem.

#[local] Open Scope Z_scope.
#[local] Open Scope qat_scope.

Module SymSystemInv.
Import SymSystem.

(** ** The invariant *)

Section invariant.
Context (D : session_desc) (virt2phys : Z → Z).
Context {Out : Type} (engine : job → list Z → list Z * Out) (key0 : Z) (arc4 : list Z).
Hypothesis (HD : session_ok D virt2phys engine arc4).

Abbreviation alg := (cipherAlgorithm D).
Abbreviation n := (iv_size D).
Abbreviation spec_step := (spec_step D virt2phys engine key0 arc4).
Abbreviation spec_run := (spec_run D virt2phys engine key0 arc4).
Abbreviation spec_out := (spec_out D virt2phys engine key0 arc4).
Abbreviation iv_for := (iv_for D arc4).
Abbreviation own_iv := (own_iv D arc4).
Abbreviation request_job := (request_job virt2phys key0).
Abbreviation sys := (@sys Out).

Definition r_full (r : request) : bool := bool_decide (CPA_CY_SYM_PACKET_TYPE_FULL = packetType (r_op r)).

(** The ciphers without an IV. *)
Definition no_iv : bool :=
  match alg with
  | CPA_CY_SYM_CIPHER_NULL | CPA_CY_SYM_CIPHER_AES_ECB | CPA_CY_SYM_CIPHER_DES_ECB
  | CPA_CY_SYM_CIPHER_3DES_ECB => true
  | _ => false
  end.

(** What is known of an accepted request, in the state its predecessors leave. *)
Record req_ok (acc : CpaCySymPacketType * list Z) (r : request) : Prop := {
  ro_partial : r_full r = false → IS_PARTIAL_ON_CIPHER_SUPPORTED alg = true;
  ro_last : packetType (r_op r) = CPA_CY_SYM_PACKET_TYPE_LAST_PARTIAL →
    acc.1 = CPA_CY_SYM_PACKET_TYPE_PARTIAL;
  ro_iv : stateful alg = true → pIv (r_op r) ≠ 0 ∧ ivLenInBytes (r_op r) = Z.of_nat n;
  ro_buffer : pIv (r_op r) ≠ 0 →
    pIv (r_op r) ≠ cipherPartialOpState D ∧ pIv (r_op r) ≠ cipherARC4InitialState D;
  ro_own : length (own_iv r) = n;
}.

(** The message of a request: the IV is in it, in the key schedule or in the
    session's buffer. *)
Definition iv_field (r : request) (iv : Z + list Z) : Prop :=
  if no_iv then iv = inl 0
  else if r_full r then
    if LAC_CIPHER_IS_ARC4 alg
    then iv = inl (virt2phys (cipherARC4InitialState D)) ∧ virt2phys (cipherARC4InitialState D) ≠ 0
    else ∃ pad, iv = inr (own_iv r ++ pad)
  else iv = inl (virt2phys (cipherPartialOpState D)) ∧ virt2phys (cipherPartialOpState D) ≠ 0.

Record msg_ok (r : request) (p : Z) (m : icp_qat_fw_la_bulk_req) : Prop := {
  mo_opaque : opaque_data m = p;
  mo_job : msg_job m = request_job r;
  mo_update : ICP_QAT_FW_LA_UPDATE_STATE_GET (serv_specif_flags m) =
    if bool_decide (packetType (r_op r) = CPA_CY_SYM_PACKET_TYPE_PARTIAL) && negb no_iv
    then ICP_QAT_FW_LA_UPDATE_STATE else ICP_QAT_FW_LA_NO_UPDATE_STATE;
  mo_iv : iv_field r (cipher_IV m);
}.

Record cookie_ok (acc : CpaCySymPacketType * list Z) (r : request) (p : Z) (c : lac_sym_bulk_cookie)
    : Prop := {
  co_tag : pCallbackTag c = r_tag r;
  co_op : pOpData c = r_op r;
  co_dst : pDstBuffer c = default (r_src r) (r_dst r);
  co_msg : msg_ok r p (qatMsg c);
  co_send : updateSessionIvOnSend c = starts acc r && (stateful alg || LAC_CIPHER_IS_ARC4 alg);
  co_recv : updateUserIvOnRecieve c =
    bool_decide (packetType (r_op r) = CPA_CY_SYM_PACKET_TYPE_PARTIAL) && stateful alg;
  co_key : updateKeySizeOnRecieve c = false;
}.

(** The part of the system the core of the invariant speaks of. *)
Record view := View {
  v_mem : gmap Z (list Z); v_cookies : gmap Z lac_sym_bulk_cookie;
  v_ring : list icp_qat_fw_la_bulk_req; v_nb : bool;
  v_subs : list request; v_outs : gmap nat Out; v_handled : list nat;
}.
Definition view_of (s : sys) : view :=
  View (mem (st s)) (cookies (st s)) (ring (st s)) (nonBlockingOpsInProgress (sess (st s)))
    (subs s) (outs s) (handled s).

(** The state the requests before the [k]-th leave. *)
Definition acc_at (v : view) (k : nat) : CpaCySymPacketType * list Z := spec_run (take k (v_subs v)).

(** The cookies of the requests, by their place: sent, then queued. *)
Definition addrs (v : view) (q : list Z) : list Z := (opaque_data <$> v_ring v) ++ q.

(** A partial request the device has not processed: it is the last on the ring. *)
Definition unprocessed (v : view) (k : nat) (r : request) : Prop :=
  length (v_ring v) = S k ∧ v_subs v !! k = Some r ∧ r_full r = false ∧ k ∉ dom (v_outs v).

Record core (v : view) (q : list Z) (X : gset Z) : Prop := {
  c_len : (length (v_ring v) + length q)%nat = length (v_subs v);
  c_reqs : ∀ k r, v_subs v !! k = Some r → req_ok (acc_at v k) r;
  c_cookies : ∀ k p r, k ∉ v_handled v → addrs v q !! k = Some p → v_subs v !! k = Some r →
    p ≠ 0 ∧ ∃ c, v_cookies v !! p = Some c ∧ cookie_ok (acc_at v k) r p c;
  c_inj : ∀ j k p, j ∉ v_handled v → k ∉ v_handled v →
    addrs v q !! j = Some p → addrs v q !! k = Some p → j = k;
  c_dom : ∀ p, p ∈ dom (v_cookies v) → p ∉ X → ∃ k, k ∉ v_handled v ∧ addrs v q !! k = Some p;
  c_extra : ∀ p k, p ∈ X → k ∉ v_handled v → addrs v q !! k ≠ Some p;
  c_msgs : ∀ k m r, v_ring v !! k = Some m → v_subs v !! k = Some r → msg_ok r (opaque_data m) m;
  c_handled : NoDup (v_handled v) ∧ ∀ k, k ∈ v_handled v → k ∈ dom (v_outs v);
  c_processed : ∀ k, k ∈ dom (v_outs v) → (k < length (v_ring v))%nat;
  c_outs : ∀ k o, v_outs v !! k = Some o → spec_out (v_subs v) k = Some o;
  c_block : ∀ k r, (k < length (v_ring v))%nat → k ∉ v_handled v → v_subs v !! k = Some r →
    r_full r = false → v_nb v = false ∧ length (v_ring v) = S k;
  c_blocked : v_nb v = false → ∃ k r, length (v_ring v) = S k ∧ k ∉ v_handled v ∧
    v_subs v !! k = Some r ∧ r_full r = false;
  c_state : ∃ B, v_mem v !! cipherPartialOpState D = Some B ∧
    length B = Z.to_nat LAC_CIPHER_ARC4_STATE_LEN_BYTES ∧
    (∀ k r, unprocessed v k r → take n B = iv_for (acc_at v k) r) ∧
    ((∀ k r, ¬ unprocessed v k r) →
     (acc_at v (length (v_ring v))).1 = CPA_CY_SYM_PACKET_TYPE_PARTIAL →
     take n B = (acc_at v (length (v_ring v))).2);
  c_arc4 : v_mem v !! cipherARC4InitialState D = Some arc4;
  c_ivs : stateful alg = true → ∀ k r, k ∉ v_handled v → v_subs v !! k = Some r →
    ∃ b, v_mem v !! pIv (r_op r) = Some b ∧ (n <= length b)%nat ∧
      ((length (v_ring v) <= k)%nat → starts (acc_at v k) r = true →
         take n b = own_iv r ∧
         ∀ j r', (j < k)%nat → j ∉ v_handled v → v_subs v !! j = Some r' → pIv (r_op r') ≠ pIv (r_op r));
}.

(** ** Facts about the sequential processing *)

Lemma spec_run_snoc l r : spec_run (l ++ [r]) = spec_step (spec_run l) r.
Proof. unfold SymSystem.spec_run. by rewrite foldl_app. Qed.

Lemma acc_at_S v k r : v_subs v !! k = Some r → acc_at v (S k) = spec_step (acc_at v k) r.
Proof. intros H. unfold acc_at. by rewrite (take_S_r _ _ _ H), spec_run_snoc. Qed.

Lemma spec_out_snoc l r k : (k < length l)%nat → spec_out (l ++ [r]) k = spec_out l k.
Proof.
  intros Hk. unfold SymSystem.spec_out. by rewrite lookup_app_l, take_app_le by lia.
Qed.

Lemma spec_step_full acc r : r_full r = true → spec_step acc r = acc.
Proof. unfold r_full, SymSystem.spec_step. intros H%bool_decide_eq_true. by rewrite <- H. Qed.

Definition acc_wf (acc : CpaCySymPacketType * list Z) : Prop :=
  acc.1 ≠ CPA_CY_SYM_PACKET_TYPE_LAST_PARTIAL ∧
  (acc.1 = CPA_CY_SYM_PACKET_TYPE_PARTIAL → length acc.2 = n).

Lemma iv_for_length acc r : req_ok acc r → acc_wf acc → length (iv_for acc r) = n.
Proof.
  intros [_ Hl _ _ Hown] [Hne Hacc]. unfold SymSystem.iv_for.
  destruct (bool_decide (packetType _ = _)) eqn:Ef; [by apply Hown|]. cbn [orb].
  destruct (starts acc r) eqn:Es; [by apply Hown|]. apply Hacc.
  unfold starts in Es. apply bool_decide_eq_false in Ef.
  destruct (packetType (r_op r)) eqn:Ep; [done| |by apply Hl].
  rewrite bool_decide_eq_true_2 in Es by done. cbn [andb] in Es. apply bool_decide_eq_false in Es.
  by destruct acc as [[] iv].
Qed.

Lemma spec_step_wf acc r : req_ok acc r → acc_wf acc → acc_wf (spec_step acc r).
Proof.
  intros Hr Hacc. pose proof (iv_for_length acc r Hr Hacc) as Hlen.
  unfold SymSystem.spec_step, acc_wf. destruct (packetType (r_op r)); [done|cbn|by cbn].
  split; [done|]. intros _. by rewrite (so_engine _ _ _ _ HD).
Qed.

Lemma spec_run_wf l :
  (∀ k r, l !! k = Some r → req_ok (spec_run (take k l)) r) → acc_wf (spec_run l).
Proof.
  induction l as [|r l IH] using rev_ind; intros H; [by split|].
  rewrite spec_run_snoc. apply spec_step_wf.
  - specialize (H (length l) r). rewrite lookup_app_r, Nat.sub_diag, take_app_length in H by lia. by apply H.
  - apply IH. intros k r' Hk. specialize (H k r').
    pose proof (lookup_lt_Some _ _ _ Hk). rewrite lookup_app_l, take_app_le in H by lia. by apply H.
Qed.

Lemma core_acc_wf v q X k : core v q X → acc_wf (acc_at v k).
Proof.
  intros C. apply spec_run_wf. intros j r Hj. rewrite lookup_take_Some in Hj. destruct Hj as [Hj Hlt].
  rewrite take_take, Nat.min_l by lia. by apply (c_reqs _ _ _ C).
Qed.

(** ** The device *)

Lemma no_iv_size : no_iv = true → n = O.
Proof.
  unfold no_iv, iv_size. rewrite (so_sz _ _ _ _ HD). by destruct alg.
Qed.

Lemma iv_size_max : (n <= Z.to_nat LAC_CIPHER_ARC4_STATE_LEN_BYTES)%nat.
Proof. unfold iv_size. rewrite (so_sz _ _ _ _ HD). destruct alg; vm_compute; lia. Qed.

Lemma take_own_iv acc r (x : list Z) : req_ok acc r → take n (own_iv r ++ x) = own_iv r.
Proof. intros H. rewrite take_app_length'; [done|]. by rewrite (ro_own _ _ H). Qed.

Lemma starts_full acc r : r_full r = true → iv_for acc r = own_iv r.
Proof.
  unfold r_full, SymSystem.iv_for. intros H%bool_decide_eq_true. by rewrite bool_decide_eq_true_2.
Qed.

Lemma r_full_false r : r_full r = false ↔ packetType (r_op r) ≠ CPA_CY_SYM_PACKET_TYPE_FULL.
Proof. unfold r_full. rewrite bool_decide_eq_false. naive_solver. Qed.

(** The device uses the IV of the sequential processing; it writes at most to
    the session's buffer. *)
Lemma device_spec v q X k m r a :
  core v q X → v_ring v !! k = Some m → v_subs v !! k = Some r → k ∉ dom (v_outs v) →
  (∀ ptr, cipher_IV m = inl ptr → ptr ≠ 0 → virt2phys a = ptr) →
  let e := engine (request_job r) (iv_for (acc_at v k) r) in
  ∃ mm, device D virt2phys engine m a (v_mem v) = Some (e.2, mm) ∧
    (bool_decide (packetType (r_op r) = CPA_CY_SYM_PACKET_TYPE_PARTIAL) && negb no_iv = false ∧
       mm = v_mem v ∨
     packetType (r_op r) = CPA_CY_SYM_PACKET_TYPE_PARTIAL ∧ ∃ B,
       v_mem v !! cipherPartialOpState D = Some B ∧
       mm = <[cipherPartialOpState D := e.1 ++ drop n B]> (v_mem v)).
Proof.
  intros C Hm Hr Hk Ha e. destruct (c_msgs _ _ _ C k m r Hm Hr) as [_ Hjob Hupd Hiv].
  pose proof (c_reqs _ _ _ C k r Hr) as Hreq. pose proof (core_acc_wf _ _ _ k C) as Hwf.
  pose proof (lookup_lt_Some _ _ _ Hm) as Hlt.
  unfold device. rewrite Hjob. unfold iv_field in Hiv. destruct no_iv eqn:Eno.
  { rewrite Hiv. cbn [Z.eqb]. exists (v_mem v). split; [|left; by rewrite andb_false_r].
    pose proof (iv_for_length _ _ Hreq Hwf) as Hlen. rewrite (no_iv_size Eno) in Hlen.
    unfold e. by rewrite (nil_length_inv _ Hlen). }
  destruct (r_full r) eqn:Efull.
  - assert (e = engine (request_job r) (own_iv r)) as -> by (unfold e; by rewrite (starts_full _ _ Efull)).
    assert (bool_decide (packetType (r_op r) = CPA_CY_SYM_PACKET_TYPE_PARTIAL) = false) as Ep.
    { unfold r_full in Efull. apply bool_decide_eq_true in Efull. by rewrite <- Efull. }
    rewrite Ep in *. cbn [andb] in *. exists (v_mem v). split; [|by left].
    destruct (LAC_CIPHER_IS_ARC4 alg) eqn:Earc.
    + destruct Hiv as [Hiv Hne]. rewrite Hiv. rewrite (proj2 (Z.eqb_neq _ 0)) by done.
      specialize (Ha _ Hiv Hne). rewrite Ha, Z.eqb_refl.
      apply (so_virt2phys _ _ _ _ HD) in Ha as ->; [|by rewrite Ha].
      rewrite (c_arc4 _ _ _ C). cbn [mbind option_bind]. unfold SymSystem.own_iv. rewrite Earc.
      rewrite Hupd. by destruct (engine _ _).
    + destruct Hiv as [pad Hiv]. rewrite Hiv. by rewrite (take_own_iv _ _ _ Hreq).
  - destruct Hiv as [Hiv Hne]. rewrite Hiv. rewrite (proj2 (Z.eqb_neq _ 0)) by done.
    specialize (Ha _ Hiv Hne). rewrite Ha, Z.eqb_refl.
    apply (so_virt2phys _ _ _ _ HD) in Ha as ->; [|by rewrite Ha].
    destruct (c_state _ _ _ C) as (B & HB & HlB & Hun & _). rewrite HB. cbn [mbind option_bind].
    rewrite (Hun k r).
    2: { split; [|done]. apply (c_block _ _ _ C k r Hlt); [|done|done].
         intros Hh. by apply Hk, (c_handled _ _ _ C). }
    fold e. rewrite (surjective_pairing e), Hupd. cbn [negb]. rewrite andb_true_r.
    destruct (bool_decide (packetType (r_op r) = _)) eqn:Ep; cbn [andb negb].
    + eexists. split; [done|]. right. apply bool_decide_eq_true in Ep. split; [done|]. by exists B.
    + exists (v_mem v). split; [done|]. by left.
Qed.

Lemma spec_out_at v k r : v_subs v !! k = Some r →
  spec_out (v_subs v) k = Some (engine (request_job r) (iv_for (acc_at v k) r)).2.
Proof. intros H. unfold SymSystem.spec_out. by rewrite H. Qed.

Lemma core_device v q X k m a o mm :
  core v q X → v_ring v !! k = Some m → k ∉ dom (v_outs v) →
  (∀ ptr, cipher_IV m = inl ptr → ptr ≠ 0 → virt2phys a = ptr) →
  device D virt2phys engine m a (v_mem v) = Some (o, mm) →
  core (View mm (v_cookies v) (v_ring v) (v_nb v) (v_subs v) (<[k := o]> (v_outs v)) (v_handled v)) q X.
Proof.
  intros C Hm Hk Ha Hdev. pose proof (lookup_lt_Some _ _ _ Hm) as Hlt.
  destruct (lookup_lt_is_Some_2 (v_subs v) k) as [r Hr]; [pose proof (c_len _ _ _ C); lia|].
  destruct (device_spec v q X k m r a C Hm Hr Hk Ha) as (mm' & E & Hmm).
  rewrite Hdev in E. injection E as -> <-. set (e := engine _ _) in *.
  assert (∀ x, x ≠ cipherPartialOpState D → mm !! x = v_mem v !! x) as Hother.
  { destruct Hmm as [[_ ->]|(_ & B & _ & ->)]; [done|]. intros x Hx. by rewrite lookup_insert_ne. }
  split; cbn [v_mem v_cookies v_ring v_nb v_subs v_outs v_handled]; try apply C.
  - split; [apply C|]. intros j Hj. rewrite dom_insert. apply elem_of_union_r. by apply C.
  - intros j. rewrite dom_insert. intros [->%elem_of_singleton|Hj]%elem_of_union; [done|by apply C].
  - intros j o. destruct (decide (j = k)) as [->|Hne].
    + rewrite lookup_insert_eq. intros [= <-]. by rewrite (spec_out_at v k r Hr).
    + rewrite lookup_insert_ne by done. apply C.
  - pose proof (core_acc_wf _ _ _ k C) as Hwf. pose proof (c_reqs _ _ _ C k r Hr) as Hreq.
    pose proof (iv_for_length _ _ Hreq Hwf) as Hlen.
    assert (∀ e1, engine (request_job r) (iv_for (acc_at v k) r) = e1 → length e1.1 = n) as Hle.
    { intros e1 <-. by rewrite (so_engine _ _ _ _ HD). }
    specialize (Hle e eq_refl).
    destruct (c_state _ _ _ C) as (B & HB & HlB & Hun & Hst).
    assert (k ∉ v_handled v) as Hnh by (intros Hh; by apply Hk, (c_handled _ _ _ C)).
    assert (∀ j r', unprocessed v j r' → (r_full r = false ∧ j = k) ∨ r_full r = true) as Huniq.
    { intros j r' (Hj & _). destruct (r_full r) eqn:Ef; [by right|left]. split; [done|].
      destruct (c_block _ _ _ C k r Hlt Hnh Hr Ef). lia. }
    assert (r_full r = false → length (v_ring v) = S k ∧ acc_at v (S k) = spec_step (acc_at v k) r) as Hpart.
    { intros Hf. split; [by apply (c_block _ _ _ C k r)|by apply acc_at_S]. }
    destruct Hmm as [[Hno ->]|(Hp & B' & HB' & ->)].
    + exists B. split_and!; [done..| |].
      * intros j r' (Hj & Hr' & Hf & Hd). apply Hun. split_and!; [done..|].
        cbn [v_outs] in Hd. rewrite dom_insert in Hd. set_solver.
      * change (acc_at _ (length (v_ring v))) with (acc_at v (length (v_ring v))). intros Hnone Hacc.
        destruct (r_full r) eqn:Ef.
        -- apply Hst; [|done]. intros j r' Hu. apply (Hnone j r').
           destruct Hu as (Hj & Hr' & Hf & Hd). split_and!; [done..|].
           cbn [v_outs]. rewrite dom_insert. apply not_elem_of_union. split; [|done].
           intros ->%elem_of_singleton. congruence.
        -- destruct (Hpart eq_refl) as [Hl HS]. rewrite Hl, HS in Hacc |- *.
           unfold SymSystem.spec_step in Hacc |- *. apply r_full_false in Ef.
           destruct (packetType (r_op r)) eqn:Ep; [done| |done]. cbn [snd]. rewrite bool_decide_eq_true_2 in Hno by done.
           cbn [andb] in Hno. apply negb_false_iff in Hno. rewrite (no_iv_size Hno) in Hle |- *.
           fold e. by rewrite take_0, (nil_length_inv _ Hle).
    + assert (r_full r = false) as Ef by (apply r_full_false; by rewrite Hp).
      destruct (Hpart Ef) as [Hl HS]. assert (B' = B) as -> by congruence.
      exists (e.1 ++ drop n B). rewrite lookup_insert_eq. split_and!; [done| | |].
      * rewrite length_app, length_drop, Hle, HlB. pose proof iv_size_max.
        unfold LAC_CIPHER_ARC4_STATE_LEN_BYTES in *. lia.
      * intros j r' (Hj & _ & _ & Hd). cbn [v_outs v_ring] in Hd, Hj. rewrite dom_insert in Hd. assert (j = k) as -> by lia. set_solver.
      * intros _ _. change (acc_at _ (length (v_ring v))) with (acc_at v (length (v_ring v))).
        rewrite Hl, HS. unfold SymSystem.spec_step. rewrite Hp. cbn [snd]. fold e.
        by rewrite take_app_length' by done.
  - rewrite Hother; [apply C|]. pose proof (so_buffers _ _ _ _ HD). naive_solver.
  - intros Hs j r' Hj Hr'. destruct (c_ivs _ _ _ C Hs j r' Hj Hr') as (b & Hb & Hrest).
    exists b. split; [|done]. rewrite Hother; [done|].
    destruct (c_reqs _ _ _ C j r' Hr') as [_ _ Hi Hbuf _]. destruct (Hi Hs). by apply Hbuf.
Qed.

(** ** Sending *)

Lemma session_iv_inv c m m' :
  session_iv D c m = Some m' →
  (updateSessionIvOnSend c = false ∧ m' = m) ∨
  (updateSessionIvOnSend c = true ∧ ∃ B b L,
     m !! cipherPartialOpState D = Some B ∧
     m !! (if LAC_CIPHER_IS_ARC4 alg then cipherARC4InitialState D else pIv (pOpData c)) = Some b ∧
     L = Z.to_nat (if LAC_CIPHER_IS_ARC4 alg then LAC_CIPHER_ARC4_STATE_LEN_BYTES else ivLenInBytes (pOpData c)) ∧
     (L <= length b)%nat ∧ (L <= length B)%nat ∧
     m' = <[cipherPartialOpState D := take L b ++ drop L B]> m).
Proof.
  unfold session_iv, copy. destruct (updateSessionIvOnSend c); [|intros [= <-]; by left].
  intros H. right. split; [done|]. destruct (m !! cipherPartialOpState D) as [B|] eqn:EB;
    [|destruct (LAC_CIPHER_IS_ARC4 alg); discriminate H]. exists B.
  destruct (LAC_CIPHER_IS_ARC4 alg); cbn [mbind option_bind] in H;
    destruct (m !! _) as [b|] eqn:Eb in H; try discriminate H; cbn [mbind option_bind] in H;
    (destruct ((0 <=? _) && _ && _) eqn:El in H; [|discriminate H]); injection H as <-;
    apply andb_true_iff in El as [[? ?]%andb_true_iff ?];
    (eexists b, _; split_and!; [done..|lia|lia|done]).
Qed.

Lemma sent_place v a q X c :
  core v (a :: q) X → v_cookies v !! a = Some c →
  ∃ r, v_subs v !! length (v_ring v) = Some r ∧ length (v_ring v) ∉ v_handled v ∧
    length (v_ring v) ∉ dom (v_outs v) ∧ cookie_ok (acc_at v (length (v_ring v))) r a c.
Proof.
  intros C Hc. destruct (lookup_lt_is_Some_2 (v_subs v) (length (v_ring v))) as [r Hr].
  { pose proof (c_len _ _ _ C). cbn in *. lia. }
  assert (length (v_ring v) ∉ dom (v_outs v)) as Hd by (intros H%(c_processed _ _ _ C); lia).
  assert (length (v_ring v) ∉ v_handled v) as Hh by (intros H; by apply Hd, (c_handled _ _ _ C)).
  exists r. split_and!; [done..|].
  destruct (c_cookies _ _ _ C (length (v_ring v)) a r) as (_ & c' & Hc' & Hok); [done| |done|].
  - unfold addrs. rewrite lookup_app_r, length_fmap, Nat.sub_diag by (by rewrite length_fmap). done.
  - congruence.
Qed.

Lemma is_full_r acc r p c : cookie_ok acc r p c → is_full c = r_full r.
Proof. intros H. unfold is_full, r_full. by rewrite (co_op _ _ _ _ H). Qed.

(** A partial request that neither continues a stream nor has its IV copied has
    no IV. *)
Lemma stateless_partial acc r :
  req_ok acc r → acc_wf acc → r_full r = false →
  (starts acc r = false → acc.1 = CPA_CY_SYM_PACKET_TYPE_PARTIAL) ∧
  (stateful alg || LAC_CIPHER_IS_ARC4 alg = false → n = O).
Proof.
  intros Hr [Hne _] Hf. split.
  - intros Hs. unfold starts in Hs. apply r_full_false in Hf.
    destruct (packetType (r_op r)) eqn:Ep; [done| |by apply (ro_last _ _ Hr)].
    rewrite bool_decide_eq_true_2 in Hs by done. cbn [andb] in Hs. apply bool_decide_eq_false in Hs.
    by destruct acc as [[] ?].
  - intros Hs. apply no_iv_size. pose proof (ro_partial _ _ Hr Hf) as Hp.
    destruct (so_alg _ _ _ _ HD) as (Hccm & Hgcm & Hxts). revert Hs Hp Hccm Hgcm Hxts.
    unfold no_iv. by destruct alg.
Qed.

Lemma core_send v a q X c m' :
  core v (a :: q) X → v_nb v = true → v_cookies v !! a = Some c → session_iv D c (v_mem v) = Some m' →
  core (View m' (v_cookies v) (v_ring v ++ [qatMsg c]) (is_full c) (v_subs v) (v_outs v) (v_handled v)) q X.
Proof.
  intros C Hnb Hc Hm. destruct (sent_place v a q X c C Hc) as (r & Hr & Hh & Hd & Hck).
  set (k := length (v_ring v)) in *.
  pose proof (c_reqs _ _ _ C k r Hr) as Hreq. pose proof (core_acc_wf _ _ _ k C) as Hwf.
  pose proof (is_full_r _ _ _ _ Hck) as Hfull.
  assert (opaque_data (qatMsg c) = a) as Hop by apply Hck.
  set (v' := View _ _ _ _ _ _ _).
  assert (addrs v' q = addrs v (a :: q)) as Haddr.
  { unfold addrs, v'. cbn [v_ring]. rewrite fmap_app. cbn. by rewrite Hop, <- app_assoc. }
  assert (∀ x, x ≠ cipherPartialOpState D → m' !! x = v_mem v !! x) as Hother.
  { intros x Hx. apply session_iv_inv in Hm as [[_ ->]|(_ & B & b & L & _ & _ & _ & _ & _ & ->)]; [done|].
    by rewrite lookup_insert_ne. }
  assert (∀ j r', ¬ unprocessed v j r') as Hnone.
  { intros j r' (Hj & Hr' & Hf & Hdj).
    destruct (c_block _ _ _ C j r') as [Hb _]; [lia| |done|done|congruence].
    intros Hjh. by apply Hdj, (c_handled _ _ _ C). }
  split; try (rewrite Haddr); cbn [v' v_mem v_cookies v_ring v_nb v_subs v_outs v_handled];
    try apply C.
  - rewrite length_app. pose proof (c_len _ _ _ C). cbn in *. lia.
  - intros j m r' Hj Hr'. apply lookup_app_Some in Hj as [Hj|[Hj1 Hj2]]; [by apply (c_msgs _ _ _ C j)|].
    apply list_lookup_singleton_Some in Hj2 as [Hj2 <-].
    assert (j = k) as -> by (unfold k; lia). assert (r' = r) as -> by congruence.
    rewrite Hop. apply Hck.
  - intros j Hj. rewrite length_app. apply (c_processed _ _ _ C) in Hj. lia.
  - intros j r' Hj Hjh Hr' Hf. rewrite length_app in *. cbn [length] in *.
    destruct (decide (j = k)) as [->|Hne].
    + assert (r' = r) as -> by congruence. split; [congruence|]. unfold k. lia.
    + destruct (c_block _ _ _ C j r') as [Hb _]; [unfold k in *; lia|done..|congruence].
  - intros Hf. exists k, r. rewrite length_app. cbn. split_and!; [unfold k; lia|done..|congruence].
  - destruct (c_state _ _ _ C) as (B & HB & HlB & _ & Hst). specialize (Hst Hnone). fold k in Hst.
    assert (∀ j, acc_at v' j = acc_at v j) as Hacc by done. cbn [v'] in *.
    assert (∃ B', m' !! cipherPartialOpState D = Some B' ∧ length B' = length B ∧
      (r_full r = false → take n B' = iv_for (acc_at v k) r) ∧ (r_full r = true → B' = B))
      as (B' & HB' & Hl' & Hpart & Hfl).
    { pose proof (stateless_partial _ _ Hreq Hwf) as Hless.
      apply session_iv_inv in Hm as [[Hsend ->]|(Hsend & B0 & b & L & HB0 & Hb & HL & HLb & HLB & ->)].
      - exists B. split_and!; [done..| |done]. intros Hf. destruct (Hless Hf) as [Hacc1 Hn].
        rewrite (co_send _ _ _ _ Hck) in Hsend.
        destruct (starts (acc_at v k) r) eqn:Es; cbn [andb] in Hsend.
        + pose proof (iv_for_length _ _ Hreq Hwf) as Hlen. rewrite (Hn Hsend) in Hlen |- *.
          by rewrite take_0, (nil_length_inv _ Hlen).
        + rewrite (Hst (Hacc1 eq_refl)). unfold SymSystem.iv_for. rewrite Es, orb_false_r.
          apply r_full_false in Hf. by rewrite bool_decide_eq_false_2.
      - assert (B0 = B) as -> by congruence. exists (take L b ++ drop L B). rewrite lookup_insert_eq.
        rewrite (co_send _ _ _ _ Hck) in Hsend. apply andb_true_iff in Hsend as [Hs Hsf].
        split_and!; [done|rewrite length_app, length_take, length_drop; lia| |].
        + intros Hf. unfold SymSystem.iv_for. rewrite Hs, orb_true_r.
          rewrite (co_op _ _ _ _ Hck) in Hb, HL. unfold SymSystem.own_iv.
          destruct (LAC_CIPHER_IS_ARC4 alg) eqn:Earc.
          * rewrite (c_arc4 _ _ _ C) in Hb. injection Hb as <-. pose proof (so_arc4 _ _ _ _ HD).
            rewrite take_app_le, take_take, Nat.min_l; [done|..];
              rewrite ?length_take; pose proof iv_size_max; lia.
          * rewrite orb_false_r in Hsf. destruct (ro_iv _ _ Hreq Hsf) as [_ Hivl].
            destruct (c_ivs _ _ _ C Hsf k r Hh Hr) as (b' & Hb' & _ & Hq).
            assert (b' = b) as -> by congruence. destruct (Hq ltac:(lia) Hs) as [Hown _].
            unfold SymSystem.own_iv in Hown. rewrite Earc in Hown. rewrite <- Hown.
            rewrite Hivl, Nat2Z.id in HL. subst L. rewrite take_app_length'; [done|].
            rewrite length_take. lia.
        + intros Hf. exfalso. unfold starts in Hs. unfold r_full in Hf. apply bool_decide_eq_true in Hf.
          rewrite <- Hf in Hs. done. }
    exists B'. split; [done|]. split; [congruence|]. rewrite length_app. cbn [length]. split.
    + intros j r' (Hj & Hr' & Hf & _). change (length (v_ring v ++ [qatMsg c]) = S j) in Hj.
      change (v_subs v !! j = Some r') in Hr'. rewrite length_app in Hj. cbn [length] in Hj.
      assert (j = k) as -> by (unfold k; lia). assert (r' = r) as -> by congruence. by apply Hpart.
    + intros Hnone' Hp. destruct (r_full r) eqn:Ef.
      * rewrite (Hfl eq_refl). fold k in Hp |- *. rewrite Nat.add_1_r in Hp |- *.
        rewrite Hacc, (acc_at_S v k r Hr), (spec_step_full _ _ Ef) in Hp |- *. by apply Hst.
      * exfalso. apply (Hnone' k r). split_and!; [|done..]. change (length (v_ring v ++ [qatMsg c]) = S k). rewrite length_app. cbn. unfold k. lia.
  - rewrite Hother; [apply C|]. pose proof (so_buffers _ _ _ _ HD). naive_solver.
  - intros Hs j r' Hj Hr'. destruct (c_ivs _ _ _ C Hs j r' Hj Hr') as (b & Hb & Hl & Hrest).
    exists b. split_and!; [|done|].
    + rewrite Hother; [done|]. destruct (c_reqs _ _ _ C j r' Hr') as [_ _ Hi Hbuf _].
      destruct (Hi Hs). by apply Hbuf.
    + rewrite length_app. intros Hj'. apply Hrest. lia.
Qed.

Lemma core_place v q X i a :
  core v q X → q !! i = Some a →
  ∃ r c, v_subs v !! (length (v_ring v) + i)%nat = Some r ∧ (length (v_ring v) + i)%nat ∉ v_handled v ∧
    v_cookies v !! a = Some c ∧ cookie_ok (acc_at v (length (v_ring v) + i)) r a c.
Proof.
  intros C Hi. set (k := (length (v_ring v) + i)%nat). pose proof (lookup_lt_Some _ _ _ Hi) as Hlt.
  destruct (lookup_lt_is_Some_2 (v_subs v) k) as [r Hr].
  { pose proof (c_len _ _ _ C). unfold k. lia. }
  assert (k ∉ v_handled v) as Hh.
  { intros H. apply (c_handled _ _ _ C), (c_processed _ _ _ C) in H. unfold k in H. lia. }
  destruct (c_cookies _ _ _ C k a r Hh) as (_ & c & Hc & Hok); [|done|by exists r, c].
  unfold addrs, k. rewrite lookup_app_r, length_fmap by (rewrite length_fmap; lia).
  by replace (length (v_ring v) + i - length (v_ring v))%nat with i by lia.
Qed.

Lemma full_no_send acc r p c : cookie_ok acc r p c → is_full c = true → updateSessionIvOnSend c = false.
Proof.
  intros Hc Hf. rewrite (is_full_r _ _ _ _ Hc) in Hf. rewrite (co_send _ _ _ _ Hc). unfold starts, r_full in *.
  apply bool_decide_eq_true in Hf. by rewrite <- Hf.
Qed.

(** Every queued request can be sent. *)
Lemma core_sendable v q X s :
  core v q X → mem s = v_mem v → cookies s = v_cookies v → Forall (sendable D s) q.
Proof.
  intros C Hm Hck. apply Forall_lookup. intros i a Hi.
  destruct (core_place v q X i a C Hi) as (r & c & Hr & Hh & Hc & Hok).
  exists c. rewrite Hck, Hm. split; [done|]. split; [intros H; apply (full_no_send _ _ _ _ Hok); by destruct (is_full c)|].
  unfold session_iv. destruct (updateSessionIvOnSend c) eqn:Es; [|done].
  rewrite (co_send _ _ _ _ Hok) in Es. apply andb_true_iff in Es as [_ Es].
  destruct (c_state _ _ _ C) as (B & HB & HlB & _). pose proof iv_size_max.
  destruct (LAC_CIPHER_IS_ARC4 alg) eqn:Earc.
  - pose proof (so_arc4 _ _ _ _ HD). unfold LAC_CIPHER_ARC4_STATE_LEN_BYTES in *.
    erewrite copy_Some; [done|exact HB|apply (c_arc4 _ _ _ C)|lia..].
  - rewrite orb_false_r in Es. rewrite (co_op _ _ _ _ Hok).
    destruct (c_ivs _ _ _ C Es _ r Hh Hr) as (b & Hb & Hl & _).
    destruct (ro_iv _ _ (c_reqs _ _ _ C _ r Hr) Es) as [_ ->].
    unfold LAC_CIPHER_ARC4_STATE_LEN_BYTES in *.
    erewrite copy_Some; [done|exact HB|exact Hb|lia..].
Qed.

(** What [LacSymCb_PendingReqsDequeue] sends. *)
Lemma core_drain : ∀ q1 v q2 X m',
  core v (q1 ++ q2) X → v_nb v = true → sent_prefix (v_cookies v) q1 q2 →
  iv_after D (v_cookies v) q1 (v_mem v) m' →
  core (View m' (v_cookies v) (v_ring v ++ msgs (v_cookies v) q1) (all_full (v_cookies v) q1)
          (v_subs v) (v_outs v) (v_handled v)) q2 X.
Proof.
  induction q1 as [|a q1 IH]; intros v q2 X m' C Hnb Hpre Hiv.
  - cbn in Hiv. subst m'. cbn [msgs omap list_omap all_full forallb]. rewrite app_nil_r, <- Hnb.
    by destruct v.
  - destruct (core_place v _ X 0 a C eq_refl) as (r & c & Hr & Hh & Hc & Hok).
    assert (msgs (v_cookies v) (a :: q1) = qatMsg c :: msgs (v_cookies v) q1) as ->
      by (unfold msgs; cbn; by rewrite Hc).
    assert (all_full (v_cookies v) (a :: q1) = is_full c && all_full (v_cookies v) q1) as ->
      by (cbn [all_full forallb]; by rewrite Hc).
    destruct q1 as [|b q1].
    + cbn in Hiv. destruct Hiv as (c' & Hc' & Hiv). assert (c' = c) as -> by congruence.
      cbn [msgs omap list_omap all_full forallb]. rewrite andb_true_r. by apply (core_send v a q2 X c m').
    + assert (is_full c = true) as Hf.
      { destruct Hpre as [[Hall ->]|(q0 & x & d & E & Hall & _)].
        - apply Forall_cons in Hall as [(c' & Hc' & Hf) _]. assert (c' = c) as -> by congruence.
          by destruct (is_full c).
        - destruct q0 as [|y q0]; [discriminate E|]. injection E as <- _.
          apply Forall_cons in Hall as [(c' & Hc' & Hf) _]. assert (c' = c) as -> by congruence.
          by destruct (is_full c). }
      rewrite Hf. cbn [andb].
      replace (v_ring v ++ qatMsg c :: msgs (v_cookies v) (b :: q1))
        with ((v_ring v ++ [qatMsg c]) ++ msgs (v_cookies v) (b :: q1)) by (by rewrite <- app_assoc).
      apply (IH (View (v_mem v) (v_cookies v) (v_ring v ++ [qatMsg c]) true (v_subs v) (v_outs v) (v_handled v)));
        [|done| |].
      * rewrite <- Hf. apply (core_send v a); [done..|]. unfold session_iv. by rewrite (full_no_send _ _ _ _ Hok Hf).
      * destruct Hpre as [[Hall ->]|(q0 & x & d & E & Hall & Hx)].
        -- left. split; [|done]. by apply Forall_cons in Hall as [_ Hall].
        -- right. destruct q0 as [|y q0]; [discriminate E|]. injection E as <- E.
           exists q0, x, d. split; [done|]. apply Forall_cons in Hall as [_ Hall]. by split.
      * unfold iv_after in *. cbn [last] in Hiv |- *. by destruct q1.
Qed.

(** ** Accepting a request *)

Lemma cookie_ok_pNext acc r p c x : cookie_ok acc r p (set_pNext x c) ↔ cookie_ok acc r p c.
Proof. by split; intros [????? ??]; split. Qed.

Lemma core_pNext v q X ck :
  core v q X → (∀ a, ∃ x, ck !! a = set_pNext x <$> v_cookies v !! a) →
  core (View (v_mem v) ck (v_ring v) (v_nb v) (v_subs v) (v_outs v) (v_handled v)) q X.
Proof.
  intros C Hck. destruct C. split; try done; cbn [v_cookies v_handled v_subs].
  - intros k p r Hk Hp Hr. destruct (c_cookies0 k p r Hk Hp Hr) as (Hp0 & c & Hc & Hok).
    split; [done|]. destruct (Hck p) as [x Hx]. rewrite Hc in Hx. exists (set_pNext x c).
    split; [done|]. by apply cookie_ok_pNext.
  - intros p Hp HX. apply c_dom0; [|done]. destruct (Hck p) as [x Hx].
    apply elem_of_dom in Hp as [c Hc]. rewrite Hc in Hx. apply elem_of_dom.
    destruct (v_cookies v !! p); [done|discriminate Hx].
Qed.

Lemma core_append v q p c r :
  core v q ∅ → p ∉ dom (v_cookies v) → p ≠ 0 →
  let acc := spec_run (v_subs v) in
  req_ok acc r → cookie_ok acc r p c →
  (stateful alg = true → ∃ b, v_mem v !! pIv (r_op r) = Some b ∧ (n <= length b)%nat ∧
     (starts acc r = true → take n b = own_iv r ∧
        ∀ j r', j ∉ v_handled v → v_subs v !! j = Some r' → pIv (r_op r') ≠ pIv (r_op r))) →
  core (View (v_mem v) (<[p := c]> (v_cookies v)) (v_ring v) (v_nb v) (v_subs v ++ [r]) (v_outs v)
          (v_handled v)) (q ++ [p]) ∅.
Proof.
  intros C Hp Hp0 acc Hreq Hck Hiv. set (v' := View _ _ _ _ _ _ _).
  assert (addrs v' (q ++ [p]) = addrs v q ++ [p]) as Haddr by (unfold addrs; by rewrite app_assoc).
  assert (length (addrs v q) = length (v_subs v)) as Hla.
  { unfold addrs. rewrite length_app, length_fmap. apply C. }
  assert (∀ k, (k <= length (v_subs v))%nat → acc_at v' k = acc_at v k) as Hacc.
  { intros k Hk. unfold acc_at. cbn [v' v_subs]. by rewrite take_app_le. }
  assert (acc_at v (length (v_subs v)) = acc) as Hend by (unfold acc_at; by rewrite firstn_all).
  pose proof (c_len _ _ _ C) as Hlen.
  assert (∀ k r', v_subs v' !! k = Some r' →
    (v_subs v !! k = Some r' ∧ acc_at v' k = acc_at v k) ∨
    (k = length (v_subs v) ∧ r' = r ∧ acc_at v' k = acc)) as Hsub.
  { intros k r' H. cbn [v' v_subs] in H. apply lookup_app_Some in H as [H|[H1 H2]].
    - left. split; [done|]. apply Hacc. pose proof (lookup_lt_Some _ _ _ H). lia.
    - right. apply list_lookup_singleton_Some in H2 as [H2 <-].
      assert (k = length (v_subs v)) as -> by lia. rewrite Hacc by lia. done. }
  assert (∀ k x, addrs v' (q ++ [p]) !! k = Some x →
    (addrs v q !! k = Some x ∧ (k < length (v_subs v))%nat) ∨ (k = length (v_subs v) ∧ x = p)) as Hadd.
  { intros k x H. rewrite Haddr in H. apply lookup_app_Some in H as [H|[H1 H2]].
    - left. split; [done|]. pose proof (lookup_lt_Some _ _ _ H). lia.
    - right. apply list_lookup_singleton_Some in H2 as [H2 <-]. split; [lia|done]. }
  assert (∀ k x, k ∉ v_handled v → addrs v q !! k = Some x → x ≠ p) as Hfresh.
  { intros k x Hk Hx ->. destruct (lookup_lt_is_Some_2 (v_subs v) k) as [r' Hr'].
    { pose proof (lookup_lt_Some _ _ _ Hx). lia. }
    destruct (c_cookies _ _ _ C k p r' Hk Hx Hr') as (_ & c' & Hc' & _).
    apply Hp, elem_of_dom. by eexists. }
  assert (∀ k, (k < length (v_subs v))%nat → v_subs v' !! k = v_subs v !! k) as Hold
    by (intros; cbn [v' v_subs]; by rewrite lookup_app_l).
  split; cbn [v_mem v_cookies v_ring v_nb v_outs v_handled v'].
  - change (v_subs v') with (v_subs v ++ [r]). rewrite !length_app. cbn. lia.
  - intros k r' Hk. destruct (Hsub k r' Hk) as [[H E]|(-> & -> & E)]; rewrite E; [by apply C|done].
  - intros k x r' Hk Hx Hr'. destruct (Hadd k x Hx) as [[Hx' Hlt]|[-> ->]].
    + destruct (Hsub k r' Hr') as [[H E]|(-> & _)]; [|lia].
      destruct (c_cookies _ _ _ C k x r' Hk Hx' H) as (Hx0 & c' & Hc' & Hok). rewrite E.
      split; [done|]. exists c'. rewrite lookup_insert_ne; [done|]. intros E'. by apply (Hfresh k x).
    + destruct (Hsub _ r' Hr') as [[H _]|(_ & -> & E)]; [apply lookup_lt_Some in H; lia|].
      rewrite E. split; [done|]. exists c. by rewrite lookup_insert_eq.
  - intros j k x Hj Hk Hxj Hxk.
    destruct (Hadd j x Hxj) as [[Hj' _]|[-> Ej]], (Hadd k x Hxk) as [[Hk' _]|[-> Ek]]; [| | |done].
    + by apply (c_inj _ _ _ C j k x).
    + by destruct (Hfresh j x Hj Hj').
    + by destruct (Hfresh k x Hk Hk').
  - intros x Hx _. rewrite dom_insert in Hx. rewrite Haddr. apply elem_of_union in Hx as [->%elem_of_singleton|Hx].
    + exists (length (v_subs v)). rewrite lookup_app_r, Hla, Nat.sub_diag by lia. split; [|done].
      intros H. apply (c_handled _ _ _ C), (c_processed _ _ _ C) in H. lia.
    + destruct (c_dom _ _ _ C x Hx) as (k & Hk & Hkx); [set_solver|]. exists k. split; [done|].
      by apply lookup_app_l_Some.
  - set_solver.
  - intros k m r' Hm Hr'. destruct (Hsub k r' Hr') as [[H _]|(-> & _)]; [by apply (c_msgs _ _ _ C k)|].
    apply lookup_lt_Some in Hm. assert (q = []) as -> by (destruct q; [done|cbn in *; lia]). lia.
  - apply C.
  - apply C.
  - intros k o Ho. pose proof (c_processed _ _ _ C k) as Hk. change (v_subs v') with (v_subs v ++ [r]). rewrite spec_out_snoc; [by apply C|].
    assert (k ∈ dom (v_outs v)) as H by (by apply elem_of_dom; eexists). specialize (Hk H). lia.
  - intros k r' Hk Hh Hr' Hf. destruct (Hsub k r' Hr') as [[H _]|(-> & _)]; [by apply (c_block _ _ _ C k r')|lia].
  - intros Hnb. destruct (c_blocked _ _ _ C Hnb) as (k & r' & Hk & Hh & Hr' & Hf).
    exists k, r'. split_and!; [done..| |done]. rewrite Hold; [done|lia].
  - destruct (c_state _ _ _ C) as (B & HB & HlB & Hun & Hst). exists B. split_and!; [done..| |].
    + intros k r' (Hk & Hr' & Hf & Hd). cbn [v' v_ring v_outs] in Hk, Hd.
      rewrite Hacc by lia. apply Hun. split_and!; [done| |done..]. rewrite <- Hold; [done|lia].
    + intros Hnone. rewrite Hacc by lia. apply Hst. intros k r' (Hk & Hr' & Hf & Hd).
      apply (Hnone k r'). split_and!; [done| |done..]. rewrite Hold; [done|lia].
  - apply C.
  - intros Hs k r' Hk Hr'. destruct (Hsub k r' Hr') as [[H E]|(-> & -> & E)]; rewrite E.
    + destruct (c_ivs _ _ _ C Hs k r' Hk H) as (b & Hb & Hl & Hq). exists b. split_and!; [done..|].
      intros Hlt Hstart. destruct (Hq Hlt Hstart) as [Ht Hj]. split; [done|].
      intros j r'' Hjk Hjh Hr''. apply (Hj j r''); [done..|]. rewrite <- Hold; [done|].
      pose proof (lookup_lt_Some _ _ _ H). lia.
    + destruct (Hiv Hs) as (b & Hb & Hl & Hq). exists b. split_and!; [done..|].
      intros _ Hstart. destruct (Hq Hstart) as [Ht Hj]. split; [done|].
      intros j r'' Hjk Hjh Hr''. apply (Hj j r''); [done|]. by rewrite <- Hold.
Qed.

(** ** Completing a request *)

(** The memory after the copy of the session's IV to a request's buffer. *)
Definition iv_returned (r : request) (m m' : gmap Z (list Z)) : Prop :=
  if bool_decide (packetType (r_op r) = CPA_CY_SYM_PACKET_TYPE_PARTIAL) && stateful alg then
    ∃ B b, m !! cipherPartialOpState D = Some B ∧ m !! pIv (r_op r) = Some b ∧
      (n <= length B)%nat ∧ (n <= length b)%nat ∧ m' = <[pIv (r_op r) := take n B ++ drop n b]> m
  else m' = m.

Lemma core_finish v q k r p m' :
  core v q ∅ → k ∈ dom (v_outs v) → k ∉ v_handled v → v_subs v !! k = Some r →
  addrs v q !! k = Some p → iv_returned r (v_mem v) m' →
  core (View m' (v_cookies v) (v_ring v) (if r_full r then v_nb v else true) (v_subs v) (v_outs v)
          (v_handled v ++ [k])) q {[p]}.
Proof.
  intros C Hd Hh Hr Hp Hm. pose proof (c_processed _ _ _ C k Hd) as Hlt.
  assert (∀ j, j ∉ v_handled v ++ [k] → j ∉ v_handled v ∧ j ≠ k) as Hnh by (intros j; set_solver).
  pose proof (c_reqs _ _ _ C k r Hr) as Hreq.
  assert (∀ x, (stateful alg = true → x ≠ pIv (r_op r)) → m' !! x = v_mem v !! x) as Hother.
  { intros x Hx. unfold iv_returned in Hm. destruct (bool_decide _ && _) eqn:E; [|by rewrite Hm].
    apply andb_true_iff in E as [_ E]. destruct Hm as (B & b & _ & _ & _ & _ & ->).
    rewrite lookup_insert_ne; [done|]. intros Heq. by apply Hx. }
  assert (stateful alg = true → pIv (r_op r) ≠ cipherPartialOpState D ∧ pIv (r_op r) ≠ cipherARC4InitialState D)
    as Hbuf by (intros Hs; destruct (ro_iv _ _ Hreq Hs); by apply Hreq).
  split; cbn [v_mem v_cookies v_ring v_nb v_subs v_outs v_handled]; try apply C.
  - intros j x r' Hj%Hnh. apply (c_cookies _ _ _ C). by apply Hj.
  - intros i j x Hi%Hnh Hj%Hnh. apply (c_inj _ _ _ C); [by apply Hi|by apply Hj].
  - intros x Hx Hxp. destruct (c_dom _ _ _ C x Hx) as (j & Hj & Hjx); [set_solver|].
    exists j. split; [|done]. intros [?| ->%list_elem_of_singleton]%elem_of_app; [done|].
    change (addrs v q !! k = Some x) in Hjx. set_solver.
  - intros x j ->%elem_of_singleton [Hj Hjk]%Hnh Hjx. apply Hjk. by apply (c_inj _ _ _ C j k p).
  - destruct (c_handled _ _ _ C) as [Hnd Hdom]. split.
    + apply NoDup_app. split_and!; [done| |apply NoDup_singleton]. set_solver.
    + intros j [Hj| ->%list_elem_of_singleton]%elem_of_app; [by apply Hdom|done].
  - intros j r' Hj [Hjh Hjk]%Hnh Hr' Hf. destruct (c_block _ _ _ C j r' Hj Hjh Hr' Hf) as [Hb Hl].
    destruct (r_full r) eqn:Ef; [by split|]. exfalso.
    destruct (c_block _ _ _ C k r Hlt Hh Hr Ef). lia.
  - destruct (r_full r) eqn:Ef; [|done]. intros Hnb.
    destruct (c_blocked _ _ _ C Hnb) as (j & r' & Hj & Hjh & Hr' & Hf). exists j, r'.
    split_and!; [done| |done..]. intros [?| ->%list_elem_of_singleton]%elem_of_app; [done|congruence].
  - destruct (c_state _ _ _ C) as (B & HB & Hrest). exists B. split; [|done].
    rewrite Hother; [done|]. intros Hs. by destruct (Hbuf Hs).
  - rewrite Hother; [apply C|]. intros Hs. by destruct (Hbuf Hs).
  - intros Hs j r' [Hj Hjk]%Hnh Hr'. destruct (c_ivs _ _ _ C Hs j r' Hj Hr') as (b & Hb & Hl & Hq).
    destruct (decide (pIv (r_op r') = pIv (r_op r))) as [E|E].
    + assert (∃ b', m' !! pIv (r_op r') = Some b' ∧ (n <= length b')%nat) as (b' & Hb' & Hl').
      { unfold iv_returned in Hm. destruct (bool_decide _ && _); [|subst m'; by exists b].
        destruct Hm as (B & b0 & _ & _ & HB & Hb0 & ->). rewrite E, lookup_insert_eq.
        eexists. split; [done|]. rewrite length_app, length_take, length_drop. lia. }
      exists b'. split_and!; [done..|]. intros Hle Hst. destruct (Hq Hle Hst) as [_ Hj'].
      exfalso. apply (Hj' k r); [lia|done..].
    + exists b. rewrite Hother by done. split_and!; [done..|]. intros Hle Hst.
      destruct (Hq Hle Hst) as [Ht Hj']. split; [done|]. intros i r'' Hij [Hi _]%Hnh Hr''. by apply (Hj' i r'').
Qed.

Lemma core_delete v q p :
  core v q {[p]} →
  core (View (v_mem v) (delete p (v_cookies v)) (v_ring v) (v_nb v) (v_subs v) (v_outs v) (v_handled v)) q ∅.
Proof.
  intros C. split; cbn [v_mem v_cookies v_ring v_nb v_subs v_outs v_handled]; try apply C.
  - intros k x r Hk Hx Hr. destruct (c_cookies _ _ _ C k x r Hk Hx Hr) as (Hx0 & c & Hc & Hok).
    split; [done|]. exists c. rewrite lookup_delete_ne; [done|]. intros ->.
    by apply (c_extra _ _ _ C x k (elem_of_singleton_2 x x eq_refl) Hk).
  - intros x Hx _. rewrite dom_delete in Hx. apply (c_dom _ _ _ C); set_solver.
  - set_solver.
Qed.

(** The part of the state the core does not speak of. *)
Record simple (s : sys) : Prop := {
  s_ps : partialState (sess (st s)) = (spec_run (subs s)).1;
  s_key : cipher_key_sz (sess (st s)) = key0;
  s_pending : pendingCbCount (sess (st s)) = Z.of_nat (length (subs s)) - Z.of_nat (length (handled s));
  s_readers : accessReaders (sess (st s)) = 0;
  s_calls : calls (st s) = omap (λ k, (λ r, Call (r_tag r) CPA_STATUS_SUCCESS CPA_CY_SYM_OP_CIPHER
    (r_op r) (default (r_src r) (r_dst r)) true) <$> subs s !! k) (handled s);
}.

Definition inv (s : sys) : Prop :=
  ∃ q, queue_of (st s) q ∧ core (view_of s) q ∅ ∧ simple s ∧
    (nonBlockingOpsInProgress (sess (st s)) = true → q = []).

Lemma inv_start s : start D key0 arc4 s → inv s.
Proof.
  intros (Hsess & Hck & Hring & Hcalls & Hsubs & Houts & Hh & (B & HB & HlB) & Ha). exists [].
  unfold view_of, queue_of. rewrite Hsess, Hck, Hring, Hsubs, Houts, Hh.
  split; [by split_and!; [..|constructor]|]. split; [|split; [|done]].
  - split; cbn [v_mem v_cookies v_ring v_nb v_subs v_outs v_handled]; try done.
    + split; [constructor|]. by intros k ?%not_elem_of_nil.
    + exists B. split_and!; [done..| |done]. intros k r (Hk & _). done.
  - split; rewrite ?Hsess, ?Hsubs, ?Hh, ?Hcalls; done.
Qed.

(** ** A response *)

Definition finish_state (c : lac_sym_bulk_cookie) (p : Z) (s : state) : state :=
  set_sess (set_pendingCbCount (pendingCbCount (sess s) - 1) (sess s))
    (set_calls (calls s ++ [Call (pCallbackTag c) CPA_STATUS_SUCCESS (symOperation D) (pOpData c)
                              (pDstBuffer c) true])
      (set_cookies (delete p (cookies s)) s)).

Lemma callback_run s p c m1 s2 :
  cookies s !! p = Some c → partial_updates D c s = Some ((), set_mem m1 s) →
  (if is_full c then s2 = set_mem m1 s
   else LacSymCb_PendingReqsDequeue D (set_mem m1 s) = Some (CPA_STATUS_SUCCESS, s2)) →
  LacSymCb_ProcessCallbackInternal D p true CPA_STATUS_SUCCESS s = Some ((), finish_state c p s2).
Proof.
  intros Hc Hu Hd. unfold LacSymCb_ProcessCallbackInternal.
  rewrite (bind_Some _ _ s c s) by (unfold cookie_at, bind, gets, lift; by rewrite Hc).
  rewrite (so_op _ _ _ _ HD), bool_decide_eq_true_2 by done. cbn [negb andb]. rewrite andb_false_r, bind_ret.
  rewrite (bind_Some _ _ _ _ _ Hu). rewrite andb_true_r.
  rewrite (bind_Some _ _ _ (true, CPA_STATUS_SUCCESS) s2).
  - unfold Lac_MemPoolEntryFree, in_sess, finish_state. by rewrite !bind_modify, (so_op _ _ _ _ HD).
  - destruct (is_full c); cbn [negb]; [by subst s2|]. by rewrite (bind_Some _ _ _ _ _ Hd).
Qed.

Lemma partial_updates_spec v q k p r c s :
  core v q ∅ → k ∉ v_handled v → v_subs v !! k = Some r → cookie_ok (acc_at v k) r p c →
  mem s = v_mem v →
  ∃ m1, partial_updates D c s = Some ((), set_mem m1 s) ∧ iv_returned r (mem s) m1.
Proof.
  intros C Hk Hr Hc Hm. pose proof (c_reqs _ _ _ C k r Hr) as Hreq.
  destruct (so_alg _ _ _ _ HD) as (_ & _ & Hxts).
  unfold partial_updates, iv_returned. rewrite (co_op _ _ _ _ Hc), Hxts, !andb_false_r.
  assert (∀ s, s = set_mem (mem s) s) as Hid by (by intros []).
  destruct (packetType (r_op r)) eqn:Ep; cbn [bool_decide andb].
  - exists (mem s). split; [by rewrite <- Hid|done].
  - unfold is_cipher_or_chain. rewrite (so_op _ _ _ _ HD), bool_decide_eq_true_2 by done. cbn [orb when].
    rewrite (co_recv _ _ _ _ Hc), Ep, bool_decide_eq_true_2 by done. cbn [andb].
    destruct (stateful alg) eqn:Es; cbn [when].
    + destruct (c_ivs _ _ _ C Es k r Hk Hr) as (b & Hb & Hl & _).
      destruct (c_state _ _ _ C) as (B & HB & HlB & _). destruct (ro_iv _ _ Hreq Es) as [_ ->].
      pose proof iv_size_max. unfold LAC_CIPHER_ARC4_STATE_LEN_BYTES in *. rewrite <- Hm in HB, Hb.
      eexists. unfold bind. rewrite memcpy_eq.
      rewrite (copy_Some (mem s) (pIv (r_op r)) (cipherPartialOpState D) (Z.of_nat n) b B) by (done || lia).
      cbn [mbind option_bind]. split; [done|]. exists B, b. rewrite Nat2Z.id. split_and!; [done..|lia|done|done].
    + exists (mem s). rewrite bind_ret. split; [by rewrite <- Hid|done].
  - exists (mem s). split; [by rewrite <- Hid|done].
Qed.

Lemma queue_delete s q p ck :
  queue_of s q → p ∉ q → cookies ck = delete p (cookies s) → sess ck = set_pendingCbCount (pendingCbCount (sess ck)) (sess s) →
  queue_of ck q.
Proof.
  intros (Hl & Ht & Hnd) Hp Hck Hs. split_and!; [|rewrite Hs; done|done].
  rewrite Hck, Hs. apply (linked_frame (cookies s)); [|done].
  intros a Ha. rewrite lookup_delete_ne; [done|]. by intros ->.
Qed.

Lemma extra_not_queued v q p : core v q {[p]} → p ∉ q.
Proof.
  intros C [i Hi]%list_elem_of_lookup. destruct (core_place v q _ i p C Hi) as (r & c & _ & Hh & _).
  eapply (c_extra _ _ _ C p _ (elem_of_singleton_2 p p eq_refl) Hh).
  unfold addrs. rewrite lookup_app_r, length_fmap by (rewrite length_fmap; lia).
  by replace (length (v_ring v) + i - length (v_ring v))%nat with i by lia.
Qed.

Lemma drained_blocked ck q1 q2 : sent_prefix ck q1 q2 → all_full ck q1 = true → q2 = [].
Proof.
  intros [[_ ->]|(q0 & a & c & -> & _ & Hc & Hf)]; [done|].
  unfold all_full. rewrite forallb_app. cbn. by rewrite Hc, Hf, andb_false_r.
Qed.

Lemma simple_finish s k r c p s2 :
  simple s → k ∉ handled s → subs s !! k = Some r → cookie_ok (acc_at (view_of s) k) r p c →
  partialState (sess s2) = partialState (sess (st s)) → cipher_key_sz (sess s2) = cipher_key_sz (sess (st s)) →
  pendingCbCount (sess s2) = pendingCbCount (sess (st s)) →
  accessReaders (sess s2) = accessReaders (sess (st s)) → calls s2 = calls (st s) →
  simple (Sys (finish_state c p s2) (subs s) (outs s) (handled s ++ [k])).
Proof.
  intros [Hps Hkey Hp Hrd Hcalls] Hk Hr Hc E1 E2 E3 E4 E5.
  split; cbn [st subs handled finish_state sess set_sess set_calls set_cookies set_pendingCbCount calls
    partialState cipher_key_sz pendingCbCount accessReaders]; try congruence.
  - rewrite length_app. cbn. lia.
  - rewrite omap_app. cbn. rewrite Hr, E5, Hcalls, (so_op _ _ _ _ HD). cbn. do 2 f_equal.
    f_equal; [apply Hc|apply Hc|apply Hc].
Qed.

Lemma inv_response s k flags ps :
  inv s → allowed D virt2phys (Response k flags ps) s →
  ∃ s', exec D virt2phys engine (Response k flags ps) s = Some s' ∧ inv s'.
Proof.
  intros (q & Hq & C & Hs & Hidle) (Hk & Hh & Hps & Hflags).
  pose proof (c_processed _ _ _ C k Hk) as Hlt. cbn [view_of v_ring] in Hlt.
  destruct (lookup_lt_is_Some_2 _ _ Hlt) as [m Hm].
  destruct (lookup_lt_is_Some_2 (subs s) k) as [r Hr]; [pose proof (c_len _ _ _ C) as H; cbn in H; lia|].
  assert (addrs (view_of s) q !! k = Some (opaque_data m)) as Hp.
  { unfold addrs. cbn [view_of v_ring]. rewrite lookup_app_l, list_lookup_fmap, Hm by (by rewrite length_fmap). done. }
  set (p := opaque_data m) in *. destruct (c_cookies _ _ _ C k p r Hh Hp Hr) as (_ & c & Hc & Hok).
  set (s1 := set_puts ps (st s)).
  destruct (partial_updates_spec _ q k p r c s1 C Hh Hr Hok eq_refl) as (m1 & Hu & Hm1).
  pose proof (core_finish _ q k r p m1 C Hk Hh Hr Hp Hm1) as C1.
  pose proof (is_full_r _ _ _ _ Hok) as Hfull.
  cbn [exec]. rewrite Hm. cbn [mbind option_bind]. rewrite decide_True by done.
  unfold LacSymCb_ProcessCallback. rewrite Hflags, Z.eqb_refl. fold p s1.
  destruct (r_full r) eqn:Ef.
  - rewrite (callback_run s1 p c m1 (set_mem m1 s1) Hc Hu) by (by rewrite Hfull). cbn [mbind option_bind].
    eexists. split; [done|]. exists q. split.
    { apply (queue_delete s1 q p); [done|by apply (extra_not_queued _ _ _ C1)|done|done]. }
    split; [by apply core_delete in C1|]. split; [|done].
    by apply (simple_finish s k r).
  - cbn [view_of v_mem v_cookies v_ring v_nb v_subs v_outs v_handled] in C1.
    destruct (PendingReqsDequeue_spec D (set_mem m1 s1) q) as
      (q1 & q2 & m2 & ps' & -> & Hpre & Hiv & _ & Hrun & Hq2); [done|by apply (core_sendable _ _ _ _ C1)|done|].
    rewrite (callback_run s1 p c m1 _ Hc Hu) by (rewrite Hfull; exact Hrun). cbn [mbind option_bind].
    eexists. split; [done|]. exists q2.
    pose proof (core_drain q1 _ q2 _ m2 C1 eq_refl Hpre Hiv) as C2.
    split; [by apply (queue_delete _ q2 p _ Hq2); [apply (extra_not_queued _ _ _ C2)|..]|].
    split; [by apply core_delete in C2|]. split; [by apply (simple_finish s k r)|].
    intros Hnb. by apply (drained_blocked _ _ _ Hpre).
Qed.

Lemma inv_device s k a :
  inv s → allowed D virt2phys (Device k a) s →
  ∃ s', exec D virt2phys engine (Device k a) s = Some s' ∧ inv s'.
Proof.
  intros (q & Hq & C & Hs & Hidle) (Hk & m & Hm & Ha).
  destruct (lookup_lt_is_Some_2 (subs s) k) as [r Hr].
  { pose proof (lookup_lt_Some _ _ _ Hm). pose proof (c_len _ _ _ C) as H'. cbn in H'. lia. }
  destruct (device_spec _ q _ k m r a C Hm Hr Hk Ha) as (mm & E & _).
  cbn [exec]. rewrite Hm. cbn [mbind option_bind]. rewrite decide_False by done.
  cbn [view_of v_mem] in E. rewrite E. cbn [mbind option_bind]. eexists. split; [done|].
  exists q. split; [done|]. split; [|split; [|done]]; [by apply (core_device _ q _ k m a _ _ C Hm Hk Ha E)|].
  by destruct Hs.
Qed.

(** ** A submission *)

Lemma verify_loop_total l : ∀ pkt sh, is_Some (verify_loop LacBuffDesc_FlatBufferVerify (length l) l pkt sh).
Proof.
  induction l as [|b l IH]; intros pkt sh; cbn [length verify_loop]; [done|].
  destruct (LacBuffDesc_FlatBufferVerify b pkt sh) as [st pkt']. by destruct (st =? CPA_STATUS_SUCCESS).
Qed.

Lemma verify_total l pkt sh : list_ok l → is_Some (LacBuffDesc_BufferListVerify l pkt sh).
Proof.
  intros Hl. unfold list_ok in Hl. unfold LacBuffDesc_BufferListVerify, list_verify, bufs_of in *.
  destruct (pBuffers l) as [bufs|]; [|done]. cbn [default from_option id] in Hl.
  destruct (pPrivateMetaData l =? 0); [done|]. destruct (numBuffers l =? 0); [done|].
  rewrite Hl, Nat2Z.id. apply verify_loop_total.
Qed.

Lemma total_size_total l : ∀ pkt, is_Some (total_size (length l) l pkt).
Proof. induction l as [|b l IH]; intros pkt; cbn [length total_size]; done. Qed.

(** The checks leave the state alone; a partial packet that passes continues a
    stream of a cipher that supports them. *)
Lemma BufferParamCheck_spec s src dst op :
  list_ok src → (∀ d, dst = Some d → list_ok d) →
  ∃ st, LacSymPerform_BufferParamCheck D src dst op s = Some (st, s) ∧
    (st = CPA_STATUS_SUCCESS → packetType op ≠ CPA_CY_SYM_PACKET_TYPE_FULL →
       IS_PARTIAL_ON_CIPHER_SUPPORTED alg = true ∧
       LacSym_PartialPacketStateCheck (packetType op) (partialState (sess s)) = CPA_STATUS_SUCCESS).
Proof.
  intros Hsrc Hdst. unfold LacSymPerform_BufferParamCheck.
  destruct (verify_total src 0 LAC_NO_ALIGNMENT_SHIFT Hsrc) as [[st len] ->]. rewrite bind_lift.
  destruct (negb (st =? CPA_STATUS_SUCCESS)); [by eexists|].
  match goal with |- context [bind ?x _ s] => assert (∃ ok, x s = Some (ok, s)) as [ok E] end.
  { destruct dst as [d|]; [|by eexists].
    destruct (verify_total d 0 LAC_NO_ALIGNMENT_SHIFT (Hdst d eq_refl)) as [[st' len'] ->].
    rewrite bind_lift. by eexists. }
  rewrite (bind_Some _ _ _ _ _ E). destruct ok; cbn [negb]; [|by eexists].
  destruct (bool_decide (CPA_CY_SYM_PACKET_TYPE_FULL = packetType op)) eqn:Ef.
  { eexists. split; [done|]. intros _ Hne. apply bool_decide_eq_true in Ef. congruence. }
  destruct (IS_PARTIAL_ON_CIPHER_SUPPORTED alg); cbn [negb]; [|by eexists].
  rewrite bind_gets. eexists. split; [done|]. intros H _. split; [done|].
  by destruct (Z.eqb_spec (LacSym_PartialPacketStateCheck (packetType op) (partialState (sess s))) CPA_STATUS_SUCCESS).
Qed.

Lemma desc_write_spec l m :
  list_ok l →
  ∃ m', LacBuffDesc_BufferListDescWrite virt2phys l false m =
    Some (match desc_phys virt2phys l with
          | Some a => (CPA_STATUS_SUCCESS, Some a) | None => (CPA_STATUS_FAIL, None) end, m').
Proof.
  intros Hl. unfold desc_phys, LacBuffDesc_BufferListDescWrite.
  destruct (Z.eqb_spec (virt2phys (pPrivateMetaData l)) INVALID_PHYSICAL_ADDRESS) as [E|E].
  - exists m. unfold write_list. rewrite E. done.
  - destruct (write_list_spec virt2phys true false l m Hl E) as (m' & Hw & _).
    exists m'. rewrite (bind_Some _ _ _ _ _ Hw). by destruct (translated virt2phys false (bufs_of l)).
Qed.

Lemma write_descs_spec s src dst :
  list_ok src → (∀ d, dst = Some d → list_ok d) →
  ∃ st sp dp ds, write_descs virt2phys src dst s = Some ((st, sp, dp), set_descs ds s) ∧
    (st = CPA_STATUS_SUCCESS → sp = default 0 (desc_phys virt2phys src) ∧
       dp = default 0 (dst ≫= desc_phys virt2phys)).
Proof.
  intros Hsrc Hdst. unfold write_descs.
  destruct (desc_write_spec src (descs s) Hsrc) as (ds & Hw).
  assert (∀ A (m : M memory A) a d s, m (descs s) = Some (a, d) → lift_descs m s = Some (a, set_descs d s))
    as Hlift by (intros A m a d s0 H; unfold lift_descs; by rewrite H).
  rewrite (bind_Some _ _ _ _ _ (Hlift _ _ _ _ _ Hw)).
  destruct (desc_phys virt2phys src) as [a|].
  - destruct dst as [d|]; [|by eexists _, _, _, ds]. rewrite Z.eqb_refl.
    destruct (desc_write_spec d (descs (set_descs ds s)) (Hdst d eq_refl)) as (ds' & Hw').
    rewrite (bind_Some _ _ _ _ _ (Hlift _ _ _ _ _ Hw')). cbn [mbind option_bind].
    by destruct (desc_phys virt2phys d) as [b|]; eexists _, _, _, ds'.
  - by destruct dst; eexists _, _, _, ds.
Qed.

(** The IV check: a failure, or the pointer for each kind of cipher. *)
Definition full_type (q : Z) : bool := ICP_QAT_FW_LA_PARTIAL_NONE =? q.

Definition set_by_type (q : Z) (c : lac_sym_bulk_cookie) : lac_sym_bulk_cookie :=
  let start := ICP_QAT_FW_LA_PARTIAL_START =? q in
  if full_type q then c
  else if LAC_CIPHER_IS_ARC4 alg then if start then set_updates true (updateUserIvOnRecieve c) c else c
  else if stateful alg && (start || (ICP_QAT_FW_LA_PARTIAL_MID =? q))
  then set_updates (start || updateSessionIvOnSend c) true c else c.

Lemma iv_check_spec c q st ptr c' :
  LacCipher_PerformIvCheck D c q = (st, ptr, c') → st = CPA_STATUS_SUCCESS →
  c' = set_by_type q c ∧
  ptr = (if no_iv then 0
         else if LAC_CIPHER_IS_ARC4 alg
         then if full_type q then cipherARC4InitialState D else cipherPartialOpState D
         else if stateful alg && negb (full_type q) then cipherPartialOpState D
         else pIv (pOpData c)) ∧
  (no_iv = false → LAC_CIPHER_IS_ARC4 alg = false →
     pIv (pOpData c) ≠ 0 ∧ ivLenInBytes (pOpData c) = Z.of_nat n).
Proof.
  destruct (so_alg _ _ _ _ HD) as (Hccm & Hgcm & Hxts). intros E Hst.
  assert (n = Z.to_nat (LAC_QUADWORDS_TO_BYTES
    (LAC_BYTES_TO_QUADWORDS (LacSymQat_CipherIvSizeBytesGet alg)))) as ->
    by (unfold iv_size; by rewrite (so_sz _ _ _ _ HD)).
  revert Hccm Hgcm Hxts E. unfold LacCipher_PerformIvCheck, set_by_type, full_type, no_iv, stateful.
  destruct (ICP_QAT_FW_LA_PARTIAL_NONE =? q), (ICP_QAT_FW_LA_PARTIAL_START =? q),
    (ICP_QAT_FW_LA_PARTIAL_MID =? q), (Z.eqb_spec (pIv (pOpData c)) 0);
  destruct alg;
    cbv -[Z.eqb ivLenInBytes pIv pOpData set_updates cipherPartialOpState cipherARC4InitialState
          updateSessionIvOnSend updateUserIvOnRecieve not];
    intros Hccm Hgcm Hxts E; try discriminate;
    try (destruct (Z.eqb_spec (ivLenInBytes (pOpData c)) 8));
    try (destruct (Z.eqb_spec (ivLenInBytes (pOpData c)) 16));
    injection E as <- <- <-; first [discriminate Hst|by split_and!].
Qed.

(** The IV of a message: in it for a full packet, in the session's buffer for a
    partial one. *)
Lemma params_spec r ps (m : icp_qat_fw_la_bulk_req) off len ptr s :
  let t := LacSymQat_packetTypeGet (packetType (r_op r)) ps in
  ICP_QAT_FW_LA_PARTIAL_GET (serv_specif_flags m) = t →
  ICP_QAT_FW_LA_UPDATE_STATE_GET (serv_specif_flags m) =
    (if bool_decide (packetType (r_op r) = CPA_CY_SYM_PACKET_TYPE_PARTIAL) && negb no_iv
     then ICP_QAT_FW_LA_UPDATE_STATE else ICP_QAT_FW_LA_NO_UPDATE_STATE) →
  (r_full r = false → IS_PARTIAL_ON_CIPHER_SUPPORTED alg = true) →
  ptr = (if no_iv then 0
         else if LAC_CIPHER_IS_ARC4 alg
         then if full_type t then cipherARC4InitialState D else cipherPartialOpState D
         else if stateful alg && negb (full_type t) then cipherPartialOpState D
         else pIv (r_op r)) →
  (ptr ≠ 0 → virt2phys ptr ≠ 0) →
  (no_iv = false → LAC_CIPHER_IS_ARC4 alg = false →
     pIv (r_op r) ≠ 0 ∧ ∃ b, mem s !! pIv (r_op r) = Some b ∧ (n <= length b)%nat ∧ r_iv r = b) →
  ∃ f iv, LacSymQat_CipherRequestParamsPopulate D m off len
      (if negb (ptr =? 0) then virt2phys ptr else 0) ptr s =
      Some (Req f (opaque_data m) (src_data_addr m) (dest_data_addr m) off len iv (req_key_sz m), s) ∧
    ICP_QAT_FW_LA_UPDATE_STATE_GET f = ICP_QAT_FW_LA_UPDATE_STATE_GET (serv_specif_flags m) ∧
    iv_field r iv.
Proof.
  intros t Ht Hup Hsup Hptr Hphys Hmem. unfold LacSymQat_CipherRequestParamsPopulate.
  rewrite Ht.
  assert ((ICP_QAT_FW_LA_UPDATE_STATE_GET (serv_specif_flags m) =? ICP_QAT_FW_LA_UPDATE_STATE) =
    bool_decide (packetType (r_op r) = CPA_CY_SYM_PACKET_TYPE_PARTIAL) && negb no_iv) as ->
    by (rewrite Hup; by destruct (bool_decide _ && negb no_iv)).
  clear Ht Hup.
  pose proof (so_buffers _ _ _ _ HD) as (HB0 & HA0 & _).
  assert (full_type t = r_full r) as Hfull.
  { unfold full_type, t, r_full. destruct (packetType (r_op r)), ps; done. }
  unfold iv_field. rewrite Hfull in Hptr.
  assert (LAC_QUADWORDS_TO_BYTES (reqCacheFtr_state_sz D) = Z.of_nat n) as Hn.
  { unfold iv_size. rewrite Z2Nat.id; [done|]. rewrite (so_sz _ _ _ _ HD). by destruct alg. }
  destruct no_iv eqn:Eno.
  { subst ptr. cbn [Z.eqb]. rewrite orb_true_r. cbn [orb negb].
    eexists _, _. split; [done|]. by rewrite update_get_iv_fld. }
  pose proof (so_sz _ _ _ _ HD) as Hsz.
  destruct (LAC_CIPHER_IS_ARC4 alg) eqn:Earc.
  { assert (ptr ≠ 0 ∧ ptr = if r_full r then cipherARC4InitialState D else cipherPartialOpState D)
      as [Hp0 ->] by (subst ptr; by destruct (r_full r)).
    rewrite (proj2 (Z.ltb_lt LAC_SYM_QAT_HASH_IV_REQ_MAX_SIZE_QW _)) by
      (rewrite Hsz; unfold LacSymQat_CipherIvSizeBytesGet; by rewrite Earc).
    cbn [orb]. rewrite (proj2 (Z.eqb_neq _ 0) Hp0). cbn [negb].
    eexists _, _. split; [done|]. rewrite update_get_iv_fld. split; [done|].
    by destruct (r_full r); (split; [done|]); apply Hphys. }
  destruct (Hmem eq_refl eq_refl) as (Hp0 & b & Hb & Hl & Hrb).
  assert (LAC_SYM_QAT_HASH_IV_REQ_MAX_SIZE_QW <? reqCacheFtr_state_sz D = false) as Hsmall
    by (rewrite Hsz; by destruct alg).
  rewrite Hsmall. cbn [orb].
  destruct (r_full r) eqn:Ef.
  - cbn [negb] in Hptr. rewrite andb_false_r in Hptr. subst ptr.
    assert (t = ICP_QAT_FW_LA_PARTIAL_NONE) as ->
      by (unfold full_type in Hfull; by apply Z.eqb_eq in Hfull).
    assert (bool_decide (packetType (r_op r) = CPA_CY_SYM_PACKET_TYPE_PARTIAL) = false) as ->
      by (unfold r_full in Ef; apply bool_decide_eq_true in Ef; by rewrite <- Ef).
    cbn [andb]. rewrite (proj2 (Z.eqb_neq _ 0) Hp0). cbn [orb].
    change (ICP_QAT_FW_LA_PARTIAL_NONE =? ICP_QAT_FW_LA_PARTIAL_END) with false. cbn [orb]. rewrite bind_gets, Hb, bind_lift.
    rewrite Hn, Nat2Z.id, (proj2 (Z.leb_le _ _)) by lia. eexists _, _. split; [done|].
    rewrite update_get_iv_fld. split; [done|]. eexists. unfold SymSystem.own_iv.
    by rewrite Earc, Hrb.
  - assert (stateful alg = true) as Hst.
    { specialize (Hsup eq_refl). destruct (so_alg _ _ _ _ HD) as (Hccm & Hgcm & Hxts).
      revert Hsup Eno Earc Hccm Hgcm Hxts. unfold no_iv. by destruct alg. }
    rewrite Hst in Hptr. cbn [negb andb] in Hptr. subst ptr.
    assert (bool_decide (packetType (r_op r) = CPA_CY_SYM_PACKET_TYPE_PARTIAL) && negb false
      || (cipherPartialOpState D =? 0) || (t =? ICP_QAT_FW_LA_PARTIAL_END) = true) as ->.
    { apply r_full_false in Ef. unfold t.
      by destruct (packetType (r_op r)); [|destruct ps|rewrite orb_true_r]. }
    rewrite (proj2 (Z.eqb_neq _ 0) HB0). cbn [negb].
    eexists _, _. split; [done|]. rewrite update_get_iv_fld. split; [done|]. split; [done|by apply Hphys].
Qed.

Lemma own_iv_length r : 
  (no_iv = false → LAC_CIPHER_IS_ARC4 alg = false → (n <= length (r_iv r))%nat) → length (own_iv r) = n.
Proof.
  intros H. unfold SymSystem.own_iv. rewrite length_take. pose proof iv_size_max.
  destruct no_iv eqn:Eno; [rewrite (no_iv_size Eno); lia|].
  destruct (LAC_CIPHER_IS_ARC4 alg); [rewrite (so_arc4 _ _ _ _ HD); lia|]. specialize (H eq_refl eq_refl). lia.
Qed.

Lemma stateful_iv : stateful alg = true → no_iv = false ∧ LAC_CIPHER_IS_ARC4 alg = false.
Proof. unfold no_iv, stateful. destruct (so_alg _ _ _ _ HD) as (H1 & H2 & H3). by destruct alg. Qed.

(** What is known of a request when its cookie is filled. *)
Record submitted (acc : CpaCySymPacketType * list Z) (r : request) (s : state) : Prop := {
  sb_src : list_ok (r_src r);
  sb_iv : r_iv r = default [] (mem s !! pIv (r_op r));
  sb_buffer : pIv (r_op r) ≠ 0 →
    pIv (r_op r) ≠ cipherPartialOpState D ∧ pIv (r_op r) ≠ cipherARC4InitialState D ∧
    ∃ b, mem s !! pIv (r_op r) = Some b ∧ 0 <= ivLenInBytes (r_op r) <= Z.of_nat (length b);
  sb_key : cipher_key_sz (sess s) = key0;
  sb_ps : partialState (sess s) = acc.1;
  sb_check : packetType (r_op r) ≠ CPA_CY_SYM_PACKET_TYPE_FULL →
    IS_PARTIAL_ON_CIPHER_SUPPORTED alg = true ∧
    LacSym_PartialPacketStateCheck (packetType (r_op r)) acc.1 = CPA_STATUS_SUCCESS;
}.

(** A request that passes the IV check. *)
Lemma submitted_req_ok acc r s :
  submitted acc r s →
  (no_iv = false → LAC_CIPHER_IS_ARC4 alg = false →
     pIv (r_op r) ≠ 0 ∧ ivLenInBytes (r_op r) = Z.of_nat n) →
  req_ok acc r ∧
  (no_iv = false → LAC_CIPHER_IS_ARC4 alg = false →
     pIv (r_op r) ≠ 0 ∧ ∃ b, mem s !! pIv (r_op r) = Some b ∧ (n <= length b)%nat ∧ r_iv r = b).
Proof.
  intros S Hiv.
  assert (no_iv = false → LAC_CIPHER_IS_ARC4 alg = false →
     pIv (r_op r) ≠ 0 ∧ ∃ b, mem s !! pIv (r_op r) = Some b ∧ (n <= length b)%nat ∧ r_iv r = b) as Hmem.
  { intros H1 H2. destruct (Hiv H1 H2) as [Hp Hl]. split; [done|].
    destruct (sb_buffer _ _ _ S Hp) as (_ & _ & b & Hb & Hlen). exists b.
    split; [done|]. split; [lia|]. by rewrite (sb_iv _ _ _ S), Hb. }
  split; [|done]. split.
  - intros Hf%r_full_false. by apply (sb_check _ _ _ S).
  - intros Hl. destruct (sb_check _ _ _ S) as [_ Hc]; [by rewrite Hl|]. rewrite Hl in Hc.
    by destruct acc as [[] ?].
  - intros Hs. by apply Hiv; apply stateful_iv in Hs as [??].
  - intros Hp. by destruct (sb_buffer _ _ _ S Hp) as (? & ? & _).
  - apply own_iv_length. intros H1 H2. by destruct (Hmem H1 H2) as (_ & b & _ & Hl & ->).
Qed.

Lemma set_by_type_spec acc r c :
  updateSessionIvOnSend c = false → updateUserIvOnRecieve c = false →
  let c' := set_by_type (LacSymQat_packetTypeGet (packetType (r_op r)) acc.1) c in
  pCallbackTag c' = pCallbackTag c ∧ qatMsg c' = qatMsg c ∧ pOpData c' = pOpData c ∧
  pDstBuffer c' = pDstBuffer c ∧ pNext c' = pNext c ∧
  updateKeySizeOnRecieve c' = updateKeySizeOnRecieve c ∧
  updateSessionIvOnSend c' = starts acc r && (stateful alg || LAC_CIPHER_IS_ARC4 alg) ∧
  updateUserIvOnRecieve c' =
    bool_decide (packetType (r_op r) = CPA_CY_SYM_PACKET_TYPE_PARTIAL) && stateful alg.
Proof.
  intros Hs Hr. destruct c. cbn in Hs, Hr. subst. unfold set_by_type, full_type, starts.
  pose proof stateful_iv as H. destruct (stateful alg).
  - destruct (H eq_refl) as [_ ->]. by destruct (packetType (r_op r)), acc as [[] ?].
  - by destruct (LAC_CIPHER_IS_ARC4 alg), (packetType (r_op r)), acc as [[] ?].
Qed.

(** The outcomes of filling a cookie: the call returns, the cookie is left for
    the end of the call to free, or it is ready to be sent. *)
Lemma populate_spec acc r p srcAddrPhys dstAddrPhys s :
  submitted acc r s → p ≠ 0 →
  srcAddrPhys = default 0 (desc_phys virt2phys (r_src r)) →
  dstAddrPhys = default 0 (r_dst r ≫= desc_phys virt2phys) →
  ∃ st early c,
    populate D virt2phys p (r_tag r) (r_op r) (r_src r) (default (r_src r) (r_dst r)) srcAddrPhys dstAddrPhys s =
      Some ((st, early), set_cookies (if early : bool then delete p (cookies s) else <[p := c]> (cookies s))
        (set_sess (set_accessReaders (accessReaders (sess s) - if early then 1 else 0) (sess s)) s)) ∧
    (early = true → st ≠ CPA_STATUS_SUCCESS) ∧
    (st = CPA_STATUS_SUCCESS → req_ok acc r ∧ cookie_ok acc r p c ∧ pNext c = 0).
Proof.
  intros S Hp -> ->. unfold populate. rewrite bind_gets. unfold put_cookie at 1. rewrite bind_modify, bind_gets.
  cbn [sess set_cookies].
  set (t := LacSymQat_packetTypeGet _ _). set (c0 := new_cookie _ _ _ _ _ _ _ _).
  assert (is_Some (LacBuffDesc_BufferListTotalSizeGet (r_src r))) as [sz ->].
  { unfold LacBuffDesc_BufferListTotalSizeGet. rewrite (sb_src _ _ _ S), Nat2Z.id. apply total_size_total. }
  rewrite bind_lift. set (st0 := LacCipher_PerformParamCheck _ _ _).
  assert (set_sess (set_accessReaders (accessReaders (sess s) - 0) (sess s)) s = s) as Hid
    by (rewrite Z.sub_0_r; by destruct s as [[]]).
  assert (∀ c1 c2, set_cookies (<[p:=c2]> (<[p:=c1]> (cookies s))) s =
    set_cookies (<[p:=c2]> (cookies s)) (set_sess (set_accessReaders (accessReaders (sess s) - 0) (sess s)) s))
    as Hins by (intros c1 c2; by rewrite insert_insert_eq, Hid).
  destruct (Z.eqb_spec st0 CPA_STATUS_SUCCESS) as [E0|E0]; cbn [negb].
  2: { exists st0, true, c0. split; [|done]. unfold Lac_MemPoolEntryFree, LacAlgChain_UnlockSessionReader, in_sess.
       rewrite !bind_modify. cbn [cookies set_cookies]. by rewrite delete_insert_eq. }
  destruct (LacCipher_PerformIvCheck D c0 t) as [[st1 ptr] c1] eqn:Eiv. cbn [mbind option_bind].
  unfold put_cookie. rewrite bind_modify. cbn [cookies set_cookies].
  destruct (Z.eqb_spec st1 CPA_STATUS_SUCCESS) as [E1|E1]; cbn [negb].
  2: { exists st1, false, c1. split; [|done]. unfold ret. do 2 f_equal. apply Hins. }
  destruct (iv_check_spec c0 t st1 ptr c1 Eiv E1) as (Hc1 & Hptr & Hiv). cbn [new_cookie pOpData c0] in Hptr, Hiv.
  destruct (submitted_req_ok acc r s S Hiv) as [Hreq Hmem].
  destruct (negb (ptr =? 0) && ((if negb (ptr =? 0) then virt2phys ptr else 0) =? 0)) eqn:Ephys.
  { exists CPA_STATUS_FAIL, false, c1. split; [|done]. unfold ret. do 2 f_equal. apply Hins. }
  assert (pOpData c1 = r_op r ∧ qatMsg c1 = qatMsg c0) as [Hop Hmsg].
  { subst c1. unfold set_by_type. by repeat case_match. }
  destruct (packet_flags (packetType (r_op r)) (partialState (sess s)) alg (reqCacheHdr_flags D)
    (ivLenInBytes (r_op r))) as [Hpf Huf].
  assert (ICP_QAT_FW_LA_UPDATE_STATE_GET (serv_specif_flags (qatMsg c0)) =
    if bool_decide (packetType (r_op r) = CPA_CY_SYM_PACKET_TYPE_PARTIAL) && negb no_iv
    then ICP_QAT_FW_LA_UPDATE_STATE else ICP_QAT_FW_LA_NO_UPDATE_STATE) as Hflag.
  { cbn [c0 new_cookie qatMsg new_msg serv_specif_flags]. rewrite Huf.
    destruct (bool_decide (packetType (r_op r) = _)) eqn:Ep; [|done]. apply bool_decide_eq_true in Ep.
    assert (r_full r = false) as Hf by (apply r_full_false; by rewrite Ep).
    pose proof (ro_partial _ _ Hreq Hf) as Hsup. unfold no_iv. by destruct alg. }
  destruct (params_spec r (partialState (sess s)) (qatMsg c0) (cryptoStartSrcOffsetInBytes (r_op r))
    (messageLenToCipherInBytes (r_op r)) ptr (set_cookies (<[p:=c1]> (<[p:=c0]> (cookies s))) s))
    as (f & iv & Hrun & Hupd & Hfield).
  - exact Hpf.
  - exact Hflag.
  - apply Hreq.
  - exact Hptr.
  - intros Hp0. rewrite (proj2 (Z.eqb_neq ptr 0) Hp0) in Ephys. cbn in Ephys. by apply Z.eqb_neq in Ephys.
  - exact Hmem.
  - rewrite Hmsg. rewrite (bind_Some _ _ _ _ _ Hrun), bind_modify. cbn [cookies set_cookies].
    eexists CPA_STATUS_SUCCESS, false, _. split.
    { unfold ret. do 2 f_equal. cbn [accessReaders]. rewrite Hid, insert_insert_eq. by rewrite !insert_insert_eq. }
    split; [done|]. intros _. split; [done|].
    destruct (set_by_type_spec acc r c0 eq_refl eq_refl) as (T1 & _ & T3 & T4 & T5 & T6 & T7 & T8).
    rewrite <- (sb_ps _ _ _ S) in T1, T3, T4, T5, T6, T7, T8. fold t in T1, T3, T4, T5, T6, T7, T8.
    rewrite <- Hc1 in T1, T3, T4, T5, T6, T7, T8. split; [|exact T5].
    split; [exact T1|exact T3|exact T4| |exact T7|exact T8|].
    + split; [done| | |exact Hfield].
      * unfold msg_job, SymSystem.request_job. cbn. by rewrite (sb_key _ _ _ S).
      * cbn [set_qatMsg qatMsg serv_specif_flags]. rewrite Hupd. exact Hflag.
    + cbn [set_qatMsg updateKeySizeOnRecieve]. rewrite T6. cbn. destruct (so_alg _ _ _ _ HD) as (_ & _ & ->).
      by rewrite andb_false_r.
Qed.

(** The call up to the queue: it fails and leaves the state alone, or a cookie
    is ready. *)
Lemma AlgChain_prepare acc r p rest s :
  alloc_loop (allocs s) = Some (p, rest) → p ∉ dom (cookies s) → submitted acc r s →
  (∀ d, r_dst r = Some d → list_ok d) →
  (∃ st ds, st ≠ CPA_STATUS_SUCCESS ∧
     LacAlgChain_Perform D virt2phys (r_tag r) (r_op r) (r_src r) (r_dst r) s =
       Some (st, set_allocs rest (set_descs ds s))) ∨
  (∃ c ds, p ≠ 0 ∧ req_ok acc r ∧ cookie_ok acc r p c ∧ pNext c = 0 ∧
     ∀ st s4,
       LacSymQueue_RequestSend D p (set_cookies (<[p := c]> (cookies s))
         (set_sess (set_pendingCbCount (pendingCbCount (sess s) + 1) (sess s))
           (set_allocs rest (set_descs ds s)))) = Some (st, s4) →
       LacAlgChain_Perform D virt2phys (r_tag r) (r_op r) (r_src r) (r_dst r) s =
         Some (st, if st =? CPA_STATUS_SUCCESS then s4
           else set_cookies (delete p (cookies s4))
             (set_sess (set_pendingCbCount (pendingCbCount (sess s4) - 1) (sess s4)) s4))).
Proof.
  intros Hal Hp S Hdst. unfold LacAlgChain_Perform, in_sess, LacAlgChain_UnlockSessionReader, in_sess.
  rewrite bind_modify. unfold alloc_cookie. rewrite bind_assoc, bind_gets.
  cbn [allocs set_sess]. rewrite Hal, !bind_assoc, bind_lift, bind_assoc, bind_modify, bind_ret. cbn [fst snd].
  set (s1 := set_allocs rest _).
  assert (∀ ds, set_sess (set_accessReaders (accessReaders (sess (set_descs ds s1)) - 1)
      (sess (set_descs ds s1))) (set_descs ds s1) = set_allocs rest (set_descs ds s)) as Hback.
  { intros ds. unfold s1. destruct s as [[] ? ? ? ? ? ? ?].
    unfold set_allocs, set_descs, set_sess, set_accessReaders.
    cbn [sess cookies mem descs ring puts allocs calls accessReaders partialState cipher_key_sz
      pRequestQueueHead pRequestQueueTail nonBlockingOpsInProgress pendingCbCount].
    by rewrite Z.add_simpl_r. }
  destruct (Z.eqb_spec p 0) as [->|Hp0].
  { left. exists CPA_STATUS_RESOURCE, (descs s). split; [done|].
    change s1 with (set_descs (descs s) s1). rewrite <- Hback. done. }
  destruct (write_descs_spec s1 (r_src r) (r_dst r) (sb_src _ _ _ S) Hdst) as (st & sp & dp & ds & Hw & Hsd).
  rewrite (bind_Some _ _ _ _ _ Hw).
  destruct (Z.eqb_spec st CPA_STATUS_SUCCESS) as [Est|Est].
  2: { left. exists st, ds. split; [done|]. cbn [mbind option_bind]. rewrite bind_ret.
       rewrite (proj2 (Z.eqb_neq st CPA_STATUS_SUCCESS)) by done. cbn [when negb andb].
       rewrite bind_ret, bind_modify, bind_ret, (proj2 (Z.eqb_neq st CPA_STATUS_SUCCESS)) by done.
       cbn [when negb andb]. unfold Lac_MemPoolEntryFree. rewrite bind_modify. unfold ret. do 2 f_equal.
       rewrite Hback. unfold set_cookies. cbn [cookies set_allocs set_descs].
       rewrite delete_id by (by apply not_elem_of_dom). done. }
  destruct (Hsd Est) as [-> ->].
  assert (submitted acc r (set_descs ds s1)) as S1 by (by destruct S).
  destruct (populate_spec acc r p _ _ _ S1 Hp0 eq_refl eq_refl) as (st1 & early & c & Hrun & Hearly & Hok).
  cbn [cookies set_descs] in Hrun. change (cookies s1) with (cookies s) in Hrun.
  cbn [mbind option_bind]. rewrite (bind_Some _ _ _ _ _ Hrun). destruct early.
  { left. exists st1, ds. split; [by apply Hearly|]. unfold ret. do 2 f_equal.
    rewrite delete_id by (by apply not_elem_of_dom). rewrite Hback. done. }
  rewrite Z.sub_0_r.
  assert (set_cookies (<[p:=c]> (cookies s)) (set_sess (set_accessReaders
    (accessReaders (sess (set_descs ds s1))) (sess (set_descs ds s1))) (set_descs ds s1)) =
    set_cookies (<[p:=c]> (cookies s)) (set_descs ds s1)) as -> by (unfold s1; by destruct s as [[]]).
  destruct (Z.eqb_spec st1 CPA_STATUS_SUCCESS) as [E1|E1].
  2: { left. exists st1, ds. split; [done|]. cbn [negb andb when].
       rewrite bind_ret, bind_modify, bind_ret, (proj2 (Z.eqb_neq st1 CPA_STATUS_SUCCESS)) by done.
       cbn [when negb andb]. unfold Lac_MemPoolEntryFree. rewrite bind_modify. unfold ret. do 2 f_equal.
       cbn [cookies set_cookies set_sess]. rewrite delete_insert_id by (by apply not_elem_of_dom).
       rewrite <- Hback. by destruct s as [[]]. }
  right. exists c, ds. destruct (Hok E1) as (H1 & H2 & H3). do 4 (split; [done|]). intros st2 s4 Hsend.
  cbn [when]. rewrite !bind_modify.
  match type of Hsend with LacSymQueue_RequestSend D p ?x = _ =>
    match goal with |- bind _ _ ?y = _ => assert (y = x) as -> end end.
  { unfold s1. destruct s as [[] ? ? ? ? ? ? ?].
    cbn [sess cookies mem descs ring puts allocs calls accessReaders partialState cipher_key_sz
      pRequestQueueHead pRequestQueueTail nonBlockingOpsInProgress pendingCbCount
      set_allocs set_descs set_sess set_cookies set_accessReaders set_pendingCbCount].
    by rewrite Z.add_simpl_r. }
  rewrite bind_assoc, (bind_Some _ _ _ _ _ Hsend). cbn [negb].
  destruct (Z.eqb_spec st2 CPA_STATUS_SUCCESS) as [E2|E2]; cbn [negb when].
  - rewrite !bind_assoc, !bind_ret, E2. done.
  - rewrite bind_assoc, bind_modify, bind_ret. rewrite (proj2 (Z.eqb_neq st2 CPA_STATUS_SUCCESS)) by done.
    cbn [negb when andb]. unfold Lac_MemPoolEntryFree. by rewrite bind_modify.
Qed.

(** The session's IV buffer is overwritten for a request the transport then
    refuses; no stream is open. *)
Lemma core_unsent v p c r m' :
  core v [] ∅ → v_nb v = true → req_ok (spec_run (v_subs v)) r →
  cookie_ok (spec_run (v_subs v)) r p c → session_iv D c (v_mem v) = Some m' →
  core (View m' (v_cookies v) (v_ring v) (v_nb v) (v_subs v) (v_outs v) (v_handled v)) [] ∅.
Proof.
  intros C Hnb Hreq Hck Hm.
  assert (length (v_ring v) = length (v_subs v)) as Hlen by (pose proof (c_len _ _ _ C) as H; cbn in H; lia).
  apply session_iv_inv in Hm as [[_ ->]|(Hsend & B0 & b & L & HB0 & _ & _ & HLb & HLB & ->)]; [by destruct v|].
  rewrite (co_send _ _ _ _ Hck) in Hsend. apply andb_true_iff in Hsend as [Hs Hsf].
  unfold starts in Hs. apply andb_true_iff in Hs as [_ Hs%bool_decide_eq_true].
  assert (∀ j r', ¬ unprocessed v j r') as Hnone.
  { intros j r' (Hj & Hr' & Hf & Hdj).
    destruct (c_block _ _ _ C j r') as [Hb _]; [lia| |done|done|congruence].
    intros Hjh. by apply Hdj, (c_handled _ _ _ C). }
  assert (∀ x, x ≠ cipherPartialOpState D →
    <[cipherPartialOpState D := take L b ++ drop L B0]> (v_mem v) !! x = v_mem v !! x) as Hother
    by (intros; by rewrite lookup_insert_ne).
  split; cbn [v_mem v_cookies v_ring v_nb v_subs v_outs v_handled]; try apply C.
  - destruct (c_state _ _ _ C) as (B & HB & HlB & _). assert (B0 = B) as -> by congruence.
    eexists. rewrite lookup_insert_eq. split; [done|]. split.
    { rewrite length_app, length_take, length_drop. lia. }
    split; [by intros k r' Hu%Hnone|]. intros _ Hacc. exfalso.
    unfold acc_at in Hacc. cbn [v_subs v_ring] in Hacc. rewrite Hlen, firstn_all in Hacc. congruence.
  - rewrite Hother; [apply C|]. pose proof (so_buffers _ _ _ _ HD). naive_solver.
  - intros Hst j r' Hj Hr'. destruct (c_ivs _ _ _ C Hst j r' Hj Hr') as (b' & Hb & Hrest).
    exists b'. split; [|done]. rewrite Hother; [done|].
    destruct (c_reqs _ _ _ C j r' Hr') as [_ _ Hi Hbuf _]. destruct (Hi Hst). by apply Hbuf.
Qed.

Lemma partial_step acc r :
  acc_wf acc → r_full r = false →
  LacSym_PartialPacketStateCheck (packetType (r_op r)) acc.1 = CPA_STATUS_SUCCESS →
  LacSym_PartialPacketStateUpdate (packetType (r_op r)) acc.1 = (spec_step acc r).1.
Proof.
  intros [Hne _] Hf%r_full_false Hc. unfold SymSystem.spec_step.
  by destruct (packetType (r_op r)), acc as [[] ?].
Qed.

Lemma spec_step_full_1 acc r : r_full r = true → (spec_step acc r).1 = acc.1.
Proof. intros H. by rewrite spec_step_full. Qed.

(** What a call returns to the client does to the session. *)
Definition submit_state (r : request) (s : state) : state :=
  if r_full r then s
  else set_sess (set_partialState
    (LacSym_PartialPacketStateUpdate (packetType (r_op r)) (partialState (sess s))) (sess s)) s.

Lemma perform_spec acc p rest r s :
  alloc_loop (allocs s) = Some (p, rest) → p ∉ dom (cookies s) →
  list_ok (r_src r) → (∀ d, r_dst r = Some d → list_ok d) →
  r_iv r = default [] (mem s !! pIv (r_op r)) →
  (pIv (r_op r) ≠ 0 → pIv (r_op r) ≠ cipherPartialOpState D ∧ pIv (r_op r) ≠ cipherARC4InitialState D ∧
    ∃ b, mem s !! pIv (r_op r) = Some b ∧ 0 <= ivLenInBytes (r_op r) <= Z.of_nat (length b)) →
  cipher_key_sz (sess s) = key0 → partialState (sess s) = acc.1 → acc_wf acc →
  (∃ st al ds, st ≠ CPA_STATUS_SUCCESS ∧
     LacSym_Perform D virt2phys (r_tag r) (r_op r) (r_src r) (r_dst r) s =
       Some (st, set_allocs al (set_descs ds s))) ∨
  (∃ c ds, p ≠ 0 ∧ req_ok acc r ∧ cookie_ok acc r p c ∧ pNext c = 0 ∧
     (r_full r = false → LacSym_PartialPacketStateUpdate (packetType (r_op r)) acc.1 = (spec_step acc r).1) ∧
     ∀ st s4,
       LacSymQueue_RequestSend D p (set_cookies (<[p := c]> (cookies s))
         (set_sess (set_pendingCbCount (pendingCbCount (sess s) + 1) (sess s))
           (set_allocs rest (set_descs ds s)))) = Some (st, s4) →
       LacSym_Perform D virt2phys (r_tag r) (r_op r) (r_src r) (r_dst r) s =
         Some (st, if st =? CPA_STATUS_SUCCESS then submit_state r s4
           else set_cookies (delete p (cookies s4))
             (set_sess (set_pendingCbCount (pendingCbCount (sess s4) - 1) (sess s4)) s4))).
Proof.
  intros Hal Hp Hsrc Hdst Hriv Hbuf Hkey Hps Hwf. unfold LacSym_Perform.
  destruct (BufferParamCheck_spec s (r_src r) (r_dst r) (r_op r) Hsrc Hdst) as (st0 & E & Hchk).
  rewrite (bind_Some _ _ _ _ _ E). destruct (Z.eqb_spec st0 CPA_STATUS_SUCCESS) as [E0|E0]; cbn [negb].
  2: { left. exists st0, (allocs s), (descs s). split; [done|]. by destruct s. }
  specialize (Hchk E0). rewrite Hps in Hchk.
  assert (submitted acc r s) as S by (by split).
  destruct (AlgChain_prepare acc r p rest s Hal Hp S Hdst) as
    [(st & ds & Hst & Hrun)|(c & ds & Hp0 & Hreq & Hck & Hn & Hrun)].
  - left. exists st, rest, ds. split; [done|]. rewrite (bind_Some _ _ _ _ _ Hrun).
    by rewrite (proj2 (Z.eqb_neq _ _) Hst).
  - right. exists c, ds. do 4 (split; [done|]). split.
    { intros Hf. apply partial_step; [done..|]. apply r_full_false in Hf. by apply Hchk. }
    intros st s4 Hsend. rewrite (bind_Some _ _ _ _ _ (Hrun st s4 Hsend)). unfold submit_state, r_full.
    destruct (st =? CPA_STATUS_SUCCESS); cbn [andb]; [|done].
    destruct (bool_decide _); cbn [negb when]; [done|]. unfold in_sess. by rewrite bind_modify.
Qed.

Lemma queue_frame s s' q :
  queue_of s q → (∀ a, a ∈ q → cookies s' !! a = cookies s !! a) →
  pRequestQueueHead (sess s') = pRequestQueueHead (sess s) →
  pRequestQueueTail (sess s') = pRequestQueueTail (sess s) → queue_of s' q.
Proof.
  intros (Hl & Ht & Hnd) Hc Eh Et. unfold queue_of. rewrite Eh, Et. split; [|by split].
  by apply (linked_frame (cookies s)).
Qed.

(** A request accepted in state [s4] that has a new cookie at [p]. *)
Lemma simple_submit sy r s4 :
  simple sy → (r_full r = false →
    LacSym_PartialPacketStateUpdate (packetType (r_op r)) (spec_run (subs sy)).1 = (spec_step (spec_run (subs sy)) r).1) →
  partialState (sess s4) = partialState (sess (st sy)) → cipher_key_sz (sess s4) = cipher_key_sz (sess (st sy)) →
  pendingCbCount (sess s4) = pendingCbCount (sess (st sy)) + 1 →
  accessReaders (sess s4) = accessReaders (sess (st sy)) → calls s4 = calls (st sy) →
  (∀ k, k ∈ handled sy → (k < length (subs sy))%nat) →
  simple (Sys (submit_state r s4) (subs sy ++ [r]) (outs sy) (handled sy)).
Proof.
  intros [Hps Hkey Hp Hrd Hcalls] Hup E1 E2 E3 E4 E5 Hh.
  assert (sess (submit_state r s4) = set_partialState (spec_step (spec_run (subs sy)) r).1 (sess s4) ∧
    calls (submit_state r s4) = calls s4) as [Esess Ecalls].
  { unfold submit_state. destruct (r_full r) eqn:Ef.
    - rewrite spec_step_full by done. rewrite <- Hps, <- E1. by destruct s4 as [[]].
    - cbn. by rewrite E1, Hps, Hup. }
  split; cbn [st subs outs handled]; rewrite ?Esess, ?Ecalls; cbn [partialState cipher_key_sz pendingCbCount
    accessReaders set_partialState].
  - by rewrite spec_run_snoc.
  - congruence.
  - rewrite E3, Hp, length_app. cbn. lia.
  - congruence.
  - rewrite E5, Hcalls. apply list_omap_ext, Forall_Forall2_diag, Forall_forall. intros k Hk.
    by rewrite lookup_app_l by by apply Hh.
Qed.

Lemma inv_submit sy tag op src dst als ps :
  inv sy → allowed D virt2phys (Submit tag op src dst als ps) sy →
  ∃ sy', exec D virt2phys engine (Submit tag op src dst als ps) sy = Some sy' ∧ inv sy'.
Proof.
  intros (q & Hq & C & Hs & Hidle) (Hsrc & Hdst & Hiv & p & rest & Hal & Hp).
  set (s := set_allocs als (set_puts ps (st sy))).
  set (r := Request tag op src dst (default [] (mem (st sy) !! pIv op))).
  set (acc := spec_run (subs sy)).
  assert (acc_wf acc) as Hwf.
  { pose proof (core_acc_wf _ _ _ (length (subs sy)) C) as H. unfold acc_at in H. cbn [view_of v_subs] in H.
    by rewrite firstn_all in H. }
  cbn [exec]. fold s.
  destruct (perform_spec acc p rest r s) as
    [(st1 & al & ds & Hst & Hrun)|(c & ds & Hp0 & Hreq & Hck & Hn & Hup & Hrun)]; try done.
  { intros Hp0. destruct (Hiv Hp0) as (H1 & H2 & H3 & _). done. }
  { apply Hs. }
  { apply Hs. }
  - cbn [r_tag r_op r_src r_dst r] in Hrun. rewrite Hrun. cbn [mbind option_bind]. rewrite (proj2 (Z.eqb_neq _ _) Hst).
    eexists. split; [done|]. exists q. split; [done|]. split; [done|]. by split; [destruct Hs|].
  - cbn [r_tag r_op r_src r_dst r] in Hrun.
    set (s3 := set_cookies (<[p:=c]> (cookies s)) _) in Hrun.
    assert (p ∉ q) as Hpq.
    { intros Ha. destruct Hq as (Hl & _). by apply Hp, elem_of_dom, (linked_in_dom _ _ _ p Hl Ha). }
    assert (queue_of s3 q) as Hq3.
    { apply (queue_frame (st sy)); [done| |done..]. intros a Ha. cbn. apply lookup_insert_ne. by intros ->. }
    assert (∀ k, k ∈ handled sy → (k < length (subs sy))%nat) as Hhl.
    { intros k Hk. apply (c_handled _ _ _ C), (c_processed _ _ _ C) in Hk. pose proof (c_len _ _ _ C) as H.
      cbn in Hk, H. lia. }
    assert (core (view_of (Sys s3 (subs sy ++ [r]) (outs sy) (handled sy))) (q ++ [p]) ∅) as C3.
    { apply (core_append (view_of sy) q p c r C Hp Hp0 Hreq Hck). intros Hst.
      destruct (ro_iv _ _ Hreq Hst) as [Hp1 Hl1]. destruct (Hiv Hp1) as (_ & _ & (b & Hb & Hlb) & Hother).
      cbn [r_op r] in Hl1, Hp1 |- *. exists b. split; [done|]. split; [lia|]. intros Hstarts.
      destruct (stateful_iv Hst) as [_ Harc]. unfold SymSystem.own_iv. rewrite Harc. cbn [r_iv r]. rewrite Hb.
      split; [done|]. intros j r' Hj Hr'. unfold starts in Hstarts. cbn [r_op r] in Hstarts.
      apply andb_true_iff in Hstarts as [H1%bool_decide_eq_true H2%bool_decide_eq_true].
      apply Hother; [done| |by exists j]. by rewrite (s_ps _ Hs). }
    destruct (must_queue s3) eqn:Em.
    + destruct (RequestSend_enqueues D s3 q p c Hq3 Em Hp0 Hpq) as (ck & Hsend & Hck4 & Hq4);
        [apply lookup_insert_eq|done|].
      set (s4 := enqueued p q ck s3) in *.
      rewrite (Hrun _ _ Hsend), Z.eqb_refl. cbn [mbind option_bind]. rewrite Z.eqb_refl.
      eexists. split; [done|]. exists (q ++ [p]).
      split; [by apply (queue_frame s4); [|unfold submit_state; destruct (r_full r)..]|]. split; [|split].
      * pose proof (core_pNext _ _ _ ck C3 Hck4) as C4. unfold submit_state. by destruct (r_full r).
      * by apply (simple_submit sy r s4 Hs Hup).
      * intros Hnb. exfalso.
        assert (nonBlockingOpsInProgress (sess (st sy)) = true) as Hnb'
          by (revert Hnb; unfold submit_state; by destruct (r_full r)).
        unfold must_queue in Em. cbn in Em. rewrite Hnb' in Em. cbn in Em.
        destruct Hq as (_ & Ht & _). rewrite (Hidle Hnb') in Ht. cbn in Ht. by rewrite Ht in Em.
    + assert (nonBlockingOpsInProgress (sess (st sy)) = true) as Hnb.
      { unfold must_queue in Em. cbn in Em. by destruct (nonBlockingOpsInProgress (sess (st sy))). }
      rewrite (Hidle Hnb) in *. cbn [app] in C3.
      pose proof (core_sendable _ _ _ s3 C3 eq_refl eq_refl) as Hsend.
      apply Forall_singleton in Hsend as (c' & Hc' & _ & m' & Hm').
      assert (cookies s3 !! p = Some c) as Hc by apply lookup_insert_eq.
      assert (c' = c) as -> by congruence.
      pose proof (RequestSend_sends D s3 p c m' _ Em Hc Hm' eq_refl) as Hrun'.
      rewrite (Hrun _ _ Hrun'). cbn [mbind option_bind].
      destruct (Z.eqb_spec (default CPA_STATUS_SUCCESS (head (puts s3))) CPA_STATUS_SUCCESS) as [Est|Est].
      * eexists. split; [done|]. exists []. split; [by unfold submit_state; destruct (r_full r)|].
        split; [|split; [|done]].
        -- pose proof (core_send _ p [] ∅ c m' C3 Hnb Hc Hm') as C4. unfold submit_state. by destruct (r_full r).
        -- by apply (simple_submit sy r _ Hs Hup).
      * eexists. split; [done|]. exists []. cbn [cookies set_puts set_mem s3 set_cookies].
        rewrite delete_insert_id by (by apply not_elem_of_dom).
        split; [done|]. split; [|split; [|done]].
        -- by apply (core_unsent (view_of sy) p c r m' C Hnb Hreq Hck).
        -- destruct Hs. split; try done. cbn. rewrite Z.add_simpl_r. done.
Qed.

(** ** The reachable states *)

Abbreviation reach := (reach D virt2phys engine key0 arc4).
Abbreviation allowed := (allowed D virt2phys).
Abbreviation exec := (exec D virt2phys engine).

Lemma inv_exec s e : inv s → allowed e s → ∃ s', exec e s = Some s' ∧ inv s'.
Proof. destruct e; [apply inv_submit|apply inv_device|apply inv_response]. Qed.

Lemma session_reach_inv s : reach s → inv s.
Proof.
  induction 1 as [s H|s e s' _ IH Ha E]; [by apply inv_start|].
  destruct (inv_exec s e IH Ha) as (s'' & E' & Hinv). congruence.
Qed.

Lemma handled_bound s k : inv s → k ∈ dom (outs s) → (k < length (ring (st s)) <= length (subs s))%nat.
Proof.
  intros (q & _ & C & _) Hk. split; [by apply (c_processed _ _ _ C k Hk)|].
  pose proof (c_len _ _ _ C) as H. cbn in H. lia.
Qed.

Definition is_submit (e : event) : bool := match e with Submit _ _ _ _ _ _ => true | _ => false end.

(** What is left to do for the requests accepted so far. *)
Definition work (s : sys) : nat :=
  (length (subs s) - size (outs s)) + (length (subs s) - length (handled s)).

Lemma bounded_size (X : gset nat) m : (∀ k, k ∈ X → (k < m)%nat) → (size X <= m)%nat.
Proof.
  intros H. transitivity (size (set_seq 0 m : gset nat)).
  - apply subseteq_size. intros k Hk. apply elem_of_set_seq. specialize (H k Hk). lia.
  - by rewrite size_set_seq.
Qed.

Lemma done_bounds s : inv s → (size (outs s) <= length (subs s) ∧ length (handled s) <= length (subs s))%nat.
Proof.
  intros Hinv. assert (size (dom (outs s)) <= length (subs s))%nat as H1.
  { apply bounded_size. intros k Hk. destruct (handled_bound s k Hinv Hk). lia. }
  rewrite size_dom in H1. split; [done|]. destruct Hinv as (q & _ & C & _).
  destruct (c_handled _ _ _ C) as [Hnd Hd]. transitivity (size (list_to_set (handled s) : gset nat)).
  - by rewrite size_list_to_set.
  - transitivity (size (dom (outs s))); [|by rewrite size_dom]. apply subseteq_size. intros k Hk.
    apply elem_of_list_to_set in Hk. by apply Hd.
Qed.

Lemma exec_outcome s e s' :
  is_submit e = false → exec e s = Some s' →
  subs s' = subs s ∧
  ((∃ k o, k ∉ dom (outs s) ∧ outs s' = <[k := o]> (outs s) ∧ handled s' = handled s) ∨
   (∃ k, outs s' = outs s ∧ handled s' = handled s ++ [k])).
Proof.
  destruct e as [|k a|k flags ps]; [done|intros _ E..]; cbn [SymSystem.exec] in E;
    (destruct (ring (st s) !! k) as [m|]; [|done]); cbn [mbind option_bind] in E; case_decide; try done.
  - destruct (device _ _ _ _ _ _) as [[o mm]|]; [|done]. injection E as <-.
    split; [done|]. left. by exists k, o.
  - destruct (LacSymCb_ProcessCallback _ _ _ _) as [[u s1]|]; [|done]. injection E as <-.
    split; [done|]. right. by exists k.
Qed.

Lemma work_decreases s e s' :
  inv s → allowed e s → is_submit e = false → exec e s = Some s' → (work s' < work s)%nat.
Proof.
  intros Hinv Ha He E. destruct (inv_exec s e Hinv Ha) as (s'' & E' & Hinv').
  assert (s'' = s') as -> by congruence. destruct (exec_outcome s e s' He E) as [Hsub H].
  destruct (done_bounds s Hinv), (done_bounds s' Hinv'). unfold work. rewrite Hsub in *.
  destruct H as [(k & o & Hk & Ho & Hh)|(k & Ho & Hh)]; rewrite Ho, Hh in *.
  - rewrite map_size_insert_None in * by (by apply not_elem_of_dom). lia.
  - rewrite length_app in *. cbn in *. lia.
Qed.

(** With nothing left to do for the device, every request has been answered. *)
Lemma quiet_done s :
  inv s → (∀ e, is_submit e = false → ¬ allowed e s) → ∀ k, (k < length (ring (st s)))%nat → k ∈ handled s.
Proof.
  intros (q & Hq & C & _) Hquiet k Hk.
  destruct (lookup_lt_is_Some_2 _ _ Hk) as [m Hm].
  destruct (lookup_lt_is_Some_2 (subs s) k) as [r Hr]; [pose proof (c_len _ _ _ C) as H; cbn in H; lia|].
  destruct (decide (k ∈ handled s)) as [|Hh]; [done|]. exfalso.
  destruct (decide (k ∈ dom (outs s))) as [Ho|Ho].
  - apply (Hquiet (Response k 0 []) eq_refl). repeat split; [done..|apply patient_nil].
  - destruct (c_msgs _ _ _ C k m r Hm Hr) as [_ _ _ Hiv].
    assert (∃ a, ∀ ptr, cipher_IV m = inl ptr → ptr ≠ 0 → virt2phys a = ptr) as [a Ha].
    { unfold iv_field in Hiv. destruct no_iv; [exists 0; congruence|].
      destruct (r_full r); [destruct (LAC_CIPHER_IS_ARC4 alg)|]; destruct Hiv as [? ?];
        [eexists; intros ptr; rewrite H; by intros [= <-]|exists 0; congruence|
         eexists; intros ptr; rewrite H; by intros [= <-]]. }
    apply (Hquiet (Device k a) eq_refl). split; [done|]. by exists m.
Qed.

(** ** The properties *)

(** C5 No call of a client, answer of the device or callback goes wrong: there
    is no access outside a buffer or through a pointer that is not valid.  The
    messages on the ring are those of the accepted requests, in the order they
    were accepted, the others wait in the queue, and while a partial request is
    on the ring without its callback called it is the last one there. *)
Theorem sym_session_safe s :
  reach s →
  (∀ e, allowed e s → ∃ s', exec e s = Some s') ∧
  (∃ q, queue_of (st s) q ∧ (length (ring (st s)) + length q)%nat = length (subs s) ∧
     ∀ k p r, k ∉ handled s → subs s !! k = Some r → ((opaque_data <$> ring (st s)) ++ q) !! k = Some p →
       ∃ c, cookies (st s) !! p = Some c ∧ pCallbackTag c = r_tag r ∧ pOpData c = r_op r) ∧
  (∀ k m r, ring (st s) !! k = Some m → subs s !! k = Some r → msg_job m = request_job r) ∧
  (∀ k r, (k < length (ring (st s)))%nat → k ∉ handled s → subs s !! k = Some r →
     packetType (r_op r) ≠ CPA_CY_SYM_PACKET_TYPE_FULL → length (ring (st s)) = S k).
Proof.
  intros H%session_reach_inv. split.
  { intros e He. destruct (inv_exec s e H He) as (s' & E & _). by exists s'. }
  destruct H as (q & Hq & C & Hs & _). split; [|split].
  - exists q. split; [done|]. split; [apply C|]. intros k p r Hk Hr Hp.
    destruct (c_cookies _ _ _ C k p r Hk Hp Hr) as (_ & c & Hc & Hok). exists c.
    split; [done|]. split; apply Hok.
  - intros k m r Hm Hr. by apply (c_msgs _ _ _ C k m r Hm Hr).
  - intros k r Hk Hh Hr Hf%r_full_false. by apply (c_block _ _ _ C k r Hk Hh Hr Hf).
Qed.

(** C4 Whatever the order in which the device takes requests and answers them,
    what it computes for each request is what processing the accepted requests
    one after the other gives, the IV of a stream of partial packets going from
    each to the next; the client's callback is called once for each answer,
    with the request's tag and operation and status success, and the session
    counts the requests whose callback is still to come. *)
Theorem sym_session_sequential s :
  reach s →
  (∀ k o, outs s !! k = Some o → spec_out (subs s) k = Some o) ∧
  NoDup (handled s) ∧ (∀ k, k ∈ handled s → k ∈ dom (outs s)) ∧
  calls (st s) = omap (λ k, (λ r, Call (r_tag r) CPA_STATUS_SUCCESS CPA_CY_SYM_OP_CIPHER
    (r_op r) (default (r_src r) (r_dst r)) true) <$> subs s !! k) (handled s) ∧
  pendingCbCount (sess (st s)) = Z.of_nat (length (subs s)) - Z.of_nat (length (handled s)) ∧
  partialState (sess (st s)) = (spec_run (subs s)).1.
Proof.
  intros (q & _ & C & Hs & _)%session_reach_inv. split; [apply C|]. destruct (c_handled _ _ _ C) as [Hnd Hd].
  do 2 (split; [done|]). split; [apply Hs|]. split; apply Hs.
Qed.


End invariant.


(** ** A stream of three partial packets and a full one *)

Module Example.

Definition D : session_desc :=
  SessionDesc CPA_CY_SYM_OP_CIPHER CPA_CY_SYM_CIPHER_AES_CBC 16 0 false false 0 2 0x1000 0x2000.
Definition arc4 : list Z := replicate 264 0.
Definition engine (j : job) (iv : list Z) : list Z * list Z := (rev (fmap (λ x, u8 (x + 1)) iv), iv).
Definition identity (a : Z) : Z := a.
Definition start_state : @sys (list Z) :=
  Sys (State (session_init 2) ∅ {[ 0x1000 := replicate 264 0; 0x2000 := arc4; 0x3000 := seqZ 0 16 ]} ∅ [] [] [] [])
    [] ∅ [].

Definition buffers : CpaBufferList := BufferList 1 (Some [FlatBuffer 16 0x4000]) 0x5000.
Definition submit (t : CpaCySymPacketType) (p : Z) : event :=
  Submit p (OpData t 0x3000 16 0 16 0) buffers None [p] [].
Definition answers (k : nat) : list event := [Device k 0x1000; Response k 0 []].
Definition first : list event :=
  [submit CPA_CY_SYM_PACKET_TYPE_PARTIAL 0x100; submit CPA_CY_SYM_PACKET_TYPE_PARTIAL 0x200;
   submit CPA_CY_SYM_PACKET_TYPE_LAST_PARTIAL 0x300; submit CPA_CY_SYM_PACKET_TYPE_FULL 0x400]
  ++ answers 0.
Definition events : list event := first ++ answers 1 ++ answers 2 ++ answers 3.

(** What [allowed] asks, decided for the events of the example. *)
Definition ok (e : event) (s : @sys (list Z)) : bool :=
  match e with
  | Submit _ op src None als _ =>
    (numBuffers src =? Z.of_nat (length (bufs_of src))) &&
    negb (pIv op =? cipherPartialOpState D) && negb (pIv op =? cipherARC4InitialState D) &&
    match mem (st s) !! pIv op with
    | Some b => (0 <=? ivLenInBytes op) && (ivLenInBytes op <=? Z.of_nat (length b)) | None => false
    end &&
    (negb (bool_decide (partialState (sess (st s)) = CPA_CY_SYM_PACKET_TYPE_FULL)) ||
     bool_decide (packetType op ≠ CPA_CY_SYM_PACKET_TYPE_PARTIAL) || bool_decide (subs s = [])) &&
    match alloc_loop als with Some (p, _) => bool_decide (p ∉ dom (cookies (st s))) | None => false end
  | Submit _ _ _ (Some _) _ _ => false
  | Device k a =>
    bool_decide (k ∉ dom (outs s)) &&
    match ring (st s) !! k with
    | Some m => match cipher_IV m with inl ptr => (ptr =? 0) || (a =? ptr) | inr _ => true end
    | None => false
    end
  | Response k flags ps =>
    bool_decide (k ∈ dom (outs s)) && bool_decide (k ∉ handled s) && bool_decide (ps = []) && (flags =? 0)
  end.

Fixpoint execs (es : list event) (s : sys) : option sys :=
  match es with
  | [] => Some s
  | e :: es => if ok e s then s ← exec D identity engine e s; execs es s else None
  end.

Lemma ok_allowed e s : ok e s = true → allowed D identity e s.
Proof.
  destruct e as [tag op src [dst|] als ps|k a|k flags ps]; cbn [ok allowed]; intros H; [done|..];
    rewrite ?andb_true_iff in H.
  - destruct H as [[[[[H1%Z.eqb_eq H2] H3] H4] H5] H6]. split; [done|]. split; [done|]. split.
    + intros _. apply negb_true_iff, Z.eqb_neq in H2, H3. do 2 (split; [done|]). split.
      * destruct (mem (st s) !! pIv op) as [b|]; [|done]. exists b. split; [done|]. lia.
      * intros Hp Hps r (k & Hr & _). rewrite bool_decide_eq_true_2 in H5 by done. cbn in H5.
        rewrite bool_decide_eq_false_2 in H5 by (intros Hn; by apply Hn). cbn in H5.
        apply bool_decide_eq_true in H5. by rewrite H5 in Hr.
    + destruct (alloc_loop als) as [[p rest]|]; [|done]. exists p, rest.
      by apply bool_decide_eq_true in H6.
  - destruct H as [H1%bool_decide_eq_true H2]. split; [done|].
    destruct (ring (st s) !! k) as [m|]; [|done]. exists m. split; [done|]. intros ptr Hm Hp. rewrite Hm in H2.
    rewrite (proj2 (Z.eqb_neq ptr 0)) in H2 by done. by apply Z.eqb_eq in H2.
  - destruct H as [[[H1%bool_decide_eq_true H2%bool_decide_eq_true] ->%bool_decide_eq_true] ->%Z.eqb_eq].
    repeat split; [done..|apply patient_nil].
Qed.

Lemma execs_reach es : ∀ s s',
  reach D identity engine 2 arc4 s → execs es s = Some s' → reach D identity engine 2 arc4 s'.
Proof.
  induction es as [|e es IH]; intros s s' Hs E; [by injection E as <-|]. cbn [execs] in E.
  destruct (ok e s) eqn:Ho; [|done]. destruct (exec D identity engine e s) as [s1|] eqn:E1; [|done].
  apply (IH s1); [|done]. eapply reach_step; [done|by apply ok_allowed|done].
Qed.

Lemma start_state_ok : start D 2 arc4 start_state.
Proof. repeat split. by eexists. Qed.

Lemma session_D_ok : session_ok D identity engine arc4.
Proof.
  split; try done. intros j iv. cbn. by rewrite length_rev, length_fmap.
Qed.

Definition after (es : list event) : sys := default start_state (execs es start_state).

Lemma after_reach es : is_Some (execs es start_state) → reach D identity engine 2 arc4 (after es).
Proof.
  intros [s E]. unfold after. rewrite E. by apply (execs_reach es start_state); [constructor; apply start_state_ok|].
Qed.

Lemma first_reach : reach D identity engine 2 arc4 (after first).
Proof. apply after_reach. vm_compute. by eexists. Qed.
Lemma events_reach : reach D identity engine 2 arc4 (after events).
Proof. apply after_reach. vm_compute. by eexists. Qed.

End Example.

Lemma sym_session_safe_witness :
  session_ok Example.D Example.identity Example.engine Example.arc4 ∧
  reach Example.D Example.identity Example.engine 2 Example.arc4 (Example.after Example.first) ∧
  length (ring (st (Example.after Example.first))) = 2%nat ∧
  ∃ s', exec Example.D Example.identity Example.engine (Device 1 0x1000) (Example.after Example.first) = Some s'.
Proof.
  split; [apply Example.session_D_ok|]. split; [apply Example.first_reach|]. split; [by vm_compute|].
  apply (sym_session_safe Example.D Example.identity Example.engine 2 Example.arc4 Example.session_D_ok).
  - apply Example.first_reach.
  - apply Example.ok_allowed. by vm_compute.
Defined.

Lemma sym_session_sequential_witness :
  session_ok Example.D Example.identity Example.engine Example.arc4 ∧
  reach Example.D Example.identity Example.engine 2 Example.arc4 (Example.after Example.events) ∧
  outs (Example.after Example.events) !! 2%nat = Some (seqZ 2 16) ∧
  spec_out Example.D Example.identity Example.engine 2 Example.arc4 (subs (Example.after Example.events)) 2 =
    Some (seqZ 2 16).
Proof.
  split; [apply Example.session_D_ok|]. split; [apply Example.events_reach|]. split; [by vm_compute|].
  apply (sym_session_sequential Example.D Example.identity Example.engine 2 Example.arc4 Example.session_D_ok).
  - apply Example.events_reach.
  - by vm_compute.
Defined.


(** ** Partial packets of AES-XTS

    The key size of a session's messages is halved when the first packet of a
    stream is completed and restored when the last one is.  A packet submitted
    before that keeps the size of its submission: [session_ok] leaves XTS out. *)

Module Xts.
Definition D : session_desc :=
  SessionDesc CPA_CY_SYM_OP_CIPHER CPA_CY_SYM_CIPHER_AES_XTS 32 0 false false 0 2 0x1000 0x2000.
Definition start_state : @sys (list Z) :=
  Sys (State (session_init 4) ∅ {[ 0x1000 := replicate 264 0; 0x2000 := Example.arc4; 0x3000 := seqZ 0 16 ]} ∅ [] [] [] [])
    [] ∅ [].
Definition key_sizes (es : list event) : option (list Z) :=
  (λ s, req_key_sz <$> ring (st s)) <$>
    foldl (λ os e, s ← os; exec D Example.identity Example.engine e s) (Some start_state) es.
End Xts.

(** Two packets of a stream, the second one submitted after and before the
    first is completed; a full packet submitted within a stream. *)
Lemma xts_pipelined_key_size :
  let a := Example.submit CPA_CY_SYM_PACKET_TYPE_PARTIAL 0x100 in
  let b := Example.submit CPA_CY_SYM_PACKET_TYPE_PARTIAL 0x200 in
  let f := Example.submit CPA_CY_SYM_PACKET_TYPE_FULL 0x300 in
  Xts.key_sizes ([a] ++ Example.answers 0 ++ [b]) = Some [4; 2] ∧
  Xts.key_sizes ([a; b] ++ Example.answers 0) = Some [4; 4] ∧
  Xts.key_sizes ([a] ++ Example.answers 0 ++ [f]) = Some [4; 2].
Proof. by vm_compute. Qed.

End SymSystemInv.
