(* ===== verification/UioRings.v ===== *)
(** * The rings a user process has

    Models [adf_uio.c] and [adf_uio_cleanup.c]: the kernel lends the rings of a
    bundle to the processes that have mapped it, one ring to one process, and
    takes them back, with the requests still in them, when a process goes.
    [adf_uio_control_bundle] keeps the rings in use and a list with the rings of
    each mapping; its elements are objects behind pointers, [insts].  A fault
    is an access to an element that is not there, or outside a ring's memory.

    What is read of the device ([csr], the registers of the bundle's window, and
    [mem], the memory of its rings) may change whenever the driver sleeps.  The
    ioctls run under [adf_ctl_lock], one at a time. *)

From S2P Require Import Prelude.

#[local] Open Scope Z_scope.
#[local] Open Scope qat_scope.

Module UioRings.

Definition MSG_NULL_FLAGS := 0xdeadbeefdeadbeef.
Definition CLEANUP_PH1_LIMIT := 500.
Definition CLEANUP_PH1_INTERVAL := 5.
Definition CLEANUP_PH2_LIMIT := 5000.
Definition CLEANUP_PH2_INTERVAL := 250.
Definition ADF_RING_CONFIG_RING_SIZE := 0x05.

Record adf_uio_instance_rings := Inst {
  user_pid : Z;
  ring_mask : Z;
  vma : Z
}.

(** One bundle: [struct adf_uio_control_bundle], what it points to, and the
    reference counts of the device, the control object and the bundle. *)
Record bundle := Bundle {
  insts : gmap Z adf_uio_instance_rings;  (** kzalloc'ed list elements *)
  list_ : list Z;                         (** [bundle->list] *)
  rings_used : Z;
  csr : gmap Z Z;                         (** registers, by offset *)
  mem : gmap Z (list Z);             (** ring memory by kernel address, in 32-bit words *)
  dev_refs : Z;
  accel_refs : Z;
  bundle_refs : Z;
  next_ptr : Z;
  nalloc : nat;                           (** calls made to the kernel's allocator *)
  nsleep : nat                            (** times slept *)
}.

Definition set_insts v b := Bundle v (list_ b) (rings_used b) (csr b) (mem b) (dev_refs b)
  (accel_refs b) (bundle_refs b) (next_ptr b) (nalloc b) (nsleep b).
Definition set_list v b := Bundle (insts b) v (rings_used b) (csr b) (mem b) (dev_refs b)
  (accel_refs b) (bundle_refs b) (next_ptr b) (nalloc b) (nsleep b).
Definition set_rings_used v b := Bundle (insts b) (list_ b) v (csr b) (mem b) (dev_refs b)
  (accel_refs b) (bundle_refs b) (next_ptr b) (nalloc b) (nsleep b).
Definition set_csr v b := Bundle (insts b) (list_ b) (rings_used b) v (mem b) (dev_refs b)
  (accel_refs b) (bundle_refs b) (next_ptr b) (nalloc b) (nsleep b).
Definition set_mem v b := Bundle (insts b) (list_ b) (rings_used b) (csr b) v (dev_refs b)
  (accel_refs b) (bundle_refs b) (next_ptr b) (nalloc b) (nsleep b).
Definition add_dev_refs n b := Bundle (insts b) (list_ b) (rings_used b) (csr b) (mem b)
  (dev_refs b + n) (accel_refs b) (bundle_refs b) (next_ptr b) (nalloc b) (nsleep b).
Definition add_accel_refs n b := Bundle (insts b) (list_ b) (rings_used b) (csr b) (mem b)
  (dev_refs b) (accel_refs b + n) (bundle_refs b) (next_ptr b) (nalloc b) (nsleep b).
Definition add_bundle_refs n b := Bundle (insts b) (list_ b) (rings_used b) (csr b) (mem b)
  (dev_refs b) (accel_refs b) (bundle_refs b + n) (next_ptr b) (nalloc b) (nsleep b).
Definition set_next_ptr v b := Bundle (insts b) (list_ b) (rings_used b) (csr b) (mem b)
  (dev_refs b) (accel_refs b) (bundle_refs b) v (nalloc b) (nsleep b).
Definition set_nalloc v b := Bundle (insts b) (list_ b) (rings_used b) (csr b) (mem b)
  (dev_refs b) (accel_refs b) (bundle_refs b) (next_ptr b) v (nsleep b).
Definition set_nsleep v b := Bundle (insts b) (list_ b) (rings_used b) (csr b) (mem b)
  (dev_refs b) (accel_refs b) (bundle_refs b) (next_ptr b) (nalloc b) v.

Definition inst (p : Z) : M bundle adf_uio_instance_rings :=
  o <- gets (λ b, insts b !! p) ;; lift o.
Definition put_inst (p : Z) (e : adf_uio_instance_rings) : M bundle () :=
  inst p ;; modify (λ b, set_insts (<[p := e]> (insts b)) b).
Definition kfree_inst (p : Z) : M bundle () :=
  inst p ;; modify (λ b, set_insts (delete p (insts b)) b).
Definition list_del (p : Z) : M bundle () :=
  modify (λ b, set_list (filter (λ q, q ≠ p) (list_ b)) b).

Definition set_mask m e := Inst (user_pid e) m (vma e).
Definition set_pid p e := Inst p (ring_mask e) (vma e).

(** [list_for_each_entry] up to the [break]. *)
Fixpoint find_entry (P : adf_uio_instance_rings → bool) (l : list Z) : M bundle (option Z) :=
  match l with
  | [] => ret None
  | p :: l => e <- inst p ;; if P e then ret (Some p) else find_entry P l
  end.

(** The entry of the calling process. *)
Definition find_process (pid : Z) : M bundle (option Z) :=
  l <- gets list_ ;; find_entry (λ e, user_pid e =? pid) l.

(** ** Registers *)

Definition csr_wr (off v : Z) : M bundle () :=
  modify (λ b, set_csr (<[off := u32 v]> (csr b)) b).
Definition csr_rd (off : Z) : M bundle Z := gets (λ b, default 0 (csr b !! off)).

Definition WRITE_CSR_RING_CONFIG ring value := csr_wr (0x000 + Z.shiftl ring 2) value.
Definition WRITE_CSR_RING_BASE ring value :=
  csr_wr (0x040 + Z.shiftl ring 2) (value .& 0xFFFFFFFF) ;;
  csr_wr (0x080 + Z.shiftl ring 2) (Z.shiftr (value .& 0xFFFFFFFF00000000) 32).
Definition read_base ring : M bundle Z :=
  l_base <- csr_rd (0x040 + Z.shiftl ring 2) ;;
  u_base <- csr_rd (0x080 + Z.shiftl ring 2) ;;
  ret ((l_base .& 0x00000000FFFFFFFF) .| (u64 (Z.shiftl u_base 32) .& 0xFFFFFFFF00000000)).
Definition READ_CSR_RING_HEAD ring := csr_rd (0x0C0 + Z.shiftl ring 2).
Definition READ_CSR_RING_TAIL ring := csr_rd (0x100 + Z.shiftl ring 2).
Definition WRITE_CSR_RING_HEAD ring value := csr_wr (0x0C0 + Z.shiftl ring 2) value.
Definition WRITE_CSR_RING_TAIL ring value := csr_wr (0x100 + Z.shiftl ring 2) value.
Definition WRITE_CSR_INT_COL_EN value := csr_wr 0x17C value.
Definition ADF_ARB_RINGSRVARBEN_OFFSET := 0x19C.

Definition adf_enable_ring_arb (mask : Z) : M bundle () :=
  arbenable <- csr_rd ADF_ARB_RINGSRVARBEN_OFFSET ;;
  csr_wr ADF_ARB_RINGSRVARBEN_OFFSET (arbenable .| (mask .& 0xFF)).
Definition adf_disable_ring_arb (mask : Z) : M bundle () :=
  arbenable <- csr_rd ADF_ARB_RINGSRVARBEN_OFFSET ;;
  csr_wr ADF_ARB_RINGSRVARBEN_OFFSET (arbenable .& clear 0xFF mask).

Definition get_ring_size (ring : Z) : M bundle Z :=
  config <- csr_rd (0x000 + Z.shiftl ring 2) ;;
  let ring_size := config .& (BIT ADF_RING_CONFIG_RING_SIZE - 1) in
  ret (u32 (Z.shiftl (Z.shiftl 1 (ring_size - 1)) 7)).

(** ** Null messages *)

(** [struct icp_qat_fw_comn_req], 128 bytes: the header's first word has the
    service type and the flags, the opaque data are words 6 and 7. *)
Definition ICP_QAT_FW_COMN_REQ_NULL := 0.
Definition ICP_QAT_FW_COMN_REQ_FLAG_SET := 1.
Definition ICP_QAT_FW_COMN_RESP_SERV_NULL := 0.
Definition ICP_QAT_FW_COMN_VALID_FLAG_SET (flags val : Z) : Z :=
  clear flags (Z.shiftl 0x1 7) .| Z.shiftl (val .& 0x1) 7.
Definition ICP_QAT_FW_COMN_VALID_FLAG_GET (flags : Z) : Z := Z.shiftr flags 7 .& 0x1.

Definition build_null_msg : list Z :=
  let service_type := ICP_QAT_FW_COMN_REQ_NULL in
  let hdr_flags := ICP_QAT_FW_COMN_VALID_FLAG_SET 0 ICP_QAT_FW_COMN_REQ_FLAG_SET in
  [Z.shiftl service_type 16 .| Z.shiftl hdr_flags 24; 0; 0; 0; 0; 0;
   MSG_NULL_FLAGS .& 0xFFFFFFFF; Z.shiftr MSG_NULL_FLAGS 32] ++ replicate 24 0.

(** On the eight words of a response: the type is byte 2, the flags byte 3, the
    opaque data words 2 and 3. *)
Definition is_null_rsp (rsp : list Z) : bool :=
  match rsp with
  | w0 :: _ :: w2 :: w3 :: _ =>
    negb (ICP_QAT_FW_COMN_VALID_FLAG_GET (Z.shiftr w0 24 .& 0xFF) =? 0)
    && (ICP_QAT_FW_COMN_RESP_SERV_NULL =? (Z.shiftr w0 16 .& 0xFF))
    && (MSG_NULL_FLAGS =? (Z.shiftl w3 32 .| w2))
  | _ => false
  end.

Definition ring_mem (p : Z) : M bundle (list Z) := o <- gets (λ b, mem b !! p) ;; lift o.

(** The responses in [\[start, end)] of a ring's memory, offsets in bytes; the
    loop runs [fuel] times, one response a round. *)
Fixpoint find_null_loop (fuel : nat) (buf : list Z) (pos end_ : Z) : option Z :=
  match fuel with
  | O => None
  | S fuel =>
    if pos <? end_ then
      if end_ <? pos + 32 then Some 0 else
      if negb (pos mod 4 =? 0) then None else
      let rsp := take 8 (drop (Z.to_nat (pos / 4)) buf) in
      if (length rsp <? 8)%nat then None else
      if is_null_rsp rsp then Some 1 else find_null_loop fuel buf (pos + 32) end_
    else Some 0
  end.
Definition find_null_response (buf : list Z) (start end_ : Z) : option Z :=
  find_null_loop (Z.to_nat ((end_ - start) / 32) + 2) buf start end_.

(** ** The rings of a process that has gone *)

Record ring_base := RingBase { base_virt : Z; addr : Z; size : Z }.

Record bundle_orphan_ring := Orphan {
  tx_mask : Z;
  rx_mask : Z;
  asym_mask : Z;
  rcv_null : Z;
  base : Z → ring_base
}.
Definition set_tx v o := Orphan v (rx_mask o) (asym_mask o) (rcv_null o) (base o).
Definition set_rx v o := Orphan (tx_mask o) v (asym_mask o) (rcv_null o) (base o).
Definition set_asym v o := Orphan (tx_mask o) (rx_mask o) v (rcv_null o) (base o).
Definition set_rcv v o := Orphan (tx_mask o) (rx_mask o) (asym_mask o) v (base o).
Definition set_base i v o := Orphan (tx_mask o) (rx_mask o) (asym_mask o) (rcv_null o) (fupd (base o) i v).

Record timer_state_s := Timer { phase : Z; interval : Z; limit : Z; elapsed : Z }.

(** Whether the time is up, and the new state. *)
Definition timer_sm (t : timer_state_s) : Z * timer_state_s :=
  let t := if phase t <=? 0
           then Timer 1 CLEANUP_PH1_INTERVAL CLEANUP_PH1_LIMIT (elapsed t) else t in
  if limit t <=? elapsed t then
    if phase t =? 1 then (0, Timer 2 CLEANUP_PH2_INTERVAL CLEANUP_PH2_LIMIT (elapsed t))
    else (1, t)
  else (0, t).

Definition add_elapsed (t : timer_state_s) : timer_state_s :=
  Timer (phase t) (interval t) (limit t) (elapsed t + interval t).

(** [struct adf_user_reserve_ring] *)
Record adf_user_reserve_ring := Reserve { accel_id : Z; bank_nr : Z; reserve_mask : Z }.

(** The device as the kernel sees it: the constants of its kind, which calls of
    the allocator succeed, what [remap_pfn_range] returns, the kernel address of a
    physical one (0 for NULL), and what the device does to its registers and to
    memory while the driver sleeps for the [n]-th time. *)
Section uio.
Context (num_rings_per_bank tx_rx_gap tx_rings_mask asym_rings_mask : Z).
Context (alloc_ok : nat → bool) (remap_pfn_range : nat → Z) (phys_to_virt : Z → Z).
Context (device : nat → gmap Z Z * gmap Z (list Z) → gmap Z Z * gmap Z (list Z)).

Definition kzalloc : M bundle bool :=
  n <- gets nalloc ;; modify (set_nalloc (S n)) ;; ret (alloc_ok n).

Definition msleep : M bundle () :=
  modify (λ b, let '(c, m) := device (nsleep b) (csr b, mem b) in
               set_nsleep (S (nsleep b)) (set_mem m (set_csr c b))).

Definition rings : list Z := seqZ 0 num_rings_per_bank.

Definition ring_dma_to_virt (daddr : Z) : Z := phys_to_virt (u64 (Z.shiftl daddr 6)).

Definition send_null_msg (o : bundle_orphan_ring) : M bundle () :=
  foreach rings (λ i,
    if negb (Z.testbit (tx_mask o) i) then ret () else
    let req_size := if Z.testbit (asym_mask o) i then 64 else 128 in
    buf <- ring_mem (base_virt (base o i)) ;;
    if (length buf <? 32)%nat then fault else
    modify (λ b, set_mem (<[base_virt (base o i) := build_null_msg ++ drop 32 buf]> (mem b)) b) ;;
    WRITE_CSR_RING_TAIL i req_size).

Definition rcv_null_response (r : ring_base) (head tail : Z) : M bundle Z :=
  buf <- ring_mem (base_virt r) ;;
  if head <? tail then lift (find_null_response buf head tail) else
  r1 <- lift (find_null_response buf head (size r)) ;;
  if negb (r1 =? 0) then ret r1 else
  lift (find_null_response buf 0 tail).

(** One pass over the response rings; the new [rcv_null]. *)
Fixpoint poll_null (l : list Z) (o : bundle_orphan_ring) : M bundle bundle_orphan_ring :=
  match l with
  | [] => ret o
  | i :: l =>
    if negb (Z.testbit (rx_mask o) i) || Z.testbit (rcv_null o) i then poll_null l o else
    head <- READ_CSR_RING_HEAD i ;;
    tail <- READ_CSR_RING_TAIL i ;;
    r <- rcv_null_response (base o i) head tail ;;
    let o := if negb (r =? 0) then set_rcv (rcv_null o .| BIT i) o else o in
    WRITE_CSR_RING_HEAD i tail ;;
    poll_null l o
  end.

Fixpoint wait_loop (fuel : nat) (t : timer_state_s) (o : bundle_orphan_ring) : M bundle () :=
  match fuel with
  | O => fault
  | S fuel =>
    o <- poll_null rings o ;;
    if rcv_null o =? rx_mask o then ret () else
    let '(r, t) := timer_sm t in
    if negb (r =? 0) then ret () else
    msleep ;; wait_loop fuel (add_elapsed t) o
  end.
Definition wait_fuel : nat := 120.
Definition wait_for_null_msg (o : bundle_orphan_ring) : M bundle () :=
  wait_loop wait_fuel (Timer 0 0 0 0) o.

Fixpoint check_loop (l : list Z) (o : bundle_orphan_ring) : M bundle bundle_orphan_ring :=
  match l with
  | [] => ret o
  | i :: l =>
    if Z.testbit (tx_mask o) i then
      if negb (Z.testbit (rx_mask o) (i + tx_rx_gap)) then
        WRITE_CSR_RING_CONFIG i 0 ;; WRITE_CSR_RING_BASE i 0 ;;
        check_loop l (set_tx (clear (tx_mask o) (BIT i)) o)
      else check_loop l o
    else if Z.testbit (rx_mask o) i then
      if negb (Z.testbit (tx_mask o) (i - tx_rx_gap)) then
        WRITE_CSR_RING_CONFIG i 0 ;; WRITE_CSR_RING_BASE i 0 ;;
        check_loop l (set_rx (clear (rx_mask o) (BIT i)) o)
      else check_loop l o
    else check_loop l o
  end.
Definition check_orphan_ring : bundle_orphan_ring → M bundle bundle_orphan_ring := check_loop rings.

(** The loop of [get_orphan_bundle] over the rings; [None] when a ring has no
    kernel address. *)
Fixpoint collect (mask : Z) (l : list Z) (o : bundle_orphan_ring)
    : M bundle (option bundle_orphan_ring) :=
  match l with
  | [] => ret (Some o)
  | i :: l =>
    base_ <- read_base i ;;
    if base_ =? 0 then collect mask l o else
    if mask .& BIT i =? 0 then collect mask l o else
    sz <- get_ring_size i ;;
    let virt := ring_dma_to_virt base_ in
    let o := set_base i (RingBase virt base_ sz) o in
    if virt =? 0 then ret None else
    let o := if Z.testbit tx_rings_mask i then set_tx (tx_mask o .| BIT i) o
             else set_rx (rx_mask o .| BIT i) o in
    let o := if Z.testbit asym_rings_mask i then set_asym (asym_mask o .| BIT i) o else o in
    collect mask l o
  end.

(** 0 with the rings found, or an error. *)
Definition get_orphan_bundle (pid : Z) : M bundle (Z * option bundle_orphan_ring) :=
  ok <- kzalloc ;;
  if negb ok then ret (- ENOMEM, None) else
  ok <- kzalloc ;;
  if negb ok then ret (- ENOMEM, None) else
  p <- find_process pid ;;
  mask <- match p with Some p => e <- inst p ;; ret (ring_mask e) | None => ret 0 end ;;
  o <- collect mask rings (Orphan 0 0 0 0 (λ _, RingBase 0 0 0)) ;;
  match o with
  | None => ret (- ENOMEM, None)
  | Some o =>
    o <- (if negb (tx_mask o =? 0) || negb (rx_mask o =? 0) then check_orphan_ring o else ret o) ;;
    ret (0, Some o)
  end.

Definition cleanup_all_ring (o : bundle_orphan_ring) : M bundle () :=
  let mask := rx_mask o .| tx_mask o in
  foreach rings (λ i,
    if negb (Z.testbit mask i) then ret () else
    WRITE_CSR_RING_CONFIG i 0 ;; WRITE_CSR_RING_BASE i 0) ;;
  adf_disable_ring_arb (tx_mask o).

Definition reset_tx_rings (o : bundle_orphan_ring) : M bundle () :=
  foreach rings (λ i,
    if negb (Z.testbit (tx_mask o) i) then ret () else WRITE_CSR_RING_BASE i (addr (base o i))).

Definition empty_rx_rings (o : bundle_orphan_ring) : M bundle () :=
  foreach rings (λ i,
    if negb (Z.testbit (rx_mask o) i) then ret () else
    tail <- READ_CSR_RING_TAIL i ;; WRITE_CSR_RING_HEAD i tail).

Fixpoint need_loop (l : list Z) : M bundle bool :=
  match l with
  | [] => ret false
  | i :: l => b <- read_base i ;; if negb (b =? 0) then ret true else need_loop l
  end.
Definition bundle_need_cleanup : M bundle bool := need_loop rings.

Definition cleanup_orphan_ring (o : bundle_orphan_ring) : M bundle () :=
  WRITE_CSR_INT_COL_EN 0 ;;
  adf_disable_ring_arb (tx_mask o) ;;
  reset_tx_rings o ;;
  adf_enable_ring_arb (tx_mask o) ;;
  empty_rx_rings o ;;
  send_null_msg o ;;
  wait_for_null_msg o ;;
  cleanup_all_ring o.

(** The end of [adf_uio_do_cleanup_orphan]. *)
Definition force_release (pid : Z) : M bundle () :=
  p <- find_process pid ;;
  match p with
  | Some p => e <- inst p ;; modify (λ b, set_rings_used (clear (rings_used b) (ring_mask e)) b)
  | None => ret ()
  end.

Definition adf_uio_do_cleanup_orphan (pid : Z) : M bundle () :=
  need <- bundle_need_cleanup ;;
  if negb need then force_release pid else
  let! (r, o) := get_orphan_bundle pid in
  match o with
  | None => ret ()
  | Some o =>
    when (negb ((tx_mask o =? 0) && (rx_mask o =? 0))) (cleanup_orphan_ring o) ;;
    force_release pid
  end.

(** ** The file operations *)

Definition adf_uio_open : M bundle () := modify (add_dev_refs 1).
Definition adf_uio_release : M bundle Z := ret 0.

(** Only the first of the five maps has a size. *)
Definition find_mem_index (pgoff : Z) : Z :=
  if pgoff <? 5 then if pgoff =? 0 then 0 else -1 else - EINVAL.

Definition adf_uio_mmap (pid vma_ pgoff : Z) : M bundle Z :=
  if find_mem_index pgoff <? 0 then ret (- EINVAL) else
  ok <- kzalloc ;;
  if negb ok then ret (- ENOMEM) else
  p <- gets next_ptr ;;
  modify (set_next_ptr (p + 1)) ;;
  modify (λ b, set_insts (<[p := Inst pid 0 vma_]> (insts b)) b) ;;
  modify (λ b, set_list (list_ b ++ [p]) b) ;;
  modify (add_accel_refs 1) ;;
  modify (add_bundle_refs 1) ;;
  n <- gets nalloc ;;
  let r := remap_pfn_range n in
  when (negb (r =? 0)) (list_del p ;; kfree_inst p) ;;
  ret r.

(** [removed]: the device has been taken away. *)
Definition adf_uio_mmap_close (pid vma_ : Z) (removed : bool) : M bundle () :=
  l <- gets list_ ;;
  p <- find_entry (λ e, (user_pid e =? pid) || (vma e =? vma_)) l ;;
  match p with
  | Some p => e <- inst p ;;
              if user_pid e =? pid then ret () else put_inst p (set_pid pid e)
  | None => ret ()
  end ;;
  when (negb removed) (adf_uio_do_cleanup_orphan pid ;; modify (add_dev_refs (-1))) ;;
  p <- find_process pid ;;
  match p with Some p => list_del p ;; kfree_inst p | None => ret () end ;;
  modify (add_accel_refs (-1)) ;;
  modify (add_bundle_refs (-1)).

(** ** The ioctls, on the bundle they name *)

Definition reserve_ring (pid mask : Z) : M bundle Z :=
  used <- gets rings_used ;;
  if negb (used .& mask =? 0) then ret (- EINVAL) else
  p <- find_process pid ;;
  match p with
  | None => ret (- EINVAL)
  | Some p =>
    e <- inst p ;;
    put_inst p (set_mask (u16 (ring_mask e .| mask)) e) ;;
    modify (λ b, set_rings_used (u16 (rings_used b .| mask)) b) ;;
    ret 0
  end.

Definition release_ring (pid mask : Z) : M bundle Z :=
  p <- find_process pid ;;
  match p with
  | None => ret (- EINVAL)
  | Some p =>
    e <- inst p ;;
    if negb (ring_mask e .& mask =? mask) then ret (- EINVAL) else
    put_inst p (set_mask (clear (ring_mask e) mask) e) ;;
    modify (λ b, set_rings_used (clear (rings_used b) mask) b) ;;
    ret 0
  end.

(** [struct adf_uio_control_accel], with the bundles it has. *)
Record adf_uio_control_accel := Accel { num_ker_bundles : Z; bundles : list bundle }.

Section ioctl.
Context (num_banks : Z) (dev_found : Z → bool).

(** The index of the bundle, [None] for NULL. *)
Definition adf_ctl_ioctl_bundle (r : adf_user_reserve_ring) (a : adf_uio_control_accel)
    : option Z :=
  if negb (dev_found (accel_id r)) then None else
  if num_banks <=? bank_nr r then None else
  if negb (clear (reserve_mask r) (BIT num_rings_per_bank - 1) =? 0) then None else
  if bank_nr r <? num_ker_bundles a then None else
  Some (bank_nr r - num_ker_bundles a).

Definition on_bundle {A} (i : Z) (m : M bundle A) : M adf_uio_control_accel A :=
  λ a, b ← aget (bundles a) i;
       '(x, b) ← m b;
       l ← aset (bundles a) i b;
       Some (x, Accel (num_ker_bundles a) l).

(** [arg]: what [copy_from_user] gives, [None] when it fails. *)
Definition ioctl_on (f : Z → Z → M bundle Z) (pid : Z) (arg : option adf_user_reserve_ring)
    : M adf_uio_control_accel Z :=
  match arg with
  | None => ret (- EFAULT)
  | Some r =>
    i <- gets (adf_ctl_ioctl_bundle r) ;;
    match i with
    | None => ret (- EINVAL)
    | Some i => on_bundle i (f pid (reserve_mask r))
    end
  end.
Definition adf_ctl_ioctl_reserve_ring := ioctl_on reserve_ring.
Definition adf_ctl_ioctl_release_ring := ioctl_on release_ring.
Definition adf_ctl_ioctl_enable_ring := ioctl_on (λ _ mask, adf_enable_ring_arb mask ;; ret 0).
Definition adf_ctl_ioctl_disable_ring := ioctl_on (λ _ mask, adf_disable_ring_arb mask ;; ret 0).

End ioctl.
End uio.
End UioRings.
