(* ===== verification/UioOwner.v ===== *)
(** * Rings have one owner

    The book [UioRings] keeps of the rings of a bundle: its invariant, that the
    rings in use are exactly those of the mappings and no ring belongs to two of
    them, and what the ioctls do to it. *)

From S2P Require Import Prelude UioRings.
Import UioRings.

#[local] Open Scope Z_scope.
#[local] Open Scope qat_scope.

Module UioOwner.

(** ** Monadic loops *)

Lemma foreach_inv {S A} (l : list A) (body : A → M S ()) (I : list A → S → Prop) s :
  I [] s →
  (∀ pre x post s1, l = pre ++ x :: post → I pre s1 →
     ∃ s2, body x s1 = Some ((), s2) ∧ I (pre ++ [x]) s2) →
  ∃ s', foreach l body s = Some ((), s') ∧ I l s'.
Proof.
  intros H0 Hstep.
  assert (∀ post pre s1, l = pre ++ post → I pre s1 →
    ∃ s', foreach post body s1 = Some ((), s') ∧ I l s') as Hgen; [|by apply (Hgen l [] s)].
  induction post as [|x post IH]; intros pre s1 E HI; simpl.
  - rewrite app_nil_r in E. subst. by eexists.
  - destruct (Hstep pre x post s1 E HI) as (s2 & Hb & HI2).
    rewrite (bind_Some _ _ _ _ _ Hb). apply (IH (pre ++ [x])); [|done].
    by rewrite <- app_assoc.
Qed.

(** ** The book of mappings *)

Definition holds (b : bundle) (p : Z) (i : Z) : Prop :=
  ∃ e, insts b !! p = Some e ∧ Z.testbit (ring_mask e) i = true.

Record owned (b : bundle) : Prop := {
  o_nodup : NoDup (list_ b);
  o_dom p : p ∈ list_ b ↔ is_Some (insts b !! p);
  o_fresh p : p ∈ list_ b → p < next_ptr b;
  o_mask p e : insts b !! p = Some e → 0 <= ring_mask e < 2 ^ 16;
  o_range : 0 <= rings_used b < 2 ^ 16;
  o_one p q i : holds b p i → holds b q i → p = q;
  o_used i : Z.testbit (rings_used b) i = true ↔ ∃ p, holds b p i
}.

(** The list element of a process: its first mapping. *)
Definition first_entry (P : adf_uio_instance_rings → bool) (b : bundle) (l : list Z) : option Z :=
  snd <$> list_find (λ p, default false (P <$> insts b !! p) = true) l.
Definition entry_of (pid : Z) (b : bundle) : option Z :=
  first_entry (λ e, user_pid e =? pid) b (list_ b).

Lemma find_entry_run P b l :
  (∀ p, p ∈ l → is_Some (insts b !! p)) → find_entry P l b = Some (first_entry P b l, b).
Proof.
  unfold first_entry. induction l as [|p l IH]; intros Hl; simpl; [done|].
  destruct (Hl p) as [e He]; [left|].
  unfold inst. rewrite bind_assoc, bind_gets, He, bind_lift. simpl.
  destruct (P e); simpl.
  - done.
  - rewrite IH by (intros; apply Hl; by right). by destruct (list_find _ l) as [[]|].
Qed.

Lemma find_process_run pid b : owned b → find_process pid b = Some (entry_of pid b, b).
Proof.
  intros H. unfold find_process. rewrite bind_gets. apply find_entry_run.
  intros p Hp. by apply (o_dom b H).
Qed.

Lemma first_entry_Some P b l p :
  first_entry P b l = Some p → p ∈ l ∧ ∃ e, insts b !! p = Some e ∧ P e = true.
Proof.
  unfold first_entry. destruct (list_find _ l) as [[n q]|] eqn:E; [|done]. intros [= <-].
  apply list_find_Some in E as (Hn & He & _). split; [by eapply list_elem_of_lookup_2|].
  destruct (insts b !! q) as [e|]; [|done]. by exists e.
Qed.

Lemma entry_of_Some pid b p :
  entry_of pid b = Some p → p ∈ list_ b ∧ ∃ e, insts b !! p = Some e ∧ user_pid e = pid.
Proof.
  intros (Hp & e & He & Hpid)%first_entry_Some. split; [done|]. exists e. split; [done|]. lia.
Qed.

Lemma inst_run p e b : insts b !! p = Some e → inst p b = Some (e, b).
Proof. intros H. unfold inst. by rewrite bind_gets, H. Qed.

Lemma put_inst_run p e e0 b :
  insts b !! p = Some e0 → put_inst p e b = Some ((), set_insts (<[p := e]> (insts b)) b).
Proof. intros H. unfold put_inst. by rewrite (bind_Some _ _ _ _ _ (inst_run p e0 b H)). Qed.

Lemma kfree_inst_run p e b :
  insts b !! p = Some e → kfree_inst p b = Some ((), set_insts (delete p (insts b)) b).
Proof. intros H. unfold kfree_inst. by rewrite (bind_Some _ _ _ _ _ (inst_run p e b H)). Qed.

(** [owned] speaks of the book alone. *)
Definition same_book (b b' : bundle) : Prop :=
  insts b' = insts b ∧ list_ b' = list_ b ∧ rings_used b' = rings_used b ∧
  next_ptr b' = next_ptr b ∧ dev_refs b' = dev_refs b ∧ accel_refs b' = accel_refs b ∧
  bundle_refs b' = bundle_refs b.

#[export] Instance same_book_preorder : PreOrder same_book.
Proof. split; [by repeat split|]. unfold same_book. intros a b c. naive_solver congruence. Qed.

Lemma owned_proper b b' :
  insts b' = insts b → list_ b' = list_ b → rings_used b' = rings_used b →
  next_ptr b <= next_ptr b' → owned b → owned b'.
Proof.
  intros E1 E2 E3 E4 [H1 H2 H3 H4 H5 H6 H7].
  assert (∀ p i, holds b' p i ↔ holds b p i) as Hh by (intros; unfold holds; by rewrite E1).
  split; rewrite ?E1, ?E2, ?E3; try done.
  - intros p Hp%H3. lia.
  - intros p q i Hp%Hh Hq%Hh. by eapply H6.
  - intros i. rewrite H7. by setoid_rewrite Hh.
Qed.

Lemma same_book_owned b b' : same_book b b' → owned b → owned b'.
Proof. intros (? & ? & ? & E & _). apply owned_proper; try done. lia. Qed.

Lemma filter_fresh (l : list Z) p : p ∉ l → filter (λ q, q ≠ p) l = l.
Proof.
  induction l as [|x l IH]; intros Hp; [done|].
  rewrite filter_cons_True by (intros ->; apply Hp; left). f_equal. apply IH. intros ?. apply Hp. by right.
Qed.

Lemma same_book_entry pid b b' : same_book b b' → entry_of pid b' = entry_of pid b.
Proof. intros (E1 & E2 & _). unfold entry_of, first_entry. by rewrite E1, E2. Qed.

(** Changing the rings of one mapping. *)
Lemma set_entry_owned b p e m u :
  owned b → insts b !! p = Some e → 0 <= m < 2 ^ 16 → 0 <= u < 2 ^ 16 →
  (∀ i q, Z.testbit m i = true → q ≠ p → ¬ holds b q i) →
  (∀ i, Z.testbit u i = true ↔ Z.testbit m i = true ∨ ∃ q, q ≠ p ∧ holds b q i) →
  owned (set_rings_used u (set_insts (<[p := set_mask m e]> (insts b)) b)).
Proof.
  intros [H1 H2 H3 H4 H5 H6 H7] He Hm Hu Hfree Hused.
  set (b' := set_rings_used _ _).
  assert (∀ q i, holds b' q i ↔ (q = p ∧ Z.testbit m i = true) ∨ (q ≠ p ∧ holds b q i)) as Hh.
  { intros q i. unfold holds, b'. simpl. destruct (decide (q = p)) as [->|Hne].
    - rewrite lookup_insert_eq. split; [intros (? & [= <-] & ?); left; done|].
      intros [[_ ?]|[? _]]; [by eexists|done].
    - rewrite lookup_insert_ne by done. naive_solver. }
  split; unfold b' at 1; simpl; try done.
  - intros q. rewrite H2. destruct (decide (q = p)) as [->|Hne].
    + rewrite lookup_insert_eq, He. split; by eexists.
    + by rewrite lookup_insert_ne.
  - intros q f. destruct (decide (q = p)) as [->|Hne].
    + rewrite lookup_insert_eq. by intros [= <-].
    + rewrite lookup_insert_ne by done. apply H4.
  - intros q r i Hq%Hh Hr%Hh. destruct Hq as [[-> ?]|[? ?]], Hr as [[-> ?]|[? ?]]; try done.
    + by destruct (Hfree i r).
    + by destruct (Hfree i q).
    + by eapply H6.
  - intros i. rewrite Hused. setoid_rewrite Hh. naive_solver.
Qed.

(** A mapping that goes takes its rings with it. *)
Lemma remove_entry_owned b p e :
  owned b → insts b !! p = Some e →
  owned (set_rings_used (clear (rings_used b) (ring_mask e))
    (set_insts (delete p (insts b)) (set_list (filter (λ q, q ≠ p) (list_ b)) b))).
Proof.
  intros [H1 H2 H3 H4 H5 H6 H7] He. set (b' := set_rings_used _ _).
  assert (∀ q i, holds b' q i ↔ q ≠ p ∧ holds b q i) as Hh.
  { intros q i. unfold holds, b'. simpl. setoid_rewrite lookup_delete_Some. naive_solver. }
  split; unfold b' at 1; simpl; try done.
  - by apply NoDup_filter.
  - intros q. unfold b'. simpl. rewrite list_elem_of_filter, H2.
    destruct (decide (q = p)) as [->|Hne].
    + rewrite lookup_delete_eq. split; [naive_solver|intros []; done].
    + rewrite lookup_delete_ne by done. naive_solver.
  - intros q. rewrite list_elem_of_filter. naive_solver.
  - intros q f. rewrite lookup_delete_Some. naive_solver.
  - by apply clear_range.
  - intros q r i Hq%Hh Hr%Hh. by eapply H6; apply Hq || apply Hr.
  - intros i. setoid_rewrite Hh. simpl. unfold clear.
    rewrite Z.ldiff_spec, andb_true_iff, negb_true_iff, H7. split.
    + intros [[q Hq] Hne]. exists q. split; [|done]. intros ->.
      destruct Hq as (f & Hf & ?). congruence.
    + intros (q & Hqp & Hq). split; [by eexists|]. destruct (Z.testbit (ring_mask e) i) eqn:E; [|done].
      destruct Hqp. eapply H6; [done|]. by exists e.
Qed.

Lemma land_eq_0_testbit a b :
  0 <= a → a .& b = 0 ↔ ∀ i, Z.testbit a i = true → Z.testbit b i = false.
Proof.
  intros Ha. split.
  - intros H i Hi. assert (Z.testbit (a .& b) i = false) as E by (rewrite H; apply Z.bits_0).
    rewrite Z.land_spec, Hi in E. done.
  - intros H. apply Z.bits_inj'. intros i Hi. rewrite Z.land_spec, Z.bits_0.
    destruct (Z.testbit a i) eqn:E; [|done]. by rewrite (H i E).
Qed.

Lemma holds_entry b p e i :
  insts b !! p = Some e → holds b p i ↔ Z.testbit (ring_mask e) i = true.
Proof. intros He. unfold holds. rewrite He. naive_solver. Qed.

Lemma bits_witness (P : Z → bool) (n : nat) :
  (∃ i, 0 <= i < Z.of_nat n ∧ P i = true) ∨ (∀ i, 0 <= i < Z.of_nat n → P i = false).
Proof.
  induction n as [|n [(i & ? & ?)|IH]]; [right; lia|left; exists i; split; [lia|done]|].
  destruct (P (Z.of_nat n)) eqn:E; [left; exists (Z.of_nat n); split; [lia|done]|].
  right. intros i Hi. destruct (decide (i = Z.of_nat n)) as [->|]; [done|]. apply IH. lia.
Qed.

(** Masks that meet share a bit, and a mask that is not part of another has a
    bit of its own. *)
Lemma not_free_witness a m :
  0 <= a < 2 ^ 16 → 0 <= m → a .& m ≠ 0 → ∃ i, Z.testbit a i = true ∧ Z.testbit m i = true.
Proof.
  intros Ha Hm Hne. destruct (bits_witness (λ i, Z.testbit a i && Z.testbit m i) 16)
    as [(i & _ & [? ?]%andb_true_iff)|Hno]; [by exists i|].
  destruct Hne. apply Z.bits_inj'. intros i Hi. rewrite Z.land_spec, Z.bits_0.
  destruct (decide (i < 16)); [by apply Hno|]. by rewrite (testbit_high a 16) by lia.
Qed.

Lemma not_sub_witness a m :
  0 <= m < 2 ^ 16 → a .& m ≠ m → ∃ i, Z.testbit m i = true ∧ Z.testbit a i = false.
Proof.
  intros Hm Hne. destruct (bits_witness (λ i, Z.testbit m i && negb (Z.testbit a i)) 16)
    as [(i & _ & [? ?%negb_true_iff]%andb_true_iff)|Hno]; [by exists i|].
  destruct Hne. apply Z.bits_inj'. intros i Hi. rewrite Z.land_spec.
  destruct (decide (i < 16)); [|by rewrite (testbit_high m 16), andb_false_r by lia].
  specialize (Hno i ltac:(lia)). destruct (Z.testbit m i), (Z.testbit a i); done.
Qed.

(** [reserve_ring]: -EINVAL and nothing changed when a ring is in use or the
    process has not mapped the bundle; otherwise the rings are the process's. *)
Lemma reserve_ring_spec pid mask b :
  owned b → 0 <= mask < 2 ^ 16 →
  ∃ r b', reserve_ring pid mask b = Some (r, b') ∧ owned b' ∧
    match entry_of pid b with
    | Some p =>
      if rings_used b .& mask =? 0 then
        r = 0 ∧ csr b' = csr b ∧ mem b' = mem b ∧ list_ b' = list_ b ∧
        (∃ e, insts b !! p = Some e ∧ insts b' = <[p := set_mask (ring_mask e .| mask) e]> (insts b)) ∧
        rings_used b' = rings_used b .| mask
      else r = - EINVAL ∧ b' = b
    | None => r = - EINVAL ∧ b' = b
    end.
Proof.
  intros Ho Hm. unfold reserve_ring. rewrite bind_gets.
  destruct (Z.eqb_spec (rings_used b .& mask) 0) as [Hfree|Hbusy]; branch.
  2:{ exists (- EINVAL), b. split; [done|]. split; [done|]. by destruct (entry_of pid b). }
  rewrite (bind_Some _ _ _ _ _ (find_process_run pid b Ho)).
  destruct (entry_of pid b) as [p|] eqn:Hp; [|by exists (- EINVAL), b].
  apply entry_of_Some in Hp as (Hin & e & He & Hpid).
  rewrite (bind_Some _ _ _ _ _ (inst_run _ _ _ He)).
  rewrite (bind_Some _ _ _ _ _ (put_inst_run _ _ _ _ He)).
  rewrite bind_modify. simpl.
  pose proof (o_mask b Ho p e He) as Hme. pose proof (o_range b Ho) as Hu.
  pose proof (lor_range 16 (ring_mask e) mask ltac:(lia) Hme Hm) as H1.
  pose proof (lor_range 16 (rings_used b) mask ltac:(lia) Hu Hm) as H2.
  rewrite !wrap_small by done.
  eexists _, _. split; [reflexivity|]. split.
  - apply (set_entry_owned b p e); try done.
    + intros i q Hi Hq Hh. rewrite Z.lor_spec, orb_true_iff in Hi. destruct Hi as [Hi|Hi].
      * apply Hq. eapply (o_one b Ho); [done|]. by exists e.
      * rewrite Z.land_comm in Hfree. apply land_eq_0_testbit with (i := i) in Hfree; [|lia|done].
        assert (Z.testbit (rings_used b) i = true) by (apply (o_used b Ho); by eexists).
        congruence.
    + intros i. rewrite !Z.lor_spec, !orb_true_iff, (o_used b Ho).
      split; [intros [[q Hq]|]|].
      * destruct (decide (q = p)) as [->|]; [|right; by eexists].
        left. left. by apply (holds_entry b p e i).
      * by left; right.
      * intros [[?|?]|(q & _ & Hq)]; [left; by exists p, e|by right|left; by exists q].
  - split_and!; try done. by exists e.
Qed.

(** [release_ring]: only the rings the process has can be given back. *)
Lemma release_ring_spec pid mask b :
  owned b → 0 <= mask < 2 ^ 16 →
  ∃ r b', release_ring pid mask b = Some (r, b') ∧ owned b' ∧
    match entry_of pid b with
    | Some p =>
      ∃ e, insts b !! p = Some e ∧
      if ring_mask e .& mask =? mask then
        r = 0 ∧ csr b' = csr b ∧ mem b' = mem b ∧ list_ b' = list_ b ∧
        insts b' = <[p := set_mask (clear (ring_mask e) mask) e]> (insts b) ∧
        rings_used b' = clear (rings_used b) mask
      else r = - EINVAL ∧ b' = b
    | None => r = - EINVAL ∧ b' = b
    end.
Proof.
  intros Ho Hm. unfold release_ring.
  rewrite (bind_Some _ _ _ _ _ (find_process_run pid b Ho)).
  destruct (entry_of pid b) as [p|] eqn:Hp; [|by exists (- EINVAL), b].
  apply entry_of_Some in Hp as (Hin & e & He & Hpid).
  rewrite (bind_Some _ _ _ _ _ (inst_run _ _ _ He)).
  destruct (Z.eqb_spec (ring_mask e .& mask) mask) as [Hsub|Hnot]; branch.
  2:{ exists (- EINVAL), b. split; [done|]. split; [done|]. exists e. split; [done|].
      by rewrite (proj2 (Z.eqb_neq _ _) Hnot). }
  rewrite (bind_Some _ _ _ _ _ (put_inst_run _ _ _ _ He)), bind_modify. simpl.
  pose proof (o_mask b Ho p e He) as Hme. pose proof (o_range b Ho) as Hu.
  assert (∀ i, Z.testbit mask i = true → Z.testbit (ring_mask e) i = true) as Hsub'.
  { intros i Hi. rewrite <- Hsub, Z.land_spec, andb_true_iff in Hi. apply Hi. }
  eexists _, _. split; [reflexivity|]. split.
  - apply (set_entry_owned b p e); try done.
    + by apply clear_range.
    + by apply clear_range.
    + intros i q Hi Hq Hh. unfold clear in Hi. rewrite Z.ldiff_spec, andb_true_iff in Hi.
      apply Hq. eapply (o_one b Ho); [done|]. exists e. naive_solver.
    + intros i. unfold clear. rewrite !Z.ldiff_spec, !andb_true_iff, !negb_true_iff, (o_used b Ho).
      split.
      * intros [[q Hq] Hi]. destruct (decide (q = p)) as [->|]; [|right; by eexists].
        left. split; [|done]. by apply (holds_entry b p e i).
      * intros [[? ?]|(q & Hne & Hq)]; [split; [by exists p, e|done]|]. split; [by eexists|].
        destruct (Z.testbit mask i) eqn:E; [|done]. destruct Hne.
        eapply (o_one b Ho); [done|]. exists e. auto.
  - exists e. split; [done|]. by rewrite Hsub, Z.eqb_refl.
Qed.

End UioOwner.
