(* ===== verification/UioCleanup.v ===== *)
(** * Cleaning up after a process

    What [adf_uio_mmap_close] of [UioRings] does with the rings a process leaves:
    its requests are flushed, its rings are silenced and given back, and the
    rings of others stay as they are, whatever the device does meanwhile. *)

From S2P Require Import Prelude UioRings UioOwner.
Import UioRings UioOwner.

#[local] Open Scope Z_scope.
#[local] Open Scope qat_scope.

Module UioCleanup.

(** ** Registers *)

Definition csr_reg (c : gmap Z Z) (off : Z) : Z := default 0 (c !! off).

(** The registers that make a ring: its configuration and its base. *)
Definition ring_regs (c : gmap Z Z) (i : Z) : Z * Z * Z :=
  (csr_reg c (4 * i), csr_reg c (0x40 + 4 * i), csr_reg c (0x80 + 4 * i)).
Definition ring_basereg (c : gmap Z Z) (i : Z) : Z :=
  (csr_reg c (0x40 + 4 * i) .& 0xFFFFFFFF) .| (u64 (Z.shiftl (csr_reg c (0x80 + 4 * i)) 32) .& 0xFFFFFFFF00000000).
Definition arb (c : gmap Z Z) : Z := csr_reg c 0x19C.
Definition headreg (c : gmap Z Z) (i : Z) : Z := csr_reg c (0xC0 + 4 * i).
Definition tailreg (c : gmap Z Z) (i : Z) : Z := csr_reg c (0x100 + 4 * i).
Definition ring_bytes (c : gmap Z Z) (i : Z) : Z :=
  u32 (Z.shiftl (Z.shiftl 1 ((csr_reg c (4 * i) .& 0x1F) - 1)) 7).

Lemma reg_insert_eq c o v : csr_reg (<[o := v]> c) o = v.
Proof. unfold csr_reg. by rewrite lookup_insert_eq. Qed.
Lemma reg_insert_ne c o o' v : o' ≠ o → csr_reg (<[o := v]> c) o' = csr_reg c o'.
Proof. intros. unfold csr_reg. by rewrite lookup_insert_ne. Qed.

Lemma shiftl2 i : Z.shiftl i 2 = 4 * i.
Proof. rewrite Z.shiftl_mul_pow2 by lia. lia. Qed.

Lemma reg_wr_run off v b : csr_wr off v b = Some ((), set_csr (<[off := u32 v]> (csr b)) b).
Proof. done. Qed.
Lemma reg_rd_run off b : csr_rd off b = Some (csr_reg (csr b) off, b).
Proof. done. Qed.

Lemma read_base_run i b : read_base i b = Some (ring_basereg (csr b) i, b).
Proof. unfold read_base, csr_rd. rewrite !bind_gets, shiftl2. done. Qed.

Lemma get_ring_size_run i b : get_ring_size i b = Some (ring_bytes (csr b) i, b).
Proof. unfold get_ring_size, csr_rd. rewrite !bind_gets, shiftl2. done. Qed.

(** What a register write may change, as a set of offsets. *)
Definition writes (X : Z → Prop) (b b' : bundle) : Prop :=
  same_book b b' ∧ mem b' = mem b ∧ nalloc b' = nalloc b ∧
  ∀ off, ¬ X off → csr_reg (csr b') off = csr_reg (csr b) off.

Lemma writes_trans (X : Z → Prop) a b c : writes X a b → writes X b c → writes X a c.
Proof.
  intros (H1 & H2 & H3 & H4) (G1 & G2 & G3 & G4). split_and!; try congruence.
  - by etrans.
  - intros off Ho. rewrite G4, H4 by done. done.
Qed.

Lemma writes_mono (X Y : Z → Prop) b b' : (∀ o, X o → Y o) → writes X b b' → writes Y b b'.
Proof. intros H (? & ? & ? & G). split_and!; try done. intros off Ho. apply G. auto. Qed.

Lemma csr_wr_writes off v b b' : csr_wr off v b = Some ((), b') → writes (λ o, o = off) b b'.
Proof.
  rewrite reg_wr_run. intros [= <-]. split_and!; try done.
  intros o Ho. simpl. by apply reg_insert_ne.
Qed.

Lemma write_base_run i v b :
  ∃ b', WRITE_CSR_RING_BASE i v b = Some ((), b') ∧
    writes (λ o, o = 0x40 + 4 * i ∨ o = 0x80 + 4 * i) b b' ∧
    (v = 0 → csr_reg (csr b') (0x40 + 4 * i) = 0 ∧ csr_reg (csr b') (0x80 + 4 * i) = 0).
Proof.
  unfold WRITE_CSR_RING_BASE. rewrite shiftl2. rewrite (bind_Some _ _ _ _ _ (reg_wr_run _ _ b)).
  rewrite reg_wr_run. eexists. split; [reflexivity|]. split.
  - split_and!; try done. intros o Ho. simpl. rewrite !reg_insert_ne by naive_solver. done.
  - intros ->. simpl. by rewrite reg_insert_eq, reg_insert_ne, reg_insert_eq by lia.
Qed.

(** Silencing one ring. *)
Lemma silence_run i b :
  ∃ b', (WRITE_CSR_RING_CONFIG i 0 ;; WRITE_CSR_RING_BASE i 0) b = Some ((), b') ∧
    writes (λ o, o = 4 * i ∨ o = 0x40 + 4 * i ∨ o = 0x80 + 4 * i) b b' ∧
    ring_regs (csr b') i = (0, 0, 0).
Proof.
  unfold WRITE_CSR_RING_CONFIG. rewrite shiftl2, Z.add_0_l.
  rewrite (bind_Some _ _ _ _ _ (reg_wr_run _ _ b)). set (b1 := set_csr _ b).
  destruct (write_base_run i 0 b1) as (b' & Hrun & Hw & H0). exists b'. split; [done|]. split.
  - apply (writes_trans _ _ b1).
    + eapply writes_mono; [|apply (csr_wr_writes (4 * i) 0 b b1); reflexivity]. naive_solver.
    + eapply writes_mono; [|done]. naive_solver.
  - destruct H0 as [E1 E2]; [done|]. unfold ring_regs. rewrite E1, E2.
    destruct Hw as (_ & _ & _ & Hf). rewrite Hf by lia. simpl. by rewrite reg_insert_eq.
Qed.

Lemma writes_ring_regs (X : Z → Prop) b b' j :
  writes X b b' → ¬ X (4 * j) → ¬ X (0x40 + 4 * j) → ¬ X (0x80 + 4 * j) →
  ring_regs (csr b') j = ring_regs (csr b) j.
Proof. intros (_ & _ & _ & H) ???. unfold ring_regs. by rewrite !H. Qed.

Lemma basereg_zero c i : ring_regs c i = (0, 0, 0) → ring_basereg c i = 0.
Proof. unfold ring_regs, ring_basereg. by intros [= _ -> ->]. Qed.

Lemma basereg_regs c c' i : ring_regs c' i = ring_regs c i → ring_basereg c' i = ring_basereg c i.
Proof. unfold ring_regs, ring_basereg. by intros [= _ -> ->]. Qed.

Lemma bytes_regs c c' i : ring_regs c' i = ring_regs c i → ring_bytes c' i = ring_bytes c i.
Proof. unfold ring_regs, ring_bytes. by intros [= -> _ _]. Qed.

(** ** The rings of a process that goes *)

Definition pos_ok (x n : Z) : Prop := 0 <= x <= n ∧ x mod 32 = 0.

(** What the device may do while the driver sleeps: move the heads and tails of
    rings within their memory, and write to memory. *)
Definition device_ok (nr : Z) (device : nat → gmap Z Z * gmap Z (list Z) → gmap Z Z * gmap Z (list Z)) : Prop :=
  ∀ n c m, let '(c', m') := device n (c, m) in
    arb c' = arb c ∧
    (∀ i, 0 <= i < nr → ring_regs c' i = ring_regs c i ∧
       (pos_ok (headreg c i) (ring_bytes c i) → pos_ok (headreg c' i) (ring_bytes c i)) ∧
       (pos_ok (tailreg c i) (ring_bytes c i) → pos_ok (tailreg c' i) (ring_bytes c i))) ∧
    (∀ p buf, m !! p = Some buf → ∃ buf', m' !! p = Some buf' ∧ length buf' = length buf).

Section cleanup.
Context (nr gap tx_rings asym_rings : Z) (alloc_ok : nat → bool) (remap : nat → Z)
  (phys_to_virt : Z → Z).
Context (device : nat → gmap Z Z * gmap Z (list Z) → gmap Z Z * gmap Z (list Z)).
Context (nr_ok : 0 <= nr <= 16) (dev_ok : device_ok nr device).

Abbreviation testbit := Z.testbit.
Definition in_tx (o : bundle_orphan_ring) i := testbit (tx_mask o) i = true.
Definition in_rx (o : bundle_orphan_ring) i := testbit (rx_mask o) i = true.

(** The rings to clean: their memory is there, and the response rings' heads and
    tails are inside it. *)
Record good (o : bundle_orphan_ring) (b : bundle) : Prop := {
  g_apart i : in_tx o i → in_rx o i → False;
  g_mem i : 0 <= i < nr → in_tx o i ∨ in_rx o i →
    ∃ buf, mem b !! base_virt (base o i) = Some buf ∧
      128 <= size (base o i) <= 4 * Z.of_nat (length buf);
  g_rx i : 0 <= i < nr → in_rx o i →
    size (base o i) = ring_bytes (csr b) i ∧
    pos_ok (headreg (csr b) i) (size (base o i)) ∧ pos_ok (tailreg (csr b) i) (size (base o i))
}.

(** Between two states of the cleanup only the rings' positions and the bases of
    request rings change. *)
Record quiet (o : bundle_orphan_ring) (b b' : bundle) : Prop := {
  q_book : same_book b b';
  q_regs i : 0 <= i < nr → ¬ in_tx o i → ring_regs (csr b') i = ring_regs (csr b) i;
  q_arb : arb (csr b') = arb (csr b)
}.

#[local] Instance quiet_preorder o : PreOrder (quiet o).
Proof.
  split.
  - intros b. by split.
  - intros a b c [H1 H2 H3] [G1 G2 G3]. split; [by etrans| |congruence].
    intros i Hi Ht. by rewrite G2, H2.
Qed.

Lemma writes_good (X : Z → Prop) o b b' :
  good o b → writes X b b' →
  (∀ i, 0 <= i < nr → in_rx o i → ¬ X (4 * i) ∧ ¬ X (0x40 + 4 * i) ∧ ¬ X (0x80 + 4 * i) ∧
     ¬ X (0x100 + 4 * i)) →
  (∀ i, 0 <= i < nr → in_rx o i →
     headreg (csr b') i = tailreg (csr b) i ∨ headreg (csr b') i = headreg (csr b) i) →
  good o b'.
Proof.
  intros [G1 G2 G3] W HX Hh. pose proof W as (_ & Hm & _ & Hr). split; [done| |].
  - intros i Hi Hio. rewrite Hm. by apply G2.
  - intros i Hi Hio. destruct (G3 i Hi Hio) as (Hs & Hhd & Htl).
    destruct (HX i Hi Hio) as (X1 & X2 & X3 & X4).
    assert (tailreg (csr b') i = tailreg (csr b) i) as -> by by apply Hr.
    rewrite (bytes_regs (csr b)) by by eapply writes_ring_regs. split; [done|]. split; [|done].
    by destruct (Hh i Hi Hio) as [->| ->].
Qed.

Lemma writes_quiet (X : Z → Prop) o b b' :
  writes X b b' → ¬ X 0x19C →
  (∀ i, 0 <= i < nr → ¬ in_tx o i → ¬ X (4 * i) ∧ ¬ X (0x40 + 4 * i) ∧ ¬ X (0x80 + 4 * i)) →
  quiet o b b'.
Proof.
  intros W Ha HX. pose proof W as (Hb & _ & _ & Hr). split; [done| |by apply Hr].
  intros i Hi Ht. destruct (HX i Hi Ht) as (? & ? & ?). by eapply writes_ring_regs.
Qed.

Lemma rings_in pre x post : rings nr = pre ++ x :: post → 0 <= x < nr.
Proof.
  intros E. assert (x ∈ rings nr) as Hx.
  { rewrite E. apply elem_of_app. right. left. }
  apply elem_of_seqZ in Hx. lia.
Qed.

Lemma reset_tx_rings_ok o b :
  good o b → ∃ b', reset_tx_rings nr o b = Some ((), b') ∧ good o b' ∧ quiet o b b'.
Proof.
  intros Hg. apply (foreach_inv _ _ (λ _ s, good o s ∧ quiet o b s)); [by split|].
  intros pre i post s E%rings_in [Hgs Hq]. destruct (testbit (tx_mask o) i) eqn:Hi; branch; [|by exists s].
  destruct (write_base_run i (addr (base o i)) s) as (s' & Hrun & Hw & _). exists s'.
  split; [done|]. split.
  - eapply writes_good; [done|done| |].
    + intros j Hj Hr. assert (j ≠ i) by (intros ->; by eapply (g_apart _ _ Hgs)). cbv beta. lia.
    + intros j Hj Hr. right. apply Hw. lia.
  - etrans; [done|]. eapply writes_quiet; [done|cbv beta; lia|]. intros j Hj Ht.
    assert (j ≠ i) by (intros ->; done). cbv beta. lia.
Qed.

(** Setting the head of a response ring to its tail. *)
Lemma set_head_ok o b i :
  good o b → 0 <= i < nr → in_rx o i →
  ∃ b', WRITE_CSR_RING_HEAD i (tailreg (csr b) i) b = Some ((), b') ∧ good o b' ∧ quiet o b b'.
Proof.
  intros Hg Hi Hr. unfold WRITE_CSR_RING_HEAD. rewrite shiftl2, reg_wr_run. eexists. split; [done|].
  assert (writes (λ a, a = 0xC0 + 4 * i) b
    (set_csr (<[0xC0 + 4 * i := u32 (tailreg (csr b) i)]> (csr b)) b)) as Hw
    by by apply (csr_wr_writes _ (tailreg (csr b) i)).
  destruct (g_rx _ _ Hg i Hi Hr) as (Hs & _ & [Ht _]).
  split.
  - eapply writes_good; [done|done| |].
    + intros j Hj _. cbv beta. lia.
    + intros j Hj Hrj. destruct (decide (j = i)) as [->|]; [left|right; apply Hw; lia].
      unfold headreg. simpl. rewrite reg_insert_eq, wrap_small; [done|]. split; [lia|].
      unfold ring_bytes in Hs. pose proof (wrap_range 32 (Z.shiftl (Z.shiftl 1 ((csr_reg (csr b) (4 * i) .& 0x1F) - 1)) 7)).
      lia.
  - eapply writes_quiet; [done|cbv beta; lia|]. intros. cbv beta. lia.
Qed.

Lemma empty_rx_rings_ok o b :
  good o b → ∃ b', empty_rx_rings nr o b = Some ((), b') ∧ good o b' ∧ quiet o b b'.
Proof.
  intros Hg. apply (foreach_inv _ _ (λ _ s, good o s ∧ quiet o b s)); [by split|].
  intros pre i post s E%rings_in [Hgs Hq]. destruct (testbit (rx_mask o) i) eqn:Hi; branch; [|by exists s].
  unfold READ_CSR_RING_TAIL. rewrite shiftl2, (bind_Some _ _ _ _ _ (reg_rd_run _ s)).
  destruct (set_head_ok o s i Hgs E Hi) as (s' & Hrun & Hg' & Hq'). exists s'.
  split; [done|]. split; [done|]. by etrans.
Qed.

Lemma ring_mem_run p buf b : mem b !! p = Some buf → ring_mem p b = Some (buf, b).
Proof. intros H. unfold ring_mem. by rewrite bind_gets, H. Qed.

Lemma send_null_msg_ok o b :
  good o b → ∃ b', send_null_msg nr o b = Some ((), b') ∧ good o b' ∧ quiet o b b'.
Proof.
  intros Hg. apply (foreach_inv _ _ (λ _ s, good o s ∧ quiet o b s)); [by split|].
  intros pre i post s E%rings_in [Hgs Hq]. destruct (testbit (tx_mask o) i) eqn:Hi; branch; [|by exists s].
  destruct (g_mem _ _ Hgs i E (or_introl Hi)) as (buf & Hbuf & Hsz).
  rewrite (bind_Some _ _ _ _ _ (ring_mem_run _ _ _ Hbuf)).
  destruct (Nat.ltb_spec (length buf) 32); [lia|]. rewrite bind_modify.
  set (s1 := set_mem _ s). unfold WRITE_CSR_RING_TAIL. rewrite shiftl2.
  set (sz := if testbit (asym_mask o) i then 64 else 128). rewrite reg_wr_run.
  assert (good o s1) as Hg1.
  { destruct Hgs as [G1 G2 G3]. split; [done| |done]. intros j Hj Hio.
    destruct (G2 j Hj Hio) as (buf' & Hb' & Hs'). unfold s1. simpl.
    destruct (decide (base_virt (base o j) = base_virt (base o i))) as [Heq|Hne].
    - rewrite Heq, lookup_insert_eq. eexists. split; [done|].
      assert (buf' = buf) as -> by congruence.
      simpl. rewrite length_drop. lia.
    - rewrite lookup_insert_ne by done. by eexists. }
  eexists. split; [done|]. split.
  - eapply (writes_good (λ a, a = 0x100 + 4 * i) o s1).
    + done.
    + by apply (csr_wr_writes _ sz).
    + intros j Hj Hr. assert (j ≠ i) by (intros ->; by eapply (g_apart _ _ Hgs)). cbv beta. lia.
    + intros j Hj Hr. right. unfold headreg. simpl. apply reg_insert_ne. lia.
  - etrans; [done|]. split; [by split_and!| |].
    + intros j Hj Ht. unfold ring_regs. simpl. rewrite !reg_insert_ne by lia. done.
    + unfold arb. simpl. apply reg_insert_ne. lia.
Qed.

(** Looking for the null response stays inside the ring. *)
Lemma find_null_loop_ok fuel buf pos e :
  0 <= pos → pos mod 4 = 0 → e <= 4 * Z.of_nat (length buf) →
  (0 < fuel)%nat → e - pos < 32 * Z.of_nat fuel → is_Some (find_null_loop fuel buf pos e).
Proof.
  revert pos. induction fuel as [|fuel IH]; intros pos Hp Hm He Hf0 Hf; [lia|]. simpl.
  destruct (Z.ltb_spec pos e); [|by eexists]. destruct (Z.ltb_spec e (pos + 32)); [by eexists|].
  rewrite Hm. change (0 =? 0) with true. branch.
  assert (length (take 8 (drop (Z.to_nat (pos / 4)) buf)) = 8%nat) as ->.
  { rewrite length_take, length_drop. pose proof (Z.div_mod pos 4). lia. }
  change (8 <? 8)%nat with false. branch. destruct (is_null_rsp _); [by eexists|].
  apply IH; try lia. rewrite Z.add_mod, Hm by lia. done.
Qed.

Lemma find_null_response_ok buf s e :
  0 <= s → s mod 4 = 0 → e <= 4 * Z.of_nat (length buf) → is_Some (find_null_response buf s e).
Proof.
  intros. apply find_null_loop_ok; try done; [lia|].
  pose proof (Z.div_mod (e - s) 32 ltac:(lia)). pose proof (Z.mod_pos_bound (e - s) 32 ltac:(lia)). lia.
Qed.

Lemma rcv_null_response_ok r buf h t b :
  mem b !! base_virt r = Some buf → size r <= 4 * Z.of_nat (length buf) →
  pos_ok h (size r) → pos_ok t (size r) → ∃ v, rcv_null_response r h t b = Some (v, b).
Proof.
  intros Hbuf Hs [Hh Hh'] [Ht Ht']. unfold rcv_null_response.
  assert (h mod 4 = 0) by (rewrite <- (Z.mod_mod_divide h 32 4), Hh' by (by exists 8); done).
  rewrite (bind_Some _ _ _ _ _ (ring_mem_run _ _ _ Hbuf)). destruct (h <? t).
  - destruct (find_null_response_ok buf h t) as [v ->]; try done; [lia..|]. by exists v.
  - destruct (find_null_response_ok buf h (size r)) as [v ->]; try done; [lia..|].
    rewrite bind_lift. destruct (negb (v =? 0)); [by exists v|].
    destruct (find_null_response_ok buf 0 t) as [v' ->]; try done; [lia|]. by exists v'.
Qed.

(** The masks and addresses of a set of rings are fixed but for [rcv_null]. *)
Definition same_rings (o o' : bundle_orphan_ring) : Prop :=
  tx_mask o' = tx_mask o ∧ rx_mask o' = rx_mask o ∧ base o' = base o.

Lemma same_rings_good o o' b : same_rings o o' → good o b → good o' b.
Proof.
  intros (E1 & E2 & E3) [G1 G2 G3].
  split; unfold in_tx, in_rx in *; rewrite ?E1, ?E2, ?E3; done.
Qed.
Lemma same_rings_quiet o o' b b' : same_rings o o' → quiet o' b b' → quiet o b b'.
Proof. intros (E1 & E2 & E3) [G1 G2 G3]. split; try done. intros i. unfold in_tx. rewrite <- E1. apply G2. Qed.

Lemma poll_null_ok l o b :
  (∀ i, i ∈ l → 0 <= i < nr) → good o b →
  ∃ o' b', poll_null l o b = Some (o', b') ∧ same_rings o o' ∧ good o b' ∧ quiet o b b'.
Proof.
  revert o b. induction l as [|i l IH]; intros o b Hl Hg; simpl.
  { exists o, b. split; [done|]. split; [done|]. by split. }
  assert (0 <= i < nr) as Hi by (apply Hl; left).
  assert (∀ j, j ∈ l → 0 <= j < nr) as Hl' by (intros; apply Hl; by right).
  destruct (negb (testbit (rx_mask o) i) || testbit (rcv_null o) i) eqn:Hc; [by apply IH|].
  apply orb_false_iff in Hc as [Hrx%negb_false_iff _].
  unfold READ_CSR_RING_HEAD, READ_CSR_RING_TAIL. rewrite shiftl2.
  rewrite (bind_Some _ _ _ _ _ (reg_rd_run _ b)), (bind_Some _ _ _ _ _ (reg_rd_run _ b)).
  destruct (g_rx _ _ Hg i Hi Hrx) as (Hs & Hh & Ht).
  destruct (g_mem _ _ Hg i Hi (or_intror Hrx)) as (buf & Hbuf & Hsz).
  destruct (rcv_null_response_ok (base o i) buf (headreg (csr b) i) (tailreg (csr b) i) b)
    as [v Hv]; try done; [lia|].
  rewrite (bind_Some _ _ _ _ _ Hv).
  set (o1 := if negb (v =? 0) then set_rcv (rcv_null o .| BIT i) o else o).
  assert (same_rings o o1) as Hso by (unfold o1; destruct (negb (v =? 0)); done).
  destruct (set_head_ok o b i Hg Hi Hrx) as (b1 & Hw & Hg1 & Hq1).
  rewrite (bind_Some _ _ _ _ _ Hw).
  destruct (IH o1 b1 Hl') as (o' & b' & Hrun & Hso' & Hg' & Hq'); [by eapply same_rings_good|].
  exists o', b'. split; [done|]. unfold same_rings in *. split; [naive_solver congruence|].
  split; [eapply same_rings_good; [|done]; by unfold same_rings; naive_solver|].
  etrans; [done|]. by eapply same_rings_quiet.
Qed.

Lemma msleep_ok o b :
  good o b → (∀ i, in_tx o i ∨ in_rx o i → 0 <= i < nr) →
  ∃ b', msleep device b = Some ((), b') ∧ good o b' ∧ quiet o b b'.
Proof.
  intros [G1 G2 G3] Hin. unfold msleep. pose proof (dev_ok (nsleep b) (csr b) (mem b)) as Hd.
  destruct (device (nsleep b) (csr b, mem b)) as [c m] eqn:E. destruct Hd as (Ha & Hr & Hm).
  eexists. split; [unfold modify; by rewrite E|]. split; [split| ]; simpl.
  - done.
  - intros i Hi Hio. destruct (G2 i Hi Hio) as (buf & Hb & Hs).
    destruct (Hm _ _ Hb) as (buf' & Hb' & Hl). exists buf'. by rewrite Hl.
  - intros i Hi Hio. destruct (G3 i Hi Hio) as (Hs & Hh & Ht). destruct (Hr i Hi) as (Hregs & H1 & H2).
    rewrite (bytes_regs (csr b)) by done. rewrite Hs in *. auto.
  - split; [by split_and!| |done]. intros i Hi _. by apply Hr.
Qed.

(** Sleeps left before the timer gives up. *)
Definition timer_reached (t : timer_state_s) (k : Z) : Prop :=
  (phase t = 0 ∧ elapsed t = 0 ∧ k = 118) ∨
  (t = Timer 1 5 500 (500 - 5 * (k - 18)) ∧ 18 <= k < 118) ∨
  (t = Timer 2 250 5000 (5000 - 250 * k) ∧ 0 <= k < 18).

Lemma timer_step t k :
  timer_reached t k →
  (k = 0 ∧ (timer_sm t).1 = 1) ∨
  (0 < k ∧ (timer_sm t).1 = 0 ∧ timer_reached (add_elapsed (timer_sm t).2) (k - 1)).
Proof.
  unfold timer_reached, timer_sm, add_elapsed, CLEANUP_PH1_LIMIT, CLEANUP_PH1_INTERVAL,
    CLEANUP_PH2_LIMIT, CLEANUP_PH2_INTERVAL.
  intros [(Hp & He & ->)|[[-> Hk]|[-> Hk]]].
  - rewrite Hp, He. simpl. right. split_and!; [lia|done|]. right. left. done.
  - simpl. destruct (Z.leb_spec 500 (500 - 5 * (k - 18))); simpl.
    + right. assert (k = 18) as -> by lia. split_and!; [lia|done|]. right. right. done.
    + right. split_and!; [lia|done|]. right. left. split; [f_equal; lia|lia].
  - simpl. destruct (Z.leb_spec 5000 (5000 - 250 * k)); simpl.
    + left. split; [lia|done].
    + right. split_and!; [lia|done|]. right. right. split; [f_equal; lia|lia].
Qed.

Lemma wait_loop_ok fuel t k o b :
  good o b → (∀ i, in_tx o i ∨ in_rx o i → 0 <= i < nr) →
  timer_reached t k → k < Z.of_nat fuel →
  ∃ b', wait_loop nr device fuel t o b = Some ((), b') ∧ good o b' ∧ quiet o b b'.
Proof.
  revert t k o b. induction fuel as [|fuel IH]; intros t k o b Hg Hin Ht Hk.
  { assert (0 <= k) by (unfold timer_reached in Ht; lia). lia. }
  simpl. destruct (poll_null_ok (rings nr) o b) as (o' & b1 & Hrun & Hso & Hg1 & Hq1); [|done|].
  { intros i Hi%elem_of_seqZ. lia. }
  rewrite (bind_Some _ _ _ _ _ Hrun).
  destruct (rcv_null o' =? rx_mask o'); [by exists b1|].
  destruct (timer_step t k Ht) as [[-> Hr]|(Hk0 & Hr & Ht')]; destruct (timer_sm t) as [r t'];
    simpl in Hr; subst r.
  { change (1 =? 0) with false. branch. by exists b1. }
  change (0 =? 0) with true. branch.
  destruct (msleep_ok o b1 Hg1 Hin) as (b2 & Hs & Hg2 & Hq2). rewrite (bind_Some _ _ _ _ _ Hs).
  pose proof Hso as (E1 & E2 & E3).
  destruct (IH (add_elapsed t') (k - 1) o' b2) as (b' & Hw & Hg' & Hq'); [| |done|lia|].
  - by eapply same_rings_good.
  - intros i. unfold in_tx, in_rx in *. rewrite E1, E2. apply Hin.
  - exists b'. split; [done|]. split.
    + eapply same_rings_good; [|done]. done.
    + etrans; [done|]. etrans; [done|]. by eapply same_rings_quiet.
Qed.

Lemma wait_for_null_msg_ok o b :
  good o b → (∀ i, in_tx o i ∨ in_rx o i → 0 <= i < nr) →
  ∃ b', wait_for_null_msg nr device o b = Some ((), b') ∧ good o b' ∧ quiet o b b'.
Proof.
  intros Hg Hin. eapply (wait_loop_ok _ _ 118); [done|done| |by unfold wait_fuel].
  left. done.
Qed.

Definition of_orphan (o : bundle_orphan_ring) i := in_tx o i ∨ in_rx o i.

Lemma cleanup_all_ring_ok o b :
  ∃ b', cleanup_all_ring nr o b = Some ((), b') ∧ same_book b b' ∧
    (∀ i, 0 <= i < nr → of_orphan o i → ring_regs (csr b') i = (0, 0, 0)) ∧
    (∀ i, 0 <= i < nr → ¬ of_orphan o i → ring_regs (csr b') i = ring_regs (csr b) i) ∧
    arb (csr b') = u32 (arb (csr b) .& clear 0xFF (tx_mask o)).
Proof.
  unfold cleanup_all_ring.
  assert (∀ i, testbit (rx_mask o .| tx_mask o) i = true ↔ of_orphan o i) as Hm.
  { intros i. unfold of_orphan, in_tx, in_rx. rewrite Z.lor_spec, orb_true_iff. tauto. }
  destruct (foreach_inv (rings nr) (λ i,
    if negb (testbit (rx_mask o .| tx_mask o) i) then ret () else
    WRITE_CSR_RING_CONFIG i 0 ;; WRITE_CSR_RING_BASE i 0) (λ pre s,
    same_book b s ∧ arb (csr s) = arb (csr b) ∧
    (∀ i, i ∈ pre → of_orphan o i → ring_regs (csr s) i = (0, 0, 0)) ∧
    (∀ i, 0 <= i < nr → ¬ of_orphan o i → ring_regs (csr s) i = ring_regs (csr b) i)) b)
    as (b1 & Hrun & Hb & Ha & Hz & Hk).
  - split_and!; try done. by intros i ?%elem_of_nil.
  - intros pre i post s E (Hb & Ha & Hz & Hk).
    assert (∀ j, j ∈ pre → 0 <= j < nr ∧ j ≠ i) as Hpre.
    { intros j Hj. pose proof (NoDup_seqZ 0 nr) as Hn. unfold rings in E. rewrite E in Hn.
      apply NoDup_app in Hn as (_ & Hd & _). split.
      - assert (j ∈ seqZ 0 nr) as Hj' by (rewrite E; apply elem_of_app; by left).
        apply elem_of_seqZ in Hj'. lia.
      - intros ->. apply (Hd i Hj). left. }
    apply rings_in in E. destruct (testbit (rx_mask o .| tx_mask o) i) eqn:Hi; branch.
    + destruct (silence_run i s) as (s' & Hrun & Hw & Hr). exists s'. split; [done|].
      apply Hm in Hi. pose proof Hw as (Hbw & _ & _ & Hf). split_and!.
      * by etrans.
      * rewrite <- Ha. apply Hf. lia.
      * intros j [Hj| ->%list_elem_of_singleton]%elem_of_app Hor; [|done].
        destruct (Hpre j Hj). erewrite writes_ring_regs by (try done; cbv beta; lia). by apply Hz.
      * intros j Hj Hno. assert (j ≠ i) by (intros ->; done).
        erewrite writes_ring_regs by (try done; cbv beta; lia). by apply Hk.
    + exists s. split; [done|]. split_and!; try done.
      intros j [Hj| ->%list_elem_of_singleton]%elem_of_app Hor; [by apply Hz|].
      apply Hm in Hor. congruence.
  - rewrite (bind_Some _ _ _ _ _ Hrun). unfold adf_disable_ring_arb, ADF_ARB_RINGSRVARBEN_OFFSET.
    rewrite (bind_Some _ _ _ _ _ (reg_rd_run _ b1)), reg_wr_run. fold (arb (csr b1)). rewrite Ha.
    eexists. split; [done|]. split; [done|]. split_and!.
    + intros i Hi Ho. rewrite <- (Hz i); [|apply elem_of_seqZ; lia|done].
      unfold ring_regs. simpl. by rewrite !reg_insert_ne by lia.
    + intros i Hi Ho. rewrite <- (Hk i) by done.
      unfold ring_regs. simpl. by rewrite !reg_insert_ne by lia.
    + unfold arb at 1. simpl. apply reg_insert_eq.
Qed.

(** Arbitration of the orphan's request rings, and nothing else of it, is
    switched by [adf_enable_ring_arb] and [adf_disable_ring_arb]. *)
Definition but_arb (o : bundle_orphan_ring) (b b' : bundle) : Prop :=
  same_book b b' ∧ ∀ i, 0 <= i < nr → ¬ in_tx o i → ring_regs (csr b') i = ring_regs (csr b) i.

#[local] Instance but_arb_preorder o : PreOrder (but_arb o).
Proof.
  split; [by intros b; split|]. intros a b c [H1 H2] [G1 G2]. split; [by etrans|].
  intros i Hi Ht. by rewrite G2, H2.
Qed.

Lemma quiet_but_arb o b b' : quiet o b b' → but_arb o b b'.
Proof. by intros [??]. Qed.

Lemma wr_other_ok o off v b :
  good o b → off = 0x17C ∨ off = 0x19C →
  ∃ b', csr_wr off v b = Some ((), b') ∧ good o b' ∧ but_arb o b b' ∧
    arb (csr b') = if off =? 0x19C then u32 v else arb (csr b).
Proof.
  intros Hg Hoff. rewrite reg_wr_run. eexists. split; [done|].
  pose proof (csr_wr_writes off v b _ (reg_wr_run off v b)) as Hw. split_and!.
  - eapply writes_good; [done|done| |].
    + intros j Hj _. cbv beta. lia.
    + intros j Hj _. right. apply Hw. lia.
  - split; [by split_and!|]. intros i Hi _. eapply writes_ring_regs; [done|cbv beta; lia..].
  - unfold arb. simpl. destruct (Z.eqb_spec off 0x19C) as [->|]; [by rewrite reg_insert_eq|].
    by rewrite reg_insert_ne by lia.
Qed.

Definition arb_ok (a : Z) : Prop := 0 <= a < 2 ^ 32.

Lemma arb_off a m : arb_ok a → u32 (a .& clear 0xFF m) = a .& clear 0xFF m.
Proof.
  intros Ha. apply wrap_small. unfold arb_ok in *.
  assert (0 <= clear 0xFF m) by (apply Z.ldiff_nonneg; lia).
  rewrite Z.land_comm. apply land_range_r; [lia|lia].
Qed.

(** The whole of the cleanup: the orphan's rings are silenced, the other rings
    are left as they were. *)
Lemma cleanup_orphan_ring_ok o b :
  good o b → (∀ i, of_orphan o i → 0 <= i < nr) → arb_ok (arb (csr b)) →
  ∃ b', cleanup_orphan_ring nr device o b = Some ((), b') ∧ same_book b b' ∧
    (∀ i, of_orphan o i → ring_regs (csr b') i = (0, 0, 0)) ∧
    (∀ i, 0 <= i < nr → ¬ of_orphan o i → ring_regs (csr b') i = ring_regs (csr b) i) ∧
    arb (csr b') = arb (csr b) .& clear 0xFF (tx_mask o).
Proof.
  intros Hg Hin Ha. unfold cleanup_orphan_ring, WRITE_CSR_INT_COL_EN, adf_disable_ring_arb, adf_enable_ring_arb, ADF_ARB_RINGSRVARBEN_OFFSET.
  destruct (wr_other_ok o 0x17C 0 b Hg) as (b1 & R1 & G1 & Q1 & A1); [by left|].
  rewrite (bind_Some _ _ _ _ _ R1). rewrite bind_assoc, (bind_Some _ _ _ _ _ (reg_rd_run _ b1)).
  fold (arb (csr b1)). simpl in A1. rewrite A1.
  destruct (wr_other_ok o 0x19C (arb (csr b) .& clear 0xFF (tx_mask o)) b1 G1) as (b2 & R2 & G2 & Q2 & A2);
    [by right|].
  rewrite (bind_Some _ _ _ _ _ R2). rewrite Z.eqb_refl, arb_off in A2 by done.
  destruct (reset_tx_rings_ok o b2 G2) as (b3 & R3 & G3 & Q3). rewrite (bind_Some _ _ _ _ _ R3).
  rewrite bind_assoc, (bind_Some _ _ _ _ _ (reg_rd_run _ b3)).
  fold (arb (csr b3)). rewrite (q_arb _ _ _ Q3), A2.
  set (on := arb (csr b) .& clear 0xFF (tx_mask o) .| (tx_mask o .& 0xFF)).
  destruct (wr_other_ok o 0x19C on b3 G3) as (b4 & R4 & G4 & Q4 & A4); [by right|].
  rewrite (bind_Some _ _ _ _ _ R4). rewrite Z.eqb_refl in A4.
  destruct (empty_rx_rings_ok o b4 G4) as (b5 & R5 & G5 & Q5). rewrite (bind_Some _ _ _ _ _ R5).
  destruct (send_null_msg_ok o b5 G5) as (b6 & R6 & G6 & Q6). rewrite (bind_Some _ _ _ _ _ R6).
  destruct (wait_for_null_msg_ok o b6 G6 Hin) as (b7 & R7 & G7 & Q7). rewrite (bind_Some _ _ _ _ _ R7).
  destruct (cleanup_all_ring_ok o b7) as (b' & R8 & B8 & Z8 & K8 & A8). exists b'. split; [done|].
  assert (but_arb o b b7) as [Hbook Hregs].
  { etrans; [exact Q1|]. etrans; [exact Q2|]. etrans; [by apply quiet_but_arb|].
    etrans; [exact Q4|]. etrans; [by apply quiet_but_arb|].
    etrans; [by apply quiet_but_arb|]. by apply quiet_but_arb. }
  split_and!.
  - by etrans.
  - intros i Hi. apply Z8; auto.
  - intros i Hi Hno. rewrite K8 by done. apply Hregs; [done|]. intros ?. by destruct Hno; left.
  - rewrite A8, (q_arb _ _ _ Q7), (q_arb _ _ _ Q6), (q_arb _ _ _ Q5), A4. unfold on.
    apply Z.bits_inj'. intros j Hj. unfold clear.
    rewrite wrap_testbit by lia. rewrite !Z.land_spec, wrap_testbit by lia.
    rewrite !Z.lor_spec, !Z.land_spec, !Z.ldiff_spec.
    assert (j < 32 ∨ testbit (arb (csr b)) j = false) as [?|Hbit].
    { destruct (decide (j < 32)); [by left|]. right. apply (testbit_high _ 32); unfold arb_ok in Ha; lia. }
    + rewrite (proj2 (Z.ltb_lt j 32)) by done.
      destruct (testbit (arb _) j), (testbit 0xFF j), (testbit (tx_mask o) j); done.
    + rewrite Hbit. destruct (j <? 32), (testbit 0xFF j), (testbit (tx_mask o) j); done.
Qed.

(** Dropping rings that have no partner. *)
Record checked (o : bundle_orphan_ring) (b : bundle) (o' : bundle_orphan_ring) (b' : bundle) : Prop := {
  c_tx i : in_tx o' i → in_tx o i;
  c_rx i : in_rx o' i → in_rx o i;
  c_good : good o' b';
  c_book : same_book b b';
  c_arb : arb (csr b') = arb (csr b);
  c_zero i : 0 <= i < nr → of_orphan o i → ¬ of_orphan o' i → ring_regs (csr b') i = (0, 0, 0);
  c_keep i : 0 <= i < nr → ¬ of_orphan o i ∨ of_orphan o' i → ring_regs (csr b') i = ring_regs (csr b) i
}.

Lemma of_orphan_dec o i : of_orphan o i ∨ ¬ of_orphan o i.
Proof. unfold of_orphan, in_tx, in_rx. destruct (testbit (tx_mask o) i), (testbit (rx_mask o) i); intuition congruence. Qed.

Lemma checked_refl o b : good o b → checked o b o b.
Proof. intros Hg. by split. Qed.

Lemma checked_trans o b o1 b1 o2 b2 : checked o b o1 b1 → checked o1 b1 o2 b2 → checked o b o2 b2.
Proof.
  intros [T1 R1 G1 B1 A1 Z1 K1] [T2 R2 G2 B2 A2 Z2 K2].
  assert (∀ i, of_orphan o2 i → of_orphan o1 i) as Hof by (intros i [?|?]; [left|right]; auto).
  split; try (by auto); try congruence.
  - by etrans.
  - intros i Hi Ho Hn. destruct (of_orphan_dec o1 i) as [H1|H1].
    + by apply Z2.
    + rewrite K2 by auto. by apply Z1.
  - intros i Hi [Hn|Ho].
    + assert (¬ of_orphan o1 i) by (intros [?|?]; apply Hn; [left|right]; auto).
      rewrite K2, K1 by auto. done.
    + rewrite K2, K1 by auto. done.
Qed.

Lemma drop_ring o b i o' :
  good o b → 0 <= i < nr → of_orphan o i → base o' = base o →
  (∀ j, in_tx o' j ↔ in_tx o j ∧ j ≠ i) → (∀ j, in_rx o' j ↔ in_rx o j ∧ j ≠ i) →
  ∃ b', (WRITE_CSR_RING_CONFIG i 0 ;; WRITE_CSR_RING_BASE i 0) b = Some ((), b') ∧ checked o b o' b'.
Proof.
  intros Hg Hi Ho Hb Ht Hr. destruct (silence_run i b) as (b' & Hrun & Hw & Hz).
  exists b'. split; [done|]. pose proof Hw as (Hbk & Hm & _ & Hf).
  assert (∀ j, of_orphan o' j ↔ of_orphan o j ∧ j ≠ i) as Hof.
  { intros j. unfold of_orphan. rewrite Ht, Hr. tauto. }
  assert (∀ j, 0 <= j < nr → j ≠ i → ring_regs (csr b') j = ring_regs (csr b) j) as Hreg.
  { intros j Hj Hne. eapply writes_ring_regs; [done|cbv beta; lia..]. }
  split; try done.
  - intros j Hj%Ht. by destruct Hj.
  - intros j Hj%Hr. by destruct Hj.
  - destruct Hg as [G1 G2 G3]. split.
    + intros j [Hj _]%Ht [Hj' _]%Hr. by eapply G1.
    + intros j Hj Hjo%Hof. rewrite Hm, Hb. apply G2; [done|]. apply Hjo.
    + intros j Hj [Hjo Hne]%Hr. rewrite Hb, (bytes_regs (csr b)) by auto.
      unfold headreg, tailreg. rewrite !Hf by lia. by apply G3.
  - apply Hf. lia.
  - intros j Hj Hjo Hn. destruct (decide (j = i)) as [->|]; [done|]. destruct Hn. by apply Hof.
  - intros j Hj Hor. apply Hreg; [done|]. intros ->. destruct Hor as [?|?%Hof]; [done|]. naive_solver.
Qed.

Lemma clear_BIT_testbit m i j :
  0 <= i → testbit (clear m (BIT i)) j = true ↔ testbit m j = true ∧ j ≠ i.
Proof.
  intros Hi. unfold clear. rewrite Z.ldiff_spec, BIT_testbit by done.
  rewrite andb_true_iff, negb_true_iff. destruct (Z.eqb_spec j i); naive_solver.
Qed.

Lemma check_loop_ok l o b :
  (∀ i, i ∈ l → 0 <= i < nr) → good o b →
  ∃ o' b', check_loop gap l o b = Some (o', b') ∧ checked o b o' b'.
Proof.
  revert o b. induction l as [|i l IH]; intros o b Hl Hg; simpl.
  { exists o, b. split; [done|]. by apply checked_refl. }
  assert (0 <= i < nr) as Hi by (apply Hl; left).
  assert (∀ j, j ∈ l → 0 <= j < nr) as Hl' by (intros; apply Hl; by right).
  assert (∀ o1 b1, checked o b o1 b1 →
    ∃ o' b', check_loop gap l o1 b1 = Some (o', b') ∧ checked o b o' b') as Hgo.
  { intros o1 b1 Hc. destruct (IH o1 b1 Hl' (c_good _ _ _ _ Hc)) as (o' & b' & Hrun & Hc').
    exists o', b'. split; [done|]. by eapply checked_trans. }
  assert (∀ o1, of_orphan o i → base o1 = base o →
    (∀ j, in_tx o1 j ↔ in_tx o j ∧ j ≠ i) → (∀ j, in_rx o1 j ↔ in_rx o j ∧ j ≠ i) →
    ∃ o' b', (WRITE_CSR_RING_CONFIG i 0 ;; WRITE_CSR_RING_BASE i 0 ;; check_loop gap l o1) b
      = Some (o', b') ∧ checked o b o' b') as Hdrop.
  { intros o1 Hor Hb Ht Hr. destruct (drop_ring o b i o1 Hg Hi Hor Hb Ht Hr) as (b1 & Hrun & Hc).
    rewrite <- bind_assoc, (bind_Some _ _ _ _ _ Hrun). by apply Hgo. }
  pose proof (checked_refl o b Hg) as Hsame.
  destruct (testbit (tx_mask o) i) eqn:Ht.
  - destruct (negb _); [|by apply Hgo]. apply Hdrop; [by left|done| |].
    + intros j. unfold in_tx. simpl. apply clear_BIT_testbit; lia.
    + intros j. unfold in_rx. simpl. split; [|by intros []]. intros Hj. split; [done|].
      intros ->. by apply (g_apart _ _ Hg i).
  - destruct (testbit (rx_mask o) i) eqn:Hr; [|by apply Hgo].
    destruct (negb _); [|by apply Hgo]. apply Hdrop; [by right|done| |].
    + intros j. unfold in_tx. simpl. split; [|by intros []]. intros Hj. split; [done|].
      intros ->. congruence.
    + intros j. unfold in_rx. simpl. apply clear_BIT_testbit; lia.
Qed.

(** The rings [get_orphan_bundle] finds: those the process has whose base is set. *)
Definition found (mask : Z) (b : bundle) (i : Z) : Prop :=
  testbit mask i = true ∧ ring_basereg (csr b) i ≠ 0.

Definition sane_ring (b : bundle) (i : Z) : Prop :=
  let v := ring_dma_to_virt phys_to_virt (ring_basereg (csr b) i) in
  let n := ring_bytes (csr b) i in
  v ≠ 0 ∧ pos_ok (headreg (csr b) i) n ∧ pos_ok (tailreg (csr b) i) n ∧
  ∃ buf, mem b !! v = Some buf ∧ 128 <= n <= 4 * Z.of_nat (length buf).

Record collected (mask : Z) (b : bundle) (l : list Z) (o o' : bundle_orphan_ring) : Prop := {
  l_tx i : in_tx o' i ↔ in_tx o i ∨ (i ∈ l ∧ found mask b i ∧ testbit tx_rings i = true);
  l_rx i : in_rx o' i ↔ in_rx o i ∨ (i ∈ l ∧ found mask b i ∧ testbit tx_rings i = false);
  l_base i : base o' i = base o i ∨ (i ∈ l ∧ found mask b i) ∧
    base o' i = RingBase (ring_dma_to_virt phys_to_virt (ring_basereg (csr b) i))
      (ring_basereg (csr b) i) (ring_bytes (csr b) i);
  l_new i : i ∈ l → found mask b i →
    base o' i = RingBase (ring_dma_to_virt phys_to_virt (ring_basereg (csr b) i))
      (ring_basereg (csr b) i) (ring_bytes (csr b) i)
}.

Lemma collect_ok mask l o b :
  (∀ i, i ∈ l → 0 <= i < nr) → (∀ i, i ∈ l → found mask b i → sane_ring b i) →
  ∃ o', collect tx_rings asym_rings phys_to_virt mask l o b = Some (Some o', b) ∧ collected mask b l o o'.
Proof.
  revert o. induction l as [|i l IH]; intros o Hl Hs; simpl.
  { exists o. split; [done|]. split.
    - intros i. rewrite elem_of_nil. tauto.
    - intros i. rewrite elem_of_nil. tauto.
    - intros i. by left.
    - by intros i ?%elem_of_nil. }
  assert (0 <= i < nr) as Hi by (apply Hl; left).
  assert (∀ j, j ∈ l → 0 <= j < nr) as Hl' by (intros; apply Hl; by right).
  assert (∀ j, j ∈ l → found mask b j → sane_ring b j) as Hs' by (intros; apply Hs; [by right|done]).
  assert (¬ found mask b i → ∃ o', collect tx_rings asym_rings phys_to_virt mask l o b = Some (Some o', b) ∧
    collected mask b (i :: l) o o') as Hskip.
  { intros Hn. destruct (IH o Hl' Hs') as (o' & Hrun & [T R B N]). exists o'. split; [done|]. split.
    - intros j. rewrite T. rewrite elem_of_cons. naive_solver.
    - intros j. rewrite R. rewrite elem_of_cons. naive_solver.
    - intros j. rewrite elem_of_cons. destruct (B j) as [?|[[? ?] ?]]; [by left|right]; naive_solver.
    - intros j [->|Hj]%elem_of_cons Hf; [done|]. by apply N. }
  rewrite (bind_Some _ _ _ _ _ (read_base_run i b)).
  destruct (Z.eqb_spec (ring_basereg (csr b) i) 0) as [Hz|Hnz]; [apply Hskip; by intros []|].
  rewrite land_BIT_nonzero by lia. destruct (testbit mask i) eqn:Hm; branch;
    [|apply Hskip; intros [? _]; congruence].
  assert (found mask b i) as Hf by done.
  rewrite (bind_Some _ _ _ _ _ (get_ring_size_run i b)).
  destruct (Hs i ltac:(left) Hf) as (Hv & _).
  rewrite (proj2 (Z.eqb_neq _ _)) by done.
  set (r := RingBase _ _ _).
  match goal with |- context [collect _ _ _ mask l ?x b] => set (o1 := x) end.
  assert ((∀ j, in_tx o1 j ↔ in_tx o j ∨ j = i ∧ testbit tx_rings i = true) ∧
    (∀ j, in_rx o1 j ↔ in_rx o j ∨ j = i ∧ testbit tx_rings i = false) ∧
    base o1 = fupd (base o) i r) as (T1 & R1 & B1).
  { assert (∀ m j, testbit (m .| BIT i) j = true ↔ testbit m j = true ∨ j = i) as Hlor.
    { intros m j. rewrite lor_BIT_testbit by lia. rewrite orb_true_iff, Z.eqb_eq. done. }
    unfold o1, in_tx, in_rx. destruct (testbit asym_rings i), (testbit tx_rings i); simpl;
      split_and!; try done; intros j; rewrite ?Hlor; intuition congruence. }
  destruct (IH o1 Hl' Hs') as (o' & Hrun & [T R B N]). exists o'. split; [done|].
  assert (base o' i = r) as Hbi.
  { destruct (B i) as [E|[_ E]]; [by rewrite E, B1, fupd_eq|done]. }
  split.
  - intros j. rewrite T, T1, elem_of_cons. naive_solver.
  - intros j. rewrite R, R1, elem_of_cons. naive_solver.
  - intros j. rewrite elem_of_cons. destruct (decide (j = i)) as [->|Hne]; [right; by rewrite Hbi; auto|].
    destruct (B j) as [E|[[? ?] ?]]; [left; by rewrite E, B1, fupd_ne|right; auto].
  - intros j [->|Hj]%elem_of_cons Hfj; [done|]. by apply N.
Qed.

Definition mask_of (pid : Z) (b : bundle) : Z :=
  default 0 (p ← entry_of pid b; e ← insts b !! p; Some (ring_mask e)).

Lemma mask_of_book pid b b' : same_book b b' → mask_of pid b' = mask_of pid b.
Proof. intros H. unfold mask_of. rewrite (same_book_entry pid b b' H). by destruct H as [-> _]. Qed.

Lemma mask_of_run pid b :
  owned b →
  (p <- find_process pid ;;
   match p with Some p => e <- inst p ;; ret (ring_mask e) | None => ret 0 end) b
  = Some (mask_of pid b, b).
Proof.
  intros Ho. rewrite (bind_Some _ _ _ _ _ (find_process_run pid b Ho)). unfold mask_of.
  destruct (entry_of pid b) as [p|] eqn:Hp; [|done].
  apply entry_of_Some in Hp as (_ & e & He & _). simpl. rewrite He.
  by rewrite (bind_Some _ _ _ _ _ (inst_run _ _ _ He)).
Qed.

(** The book and the registers of [b'] are those of [b]. *)
Definition same_world (b b' : bundle) : Prop := same_book b b' ∧ csr b' = csr b ∧ mem b' = mem b.

Lemma kzalloc_run b :
  ∃ b', kzalloc alloc_ok b = Some (alloc_ok (nalloc b), b') ∧ same_world b b'.
Proof. unfold kzalloc. rewrite bind_gets, bind_modify. by eexists. Qed.

(** The rings found, with the unmatched ones already silenced. *)
Record orphans (mask : Z) (b : bundle) (o : bundle_orphan_ring) (b' : bundle) : Prop := {
  h_in i : of_orphan o i → 0 <= i < nr ∧ found mask b i;
  h_good : good o b';
  h_book : same_book b b';
  h_arb : arb (csr b') = arb (csr b);
  h_zero i : 0 <= i < nr → found mask b i → ¬ of_orphan o i → ring_regs (csr b') i = (0, 0, 0);
  h_keep i : 0 <= i < nr → ¬ found mask b i ∨ of_orphan o i → ring_regs (csr b') i = ring_regs (csr b) i
}.

Lemma collected_good mask b o :
  (∀ i, 0 <= i < nr → found mask b i → sane_ring b i) →
  collected mask b (rings nr) (Orphan 0 0 0 0 (λ _, RingBase 0 0 0)) o →
  good o b ∧ ∀ i, of_orphan o i ↔ 0 <= i < nr ∧ found mask b i.
Proof.
  intros Hs [T R B N].
  assert (∀ i, of_orphan o i ↔ 0 <= i < nr ∧ found mask b i) as Hof.
  { intros i. unfold of_orphan. rewrite T, R. unfold in_tx, in_rx. simpl. rewrite Z.bits_0.
    unfold rings. rewrite elem_of_seqZ, Z.add_0_l. destruct (testbit tx_rings i); intuition congruence. }
  split; [|done]. split.
  - intros i Ht%T Hr%R. unfold in_tx, in_rx in *. simpl in *. rewrite Z.bits_0 in *.
    destruct Ht as [?|(? & ? & ?)], Hr as [?|(? & ? & ?)]; congruence.
  - intros i Hi Ho%Hof. destruct Ho as [_ Hf]. rewrite N by (done || (apply elem_of_seqZ; lia)).
    destruct (Hs i Hi Hf) as (_ & _ & _ & buf & Hb & Hn). exists buf. by split.
  - intros i Hi Hr. assert (of_orphan o i) as Ho%Hof by by right. destruct Ho as [_ Hf].
    rewrite N by (done || (apply elem_of_seqZ; lia)). destruct (Hs i Hi Hf) as (_ & Hh & Ht & _). done.
Qed.

Lemma get_orphan_bundle_ok pid b :
  owned b → (∀ n, alloc_ok n = true) →
  (∀ i, 0 <= i < nr → found (mask_of pid b) b i → sane_ring b i) →
  ∃ o b', get_orphan_bundle nr gap tx_rings asym_rings alloc_ok phys_to_virt pid b = Some ((0, Some o), b') ∧
    orphans (mask_of pid b) b o b'.
Proof.
  intros Ho Hall Hs. unfold get_orphan_bundle.
  destruct (kzalloc_run b) as (b1 & R1 & W1 & C1 & M1). rewrite (bind_Some _ _ _ _ _ R1), Hall. branch.
  destruct (kzalloc_run b1) as (b2 & R2 & W2 & C2 & M2). rewrite (bind_Some _ _ _ _ _ R2), Hall. branch.
  assert (same_book b b2) as Hb2 by by etrans.
  rewrite <- bind_assoc.
  rewrite (bind_Some _ _ _ _ _ (mask_of_run pid b2 (same_book_owned _ _ Hb2 Ho))).
  rewrite (mask_of_book pid b b2 Hb2). set (mask := mask_of pid b) in *.
  assert (csr b2 = csr b) as Ec by congruence. assert (mem b2 = mem b) as Em by congruence.
  assert (∀ i, found mask b2 i ↔ found mask b i) as Hf by (intros; unfold found; by rewrite Ec).
  assert (∀ i, 0 <= i < nr → found mask b2 i → sane_ring b2 i) as Hs2.
  { intros i Hi Hfi%Hf. unfold sane_ring. rewrite Ec, Em. by apply Hs. }
  destruct (collect_ok mask (rings nr) (Orphan 0 0 0 0 (λ _, RingBase 0 0 0)) b2) as (o1 & R3 & Hc).
  { intros i Hi%elem_of_seqZ. lia. }
  { intros i Hi%elem_of_seqZ. apply Hs2. lia. }
  rewrite (bind_Some _ _ _ _ _ R3). destruct (collected_good mask b2 o1 Hs2 Hc) as [Hg Hof].
  assert (∃ o b', (if negb (tx_mask o1 =? 0) || negb (rx_mask o1 =? 0)
    then check_orphan_ring nr gap o1 else ret o1) b2 = Some (o, b') ∧ checked o1 b2 o b') as (o & b' & R4 & K).
  { destruct (negb (tx_mask o1 =? 0) || negb (rx_mask o1 =? 0)).
    - apply check_loop_ok; [|done]. intros i Hi%elem_of_seqZ. lia.
    - exists o1, b2. split; [done|]. by apply checked_refl. }
  rewrite (bind_Some _ _ _ _ _ R4). exists o, b'. split; [done|]. destruct K as [T R G B A Zr Kp].
  assert (∀ i, of_orphan o i → of_orphan o1 i) as Hsub by (intros i [?|?]; [left|right]; auto).
  split; try done.
  - intros i Hi. rewrite <- Hf. apply Hof. auto.
  - by etrans.
  - by rewrite A, Ec.
  - intros i Hi Hfi Hn. apply Zr; [done| |done]. apply Hof. by rewrite Hf.
  - intros i Hi [Hn|Hoi].
    + rewrite Kp, Ec; [done..|]. left. rewrite Hof, Hf. naive_solver.
    + rewrite Kp, Ec; [done..|]. by right.
Qed.

(** What cleaning up after a process leaves. *)
Record cleaned (mask : Z) (b b' : bundle) : Prop := {
  k_own i : 0 <= i < nr → testbit mask i = true → ring_basereg (csr b') i = 0;
  k_other i : 0 <= i < nr → testbit mask i = false → ring_regs (csr b') i = ring_regs (csr b) i;
  k_arb i : 0 <= i < 8 → testbit mask i = false → testbit (arb (csr b')) i = testbit (arb (csr b)) i
}.

Lemma force_release_run pid b :
  owned b → force_release pid b = Some ((), set_rings_used (clear (rings_used b) (mask_of pid b)) b).
Proof.
  intros Ho. unfold force_release. rewrite (bind_Some _ _ _ _ _ (find_process_run pid b Ho)). unfold mask_of.
  destruct (entry_of pid b) as [p|] eqn:Hp.
  - apply entry_of_Some in Hp as (_ & e & He & _). simpl. rewrite He.
    by rewrite (bind_Some _ _ _ _ _ (inst_run _ _ _ He)).
  - unfold clear. simpl. rewrite Z.ldiff_0_r. by destruct b.
Qed.

Lemma need_loop_run l b :
  ∃ r, need_loop l b = Some (r, b) ∧ (r = false → ∀ i, i ∈ l → ring_basereg (csr b) i = 0).
Proof.
  induction l as [|i l (r & Hrun & Hr)]; simpl.
  { exists false. split; [done|]. by intros _ i ?%elem_of_nil. }
  rewrite (bind_Some _ _ _ _ _ (read_base_run i b)).
  destruct (Z.eqb_spec (ring_basereg (csr b) i) 0) as [H0|]; branch.
  - exists r. split; [done|]. intros E j [->|Hj]%elem_of_cons; [done|auto].
  - exists true. by split.
Qed.

Lemma adf_uio_do_cleanup_orphan_ok pid b :
  owned b → (∀ n, alloc_ok n = true) → arb_ok (arb (csr b)) →
  (∀ i, 0 <= i < nr → found (mask_of pid b) b i → sane_ring b i) →
  ∃ b1 b', adf_uio_do_cleanup_orphan nr gap tx_rings asym_rings alloc_ok phys_to_virt device pid b
    = Some ((), b') ∧ same_book b b1 ∧
    b' = set_rings_used (clear (rings_used b) (mask_of pid b)) b1 ∧ cleaned (mask_of pid b) b b'.
Proof.
  intros Ho Hall Ha Hs. unfold adf_uio_do_cleanup_orphan, bundle_need_cleanup.
  destruct (need_loop_run (rings nr) b) as (need & R0 & Hneed). rewrite (bind_Some _ _ _ _ _ R0).
  destruct need; branch.
  2:{ eexists b, _. split; [by apply force_release_run|]. split; [done|]. split; [done|]. split; try done.
      intros i Hi _. apply Hneed; [done|]. apply elem_of_seqZ. lia. }
  destruct (get_orphan_bundle_ok pid b Ho Hall Hs) as (o & b1 & R1 & [Hin Hg Hbk Harb Hz Hk]).
  rewrite (bind_Some _ _ _ _ _ R1). set (mask := mask_of pid b) in *.
  assert (∀ i, of_orphan o i → testbit mask i = true) as Hmask by (intros i Hi; apply (Hin i Hi)).
  assert (∃ b2, when (negb ((tx_mask o =? 0) && (rx_mask o =? 0))) (cleanup_orphan_ring nr device o) b1
    = Some ((), b2) ∧ same_book b1 b2 ∧
    (∀ i, 0 <= i < nr → of_orphan o i → ring_basereg (csr b2) i = 0) ∧
    (∀ i, 0 <= i < nr → ¬ of_orphan o i → ring_regs (csr b2) i = ring_regs (csr b1) i) ∧
    (∀ i, 0 <= i < 8 → ¬ in_tx o i → testbit (arb (csr b2)) i = testbit (arb (csr b1)) i))
    as (b2 & R2 & B2 & Z2 & K2 & A2).
  { destruct ((tx_mask o =? 0) && (rx_mask o =? 0)) eqn:E; simpl when.
    - apply andb_true_iff in E as [Et%Z.eqb_eq Er%Z.eqb_eq].
      exists b1. split; [done|]. split; [done|]. split; [|done].
      intros i Hi Hor. unfold of_orphan, in_tx, in_rx in Hor. rewrite Et, Er, Z.bits_0 in Hor.
      by destruct Hor.
    - destruct (cleanup_orphan_ring_ok o b1 Hg) as (b2 & R & B & Z0 & K & A);
        [intros i Hi; apply (Hin i Hi)|by rewrite Harb|].
      exists b2. split; [done|]. split; [done|]. split; [|split]; [|done|].
      + intros i _ Hor. by apply basereg_zero, Z0.
      + intros i Hi Hn. rewrite A. unfold clear. rewrite Z.land_spec, Z.ldiff_spec.
        destruct (testbit (tx_mask o) i) eqn:Eb; [done|].
        assert (testbit 0xFF i = true) as ->; [|by rewrite andb_true_r].
        change 0xFF with (Z.ones 8). rewrite Z.ones_spec_low by lia. done. }
  rewrite (bind_Some _ _ _ _ _ R2). assert (same_book b b2) as Hb by by etrans.
  rewrite force_release_run by by eapply same_book_owned.
  rewrite (mask_of_book pid b b2 Hb). eexists b2, _. split; [done|]. split; [done|].
  split; [f_equal; f_equal; apply Hb|]. split; simpl.
  - intros i Hi Hm. destruct (of_orphan_dec o i) as [Hoi|Hn]; [by apply Z2|].
    destruct (Z.eqb_spec (ring_basereg (csr b) i) 0) as [Hz0|Hnz].
    + rewrite (basereg_regs (csr b1)) by by apply K2. rewrite (basereg_regs (csr b)); [done|].
      apply Hk; [done|]. left. by intros [_ ?].
    + rewrite (basereg_regs (csr b1)) by by apply K2. apply basereg_zero, Hz; done.
  - intros i Hi Hm. assert (¬ of_orphan o i) as Hn by (intros ?%Hmask; congruence).
    rewrite K2, Hk by (done || left; intros [? _]; congruence). done.
  - intros i Hi Hm. rewrite A2, Harb; [done..|]. intros Ht. rewrite (Hmask i) in Hm; [done|by left].
Qed.

End cleanup.

(** ** A mapping comes and goes *)

Lemma fresh_None b : owned b → insts b !! next_ptr b = None.
Proof.
  intros Ho. destruct (insts b !! next_ptr b) eqn:E; [|done].
  assert (next_ptr b ∈ list_ b) as Hin by (apply (o_dom b Ho); by eexists).
  apply (o_fresh b Ho) in Hin. lia.
Qed.

(** A new list element, without rings. *)
Lemma add_entry_owned b b' pid vma_ :
  owned b → insts b' = <[next_ptr b := Inst pid 0 vma_]> (insts b) →
  list_ b' = list_ b ++ [next_ptr b] → rings_used b' = rings_used b → next_ptr b' = next_ptr b + 1 →
  owned b'.
Proof.
  intros Ho E1 E2 E3 E4. pose proof (fresh_None b Ho) as Hn. destruct Ho as [H1 H2 H3 H4 H5 H6 H7].
  assert (∀ q i, holds b' q i ↔ holds b q i) as Hh.
  { intros q i. unfold holds. rewrite E1. destruct (decide (q = next_ptr b)) as [->|Hne].
    - rewrite lookup_insert_eq, Hn. split; [|naive_solver]. intros (? & [= <-] & Hi).
      simpl in Hi. by rewrite Z.bits_0 in Hi.
    - by rewrite lookup_insert_ne. }
  split; rewrite ?E1, ?E2, ?E3, ?E4; try done.
  - apply NoDup_app. split_and!; [done| |apply NoDup_singleton].
    intros p Hp%H3 ->%list_elem_of_singleton. lia.
  - intros p. rewrite elem_of_app, list_elem_of_singleton, H2.
    destruct (decide (p = next_ptr b)) as [->|Hne].
    + rewrite lookup_insert_eq. split; [by eexists|by right].
    + rewrite lookup_insert_ne by done. naive_solver.
  - intros p [Hp%H3| ->%list_elem_of_singleton]%elem_of_app; lia.
  - intros p e. destruct (decide (p = next_ptr b)) as [->|Hne].
    + rewrite lookup_insert_eq. intros [= <-]. simpl. lia.
    + rewrite lookup_insert_ne by done. apply H4.
  - intros p q i Hp%Hh Hq%Hh. by eapply H6.
  - intros i. rewrite H7. by setoid_rewrite Hh.
Qed.

Lemma adf_uio_mmap_ok alloc_ok remap pid vma_ pgoff b :
  owned b →
  ∃ r b', adf_uio_mmap alloc_ok remap pid vma_ pgoff b = Some (r, b') ∧ owned b' ∧
    rings_used b' = rings_used b ∧ csr b' = csr b ∧ mem b' = mem b ∧
    (r = 0 → list_ b' = list_ b ++ [next_ptr b] ∧
      insts b' = <[next_ptr b := Inst pid 0 vma_]> (insts b)) ∧
    (r ≠ 0 → list_ b' = list_ b ∧ insts b' = insts b).
Proof.
  intros Ho. unfold adf_uio_mmap. destruct (find_mem_index pgoff <? 0).
  { exists (- EINVAL), b. split_and!; try done. }
  destruct (kzalloc_run alloc_ok b) as (b1 & R1 & (W1 & C1 & M1)). rewrite (bind_Some _ _ _ _ _ R1).
  pose proof W1 as (E1 & E2 & E3 & E4 & _). pose proof (same_book_owned _ _ W1 Ho) as Ho1.
  destruct (alloc_ok (nalloc b)); branch.
  2:{ exists (- ENOMEM), b1. by split_and!. }
  rewrite bind_gets, !bind_modify, bind_gets. simpl. set (b2 := add_bundle_refs 1 _).
  assert (owned b2) as Ho2 by by apply (add_entry_owned b1 _ pid vma_).
  destruct (Z.eqb_spec (remap (nalloc b1)) 0) as [Hz|Hnz]; simpl when.
  - rewrite bind_ret. exists (remap (nalloc b1)), b2. split; [done|]. split; [done|].
    unfold b2. simpl. rewrite E1, E2, E4. by split_and!.
  - unfold list_del. rewrite bind_assoc, bind_modify.
    set (b3 := set_list _ b2).
    assert (insts b3 !! next_ptr b1 = Some (Inst pid 0 vma_)) as Hl
      by (unfold b3, b2; simpl; by rewrite lookup_insert_eq).
    rewrite (bind_Some _ _ _ _ _ (kfree_inst_run _ _ _ Hl)).
    assert (delete (next_ptr b1) (<[next_ptr b1:=Inst pid 0 vma_]> (insts b1)) = insts b) as Hins.
    { rewrite delete_insert_id; [done|]. by apply fresh_None. }
    assert (filter (λ q, q ≠ next_ptr b1) (list_ b1 ++ [next_ptr b1]) = list_ b) as Hlist.
    { rewrite filter_app, E2, filter_fresh by (intros Hp%(o_fresh b Ho); lia).
      rewrite filter_cons_False by (intros Hp; by apply Hp). apply app_nil_r. }
    eexists _, _. split; [reflexivity|]. simpl. split; [|by rewrite Hins, Hlist].
    apply (owned_proper b); simpl; try done. lia.
Qed.

(** The list after [adf_uio_mmap_close] has looked for the process. *)
Definition fixup (pid vma_ : Z) (b : bundle) : bundle :=
  match first_entry (λ e, (user_pid e =? pid) || (vma e =? vma_)) b (list_ b) with
  | Some p =>
    match insts b !! p with
    | Some e => if user_pid e =? pid then b else set_insts (<[p := set_pid pid e]> (insts b)) b
    | None => b
    end
  | None => b
  end.

Lemma set_pid_owned b p e pid :
  owned b → insts b !! p = Some e → owned (set_insts (<[p := set_pid pid e]> (insts b)) b).
Proof.
  intros [H1 H2 H3 H4 H5 H6 H7] He. set (b' := set_insts _ b).
  assert (∀ q i, holds b' q i ↔ holds b q i) as Hh.
  { intros q i. unfold holds, b'. simpl. destruct (decide (q = p)) as [->|Hne].
    - rewrite lookup_insert_eq, He. naive_solver.
    - by rewrite lookup_insert_ne. }
  split; try done.
  - intros q. unfold b'. simpl. rewrite H2. destruct (decide (q = p)) as [->|Hne].
    + rewrite lookup_insert_eq, He. split; by eexists.
    + by rewrite lookup_insert_ne.
  - intros q f. unfold b'. simpl. destruct (decide (q = p)) as [->|Hne].
    + rewrite lookup_insert_eq. intros [= <-]. simpl. by eapply H4.
    + rewrite lookup_insert_ne by done. apply H4.
  - intros q r i Hq%Hh Hr%Hh. by eapply H6.
  - intros i. setoid_rewrite Hh. apply H7.
Qed.

Lemma fixup_ok pid vma_ b :
  owned b →
  (p <- find_entry (λ e, (user_pid e =? pid) || (vma e =? vma_)) (list_ b) ;;
   match p with
   | Some p => e <- inst p ;; if user_pid e =? pid then ret () else put_inst p (set_pid pid e)
   | None => ret ()
   end) b = Some ((), fixup pid vma_ b) ∧
  owned (fixup pid vma_ b) ∧ list_ (fixup pid vma_ b) = list_ b ∧
  rings_used (fixup pid vma_ b) = rings_used b ∧ csr (fixup pid vma_ b) = csr b ∧ mem (fixup pid vma_ b) = mem b ∧
  dev_refs (fixup pid vma_ b) = dev_refs b ∧ accel_refs (fixup pid vma_ b) = accel_refs b ∧
  bundle_refs (fixup pid vma_ b) = bundle_refs b.
Proof.
  intros Ho.
  rewrite (bind_Some _ _ _ _ _ (find_entry_run _ b (list_ b) (λ p, proj1 (o_dom b Ho p)))).
  unfold fixup. destruct (first_entry _ b (list_ b)) as [p|] eqn:Hp; [|by split_and!].
  apply first_entry_Some in Hp as (_ & e & He & _). rewrite (bind_Some _ _ _ _ _ (inst_run _ _ _ He)), He.
  destruct (user_pid e =? pid); [by split_and!|].
  rewrite (put_inst_run _ _ _ _ He). split_and!; try done. by apply set_pid_owned.
Qed.

(** The mapping of a process that has one of its own is found by its pid. *)
Lemma fixup_same pid vma_ b :
  owned b → (∀ q e, insts b !! q = Some e → vma e = vma_ → user_pid e = pid) → fixup pid vma_ b = b.
Proof.
  intros Ho Hv. unfold fixup. destruct (first_entry _ b (list_ b)) as [p|] eqn:Hp; [|done].
  apply first_entry_Some in Hp as (_ & e & He & Hor). rewrite He.
  destruct (Z.eqb_spec (user_pid e) pid) as [|Hne]; [done|]. simpl in Hor.
  apply Z.eqb_eq in Hor. by destruct Hne; eapply Hv.
Qed.

Section close.
Context (nr gap tx_rings asym_rings : Z) (alloc_ok : nat → bool) (phys_to_virt : Z → Z).
Context (device : nat → gmap Z Z * gmap Z (list Z) → gmap Z Z * gmap Z (list Z)).
Context (nr_ok : 0 <= nr <= 16) (dev_ok : device_ok nr device).

(** What closing a mapping leaves: the entry of the process is gone, its rings
    are free and silent, the others are as they were. *)
Record closed (pid : Z) (b0 b' : bundle) : Prop := {
  cl_owned : owned b';
  cl_entry : match entry_of pid b0 with
             | Some p => insts b' = delete p (insts b0) ∧ list_ b' = filter (λ q, q ≠ p) (list_ b0)
             | None => insts b' = insts b0 ∧ list_ b' = list_ b0
             end;
  cl_used : rings_used b' = clear (rings_used b0) (mask_of pid b0);
  cl_cleaned : cleaned nr (mask_of pid b0) b0 b';
  cl_refs : dev_refs b' = dev_refs b0 - 1 ∧ accel_refs b' = accel_refs b0 - 1 ∧
            bundle_refs b' = bundle_refs b0 - 1
}.

Lemma cleaned_csr mask b b1 b2 : csr b2 = csr b1 → cleaned nr mask b b1 → cleaned nr mask b b2.
Proof. intros E [H1 H2 H3]. split; rewrite E; done. Qed.

Lemma adf_uio_mmap_close_ok pid vma_ b :
  owned b → (∀ n, alloc_ok n = true) → arb_ok (arb (csr b)) →
  let b0 := fixup pid vma_ b in
  (∀ i, 0 <= i < nr → found (mask_of pid b0) b i → sane_ring phys_to_virt b i) →
  ∃ b', adf_uio_mmap_close nr gap tx_rings asym_rings alloc_ok phys_to_virt device pid vma_ false b
    = Some ((), b') ∧ closed pid b0 b'.
Proof.
  intros Ho Hall Ha b0 Hs. unfold adf_uio_mmap_close. rewrite bind_gets.
  destruct (fixup_ok pid vma_ b Ho) as (R0 & O0 & L0 & U0 & C0 & M0 & D0).
  rewrite <- bind_assoc, (bind_Some _ _ _ _ _ R0). fold b0 in O0, L0, U0, C0, M0, D0 |- *. simpl when.
  destruct (adf_uio_do_cleanup_orphan_ok nr gap tx_rings asym_rings alloc_ok phys_to_virt device
    nr_ok dev_ok pid b0 O0 Hall) as (b1 & b2 & R1 & B1 & E2 & K).
  { by rewrite C0. }
  { intros i Hi. unfold found, sane_ring. rewrite C0, M0. by apply Hs. }
  rewrite bind_assoc, (bind_Some _ _ _ _ _ R1), bind_modify. set (b3 := add_dev_refs (-1) b2).
  set (mask := mask_of pid b0) in *.
  assert (insts b3 = insts b0 ∧ list_ b3 = list_ b0 ∧ next_ptr b3 = next_ptr b0 ∧
    rings_used b3 = clear (rings_used b0) mask ∧ csr b3 = csr b2 ∧ dev_refs b3 = dev_refs b0 - 1 ∧
    accel_refs b3 = accel_refs b0 ∧ bundle_refs b3 = bundle_refs b0)
    as (I3 & L3 & N3 & U3 & C3 & D3 & A3 & F3).
  { destruct B1 as (? & ? & ? & ? & ? & ? & ?). unfold b3. rewrite E2. simpl. split_and!; try done. lia. }
  clearbody b3. assert (find_process pid b3 = Some (entry_of pid b0, b3)) as R3.
  { unfold find_process. rewrite bind_gets, L3, find_entry_run.
    - unfold entry_of, first_entry. by rewrite I3.
    - intros p Hp. rewrite I3. by apply (o_dom b0 O0). }
  rewrite (bind_Some _ _ _ _ _ R3).
  destruct (entry_of pid b0) as [p|] eqn:Hp.
  - pose proof Hp as (Hin & e & He & _)%entry_of_Some.
    assert (mask = ring_mask e) as Em by (unfold mask, mask_of; rewrite Hp; simpl; by rewrite He).
    unfold list_del. rewrite bind_assoc, bind_modify. set (b4 := set_list _ b3).
    assert (insts b4 !! p = Some e) as He4 by (unfold b4; simpl; by rewrite I3).
    rewrite (bind_Some _ _ _ _ _ (kfree_inst_run _ _ _ He4)), bind_modify.
    unfold modify at 1. eexists. split; [reflexivity|]. split; simpl.
    + apply (owned_proper (set_rings_used (clear (rings_used b0) (ring_mask e))
        (set_insts (delete p (insts b0)) (set_list (filter (λ q, q ≠ p) (list_ b0)) b0)))); simpl.
      * by rewrite I3.
      * by rewrite L3.
      * by rewrite U3, Em.
      * lia.
      * by apply remove_entry_owned.
    + rewrite Hp, I3, L3. done.
    + done.
    + by apply (cleaned_csr _ _ b2).
    + rewrite D3, A3, F3. lia.
  - rewrite bind_ret, bind_modify. unfold modify at 1. eexists. split; [reflexivity|].
    assert (mask = 0) as Em by (unfold mask, mask_of; by rewrite Hp). split; simpl.
    + apply (owned_proper b0); simpl; try done; [|lia].
      rewrite U3, Em. unfold clear. apply Z.ldiff_0_r.
    + rewrite Hp, I3, L3. done.
    + done.
    + by apply (cleaned_csr _ _ b2).
    + rewrite D3, A3, F3. lia.
Qed.

End close.
End UioCleanup.
