(* ===== verification/UioSystem.v ===== *)
(** * The processes that share a bundle

    A bundle with any number of processes that open, map, reserve, release and
    close, while they and the device write the registers and the rings' memory
    as they like: rings have one owner, and a process that goes leaves nothing
    behind. *)

From S2P Require Import Prelude UioRings UioOwner UioCleanup.
Import UioRings UioOwner UioCleanup.

#[local] Open Scope Z_scope.
#[local] Open Scope qat_scope.

Module UioSystem.

Section system.
Context (nr gap tx_rings asym_rings : Z) (alloc_ok : nat → bool) (remap : nat → Z)
  (phys_to_virt : Z → Z).
Context (device : nat → gmap Z Z * gmap Z (list Z) → gmap Z Z * gmap Z (list Z)).

Abbreviation mmap_close := (adf_uio_mmap_close nr gap tx_rings asym_rings alloc_ok phys_to_virt device).

(** A process whose rings are described by their registers as they are in
    memory: what it leaves can be cleaned. *)
Definition ready (pid vma_ : Z) (b : bundle) : Prop :=
  arb_ok (arb (csr b)) ∧
  ∀ i, 0 <= i < nr → found (mask_of pid (fixup pid vma_ b)) b i → sane_ring phys_to_virt b i.

Inductive step (b : bundle) : bundle → Prop :=
  | SOpen b' : adf_uio_open b = Some ((), b') → step b b'
  | SMmap pid vma_ pgoff r b' : adf_uio_mmap alloc_ok remap pid vma_ pgoff b = Some (r, b') → step b b'
  | SReserve pid mask r b' : 0 <= mask < 2 ^ 16 → reserve_ring pid mask b = Some (r, b') → step b b'
  | SRelease pid mask r b' : 0 <= mask < 2 ^ 16 → release_ring pid mask b = Some (r, b') → step b b'
  | SEnable mask b' : adf_enable_ring_arb mask b = Some ((), b') → step b b'
  | SDisable mask b' : adf_disable_ring_arb mask b = Some ((), b') → step b b'
  | SClose pid vma_ b' : ready pid vma_ b → mmap_close pid vma_ false b = Some ((), b') → step b b'
  | SHw c m : step b (set_csr c (set_mem m b)).

(** The bundle as it is created. *)
Definition initial (b : bundle) : Prop :=
  insts b = ∅ ∧ list_ b = [] ∧ rings_used b = 0.

Definition reachable (b : bundle) : Prop := ∃ b0, initial b0 ∧ rtc step b0 b.

Context (nr_ok : 0 <= nr <= 16) (dev_ok : device_ok nr device) (allocs : ∀ n, alloc_ok n = true).

Lemma initial_owned b : initial b → owned b.
Proof.
  intros (E1 & E2 & E3).
  assert (∀ p i, ¬ holds b p i) as Hn by (intros p i (e & He & _); by rewrite E1 in He).
  split; rewrite ?E1, ?E2, ?E3.
  - constructor.
  - intros p. rewrite elem_of_nil, lookup_empty. split; [done|by intros []].
  - by intros p ?%elem_of_nil.
  - intros p e. by rewrite lookup_empty.
  - lia.
  - intros p q i Hp. by destruct (Hn p i).
  - intros i. rewrite Z.bits_0. split; [done|]. intros [p Hp]. by destruct (Hn p i).
Qed.

Lemma step_owned b b' : step b b' → owned b → owned b'.
Proof.
  intros Hs Ho. destruct Hs as [b' E|pid v pg r b' E|pid m r b' Hm E|pid m r b' Hm E|m b' E|m b' E
    |pid v b' [Ha Hr] E|c m].
  - injection E as <-. by apply (owned_proper b); simpl; try done; lia.
  - destruct (adf_uio_mmap_ok alloc_ok remap pid v pg b Ho) as (r' & b1 & R & O & _). congruence.
  - destruct (reserve_ring_spec pid m b Ho Hm) as (r' & b1 & R & O & _). congruence.
  - destruct (release_ring_spec pid m b Ho Hm) as (r' & b1 & R & O & _). congruence.
  - injection E as <-. by apply (owned_proper b); simpl; try done; lia.
  - injection E as <-. by apply (owned_proper b); simpl; try done; lia.
  - destruct (adf_uio_mmap_close_ok nr gap tx_rings asym_rings alloc_ok phys_to_virt device nr_ok dev_ok
      pid v b Ho allocs Ha Hr) as (b1 & R & [O _ _ _ _]). congruence.
  - by apply (owned_proper b); simpl; try done; lia.
Qed.

Lemma reachable_owned b : reachable b → owned b.
Proof.
  intros (b0 & H0 & Hs). apply initial_owned in H0. revert H0.
  induction Hs as [|b0 b1 b2 Hs _ IH]; [done|]. intros. by eapply IH, step_owned.
Qed.

(** What a call did to the rings of the mappings. *)
Lemma holds_insert b b' p e m q i :
  insts b !! p = Some e → insts b' = <[p := set_mask m e]> (insts b) →
  holds b' q i ↔ if decide (q = p) then Z.testbit m i = true else holds b q i.
Proof.
  intros He E. unfold holds. rewrite E. case_decide as Hq.
  - subst q. rewrite lookup_insert_eq. naive_solver.
  - by rewrite lookup_insert_ne.
Qed.



(** When the kernel has no memory to look for the rings of a process that
    goes, they are lost: the entry is gone, but its rings stay in use although
    nobody has them, their registers are not touched, and whoever asks for one
    of them is refused. *)
Theorem cleanup_enomem_leaks b pid vma_ p j :
  reachable b → entry_of pid b = Some p →
  (∀ q e, insts b !! q = Some e → vma e = vma_ → user_pid e = pid) →
  0 <= j < nr → ring_basereg (csr b) j ≠ 0 →
  ∃ b', adf_uio_mmap_close nr gap tx_rings asym_rings (λ _, false) phys_to_virt device pid vma_ false b
      = Some ((), b') ∧
    csr b' = csr b ∧ rings_used b' = rings_used b ∧ (∀ i, ¬ holds b' p i) ∧
    ∀ i, holds b p i →
      (∀ q, ¬ holds b' q i) ∧
      ∀ pid' mask, Z.testbit mask i = true → reserve_ring pid' mask b' = Some (- EINVAL, b').
Proof.
  intros Hr Hp Hv Hj Hbase. apply reachable_owned in Hr as Ho.
  pose proof Hp as (_ & e & He & _)%entry_of_Some.
  unfold adf_uio_mmap_close. rewrite bind_gets.
  destruct (fixup_ok pid vma_ b Ho) as (R0 & _).
  rewrite <- bind_assoc, (bind_Some _ _ _ _ _ R0), (fixup_same pid vma_ b Ho Hv). simpl when.
  unfold adf_uio_do_cleanup_orphan, bundle_need_cleanup.
  destruct (need_loop_run (rings nr) b) as (need & R1 & Hneed).
  destruct need; [|destruct Hbase; apply Hneed; [done|]; apply elem_of_seqZ; lia].
  rewrite !bind_assoc, (bind_Some _ _ _ _ _ R1). branch.
  unfold get_orphan_bundle, kzalloc. rewrite !bind_assoc, bind_gets, bind_assoc, bind_modify, bind_ret.
  branch. rewrite bind_ret, bind_ret, bind_modify. set (b1 := add_dev_refs _ _).
  assert (owned b1) as Ho1 by (apply (owned_proper b); simpl; try done; lia).
  rewrite (bind_Some _ _ _ _ _ (find_process_run pid b1 Ho1)).
  change (entry_of pid b1) with (entry_of pid b). rewrite Hp. unfold list_del.
  rewrite bind_assoc, bind_modify.
  rewrite (bind_Some _ _ _ _ _ (kfree_inst_run p e (set_list (filter (λ q, q ≠ p) (list_ b1)) b1) He)).
  rewrite bind_modify. unfold modify. eexists. split; [reflexivity|]. simpl. split; [done|]. split; [done|].
  set (b' := add_bundle_refs _ _).
  assert (∀ q i, holds b' q i ↔ holds b q i ∧ q ≠ p) as Hh.
  { intros q i. unfold holds, b'. simpl. setoid_rewrite lookup_delete_Some. naive_solver. }
  split; [intros i ?%Hh; naive_solver|]. intros i Hi. split.
  - intros q [Hq Hne]%Hh. apply Hne. by eapply (o_one b Ho).
  - intros pid' mask Hm. unfold reserve_ring. rewrite bind_gets. change (rings_used b') with (rings_used b).
    destruct (Z.eqb_spec (rings_used b .& mask) 0) as [Hz|]; [|done].
    apply land_eq_0_testbit with (i := i) in Hz; [congruence|apply (o_range b Ho)|].
    apply (o_used b Ho). by exists p.
Qed.

(** [reserve_ring] finds the list element under [list_lock] and uses it when it
    has given the lock back. *)
Definition reserve_use (p mask : Z) : M bundle Z :=
  e <- inst p ;;
  put_inst p (set_mask (u16 (ring_mask e .| mask)) e) ;;
  modify (λ b, set_rings_used (u16 (rings_used b .| mask)) b) ;;
  ret 0.

Lemma reserve_ring_parts pid mask b p :
  owned b → rings_used b .& mask = 0 → entry_of pid b = Some p →
  reserve_ring pid mask b = reserve_use p mask b.
Proof.
  intros Ho Hf Hp. unfold reserve_ring. rewrite bind_gets, Hf. change (0 =? 0) with true. branch.
  by rewrite (bind_Some _ _ _ _ _ (find_process_run pid b Ho)), Hp.
Qed.

(** When another thread of the process unmaps the bundle in between, the
    element has been freed. *)
Lemma reserve_after_close b pid vma_ p b' mask :
  reachable b → entry_of pid b = Some p →
  (∀ q e, insts b !! q = Some e → vma e = vma_ → user_pid e = pid) → ready pid vma_ b →
  mmap_close pid vma_ false b = Some ((), b') → reserve_use p mask b' = None.
Proof.
  intros Hr Hp Hv [Ha Hs] Hc. apply reachable_owned in Hr as Ho.
  destruct (adf_uio_mmap_close_ok nr gap tx_rings asym_rings alloc_ok phys_to_virt device nr_ok dev_ok
    pid vma_ b Ho allocs Ha Hs) as (b1 & Hrun & [_ E _ _ _]).
  rewrite (fixup_same pid vma_ b Ho Hv), Hp in E. destruct E as [E _].
  assert (b1 = b') as -> by congruence.
  unfold reserve_use, inst. by rewrite bind_assoc, bind_gets, E, lookup_delete_eq.
Qed.

End system.
(** ** Two processes

    Process 100 has rings 0 and 8, process 200 rings 1 and 9, of 4 kilobytes
    each; the device answers the null message on ring 8 while the driver sleeps
    for the first time. *)
Module Example.

Definition alloc_ok : nat → bool := λ _, true.
Definition remap : nat → Z := λ _, 0.
Definition phys_to_virt (p : Z) : Z := p + 0xffff888000000000.
Definition null_rsp : list Z := [0x80000000; 0; 0xdeadbeef; 0xdeadbeef; 0; 0; 0; 0].
Definition rsp_virt : Z := phys_to_virt 0x20000.

Definition device (n : nat) (s : gmap Z Z * gmap Z (list Z)) : gmap Z Z * gmap Z (list Z) :=
  let '(c, m) := s in
  if 32 <=? ring_bytes c 8 then
    (<[0x120 := 32]> c,
     match m !! rsp_virt with
     | Some buf => if (8 <=? length buf)%nat then <[rsp_virt := null_rsp ++ drop 8 buf]> m else m
     | None => m
     end)
  else (c, m).

Lemma device_fits : device_ok 16 device.
Proof.
  intros n c m. unfold device. destruct (Z.leb_spec 32 (ring_bytes c 8)) as [Hn|].
  2:{ split; [done|]. split; [done|]. intros p buf Hp. by exists buf. }
  split; [by apply reg_insert_ne|]. split.
  - intros i Hi. unfold headreg, tailreg, ring_regs. rewrite !(reg_insert_ne c 0x120) by lia.
    split; [done|]. split; [done|].
    destruct (decide (i = 8)) as [->|]; [|by rewrite reg_insert_ne by lia].
    intros _. change (0x100 + 4 * 8) with 0x120. rewrite reg_insert_eq. split; [lia|done].
  - intros p buf Hp. destruct (m !! rsp_virt) as [b0|] eqn:E; [|by exists buf].
    destruct (Nat.leb_spec 8 (length b0)); [|by exists buf].
    destruct (decide (p = rsp_virt)) as [->|]; [|exists buf; by rewrite lookup_insert_ne].
    rewrite lookup_insert_eq. eexists. split; [done|]. assert (buf = b0) as -> by congruence.
    simpl. rewrite length_drop. lia.
Qed.

Definition after {A} (m : M bundle A) (b : bundle) : bundle :=
  match m b with Some (_, b') => b' | None => b end.
Lemma run_after {A} (m : M bundle A) b r : fst <$> m b = Some r → m b = Some (r, after m b).
Proof. unfold after. by destruct (m b) as [[]|]; intros [= <-]. Qed.

Definition b0 : bundle := Bundle ∅ [] 0 ∅ ∅ 0 1 1 1 0 0.
Definition b1 := after (adf_uio_mmap alloc_ok remap 100 1 0) b0.
Definition b2 := after (adf_uio_mmap alloc_ok remap 200 2 0) b1.
Definition b3 := after (reserve_ring 100 0x101) b2.
Definition b4 := after (reserve_ring 200 0x202) b3.
Definition regs : gmap Z Z :=
  {[ 0x000 := 0x06; 0x020 := 0x06; 0x004 := 0x06; 0x024 := 0x06;
     0x040 := 0x400; 0x060 := 0x800; 0x044 := 0xc00; 0x064 := 0x1000;
     0x19C := 0x03 ]}.
Definition buffer : list Z := replicate 1024 0x7F7F7F7F.
Definition memory : gmap Z (list Z) :=
  {[ phys_to_virt 0x10000 := buffer; phys_to_virt 0x20000 := buffer;
     phys_to_virt 0x30000 := buffer; phys_to_virt 0x40000 := buffer ]}.
Definition b5 := set_csr regs (set_mem memory b4).

Abbreviation reachable := (reachable 16 8 0xff 0x01 alloc_ok remap phys_to_virt device).

Lemma b5_reachable : reachable b5.
Proof.
  exists b0. split; [done|].
  eapply rtc_l; [eapply SMmap, (run_after (adf_uio_mmap alloc_ok remap 100 1 0) b0 0); by vm_compute|].
  eapply rtc_l; [eapply SMmap, (run_after (adf_uio_mmap alloc_ok remap 200 2 0) b1 0); by vm_compute|].
  eapply rtc_l; [eapply SReserve, (run_after (reserve_ring 100 0x101) b2 0); [lia|by vm_compute]|].
  eapply rtc_l; [eapply SReserve, (run_after (reserve_ring 200 0x202) b3 0); [lia|by vm_compute]|].
  apply rtc_once, SHw.
Qed.


Lemma ready_100 : ready 16 phys_to_virt 100 1 b5.
Proof.
  split; [by vm_compute|]. intros i Hi [Hm _].
  assert (mask_of 100 (fixup 100 1 b5) = 0x101) as Em by by vm_compute. rewrite Em in Hm.
  assert (i = 0 ∨ i = 8) as [->| ->].
  { assert (i ∈ seqZ 0 16) as Hin by (apply elem_of_seqZ; lia).
    revert Hm. repeat (apply elem_of_cons in Hin as [->|Hin]; [try (by auto); by vm_compute|]).
    by apply elem_of_nil in Hin. }
  - split; [by vm_compute|]. split; [by vm_compute|]. split; [by vm_compute|].
    exists buffer. split; [by vm_compute|]. split; by vm_compute.
  - split; [by vm_compute|]. split; [by vm_compute|]. split; [by vm_compute|].
    exists buffer. split; [by vm_compute|]. split; by vm_compute.
Qed.

Lemma vma_100 q e : insts b5 !! q = Some e → vma e = 1 → user_pid e = 100.
Proof.
  assert (insts b5 = {[1 := Inst 100 0x101 1; 2 := Inst 200 0x202 2]}) as -> by by vm_compute.
  rewrite lookup_insert_Some. intros [[_ <-]|[_ H]]; [done|].
  by apply lookup_singleton_Some in H as [_ <-].
Qed.


Lemma cleanup_enomem_leaks_witness :
  ∃ b', adf_uio_mmap_close 16 8 0xff 0x01 (λ _, false) phys_to_virt device 100 1 false b5 = Some ((), b') ∧
    reserve_ring 200 0x100 b' = Some (- EINVAL, b').
Proof.
  destruct (cleanup_enomem_leaks 16 8 0xff 0x01 alloc_ok remap phys_to_virt device ltac:(lia)
    device_fits (λ _, eq_refl) b5 100 1 1 0 b5_reachable ltac:(by vm_compute) vma_100 ltac:(lia)
    ltac:(by vm_compute)) as (b' & Hrun & _ & _ & _ & H).
  exists b'. split; [exact Hrun|]. clear Hrun.
  destruct (H 8) as [_ Hr]; [exists (Inst 100 0x101 1); by vm_compute|]. by apply Hr.
Defined.

End Example.
End UioSystem.
