(* ===== verification/UserRing.v ===== *)
(** * The rings of a process

    Models [uio_user_ring.c] and [adf_user_ETring_mgr_dp.c], the polling of
    [adf_user_transport_ctrl.c] and what they need of
    [adf_platform_common.h]: how a process puts messages on the rings the kernel
    lent it ([UioRings]) and takes the responses off.  The functions of the ring
    memory -- the copies and the words -- are those of [Ring].  A handle, a
    counter of requests in flight and a ring's memory are objects behind
    pointers; registers are at addresses of the mapped bundle. *)

From S2P Require Import Prelude Ring.

#[local] Open Scope Z_scope.
#[local] Open Scope qat_scope.

Module UserRing.

Definition CPA_STATUS_RETRY := -2.
Definition EMPTY_RING_SIG_WORD := 0x7f7f7f7f.
Definition ICP_RINGSIZE_KILO_1 := 0x04.
Definition ICP_RINGSIZE_KILO_16 := 0x08.
Definition ICP_RINGSIZE_MEG_4 := 0x10.
Definition MODULO_SHIFT_FOR_1K := 10.
Definition MODULO_SHIFT_FOR_16K := 14.
Definition MODULO_SHIFT_FOR_4M := 22.
Definition ICP_NO_RESPONSE_QUOTA := 10000.
Definition MIN_RESPONSES_PER_HEAD_WRITE := 32.
Definition ADF_MSG_SIZE_64_BYTES := 64.
Definition ADF_MSG_SIZE_128_BYTES := 128.
Definition ICP_ETR_MAX_RINGS_PER_BANK := 16.
Definition ICP_ADF_BYTES_PER_WORD := 4.

Definition ICP_ET_SIZE_TO_BYTES (size : Z) : Z := Z.shiftl 64 size.

Definition modulo (data shift : Z) : Z :=
  let div := Z.shiftr data shift in
  let mult := u32 (Z.shiftl div shift) in
  u32 (data - mult).

(** ** The size of a ring *)

(** [while (kbytes > 0)]: the number of rounds. *)
Fixpoint size_loop (fuel : nat) (kbytes k_size : Z) : Z :=
  match fuel with
  | O => k_size
  | S fuel => if 0 <? kbytes then size_loop fuel (Z.shiftr kbytes 1) (k_size + 1) else k_size
  end.

(** The size code, and [*modulo_value]. *)
Definition validateRingSize (num_msgs_on_ring msg_size_in_bytes : Z) : Z * Z :=
  let size_in_bytes := u32 (num_msgs_on_ring * msg_size_in_bytes) in
  let max_ring_bytes := ICP_ET_SIZE_TO_BYTES ICP_RINGSIZE_MEG_4 in
  if (num_msgs_on_ring <=? 0) || (msg_size_in_bytes <=? 0)
     || negb (modulo msg_size_in_bytes 4 =? 0)
  then (ICP_RINGSIZE_KILO_16, MODULO_SHIFT_FOR_16K)
  else if size_in_bytes <=? max_ring_bytes then
    let kbytes := Z.shiftr (u32 (size_in_bytes - 1)) MODULO_SHIFT_FOR_1K in
    let k_size := size_loop 33 kbytes 0 in
    (ICP_RINGSIZE_KILO_1 + k_size, MODULO_SHIFT_FOR_1K + k_size)
  else (ICP_RINGSIZE_MEG_4, MODULO_SHIFT_FOR_4M).

(** ** Handles *)

Inductive icp_resp_deliv_method :=
  ICP_RESP_TYPE_NONE | ICP_RESP_TYPE_IRQ | ICP_RESP_TYPE_POLL | ICP_RESP_TYPE_DELIMIT.

#[export] Instance icp_resp_deliv_method_eq_dec : EqDecision icp_resp_deliv_method.
Proof. solve_decision. Defined.

(** [struct adf_dev_ring_handle_s] *)
Record adf_dev_ring_handle_t := Handle {
  accel_dev : Z;  (** 0 for NULL *)
  bank_num : Z;
  bank_offset : Z;
  ring_num : Z;
  ring_size : Z;
  message_size : Z;
  callback : Z;
  resp : icp_resp_deliv_method;  (** how responses are delivered *)
  ring_virt_addr : Z;
  ring_phys_base_addr : Z;
  interrupt_user_mask : Z;
  pollingMask : Z;
  bank_data : Z;  (** the number of its bank *)
  head : Z;
  tail : Z;
  modulo_ : Z;  (** log2 of the ring in bytes *)
  ringResponseQuota : Z;
  pollingInProgress : Z;
  in_flight : Z;  (** address of the counter it shares with its pair *)
  max_requests_inflight : Z;
  coal_write_count : Z;
  min_resps_per_head_write : Z;
  csrTailOffset : Z;
  csr_addr : Z
}.

Definition set_head v h :=
  Handle (accel_dev h) (bank_num h) (bank_offset h) (ring_num h) (ring_size h) (message_size h)
    (callback h) (resp h) (ring_virt_addr h) (ring_phys_base_addr h) (interrupt_user_mask h)
    (pollingMask h) (bank_data h) v (tail h) (modulo_ h) (ringResponseQuota h)
    (pollingInProgress h) (in_flight h) (max_requests_inflight h) (coal_write_count h)
    (min_resps_per_head_write h) (csrTailOffset h) (csr_addr h).
Definition set_tail v h :=
  Handle (accel_dev h) (bank_num h) (bank_offset h) (ring_num h) (ring_size h) (message_size h)
    (callback h) (resp h) (ring_virt_addr h) (ring_phys_base_addr h) (interrupt_user_mask h)
    (pollingMask h) (bank_data h) (head h) v (modulo_ h) (ringResponseQuota h)
    (pollingInProgress h) (in_flight h) (max_requests_inflight h) (coal_write_count h)
    (min_resps_per_head_write h) (csrTailOffset h) (csr_addr h).
Definition set_quota v h :=
  Handle (accel_dev h) (bank_num h) (bank_offset h) (ring_num h) (ring_size h) (message_size h)
    (callback h) (resp h) (ring_virt_addr h) (ring_phys_base_addr h) (interrupt_user_mask h)
    (pollingMask h) (bank_data h) (head h) (tail h) (modulo_ h) v (pollingInProgress h)
    (in_flight h) (max_requests_inflight h) (coal_write_count h) (min_resps_per_head_write h)
    (csrTailOffset h) (csr_addr h).
Definition set_polling v h :=
  Handle (accel_dev h) (bank_num h) (bank_offset h) (ring_num h) (ring_size h) (message_size h)
    (callback h) (resp h) (ring_virt_addr h) (ring_phys_base_addr h) (interrupt_user_mask h)
    (pollingMask h) (bank_data h) (head h) (tail h) (modulo_ h) (ringResponseQuota h) v
    (in_flight h) (max_requests_inflight h) (coal_write_count h) (min_resps_per_head_write h)
    (csrTailOffset h) (csr_addr h).
Definition set_coal v h :=
  Handle (accel_dev h) (bank_num h) (bank_offset h) (ring_num h) (ring_size h) (message_size h)
    (callback h) (resp h) (ring_virt_addr h) (ring_phys_base_addr h) (interrupt_user_mask h)
    (pollingMask h) (bank_data h) (head h) (tail h) (modulo_ h) (ringResponseQuota h)
    (pollingInProgress h) (in_flight h) (max_requests_inflight h) v (min_resps_per_head_write h)
    (csrTailOffset h) (csr_addr h).
Definition set_csr_tail v h :=
  Handle (accel_dev h) (bank_num h) (bank_offset h) (ring_num h) (ring_size h) (message_size h)
    (callback h) (resp h) (ring_virt_addr h) (ring_phys_base_addr h) (interrupt_user_mask h)
    (pollingMask h) (bank_data h) (head h) (tail h) (modulo_ h) (ringResponseQuota h)
    (pollingInProgress h) (in_flight h) (max_requests_inflight h) (coal_write_count h)
    (min_resps_per_head_write h) v (csr_addr h).

(** [struct adf_dev_bank_handle_s]; [rings] holds the handles, 0 for NULL, and is
    [None] when it is NULL itself. *)
Record adf_dev_bank_handle_t := Bank {
  bank_offset_b : Z;
  interrupt_mask : Z;
  pollingMask_b : Z;
  tx_rings_mask : Z;
  ring_mask_b : Z;
  csr_addr_b : Z;
  bundle : Z;
  rings : option (list Z)
}.

(** The process: its handles, banks, counters, the memory of its rings in 32-bit
    words, the registers, and the callbacks called with their message. *)
Record proc := Proc {
  handles : gmap Z adf_dev_ring_handle_t;
  banks : list adf_dev_bank_handle_t;
  counters : gmap Z Z;
  mem : gmap Z (list Z);
  csr : gmap Z Z;
  calls : list (Z * list Z)
}.

Definition set_handles v p := Proc v (banks p) (counters p) (mem p) (csr p) (calls p).
Definition set_banks v p := Proc (handles p) v (counters p) (mem p) (csr p) (calls p).
Definition set_counters v p := Proc (handles p) (banks p) v (mem p) (csr p) (calls p).
Definition set_mem v p := Proc (handles p) (banks p) (counters p) v (csr p) (calls p).
Definition set_csr v p := Proc (handles p) (banks p) (counters p) (mem p) v (calls p).
Definition set_calls v p := Proc (handles p) (banks p) (counters p) (mem p) (csr p) v.

Definition handle (h : Z) : M proc adf_dev_ring_handle_t :=
  o <- gets (λ p, handles p !! h) ;; lift o.
Definition put_handle (h : Z) (r : adf_dev_ring_handle_t) : M proc () :=
  handle h ;; modify (λ p, set_handles (<[h := r]> (handles p)) p).
Definition upd_handle (h : Z) (f : adf_dev_ring_handle_t → adf_dev_ring_handle_t) : M proc () :=
  r <- handle h ;; put_handle h (f r).
Definition ring_mem (v : Z) : M proc (list Z) := o <- gets (λ p, mem p !! v) ;; lift o.
Definition put_mem (v : Z) (buf : list Z) : M proc () :=
  modify (λ p, set_mem (<[v := buf]> (mem p)) p).
Definition counter (a : Z) : M proc Z := o <- gets (λ p, counters p !! a) ;; lift o.
Definition put_counter (a v : Z) : M proc () :=
  counter a ;; modify (λ p, set_counters (<[a := u32 v]> (counters p)) p).

(** [__sync_add_and_fetch] on a [Cpa32U]; subtraction with a negative [n]. *)
Definition sync_add_and_fetch (a n : Z) : M proc Z :=
  v <- counter a ;; put_counter a (v + n) ;; ret (u32 (v + n)).

(** ** Registers *)

Definition csr_wr (base off v : Z) : M proc () :=
  modify (λ p, set_csr (<[base + off := u32 v]> (csr p)) p).
Definition csr_rd (base off : Z) : M proc Z := gets (λ p, default 0 (csr p !! (base + off))).
Definition WRITE_CSR_RING_HEAD base bank_offset ring value :=
  csr_wr base (bank_offset + 0x0C0 + Z.shiftl ring 2) value.
Definition WRITE_CSR_RING_TAIL base bank_offset ring value :=
  csr_wr base (bank_offset + 0x100 + Z.shiftl ring 2) value.
Definition WRITE_CSR_INT_COL_EN base bank_offset value := csr_wr base (bank_offset + 0x17C) value.
Definition READ_CSR_E_STAT base bank_offset := csr_rd base (bank_offset + 0x14C).

(** ** Sending *)

(** The next value of [head] or [tail]. *)
Definition next (h : adf_dev_ring_handle_t) (off : Z) : Z :=
  modulo (u32 (off + message_size h)) (modulo_ h).

(** [NULL] is 0 for a handle and [None] for a message. *)
Definition adf_user_put_msg (ring : Z) (inBuf : option (list Z)) : M proc Z :=
  if ring =? 0 then ret CPA_STATUS_INVALID_PARAM else
  match inBuf with
  | None => ret CPA_STATUS_INVALID_PARAM
  | Some msg =>
    r <- handle ring ;;
    if accel_dev r =? 0 then ret CPA_STATUS_INVALID_PARAM else
    flight <- sync_add_and_fetch (in_flight r) 1 ;;
    if max_requests_inflight r <? flight then
      sync_add_and_fetch (in_flight r) (-1) ;; ret CPA_STATUS_RETRY
    else if (message_size r =? ADF_MSG_SIZE_64_BYTES) || (message_size r =? ADF_MSG_SIZE_128_BYTES) then
      buf <- ring_mem (ring_virt_addr r) ;;
      buf <- lift (Ring.memcpy_words buf (tail r) msg (message_size r)) ;;
      put_mem (ring_virt_addr r) buf ;;
      let t := next r (tail r) in
      upd_handle ring (set_tail t) ;;
      WRITE_CSR_RING_TAIL (csr_addr r) (bank_offset r) (ring_num r) t ;;
      upd_handle ring (set_csr_tail t) ;;
      ret CPA_STATUS_SUCCESS
    else ret CPA_STATUS_FAIL
  end.

(** ** Receiving *)

(** The loop of the three functions that take responses, from [n] taken so far;
    [quota] is [None] where there is none. *)
Fixpoint notify_loop (fuel : nat) (ring : Z) (quota : option Z) (n : Z) : M proc Z :=
  match fuel with
  | O => fault
  | S fuel =>
    r <- handle ring ;;
    buf <- ring_mem (ring_virt_addr r) ;;
    w <- lift (Ring.load_word buf (head r)) ;;
    if negb (w =? EMPTY_RING_SIG_WORD) && (match quota with Some q => n <? q | None => true end) then
      modify (λ p, set_calls (calls p ++ [(callback r, Ring.load_msg buf (head r) (message_size r))]) p) ;;
      buf <- lift (Ring.store_word buf (head r) EMPTY_RING_SIG_WORD) ;;
      put_mem (ring_virt_addr r) buf ;;
      upd_handle ring (set_head (next r (head r))) ;;
      notify_loop fuel ring quota (n + 1)
    else ret n
  end.
Definition notify_fuel : nat := Z.to_nat (2 ^ 18 + 1).

(** What is done when [n > 0] responses have been taken; [always]: the head is
    written whatever their number. *)
Definition notify_end (ring : Z) (n : Z) (always : bool) : M proc () :=
  r <- handle ring ;;
  sync_add_and_fetch (in_flight r) (- n) ;;
  if (coal_write_count r <? n) || always then
    upd_handle ring (set_coal (min_resps_per_head_write r)) ;;
    WRITE_CSR_RING_HEAD (csr_addr r) (bank_offset r) (ring_num r) (head r)
  else upd_handle ring (set_coal (u32 (coal_write_count r - n))).

Definition adf_user_notify_msgs (ring : Z) : M proc Z :=
  if ring =? 0 then ret CPA_STATUS_INVALID_PARAM else
  n <- notify_loop notify_fuel ring None 0 ;;
  when (0 <? n) (notify_end ring n false) ;;
  ret 0.

Definition adf_user_notify_msgs_poll (ring : Z) : M proc Z :=
  r <- handle ring ;;
  let quota := if negb (ringResponseQuota r =? 0) then ringResponseQuota r else ICP_NO_RESPONSE_QUOTA in
  n <- notify_loop notify_fuel ring (Some quota) 0 ;;
  if 0 <? n then
    notify_end ring n (bool_decide (resp r = ICP_RESP_TYPE_IRQ)) ;;
    ret CPA_STATUS_SUCCESS
  else ret CPA_STATUS_RETRY.

(** Only one thread at a time gets past [osalAtomicDecAndTest]. *)
Definition adf_pollRing (ring response_quota : Z) : M proc Z :=
  r <- handle ring ;;
  let v := pollingInProgress r - 1 in
  upd_handle ring (set_polling v) ;;
  if v =? 0 then
    upd_handle ring (set_quota response_quota) ;;
    status <- adf_user_notify_msgs_poll ring ;;
    upd_handle ring (set_polling 1) ;;
    ret status
  else ret CPA_STATUS_RETRY.

(** ** The transport functions *)

Definition icp_adf_transPutMsg (trans_handle : Z) (inBuf : option (list Z)) (bufLen : Z) : M proc Z :=
  if trans_handle =? 0 then ret CPA_STATUS_INVALID_PARAM else
  r <- handle trans_handle ;;
  if negb (u32 (bufLen * ICP_ADF_BYTES_PER_WORD) =? message_size r) then ret CPA_STATUS_INVALID_PARAM
  else adf_user_put_msg trans_handle inBuf.

Definition icp_adf_transGetRingNum (trans_handle : Z) : M proc (Z * Z) :=
  if trans_handle =? 0 then ret (CPA_STATUS_INVALID_PARAM, 0) else
  r <- handle trans_handle ;;
  ret (CPA_STATUS_SUCCESS, u32 (bank_num r * ICP_ETR_MAX_RINGS_PER_BANK + ring_num r)).

Definition get_bank (b : Z) : M proc adf_dev_bank_handle_t :=
  o <- gets (λ p, aget (banks p) b) ;; lift o.

(** The rings of a bank: how many were polled with success. *)
Fixpoint poll_rings (l : list Z) (csrVal interrupts response_quota total : Z) : M proc Z :=
  match l with
  | [] => ret total
  | h :: l =>
    if h =? 0 then poll_rings l csrVal interrupts response_quota total else
    r <- handle h ;;
    if csrVal .& pollingMask r =? 0 then poll_rings l csrVal interrupts response_quota total else
    status <- adf_pollRing h response_quota ;;
    r <- handle h ;;
    when (bool_decide (resp r = ICP_RESP_TYPE_IRQ))
      (WRITE_CSR_INT_COL_EN (csr_addr r) (bank_offset r) interrupts) ;;
    poll_rings l csrVal interrupts response_quota
      (if status =? CPA_STATUS_SUCCESS then total + 1 else total)
  end.

(** [dev_found]: whether there is a device with that id; it is this process's. *)
Definition icp_sal_pollBank (dev_found : bool) (bank_number response_quota : Z) : M proc Z :=
  if negb dev_found then ret CPA_STATUS_INVALID_PARAM else
  n <- gets (λ p, Z.of_nat (length (banks p))) ;;
  if n <=? bank_number then ret CPA_STATUS_INVALID_PARAM else
  bank <- get_bank bank_number ;;
  v <- READ_CSR_E_STAT (csr_addr_b bank) (bank_offset_b bank) ;;
  let csrVal := clear (2 ^ 32 - 1) v in
  if csrVal .& pollingMask_b bank =? 0 then ret CPA_STATUS_RETRY else
  hs <- lift (rings bank) ;;
  total <- poll_rings hs csrVal (interrupt_mask bank) response_quota 0 ;;
  ret (if negb (total =? 0) then CPA_STATUS_SUCCESS else CPA_STATUS_RETRY).

Fixpoint poll_banks (l : list Z) (response_quota total : Z) : M proc Z :=
  match l with
  | [] => ret total
  | b :: l =>
    bank <- get_bank b ;;
    if pollingMask_b bank =? 0 then poll_banks l response_quota total else
    status <- icp_sal_pollBank true b response_quota ;;
    poll_banks l response_quota (if status =? CPA_STATUS_SUCCESS then total + 1 else total)
  end.

Definition icp_sal_pollAllBanks (dev_found : bool) (response_quota : Z) : M proc Z :=
  if negb dev_found then ret CPA_STATUS_INVALID_PARAM else
  n <- gets (λ p, Z.of_nat (length (banks p))) ;;
  total <- poll_banks (seqZ 0 n) response_quota 0 ;;
  ret (if negb (total =? 0) then CPA_STATUS_SUCCESS else CPA_STATUS_RETRY).

(** The handles of an instance; [None] when one of them is NULL. *)
Fixpoint poll_handles (l : list Z) (response_quota total : Z) : M proc (option Z) :=
  match l with
  | [] => ret (Some total)
  | h :: l =>
    if h =? 0 then ret None else
    r <- handle h ;;
    if pollingMask r =? 0 then poll_handles l response_quota total else
    status <- adf_pollRing h response_quota ;;
    r <- handle h ;;
    when (bool_decide (resp r = ICP_RESP_TYPE_IRQ))
      (bank <- get_bank (bank_data r) ;;
       WRITE_CSR_INT_COL_EN (csr_addr r) (bank_offset r) (interrupt_mask bank)) ;;
    poll_handles l response_quota (if status =? CPA_STATUS_SUCCESS then total + 1 else total)
  end.

Definition icp_adf_pollInstance (trans_hnd : option (list Z)) (response_quota : Z) : M proc Z :=
  match trans_hnd with
  | None => ret CPA_STATUS_INVALID_PARAM
  | Some l =>
    first <- lift (list.head l) ;;
    if first =? 0 then ret CPA_STATUS_FAIL else
    total <- poll_handles l response_quota 0 ;;
    ret (match total with
         | None => CPA_STATUS_FAIL
         | Some total => if negb (total =? 0) then CPA_STATUS_SUCCESS else CPA_STATUS_RETRY
         end)
  end.

(** ** The data plane

    The client writes its messages into the ring itself.  A pointer into a ring
    is the address of its memory with an offset; [None] is NULL. *)

Definition icp_adf_getQueueMemory (trans_hnd numberRequests : Z) : M proc (option (Z * Z)) :=
  r <- handle trans_hnd ;;
  v <- counter (in_flight r) ;;
  let flight := u32 (v + numberRequests) in
  if max_requests_inflight r <=? flight then ret None else
  put_counter (in_flight r) flight ;;
  ret (Some (ring_virt_addr r, tail r)).

Definition icp_adf_getSingleQueueAddr (trans_hnd : Z) : M proc (option (Z * Z)) :=
  r <- handle trans_hnd ;;
  v <- counter (in_flight r) ;;
  let flight := u32 (v + 1) in
  if max_requests_inflight r <=? flight then ret None else
  put_counter (in_flight r) flight ;;
  upd_handle trans_hnd (set_tail (next r (tail r))) ;;
  ret (Some (ring_virt_addr r, tail r)).

Definition icp_adf_getQueueNext (trans_hnd : Z) : M proc (Z * Z) :=
  r <- handle trans_hnd ;;
  upd_handle trans_hnd (set_tail (next r (tail r))) ;;
  ret (ring_virt_addr r, next r (tail r)).

Definition icp_adf_updateQueueTail (trans_hnd : Z) : M proc () :=
  r <- handle trans_hnd ;;
  WRITE_CSR_RING_TAIL (csr_addr r) (bank_offset r) (ring_num r) (tail r) ;;
  upd_handle trans_hnd (set_csr_tail (tail r)).

Definition icp_adf_isRingEmpty (trans_hnd : Z) : M proc bool :=
  r <- handle trans_hnd ;;
  v <- READ_CSR_E_STAT (csr_addr r) (bank_offset r) ;;
  let mask := clear (2 ^ 32 - 1) v in
  ret (mask .& BIT (ring_num r) =? 0).

Definition icp_adf_pollQueue (trans_hnd response_quota : Z) : M proc Z :=
  let quota := if response_quota =? 0 then ICP_NO_RESPONSE_QUOTA else response_quota in
  n <- notify_loop notify_fuel trans_hnd (Some quota) 0 ;;
  if 0 <? n then notify_end trans_hnd n false ;; ret CPA_STATUS_SUCCESS
  else ret CPA_STATUS_RETRY.

Definition icp_adf_queueDataToSend (trans_hnd : Z) : M proc bool :=
  r <- handle trans_hnd ;;
  ret (negb (tail r =? csrTailOffset r)).

End UserRing.
