(* ===== verification/UserRingSys.v ===== *)
(** * A ring pair in user space

    The functions of [UserRing] cut where another thread or the device can run
    in between, as the steps of a system: threads that send, one at a time under
    the lock of the request ring; any number of threads that poll, held apart by
    [pollingInProgress]; and the device, which sees the tail in its register.
    Unlike in the kernel, the poller gives the requests in flight back only when
    it is done.  The system is simulated by [RingSys], so that what is proved
    there about the kernel's rings holds for those of a process. *)

From S2P Require Import Prelude Ring RingSys UserRing.
Import UserRing.

#[local] Open Scope Z_scope.
#[local] Open Scope qat_scope.

Module UserRingSys.

(** ** The pieces of the functions *)

(** [adf_user_put_msg] up to the check, its compensation, and its rest. *)
Definition put_claim (ring : Z) : M proc bool :=
  r <- handle ring ;;
  flight <- sync_add_and_fetch (in_flight r) 1 ;;
  ret (negb (max_requests_inflight r <? flight)).
Definition put_refund (ring : Z) : M proc () :=
  r <- handle ring ;; sync_add_and_fetch (in_flight r) (-1) ;; ret ().
Definition put_copy (ring : Z) (msg : list Z) : M proc () :=
  r <- handle ring ;;
  buf <- ring_mem (ring_virt_addr r) ;;
  buf <- lift (Ring.memcpy_words buf (tail r) msg (message_size r)) ;;
  put_mem (ring_virt_addr r) buf ;;
  upd_handle ring (set_tail (next r (tail r))) ;;
  WRITE_CSR_RING_TAIL (csr_addr r) (bank_offset r) (ring_num r) (next r (tail r)) ;;
  upd_handle ring (set_csr_tail (next r (tail r))).

(** [adf_pollRing] up to the test, an iteration of the loop up to the callback
    ([room]: the quota is not used up), its rest, what follows the loop, and the
    end. *)
Definition poll_try (ring response_quota : Z) : M proc bool :=
  r <- handle ring ;;
  upd_handle ring (set_polling (pollingInProgress r - 1)) ;;
  if pollingInProgress r - 1 =? 0 then upd_handle ring (set_quota response_quota) ;; ret true
  else ret false.
Definition take_one (ring : Z) (room : bool) : M proc (option (list Z)) :=
  r <- handle ring ;;
  buf <- ring_mem (ring_virt_addr r) ;;
  w <- lift (Ring.load_word buf (head r)) ;;
  if (w =? EMPTY_RING_SIG_WORD) || negb room then ret None else
  let msg := Ring.load_msg buf (head r) (message_size r) in
  modify (λ p, set_calls (calls p ++ [(callback r, msg)]) p) ;;
  ret (Some msg).
Definition clear_one (ring : Z) : M proc () :=
  r <- handle ring ;;
  buf <- ring_mem (ring_virt_addr r) ;;
  buf <- lift (Ring.store_word buf (head r) EMPTY_RING_SIG_WORD) ;;
  put_mem (ring_virt_addr r) buf ;;
  upd_handle ring (set_head (next r (head r))).
Definition poll_return (ring n : Z) (always : bool) : M proc () :=
  when (0 <? n) (notify_end ring n always).
Definition poll_leave (ring : Z) : M proc () := upd_handle ring (set_polling 1).

(** ** The system *)

Inductive sender := Ready | Sending (m : list Z) | Refused.
Inductive poller := Taking (n : Z) | Clearing (n : Z) | Leaving.

Record usys := USys {
  up : proc;
  snd_ : sender;                 (** the thread that has the lock, if any *)
  pollers : list poller;         (** the threads past the test *)
  hw_head : Z;
  hw_tail : Z;
  busy : list (list Z);
  taken : nat;
  committed : list (list Z);
  responded : list (list Z);
  delivered : list (list Z)
}.

(** The tail register of a ring, as the device reads it. *)
Definition tail_reg (p : proc) (r : adf_dev_ring_handle_t) : Z :=
  default 0 (csr p !! (csr_addr r + (bank_offset r + 0x100 + Z.shiftl (ring_num r) 2))).

Section system.
Context (response : list Z → list Z) (tx rx : Z).

Inductive ustep : usys → usys → Prop :=
  | UClaim m p p' r ps hh ht bu tk co re de ok :
      handles p !! tx = Some r → Z.of_nat (length m) * 4 = message_size r →
      put_claim tx p = Some (ok, p') →
      ustep (USys p Ready ps hh ht bu tk co re de)
        (USys p' (if ok then Sending m else Refused) ps hh ht bu tk co re de)
  | URefund p p' ps hh ht bu tk co re de :
      put_refund tx p = Some ((), p') →
      ustep (USys p Refused ps hh ht bu tk co re de) (USys p' Ready ps hh ht bu tk co re de)
  | UCopy m p p' ps hh ht bu tk co re de :
      put_copy tx m p = Some ((), p') →
      ustep (USys p (Sending m) ps hh ht bu tk co re de)
        (USys p' Ready ps hh ht bu tk (co ++ [m]) re de)
  | UTry sd ok q p p' ps hh ht bu tk co re de :
      poll_try rx q p = Some (ok, p') →
      ustep (USys p sd ps hh ht bu tk co re de)
        (USys p' sd (if ok then ps ++ [Taking 0] else ps) hh ht bu tk co re de)
  | UTake sd i n m room p p' ps hh ht bu tk co re de :
      ps !! i = Some (Taking n) → take_one rx room p = Some (Some m, p') →
      ustep (USys p sd ps hh ht bu tk co re de)
        (USys p' sd (<[i := Clearing n]> ps) hh ht bu tk co re (de ++ [m]))
  | UClear sd i n p p' ps hh ht bu tk co re de :
      ps !! i = Some (Clearing n) → clear_one rx p = Some ((), p') →
      ustep (USys p sd ps hh ht bu tk co re de)
        (USys p' sd (<[i := Taking (n + 1)]> ps) hh ht bu tk co re de)
  | UReturn sd i n always p p' ps hh ht bu tk co re de :
      ps !! i = Some (Taking n) → poll_return rx n always p = Some ((), p') →
      ustep (USys p sd ps hh ht bu tk co re de)
        (USys p' sd (<[i := Leaving]> ps) hh ht bu tk co re de)
  | ULeave sd i p p' ps hh ht bu tk co re de :
      ps !! i = Some Leaving → poll_leave rx p = Some ((), p') →
      ustep (USys p sd ps hh ht bu tk co re de)
        (USys p' sd (delete i ps) hh ht bu tk co re de)
  | UHwTake sd r buf p ps hh ht bu tk co re de :
      handles p !! tx = Some r → mem p !! ring_virt_addr r = Some buf → hh ≠ tail_reg p r →
      ustep (USys p sd ps hh ht bu tk co re de)
        (USys p sd ps (next r hh) ht (bu ++ [Ring.load_msg buf hh (message_size r)]) (S tk) co re de)
  | UHwRespond sd i m r buf buf' p ps hh ht bu tk co re de :
      bu !! i = Some m → handles p !! rx = Some r → mem p !! ring_virt_addr r = Some buf →
      Ring.memcpy_words buf ht (response m) (message_size r) = Some buf' →
      ustep (USys p sd ps hh ht bu tk co re de)
        (USys (set_mem (<[ring_virt_addr r := buf']> (mem p)) p) sd ps hh (next r ht) (delete i bu) tk co
          (re ++ [response m]) de).

End system.
End UserRingSys.
