(* ===== verification/UserRingSim.v ===== *)
(** * The rings of a process refine those of the kernel

    [UserRingSys] is simulated by [RingSys] with one sender at a time: each step
    of a thread of the process or of the device is one step there, or none.  So
    the invariants of [RingSys] hold for the process, although it counts its
    requests in flight differently. *)

From S2P Require Import Prelude Ring RingSys UserRing UserRingSys.
Import UserRing UserRingSys.

#[local] Open Scope Z_scope.
#[local] Open Scope qat_scope.

Module UserRingSim.

(** ** The kernel's view of the rings *)

Definition ring_of (h : adf_dev_ring_handle_t) : Ring.adf_etr_ring_data :=
  Ring.RingData (ring_virt_addr h) (in_flight h) (Some (callback h)) (Some (bank_num h))
    (ring_phys_base_addr h) (head h) (tail h) (ring_num h) (modulo_ h - 6) (message_size h / 32)
    (csrTailOffset h) (Ring.ADF_MAX_INFLIGHTS (modulo_ h - 6) (message_size h / 32)) false.

Definition handle_ok (h : adf_dev_ring_handle_t) : Prop :=
  7 <= modulo_ h <= 22 ∧ (message_size h = 32 ∨ message_size h = 64 ∨ message_size h = 128) ∧
  0 <= ring_num h < 16.

(** What does not change of a pair of handles: a request ring and the response
    ring that answers it, of one bank. *)
Definition pair_ok (t r : adf_dev_ring_handle_t) : Prop :=
  handle_ok t ∧ handle_ok r ∧ message_size t ≠ 32 ∧ in_flight r = in_flight t ∧
  ring_virt_addr t ≠ ring_virt_addr r ∧
  csr_addr r = csr_addr t ∧ bank_offset r = bank_offset t ∧
  0 <= max_requests_inflight t < Z.of_nat (Ring.slots (ring_of t)).

Lemma ring_of_ok h : handle_ok h → Ring.ring_ok (ring_of h).
Proof.
  intros (Hm & Hs & _). split; simpl; [lia|].
  destruct Hs as [-> | [-> | ->]]; vm_compute; tauto.
Qed.

Lemma ring_of_bytes h : handle_ok h → Ring.msg_bytes (ring_of h) = message_size h.
Proof.
  intros (_ & Hs & _). unfold Ring.msg_bytes. simpl. destruct Hs as [-> | [-> | ->]]; done.
Qed.

Lemma ring_of_next h off : handle_ok h → Ring.ring_next (ring_of h) off = next h off.
Proof.
  intros Hok. unfold Ring.ring_next, next. rewrite ring_of_bytes by done.
  unfold Ring.ADF_RING_SIZE_MODULO. simpl. by rewrite Z.sub_add.
Qed.

Lemma ring_of_words h (m : list Z) :
  handle_ok h → Z.of_nat (length m) * 4 = message_size h → length m = Ring.msg_words (ring_of h).
Proof.
  intros Hok E. unfold Ring.msg_words. rewrite ring_of_bytes, <- E, Z.div_mul by done. lia.
Qed.

(** ** What the pieces do *)

Ltac piece :=
  unfold handle, upd_handle, put_handle, ring_mem, put_mem, sync_add_and_fetch, counter,
    put_counter, WRITE_CSR_RING_TAIL, WRITE_CSR_RING_HEAD, csr_wr, handle, counter, when, bind,
    gets, modify, lift, ret; simpl;
  repeat match goal with
    | H : _ = Some _ |- _ => rewrite H; simpl
    | _ => rewrite lookup_insert_eq; simpl
    | H : ?a ≠ ?b |- context [<[?a := _]> _ !! ?b] => rewrite lookup_insert_ne by done; simpl
    end;
  rewrite ?insert_insert_eq.

Lemma put_claim_run ring p r c :
  handles p !! ring = Some r → counters p !! in_flight r = Some c →
  put_claim ring p =
    Some (negb (max_requests_inflight r <? u32 (c + 1)),
          set_counters (<[in_flight r := u32 (c + 1)]> (counters p)) p).
Proof. intros. unfold put_claim. piece. done. Qed.

Lemma put_refund_run ring p r c :
  handles p !! ring = Some r → counters p !! in_flight r = Some c →
  put_refund ring p = Some ((), set_counters (<[in_flight r := u32 (c - 1)]> (counters p)) p).
Proof. intros. unfold put_refund. piece. done. Qed.

Definition tail_addr (r : adf_dev_ring_handle_t) : Z :=
  csr_addr r + (bank_offset r + 0x100 + Z.shiftl (ring_num r) 2).
Definition head_addr (r : adf_dev_ring_handle_t) : Z :=
  csr_addr r + (bank_offset r + 0x0C0 + Z.shiftl (ring_num r) 2).

Lemma put_copy_run ring m p r buf :
  handles p !! ring = Some r → mem p !! ring_virt_addr r = Some buf →
  put_copy ring m p =
  match Ring.memcpy_words buf (tail r) m (message_size r) with
  | None => None
  | Some buf' =>
    let t := next r (tail r) in
    Some ((), Proc (<[ring := set_csr_tail t (set_tail t r)]> (handles p)) (banks p) (counters p)
                (<[ring_virt_addr r := buf']> (mem p)) (<[tail_addr r := u32 t]> (csr p)) (calls p))
  end.
Proof.
  intros Hr Hb. unfold put_copy. piece. destruct (Ring.memcpy_words _ _ _ _); [|done]. piece. done.
Qed.

Lemma poll_try_run ring q p r :
  handles p !! ring = Some r →
  let r' := set_polling (pollingInProgress r - 1) r in
  let ok := pollingInProgress r - 1 =? 0 in
  poll_try ring q p =
    Some (ok, set_handles (<[ring := if ok then set_quota q r' else r']> (handles p)) p).
Proof.
  intros. unfold poll_try. piece. destruct (pollingInProgress r - 1 =? 0); piece; done.
Qed.

Lemma poll_leave_run ring p r :
  handles p !! ring = Some r →
  poll_leave ring p = Some ((), set_handles (<[ring := set_polling 1 r]> (handles p)) p).
Proof. intros. unfold poll_leave. piece. done. Qed.

Lemma take_one_run ring room p r buf w :
  handles p !! ring = Some r → mem p !! ring_virt_addr r = Some buf →
  Ring.load_word buf (head r) = Some w →
  let m := Ring.load_msg buf (head r) (message_size r) in
  take_one ring room p =
    if (w =? EMPTY_RING_SIG_WORD) || negb room then Some (None, p)
    else Some (Some m, set_calls (calls p ++ [(callback r, m)]) p).
Proof. intros. unfold take_one. piece. by destruct (_ || _). Qed.

Lemma clear_one_run ring p r buf buf' :
  handles p !! ring = Some r → mem p !! ring_virt_addr r = Some buf →
  Ring.store_word buf (head r) EMPTY_RING_SIG_WORD = Some buf' →
  clear_one ring p =
    Some ((), Proc (<[ring := UserRing.set_head (next r (head r)) r]> (handles p)) (banks p)
                (counters p) (<[ring_virt_addr r := buf']> (mem p)) (csr p) (calls p)).
Proof. intros. unfold clear_one. piece. done. Qed.

(** Giving [n] requests back leaves the handle but for [coal_write_count], and
    of the registers at most the head is written. *)
Lemma poll_return_run ring n always p r c :
  handles p !! ring = Some r → counters p !! in_flight r = Some c → 0 <= n <= c → c < 2 ^ 32 →
  ∃ p' k, poll_return ring n always p = Some ((), p') ∧
    handles p' = <[ring := set_coal k r]> (handles p) ∧
    counters p' = <[in_flight r := c - n]> (counters p) ∧ mem p' = mem p ∧ calls p' = calls p ∧
    (csr p' = csr p ∨ ∃ v, csr p' = <[head_addr r := v]> (csr p)).
Proof.
  intros Hr Hc Hn Hlt. unfold poll_return. destruct (Z.ltb_spec 0 n).
  - unfold notify_end. piece. rewrite (wrap_small 32 (c + _)) by lia.
    destruct (_ || _); piece; do 2 eexists; split_and!; eauto.
  - assert (n = 0) as -> by lia. exists p, (coal_write_count r).
    rewrite Z.sub_0_r, !insert_id by (done || by destruct r). split_and!; eauto.
Qed.

(** ** The simulation *)

Section sim.
Context (response : list Z → list Z) (rw : nat) (tx rx : Z).

(** Requests taken off the ring but not given back yet. *)
Definition polled (ps : list poller) : Z :=
  match ps with [Taking n] => n | [Clearing n] => n + 1 | _ => 0 end.
Definition is_clearing (ps : list poller) : bool :=
  match ps with [Clearing _] => true | _ => false end.
Definition in_copy (s : sender) : list (list Z) := match s with Sending m => [m] | _ => [] end.
Definition refused (s : sender) : Z := match s with Refused => 1 | _ => 0 end.

(** The process and the device in [u] are those of the protocol in state [s];
    [c] is the counter of requests in flight. *)
Record sim (t r : adf_dev_ring_handle_t) (c : Z) (u : usys) (s : RingSys.sys) : Prop := {
  m_pair : pair_ok t r;
  m_tx : handles (up u) !! tx = Some t;
  m_rx : handles (up u) !! rx = Some r;
  m_ctr : counters (up u) !! in_flight t = Some c;
  m_txbuf : mem (up u) !! ring_virt_addr t = Some (RingSys.txbuf s);
  m_rxbuf : mem (up u) !! ring_virt_addr r = Some (RingSys.rxbuf s);
  m_stx : RingSys.tx s = ring_of t;
  m_srx : RingSys.rx s = ring_of r;
  m_reg : tail_reg (up u) t = csrTailOffset t;
  m_count : c = RingSys.ctr s + refused (snd_ u) + polled (pollers u);
  m_limit : c <= max_requests_inflight t + refused (snd_ u);
  m_polls : (pollers u = [] ∧ pollingInProgress r = 1) ∨
            (length (pollers u) = 1%nat ∧ pollingInProgress r <= 0 ∧ 0 <= polled (pollers u));
  m_claimed : RingSys.claimed s = in_copy (snd_ u);
  m_failed : RingSys.failed s = 0%nat;
  m_clearing : RingSys.clearing s = is_clearing (pollers u);
  m_hw : RingSys.hw_head s = hw_head u ∧ RingSys.hw_tail s = hw_tail u ∧
         RingSys.busy s = busy u ∧ RingSys.taken s = taken u;
  m_hist : RingSys.committed s = committed u ∧ RingSys.responded s = responded u ∧
           RingSys.delivered s = delivered u
}.

Context (response_length : ∀ m, length (response m) = rw)
  (response_sig : ∀ m, list.head (response m) ≠ Some Ring.ADF_RING_EMPTY_SIG) (ne : tx ≠ rx).

Local Notation Inv := (RingSys.Inv response rw 1).

(** The state [u] is reached in the protocol from [s] in one step or none. *)
Definition simulated (u : usys) (s : RingSys.sys) : Prop :=
  ∃ s', (s' = s ∨ RingSys.step response 1 s s') ∧ ∃ t r c, sim t r c u s'.

Lemma sim_counter t r c u s :
  Inv s → sim t r c u s → 0 <= RingSys.ctr s ∧ 0 <= polled (pollers u) ∧ 0 <= c < 2 ^ 17 + 1.
Proof.
  intros (_ & _ & HC & _) Hs. pose proof (RingSys.i_ctr _ _ HC). destruct Hs.
  destruct m_pair0 as (Ht & _ & _ & _ & _ & _ & _ & Hmax).
  pose proof (Ring.slots_bound _ (ring_of_ok _ Ht)).
  assert (0 <= polled (pollers u)) by (destruct m_polls0 as [[-> _]|(_ & _ & ?)]; done).
  assert (0 <= refused (snd_ u) <= 1) by (destruct (snd_ u); simpl; lia). lia.
Qed.

Ltac open_sim :=
  match goal with HI : Inv ?s, Hs : sim _ _ _ _ ?s |- _ =>
    pose proof (sim_counter _ _ _ _ _ HI Hs); destruct Hs;
    destruct s as [cs stx srx tb rb cl fa cg shh sht sbu stk sco sre sde];
    simpl in *; destruct_and?; subst
  end.

Lemma sim_claim m t r c p p' ok ps hh ht bu tk co re de s :
  Inv s → sim t r c (USys p Ready ps hh ht bu tk co re de) s →
  Z.of_nat (length m) * 4 = message_size t → put_claim tx p = Some (ok, p') →
  simulated (USys p' (if ok then Sending m else Refused) ps hh ht bu tk co re de) s.
Proof.
  intros HI Hs Hm E. open_sim.
  rewrite (put_claim_run _ _ _ _ m_tx0 m_ctr0), wrap_small in E by lia. injection E as <- <-.
  pose proof m_pair0 as (Hok & _ & _ & _ & _ & _ & _ & Hmax).
  destruct (Z.ltb_spec (max_requests_inflight t) (cs + 0 + polled ps + 1)) as [Hl|Hl]; simpl.
  - eexists. split; [by left|]. exists t, r, (cs + 0 + polled ps + 1).
    split; simpl; try done; try lia. by rewrite lookup_insert_eq.
  - eexists. split; [right; exists (RingSys.Claim m)|].
    + simpl. rewrite <- (ring_of_words t m), Nat.eqb_refl by done. simpl.
      pose proof (Ring.max_inflights_slots _ (ring_of_ok _ Hok)) as E.
      unfold Ring.over_limit. simpl in *. rewrite E.
      rewrite wrap_small by lia.
      destruct (Z.ltb_spec (Z.of_nat (Ring.slots (ring_of t)) - 1) (cs + 1)); [lia|done].
    + exists t, r, (cs + 0 + polled ps + 1).
      split; simpl; try done; try lia. by rewrite lookup_insert_eq.
Qed.

Lemma sim_refund t r c p p' ps hh ht bu tk co re de s :
  Inv s → sim t r c (USys p Refused ps hh ht bu tk co re de) s →
  put_refund tx p = Some ((), p') →
  simulated (USys p' Ready ps hh ht bu tk co re de) s.
Proof.
  intros HI Hs E. open_sim.
  rewrite (put_refund_run _ _ _ _ m_tx0 m_ctr0), wrap_small in E by lia. injection E as <-.
  eexists. split; [by left|]. exists t, r, (cs + 1 + polled ps - 1).
  split; simpl; try done; try lia. by rewrite lookup_insert_eq.
Qed.

Lemma tail_reg_insert p r v : tail_reg (set_csr (<[tail_addr r := v]> (csr p)) p) r = v.
Proof. unfold tail_reg, tail_addr. simpl. by rewrite lookup_insert_eq. Qed.

Lemma head_tail_addr t r : pair_ok t r → head_addr r ≠ tail_addr t.
Proof.
  intros (Ht & Hr & _ & _ & _ & Hc & Hb & _). destruct Ht as (_ & _ & ?), Hr as (_ & _ & ?).
  unfold head_addr, tail_addr. rewrite Hc, Hb, !Z.shiftl_mul_pow2 by done. lia.
Qed.

Lemma sim_copy m t r c p p' ps hh ht bu tk co re de s :
  Inv s → sim t r c (USys p (Sending m) ps hh ht bu tk co re de) s →
  put_copy tx m p = Some ((), p') →
  simulated (USys p' Ready ps hh ht bu tk (co ++ [m]) re de) s.
Proof.
  intros HI Hs E. open_sim. pose proof m_pair0 as (Hok & Hrok & _ & Hfl & Hbuf & _).
  rewrite (put_copy_run _ _ _ _ _ m_tx0 m_txbuf0) in E.
  destruct (Ring.memcpy_words _ _ _ _) as [buf'|] eqn:Hcp; [|done]. injection E as <-.
  eexists. split; [right; exists (RingSys.Commit 0)|].
  - simpl. unfold Ring.send_copy. rewrite ring_of_bytes by done. simpl. rewrite Hcp. simpl. done.
  - exists (set_csr_tail (next t (tail t)) (UserRing.set_tail (next t (tail t)) t)), r, (cs + 0 + polled ps).
    split; simpl; try done; try lia.
    + by rewrite lookup_insert_eq.
    + by rewrite lookup_insert_ne.
    + by rewrite lookup_insert_eq.
    + by rewrite lookup_insert_ne.
    + by rewrite ring_of_next.
    + unfold tail_reg, tail_addr. simpl. rewrite lookup_insert_eq. simpl.
      apply wrap_small. apply wrap_range. lia.
Qed.

Lemma one_poller (ps : list poller) i x :
  length ps = 1%nat → ps !! i = Some x → i = 0%nat ∧ ps = [x].
Proof. destruct ps as [|y [|]]; try done. destruct i; simpl; [|done]. by intros _ [= ->]. Qed.

Lemma the_poller t r c u s i x :
  sim t r c u s → pollers u !! i = Some x →
  i = 0%nat ∧ pollers u = [x] ∧ pollingInProgress r <= 0.
Proof.
  intros [] Hi. destruct m_polls0 as [[E _]|(E & ? & _)]; [by rewrite E in Hi|].
  by destruct (one_poller _ _ _ E Hi).
Qed.

(** A step that changes only the handle of the response ring, and the pollers. *)
Lemma sim_rx_handle r' t r c p sd ps ps' hh ht bu tk co re de s :
  sim t r c (USys p sd ps hh ht bu tk co re de) s →
  pair_ok t r' → ring_of r' = ring_of r → polled ps' = polled ps →
  is_clearing ps' = is_clearing ps →
  (ps' = [] ∧ pollingInProgress r' = 1) ∨
    (length ps' = 1%nat ∧ pollingInProgress r' <= 0 ∧ 0 <= polled ps') →
  simulated (USys (set_handles (<[rx := r']> (handles p)) p) sd ps' hh ht bu tk co re de) s.
Proof.
  intros [] Hp Hr Hpo Hcl Hps. simpl in *. eexists. split; [by left|]. exists t, r', c.
  pose proof (f_equal Ring.base_addr Hr) as Hb. simpl in Hb.
  split; simpl; rewrite ?Hr, ?Hpo, ?Hcl, ?Hb; try done.
  - by rewrite lookup_insert_ne.
  - by rewrite lookup_insert_eq.
  - by rewrite <- Hpo.
Qed.

Lemma sim_try ok q t r c p p' sd ps hh ht bu tk co re de s :
  sim t r c (USys p sd ps hh ht bu tk co re de) s → poll_try rx q p = Some (ok, p') →
  simulated (USys p' sd (if ok then ps ++ [Taking 0] else ps) hh ht bu tk co re de) s.
Proof.
  intros Hs E. pose proof Hs as []. simpl in *.
  rewrite (poll_try_run _ _ _ _ m_rx0) in E. injection E as <- <-.
  destruct m_polls0 as [[-> Hp]|(Hl & Hp & Hn)].
  - rewrite Hp. simpl. eapply sim_rx_handle; [done..|]. right. done.
  - destruct (Z.eqb_spec (pollingInProgress r - 1) 0); [lia|].
    eapply sim_rx_handle; [done..|]. right. split_and!; simpl; try done. lia.
Qed.

Lemma sim_leave i t r c p p' sd ps hh ht bu tk co re de s :
  sim t r c (USys p sd ps hh ht bu tk co re de) s → ps !! i = Some Leaving →
  poll_leave rx p = Some ((), p') →
  simulated (USys p' sd (delete i ps) hh ht bu tk co re de) s.
Proof.
  intros Hs Hi E. destruct (the_poller _ _ _ _ _ _ _ Hs Hi) as (-> & Hps & _).
  pose proof Hs as []. simpl in *. subst ps.
  rewrite (poll_leave_run _ _ _ m_rx0) in E. injection E as <-.
  eapply sim_rx_handle; [done..|]. by left.
Qed.

Lemma sim_take i n m room t r c p p' sd ps hh ht bu tk co re de s :
  Inv s → sim t r c (USys p sd ps hh ht bu tk co re de) s → ps !! i = Some (Taking n) →
  take_one rx room p = Some (Some m, p') →
  simulated (USys p' sd (<[i := Clearing n]> ps) hh ht bu tk co re (de ++ [m])) s.
Proof.
  intros HI Hs Hi E. destruct (the_poller _ _ _ _ _ _ _ Hs Hi) as (-> & Hps & Hpp).
  simpl in Hps. subst ps.
  destruct (RingSys.poll_word response rw 1 response_sig s HI) as (w & Hw & _); [by destruct Hs|].
  open_sim. simpl in Hw. pose proof m_pair0 as (_ & Hrok & _).
  rewrite (take_one_run _ _ _ _ _ _ m_rx0 m_rxbuf0 Hw) in E.
  destruct (w =? EMPTY_RING_SIG_WORD) eqn:Ew, room; try done. injection E as <- <-.
  eexists. split; [right; exists RingSys.Poll|].
  - simpl. rewrite Hw. simpl. change Ring.ADF_RING_EMPTY_SIG with EMPTY_RING_SIG_WORD.
    by rewrite Ew, ring_of_bytes.
  - exists t, r, (cs + refused sd + n). split; simpl; try done; lia.
Qed.

Lemma sim_clear i n t r c p p' sd ps hh ht bu tk co re de s :
  Inv s → sim t r c (USys p sd ps hh ht bu tk co re de) s → ps !! i = Some (Clearing n) →
  clear_one rx p = Some ((), p') →
  simulated (USys p' sd (<[i := Taking (n + 1)]> ps) hh ht bu tk co re de) s.
Proof.
  intros HI Hs Hi E. destruct (the_poller _ _ _ _ _ _ _ Hs Hi) as (-> & Hps & Hpp).
  simpl in Hps. subst ps.
  destruct (RingSys.Clear_ok response rw 1 s HI) as [s' Hs']; [by destruct Hs|].
  open_sim. pose proof m_pair0 as (Htok & Hrok & _ & _ & Hbuf & _).
  unfold Ring.recv_clear in Hs'. simpl in Hs'.
  destruct (Ring.store_word rb (head r) Ring.ADF_RING_EMPTY_SIG) as [buf'|] eqn:Est; [clear Hs'|done].
  rewrite (clear_one_run _ _ _ _ _ m_rx0 m_rxbuf0 Est) in E. injection E as <-.
  eexists. split; [right; exists RingSys.Clear|].
  - simpl. unfold Ring.recv_clear. simpl. rewrite Est. simpl. done.
  - exists t, (UserRing.set_head (next r (head r)) r), (cs + refused sd + (n + 1)).
    split; simpl; try done; try lia.
    + by rewrite lookup_insert_ne.
    + by rewrite lookup_insert_eq.
    + by rewrite lookup_insert_ne by congruence.
    + by rewrite lookup_insert_eq.
    + by rewrite ring_of_next.
Qed.

Lemma sim_return i n always t r c p p' sd ps hh ht bu tk co re de s :
  Inv s → sim t r c (USys p sd ps hh ht bu tk co re de) s → ps !! i = Some (Taking n) →
  poll_return rx n always p = Some ((), p') →
  simulated (USys p' sd (<[i := Leaving]> ps) hh ht bu tk co re de) s.
Proof.
  intros HI Hs Hi E. destruct (the_poller _ _ _ _ _ _ _ Hs Hi) as (-> & Hps & Hpp).
  simpl in Hps. subst ps. open_sim.
  pose proof (head_tail_addr _ _ m_pair0) as Hne.
  pose proof m_pair0 as (_ & _ & _ & Hfl & _).
  assert (0 <= refused sd) by (destruct sd; simpl; lia).
  rewrite <- Hfl in m_ctr0.
  destruct (poll_return_run _ n always _ _ _ m_rx0 m_ctr0 ltac:(lia) ltac:(lia))
    as (p2 & k & E2 & Hh & Hc & Hm & _ & Hcsr).
  rewrite E in E2. injection E2 as <-.
  eexists. split; [by left|]. exists t, (set_coal k r), (cs + refused sd + n - n).
  split; simpl; rewrite ?Hh, ?Hc, ?Hm; try done; try lia.
  - by rewrite lookup_insert_ne.
  - by rewrite lookup_insert_eq.
  - by rewrite <- Hfl, lookup_insert_eq.
  - rewrite <- m_reg0. unfold tail_reg. destruct Hcsr as [->|[v ->]]; [done|].
    by rewrite lookup_insert_ne.
Qed.

Lemma sim_hwtake buf t r c p sd ps hh ht bu tk co re de s :
  sim t r c (USys p sd ps hh ht bu tk co re de) s →
  mem p !! ring_virt_addr t = Some buf → hh ≠ tail_reg p t →
  simulated (USys p sd ps (next t hh) ht (bu ++ [Ring.load_msg buf hh (message_size t)]) (S tk)
    co re de) s.
Proof.
  intros Hs Hb Hne. destruct Hs. destruct s. simpl in *. destruct_and!. subst.
  pose proof m_pair0 as (Hok & _). assert (buf = txbuf) as -> by congruence.
  eexists. split; [right; exists RingSys.HwTake|].
  - simpl. rewrite m_reg0 in Hne. destruct (Z.eqb_spec hh (csrTailOffset t)); [done|].
    by rewrite ring_of_next, ring_of_bytes.
  - exists t, r, (ctr + refused sd + polled ps). by split.
Qed.

Lemma sim_hwrespond i m buf buf' t r c p sd ps hh ht bu tk co re de s :
  sim t r c (USys p sd ps hh ht bu tk co re de) s →
  bu !! i = Some m → mem p !! ring_virt_addr r = Some buf →
  Ring.memcpy_words buf ht (response m) (message_size r) = Some buf' →
  simulated (USys (set_mem (<[ring_virt_addr r := buf']> (mem p)) p) sd ps hh (next r ht)
    (delete i bu) tk co (re ++ [response m]) de) s.
Proof.
  intros Hs Hi Hb Hcp. destruct Hs. destruct s. simpl in *. destruct_and!. subst.
  pose proof m_pair0 as (_ & Hok & _ & _ & Hbuf & _). assert (buf = rxbuf) as -> by congruence.
  eexists. split; [right; exists (RingSys.HwRespond i)|].
  - simpl. rewrite Hi. simpl. by rewrite ring_of_bytes, Hcp, ring_of_next.
  - exists t, r, (ctr + refused sd + polled ps). split; simpl; try done.
    + by rewrite lookup_insert_ne.
    + by rewrite lookup_insert_eq.
Qed.

Lemma ustep_simulated u u' t r c s :
  Inv s → sim t r c u s → ustep response tx rx u u' → simulated u' s.
Proof.
  intros HI Hs Hu. pose proof Hs as [Hpair Htx Hrx _ _ _ _ _ _ _ _ _ _ _ _ _ _].
  destruct Hu; simpl in *;
    repeat match goal with
      | H : handles ?p !! tx = Some ?x |- _ => assert (x = t) as -> by congruence; clear H
      | H : handles ?p !! rx = Some ?x |- _ => assert (x = r) as -> by congruence; clear H
      end.
  - eauto using sim_claim.
  - eauto using sim_refund.
  - eauto using sim_copy.
  - eauto using sim_try.
  - eauto using sim_take.
  - eauto using sim_clear.
  - eauto using sim_return.
  - eauto using sim_leave.
  - eauto using sim_hwtake.
  - eauto using sim_hwrespond.
Qed.

(** What [adf_init_ring] leaves for a pair of rings, before the first call. *)
Record initial (u : usys) (t r : adf_dev_ring_handle_t) (tb rb : list Z) : Prop := {
  n_pair : pair_ok t r;
  n_tx : handles (up u) !! tx = Some t;
  n_rx : handles (up u) !! rx = Some r;
  n_ctr : counters (up u) !! in_flight t = Some 0;
  n_txbuf : mem (up u) !! ring_virt_addr t = Some tb;
  n_rxbuf : mem (up u) !! ring_virt_addr r = Some rb;
  n_words : Ring.msg_words (ring_of r) = rw;
  n_slots : (Ring.slots (ring_of t) <= Ring.slots (ring_of r))%nat;
  n_txlen : (Ring.slots (ring_of t) * Ring.msg_words (ring_of t) <= length tb)%nat;
  n_rxlen : (Ring.slots (ring_of r) * Ring.msg_words (ring_of r) <= length rb)%nat;
  n_sig : Forall (λ w, w = EMPTY_RING_SIG_WORD) rb;
  n_zero : head r = 0 ∧ tail t = 0 ∧ csrTailOffset t = 0 ∧ tail_reg (up u) t = 0;
  n_polling : pollingInProgress r = 1;
  n_rest : u = USys (up u) Ready [] 0 0 [] 0 [] [] []
}.

(** A state the process and the device can be in. *)
Definition reachable (u : usys) : Prop :=
  ∃ u0 t r tb rb, initial u0 t r tb rb ∧ rtc (ustep response tx rx) u0 u.

Lemma initial_sim u t r tb rb :
  initial u t r tb rb →
  ∃ s, Inv s ∧ sim t r 0 u s.
Proof.
  intros []. pose proof n_pair0 as (Ht & Hr & _ & _ & _ & _ & _ & ?).
  exists (RingSys.Sys 0 (ring_of t) (ring_of r) tb rb [] 0 false 0 0 [] 0 [] [] []). split.
  - apply RingSys.initial_Inv. unfold RingSys.initial. simpl.
    destruct n_zero0 as (Hh & Htl & Hct & _).
    split_and!; try done; by apply ring_of_ok.
  - rewrite n_rest0. destruct n_zero0 as (Hh & Htl & Hct & Hreg).
    split; simpl; try done; try lia. by left.
Qed.

Lemma rtc_sim u u' s t r c :
  Inv s → sim t r c u s → rtc (ustep response tx rx) u u' →
  ∃ s' t' r' c', Inv s' ∧ sim t' r' c' u' s'.
Proof.
  intros HI Hs Hr. revert s t r c HI Hs. induction Hr as [|u0 u1 u2 Hst _ IH]; [eauto 10|].
  intros s t r c HI Hs. destruct (ustep_simulated _ _ _ _ _ _ HI Hs Hst)
    as (s' & Hs' & t' & r' & c' & Hsim).
  apply (IH s' t' r' c'); [|done]. destruct Hs' as [->|[l Hl]]; [done|].
  by eapply RingSys.exec_Inv.
Qed.

(** Every reachable state is simulated. *)
Lemma reachable_sim u : reachable u → ∃ s t r c, Inv s ∧ sim t r c u s.
Proof.
  intros (u0 & t & r & tb & rb & Hi & Hr). destruct (initial_sim _ _ _ _ _ Hi) as (s & HI & Hs).
  by eapply rtc_sim.
Qed.

End sim.
End UserRingSim.
