(* ===== verification/UserRingCalls.v ===== *)
(** * The calls of a process on its rings

    [adf_user_put_msg] and [adf_pollRing] as sequences of steps of
    [UserRingSys], what they return, and what [UserRingSim] gives for them.  The
    last part is [validateRingSize], which keeps the hypotheses of the others. *)

From S2P Require Import Prelude Ring RingSys UserRing UserRingSys UserRingSim.
Import UserRing UserRingSys UserRingSim.

#[local] Open Scope Z_scope.
#[local] Open Scope qat_scope.

Module UserRingCalls.

(** ** The functions are made of the pieces *)

Definition may_take (quota : option Z) (n : Z) : bool :=
  match quota with Some q => n <? q | None => true end.

Fixpoint take_loop (fuel : nat) (ring : Z) (quota : option Z) (n : Z) : M proc Z :=
  match fuel with
  | O => fault
  | S fuel =>
    o <- take_one ring (may_take quota n) ;;
    match o with
    | None => ret n
    | Some _ => clear_one ring ;; take_loop fuel ring quota (n + 1)
    end
  end.

Lemma take_loop_eq fuel ring quota n p :
  notify_loop fuel ring quota n p = take_loop fuel ring quota n p.
Proof.
  revert n p. induction fuel as [|fuel IH]; [done|]. intros n p. simpl.
  unfold take_one, clear_one, may_take. piece.
  destruct (handles p !! ring) as [r|] eqn:Hr; [|done]. piece.
  destruct (mem p !! ring_virt_addr r) as [buf|] eqn:Hb; [|done]. piece.
  destruct (Ring.load_word buf (head r)) as [w|]; [|done]. piece.
  destruct (w =? EMPTY_RING_SIG_WORD); [done|].
  destruct (match quota with Some q => n <? q | None => true end); [|done]. simpl. piece.
  destruct (Ring.store_word _ _ _); [|done]. piece. apply IH.
Qed.

Definition quota_of (response_quota : Z) : Z :=
  if negb (response_quota =? 0) then response_quota else ICP_NO_RESPONSE_QUOTA.

Lemma put_msg_eq ring m p r :
  ring ≠ 0 → handles p !! ring = Some r → accel_dev r ≠ 0 →
  message_size r = 64 ∨ message_size r = 128 →
  adf_user_put_msg ring (Some m) p =
  (ok <- put_claim ring ;;
   if ok then put_copy ring m ;; ret CPA_STATUS_SUCCESS
   else put_refund ring ;; ret CPA_STATUS_RETRY) p.
Proof.
  intros Hn Hr Ha Hs. unfold adf_user_put_msg, put_claim, put_copy, put_refund.
  destruct (Z.eqb_spec ring 0); [done|]. piece. destruct (Z.eqb_spec (accel_dev r) 0); [done|].
  piece. destruct (counters p !! in_flight r) as [c|] eqn:Hc; [|done]. piece.
  destruct (max_requests_inflight r <? u32 (c + 1)); piece; [done|].
  assert ((message_size r =? ADF_MSG_SIZE_64_BYTES) || (message_size r =? ADF_MSG_SIZE_128_BYTES)
          = true) as -> by (destruct Hs as [-> | ->]; done). piece.
  destruct (mem p !! ring_virt_addr r); [|done]. piece.
  destruct (Ring.memcpy_words _ _ _ _); [|done]. piece. done.
Qed.

Lemma poll_eq ring q p r :
  handles p !! ring = Some r →
  adf_pollRing ring q p =
  (ok <- poll_try ring q ;;
   if ok then
     n <- take_loop notify_fuel ring (Some (quota_of q)) 0 ;;
     poll_return ring n (bool_decide (resp r = ICP_RESP_TYPE_IRQ)) ;;
     poll_leave ring ;;
     ret (if 0 <? n then CPA_STATUS_SUCCESS else CPA_STATUS_RETRY)
   else ret CPA_STATUS_RETRY) p.
Proof.
  intros Hr. rewrite (bind_Some _ _ _ _ _ (poll_try_run ring q p r Hr)).
  unfold adf_pollRing, adf_user_notify_msgs_poll. generalize notify_fuel as fuel. intros fuel. piece.
  destruct (pollingInProgress r - 1 =? 0); [|done]. piece.
  unfold quota_of, poll_return, poll_leave. rewrite take_loop_eq.
  unfold set_handles. simpl.
  destruct (take_loop _ _ _ _ _) as [[n p']|]; [|done].
  unfold when, ret. destruct (0 <? n).
  - by destruct (notify_end _ _ _ _) as [[[] p'']|].
  - done.
Qed.

(** ** The calls in the system *)

Section calls.
Context (response : list Z → list Z) (rw : nat) (tx rx : Z).
Context (response_length : ∀ m, length (response m) = rw)
  (response_sig : ∀ m, list.head (response m) ≠ Some Ring.ADF_RING_EMPTY_SIG) (ne : tx ≠ rx).

Local Notation Inv := (RingSys.Inv response rw 1).
Local Notation sim := (sim tx rx).
Local Notation ustep := (ustep response tx rx).

(** With a response in the slot at the head, an iteration of the loop gives it
    to the callback and clears the slot. *)
Lemma take_runs n u s t r c :
  Inv s → sim t r c u s → pollers u = [Taking n] → delivered u ≠ responded u →
  ∃ m p1 buf, responded u !! length (delivered u) = Some m ∧
    take_one rx true (up u) = Some (Some m, p1) ∧
    clear_one rx p1 =
      Some ((), Proc (<[rx := UserRing.set_head (next r (head r)) r]> (handles (up u)))
                  (banks (up u)) (counters (up u)) buf (csr (up u))
                  (calls (up u) ++ [(callback r, m)])).
Proof.
  intros HI Hs Hps Hne.
  assert (RingSys.clearing s = false) as Hcg by (destruct Hs; by rewrite m_clearing0, Hps).
  destruct (RingSys.poll_word response rw 1 response_sig s HI Hcg) as (w & Hw & Hcase).
  assert (is_Some (RingSys.exec response 1 RingSys.Poll s)) as [s1 Hs1].
  { destruct Hcase as [[_ E]|[Hn _]]; [destruct Hs; naive_solver congruence|].
    destruct s. simpl in *. subst. rewrite Hw. simpl.
    destruct (Z.eqb_spec w Ring.ADF_RING_EMPTY_SIG); [done|by eexists]. }
  assert (Inv s1) as HI1 by (by eapply RingSys.exec_Inv).
  assert (RingSys.clearing s1 = true) as Hcg1.
  { destruct s. simpl in *. subst. rewrite Hw in Hs1. simpl in Hs1.
    destruct (w =? _); [done|]. by injection Hs1 as <-. }
  destruct (RingSys.Clear_ok _ _ _ s1 HI1 Hcg1) as [s2 Hs2].
  destruct Hs. destruct m_pair0 as (_ & Hrok & _), m_hist0 as (_ & Hre & Hde).
  destruct Hcase as [[_ E]|[Hn Hm]]; [congruence|].
  rewrite m_srx0 in Hw, Hm. rewrite ring_of_bytes in Hm by done. rewrite Hre, Hde in Hm.
  destruct s as [cs stx srx tb rb cl fa cg shh sht sbu stk sco sre sde]. simpl in *. subst.
  simpl in Hs1. rewrite Hps, Hw in Hs1. simpl in Hs1. destruct (Z.eqb_spec w Ring.ADF_RING_EMPTY_SIG); [done|].
  injection Hs1 as <-. simpl in Hs2. unfold Ring.recv_clear in Hs2. simpl in Hs2.
  destruct (Ring.store_word rb (head r) Ring.ADF_RING_EMPTY_SIG) as [buf'|] eqn:Est; [|done].
  do 3 eexists. split; [done|]. split.
  - rewrite (take_one_run _ _ _ _ _ _ m_rx0 m_rxbuf0 Hw).
    destruct (Z.eqb_spec w EMPTY_RING_SIG_WORD); [done|]. simpl. done.
  - by rewrite (clear_one_run _ (set_calls _ _) _ _ _ m_rx0 m_rxbuf0 Est).
Qed.

(** Otherwise it takes nothing. *)
Lemma take_none room n u s t r c :
  Inv s → sim t r c u s → pollers u = [Taking n] → delivered u = responded u ∨ room = false →
  take_one rx room (up u) = Some (None, up u).
Proof.
  intros HI Hs Hps Hor.
  assert (RingSys.clearing s = false) as Hcg by (destruct Hs; by rewrite m_clearing0, Hps).
  destruct (RingSys.poll_word response rw 1 response_sig s HI Hcg) as (w & Hw & Hcase).
  destruct Hs, m_hist0 as (_ & Hre & Hde). rewrite m_srx0 in Hw.
  rewrite (take_one_run _ _ _ _ _ _ m_rx0 m_rxbuf0 Hw).
  destruct Hor as [E| ->]; [|by rewrite orb_true_r].
  destruct Hcase as [[-> _]|[_ Hm]]; [done|].
  rewrite Hre, Hde, E in Hm. by rewrite lookup_ge_None_2 in Hm.
Qed.

Definition with_taken (u : usys) (p : proc) (n : Z) (de : list (list Z)) : usys :=
  USys p (snd_ u) [Taking n] (hw_head u) (hw_tail u) (busy u) (taken u) (committed u)
    (responded u) de.

Lemma sim_prefix t r c u s : Inv s → sim t r c u s → delivered u `prefix_of` responded u.
Proof. intros (_ & _ & _ & HD) []. destruct m_hist0 as (_ & <- & <-). apply HD. Qed.

Lemma take_loop_stop q fuel n u s t r c :
  Inv s → sim t r c u s → pollers u = [Taking n] → delivered u = responded u ∨ may_take q n = false →
  take_loop (S fuel) rx q n (up u) = Some (n, up u).
Proof. intros. simpl. by erewrite bind_Some by (by eapply take_none). Qed.

(** The state after [take_runs], and its two steps. *)
Lemma take_steps n u s t r c :
  Inv s → sim t r c u s → pollers u = [Taking n] → delivered u ≠ responded u →
  ∃ m p1 p2, responded u !! length (delivered u) = Some m ∧
    take_one rx true (up u) = Some (Some m, p1) ∧ clear_one rx p1 = Some ((), p2) ∧
    handles p2 = <[rx := UserRing.set_head (next r (head r)) r]> (handles (up u)) ∧
    counters p2 = counters (up u) ∧ calls p2 = calls (up u) ++ [(callback r, m)] ∧
    rtc ustep u (with_taken u p2 (n + 1) (delivered u ++ [m])).
Proof.
  intros HI Hs Hps Hne. destruct (take_runs n u s t r c HI Hs Hps Hne) as (m & p1 & buf & Hm & Ht & Hc).
  do 3 eexists. split_and!; [done|done|done|done|done|done|].
  destruct u. simpl in *. subst. eapply rtc_l; [by eapply (UTake _ _ _ _ 0)|].
  eapply rtc_l; [by eapply (UClear _ _ _ _ 0)|]. done.
Qed.

(** The loop takes the responses that are there, in order, up to the quota. *)
Lemma take_loop_runs q suf fuel n u s t r c :
  Inv s → sim t r c u s → pollers u = [Taking n] → responded u = delivered u ++ suf →
  (length suf < fuel)%nat →
  let got := take (Z.to_nat (q - n)) suf in
  ∃ p' hd, take_loop fuel rx (Some q) n (up u) = Some (n + Z.of_nat (length got), p') ∧
    rtc ustep u (with_taken u p' (n + Z.of_nat (length got)) (delivered u ++ got)) ∧
    handles p' = <[rx := UserRing.set_head hd r]> (handles (up u)) ∧
    counters p' = counters (up u) ∧
    calls p' = calls (up u) ++ (pair (callback r) <$> got).
Proof.
  revert fuel n u s t r c. induction suf as [|m suf IH];
    intros [|fuel] n u s t r c HI Hs Hps Hre Hf got; simpl in Hf; try lia;
    [|destruct (Z.ltb_spec n q) as [Hq|Hq]].
  1, 3: assert (got = []) as -> by (subst got; rewrite ?take_nil; try done;
      by replace (Z.to_nat (q - n)) with 0%nat by lia);
    exists (up u), (head r); rewrite (take_loop_stop _ _ n u s t r c), !app_nil_r, Z.add_0_r
      by (done || (left; by rewrite Hre, app_nil_r) || (right; simpl; lia));
    split_and!; [done|destruct u; simpl in *; by subst|destruct Hs; rewrite insert_id; [done|by destruct r]|done..].
  destruct (take_steps n u s t r c HI Hs Hps) as (m' & p1 & p2 & Hm & Ht & Hc & Hh & Hct & Hcl & Hst).
  { rewrite Hre. intros E%(f_equal length). rewrite length_app in E. simpl in E. lia. }
  assert (m' = m) as -> by (rewrite Hre, lookup_app_r, Nat.sub_diag in Hm by done; by injection Hm).
  set (u2 := with_taken u p2 (n + 1) (delivered u ++ [m])) in *.
  destruct (rtc_sim response rw tx rx response_length response_sig ne _ _ _ _ _ _ HI Hs Hst)
    as (s2 & t2 & r2 & c2 & HI2 & Hs2).
  assert (r2 = UserRing.set_head (next r (head r)) r) as ->.
  { destruct Hs2. subst u2. simpl in *. rewrite Hh, lookup_insert_eq in m_rx0. congruence. }
  destruct (IH fuel (n + 1) u2 s2 t2 _ c2 HI2 Hs2) as (p' & hd & Hlp & Hst' & Hh' & Hct' & Hcl');
    [done|simpl; by rewrite Hre, <- app_assoc|lia|].
  assert (got = m :: take (Z.to_nat (q - (n + 1))) suf) as ->
    by (subst got; by replace (Z.to_nat (q - n)) with (S (Z.to_nat (q - (n + 1)))) by lia).
  set (got' := take (Z.to_nat (q - (n + 1))) suf) in *. clearbody got'.
  replace (n + 1 + Z.of_nat (length got')) with (n + Z.of_nat (length (m :: got'))) in * by (simpl; lia).
  exists p', hd. split_and!.
  - simpl. rewrite (proj2 (Z.ltb_lt n q) Hq). rewrite (bind_Some _ _ _ _ _ Ht). simpl.
    by rewrite (bind_Some _ _ _ _ _ Hc).
  - etrans; [done|]. unfold with_taken in Hst' |- *. simpl in Hst'. by rewrite <- app_assoc in Hst'.
  - rewrite Hh'. subst u2. simpl. rewrite Hh, insert_insert_eq. done.
  - by rewrite Hct'.
  - rewrite Hcl'. subst u2. simpl. rewrite Hcl, <- app_assoc. done.
Qed.

(** What a state and a later one have in common. *)
Lemma reach_sim u u' s t r c r' :
  Inv s → sim t r c u s → rtc ustep u u' → handles (up u') !! rx = Some r' →
  ∃ s' t' c', Inv s' ∧ sim t' r' c' u' s'.
Proof.
  intros HI Hs Hst Hr.
  destruct (rtc_sim response rw tx rx response_length response_sig ne _ _ _ _ _ _ HI Hs Hst)
    as (s' & t' & r2 & c' & HI' & Hs').
  assert (r2 = r') as -> by (destruct Hs'; congruence). eauto 10.
Qed.

Lemma pending_bound t r c u s suf :
  Inv s → sim t r c u s → responded u = delivered u ++ suf → (length suf < notify_fuel)%nat.
Proof.
  intros HI Hs E. destruct (sim_counter _ _ _ _ _ _ _ _ _ HI Hs) as (_ & Hp & Hc).
  destruct HI as (_ & _ & HC & _). pose proof (RingSys.i_ctr _ _ HC) as Hctr.
  destruct Hs. destruct m_hist0 as (_ & Hre & Hde).
  assert (0 <= refused (snd_ u)) by (destruct (snd_ u); simpl; lia).
  unfold RingSys.outstanding in Hctr. rewrite Hre, Hde, E, length_app in Hctr.
  unfold notify_fuel. lia.
Qed.

Lemma taking_bound n u s t r c c' :
  Inv s → sim t r c u s → pollers u = [Taking n] → counters (up u) !! in_flight r = Some c' →
  0 <= n → 0 <= n <= c' ∧ c' < 2 ^ 32.
Proof.
  intros HI Hs Hps Hc Hn. destruct (sim_counter _ _ _ _ _ _ _ _ _ HI Hs) as (? & ? & ?).
  destruct Hs. destruct m_pair0 as (_ & _ & _ & Hfl & _).
  rewrite <- Hfl, Hc in m_ctr0. injection m_ctr0 as <-. rewrite Hps in m_count0. simpl in m_count0.
  assert (0 <= refused (snd_ u)) by (destruct (snd_ u); simpl; lia). lia.
Qed.

#[local] Opaque notify_fuel.

Lemma poll_runs q u s t r c suf :
  Inv s → sim t r c u s → pollers u = [] → responded u = delivered u ++ suf →
  let got := take (Z.to_nat (quota_of q)) suf in
  ∃ p', adf_pollRing rx q (up u) =
      Some (if (length got =? 0)%nat then CPA_STATUS_RETRY else CPA_STATUS_SUCCESS, p') ∧
    calls p' = calls (up u) ++ (pair (callback r) <$> got) ∧
    counters p' !! in_flight r = Some (c - Z.of_nat (length got)) ∧
    rtc ustep u (USys p' (snd_ u) [] (hw_head u) (hw_tail u) (busy u) (taken u) (committed u)
      (responded u) (delivered u ++ got)).
Proof.
  intros HI Hs Hps Hre got.
  assert (handles (up u) !! rx = Some r) as Hr by by destruct Hs.
  assert (pollingInProgress r = 1) as Hpol by (destruct Hs; rewrite Hps in m_polls0; naive_solver).
  assert (counters (up u) !! in_flight r = Some c) as Hc.
  { destruct Hs. destruct m_pair0 as (_ & _ & _ & -> & _). done. }
  pose proof (poll_try_run rx q _ _ Hr) as Htry. rewrite Hpol in Htry. simpl in Htry.
  set (r1 := set_quota q (set_polling 0 r)) in *.
  set (p1 := set_handles (<[rx := r1]> (handles (up u))) (up u)) in *.
  set (u1 := with_taken u p1 0 (delivered u)).
  assert (rtc ustep u u1) as Hst1.
  { destruct u. simpl in *. subst. eapply rtc_l; [by eapply (UTry _ _ _ _ true)|]. done. }
  destruct (reach_sim u u1 s t r c r1 HI Hs Hst1) as (s1 & t1 & c1 & HI1 & Hs1);
    [apply lookup_insert_eq|].
  pose proof (pending_bound _ _ _ _ _ suf HI1 Hs1 Hre) as Hfuel.
  destruct (take_loop_runs (quota_of q) suf notify_fuel 0 u1 s1 t1 r1 c1 HI1 Hs1 eq_refl Hre Hfuel)
    as (p2 & hd & Hlp & Hst2 & Hh2 & Hc2 & Hcl2).
  rewrite Z.sub_0_r in *. fold got in Hlp, Hst2, Hcl2. rewrite Z.add_0_l in *.
  set (n := Z.of_nat (length got)) in *.
  set (u2 := with_taken u1 p2 n (delivered u1 ++ got)) in *.
  set (r2 := UserRing.set_head hd r1) in *.
  assert (handles p2 !! rx = Some r2) as Hr2 by (rewrite Hh2; apply lookup_insert_eq).
  destruct (reach_sim u1 u2 s1 t1 r1 c1 r2 HI1 Hs1 Hst2 Hr2) as (s2 & t2 & c2 & HI2 & Hs2).
  assert (counters p2 !! in_flight r2 = Some c) as Hcc by by rewrite Hc2.
  destruct (taking_bound n u2 s2 t2 r2 c2 c HI2 Hs2 eq_refl Hcc ltac:(subst n; lia)) as [Hn Hlt].
  destruct (poll_return_run rx n (bool_decide (resp r = ICP_RESP_TYPE_IRQ)) _ _ _ Hr2 Hcc Hn Hlt)
    as (p3 & k & Hrt & Hh3 & Hc3 & _ & Hcl3 & _).
  assert (handles p3 !! rx = Some (set_coal k r2)) as Hr3 by (rewrite Hh3; apply lookup_insert_eq).
  pose proof (poll_leave_run rx _ _ Hr3) as Hlv. eexists. split_and!.
  - rewrite (poll_eq _ _ _ _ Hr), (bind_Some _ _ _ _ _ Htry). cbv iota.
    rewrite (bind_Some _ _ _ _ _ Hlp), (bind_Some _ _ _ _ _ Hrt), (bind_Some _ _ _ _ _ Hlv).
    unfold ret. f_equal. f_equal. subst n. by destruct got.
  - simpl. rewrite Hcl3, Hcl2. done.
  - simpl. rewrite Hc3. apply lookup_insert_eq.
  - etrans; [done|]. etrans; [done|].
    eapply rtc_l; [by eapply (UReturn _ _ _ _ 0)|]. eapply rtc_l; [by eapply (ULeave _ _ _ _ 0)|].
    done.
Qed.

(** A sender past the check has room. *)
Lemma copy_runs m u s t r c :
  Inv s → sim t r c u s → snd_ u = Sending m →
  ∃ p', put_copy tx m (up u) = Some ((), p') ∧ counters p' = counters (up u).
Proof.
  intros HI Hs Hsd.
  destruct (RingSys.Commit_ok response rw 1 0 s HI) as [s2 Hs2];
    [destruct Hs; rewrite m_claimed0, Hsd; simpl; lia|].
  destruct Hs. destruct m_pair0 as (Hok & _).
  destruct s as [cs stx srx tb rb cl fa cg shh sht sbu stk sco sre sde]. simpl in *. subst.
  rewrite Hsd in Hs2. simpl in Hs2. unfold Ring.send_copy in Hs2.
  rewrite ring_of_bytes in Hs2 by done. simpl in Hs2.
  pose proof (put_copy_run tx m _ t _ m_tx0 m_txbuf0) as Hcp.
  destruct (Ring.memcpy_words _ _ _ _) as [buf'|]; [|done]. by eexists.
Qed.

Lemma put_runs m u s t r c :
  Inv s → sim t r c u s → snd_ u = Ready → tx ≠ 0 → accel_dev t ≠ 0 →
  Z.of_nat (length m) * 4 = message_size t →
  let ok := c <? max_requests_inflight t in
  ∃ p', adf_user_put_msg tx (Some m) (up u) =
      Some (if ok then CPA_STATUS_SUCCESS else CPA_STATUS_RETRY, p') ∧
    counters p' !! in_flight t = Some (if ok then c + 1 else c) ∧
    rtc ustep u (USys p' Ready (pollers u) (hw_head u) (hw_tail u) (busy u) (taken u)
      (if ok then committed u ++ [m] else committed u) (responded u) (delivered u)).
Proof.
  intros HI Hs Hsd Htx Ha Hm ok. destruct (sim_counter _ _ _ _ _ _ _ _ _ HI Hs) as (_ & _ & Hcb).
  assert (handles (up u) !! tx = Some t) as Ht by by destruct Hs.
  assert (counters (up u) !! in_flight t = Some c) as Hc by by destruct Hs.
  assert (message_size t = 64 ∨ message_size t = 128) as Hsz.
  { destruct Hs. destruct m_pair0 as ((_ & ? & _) & _ & ? & _). tauto. }
  pose proof (put_claim_run tx _ _ _ Ht Hc) as Hcl. rewrite wrap_small in Hcl by lia.
  set (p1 := set_counters _ _) in Hcl.
  replace (negb (max_requests_inflight t <? c + 1)) with ok in Hcl by (subst ok; lia).
  set (u1 := USys p1 (if ok then Sending m else Refused) (pollers u) (hw_head u) (hw_tail u) (busy u)
    (taken u) (committed u) (responded u) (delivered u)).
  assert (ustep u u1) as Hst by (destruct u; simpl in *; subst; by eapply UClaim).
  destruct (rtc_sim response rw tx rx response_length response_sig ne _ _ _ _ _ _ HI Hs
    (rtc_once _ _ Hst)) as (s1 & t1 & r1 & c1 & HI1 & Hs1).
  assert (t1 = t) as -> by (destruct Hs1; simpl in *; congruence).
  rewrite (put_msg_eq _ _ _ _ Htx Ht Ha Hsz), (bind_Some _ _ _ _ _ Hcl).
  subst u1. destruct ok.
  - destruct (copy_runs m _ _ _ _ _ HI1 Hs1 eq_refl) as (p2 & Hcp & Hc2). simpl in Hcp, Hc2.
    rewrite (bind_Some _ _ _ _ _ Hcp). eexists. split_and!; [done| |].
    + rewrite Hc2. apply lookup_insert_eq.
    + eapply rtc_l; [done|]. eapply rtc_l; [by eapply UCopy|]. done.
  - pose proof (put_refund_run tx p1 t (c + 1) Ht) as Hrf. rewrite wrap_small in Hrf by lia.
    rewrite (bind_Some _ _ _ _ _ (Hrf (lookup_insert_eq _ _ _))). eexists. split_and!; [done| |].
    + simpl. rewrite lookup_insert_eq. f_equal. lia.
    + eapply rtc_l; [done|]. eapply rtc_l; [eapply URefund|done]. apply Hrf, lookup_insert_eq.
Qed.

End calls.

(** ** The size of a ring *)

Lemma size_loop_bits fuel kb k :
  0 <= kb < 2 ^ Z.of_nat fuel →
  ∃ j, size_loop fuel kb k = k + j ∧ 0 <= j ∧ kb < 2 ^ j ∧ (j = 0 ∨ 2 ^ (j - 1) <= kb).
Proof.
  revert kb k. induction fuel as [|fuel IH]; intros kb k Hk; simpl.
  { exists 0. simpl in *. split_and!; try lia. }
  destruct (Z.ltb_spec 0 kb); [|exists 0; simpl; lia].
  rewrite Nat2Z.inj_succ, Z.pow_succ_r in Hk by lia.
  rewrite Z.shiftr_div_pow2 by lia. change (2 ^ 1) with 2.
  destruct (IH (kb / 2) (k + 1)) as (j & -> & Hj & Hlt & Hge).
  { split; [apply Z.div_pos; lia|apply Z.div_lt_upper_bound; lia]. }
  pose proof (Z.div_mod kb 2 ltac:(lia)). pose proof (Z.mod_pos_bound kb 2 ltac:(lia)).
  exists (j + 1). rewrite Z.add_simpl_r, Z.pow_add_r by lia. change (2 ^ 1) with 2.
  split_and!; try lia. right. destruct Hge as [->|Hge]; [simpl in *; lia|].
  replace j with (j - 1 + 1) by lia.
  destruct (decide (j = 0)) as [->|]; [simpl in *; lia|]. rewrite Z.pow_add_r by lia. lia.
Qed.

Lemma validateRingSize_spec num size :
  0 < num → size = 32 ∨ size = 64 ∨ size = 128 → num * size <= 2 ^ 22 →
  ∃ code, validateRingSize num size = (code, code + 6) ∧ 4 <= code <= 16 ∧
    num * size <= 2 ^ (code + 6) ∧ (code = 4 ∨ 2 ^ (code + 5) < num * size).
Proof.
  intros Hn Hs Hle. unfold validateRingSize.
  assert ((num <=? 0) || (size <=? 0) || negb (modulo size 4 =? 0) = false) as ->.
  { destruct (Z.leb_spec num 0); [lia|]. by destruct Hs as [-> | [-> | ->]]. }
  rewrite (wrap_small 32 (num * size)) by nia.
  change (ICP_ET_SIZE_TO_BYTES ICP_RINGSIZE_MEG_4) with (2 ^ 22).
  destruct (Z.leb_spec (num * size) (2 ^ 22)); [|lia].
  set (b := num * size) in *. assert (0 < b) by nia. clearbody b.
  rewrite (wrap_small 32), Z.shiftr_div_pow2 by (unfold MODULO_SHIFT_FOR_1K; lia).
  unfold MODULO_SHIFT_FOR_1K, ICP_RINGSIZE_KILO_1.
  pose proof (Z.div_mod (b - 1) (2 ^ 10) ltac:(lia)) as Hd.
  pose proof (Z.mod_pos_bound (b - 1) (2 ^ 10) ltac:(lia)).
  set (d := (b - 1) / 2 ^ 10) in *. clearbody d.
  destruct (size_loop_bits 33 d 0) as (j & -> & Hj & Hlt & Hge); [change (2 ^ Z.of_nat 33) with (2 ^ 33); lia|].
  exists (4 + (0 + j)).
  replace (4 + (0 + j) + 6) with (j + 10) by lia. replace (4 + (0 + j) + 5) with (j - 1 + 10) by lia.
  rewrite (Z.pow_add_r 2 j) by lia.
  split; [f_equal; lia|]. split; [|split; [nia|]].
  - split; [lia|]. destruct Hge as [->|Hge]; [lia|].
    destruct (Z.le_gt_cases j 12); [lia|].
    pose proof (Z.pow_le_mono_r 2 12 (j - 1) ltac:(lia) ltac:(lia)). lia.
  - destruct (decide (j = 0)) as [->|]; [by left|]. right.
    destruct Hge as [->|Hge]; [done|]. rewrite Z.pow_add_r by lia. nia.
Qed.

(** The ring of that size has a slot for every message asked for. *)
Lemma validateRingSize_slots num h :
  0 < num → handle_ok h → num * message_size h <= 2 ^ 22 →
  modulo_ h = (validateRingSize num (message_size h)).2 →
  num <= Z.of_nat (Ring.slots (ring_of h)).
Proof.
  intros Hn Hok Hle Hm. pose proof (ring_of_bytes _ Hok) as Hb.
  destruct (Ring.slots_bytes _ (ring_of_ok _ Hok)) as (Hsl & _ & Hpos).
  destruct (validateRingSize_spec num (message_size h)) as (code & E & Hc & Hge & _);
    [done|apply Hok|done|].
  rewrite E in Hm. simpl in Hm. unfold Ring.ring_bytes in Hsl. simpl in Hsl.
  rewrite Hm, Hb in *. replace (code + 6 - 6 + 6) with (code + 6) in Hsl by lia. nia.
Qed.

End UserRingCalls.
