(* ===== verification/UserRingProps.v ===== *)
(** * What holds of the rings of a process

    The theorems on the user-space rings: nothing is overwritten or lost under
    any scheduling of the threads and the device; what sending and polling
    return and do; the size of a ring.  A run of a small pair of rings shows the
    hypotheses can hold. *)

From S2P Require Import Prelude Ring RingSys UserRing UserRingSys UserRingSim UserRingCalls.
Import UserRing UserRingSys UserRingSim UserRingCalls.

#[local] Open Scope Z_scope.
#[local] Open Scope qat_scope.

Module UserRingProps.

Section props.
Context (response : list Z → list Z) (rw : nat) (tx rx : Z).
Context (response_length : ∀ m, length (response m) = rw)
  (response_sig : ∀ m, list.head (response m) ≠ Some Ring.ADF_RING_EMPTY_SIG) (ne : tx ≠ rx).

(** C3 The rings of a process are as safe as the kernel's.  Whatever the order in
    which a thread that sends, any number of threads that poll and the device
    take their steps, at most one thread polls; requests the device has not taken
    read back as they were written, and a sender past the check writes to none of
    their slots; responses not delivered read back as well, and the device, which
    never looks, writes its next response to a slot marked empty; and no
    response is lost, duplicated or invented. *)
Theorem user_rings_safe u :
  reachable response rw tx rx u →
  ∃ t r tb rb, handles (up u) !! tx = Some t ∧ handles (up u) !! rx = Some r ∧
    mem (up u) !! ring_virt_addr t = Some tb ∧ mem (up u) !! ring_virt_addr r = Some rb ∧
    (length (pollers u) <= 1)%nat ∧
    (∀ j m, (taken u <= j)%nat → committed u !! j = Some m →
       Ring.load_msg tb (Ring.pos (ring_of t) j) (message_size t) = m ∧
       ∀ m', snd_ u = Sending m' → Ring.pos (ring_of t) j ≠ tail t) ∧
    (∀ j w, (length (delivered u) <= j)%nat → responded u !! j = Some w →
       Ring.load_msg rb (Ring.pos (ring_of r) j) (message_size r) = w) ∧
    (busy u ≠ [] → Ring.load_word rb (hw_tail u) = Some EMPTY_RING_SIG_WORD) ∧
    delivered u `prefix_of` responded u ∧
    response <$> committed u ≡ₚ
      responded u ++ (response <$> busy u ++ drop (taken u) (committed u)).
Proof.
  intros Hr. destruct (reachable_sim response rw tx rx response_length response_sig ne u Hr)
    as (s & t & r & c & HI & Hs).
  destruct (RingSys.Inv_safe response rw 1 ltac:(lia) s HI) as (_ & Hreq & Hres & Hemp).
  destruct HI as (_ & _ & _ & [_ _ _ Hpre Hperm]). destruct Hs.
  pose proof m_pair0 as (Ht & Hro & _). destruct m_hw0 as (_ & Eht & Ebu & Etk).
  destruct m_hist0 as (Eco & Ere & Ede).
  rewrite m_stx0, m_srx0, ?Eht, ?Ebu, ?Etk, ?Eco, ?Ere, ?Ede, ?ring_of_bytes, ?m_claimed0 in * by done.
  exists t, r, (RingSys.txbuf s), (RingSys.rxbuf s). split_and!; try done.
  - destruct m_polls0 as [[-> _]|[-> _]]; simpl; lia.
  - intros j m Hj Hm. destruct (Hreq j m Hj Hm) as [? Hne]. split; [done|].
    intros m' Hsd. rewrite Hsd in Hne. by apply Hne.
  - intros j w Hj. apply Hres. unfold RingSys.cleared. rewrite Ede. lia.
Qed.

(** C23 Sending.  A call of [adf_user_put_msg] with a message of the ring's size
    returns; it puts the message on the ring and counts it exactly when the
    requests in flight are below the ring's limit, and otherwise returns
    [CPA_STATUS_RETRY] and leaves the count as it was. *)
Theorem user_put_correct u t m :
  reachable response rw tx rx u → snd_ u = Ready →
  handles (up u) !! tx = Some t → tx ≠ 0 → accel_dev t ≠ 0 →
  Z.of_nat (length m) * 4 = message_size t →
  ∃ c p', counters (up u) !! in_flight t = Some c ∧
    let ok := c <? max_requests_inflight t in
    adf_user_put_msg tx (Some m) (up u) =
      Some (if ok then CPA_STATUS_SUCCESS else CPA_STATUS_RETRY, p') ∧
    counters p' !! in_flight t = Some (if ok then c + 1 else c) ∧
    rtc (ustep response tx rx) u
      (USys p' Ready (pollers u) (hw_head u) (hw_tail u) (busy u) (taken u)
         (if ok then committed u ++ [m] else committed u) (responded u) (delivered u)).
Proof.
  intros Hr Hsd Ht Hn Ha Hm.
  destruct (reachable_sim response rw tx rx response_length response_sig ne u Hr)
    as (s & t' & r & c & HI & Hs).
  assert (t' = t) as -> by (destruct Hs; congruence).
  destruct (put_runs response rw tx rx response_length response_sig ne m u s t r c HI Hs Hsd Hn Ha Hm)
    as (p' & ?).
  exists c, p'. split; [by destruct Hs|done].
Qed.

(** C22 Polling.  When no other thread polls, [adf_pollRing] returns; it gives the
    callback the responses the device has written and nobody has been given, in
    their order, at most as many as the quota, takes as many off the count of
    requests in flight, and returns [CPA_STATUS_RETRY] exactly when there were
    none. *)
Theorem user_poll_correct u q :
  reachable response rw tx rx u → pollers u = [] →
  ∃ r c p' pending, handles (up u) !! rx = Some r ∧ counters (up u) !! in_flight r = Some c ∧
    responded u = delivered u ++ pending ∧
    let got := take (Z.to_nat (quota_of q)) pending in
    adf_pollRing rx q (up u) =
      Some (if (length got =? 0)%nat then CPA_STATUS_RETRY else CPA_STATUS_SUCCESS, p') ∧
    calls p' = calls (up u) ++ (pair (callback r) <$> got) ∧
    counters p' !! in_flight r = Some (c - Z.of_nat (length got)) ∧
    rtc (ustep response tx rx) u
      (USys p' (snd_ u) [] (hw_head u) (hw_tail u) (busy u) (taken u) (committed u)
         (responded u) (delivered u ++ got)).
Proof.
  intros Hr Hps.
  destruct (reachable_sim response rw tx rx response_length response_sig ne u Hr)
    as (s & t & r & c & HI & Hs).
  destruct (sim_prefix _ _ _ _ _ _ _ _ _ HI Hs) as [suf Hsuf].
  destruct (poll_runs response rw tx rx response_length response_sig ne q u s t r c suf HI Hs Hps Hsuf)
    as (p' & ?).
  exists r, c, p', suf. split_and!; [by destruct Hs| |done|done].
  destruct Hs, m_pair0 as (_ & _ & _ & -> & _). done.
Qed.

End props.

(** C37 The size of a ring.  For up to 4 megabytes of messages of 32, 64 or 128
    bytes [validateRingSize] gives the code of the smallest ring the hardware
    has, from one kilobyte up, that holds them, and the logarithm of its size,
    so that the ring has a slot for every message and one more than the limit on
    requests in flight. *)
Theorem validateRingSize_correct num h :
  0 < num → handle_ok h → num * message_size h <= 2 ^ 22 →
  modulo_ h = (validateRingSize num (message_size h)).2 →
  let code := (validateRingSize num (message_size h)).1 in
  modulo_ h = code + 6 ∧ ICP_RINGSIZE_KILO_1 <= code <= ICP_RINGSIZE_MEG_4 ∧
  num * message_size h <= ICP_ET_SIZE_TO_BYTES code ∧
  (code = ICP_RINGSIZE_KILO_1 ∨ ICP_ET_SIZE_TO_BYTES (code - 1) < num * message_size h) ∧
  num - 1 < Z.of_nat (Ring.slots (ring_of h)).
Proof.
  intros Hn Hok Hle Hm. pose proof (validateRingSize_slots num h Hn Hok Hle Hm).
  destruct (validateRingSize_spec num (message_size h)) as (code & E & Hc & Hge & Hlt);
    [done|apply Hok|done|].
  rewrite Hm, E. simpl. unfold ICP_ET_SIZE_TO_BYTES, ICP_RINGSIZE_KILO_1, ICP_RINGSIZE_MEG_4.
  rewrite !Z.shiftl_mul_pow2 by lia. change 64 with (2 ^ 6). rewrite <- !Z.pow_add_r by lia.
  replace (6 + code) with (code + 6) by lia. replace (6 + (code - 1)) with (code + 5) by lia.
  split_and!; try done; lia.
Qed.

(** Where the product wraps to 0, the size code is none the hardware has. *)
Lemma validateRingSize_wraps : validateRingSize (2 ^ 26) 64 = (26, 32).
Proof. by vm_compute. Qed.

(** A message whose size is neither 64 nor 128 bytes is refused with a request
    in flight that nobody will ever give back. *)
Lemma put_other_size_leaks ring m p r c :
  ring ≠ 0 → handles p !! ring = Some r → accel_dev r ≠ 0 →
  message_size r ≠ 64 → message_size r ≠ 128 →
  counters p !! in_flight r = Some c → 0 <= c < max_requests_inflight r →
  max_requests_inflight r < 2 ^ 32 →
  adf_user_put_msg ring (Some m) p =
    Some (CPA_STATUS_FAIL, set_counters (<[in_flight r := c + 1]> (counters p)) p).
Proof.
  intros Hn Hr Ha H64 H128 Hc Hlt Hmax. unfold adf_user_put_msg.
  destruct (Z.eqb_spec ring 0); [done|]. piece. destruct (Z.eqb_spec (accel_dev r) 0); [done|].
  piece. rewrite wrap_small by lia. destruct (Z.ltb_spec (max_requests_inflight r) (c + 1)); [lia|].
  unfold ADF_MSG_SIZE_64_BYTES, ADF_MSG_SIZE_128_BYTES.
  destruct (Z.eqb_spec (message_size r) 64), (Z.eqb_spec (message_size r) 128); done.
Qed.

(** ** A run of a small pair of rings *)

Module Example.

Definition response (m : list Z) : list Z := 1 :: replicate 7 (default 0 (list.head m)).
Definition msg (z : Z) : list Z := replicate 16 z.
(** 16 slots of 64 bytes, 32 slots of 32 bytes, 3 requests in flight. *)
Definition tx : adf_dev_ring_handle_t :=
  Handle 1 0 0 0 1024 64 0 ICP_RESP_TYPE_NONE 0x1000 0 0 1 0 0 0 10 0 1 7 3 0 8 0 0x8000.
Definition rx : adf_dev_ring_handle_t :=
  Handle 1 0 0 8 1024 32 77 ICP_RESP_TYPE_POLL 0x2000 0 0 256 0 0 0 10 0 1 7 3 0 8 0 0x8000.
Definition sig : list Z := replicate 256 EMPTY_RING_SIG_WORD.
Definition start : proc :=
  Proc (<[1 := tx]> (<[2 := rx]> ∅)) [] {[7 := 0]} (<[0x1000 := sig]> (<[0x2000 := sig]> ∅)) ∅ [].
Definition u0 : usys := USys start Ready [] 0 0 [] 0 [] [] [].

Lemma u0_initial : initial 8 1 2 u0 tx rx sig sig.
Proof.
  assert (handle_ok tx ∧ handle_ok rx) as [Ht Hr] by (unfold handle_ok; simpl; lia).
  split; try done; try (vm_compute; lia).
  by apply (Forall_replicate (λ w, w = EMPTY_RING_SIG_WORD) 256).
Qed.

Lemma response_length m : length (response m) = 8%nat.
Proof. done. Qed.

Lemma response_sig m : list.head (response m) ≠ Some Ring.ADF_RING_EMPTY_SIG.
Proof. done. Qed.

(** A thread sends a message, the device takes it and answers. *)
Definition run {A} (m : M proc A) (p : proc) : proc :=
  match m p with Some (_, p') => p' | None => p end.
Definition p1 : proc := run (put_claim 1) start.
Definition p2 : proc := run (put_copy 1 (msg 5)) p1.
Definition answered : list Z := default [] (Ring.memcpy_words sig 0 (response (msg 5)) 32).
Definition u1 : usys := USys p1 (Sending (msg 5)) [] 0 0 [] 0 [] [] [].
Definition u2 : usys := USys p2 Ready [] 0 0 [] 0 [msg 5] [] [].
Definition u3 : usys := USys p2 Ready [] 64 0 [msg 5] 1 [msg 5] [] [].
Definition u4 : usys :=
  USys (set_mem (<[0x2000 := answered]> (mem p2)) p2) Ready [] 64 32 [] 1 [msg 5]
    [response (msg 5)] [].

Lemma u3_reachable : reachable response 8 1 2 u3.
Proof.
  exists u0, tx, rx, sig, sig. split; [apply u0_initial|].
  apply (rtc_l _ u0 u1).
  { apply (UClaim response 1 2 (msg 5) start p1 tx _ _ _ _ _ _ _ _ true); by vm_compute. }
  apply (rtc_l _ u1 u2); [apply (UCopy response 1 2 (msg 5) p1 p2 []); by vm_compute|].
  apply rtc_once. set (buf := default [] (mem p2 !! 0x1000)). set (t := default tx (handles p2 !! 1)).
  replace u3 with
    (USys p2 Ready [] (next t 0) 0 ([] ++ [Ring.load_msg buf 0 (message_size t)]) 1 [msg 5] [] [])
    by by vm_compute.
  apply UHwTake; by vm_compute.
Qed.

Lemma u4_reachable : reachable response 8 1 2 u4.
Proof.
  destruct u3_reachable as (u & t & r & tb & rb & Hi & Hr). exists u, t, r, tb, rb.
  split; [done|]. eapply rtc_r; [done|].
  replace u4 with
    (USys (set_mem (<[ring_virt_addr rx := answered]> (mem p2)) p2) Ready [] 64 (next rx 0)
       (delete 0%nat [msg 5]) 1 [msg 5] ([] ++ [response (msg 5)]) []) by by vm_compute.
  eapply UHwRespond; by vm_compute.
Qed.

Lemma user_rings_safe_witness :
  busy u3 ≠ [] ∧ ∃ rb, Ring.load_word rb (hw_tail u3) = Some EMPTY_RING_SIG_WORD ∧
    mem (up u3) !! 0x2000 = Some rb.
Proof.
  split; [done|].
  destruct (user_rings_safe response 8 1 2 response_length response_sig ltac:(done) u3 u3_reachable)
    as (t & r & tb & rb & _ & Hr & _ & Hrb & _ & _ & _ & Hemp & _).
  exists rb. split; [by apply Hemp|]. assert (Some rx = Some r) as [= <-] by (rewrite <- Hr; by vm_compute).
  exact Hrb.
Defined.

Lemma user_put_correct_witness :
  snd_ u0 = Ready ∧ ∃ p', adf_user_put_msg 1 (Some (msg 5)) start = Some (CPA_STATUS_SUCCESS, p').
Proof.
  split; [done|].
  destruct (user_put_correct response 8 1 2 response_length response_sig ltac:(done) u0 tx (msg 5))
    as (c & p' & Hc & Hp & _); [|done..|].
  - exists u0, tx, rx, sig, sig. split; [apply u0_initial|constructor].
  - assert (Some 0 = Some c) as [= <-] by (rewrite <- Hc; by vm_compute).
    exists p'. exact Hp.
Defined.

Lemma user_poll_correct_witness :
  pollers u4 = [] ∧
  ∃ p', adf_pollRing 2 0 (up u4) = Some (CPA_STATUS_SUCCESS, p') ∧ calls p' = [(77, response (msg 5))].
Proof.
  split; [done|].
  destruct (user_poll_correct response 8 1 2 response_length response_sig ltac:(done) u4 0
    u4_reachable eq_refl) as (r & c & p' & pe & Hr & _ & Hpe & Hp & Hcl & _).
  assert (Some rx = Some r) as [= <-] by (rewrite <- Hr; by vm_compute).
  simpl in Hpe. subst pe. exists p'. split; [exact Hp|exact Hcl].
Defined.

Lemma validateRingSize_correct_witness :
  0 < 17 ∧ 17 * message_size tx <= ICP_ET_SIZE_TO_BYTES (validateRingSize 17 64).1.
Proof.
  split; [done|].
  apply (validateRingSize_correct 17
    (Handle 1 0 0 0 0 64 0 ICP_RESP_TYPE_NONE 0 0 0 1 0 0 0 11 0 1 7 16 0 8 0 0));
    [done| |done|by vm_compute].
  unfold handle_ok. simpl. lia.
Defined.

End Example.

End UserRingProps.
