(* ===== verification/UserRingDp.v ===== *)
(** * The data plane on the rings of a process

    The queueing functions of [dc_dp.c]: a client that has prepared its requests
    itself has them written straight into the ring, one at a time or in batches,
    and tells the device once at the end.  The requests are the messages that
    [dcDpWriteRingMsg] builds; the checks of the parameters are left out.  A
    batch is proved to leave what single sends with [adf_user_put_msg] would. *)

From S2P Require Import Prelude Ring UserRing UserRingSys UserRingSim UserRingCalls.
Import UserRing UserRingSys UserRingSim UserRingCalls.

#[local] Open Scope Z_scope.
#[local] Open Scope qat_scope.

Module UserRingDp.

(** The process, and the count of the session the requests are of. *)
Record dp := Dp { proc_of : proc; pendingDpStatelessCbCount : Z }.

Definition on_proc {A} (m : M proc A) : M dp A :=
  λ s, match m (proc_of s) with
       | Some (a, p) => Some (a, Dp p (pendingDpStatelessCbCount s))
       | None => None
       end.
Definition add_pending (n : Z) : M dp () :=
  modify (λ s, Dp (proc_of s) (u64 (pendingDpStatelessCbCount s + n))).

(** The call of [dcDpWriteRingMsg], which builds [m] where it is told to. *)
Definition write_msg (m : list Z) (pCurrentQatMsg : Z * Z) : M proc () :=
  buf <- ring_mem pCurrentQatMsg.1 ;;
  buf <- lift (Ring.memcpy_words buf pCurrentQatMsg.2 m (Z.of_nat (length m) * 4)) ;;
  put_mem pCurrentQatMsg.1 buf.

Definition cpaDcDpEnqueueOp (trans_handle : Z) (m : list Z) (performOpNow : bool) : M dp Z :=
  cur <- on_proc (icp_adf_getSingleQueueAddr trans_handle) ;;
  match cur with
  | None => ret CPA_STATUS_RETRY
  | Some cur =>
    on_proc (write_msg m cur) ;;
    add_pending 1 ;;
    when performOpNow (on_proc (icp_adf_updateQueueTail trans_handle)) ;;
    ret CPA_STATUS_SUCCESS
  end.

Fixpoint write_batch (trans_handle : Z) (l : list (list Z)) (cur : Z * Z) : M proc () :=
  match l with
  | [] => ret ()
  | m :: l =>
    write_msg m cur ;;
    cur <- icp_adf_getQueueNext trans_handle ;;
    write_batch trans_handle l cur
  end.

Definition cpaDcDpEnqueueOpBatch (trans_handle : Z) (pOpData : list (list Z)) (performOpNow : bool)
    : M dp Z :=
  let numberRequests := Z.of_nat (length pOpData) in
  cur <- on_proc (icp_adf_getQueueMemory trans_handle numberRequests) ;;
  match cur with
  | None => ret CPA_STATUS_RETRY
  | Some cur =>
    on_proc (write_batch trans_handle pOpData cur) ;;
    add_pending numberRequests ;;
    when performOpNow (on_proc (icp_adf_updateQueueTail trans_handle)) ;;
    ret CPA_STATUS_SUCCESS
  end.

Definition cpaDcDpPerformOpNow (trans_handle : Z) : M dp Z :=
  more <- on_proc (icp_adf_queueDataToSend trans_handle) ;;
  when more (on_proc (icp_adf_updateQueueTail trans_handle)) ;;
  ret CPA_STATUS_SUCCESS.

Definition icp_sal_DcPollDpInstance (trans_handle responseQuota : Z) : M dp Z :=
  on_proc (icp_adf_pollQueue trans_handle responseQuota).

(** ** What a batch does *)

(** The memory and the tail of ring [r] after messages [l]. *)
Fixpoint copy_all (r : adf_dev_ring_handle_t) (l : list (list Z)) (t : Z) (buf : list Z)
    : option (Z * list Z) :=
  match l with
  | [] => Some (t, buf)
  | m :: l => buf ← Ring.memcpy_words buf t m (message_size r); copy_all r l (next r t) buf
  end.

(** Sending them one by one. *)
Fixpoint put_all (ring : Z) (l : list (list Z)) : M proc () :=
  match l with
  | [] => ret ()
  | m :: l => adf_user_put_msg ring (Some m) ;; put_all ring l
  end.

Definition sized (r : adf_dev_ring_handle_t) (l : list (list Z)) : Prop :=
  Forall (λ m, Z.of_nat (length m) * 4 = message_size r) l.

Lemma copy_all_ext r r' l t buf :
  message_size r' = message_size r → modulo_ r' = modulo_ r → copy_all r' l t buf = copy_all r l t buf.
Proof.
  intros Hs Hm. revert t buf. induction l as [|m l IH]; [done|]. intros t buf. simpl.
  rewrite Hs. destruct (Ring.memcpy_words _ _ _ _) as [buf'|]; [|done]. simpl.
  unfold next. rewrite Hs, Hm. apply IH.
Qed.

Lemma write_batch_run ring l p r buf :
  handles p !! ring = Some r → mem p !! ring_virt_addr r = Some buf → sized r l →
  write_batch ring l (ring_virt_addr r, tail r) p =
  match copy_all r l (tail r) buf with
  | None => None
  | Some (t, buf') =>
    Some ((), Proc (<[ring := UserRing.set_tail t r]> (handles p)) (banks p) (counters p)
                (<[ring_virt_addr r := buf']> (mem p)) (csr p) (calls p))
  end.
Proof.
  revert p r buf. induction l as [|m l IH]; intros p r buf Hr Hb Hs; simpl.
  { unfold ret. rewrite !insert_id by (done || by destruct r). by destruct p. }
  inversion_clear Hs as [|? ? Hm Hl]. unfold write_msg, icp_adf_getQueueNext. simpl.
  rewrite Hm. piece.
  destruct (Ring.memcpy_words buf (tail r) m (message_size r)) as [buf'|]; [|done]. piece.
  set (p' := set_handles _ _).
  pose proof (IH p' (UserRing.set_tail (next r (tail r)) r) buf') as E. simpl in E.
  rewrite E; [|apply lookup_insert_eq..|done]. rewrite (copy_all_ext r) by done.
  destruct (copy_all r l (next r (tail r)) buf') as [[t b]|]; [|reflexivity].
  rewrite !insert_insert_eq. reflexivity.
Qed.

(** What a send leaves of the process when the tail becomes [t]. *)
Definition after_put (ring : Z) (r : adf_dev_ring_handle_t) (c t : Z) (buf : list Z) (p : proc) : proc :=
  Proc (<[ring := set_csr_tail t (UserRing.set_tail t r)]> (handles p)) (banks p)
    (<[in_flight r := c]> (counters p)) (<[ring_virt_addr r := buf]> (mem p))
    (<[tail_addr r := u32 t]> (csr p)) (calls p).

Section sends.
Context (ring : Z) (ring_set : ring ≠ 0).

(** A ring that is set up, its counter and its memory. *)
Definition ready (p : proc) (r : adf_dev_ring_handle_t) (c : Z) (buf : list Z) : Prop :=
  handles p !! ring = Some r ∧ accel_dev r ≠ 0 ∧
  (message_size r = 64 ∨ message_size r = 128) ∧ max_requests_inflight r < 2 ^ 32 ∧
  counters p !! in_flight r = Some c ∧ 0 <= c ∧ mem p !! ring_virt_addr r = Some buf.

Lemma put_one_run m p r c buf :
  ready p r c buf → c + 1 <= max_requests_inflight r →
  adf_user_put_msg ring (Some m) p =
  match Ring.memcpy_words buf (tail r) m (message_size r) with
  | None => None
  | Some buf' => Some (CPA_STATUS_SUCCESS, after_put ring r (c + 1) (next r (tail r)) buf' p)
  end.
Proof.
  intros (Hr & Ha & Hs & Hmax & Hc & Hc0 & Hb) Hle. rewrite (put_msg_eq _ _ _ r) by done.
  pose proof (put_claim_run ring p r c Hr Hc) as E. rewrite wrap_small in E by lia.
  rewrite (bind_Some _ _ _ _ _ E). destruct (Z.ltb_spec (max_requests_inflight r) (c + 1)); [lia|].
  simpl. unfold bind at 1. rewrite (put_copy_run ring m (set_counters _ p) r buf) by done.
  by destruct (Ring.memcpy_words _ _ _ _).
Qed.

Lemma after_put_ready p r c c' t buf buf' :
  ready p r c buf → 0 <= c' →
  ready (after_put ring r c' t buf' p) (set_csr_tail t (UserRing.set_tail t r)) c' buf'.
Proof.
  intros (Hr & Ha & Hs & Hmax & Hc & Hc0 & Hb) Hle. unfold ready, after_put. simpl.
  by rewrite !lookup_insert_eq.
Qed.

Lemma put_all_run m l p r c buf :
  ready p r c buf → c + Z.of_nat (length (m :: l)) <= max_requests_inflight r →
  put_all ring (m :: l) p =
  match copy_all r (m :: l) (tail r) buf with
  | None => None
  | Some (t, buf') => Some ((), after_put ring r (c + Z.of_nat (length (m :: l))) t buf' p)
  end.
Proof.
  revert m p r c buf. induction l as [|m' l IH]; intros m p r c buf Hr Hle.
  - simpl. unfold bind. rewrite (put_one_run _ _ _ _ _ Hr) by (simpl in Hle; lia).
    by destruct (Ring.memcpy_words _ _ _ _).
  - pose proof Hr as (_ & _ & _ & _ & _ & Hc0 & _).
    change (put_all ring (m :: m' :: l) p)
      with ((adf_user_put_msg ring (Some m) ;; put_all ring (m' :: l)) p).
    unfold bind. rewrite (put_one_run _ _ _ _ _ Hr) by (simpl in Hle; lia).
    change (copy_all r (m :: m' :: l) (tail r) buf) with
      (buf ← Ring.memcpy_words buf (tail r) m (message_size r);
       copy_all r (m' :: l) (next r (tail r)) buf).
    destruct (Ring.memcpy_words _ _ _ _) as [buf'|]; [|done].
    set (p1 := after_put _ _ _ _ _ _).
    rewrite (IH m' p1 _ (c + 1) buf' (after_put_ready p r c (c + 1) (next r (tail r)) buf buf' Hr ltac:(lia)))
      by (simpl in *; lia).
    rewrite (copy_all_ext r) by done. cbn [mbind option_bind].
    change (tail (set_csr_tail _ _)) with (next r (tail r)).
    destruct (copy_all r (m' :: l) _ _) as [[t b]|]; [|done].
    replace (c + 1 + Z.of_nat (length (m' :: l))) with (c + Z.of_nat (length (m :: m' :: l)))
      by (simpl; lia).
    unfold p1, after_put. cbn [handles banks counters mem csr calls in_flight ring_virt_addr
      set_csr_tail UserRing.set_tail]. rewrite !insert_insert_eq. reflexivity.
Qed.

(** The queue functions of a batch of [n] on a ring that is ready. *)
Lemma get_queue_memory_run n p r c buf :
  ready p r c buf → 0 <= n → c + n < 2 ^ 32 →
  icp_adf_getQueueMemory ring n p =
  if max_requests_inflight r <=? c + n then Some (None, p)
  else Some (Some (ring_virt_addr r, tail r),
             set_counters (<[in_flight r := c + n]> (counters p)) p).
Proof.
  intros (Hr & _ & _ & _ & Hc & Hc0 & _) Hn Hlt. unfold icp_adf_getQueueMemory. piece.
  rewrite (wrap_small 32 (c + n)) by lia. destruct (_ <=? _); [done|]. piece.
  by rewrite wrap_small by lia.
Qed.

Lemma update_tail_run p r :
  handles p !! ring = Some r →
  icp_adf_updateQueueTail ring p =
  Some ((), set_csr (<[tail_addr r := u32 (tail r)]> (csr p))
              (set_handles (<[ring := set_csr_tail (tail r) r]> (handles p)) p)).
Proof. intros Hr. unfold icp_adf_updateQueueTail. piece. reflexivity. Qed.

Lemma batch_run m l p r c buf k :
  ready p r c buf → sized r (m :: l) → c + Z.of_nat (length (m :: l)) < 2 ^ 32 →
  cpaDcDpEnqueueOpBatch ring (m :: l) true (Dp p k) =
  let n := Z.of_nat (length (m :: l)) in
  if max_requests_inflight r <=? c + n then Some (CPA_STATUS_RETRY, Dp p k)
  else match copy_all r (m :: l) (tail r) buf with
       | None => None
       | Some (t, buf') => Some (CPA_STATUS_SUCCESS, Dp (after_put ring r (c + n) t buf' p) (u64 (k + n)))
       end.
Proof.
  intros Hrd Hs Hlt. pose proof Hrd as (Hr & _ & _ & _ & _ & _ & Hb). set (l' := m :: l) in *.
  unfold cpaDcDpEnqueueOpBatch. cbv zeta. unfold bind at 1, on_proc at 1. cbn [proc_of].
  rewrite (get_queue_memory_run _ _ _ _ _ Hrd) by lia.
  destruct (max_requests_inflight r <=? c + Z.of_nat (length l')); [reflexivity|].
  unfold bind at 1, on_proc at 1. cbn [proc_of].
  rewrite (write_batch_run ring l' (set_counters _ p) r buf) by done.
  destruct (copy_all r l' (tail r) buf) as [[t buf']|]; [|reflexivity].
  unfold add_pending. rewrite bind_modify. cbn [proc_of pendingDpStatelessCbCount when].
  unfold bind at 1, on_proc at 1. cbn [proc_of].
  erewrite update_tail_run by apply lookup_insert_eq. unfold after_put. simpl.
  rewrite insert_insert_eq. reflexivity.
Qed.

End sends.

(** C27 The data plane and single sends agree.  A batch that the limit of the
    ring has room for leaves the process as sending its messages one by one
    with [adf_user_put_msg] does -- the same slots, tail, registers and requests
    in flight -- and adds their number to the session's count; otherwise nothing
    changes and [CPA_STATUS_RETRY] is returned.  Unlike a single send, a batch
    never takes the last request the limit allows. *)
Theorem cpaDcDpEnqueueOpBatch_puts ring m l p r c buf k :
  ring ≠ 0 → ready ring p r c buf → sized r (m :: l) → c + Z.of_nat (length (m :: l)) < 2 ^ 32 →
  let n := Z.of_nat (length (m :: l)) in
  cpaDcDpEnqueueOpBatch ring (m :: l) true (Dp p k) =
  if max_requests_inflight r <=? c + n then Some (CPA_STATUS_RETRY, Dp p k)
  else match put_all ring (m :: l) p with
       | None => None
       | Some (_, p') => Some (CPA_STATUS_SUCCESS, Dp p' (u64 (k + n)))
       end.
Proof.
  intros Hn Hrd Hs Hlt n. rewrite (batch_run ring _ _ _ _ _ _ _ Hrd Hs Hlt). cbv zeta. fold n.
  destruct (Z.leb_spec (max_requests_inflight r) (c + n)); [done|].
  rewrite (put_all_run ring Hn _ _ _ _ _ _ Hrd) by (subst n; lia). fold n.
  by destruct (copy_all _ _ _ _) as [[t buf']|].
Qed.

(** Two messages of a ring of 16 slots, with room for two more. *)
Lemma cpaDcDpEnqueueOpBatch_puts_witness :
  let h := Handle 1 0 0 0 1024 64 0 ICP_RESP_TYPE_NONE 0x1000 0 0 1 0 0 960 10 0 1 7 15 0 8 960 0x8000 in
  let p := Proc {[1 := h]} [] {[7 := 12]} {[0x1000 := replicate 256 EMPTY_RING_SIG_WORD]} ∅ [] in
  let ms := [replicate 16 5; replicate 16 6] in
  12 + 2 < max_requests_inflight h ∧
  (prod_map id proc_of <$> cpaDcDpEnqueueOpBatch 1 ms true (Dp p 0)) =
    (λ x, (CPA_STATUS_SUCCESS, x.2)) <$> put_all 1 ms p.
Proof.
  intros h p ms. split; [done|]. subst ms.
  rewrite (cpaDcDpEnqueueOpBatch_puts 1 (replicate 16 5) [replicate 16 6] p h 12
             (replicate 256 EMPTY_RING_SIG_WORD) 0);
    [| done | unfold ready; split_and!; try done; by left | by repeat constructor | done].
  cbv zeta. change (max_requests_inflight h <=? _) with false. cbv iota.
  by destruct (put_all 1 _ p) as [[[] p']|].
Defined.

End UserRingDp.
