(* ===== verification/UserRingInit.v ===== *)
(** * Setting up the rings of a process

    [adf_init_ring] and [adf_cleanup_ring] of [uio_user_ring.c] with what they
    call, and the creation and release of a handle in
    [adf_user_transport_ctrl.c].  What the system answers -- a bundle's mapping,
    memory, the configuration, the kernel's reservation of a ring -- is a record
    of answers; the ioctls are logged.  Registers can be written while their
    bundle is mapped, and freeing what is not there is a fault.  Locks never
    fail; names are left out but for the allocation of their copies. *)

From S2P Require Import Prelude Ring UserRing.
Import UserRing.

#[local] Open Scope Z_scope.
#[local] Open Scope qat_scope.

Module UserRingInit.

Definition EBUSY := 16.
Definition ICP_RING_NEAR_WATERMARK_0 := 0x00.
Definition ICP_RING_NEAR_WATERMARK_512 := 0x08.
Definition RING_CONFIG_NEAR_FULL_WM := 0x0A.
Definition RING_CONFIG_NEAR_EMPTY_WM := 0x05.

Definition BUILD_RING_CONFIG (size : Z) : Z :=
  Z.shiftl ICP_RING_NEAR_WATERMARK_0 RING_CONFIG_NEAR_FULL_WM
  .| Z.shiftl ICP_RING_NEAR_WATERMARK_0 RING_CONFIG_NEAR_EMPTY_WM .| size.
Definition BUILD_RESP_RING_CONFIG (size watermark_nf watermark_ne : Z) : Z :=
  Z.shiftl watermark_nf RING_CONFIG_NEAR_FULL_WM
  .| Z.shiftl watermark_ne RING_CONFIG_NEAR_EMPTY_WM .| size.
Definition BUILD_RING_BASE_ADDR (addr size : Z) : Z :=
  Z.shiftr addr 6 .& u64 (Z.shiftl 0xFFFFFFFFFFFFFFFF size).

Inductive ring_ioctl_ops := RING_OP_RESERVE | RING_OP_RELEASE | RING_OP_ENABLE | RING_OP_DISABLE.

(** The process, the bundles it has mapped with their addresses, the banks' and
    rings' ioctls so far, and where the counters of requests in flight are. *)
Record user := User {
  proc_of : proc;
  bundles : gmap Z Z;
  ioctls : list (ring_ioctl_ops * Z * Z);
  ringInflights : Z
}.

Definition on_proc {A} (m : M proc A) : M user A :=
  λ s, match m (proc_of s) with
       | Some (a, p) => Some (a, User p (bundles s) (ioctls s) (ringInflights s))
       | None => None
       end.
Definition ring_ioctl (bank_nr ring_nr : Z) (op : ring_ioctl_ops) : M user () :=
  modify (λ s, User (proc_of s) (bundles s) (ioctls s ++ [(op, bank_nr, ring_nr)]) (ringInflights s)).
Definition set_bundles (v : gmap Z Z) : M user () :=
  modify (λ s, User (proc_of s) v (ioctls s) (ringInflights s)).

Definition the_bank (b : Z) : M user adf_dev_bank_handle_t := on_proc (get_bank b).
Definition put_bank (b : Z) (v : adf_dev_bank_handle_t) : M user () :=
  bs <- gets (λ s, banks (proc_of s)) ;;
  bs <- lift (aset bs b v) ;;
  on_proc (modify (set_banks bs)).
Definition set_ring_mask v b :=
  Bank (bank_offset_b b) (interrupt_mask b) (pollingMask_b b) (tx_rings_mask b) v (csr_addr_b b)
    (bundle b) (rings b).
Definition set_masks i p b :=
  Bank (bank_offset_b b) i p (tx_rings_mask b) (ring_mask_b b) (csr_addr_b b) (bundle b) (rings b).
Definition set_bundle c v b :=
  Bank (bank_offset_b b) (interrupt_mask b) (pollingMask_b b) (tx_rings_mask b) (ring_mask_b b) c v
    (rings b).
Definition set_rings v b :=
  Bank (bank_offset_b b) (interrupt_mask b) (pollingMask_b b) (tx_rings_mask b) (ring_mask_b b)
    (csr_addr_b b) (bundle b) v.
Definition upd_bank (b : Z) (f : adf_dev_bank_handle_t → adf_dev_bank_handle_t) : M user () :=
  v <- the_bank b ;; put_bank b (f v).

(** [(bank->rings)[i] = v] *)
Definition store_ring (bank_nr i v : Z) : M user () :=
  bank <- the_bank bank_nr ;;
  l <- lift (rings bank) ;;
  l <- lift (aset l i v) ;;
  put_bank bank_nr (set_rings (Some l) bank).

(** A register of a bundle that is mapped. *)
Definition mapped (base : Z) : M user () :=
  ok <- gets (λ s, bool_decide (base ∈ (map_to_list (bundles s)).*2)) ;;
  if (ok : bool) then ret () else fault.
Definition WRITE_CSR_RING_CONFIG base bank_offset ring value : M user () :=
  mapped base ;; on_proc (csr_wr base (bank_offset + 0x000 + Z.shiftl ring 2) value).
Definition WRITE_CSR_RING_BASE base bank_offset ring value : M user () :=
  mapped base ;;
  on_proc (csr_wr base (bank_offset + 0x040 + Z.shiftl ring 2) (value .& 0xFFFFFFFF)) ;;
  on_proc (csr_wr base (bank_offset + 0x080 + Z.shiftl ring 2)
             (Z.shiftr (value .& 0xFFFFFFFF00000000) 32)).

(** ** A ring *)

Definition adf_reserve_ring (bank_nr ring_number : Z) : M user Z :=
  bank <- the_bank bank_nr ;;
  if ring_mask_b bank .& BIT ring_number =? 0 then
    upd_bank bank_nr (λ b, set_ring_mask (ring_mask_b b .| BIT ring_number) b) ;;
    ret 0
  else ret (- EBUSY).

Definition adf_unreserve_ring (bank_nr ring_number : Z) : M user () :=
  upd_bank bank_nr (λ bank, set_ring_mask (clear (ring_mask_b bank) (BIT ring_number)) bank).

(** [qaeMemFreeNUMA] of the ring's memory: NULL is refused. *)
Definition free_mem (v : Z) : M user () :=
  if v =? 0 then ret () else
  on_proc (ring_mem v) ;; on_proc (modify (λ p, set_mem (delete v (mem p)) p)).

(** The fields [adf_init_ring] sets before the allocation, and after it. *)
Definition ring_setup (bank_nr ring_num csr msg_size modulo ring_size virt phys : Z)
    (h : adf_dev_ring_handle_t) : adf_dev_ring_handle_t :=
  Handle (accel_dev h) (bank_num h) 0 ring_num ring_size msg_size (callback h) (resp h) virt phys
    (interrupt_user_mask h) (pollingMask h) bank_nr 0 0 modulo (ringResponseQuota h)
    (pollingInProgress h) (in_flight h) (max_requests_inflight h) (coal_write_count h)
    (min_resps_per_head_write h) (csrTailOffset h) csr.
Definition set_limits (min max : Z) (h : adf_dev_ring_handle_t) : adf_dev_ring_handle_t :=
  Handle (accel_dev h) (bank_num h) (bank_offset h) (ring_num h) (ring_size h) (message_size h)
    (callback h) (resp h) (ring_virt_addr h) (ring_phys_base_addr h) (interrupt_user_mask h)
    (pollingMask h) (bank_data h) (head h) (tail h) (modulo_ h) (ringResponseQuota h)
    (pollingInProgress h) (in_flight h) max (coal_write_count h) min (csrTailOffset h) (csr_addr h).
Definition set_virt (v : Z) (h : adf_dev_ring_handle_t) : adf_dev_ring_handle_t :=
  Handle (accel_dev h) (bank_num h) (bank_offset h) (ring_num h) (ring_size h) (message_size h)
    (callback h) (resp h) v (ring_phys_base_addr h) (interrupt_user_mask h)
    (pollingMask h) (bank_data h) (head h) (tail h) (modulo_ h) (ringResponseQuota h)
    (pollingInProgress h) (in_flight h) (max_requests_inflight h) (coal_write_count h)
    (min_resps_per_head_write h) (csrTailOffset h) (csr_addr h).

(** [virt], [phys]: what [qaeMemAllocNUMA] and [qaeVirtToPhysNUMA] return, 0 when
    they fail; [junk]: what is in the memory. *)
Definition adf_init_ring (ring bank_nr ring_num csr_base_addr num_msgs msg_size virt phys : Z)
    (junk : list Z) : M user Z :=
  let (ring_size_cfg, modulo) := validateRingSize num_msgs msg_size in
  let ring_size_bytes := u32 (ICP_ET_SIZE_TO_BYTES ring_size_cfg) in
  busy <- adf_reserve_ring bank_nr ring_num ;;
  if negb (busy =? 0) then ret (- EBUSY) else
  when (negb (virt =? 0)) (on_proc (put_mem virt junk)) ;;
  on_proc (upd_handle ring
    (ring_setup bank_nr ring_num csr_base_addr msg_size modulo ring_size_bytes virt phys)) ;;
  if (virt =? 0) || (phys =? 0) then
    adf_unreserve_ring bank_nr ring_num ;;
    when (negb (phys =? 0)) (free_mem virt ;; on_proc (upd_handle ring (set_virt 0))) ;;
    ret (- ENOMEM)
  else
    on_proc (put_mem virt (replicate (Z.to_nat (ring_size_bytes / 4)) EMPTY_RING_SIG_WORD)) ;;
    if msg_size =? 0 then fault else
    let half := Z.shiftr (ring_size_bytes / msg_size) 1 in
    on_proc (upd_handle ring
      (set_limits (if MIN_RESPONSES_PER_HEAD_WRITE <? half then MIN_RESPONSES_PER_HEAD_WRITE else half)
         (u32 (num_msgs - 1)))) ;;
    WRITE_CSR_RING_BASE csr_base_addr 0 ring_num (BUILD_RING_BASE_ADDR phys ring_size_cfg) ;;
    bank <- the_bank bank_nr ;;
    WRITE_CSR_RING_CONFIG csr_base_addr 0 ring_num
      (if negb (tx_rings_mask bank .& BIT ring_num =? 0) then BUILD_RING_CONFIG ring_size_cfg
       else BUILD_RESP_RING_CONFIG ring_size_cfg ICP_RING_NEAR_WATERMARK_512 ICP_RING_NEAR_WATERMARK_0) ;;
    r <- on_proc (handle ring) ;;
    ring_ioctl (bank_num r) (ring_num) RING_OP_ENABLE ;;
    ret 0.

Definition adf_ring_freebuf (ring : Z) : M user Z :=
  r <- on_proc (handle ring) ;;
  when (negb (ring_virt_addr r =? 0))
    (free_mem (ring_virt_addr r) ;; on_proc (upd_handle ring (set_virt 0))) ;;
  ret 0.

Definition adf_cleanup_ring (ring : Z) : M user () :=
  r <- on_proc (handle ring) ;;
  ring_ioctl (bank_num r) (ring_num r) RING_OP_DISABLE ;;
  WRITE_CSR_RING_CONFIG (csr_addr r) (bank_offset r) (ring_num r) 0 ;;
  WRITE_CSR_RING_BASE (csr_addr r) (bank_offset r) (ring_num r) 0 ;;
  adf_unreserve_ring (bank_data r) (ring_num r) ;;
  when (negb (ring_virt_addr r =? 0))
    (on_proc (ring_mem (ring_virt_addr r)) ;;
     on_proc (put_mem (ring_virt_addr r)
       (replicate (Z.to_nat (ring_size r / 4)) EMPTY_RING_SIG_WORD)) ;;
     free_mem (ring_virt_addr r) ;;
     on_proc (upd_handle ring (set_virt 0))).

(** ** A handle *)

(** What the system answers to one creation. *)
Record answers := Answers {
  a_bundle : option (Z * Z);  (** [uio_get_bundle_from_accelid]: the bundle, its mapping *)
  a_rings : bool;             (** memory for [bank->rings] *)
  a_config : option Z;        (** the ring number in the configuration *)
  a_reserve : bool;           (** the kernel reserves the ring *)
  a_handle : Z;               (** memory for the handle, 0 for none *)
  a_service : bool;           (** memory for the copies of the names *)
  a_section : bool;
  a_virt : Z;                 (** the ring's memory *)
  a_phys : Z;
  a_junk : list Z;
  a_lock : bool               (** memory for the handle's lock *)
}.

Definition maxNumRingsPerBank := 16.

Definition uio_free_bundle (b : Z) : M user () :=
  m <- gets bundles ;; lift (m !! b) ;; set_bundles (delete b m).

Definition init_bank_from_accel (a : answers) (bank_nr : Z) : M user Z :=
  match a_bundle a with
  | None => ret CPA_STATUS_FAIL
  | Some (b, ptr) =>
    m <- gets bundles ;; set_bundles (<[b := ptr]> m) ;;
    upd_bank bank_nr (set_bundle ptr b) ;;
    if a_rings a then
      upd_bank bank_nr (set_rings (Some (replicate (Z.to_nat maxNumRingsPerBank) 0))) ;;
      ret CPA_STATUS_SUCCESS
    else
      upd_bank bank_nr (set_rings None) ;; uio_free_bundle b ;; ret CPA_STATUS_FAIL
  end.

Definition free_handle (h : Z) : M user () :=
  on_proc (handle h) ;; on_proc (modify (λ p, set_handles (delete h (handles p)) p)).

Definition icp_adf_transReleaseHandle (trans_handle : Z) : M user Z :=
  if trans_handle =? 0 then ret CPA_STATUS_INVALID_PARAM else
  r <- on_proc (handle trans_handle) ;;
  if accel_dev r =? 0 then ret CPA_STATUS_INVALID_PARAM else
  upd_bank (bank_num r)
    (λ b, set_masks (clear (interrupt_mask b) (BIT (ring_num r)))
            (clear (pollingMask_b b) (BIT (ring_num r))) b) ;;
  adf_cleanup_ring trans_handle ;;
  ring_ioctl (bank_num r) (ring_num r) RING_OP_RELEASE ;;
  store_ring (bank_num r) (ring_num r) 0 ;;
  free_handle trans_handle ;;
  ret CPA_STATUS_SUCCESS.

(** What the failure paths of the creation end with. *)
Definition fail_create (bank_nr : Z) : M user (Z * Z) :=
  upd_bank bank_nr (set_rings None) ;;
  bank <- the_bank bank_nr ;;
  uio_free_bundle (bundle bank) ;;
  ret (CPA_STATUS_FAIL, 0).
Definition release_fail (bank_nr ring_rnum : Z) : M user (Z * Z) :=
  ring_ioctl bank_nr ring_rnum RING_OP_RELEASE ;; fail_create bank_nr.

(** The handle as it is passed to [adf_init_ring]. *)
Definition fresh_handle (accel_dev bank_nr ring_rnum callback msg_size : Z)
    (resp : icp_resp_deliv_method) : adf_dev_ring_handle_t :=
  let irq := bool_decide (resp = ICP_RESP_TYPE_IRQ) in
  let polled := irq || bool_decide (resp = ICP_RESP_TYPE_POLL) in
  Handle accel_dev bank_nr 0 0 0 msg_size callback resp 0 0
    (if irq then BIT ring_rnum else 0) (if polled then BIT ring_rnum else 0) 0 0 0 0 0 0 0 0 0 0 0 0.

Definition set_in_flight (a : Z) (h : adf_dev_ring_handle_t) : adf_dev_ring_handle_t :=
  Handle (accel_dev h) (bank_num h) (bank_offset h) (ring_num h) (ring_size h) (message_size h)
    (callback h) (resp h) (ring_virt_addr h) (ring_phys_base_addr h) (interrupt_user_mask h)
    (pollingMask h) (bank_data h) (head h) (tail h) (modulo_ h) (ringResponseQuota h)
    (pollingInProgress h) a (max_requests_inflight h) (coal_write_count h)
    (min_resps_per_head_write h) (csrTailOffset h) (csr_addr h).

(** A request ring and its response ring share the counter. *)
Definition in_flight_index (bank_nr ring_nr : Z) : Z :=
  Z.shiftr (maxNumRingsPerBank * bank_nr) 1 +
  (if ring_nr <? maxNumRingsPerBank / 2 then ring_nr else ring_nr - maxNumRingsPerBank / 2).

(** The rest of the creation once the ring is set up. *)
Definition publish (a : answers) (bank_nr ring_rnum h : Z) : M user (Z * Z) :=
  store_ring bank_nr ring_rnum h ;;
  r <- on_proc (handle h) ;;
  upd_bank (bank_num r)
    (λ b, set_masks (interrupt_mask b .| interrupt_user_mask r) (pollingMask_b b .| pollingMask r) b) ;;
  bank <- the_bank (bank_num r) ;;
  when (bool_decide (resp r = ICP_RESP_TYPE_IRQ))
    (mapped (csr_addr r) ;;
     on_proc (WRITE_CSR_INT_COL_EN (csr_addr r) (bank_offset r) (interrupt_mask bank))) ;;
  base <- gets ringInflights ;;
  let in_flight := base + 4 * in_flight_index (bank_num r) (ring_num r) in
  on_proc (upd_handle h (set_in_flight in_flight)) ;;
  on_proc (put_counter in_flight 0) ;;
  on_proc (upd_handle h (set_polling 1)) ;;
  if a_lock a then ret (CPA_STATUS_SUCCESS, h)
  else icp_adf_transReleaseHandle h ;; release_fail bank_nr ring_rnum.

(** The creation on a bank that has its bundle.  ([icp_adf_transGetRingNum] does
    not fail on a handle.) *)
Definition create_ring (a : answers) (accel_dev bank_nr callback : Z)
    (resp : icp_resp_deliv_method) (num_msgs msg_size : Z) : M user (Z * Z) :=
  match a_config a with
  | None => fail_create bank_nr
  | Some ring_rnum =>
    if (ring_rnum <? 0) || (maxNumRingsPerBank <=? ring_rnum) then fail_create bank_nr else
    ring_ioctl bank_nr ring_rnum RING_OP_RESERVE ;;
    if negb (a_reserve a) then fail_create bank_nr else
    let h := a_handle a in
    if h =? 0 then release_fail bank_nr ring_rnum else
    on_proc (modify (λ p,
      set_handles (<[h := fresh_handle accel_dev bank_nr ring_rnum callback msg_size resp]> (handles p)) p)) ;;
    if negb (a_service a) || negb (a_section a) || bool_decide (resp = ICP_RESP_TYPE_DELIMIT)
    then free_handle h ;; release_fail bank_nr ring_rnum else
    bank <- the_bank bank_nr ;;
    status <- adf_init_ring h bank_nr ring_rnum (csr_addr_b bank) num_msgs msg_size (a_virt a)
                (a_phys a) (a_junk a) ;;
    if negb (status =? 0) then free_handle h ;; release_fail bank_nr ring_rnum else
    publish a bank_nr ring_rnum h
  end.

(** The status, and [*trans_handle] (the pointer to it is not NULL). *)
Definition icp_adf_transCreateHandle (a : answers) (accel_dev bank_nr callback : Z)
    (resp : icp_resp_deliv_method) (num_msgs msg_size : Z) : M user (Z * Z) :=
  if accel_dev =? 0 then ret (CPA_STATUS_INVALID_PARAM, 0) else
  bank <- the_bank bank_nr ;;
  status <- (if bundle bank =? 0 then init_bank_from_accel a bank_nr else ret CPA_STATUS_SUCCESS) ;;
  if status <? 0 then ret (CPA_STATUS_FAIL, 0) else
  create_ring a accel_dev bank_nr callback resp num_msgs msg_size.

End UserRingInit.
