(* ===== verification/UserRingSetup.v ===== *)
(** * What holds of the set-up of rings

    A pair of handles that was created is a pair [UserRingProps] speaks of; and
    what a failed creation leaves behind. *)

From S2P Require Import Prelude Ring UserRing UserRingSys UserRingSim UserRingCalls UserRingInit.
Import UserRing UserRingSys UserRingSim UserRingCalls UserRingInit.

#[local] Open Scope Z_scope.
#[local] Open Scope qat_scope.

Module UserRingSetup.

(** Lemmas of the form [keeps m]. *)
Create HintDb keeps.

Definition bank_of (b : Z) (u : user) : option adf_dev_bank_handle_t := aget (banks (proc_of u)) b.

Lemma the_bank_run b u :
  the_bank b u = (λ v, (v, u)) <$> bank_of b u.
Proof.
  unfold the_bank, on_proc, get_bank, bank_of, gets, bind, lift. simpl.
  destruct (aget _ b); simpl; [|done]. by destruct u.
Qed.

Lemma put_bank_run b v w u :
  bank_of b u = Some w →
  ∃ bs, put_bank b v u = Some ((), User (set_banks bs (proc_of u)) (bundles u) (ioctls u) (ringInflights u)) ∧
    aset (banks (proc_of u)) b v = Some bs ∧ aget bs b = Some v ∧ ∀ b', b' ≠ b → aget bs b' = bank_of b' u.
Proof.
  intros Hb. pose proof (aget_Some _ _ _ Hb) as Hr.
  destruct (aset (banks (proc_of u)) b v) as [bs|] eqn:E.
  - exists bs. split_and!; [|done|by eapply aget_aset_eq|by intros; eapply aget_aset_ne].
    unfold put_bank, gets, bind, lift. by rewrite E.
  - rewrite aset_in in E by done. done.
Qed.

(** ** After a failed creation *)

Section failed.
Context (b : Z).

(** The bank's bundle is gone, but the bank does not know. *)
Definition poisoned (u : user) : Prop :=
  ∃ bank, bank_of b u = Some bank ∧ bundle bank ≠ 0 ∧ bundles u !! bundle bank = None ∧
    rings bank = None.

(** An operation after which bundles and the bank's are as before. *)
Definition keeps {A} (m : M user A) : Prop :=
  ∀ u a u', m u = Some (a, u') → bundles u' = bundles u ∧
    ∀ v, bank_of b u = Some v →
      ∃ v', bank_of b u' = Some v' ∧ bundle v' = bundle v ∧ (rings v = None → rings v' = None).

Definition dead {A} (m : M user A) : Prop := ∀ u, poisoned u → m u = None.

Lemma keeps_poisoned {A} (m : M user A) u a u' :
  keeps m → m u = Some (a, u') → poisoned u → poisoned u'.
Proof.
  intros Hk Hm (v & Hv & Hn & Hbu & Hr). destruct (Hk u a u' Hm) as [E Hb].
  destruct (Hb v Hv) as (v' & Hv' & Ebu & Hr'). exists v'. rewrite E, Ebu. auto.
Qed.

Lemma keeps_bind {A B} (m : M user A) (k : A → M user B) :
  keeps m → (∀ a, keeps (k a)) → keeps (bind m k).
Proof.
  intros Hm Hk u x u'. unfold bind. destruct (m u) as [[a u1]|] eqn:E; [|done]. intros E2.
  destruct (Hm _ _ _ E) as [E1 H1], (Hk a _ _ _ E2) as [E3 H2]. split; [congruence|].
  intros v Hv. destruct (H1 v Hv) as (v1 & Hv1 & Hb1 & Hr1). destruct (H2 v1 Hv1) as (v2 & ? & ? & ?).
  exists v2. split_and!; [done|congruence|auto].
Qed.

Lemma keeps_pure {A} (m : M user A) : (∀ u a u', m u = Some (a, u') → u' = u) → keeps m.
Proof. intros Hm u a u' E. rewrite (Hm _ _ _ E). eauto. Qed.

Lemma keeps_ret {A} (a : A) : keeps (ret a : M user A).
Proof. apply keeps_pure. by intros u x u' [= _ <-]. Qed.

Lemma keeps_fault {A} : keeps (fault : M user A).
Proof. by intros u a u'. Qed.

Lemma keeps_gets {A} (f : user → A) : keeps (gets f).
Proof. apply keeps_pure. by intros u x u' [= _ <-]. Qed.

Lemma keeps_lift {A} (o : option A) : keeps (lift o : M user A).
Proof. apply keeps_pure. intros u x u'. unfold lift. destruct o; [by intros [= _ <-]|done]. Qed.

Lemma keeps_when (c : bool) (m : M user ()) : keeps m → keeps (when c m).
Proof. destruct c; [done|intros _; apply keeps_ret]. Qed.

Lemma keeps_the_bank b' : keeps (the_bank b').
Proof. apply keeps_pure. intros u x u'. rewrite the_bank_run. by destruct (bank_of b' u); intros [= _ <-]. Qed.

(** Functions of the process do not touch its banks. *)
Definition keeps_banks {A} (m : M proc A) : Prop := ∀ p a p', m p = Some (a, p') → banks p' = banks p.

Lemma keeps_on_proc {A} (m : M proc A) : keeps_banks m → keeps (on_proc m).
Proof.
  intros Hm u a u'. unfold on_proc. destruct (m (proc_of u)) as [[x p]|] eqn:E; [|done].
  intros [= _ <-]. simpl. split; [done|]. intros v. unfold bank_of. simpl. rewrite (Hm _ _ _ E). eauto.
Qed.

Lemma keeps_upd_bank b' f :
  (∀ v, bundle (f v) = bundle v ∧ (rings v = None → rings (f v) = None)) → keeps (upd_bank b' f).
Proof.
  intros Hf u a u'. unfold upd_bank, bind. rewrite the_bank_run.
  destruct (bank_of b' u) as [w|] eqn:Hw; [|done]. simpl.
  destruct (put_bank_run b' (f w) w u Hw) as (bs & -> & _ & Heq & Hne). intros [= _ <-].
  split; [done|]. intros v Hv. unfold bank_of at 1. simpl.
  destruct (decide (b = b')) as [->|Hd]; [|rewrite Hne by done; eauto].
  assert (v = w) as -> by congruence. rewrite Heq. exists (f w). naive_solver.
Qed.

Lemma keeps_ioctl b' r op : keeps (ring_ioctl b' r op).
Proof. intros u a u' [= _ <-]. simpl. split; [done|]. unfold bank_of. simpl. eauto. Qed.

Lemma keeps_store_ring b' i h : keeps (store_ring b' i h).
Proof.
  intros u a u'. unfold store_ring. unfold bind at 1. rewrite the_bank_run.
  destruct (bank_of b' u) as [w|] eqn:Hw; [|done]. simpl. unfold bind, lift.
  destruct (rings w) as [l|] eqn:Hl; [|done]. destruct (aset l i h) as [l'|]; [|done].
  destruct (put_bank_run b' (set_rings (Some l') w) w u Hw) as (bs & -> & _ & Heq & Hne).
  intros [= _ <-]. split; [done|]. intros v Hv. unfold bank_of. simpl.
  destruct (decide (b = b')) as [->|Hd]; [|rewrite Hne by done; eauto].
  assert (v = w) as -> by congruence. rewrite Heq. exists (set_rings (Some l') w).
  split_and!; [done|done|]. by rewrite Hl.
Qed.

(** Tactics for the two kinds of lemma: a function of the process, and an
    operation built from others. *)
Ltac process_only :=
  intros ? ? ?; unfold handle, upd_handle, put_handle, ring_mem, put_mem, counter, put_counter, csr_wr,
    UserRing.WRITE_CSR_INT_COL_EN, csr_wr, handle, counter, bind, gets, modify, lift, ret; simpl;
  repeat case_match; naive_solver.

Ltac keep :=
  repeat first
    [ apply keeps_ret | apply keeps_fault | apply keeps_gets | apply keeps_lift
    | apply keeps_the_bank | apply keeps_ioctl | apply keeps_store_ring
    | apply keeps_upd_bank; intros ?; split; [done|by intros]
    | apply keeps_on_proc; process_only
    | apply keeps_when
    | solve [eauto 2 with keeps]
    | apply keeps_bind; [|intros ?]
    | match goal with |- keeps (if ?c then _ else _) => destruct c end ].

Lemma keeps_mapped base : keeps (mapped base).
Proof. unfold mapped. keep. Qed.

#[local] Hint Resolve keeps_mapped : keeps.

Lemma keeps_config base o r v : keeps (WRITE_CSR_RING_CONFIG base o r v).
Proof. unfold WRITE_CSR_RING_CONFIG. keep. Qed.

Lemma keeps_base base o r v : keeps (WRITE_CSR_RING_BASE base o r v).
Proof. unfold WRITE_CSR_RING_BASE. keep. Qed.

Lemma keeps_free_mem v : keeps (free_mem v).
Proof. unfold free_mem. keep. Qed.

#[local] Hint Resolve keeps_config keeps_base keeps_free_mem : keeps.

Lemma keeps_init_ring ring b' r c n sz v p j : keeps (adf_init_ring ring b' r c n sz v p j).
Proof.
  unfold adf_init_ring, adf_reserve_ring, adf_unreserve_ring. destruct (validateRingSize n sz). keep.
Qed.

#[local] Hint Resolve keeps_init_ring : keeps.

Lemma keeps_release h : keeps (icp_adf_transReleaseHandle h).
Proof.
  unfold icp_adf_transReleaseHandle, adf_cleanup_ring, adf_unreserve_ring, free_handle. keep.
Qed.

#[local] Hint Resolve keeps_release : keeps.

Lemma dead_bind_l {A B} (m : M user A) (k : A → M user B) : dead m → dead (bind m k).
Proof. intros Hm u Hu. unfold bind. by rewrite (Hm u Hu). Qed.

Lemma dead_bind_r {A B} (m : M user A) (k : A → M user B) :
  keeps m → (∀ a, dead (k a)) → dead (bind m k).
Proof.
  intros Hm Hk u Hu. unfold bind. destruct (m u) as [[a u1]|] eqn:E; [|done].
  apply Hk. by eapply keeps_poisoned.
Qed.

(** The bundle would be freed twice. *)
Lemma dead_fail_create : dead (fail_create b).
Proof.
  apply dead_bind_r; [apply keeps_upd_bank; by intros|]. intros _ u (v & Hv & _ & Hbu & _).
  unfold bind at 1. rewrite the_bank_run, Hv. simpl. unfold uio_free_bundle, bind, gets, lift.
  by rewrite Hbu.
Qed.

(** The bank's table of rings is not there. *)
Lemma dead_publish a r h : dead (publish a b r h).
Proof.
  apply dead_bind_l. intros u (v & Hv & _ & _ & Hr). unfold store_ring, bind at 1.
  rewrite the_bank_run, Hv. simpl. unfold bind, lift. by rewrite Hr.
Qed.

Lemma dead_release_fail r : dead (release_fail b r).
Proof. apply dead_bind_r; [apply keeps_ioctl|]. intros _. apply dead_fail_create. Qed.

Lemma dead_create_ring a accel cb resp n sz : dead (create_ring a accel b cb resp n sz).
Proof.
  unfold create_ring. destruct (a_config a) as [r|]; [|apply dead_fail_create].
  destruct (_ || _); [apply dead_fail_create|].
  apply dead_bind_r; [keep|intros _]. destruct (negb (a_reserve a)); [apply dead_fail_create|].
  destruct (a_handle a =? 0); [apply dead_release_fail|].
  apply dead_bind_r; [keep|intros _]. destruct (_ || _).
  { apply dead_bind_r; [unfold free_handle; keep|intros _]. apply dead_release_fail. }
  apply dead_bind_r; [keep|intros bk]. apply dead_bind_r; [keep|intros st].
  destruct (negb (st =? 0)); [|apply dead_publish].
  apply dead_bind_r; [unfold free_handle; keep|intros _]. apply dead_release_fail.
Qed.

Lemma dead_create a accel cb resp n sz :
  accel ≠ 0 → dead (icp_adf_transCreateHandle a accel b cb resp n sz).
Proof.
  intros Ha u Hu. pose proof Hu as (v & Hv & Hn & _). unfold icp_adf_transCreateHandle.
  destruct (Z.eqb_spec accel 0); [done|]. unfold bind at 1. rewrite the_bank_run, Hv. simpl.
  destruct (Z.eqb_spec (bundle v) 0); [done|]. rewrite bind_ret. simpl. by apply dead_create_ring.
Qed.

(** A failure leaves the bank poisoned, or did nothing. *)
Definition ends (m : M user (Z * Z)) : Prop :=
  ∀ u h u', bundles u !! 0 = None → m u = Some ((CPA_STATUS_FAIL, h), u') → poisoned u'.

Lemma ends_bind {A} (m : M user A) (k : A → M user (Z * Z)) :
  keeps m → (∀ a, ends (k a)) → ends (bind m k).
Proof.
  intros Hm Hk u h u' Hz. unfold bind. destruct (m u) as [[a u1]|] eqn:E; [|done].
  intros Hk'. eapply Hk; [|done]. by rewrite (proj1 (Hm _ _ _ E)).
Qed.

Lemma ends_fail_create : ends (fail_create b).
Proof.
  intros u h u' Hz. unfold fail_create, upd_bank. unfold bind at 1, bind at 1. rewrite the_bank_run.
  destruct (bank_of b u) as [v|] eqn:Hv; [|done]. simpl.
  destruct (put_bank_run b (set_rings None v) v u Hv) as (bs & -> & _ & Heq & _).
  unfold bind at 1. rewrite the_bank_run. unfold bank_of. simpl. rewrite Heq. simpl.
  unfold uio_free_bundle, bind, gets, lift, set_bundles, modify, ret. simpl.
  destruct (bundles u !! bundle v) as [ptr|] eqn:Hb; [|done]. intros [= _ <-].
  exists (set_rings None v). unfold bank_of. simpl. split_and!; [done| |by rewrite lookup_delete_eq|done].
  intros E. congruence.
Qed.

Lemma ends_release_fail r : ends (release_fail b r).
Proof. apply ends_bind; [keep|]. intros _. apply ends_fail_create. Qed.

Lemma ends_publish a r h : ends (publish a b r h).
Proof.
  unfold publish. repeat (apply ends_bind; [unfold WRITE_CSR_INT_COL_EN; keep|intros ?]).
  destruct (a_lock a); [by intros u ? ? ? [=]|]. apply ends_bind; [keep|intros _].
  apply ends_release_fail.
Qed.

Lemma ends_create_ring a accel cb resp n sz : ends (create_ring a accel b cb resp n sz).
Proof.
  unfold create_ring. destruct (a_config a) as [r|]; [|apply ends_fail_create].
  destruct (_ || _); [apply ends_fail_create|].
  apply ends_bind; [keep|intros _]. destruct (negb (a_reserve a)); [apply ends_fail_create|].
  destruct (a_handle a =? 0); [apply ends_release_fail|].
  apply ends_bind; [keep|intros _]. destruct (_ || _).
  { apply ends_bind; [unfold free_handle; keep|intros _]. apply ends_release_fail. }
  apply ends_bind; [keep|intros bk]. apply ends_bind; [keep|intros st].
  destruct (negb (st =? 0)); [|apply ends_publish].
  apply ends_bind; [unfold free_handle; keep|intros _]. apply ends_release_fail.
Qed.

(** The first use of a bank. *)
Lemma init_bank_run a u v :
  bank_of b u = Some v → (∀ x ptr, a_bundle a = Some (x, ptr) → x ≠ 0) → bundles u !! 0 = None →
  ∃ st u', init_bank_from_accel a b u = Some (st, u') ∧
    ((st = CPA_STATUS_FAIL ∧ (u' = u ∨ poisoned u')) ∨
     (st = CPA_STATUS_SUCCESS ∧ bundles u' !! 0 = None)).
Proof.
  intros Hv Ha Hz. unfold init_bank_from_accel.
  destruct (a_bundle a) as [[x ptr]|]; [|exists CPA_STATUS_FAIL, u; auto].
  specialize (Ha x ptr eq_refl). rewrite bind_gets. unfold set_bundles. rewrite bind_modify.
  set (u1 := User _ _ _ _). assert (bank_of b u1 = Some v) as Hv1 by done.
  unfold upd_bank at 1. rewrite bind_assoc. unfold bind at 1. rewrite the_bank_run, Hv1. simpl.
  destruct (put_bank_run b (set_bundle ptr x v) v u1 Hv1) as (bs & Hp & _ & Heq & _).
  rewrite (bind_Some _ _ _ _ _ Hp). set (u2 := User _ _ _ _).
  assert (bank_of b u2 = Some (set_bundle ptr x v)) as Hv2 by done.
  destruct (a_rings a).
  - unfold upd_bank. rewrite bind_assoc. unfold bind at 1. rewrite the_bank_run, Hv2. simpl.
    edestruct (put_bank_run b) as (bs2 & Hp2 & _ & _); [exact Hv2|].
    rewrite (bind_Some _ _ _ _ _ Hp2). do 2 eexists. split; [done|]. right. split; [done|].
    simpl. by rewrite lookup_insert_ne.
  - unfold upd_bank. rewrite bind_assoc. unfold bind at 1. rewrite the_bank_run, Hv2. simpl.
    edestruct (put_bank_run b) as (bs2 & Hp2 & _ & Heq2 & _); [exact Hv2|].
    rewrite (bind_Some _ _ _ _ _ Hp2). unfold uio_free_bundle, bind, gets, lift, set_bundles, modify, ret.
    simpl. rewrite lookup_insert_eq. do 2 eexists. split; [done|]. left. split; [done|]. right.
    eexists. unfold bank_of. simpl. split_and!; [exact Heq2|done|by rewrite lookup_delete_eq|done].
Qed.

End failed.

(** ** A successful creation *)

Definition with_proc (u : user) (p : proc) : user := User p (bundles u) (ioctls u) (ringInflights u).

Lemma on_proc_run {A} (m : M proc A) u a p :
  m (proc_of u) = Some (a, p) → on_proc m u = Some (a, with_proc u p).
Proof. intros E. unfold on_proc. by rewrite E. Qed.

Lemma upd_bank_run b f v u :
  bank_of b u = Some v →
  ∃ u', upd_bank b f u = Some ((), u') ∧ bundles u' = bundles u ∧ ringInflights u' = ringInflights u ∧
    (∃ bs, proc_of u' = set_banks bs (proc_of u)) ∧ bank_of b u' = Some (f v).
Proof.
  intros Hv. unfold upd_bank. unfold bind. rewrite the_bank_run, Hv. simpl.
  destruct (put_bank_run b (f v) v u Hv) as (bs & -> & _ & Heq & _).
  eexists. split_and!; [done|done|done|by exists bs|exact Heq].
Qed.

Lemma upd_handle_run ring f p h :
  handles p !! ring = Some h →
  upd_handle ring f p = Some ((), set_handles (<[ring := f h]> (handles p)) p).
Proof. intros Hh. piece. done. Qed.

Definition is_mapped (base : Z) (u : user) : Prop := base ∈ (map_to_list (bundles u)).*2.

Lemma mapped_run base u : is_mapped base u → mapped base u = Some ((), u).
Proof. intros Hm. unfold mapped. rewrite bind_gets, bool_decide_true by done. done. Qed.

(** The registers of the set-up of ring [i] are none of a ring's tail. *)
Definition csr_frame (base : Z) (c c' : gmap Z Z) : Prop :=
  ∀ j, 0 <= j → c' !! (base + (0x100 + 4 * j)) = c !! (base + (0x100 + 4 * j)).

Lemma config_run base i v u :
  is_mapped base u → 0 <= i < 16 →
  ∃ c, WRITE_CSR_RING_CONFIG base 0 i v u = Some ((), with_proc u (set_csr c (proc_of u))) ∧
    csr_frame base (csr (proc_of u)) c.
Proof.
  intros Hm Hi. unfold WRITE_CSR_RING_CONFIG. rewrite (bind_Some _ _ _ _ _ (mapped_run _ _ Hm)).
  eexists. split; [done|]. intros j Hj. rewrite Z.shiftl_mul_pow2 by done.
  apply lookup_insert_ne. lia.
Qed.

Lemma base_run base i v u :
  is_mapped base u → 0 <= i < 16 →
  ∃ c, WRITE_CSR_RING_BASE base 0 i v u = Some ((), with_proc u (set_csr c (proc_of u))) ∧
    csr_frame base (csr (proc_of u)) c.
Proof.
  intros Hm Hi. unfold WRITE_CSR_RING_BASE. rewrite (bind_Some _ _ _ _ _ (mapped_run _ _ Hm)).
  unfold bind, on_proc, csr_wr, modify. simpl. eexists. split; [reflexivity|].
  intros j Hj. simpl. rewrite !Z.shiftl_mul_pow2 by done. rewrite !lookup_insert_ne by lia. done.
Qed.

(** The handle [adf_init_ring] leaves. *)
Definition ring_ready (b i base num sz virt phys : Z) (h : adf_dev_ring_handle_t)
    : adf_dev_ring_handle_t :=
  let bytes := u32 (ICP_ET_SIZE_TO_BYTES (validateRingSize num sz).1) in
  let half := Z.shiftr (bytes / sz) 1 in
  set_limits (if MIN_RESPONSES_PER_HEAD_WRITE <? half then MIN_RESPONSES_PER_HEAD_WRITE else half)
    (u32 (num - 1)) (ring_setup b i base sz (validateRingSize num sz).2 bytes virt phys h).
Definition ring_words (num sz : Z) : nat :=
  Z.to_nat (u32 (ICP_ET_SIZE_TO_BYTES (validateRingSize num sz).1) / 4).

Lemma init_ring_run ring b i base num sz virt phys junk u h bank :
  handles (proc_of u) !! ring = Some h → bank_of b u = Some bank →
  ring_mask_b bank .& BIT i = 0 → virt ≠ 0 → phys ≠ 0 → sz ≠ 0 → is_mapped base u → 0 <= i < 16 →
  ∃ u' c bs, adf_init_ring ring b i base num sz virt phys junk u = Some (0, u') ∧
    bundles u' = bundles u ∧ ringInflights u' = ringInflights u ∧
    bank_of b u' = Some (set_ring_mask (ring_mask_b bank .| BIT i) bank) ∧
    proc_of u' = Proc (<[ring := ring_ready b i base num sz virt phys h]> (handles (proc_of u))) bs
      (counters (proc_of u)) (<[virt := replicate (ring_words num sz) EMPTY_RING_SIG_WORD]> (mem (proc_of u)))
      c (calls (proc_of u)) ∧ csr_frame base (csr (proc_of u)) c.
Proof.
  intros Hh Hb Hfree Hv Hp Hs Hm Hi. unfold adf_init_ring, ring_ready, ring_words.
  destruct (validateRingSize num sz) as [code modulo] eqn:Ev. simpl.
  set (bytes := u32 _). unfold adf_reserve_ring. rewrite bind_assoc. unfold bind at 1.
  rewrite the_bank_run, Hb. simpl. rewrite Hfree. simpl.
  destruct (upd_bank_run b (λ b, set_ring_mask (ring_mask_b b .| BIT i) b) bank u Hb)
    as (u1 & Eu & Hbu & Hri & (bs & Hpr) & Hb1).
  rewrite bind_assoc, (bind_Some _ _ _ _ _ Eu), bind_ret. simpl.
  destruct (Z.eqb_spec virt 0), (Z.eqb_spec phys 0), (Z.eqb_spec sz 0); try done. simpl.
  assert (handles (proc_of u1) !! ring = Some h) as Hh1 by by rewrite Hpr.
  rewrite (bind_Some _ _ _ _ _ (on_proc_run (put_mem virt junk) u1 _ _ eq_refl)).
  set (u2 := with_proc u1 _). assert (handles (proc_of u2) !! ring = Some h) as Hh2 by done.
  rewrite (bind_Some _ _ _ _ _ (on_proc_run _ u2 _ _ (upd_handle_run _ _ _ _ Hh2))).
  set (u3 := with_proc u2 _). set (sig := replicate _ _).
  rewrite (bind_Some _ _ _ _ _ (on_proc_run (put_mem virt sig) u3 _ _ eq_refl)).
  set (u4 := with_proc u3 _).
  assert (handles (proc_of u4) !! ring = Some (ring_setup b i base sz modulo bytes virt phys h)) as Hh4
    by apply lookup_insert_eq.
  rewrite (bind_Some _ _ _ _ _ (on_proc_run _ u4 _ _ (upd_handle_run _ _ _ _ Hh4))).
  set (u5 := with_proc u4 _). set (final := set_limits _ _ _).
  assert (is_mapped base u5) as Hm5 by (unfold is_mapped; simpl; by rewrite Hbu).
  destruct (base_run base i (BUILD_RING_BASE_ADDR phys code) u5 Hm5 Hi) as (c1 & E1 & Hc1).
  rewrite (bind_Some _ _ _ _ _ E1). set (u6 := with_proc u5 _).
  assert (bank_of b u6 = Some (set_ring_mask (ring_mask_b bank .| BIT i) bank)) as Hb6 by done.
  unfold bind at 1. rewrite the_bank_run, Hb6. simpl. set (cfg := if negb _ then _ else _).
  destruct (config_run base i cfg u6) as (c2 & E2 & Hc2); [done|done|].
  rewrite (bind_Some _ _ _ _ _ E2). set (u7 := with_proc u6 _).
  assert (handles (proc_of u7) !! ring = Some final) as Hh7 by apply lookup_insert_eq.
  unfold bind at 1, on_proc at 1, handle. rewrite bind_gets, Hh7. simpl.
  eexists _, c2, bs. split_and!; [reflexivity|by rewrite <- Hbu|by rewrite <- Hri|done| |].
  - simpl. rewrite Hpr. simpl. by rewrite !insert_insert_eq.
  - intros j Hj. rewrite Hc2, Hc1 by done. simpl. by rewrite Hpr.
Qed.

Lemma store_ring_run b i h u bank l :
  bank_of b u = Some bank → rings bank = Some l → 0 <= i < Z.of_nat (length l) →
  ∃ u' bs l', store_ring b i h u = Some ((), u') ∧ u' = with_proc u (set_banks bs (proc_of u)) ∧
    bank_of b u' = Some (set_rings (Some l') bank) ∧ length l' = length l.
Proof.
  intros Hb Hl Hi. unfold store_ring. unfold bind at 1. rewrite the_bank_run, Hb. simpl.
  rewrite Hl, bind_lift, aset_in, bind_lift by done.
  destruct (put_bank_run b (set_rings (Some (<[Z.to_nat i := h]> l)) bank) bank u Hb) as (bs & -> & _ & Heq & _).
  do 3 eexists. split_and!; [done|done|exact Heq|by rewrite length_insert].
Qed.

(** The bank after a ring was set up on it. *)
Definition bank_next (bank bank' : adf_dev_bank_handle_t) : Prop :=
  bundle bank' = bundle bank ∧ csr_addr_b bank' = csr_addr_b bank ∧
  ring_mask_b bank' = ring_mask_b bank ∧
  ∃ l', rings bank' = Some l' ∧ length l' = 16%nat.

Definition counter_of (u : user) (b i : Z) : Z := ringInflights u + 4 * in_flight_index b i.

Lemma publish_run a b i h r c0 u bank l :
  bank_of b u = Some bank → rings bank = Some l → length l = 16%nat → 0 <= i < 16 →
  handles (proc_of u) !! h = Some r → bank_num r = b → ring_num r = i → resp r ≠ ICP_RESP_TYPE_IRQ →
  counters (proc_of u) !! counter_of u b i = Some c0 → a_lock a = true →
  ∃ u' bs bank', publish a b i h u = Some ((CPA_STATUS_SUCCESS, h), u') ∧
    bundles u' = bundles u ∧ ringInflights u' = ringInflights u ∧
    bank_of b u' = Some bank' ∧ bank_next bank bank' ∧
    proc_of u' = Proc (<[h := set_polling 1 (set_in_flight (counter_of u b i) r)]> (handles (proc_of u))) bs
      (<[counter_of u b i := 0]> (counters (proc_of u))) (mem (proc_of u)) (csr (proc_of u)) (calls (proc_of u)).
Proof.
  intros Hb Hl Hlen Hi Hr Hbn Hrn Hirq Hc Hlock. unfold publish.
  destruct (store_ring_run b i h u bank l Hb Hl ltac:(lia)) as (u1 & bs1 & l' & E1 & -> & Hb1 & Hl').
  rewrite (bind_Some _ _ _ _ _ E1). set (u1 := with_proc u _) in *.
  assert (handle h (proc_of u1) = Some (r, proc_of u1)) as Hh
    by (unfold handle; by rewrite bind_gets; simpl; rewrite Hr).
  rewrite (bind_Some _ _ _ _ _ (on_proc_run _ _ _ _ Hh)), Hbn, Hrn.
  set (u2 := with_proc u1 _). assert (bank_of b u2 = Some (set_rings (Some l') bank)) as Hb2 by done.
  edestruct (upd_bank_run b) as (u3 & E3 & Hbu3 & Hri3 & (bs3 & Hp3) & Hb3); [exact Hb2|].
  rewrite (bind_Some _ _ _ _ _ E3). unfold bind at 1. rewrite the_bank_run, Hb3. cbn [fmap option_fmap option_map].
  rewrite bool_decide_false by done. cbn [when]. rewrite bind_ret, bind_gets.
  replace (ringInflights u3) with (ringInflights u) by by rewrite Hri3. fold (counter_of u b i).
  assert (handles (proc_of u3) !! h = Some r) as Hr3 by by rewrite Hp3.
  rewrite (bind_Some _ _ _ _ _ (on_proc_run _ u3 _ _ (upd_handle_run _ _ _ _ Hr3))).
  set (u4 := with_proc u3 _). set (ca := counter_of u b i) in *.
  assert (put_counter ca 0 (proc_of u4) =
    Some ((), set_counters (<[ca := 0]> (counters (proc_of u4))) (proc_of u4))) as E4.
  { unfold put_counter, counter, bind, gets, modify, lift. simpl. rewrite Hp3. simpl. by rewrite Hc. }
  rewrite (bind_Some _ _ _ _ _ (on_proc_run _ u4 _ _ E4)). set (u5 := with_proc u4 _).
  assert (handles (proc_of u5) !! h = Some (set_in_flight ca r)) as Hr5 by apply lookup_insert_eq.
  rewrite (bind_Some _ _ _ _ _ (on_proc_run _ u5 _ _ (upd_handle_run _ _ _ _ Hr5))), Hlock.
  eexists _, bs3, _. split_and!; [reflexivity|exact Hbu3|exact Hri3|exact Hb3| |].
  - split_and!; try done. exists l'. split; [done|congruence].
  - simpl. rewrite Hp3. simpl. by rewrite insert_insert_eq.
Qed.

(** A bank on which ring [i] can be created, and answers that let it. *)
Definition bank_ready (b i : Z) (bank : adf_dev_bank_handle_t) (u : user) : Prop :=
  bank_of b u = Some bank ∧ bundle bank ≠ 0 ∧ is_mapped (csr_addr_b bank) u ∧
  (∃ l, rings bank = Some l ∧ length l = 16%nat) ∧ ring_mask_b bank .& BIT i = 0 ∧ 0 <= i < 16 ∧
  is_Some (counters (proc_of u) !! counter_of u b i).

Definition all_well (i : Z) (a : answers) : Prop :=
  a_config a = Some i ∧ a_reserve a = true ∧ a_handle a ≠ 0 ∧ a_service a = true ∧
  a_section a = true ∧ a_virt a ≠ 0 ∧ a_phys a ≠ 0 ∧ a_lock a = true.

(** The handle of a ring that was created. *)
Definition created (a : answers) (accel b i base cb num sz ca : Z) (resp : icp_resp_deliv_method)
    : adf_dev_ring_handle_t :=
  set_polling 1 (set_in_flight ca
    (ring_ready b i base num sz (a_virt a) (a_phys a) (fresh_handle accel b i cb sz resp))).

Lemma create_run a accel b i cb resp num sz u bank :
  bank_ready b i bank u → all_well i a → accel ≠ 0 → sz ≠ 0 →
  resp = ICP_RESP_TYPE_NONE ∨ resp = ICP_RESP_TYPE_POLL →
  let ca := counter_of u b i in
  ∃ u' c bs bank', icp_adf_transCreateHandle a accel b cb resp num sz u =
      Some ((CPA_STATUS_SUCCESS, a_handle a), u') ∧
    bundles u' = bundles u ∧ ringInflights u' = ringInflights u ∧ bank_of b u' = Some bank' ∧
    bank_next (set_ring_mask (ring_mask_b bank .| BIT i) bank) bank' ∧
    proc_of u' = Proc
      (<[a_handle a := created a accel b i (csr_addr_b bank) cb num sz ca resp]> (handles (proc_of u))) bs
      (<[ca := 0]> (counters (proc_of u)))
      (<[a_virt a := replicate (ring_words num sz) EMPTY_RING_SIG_WORD]> (mem (proc_of u)))
      c (calls (proc_of u)) ∧ csr_frame (csr_addr_b bank) (csr (proc_of u)) c.
Proof.
  intros (Hb & Hbun & Hm & (l & Hl & Hlen) & Hfree & Hi & [c0 Hc]) (Hcf & Hre & Hh & Hse & Hsc & Hv & Hp & Hlk)
    Hacc Hsz Hresp ca.
  unfold icp_adf_transCreateHandle. destruct (Z.eqb_spec accel 0); [done|].
  unfold bind at 1. rewrite the_bank_run, Hb. cbn [fmap option_fmap option_map].
  destruct (Z.eqb_spec (bundle bank) 0); [done|]. rewrite bind_ret.
  change (CPA_STATUS_SUCCESS <? 0) with false. cbv iota. unfold create_ring. rewrite Hcf.
  destruct (Z.ltb_spec i 0); [lia|]. destruct (Z.leb_spec maxNumRingsPerBank i);
    [unfold maxNumRingsPerBank in *; lia|].
  unfold ring_ioctl at 1. cbn [orb]. rewrite bind_modify, Hre, Hse, Hsc. cbn [negb orb]. cbv zeta.
  destruct (Z.eqb_spec (a_handle a) 0); [done|].
  set (fh := fresh_handle _ _ _ _ _ _). set (u1 := User _ _ _ _).
  set (f := λ p, set_handles (<[a_handle a := fh]> (handles p)) p).
  rewrite (bind_Some _ _ _ _ _ (on_proc_run (modify f) u1 _ _ eq_refl)). set (u2 := with_proc u1 _).
  rewrite bool_decide_false by (destruct Hresp as [-> | ->]; done).
  assert (bank_of b u2 = Some bank) as Hb2 by done.
  unfold bind at 1. rewrite the_bank_run, Hb2. cbn [fmap option_fmap option_map].
  assert (handles (proc_of u2) !! a_handle a = Some fh) as Hh2 by apply lookup_insert_eq.
  destruct (init_ring_run (a_handle a) b i (csr_addr_b bank) num sz (a_virt a) (a_phys a) (a_junk a) u2 fh bank)
    as (u3 & c3 & bs3 & E3 & Hbu3 & Hri3 & Hb3 & Hp3 & Hfr); [done..|].
  rewrite (bind_Some _ _ _ _ _ E3). cbn [Z.eqb negb].
  destruct (publish_run a b i (a_handle a) (ring_ready b i (csr_addr_b bank) num sz (a_virt a) (a_phys a) fh)
    c0 u3 _ l Hb3 Hl Hlen Hi) as (u4 & bs4 & bank4 & E4 & Hbu4 & Hri4 & Hb4 & Hnx & Hp4).
  { rewrite Hp3. apply lookup_insert_eq. }
  1, 2: done.
  { destruct Hresp as [-> | ->]; done. }
  { unfold counter_of. by rewrite Hri3, Hp3. }
  { done. }
  assert (counter_of u3 b i = ca) as Hca by (unfold counter_of; by rewrite Hri3).
  eexists u4, c3, bs4, bank4. split_and!; [exact E4|exact (eq_trans Hbu4 Hbu3)|exact (eq_trans Hri4 Hri3)|done|done| |done].
  rewrite Hp4, Hp3, Hca. simpl. by rewrite !insert_insert_eq.
Qed.

(** ** Release *)

Lemma free_handle_run h r u :
  handles (proc_of u) !! h = Some r →
  free_handle h u = Some ((), with_proc u (set_handles (delete h (handles (proc_of u))) (proc_of u))).
Proof.
  intros Hr. unfold free_handle.
  assert (handle h (proc_of u) = Some (r, proc_of u)) as Hh by (unfold handle; by rewrite bind_gets, Hr).
  by rewrite (bind_Some _ _ _ _ _ (on_proc_run _ _ _ _ Hh)).
Qed.

Lemma free_mem_run v buf u :
  v ≠ 0 → mem (proc_of u) !! v = Some buf →
  free_mem v u = Some ((), with_proc u (set_mem (delete v (mem (proc_of u))) (proc_of u))).
Proof.
  intros Hv Hb. unfold free_mem. destruct (Z.eqb_spec v 0); [done|].
  assert (ring_mem v (proc_of u) = Some (buf, proc_of u)) as Hm
    by (unfold ring_mem; by rewrite bind_gets, Hb).
  by rewrite (bind_Some _ _ _ _ _ (on_proc_run _ _ _ _ Hm)).
Qed.

(** The registers of the ring are cleared, its memory is freed, and it can be
    reserved again. *)
Lemma cleanup_run h r u bank buf :
  handles (proc_of u) !! h = Some r → bank_of (bank_data r) u = Some bank →
  is_mapped (csr_addr r) u → 0 <= ring_num r < 16 → bank_offset r = 0 →
  ring_virt_addr r ≠ 0 → mem (proc_of u) !! ring_virt_addr r = Some buf →
  ∃ u' bs c, adf_cleanup_ring h u = Some ((), u') ∧ bundles u' = bundles u ∧
    ringInflights u' = ringInflights u ∧
    bank_of (bank_data r) u' = Some (set_ring_mask (clear (ring_mask_b bank) (BIT (ring_num r))) bank) ∧
    proc_of u' = Proc (<[h := set_virt 0 r]> (handles (proc_of u))) bs (counters (proc_of u))
      (delete (ring_virt_addr r) (mem (proc_of u))) c (calls (proc_of u)).
Proof.
  intros Hr Hb Hm Hi Ho Hv Hbuf. unfold adf_cleanup_ring.
  assert (handle h (proc_of u) = Some (r, proc_of u)) as Hh by (unfold handle; by rewrite bind_gets, Hr).
  rewrite (bind_Some _ _ _ _ _ (on_proc_run _ _ _ _ Hh)). unfold ring_ioctl. rewrite bind_modify, Ho.
  set (u1 := User _ _ _ _).
  destruct (config_run (csr_addr r) (ring_num r) 0 u1 Hm Hi) as (c1 & E1 & _).
  rewrite (bind_Some _ _ _ _ _ E1). set (u2 := with_proc u1 _).
  destruct (base_run (csr_addr r) (ring_num r) 0 u2 Hm Hi) as (c2 & E2 & _).
  rewrite (bind_Some _ _ _ _ _ E2). set (u3 := with_proc u2 _). unfold adf_unreserve_ring.
  assert (bank_of (bank_data r) u3 = Some bank) as Hb3 by done.
  edestruct (upd_bank_run (bank_data r)) as (u4 & E4 & Hbu & Hri & (bs & Hp4) & Hb4); [exact Hb3|].
  rewrite (bind_Some _ _ _ _ _ E4). destruct (Z.eqb_spec (ring_virt_addr r) 0); [done|]. cbn [negb when].
  assert (ring_mem (ring_virt_addr r) (proc_of u4) = Some (buf, proc_of u4)) as Hm4
    by (unfold ring_mem; rewrite bind_gets, Hp4; simpl; by rewrite Hbuf).
  rewrite (bind_Some _ _ _ _ _ (on_proc_run _ _ _ _ Hm4)). set (sig := replicate _ _).
  rewrite (bind_Some _ _ _ _ _ (on_proc_run (put_mem (ring_virt_addr r) sig) _ _ _ eq_refl)).
  set (u5 := with_proc (with_proc u4 _) _).
  assert (mem (proc_of u5) !! ring_virt_addr r = Some sig) as Hm5 by apply lookup_insert_eq.
  rewrite (bind_Some _ _ _ _ _ (free_mem_run _ _ _ Hv Hm5)). set (u6 := with_proc u5 _).
  assert (handles (proc_of u6) !! h = Some r) as Hr6 by (simpl; by rewrite Hp4).
  rewrite (on_proc_run _ u6 _ _ (upd_handle_run _ _ _ _ Hr6)).
  eexists _, bs, c2. split_and!; [reflexivity|exact Hbu|exact Hri|exact Hb4|].
  simpl. rewrite Hp4. simpl. by rewrite delete_insert_eq.
Qed.

Lemma release_run h r u b bank l buf :
  handles (proc_of u) !! h = Some r → h ≠ 0 → accel_dev r ≠ 0 → bank_num r = b → bank_data r = b →
  bank_of b u = Some bank → rings bank = Some l → length l = 16%nat →
  is_mapped (csr_addr r) u → 0 <= ring_num r < 16 → bank_offset r = 0 →
  ring_virt_addr r ≠ 0 → mem (proc_of u) !! ring_virt_addr r = Some buf →
  ∃ u' bs c bank', icp_adf_transReleaseHandle h u = Some (CPA_STATUS_SUCCESS, u') ∧
    bundles u' = bundles u ∧ ringInflights u' = ringInflights u ∧ bank_of b u' = Some bank' ∧
    bank_next (set_ring_mask (clear (ring_mask_b bank) (BIT (ring_num r))) bank) bank' ∧
    proc_of u' = Proc (delete h (handles (proc_of u))) bs (counters (proc_of u))
      (delete (ring_virt_addr r) (mem (proc_of u))) c (calls (proc_of u)).
Proof.
  intros Hr Hh Ha Hbn Hbd Hb Hl Hlen Hm Hi Ho Hv Hbuf. unfold icp_adf_transReleaseHandle.
  destruct (Z.eqb_spec h 0); [done|].
  assert (handle h (proc_of u) = Some (r, proc_of u)) as Hhr by (unfold handle; by rewrite bind_gets, Hr).
  rewrite (bind_Some _ _ _ _ _ (on_proc_run _ _ _ _ Hhr)). destruct (Z.eqb_spec (accel_dev r) 0); [done|].
  rewrite Hbn. set (u1 := with_proc u _). assert (bank_of b u1 = Some bank) as Hb1 by done.
  edestruct (upd_bank_run b) as (u2 & E2 & Hbu2 & Hri2 & (bs2 & Hp2) & Hb2); [exact Hb1|].
  rewrite (bind_Some _ _ _ _ _ E2). clear E2.
  edestruct (cleanup_run h r u2) as (u3 & bs3 & c3 & E3 & Hbu3 & Hri3 & Hb3 & Hp3); try done.
  { by rewrite Hp2. }
  { rewrite Hbd. exact Hb2. }
  { unfold is_mapped. by rewrite Hbu2. }
  { rewrite Hp2. exact Hbuf. }
  rewrite (bind_Some _ _ _ _ _ E3). clear E3. unfold ring_ioctl. rewrite bind_modify.
  set (u4 := User _ _ _ _). rewrite Hbd in Hb3. cbn [ring_mask_b set_masks] in Hb3.
  edestruct (store_ring_run b (ring_num r) 0 u4) as (u5 & bs5 & l5 & E5 & Hu5 & Hb5 & Hl5);
    [exact Hb3|exact Hl|lia|].
  rewrite (bind_Some _ _ _ _ _ E5). clear E5.
  assert (handles (proc_of u5) !! h = Some (set_virt 0 r)) as Hr5
    by (rewrite Hu5; simpl; rewrite Hp3; apply lookup_insert_eq).
  rewrite (bind_Some _ _ _ _ _ (free_handle_run _ _ _ Hr5)).
  eexists _, bs5, c3, _. split_and!; [reflexivity|..|].
  - rewrite Hu5. exact (eq_trans Hbu3 Hbu2).
  - rewrite Hu5. exact (eq_trans Hri3 Hri2).
  - exact Hb5.
  - split_and!; try done. exists l5. split; [done|congruence].
  - rewrite Hu5. simpl. rewrite Hp3, Hp2. simpl. by rewrite delete_insert_eq.
Qed.

(** ** The sizes of a pair *)

(** A handle of a ring for [num] messages. *)
Definition sized_for (num : Z) (h : adf_dev_ring_handle_t) : Prop :=
  handle_ok h ∧ 0 < num ∧ num * message_size h <= 2 ^ 22 ∧
  modulo_ h = (validateRingSize num (message_size h)).2.

Lemma sized_code num h :
  sized_for num h →
  ∃ code, validateRingSize num (message_size h) = (code, code + 6) ∧ 4 <= code <= 16 ∧
    (code = 4 ∨ 2 ^ (code + 5) < num * message_size h) ∧
    Z.of_nat (Ring.slots (ring_of h)) * message_size h = 2 ^ (code + 6).
Proof.
  intros (Hok & Hn & Hle & Hm).
  destruct (validateRingSize_spec num (message_size h)) as (code & E & Hc & _ & Hmin); [done|apply Hok|done|].
  exists code. split_and!; [done|lia|lia|done|].
  destruct (Ring.slots_bytes _ (ring_of_ok _ Hok)) as (Hsl & _ & _).
  rewrite ring_of_bytes in Hsl by done. unfold Ring.ring_bytes in Hsl. simpl in Hsl.
  rewrite Hsl, Hm, E. simpl. f_equal. lia.
Qed.

Lemma sized_words num h :
  sized_for num h →
  (Ring.slots (ring_of h) * Ring.msg_words (ring_of h) = ring_words num (message_size h))%nat.
Proof.
  intros Hs. destruct (sized_code num h Hs) as (code & E & Hc & _ & Hsl). destruct Hs as (Hok & _).
  destruct (Ring.msg_words_bytes _ (ring_of_ok _ Hok)) as [Hw _]. rewrite ring_of_bytes in Hw by done.
  unfold ring_words, ICP_ET_SIZE_TO_BYTES. rewrite E. cbn [fst].
  rewrite Z.shiftl_mul_pow2 by lia. change 64 with (2 ^ 6). rewrite <- Z.pow_add_r by lia.
  replace (6 + code) with (code + 6) by lia.
  rewrite wrap_small.
  - rewrite <- Hsl, <- Hw. apply Nat2Z.inj. rewrite Nat2Z.inj_mul, Z2Nat.id.
    + rewrite <- (Z.div_mul (_ * _) 4) at 1 by done. f_equal. lia.
    + apply Z.div_pos; lia.
  - pose proof (Z.pow_le_mono_r 2 (code + 6) 22 ltac:(lia) ltac:(lia)).
    pose proof (pow2_pos (code + 6) ltac:(lia)). lia.
Qed.

(** The ring with the smaller messages has no fewer slots. *)
Lemma sized_slots num t r :
  sized_for num t → sized_for num r → message_size r = 32 →
  (Ring.slots (ring_of t) <= Ring.slots (ring_of r))%nat.
Proof.
  intros Ht Hr H32. pose proof (validateRingSize_slots num r) as Hnum.
  destruct (sized_code num t Ht) as (ct & _ & Hct & Hmin & Est).
  destruct (sized_code num r Hr) as (cr & _ & Hcr & _ & Esr).
  destruct Ht as (Hok & Hn & _), Hr as (Hrok & _ & Hle & Hm). specialize (Hnum Hn Hrok Hle Hm).
  set (st := Ring.slots (ring_of t)) in *. set (sr := Ring.slots (ring_of r)) in *. clearbody st sr.
  rewrite H32 in Esr. replace (cr + 6) with (5 + (cr + 1)) in Esr by lia.
  rewrite Z.pow_add_r in Esr by lia. change (2 ^ 5) with 32 in Esr.
  assert (∃ e, message_size t = 2 ^ e ∧ 5 <= e <= 7) as (e & Ee & He).
  { destruct Hok as (_ & [-> | [-> | ->]] & _); [exists 5|exists 6|exists 7]; done. }
  rewrite Ee in *. replace (ct + 6) with (e + (ct + 6 - e)) in Est by lia.
  rewrite Z.pow_add_r in Est by lia. pose proof (pow2_pos e ltac:(lia)) as Hpe.
  assert (Z.of_nat st = 2 ^ (ct + 6 - e)) as Est' by nia.
  assert (Z.of_nat sr = 2 ^ (cr + 1)) as Esr' by lia.
  enough (2 ^ (ct + 6 - e) <= 2 ^ (cr + 1)) by lia. apply Z.pow_le_mono_r; [done|].
  destruct Hmin as [->|Hmin]; [lia|].
  enough (ct + 6 - e < cr + 2) by lia. apply (Z.pow_lt_mono_r_iff 2); [done|lia|].
  replace (cr + 2) with (1 + (cr + 1)) by lia. rewrite Z.pow_add_r by lia. change (2 ^ 1) with 2.
  replace (ct + 5) with (e + (ct + 5 - e)) in Hmin by lia. rewrite Z.pow_add_r in Hmin by lia.
  replace (ct + 6 - e) with (1 + (ct + 5 - e)) by lia. rewrite (Z.pow_add_r 2 1) by lia. nia.
Qed.

Lemma created_sized a accel b i base cb num sz ca resp :
  0 <= i < 16 → 0 < num → sz = 32 ∨ sz = 64 ∨ sz = 128 → num * sz <= 2 ^ 22 →
  sized_for num (created a accel b i base cb num sz ca resp).
Proof.
  intros Hi Hn Hsz Hle. destruct (validateRingSize_spec num sz Hn Hsz Hle) as (code & E & Hc & _).
  unfold sized_for, handle_ok. simpl. rewrite E. simpl. lia.
Qed.

Lemma BIT_other m i j : 0 <= i → 0 <= j → i ≠ j → m .& BIT j = 0 → (m .| BIT i) .& BIT j = 0.
Proof.
  intros Hi Hj Hne Hm. rewrite Z.land_lor_distr_l, Hm, Z.lor_0_l.
  apply Z.bits_inj'. intros k _. rewrite Z.land_spec, !BIT_testbit, Z.bits_0 by done. lia.
Qed.

Lemma shared_index b i : 0 <= i < 8 → in_flight_index b (i + 8) = in_flight_index b i.
Proof.
  intros Hi. unfold in_flight_index. change (maxNumRingsPerBank / 2) with 8.
  destruct (Z.ltb_spec (i + 8) 8), (Z.ltb_spec i 8); lia.
Qed.

(** C25 Releasing undoes creating.  A handle that was created can be released, and
    then the process has the handles, the ring memory and the reservations it
    had before, and the ring can be created again. *)
Theorem create_release a accel b i cb resp num sz u bank :
  bank_ready b i bank u → all_well i a → accel ≠ 0 → sz ≠ 0 →
  resp = ICP_RESP_TYPE_NONE ∨ resp = ICP_RESP_TYPE_POLL →
  handles (proc_of u) !! a_handle a = None → mem (proc_of u) !! a_virt a = None →
  ∃ u1 u2 bank2,
    icp_adf_transCreateHandle a accel b cb resp num sz u = Some ((CPA_STATUS_SUCCESS, a_handle a), u1) ∧
    icp_adf_transReleaseHandle (a_handle a) u1 = Some (CPA_STATUS_SUCCESS, u2) ∧
    handles (proc_of u2) = handles (proc_of u) ∧ mem (proc_of u2) = mem (proc_of u) ∧
    bundles u2 = bundles u ∧ ring_mask_b bank2 = ring_mask_b bank ∧ bank_ready b i bank2 u2.
Proof.
  intros Hrd Haw Hacc Hsz Hresp Hfh Hfm.
  destruct (create_run a accel b i cb resp num sz u bank Hrd Haw Hacc Hsz Hresp)
    as (u1 & c1 & bs1 & bank1 & E1 & Hbu1 & Hri1 & Hb1 & (Hx1 & Hx2 & Hx3 & l1 & Hx4 & Hx5) & Hp1 & _).
  destruct Hrd as (_ & Hbun & Hm & _ & Hfree & Hi & [c0 Hc]), Haw as (_ & _ & Hh & _ & _ & Hv & _).
  set (h := created _ _ _ _ _ _ _ _ _ _) in *.
  edestruct (release_run (a_handle a) h u1 b bank1 l1) as (u2 & bs2 & c2 & bank2 & E2 & Hbu2 & Hri2 & Hb2 & Hnx & Hp2);
    try done.
  { rewrite Hp1. apply lookup_insert_eq. }
  { unfold is_mapped. rewrite Hbu1. done. }
  { rewrite Hp1. apply lookup_insert_eq. }
  exists u1, u2, bank2. rewrite Hp2, Hp1. cbn [handles mem] in *.
  destruct Hnx as (Hy1 & Hy2 & Hy3 & Hy4). cbn [bundle csr_addr_b ring_mask_b set_ring_mask] in *.
  assert (ring_mask_b bank2 = ring_mask_b bank) as Hmask.
  { rewrite Hy3, Hx3. change (ring_num h) with i. apply clear_lor_BIT; [lia|].
    by apply Z.eqb_eq in Hfree; rewrite land_BIT_nonzero, negb_true_iff in Hfree by lia. }
  split_and!; [done|done|by apply delete_insert_id|by apply delete_insert_id|congruence|done|].
  split_and!; try done; try lia; try congruence.
  - unfold is_mapped. rewrite Hbu2, Hbu1, Hy2, Hx2. done.
  - unfold counter_of. rewrite Hri2, Hri1, Hp2, Hp1. cbn [counters]. fold (counter_of u b i).
    rewrite lookup_insert_eq. by eexists.
Qed.

(** What of a handle that was created does not depend on sizes. *)
Definition created_as (h : adf_dev_ring_handle_t) (virt base i sz ca : Z) : Prop :=
  ring_virt_addr h = virt ∧ csr_addr h = base ∧ ring_num h = i ∧ message_size h = sz ∧
  in_flight h = ca ∧ bank_offset h = 0 ∧ head h = 0 ∧ tail h = 0 ∧ csrTailOffset h = 0 ∧
  pollingInProgress h = 1.

Lemma created_created_as a accel b i base cb num sz ca resp :
  created_as (created a accel b i base cb num sz ca resp) (a_virt a) base i sz ca.
Proof. unfold created_as. split_and!; reflexivity. Qed.

Lemma created_max a accel b i base cb num sz ca resp :
  0 < num < 2 ^ 32 → max_requests_inflight (created a accel b i base cb num sz ca resp) = num - 1.
Proof. intros. apply wrap_small. lia. Qed.

(** C24 Creating a pair.  On a bank that is mapped, when the system has what is
    asked for, creating ring [i] for [num] requests and ring [i + 8] for their
    responses succeeds, and leaves exactly what the theorems on the rings start
    from: nothing on either ring, the response ring marked empty and with no
    fewer slots, one counter of requests in flight for both, at 0, and a limit
    below the slots of the request ring. *)
Theorem create_pair_initial a1 a2 accel b i cb1 cb2 num sz u bank :
  bank_ready b i bank u → all_well i a1 → all_well (i + 8) a2 → 0 <= i < 8 → accel ≠ 0 →
  sz = 64 ∨ sz = 128 → 0 < num → num * sz <= 2 ^ 22 → ring_mask_b bank .& BIT (i + 8) = 0 →
  a_handle a1 ≠ a_handle a2 → a_virt a1 ≠ a_virt a2 →
  default 0 (csr (proc_of u) !! (csr_addr_b bank + (0x100 + 4 * i))) = 0 →
  ∃ u1 u2 t r tb rb,
    icp_adf_transCreateHandle a1 accel b cb1 ICP_RESP_TYPE_NONE num sz u =
      Some ((CPA_STATUS_SUCCESS, a_handle a1), u1) ∧
    icp_adf_transCreateHandle a2 accel b cb2 ICP_RESP_TYPE_POLL num 32 u1 =
      Some ((CPA_STATUS_SUCCESS, a_handle a2), u2) ∧
    initial 8 (a_handle a1) (a_handle a2) (USys (proc_of u2) Ready [] 0 0 [] 0 [] [] []) t r tb rb.
Proof.
  intros Hrd H1 H2 Hi Hacc Hsz Hn Hle Hfree Hneh Hnev Htail.
  destruct (create_run a1 accel b i cb1 ICP_RESP_TYPE_NONE num sz u bank Hrd H1 Hacc ltac:(lia) ltac:(auto))
    as (u1 & c1 & bs1 & bank1 & E1 & Hbu1 & Hri1 & Hb1 & (Hx1 & Hx2 & Hx3 & Hx4) & Hp1 & Hf1).
  set (ca := counter_of u b i) in *. simpl in Hx1, Hx2, Hx3.
  assert (counter_of u1 b (i + 8) = ca) as Hca
    by (unfold counter_of; rewrite Hri1, shared_index by lia; done).
  pose proof Hrd as (_ & Hbun & Hm & _).
  assert (bank_ready b (i + 8) bank1 u1) as Hrd1.
  { split_and!; try done; try lia.
    - unfold is_mapped. by rewrite Hbu1, Hx2.
    - rewrite Hx3. apply BIT_other; [lia..|done].
    - rewrite Hca, Hp1. simpl. rewrite lookup_insert_eq. by eexists. }
  destruct (create_run a2 accel b (i + 8) cb2 ICP_RESP_TYPE_POLL num 32 u1 bank1 Hrd1 H2 Hacc ltac:(lia) ltac:(auto))
    as (u2 & c2 & bs2 & bank2 & E2 & _ & _ & _ & _ & Hp2 & Hf2).
  rewrite Hca in Hp2. rewrite Hx2 in Hp2, Hf2.
  set (t := created a1 accel b i (csr_addr_b bank) cb1 num sz ca ICP_RESP_TYPE_NONE) in *.
  set (r := created a2 accel b (i + 8) (csr_addr_b bank) cb2 num 32 ca ICP_RESP_TYPE_POLL) in *.
  assert (sized_for num t) as Hst by (apply created_sized; lia).
  assert (sized_for num r) as Hsr by (apply created_sized; lia).
  do 2 eexists. exists t, r, (replicate (ring_words num sz) EMPTY_RING_SIG_WORD),
    (replicate (ring_words num 32) EMPTY_RING_SIG_WORD).
  split; [exact E1|]. split; [exact E2|]. rewrite Hp2, Hp1.
  assert (max_requests_inflight t = num - 1) as Hmax by (apply created_max; lia).
  assert (created_as t (a_virt a1) (csr_addr_b bank) i sz ca) as Hct by apply created_created_as.
  assert (created_as r (a_virt a2) (csr_addr_b bank) (i + 8) 32 ca) as Hcr by apply created_created_as.
  clearbody t r. destruct Hct as (Vt & Ct & It & St & Ft & Ot & Ht & Tt & Xt & Pt),
    Hcr as (Vr & Cr & Ir & Sr & Fr & Or & Hr & Tr & Xr & Pr).
  split; cbn [up snd_ pollers handles counters mem].
  - pose proof Hst as (Hokt & Hp & Hl & Hmod). pose proof Hsr as (Hokr & _).
    pose proof (validateRingSize_slots num t Hp Hokt Hl Hmod). unfold pair_ok. rewrite Vt, Vr, Cr, Ct, Fr, Ft, Or, Ot, St in *.
    split_and!; auto; lia.
  - by rewrite lookup_insert_ne, lookup_insert_eq.
  - by rewrite lookup_insert_eq.
  - by rewrite Ft, lookup_insert_eq.
  - by rewrite Vt, lookup_insert_ne, lookup_insert_eq.
  - by rewrite Vr, lookup_insert_eq.
  - unfold Ring.msg_words. rewrite ring_of_bytes by apply Hsr. by rewrite Sr.
  - by eapply sized_slots.
  - rewrite (sized_words num t Hst), length_replicate, St. done.
  - rewrite (sized_words num r Hsr), length_replicate, Sr. done.
  - by apply Forall_replicate.
  - split_and!; try done. unfold tail_reg. cbn [csr]. rewrite Ct, Ot, It, Z.shiftl_mul_pow2 by done.
    replace (0 + 256 + i * 2 ^ 2) with (0x100 + 4 * i) by lia. by rewrite Hf2, Hp1, Hf1 by lia.
  - done.
  - done.
Qed.

(** C26 A failed creation ruins its bank.  When [icp_adf_transCreateHandle] fails,
    either nothing has happened or the table of the bank's rings is gone, with
    whatever rings were in it, and the bank still points to its freed bundle: any
    later creation on the bank, whatever the system answers, goes wrong -- it
    frees the bundle again, writes to registers no longer mapped or stores
    through NULL -- and polling the bank can only report that there is nothing. *)
Theorem create_failure_poisons a accel b cb resp n sz u h u' :
  bundles u !! 0 = None → (∀ x ptr, a_bundle a = Some (x, ptr) → x ≠ 0) →
  icp_adf_transCreateHandle a accel b cb resp n sz u = Some ((CPA_STATUS_FAIL, h), u') →
  u' = u ∨
  ((∀ a' accel' cb' resp' n' sz', accel' ≠ 0 →
      icp_adf_transCreateHandle a' accel' b cb' resp' n' sz' u' = None) ∧
   ∀ q st p', icp_sal_pollBank true b q (proc_of u') = Some (st, p') → st = CPA_STATUS_RETRY).
Proof.
  intros Hz Ha E. enough (u' = u ∨ poisoned b u') as [|Hp]; [by left| |].
  { right. split; [intros; by apply dead_create|]. intros q st p'.
    destruct Hp as (v & Hv & _ & _ & Hr). pose proof (aget_Some _ _ _ Hv).
    unfold icp_sal_pollBank. cbn [negb]. rewrite bind_gets.
    destruct (Z.leb_spec (Z.of_nat (length (banks (proc_of u')))) b); [lia|].
    unfold get_bank. rewrite bind_assoc, bind_gets. unfold bank_of in Hv. rewrite Hv, bind_lift.
    unfold READ_CSR_E_STAT, csr_rd. rewrite bind_gets, Hr.
    destruct (_ =? 0); [by intros [= <- _]|]. done. }
  unfold icp_adf_transCreateHandle in E. destruct (accel =? 0); [done|].
  unfold bind at 1 in E. rewrite the_bank_run in E. destruct (bank_of b u) as [v|] eqn:Hv; [|done].
  simpl in E. destruct (bundle v =? 0).
  - destruct (init_bank_run b a u v Hv Ha Hz) as (st & u1 & Hi & Hcase).
    rewrite (bind_Some _ _ _ _ _ Hi) in E. destruct Hcase as [[-> Hp]|[-> Hz1]].
    + change (CPA_STATUS_FAIL <? 0) with true in E. cbv iota in E. injection E as _ <-. exact Hp.
    + right. exact (ends_create_ring b _ _ _ _ _ _ _ _ _ Hz1 E).
  - rewrite bind_ret in E. right. exact (ends_create_ring b _ _ _ _ _ _ _ _ _ Hz E).
Qed.

(** ** A process with one bank *)

Module Example.

Definition bank : adf_dev_bank_handle_t := Bank 0 0 0 0xff 0 0x8000 5 (Some (replicate 16 0)).
(** Four counters; the bundle 5 is mapped. *)
Definition u : user :=
  User (Proc ∅ [bank] (list_to_map ((λ k, (0x100 + 4 * k, 9)) <$> seqZ 0 8)) ∅ ∅ []) {[5 := 0x8000]} [] 0x100.
Definition well (i h v : Z) : answers :=
  Answers None true (Some i) true h true true v (v + 1) [] true.

Lemma u_ready : bank_ready 0 1 bank u.
Proof.
  split_and!; try done.
  - unfold is_mapped. by vm_compute; left.
  - by eexists.
Qed.

Lemma well_well i h v : h ≠ 0 → v ≠ 0 → v + 1 ≠ 0 → all_well i (well i h v).
Proof. by intros. Qed.

Lemma create_pair_initial_witness :
  0 < 9 ∧ ∃ u1 u2 t r tb rb,
    icp_adf_transCreateHandle (well 1 1 0x10000) 3 0 7 ICP_RESP_TYPE_NONE 9 64 u =
      Some ((CPA_STATUS_SUCCESS, 1), u1) ∧
    icp_adf_transCreateHandle (well 9 2 0x20000) 3 0 7 ICP_RESP_TYPE_POLL 9 32 u1 =
      Some ((CPA_STATUS_SUCCESS, 2), u2) ∧
    initial 8 1 2 (USys (proc_of u2) Ready [] 0 0 [] 0 [] [] []) t r tb rb.
Proof.
  split; [done|].
  apply (create_pair_initial (well 1 1 0x10000) (well 9 2 0x20000) 3 0 1 7 7 9 64 u bank u_ready);
    try done; by left.
Defined.

Lemma create_release_witness :
  handles (proc_of u) !! 1 = None ∧ ∃ u1 u2,
    icp_adf_transCreateHandle (well 1 1 0x10000) 3 0 7 ICP_RESP_TYPE_POLL 9 32 u =
      Some ((CPA_STATUS_SUCCESS, 1), u1) ∧
    icp_adf_transReleaseHandle 1 u1 = Some (CPA_STATUS_SUCCESS, u2) ∧ mem (proc_of u2) = ∅.
Proof.
  split; [done|].
  destruct (create_release (well 1 1 0x10000) 3 0 1 7 ICP_RESP_TYPE_POLL 9 32 u bank u_ready)
    as (u1 & u2 & _ & E1 & E2 & _ & E3 & _); [done..|by right|done|done|].
  exists u1, u2. exact (conj E1 (conj E2 E3)).
Defined.

(** The ring number is not in the configuration. *)
Definition ill : answers := Answers None true None true 1 true true 0x10000 0x10001 [] true.
Definition u' : user :=
  match icp_adf_transCreateHandle ill 3 0 7 ICP_RESP_TYPE_NONE 9 64 u with Some (_, v) => v | None => u end.

Lemma create_failure_poisons_witness :
  icp_adf_transCreateHandle ill 3 0 7 ICP_RESP_TYPE_NONE 9 64 u = Some ((CPA_STATUS_FAIL, 0), u') ∧
  icp_adf_transCreateHandle (well 1 1 0x10000) 3 0 7 ICP_RESP_TYPE_NONE 9 64 u' = None.
Proof.
  assert (icp_adf_transCreateHandle ill 3 0 7 ICP_RESP_TYPE_NONE 9 64 u = Some ((CPA_STATUS_FAIL, 0), u'))
    as E by by vm_compute.
  split; [exact E|].
  destruct (create_failure_poisons ill 3 0 7 ICP_RESP_TYPE_NONE 9 64 u 0 u') as [Hu|[Hd _]];
    [done|done|exact E| |by apply Hd].
  exfalso. apply (f_equal bundles) in Hu. by vm_compute in Hu.
Defined.

End Example.

End UserRingSetup.
